(* ===== verification/_CoqProject ===== *)
-Q . S2P
Prelude.v
Admission.v
Domain.v
Lifecycle.v
ProviderJournal.v
ProviderStore.v
ProviderAdmission.v
ProviderReleaseFacts.v
ProviderAdmissionFacts.v
ProviderPlacementFacts.v
PressureGate.v
PressurePublish.v
MemberDrain.v
MemberDrainFacts.v
SlabHeal.v
QueueIntent.v
QueueScheduler.v
QueueSchedulerFacts.v
QueueBudgetFacts.v
QueueAdmitClaims.v
QueueOps.v
QueueOpsFacts.v
QueueOpsClaims.v
StateFile.v
GoText.v
VanishedJob.v
VanishedJobFacts.v
SchedulerRecovery.v
SchedulerRecoveryFacts.v
SchedulerRecoveryClaims.v
Tenant.v
QueueReader.v
QueueReaderFacts.v
JobLifecycle.v
ProviderRetry.v
ProviderRetryFacts.v
CacheNamespace.v
NetIP.v
FleetConfig.v
FleetConfigFacts.v
QueueAdmission.v
QueuePhase.v
HostProbe.v
ProviderHost.v
NDDevAdmission.v
NDDevAdmissionFacts.v
PilotFacts.v
IncusProvider.v
IncusProviderFacts.v
IncusProviderClaims.v
WarmRoundtrip.v
IncusProviderExample.v
CreateRetry.v
CreateRetryFacts.v
CreateRetryClaims.v
IncusPlan.v
IncusPlanFacts.v
IncusPlacement.v
IncusPlacementFacts.v
IncusReconcile.v
IncusReconcileFacts.v
IncusConverge.v
IncusReconcileClaims.v
IncusPlanExample.v
IdleRetire.v
IdleRetireFacts.v
QueueReconcile.v
QueueReconcileFacts.v
QueueReconcileClaims.v
CacheBroker.v
CacheBrokerFacts.v
CacheBrokerClaims.v
CacheDelivery.v
IncusCreate.v
IncusCreateFacts.v
IncusCreateClaims.v
IncusCreateExample.v
StageTransaction.v
StageTransactionFacts.v
ProviderConfig.v
