(* ===== verification/Prelude.v ===== *)
(** * Verification of the GitHub Actions fleet engine

    The program runs GitHub Actions jobs on ephemeral Incus instances. GARM (with
    an overlay) asks an Incus provider for instances; the provider reserves
    capacity in a journal before it touches Incus; every cluster member publishes
    a pressure gate that decides whether new work may be placed on it; operators
    and timers drain, restore and heal members. Beside that path, controllers
    recover a stalled scheduler, jobs whose runner vanished and terminal retry
    circuits; readers of the queue journal authorize and bind running jobs; an
    exporter tells the life of every job; tenants and cache namespaces keep
    accounts and trust classes apart.

    ** Files and the code they model (under src/)

    - [Prelude] (this file): errors and results, 64-bit integers that wrap, times,
      comparisons of floats, strings, [sort.Slice], loops that may fail, and the
      lemmas and tactics the other files share.
    - [Admission]: internal/admission/admission.go. [Evaluate] computes the reserves
      and remaining resources in machine arithmetic and picks the first refusing
      reason.
    - [Domain]: internal/domain/job.go. Job identities and their SHA-256 keys
      (module [Sha256] is an executable SHA-256).
    - [Lifecycle]: internal/lifecycle/lifecycle.go. A worker's transition table, job
      binding and outcome.
    - [ProviderJournal]: internal/providerjournal/types.go. Leases, claims, and
      [Validate]; [journal_wf] is its declarative counterpart.
    - [ProviderStore]: internal/providerjournal/store.go and maintenance.go. The file
      on disk, [readUnlocked] with its schema upgrade, [writeUnlocked] with a fault
      at every step, the locked [Update], and expired-maintenance removal.
    - [ProviderAdmission]: internal/provideradmission/controller.go, all of it. Each
      public operation is argument checks followed by one mutation under
      [ProviderStore.Update]; the mutations are the closures of the source.
      [ProviderReleaseFacts], [ProviderAdmissionFacts] and [ProviderPlacementFacts]
      hold its theorems.
    - [PressureGate]: internal/pressuregate/pressure.go, the gate itself.
    - [PressurePublish]: the metadata and drain marker of pressure.go,
      internal/pressurepublish/publish.go, and the publisher command and gate
      operations of cmd/gha-fleet/main.go.
    - [MemberDrain]: internal/memberdrain/drain.go over a record of injected
      operations on a world type; [MemberDrainFacts] states the laws those
      operations need as type classes, instantiates them with the deployed
      operations (marker, gate, cluster, publisher cycles running during every
      sleep) and proves the theorems.
    - [SlabHeal]: internal/slabheal/slabheal.go and the heal command of main.go.
    - [QueueIntent], [QueueScheduler], [QueueOps]:
      third_party/garm/overlay/workers/scaleset/queue_intent.go, the durable job
      queue added to GARM. [QueueIntent] is the data, its validation, expiry and
      identity rules; [QueueScheduler] the budgets, the order of candidates, the
      resource fit, admission and yielding; [QueueOps] every operation of the
      coordinator as a mutation inside the locked transaction [update], with the
      schema upgrades of the journal. [QueueSchedulerFacts] shows which changes to
      stored scheduling state are invisible; [QueueBudgetFacts] is the abstract
      admission rule ([may_admit], [admissions]) and what follows from it;
      [QueueOpsFacts] tracks identities through every mutation;
      [QueueAdmitClaims] and [QueueOpsClaims] hold the theorems and a concrete
      fleet.
    - [StateFile], [GoText]: the lock, read and rename discipline shared by the
      small state files, and the text and time functions of the standard library.
    - [VanishedJob]: internal/vanishedjob (policy, decision, state file, controller);
      GitHub's answers are arguments and its calls a list of effects.
      [VanishedJobFacts] holds its theorems.
    - [SchedulerRecovery]: internal/schedulerrecovery (decision, observation and
      command contracts, state file, recovery, controller) in a state monad over
      the state file and the list of effects; facts and theorems in
      [SchedulerRecoveryFacts] and [SchedulerRecoveryClaims].
    - [Tenant]: internal/tenant, and the URL boundary checks of
      internal/garmproviderincus/provider/incus.go.
    - [QueueReader]: internal/queueintent, the reader's own validation and upgrade,
      the active view, authorization, binding, release and recovery, over the
      journal type of [QueueIntent]; [QueueReaderFacts].
    - [JobLifecycle]: internal/joblifecycle/joblifecycle.go and its export command.
    - [ProviderRetry]: internal/providerretry/recovery_linux.go; [ProviderRetryFacts].
    - [CacheNamespace]: internal/cachenamespace/namespace.go.
    - [NetIP]: the address and prefix functions of net/netip.
    - [FleetConfig]: internal/config (types.go, validate.go), the decoded platform
      configuration with its derived values and its validation issue by issue, and
      internal/hostcapacity; [FleetConfigFacts] reads an empty list of issues.
    - [QueueAdmission]: internal/queueadmission, the fleet's check of the queue
      configuration, alone and against the platform.
    - [QueuePhase]: internal/queuephase, the phases between two samples of the queue.
    - [HostProbe]: internal/hostprobe (types.go, evaluate.go), the observation of a
      host, its findings and the two verdicts.
    - [ProviderHost]: provider/cluster.go of internal/garmproviderincus, the snapshot
      admission decides on, local or summed over the members.
    - [NDDevAdmission]: provider/admission.go, the front that authorizes a create by
      the queue, takes the inventory of instances and calls the controller;
      [NDDevAdmissionFacts] composes it with the models of those components,
      with a concrete fleet; [PilotFacts] compares the
      operator's gate with runtime admission.
    - [IncusProvider]: provider/incus.go and warm.go, the programs that launch,
      promote, reconcile, drain and delete instances. A program maps the history of
      its calls to Incus and the journal to a longer history and a result; every
      answer is an arbitrary function of the history. [IncusProviderFacts] says what
      a program may emit and decomposes a pass, [IncusProviderClaims] has the
      claims, [WarmRoundtrip] what an instance's keys are read back as,
      [IncusProviderExample] a concrete pool.
    - [CreateRetry]: overlay/workers/provider/nddev_create_retry.go of
      third_party/garm, the coordinator that delays and stops provider creates;
      [CreateRetryFacts], [CreateRetryClaims] (with the recovery command of
      [ProviderRetry] on the same file).
    - [IncusPlan], [IncusPlacement]: internal/incusplan/plan.go and
      internal/incusplacement/scriptlet.go, the desired Incus objects of a member and
      the Starlark program that places an instance, with binary64 arithmetic;
      [IncusPlanFacts], [IncusPlacementFacts].
    - [IncusReconcile]: internal/incusreconcile/reconcile.go over an arbitrary daemon;
      [IncusReconcileFacts], [IncusReconcileClaims]; [IncusConverge] states as a
      class what a daemon that stores what it is sent does; [IncusPlanExample].
    - [IdleRetire]: confirmed_demand.go and idle_online_retire.go of
      overlay/workers/scaleset; [IdleRetireFacts].
    - [QueueReconcile]: queue_reconciliation.go of overlay/workers/scaleset and
      overlay/runner/pool with scale_set_identity.go and the patched functions of
      the pool manager they call, over the coordinator of [QueueOps];
      [QueueReconcileFacts], [QueueReconcileClaims].
    - [CacheBroker]: internal/cachebroker, over [CacheNamespace] and the reader of
      [QueueReader]; [CacheBrokerFacts], [CacheBrokerClaims].
    - [CacheDelivery]: provider/cache_delivery.go of internal/garmproviderincus, the
      one-job claim a worker receives for its cache, its withdrawal when it can not
      be handed over, and the check of an earlier delivery.
    - [IncusCreate]: CreateInstance of provider/incus.go with what it calls in specs.go,
      util.go and image_identity.go, as programs of [IncusProvider];
      [IncusCreateFacts] is a program logic whose guard is the reason of each event,
      [IncusCreateClaims] the theorems, [IncusCreateExample] concrete runs.
    - [StageTransaction]: internal/stagetransaction, a run of commands with receipts,
      over an arbitrary system; [StageTransactionFacts] is the machine it follows.
    - [ProviderConfig]: internal/garmproviderincus/config, the provider's own
      configuration and what validation makes of it.

    ** How state and effects are modelled

    Go's [int] is [Z] with every addition, subtraction, multiplication and division
    wrapped at 64 bits; theorems that need no overflow state the size bounds they
    use (2^50, see [Admission.size_bound]). A [time.Time] is a number of
    nanoseconds. A map is a [gmap]; where the source walks a map and the order
    could matter it sorts first, and so does the model, and where it does not, a
    theorem shows that the order is irrelevant. Reading an absent key yields the
    zero value and writing it back creates the entry, as in Go. A function that
    returns an error returns [result]; files are values with explicit faults; the
    clock, the lock and the answers of the cluster are arguments. Strings of a
    cluster member's config are kept as the values they render.

    ** What the theorems show

    - Admission: the machine-arithmetic decision is the arithmetic specification.
    - Journal: validation is exactly well-formedness; an update is atomic under every
      fault; maintenance removes only what it may; releases, transitions and claims
      do what they say on every branch and cannot produce an invalid journal.
    - Capacity: admitting an instance keeps all unpreempted leases within the host
      minus its reserves; victims are idle warm capacity, chosen deterministically,
      never more than needed, on one location for a placement.
    - Workers: at most one job per worker, consistent bookkeeping in every reachable
      state, and teardown always reachable.
    - Gate: hysteresis over arbitrary histories, the exact opening condition, stored
      states reload, metadata round trips, and a drained member stays closed under
      any sequence of publisher cycles.
    - Drain: termination within (Timeout + 2 skew)/Poll + 2 turns on a wall clock that
      stays within a skew of the elapsed time, honest reports, safety under
      interruption, dry runs change nothing.
    - Queue: filling the budget is a terminating sequence of admissions allowed by an
      abstract rule, never exceeds a budget and leaves no slot empty that a queued
      job may take; yielding returns at most one slot; aging is bounded; every
      transaction is atomic and stores only valid journals; no operation moves a
      job to another tenant; redelivery extends no lease; acquiring changes no
      reservation.
    - Readers and recovery: the reader accepts exactly what the coordinator writes, and
      refuses a file the group may read, which the coordinator accepts; binding, release and recovery change exactly the intents they name; a
      dispatcher restart has fresh authority and an incident at most three of
      them; GitHub is called only for a reason that is on record; a progress
      report is a partition of what was expected.
    - Isolation: no URL belongs to two tenants, no object key to two cache roots,
      and roots parse back to what they were built from.
    - Export: every transition of a job is told once, key by key.
    - Configuration: egress only to reviewed public addresses; every pool of a
      valid platform can run, with the capacity that its caps allow; a queue
      configuration that passes the fleet's checks is one the coordinator accepts,
      with the platform's scale sets, capacity and reservations.
    - Phases: the phases of an intent cover its observed life.
    - Provider: a granted admission has an intent of the asking account, a member
      that may take the work and a stored lease of the pool's size; the inventory
      accounts for every instance; the cluster snapshot is the sum over its online
      members and healthy exactly when one may take work; a host that passes the
      operator's gate admits a first worker.
    - Instances: deletion touches only what the provider owns and has recorded; a
      warm pass touches only what it listed and what it named and admitted itself, and
      reaches its target by deletions and promotions that really happened; what it creates is
      recognized as what it is; two ways in which a pass does not do what it says.
    - Create retries: in every journal that the coordinator and the recovery command
      can leave, delays are bounded and only a failure of the provider
      opens a circuit, though refused capacity counts towards it; one probe at a time in
      a saturated fleet; a reservation belongs to the longest waiting job.
    - Members: a plan opens only bounded egress; placement keeps what was promised on
      a member and respects its gate unless an image is built or tested; reconciliation changes only planned objects, the scheduler last,
      and a second run on a storing daemon has nothing to do.
    - Demand: a runner is retired only after two proofs of idleness half a minute
      apart; an intent is released only for a job that complete listings prove to be
      its own and completed; checks of an intent are five minutes apart.
    - Cache: credentials go only to the holder of a live claim and are the contents of
      the files configured for the claim's role and the repository; a claim serves one
      repository.
    - Creation: every step of a create has its reason in the steps before it; what it
      writes into an instance is what adoption and the inventory read back; a confirmed
      cache claim is accepted by the guest and marked ready, or withdrawn.
    - Transactions: commands run in order, each announced on disk first and none after
      a failure, and a receipt tells what its command did and digests what was captured.
    - Provider configuration: only private endpoints, pinned images, distinct state
      files, whatever the order of the map of images.
    - Defects: the journal store writes what it cannot read back
      ([ProviderStore.Update_oversize_wedges]); a long drain reason stops the
      publisher; the slab heal's reason is always too long, so it never reboots a
      member and leaves its publisher failing; a forced closure forgets the OOM
      count; yielding a slot held past the execution horizon makes the queue
      transaction fail ([QueueOpsClaims.yield_past_horizon_refused]); a recovery
      in stage detected reruns its workflow again and again
      ([VanishedJobFacts.detected_reruns_repeat]); completed jobs are never
      exported as such ([JobLifecycle.completed_never_said]); two reported
      minima depend on the iteration order of a map; a large queue journal
      blocks the recovery of a retry circuit; that recovery also writes a journal
      which nothing reads afterwards ([CreateRetryClaims.recovery_breaks_journal]);
      a warm instance of an outdated image stalls every pass; two pools of one
      memory size have no placement; an intent that names only an account
      authorizes every repository of it
      ([CacheBrokerClaims.account_intent_authorizes_any]); a create without direct JIT
      that is repeated after its cache claim was delivered with a bundle or used is refused
      ([IncusCreateClaims.bundled_retry_refused]); an expectation is compared with what
      the limit left of an output ([StageTransactionFacts.truncated_output_verified]).

    ** Bounds and fuel

    Only loops that are not structural take fuel: the drain's waiting loop
    ([MemberDrainFacts.wait_bound], from the timeout, the poll and the skew of the
    clock, is proved sufficient), the loop that
    fills the queue budget (one turn per queued intent and one more,
    [QueueBudgetFacts.admit_loop_spec]) and the yielding loop (two turns,
    [QueueAdmitClaims.yield_one_slot]). Retries until a deadline are structural on a
    number of turns that is an arbitrary answer of the environment.

    ** Not modelled

    The Incus, GitHub and GARM clients, HTTP services, process execution and text
    rendering are outside; JSON decoding is represented by the decoded document
    and its possible failures; flock is a result in the environment. The manifest
    lists every other package with its reason. Next in the plan: the
    image manifest, the reconciliation of the object store and the observation of
    the fleet. *)

From stdpp Require Export base tactics decidable option list numbers strings gmap
  fin_maps fin_map_dom sets sorting pretty.
From Stdlib Require QArith_base.
From Stdlib Require Export Ascii.
From Stdlib Require Export Lia.

#[global] Set Default Goal Selector "!".
#[global] Set Warnings "-clear-no-such-hyp".

(** ** Errors and results

    A Go [error] built by [fmt.Errorf] is its format together with the
    interpolated arguments; [%w] wraps another error. *)
Inductive error :=
  | Errorf (format : string) (args : list string)
  | Wrapf (format : string) (args : list string) (inner : error).

(** A Go function with results [(T, error)]: either the value, or the error. *)
Inductive result (A : Type) :=
  | Ok (a : A)
  | Err (e : error).
Arguments Ok {_} _.
Arguments Err {_} _.

#[export] Instance result_ret : MRet result := λ A a, Ok a.
#[export] Instance result_bind : MBind result := λ A B f m,
  match m with Ok a => f a | Err e => Err e end.

(** [if cond { return fmt.Errorf(...) }]. *)
Definition fail_if (cond : bool) (e : error) : result unit :=
  if cond then Err e else Ok tt.

(** [return ..., fmt.Errorf("...: %w", err)]. *)
Definition wrap_err {A} (format : string) (m : result A) : result A :=
  match m with Ok a => Ok a | Err e => Err (Wrapf format [] e) end.

Definition is_Ok {A} (m : result A) : bool :=
  match m with Ok _ => true | Err _ => false end.

(** A [for _, x := range xs] loop whose body may return early with an error. *)
Fixpoint foldM {A S} (body : S → A → result S) (xs : list A) (s : S) : result S :=
  match xs with
  | [] => Ok s
  | x :: xs => s' ← body s x; foldM body xs s'
  end.

(** A loop that only checks. *)
Definition forM {A} (xs : list A) (check : A → result unit) : result unit :=
  foldM (λ _ x, check x) xs tt.

(** ** Scope of the development's notations *)
Declare Scope go_scope.
Delimit Scope go_scope with go.

(** ** Machine integers

    [int] is Go's 64-bit signed integer: every arithmetic operation wraps. *)
Definition two64 : Z := 18446744073709551616.
Definition max_int64 : Z := 9223372036854775807.
Definition min_int64 : Z := -9223372036854775808.
Definition max_uint64 : Z := 18446744073709551615.

Definition wrap64 (z : Z) : Z :=
  (z + 9223372036854775808) `mod` 18446744073709551616 - 9223372036854775808.

Definition int_add (a b : Z) : Z := wrap64 (a + b).
Definition int_sub (a b : Z) : Z := wrap64 (a - b).
Definition int_mul (a b : Z) : Z := wrap64 (a * b).
Definition int_div (a b : Z) : Z := wrap64 (a `quot` b).

Notation "a ⊕ b" := (int_add a b) (at level 50, left associativity) : go_scope.
Notation "a ⊖ b" := (int_sub a b) (at level 50, left associativity) : go_scope.
Notation "a ⊗ b" := (int_mul a b) (at level 40, left associativity) : go_scope.
Notation "a ⊘ b" := (int_div a b) (at level 40, left associativity) : go_scope.

Definition in_int64 (z : Z) : Prop := (min_int64 ≤ z ≤ max_int64)%Z.

(** ** Time

    [time.Time] is a number of nanoseconds since the zero time (0001-01-01 UTC);
    every instant the program compares was normalised with [.UTC()], which drops
    the monotonic reading, so [==] and [Equal] agree. [time.Duration] is a
    signed 64-bit number of nanoseconds, and [Sub] saturates. *)
Abbreviation Time := Z (only parsing).
Abbreviation Duration := Z (only parsing).

Definition zero_time : Time := 0%Z.
Definition Second : Duration := 1000000000%Z.
Definition Minute : Duration := 60000000000%Z.
Definition Hour : Duration := 3600000000000%Z.

Definition IsZero (t : Time) : bool := bool_decide (t = zero_time).
Definition After (t u : Time) : bool := (u <? t)%Z.
Definition Before (t u : Time) : bool := (t <? u)%Z.
Definition Add (t : Time) (d : Duration) : Time := (t + d)%Z.
Definition Sub (t u : Time) : Duration := Z.max min_int64 (Z.min max_int64 (t - u)).

(** [time.Duration(n) * time.Second]. *)
Definition seconds (n : Z) : Duration := int_mul n Second.

(** ** Floating point

    The program only compares [float64] values, so a finite value is the
    rational it denotes; NaN is kept because every comparison with it is false. *)
Inductive float64 :=
  | Finite (q : QArith_base.Q)
  | PosInf
  | NegInf
  | NaN.

Definition fle (a b : float64) : bool :=
  match a, b with
  | NaN, _ | _, NaN => false
  | NegInf, _ | _, PosInf => true
  | Finite p, Finite q => QArith_base.Qle_bool p q
  | _, _ => false
  end.
Definition flt (a b : float64) : bool :=
  match a, b with
  | NaN, _ | _, NaN => false
  | _, _ => negb (fle b a)
  end.
Definition feq (a b : float64) : bool := fle a b && fle b a.
Definition f_int (z : Z) : float64 := Finite (QArith_base.inject_Z z).

Notation "a <f b" := (flt a b) (at level 70) : go_scope.
Notation "a ≤f b" := (fle a b) (at level 70) : go_scope.

(** ** Strings *)

(** [strings.HasPrefix(s, prefix)]. *)
Definition HasPrefix (s pre : string) : bool := String.prefix pre s.

(** [strings.Contains(s, "c")] for a one-byte needle. *)
Fixpoint contains_byte (c : Ascii.ascii) (s : string) : bool :=
  match s with
  | EmptyString => false
  | String a s => bool_decide (a = c) || contains_byte c s
  end.

(** [strings.Split(s, "c")] for a one-byte separator. *)
Fixpoint split_byte (c : Ascii.ascii) (s : string) : list string :=
  match s with
  | EmptyString => [EmptyString]
  | String a s =>
      if bool_decide (a = c) then EmptyString :: split_byte c s
      else match split_byte c s with
           | [] => [String a EmptyString]
           | w :: ws => String a w :: ws
           end
  end.

Definition bytes (codes : list nat) : string :=
  foldr (λ n s, String (Ascii.ascii_of_nat n) s) EmptyString codes.

(** The UTF-8 encodings of the code points [unicode.IsSpace] accepts. *)
Definition space_runes : list string :=
  (λ n, bytes [n]) <$> [9; 10; 11; 12; 13; 32].

Definition wide_space_runes : list string :=
  [bytes [194; 133]; bytes [194; 160]; bytes [225; 154; 128]] ++
  ((λ n, bytes [226; 128; n]) <$> (seq 128 11 ++ [168; 169; 175])) ++
  [bytes [226; 129; 159]; bytes [227; 128; 128]].

Fixpoint rev_string_app (s acc : string) : string :=
  match s with
  | EmptyString => acc
  | String a s => rev_string_app s (String a acc)
  end.
Definition rev_string (s : string) : string := rev_string_app s EmptyString.

Definition starts_with_space (s : string) : bool :=
  existsb (λ r, String.prefix r s) (space_runes ++ wide_space_runes).
Definition ends_with_space (s : string) : bool :=
  existsb (λ r, String.prefix (rev_string r) (rev_string s)) (space_runes ++ wide_space_runes).

(** [strings.TrimSpace(s) == s]. *)
Definition trimmed (s : string) : bool :=
  negb (starts_with_space s) && negb (ends_with_space s).

(** The rest of [s] after its first [n] bytes. *)
Fixpoint drop_bytes (n : nat) (s : string) : string :=
  match n, s with
  | O, _ => s
  | S n, String _ s => drop_bytes n s
  | S _, EmptyString => EmptyString
  end.

(** [strings.TrimSpace(s) == EmptyString]: space runes all the way; every rune
    is at least one byte long. *)
Fixpoint blank_within (fuel : nat) (s : string) : bool :=
  match fuel with
  | O => bool_decide (s = EmptyString)
  | S fuel =>
      bool_decide (s = EmptyString) ||
      match List.find (λ r, String.prefix r s) (space_runes ++ wide_space_runes) with
      | Some r => blank_within fuel (drop_bytes (String.length r) s)
      | None => false
      end
  end.
Definition blank (s : string) : bool := blank_within (String.length s) s.

(** [strings.ContainsAny(s, chars)] for one-byte characters. *)
Definition contains_any (chars : list Ascii.ascii) (s : string) : bool := existsb (λ c, contains_byte c s) chars.

(** ** Sorting

    [sort.Slice(xs, less)] is any permutation ordered by "not [less] backwards";
    merge sort is one, and for a [less] that separates distinct elements it is
    the only one ([sort_slice_unique]). *)
Definition less_rel {A} (less : A → A → bool) : relation A := λ x y, less y x = false.

#[export] Instance less_rel_dec {A} (less : A → A → bool) x y : Decision (less_rel less x y).
Proof. unfold less_rel. apply _. Defined.

Definition sort_slice {A} (less : A → A → bool) (xs : list A) : list A :=
  merge_sort (less_rel less) xs.

(** [sort.Strings]. *)
Definition sort_strings (xs : list string) : list string := merge_sort String.le xs.

Definition string_ltb (a b : string) : bool := negb (String.leb b a).

(** The keys of a map, sorted: the order in which the code walks a map whenever
    the walk's effect could depend on it. *)
Definition sorted_keys {V} (m : gmap string V) : list string :=
  sort_strings (fst <$> map_to_list m).

(** * Generic lemmas and automation *)

Create HintDb go discriminated.
Create Rewrite HintDb go_wrap.

Lemma bind_Ok {A B} (m : result A) (f : A → result B) b :
  (m ≫= f) = Ok b ↔ ∃ a, m = Ok a ∧ f a = Ok b.
Proof. destruct m as [a|e]; simpl; split.
  - eauto.
  - by intros (? & [= ->] & ?).
  - done.
  - by intros (? & ? & ?). Qed.

Lemma Ok_inj {A} (a b : A) : Ok a = Ok b → a = b.
Proof. by intros [= ->]. Qed.

Lemma fail_if_Ok cond e u : fail_if cond e = Ok u ↔ cond = false.
Proof. destruct cond, u; naive_solver. Qed.

Lemma fail_if_Ok_bind {A} cond e (k : result A) :
  (fail_if cond e ≫= λ _, k) = if cond then Err e else k.
Proof. by destruct cond. Qed.

Lemma wrap_err_Ok {A} fmt (m : result A) a : wrap_err fmt m = Ok a ↔ m = Ok a.
Proof. destruct m; naive_solver. Qed.

Lemma foldM_app {A S} (body : S → A → result S) xs ys s :
  foldM body (xs ++ ys) s = s' ← foldM body xs s; foldM body ys s'.
Proof.
  revert s; induction xs as [|x xs IH]; intros s; [done|]. simpl.
  destruct (body s x); simpl; [apply IH|done].
Qed.

(** The loop rule: an invariant kept by the body is kept by the loop. *)
Lemma foldM_inv {A S} (P : S → Prop) (body : S → A → result S) xs s s' :
  (∀ x s s', x ∈ xs → P s → body s x = Ok s' → P s') →
  P s → foldM body xs s = Ok s' → P s'.
Proof.
  revert s; induction xs as [|x xs IH]; intros s Hbody Hs; simpl.
  { naive_solver. }
  rewrite bind_Ok. intros (s1 & H1 & H2).
  eapply IH; [|eapply Hbody, H1; [set_solver|done]|exact H2].
  intros y t t' ?; apply Hbody; set_solver.
Qed.

Lemma forM_Ok {A} (xs : list A) (check : A → result unit) u :
  forM xs check = Ok u ↔ ∀ x, x ∈ xs → check x = Ok tt.
Proof.
  destruct u. unfold forM. induction xs as [|x xs IH]; simpl.
  { split; [set_solver|done]. }
  rewrite bind_Ok. split.
  - intros ([] & Hx & Hxs) y [->|Hy]%elem_of_cons; [done|]. by apply IH.
  - intros H. exists tt. split; [apply H; set_solver|]. apply IH. set_solver.
Qed.

(** Splits a successful monadic computation in a hypothesis into its steps. *)
Ltac inv_ok :=
  repeat match goal with
  | H : (_ ≫= _) = Ok _ |- _ =>
      let x := fresh "x" in let H1 := fresh H in
      apply bind_Ok in H as (x & H1 & H)
  | H : fail_if _ _ = Ok _ |- _ => apply fail_if_Ok in H
  | H : wrap_err _ _ = Ok _ |- _ => apply wrap_err_Ok in H
  | H : Ok _ = Ok _ |- _ => apply Ok_inj in H; try subst
  | H : Err _ = Ok _ |- _ => discriminate H
  | H : Ok _ = Err _ |- _ => discriminate H
  | H : (if ?b then Err _ else _) = Ok _ |- _ => destruct b eqn:?; [discriminate H|]
  | H : mret _ = Ok _ |- _ => unfold mret, result_ret in H
  end.

(** Turns boolean connectives and tests in the hypotheses into propositions. *)
Ltac bool_hyps :=
  repeat match goal with
  | H : (_ || _) = false |- _ => apply orb_false_iff in H as [? ?]
  | H : (_ && _) = true |- _ => apply andb_true_iff in H as [? ?]
  | H : negb _ = true |- _ => apply negb_true_iff in H
  | H : negb _ = false |- _ => apply negb_false_iff in H
  | H : bool_decide _ = true |- _ => apply bool_decide_eq_true in H
  | H : bool_decide _ = false |- _ => apply bool_decide_eq_false in H
  end.

(** ** Machine integers *)

Lemma wrap64_small z : in_int64 z → wrap64 z = z.
Proof.
  unfold wrap64, in_int64, min_int64, max_int64. intros ?.
  rewrite Z.mod_small by lia. lia.
Qed.

Lemma wrap64_range z : in_int64 (wrap64 z).
Proof.
  unfold wrap64, in_int64, min_int64, max_int64.
  pose proof (Z.mod_pos_bound (z + 9223372036854775808) 18446744073709551616). lia.
Qed.

Lemma wrap64_add_l a b : wrap64 (wrap64 a + b) = wrap64 (a + b).
Proof.
  unfold wrap64. f_equal.
  replace ((a + 9223372036854775808) `mod` 18446744073709551616 - 9223372036854775808
    + b + 9223372036854775808)%Z
    with ((a + 9223372036854775808) `mod` 18446744073709551616 + b)%Z by lia.
  rewrite Zplus_mod_idemp_l. f_equal. lia.
Qed.

Lemma wrap64_add_r a b : wrap64 (a + wrap64 b) = wrap64 (a + b).
Proof. rewrite Z.add_comm, wrap64_add_l. f_equal. lia. Qed.

Lemma int_add_comm a b : int_add a b = int_add b a.
Proof. unfold int_add. f_equal. lia. Qed.

Lemma int_add_assoc a b c : int_add (int_add a b) c = int_add a (int_add b c).
Proof. unfold int_add. rewrite wrap64_add_l, wrap64_add_r. f_equal. lia. Qed.

#[export] Hint Rewrite wrap64_add_l wrap64_add_r : go_wrap.

(** ** Sorting *)

Lemma sort_slice_perm {A} (less : A → A → bool) xs : sort_slice less xs ≡ₚ xs.
Proof. apply merge_sort_Permutation. Qed.

(** A [less] function that is a strict weak order. *)
Class StrictWeak {A} (less : A → A → bool) : Prop := {
  less_asym x y : less x y = true → less y x = false;
  less_neg_trans x y z : less x y = false → less y z = false → less x z = false;
}.

#[export] Instance less_rel_total {A} (less : A → A → bool) `{!StrictWeak less} :
  Total (less_rel less).
Proof.
  intros x y. unfold less_rel. destruct (less y x) eqn:E; [right|by left].
  by apply less_asym.
Qed.

#[export] Instance less_rel_trans {A} (less : A → A → bool) `{!StrictWeak less} :
  Transitive (less_rel less).
Proof. intros x y z H1 H2. unfold less_rel in *. by apply less_neg_trans with y. Qed.

Lemma sort_slice_sorted {A} (less : A → A → bool) `{!StrictWeak less} xs :
  StronglySorted (less_rel less) (sort_slice less xs).
Proof. apply StronglySorted_merge_sort; apply _. Qed.

(** Any ordered arrangement of the same elements is the one computed here, when
    [less] separates the distinct elements of the slice. *)
Lemma sort_slice_unique {A} (less : A → A → bool) `{!StrictWeak less} xs ys :
  (∀ x y, x ∈ xs → y ∈ xs → less x y = false → less y x = false → x = y) →
  StronglySorted (less_rel less) ys → ys ≡ₚ xs → ys = sort_slice less xs.
Proof.
  intros Hsep Hys Hperm.
  apply (StronglySorted_unique_strong (less_rel less)).
  - intros x y. rewrite sort_slice_perm, Hperm. unfold less_rel. eauto.
  - done.
  - by apply sort_slice_sorted.
  - by rewrite sort_slice_perm.
Qed.

Lemma sort_slice_perm_eq {A} (less : A → A → bool) `{!StrictWeak less} xs ys :
  (∀ x y, x ∈ xs → y ∈ xs → less x y = false → less y x = false → x = y) →
  xs ≡ₚ ys → sort_slice less xs = sort_slice less ys.
Proof.
  intros Hsep Hp. symmetry. apply sort_slice_unique; [done|done| |].
  - by apply sort_slice_sorted.
  - by rewrite sort_slice_perm.
Qed.

Lemma elem_of_sort_slice {A} (less : A → A → bool) xs x : x ∈ sort_slice less xs ↔ x ∈ xs.
Proof. by rewrite sort_slice_perm. Qed.

Lemma sort_slice_head {A} (less : A → A → bool) `{!StrictWeak less} xs x rest y :
  sort_slice less xs = x :: rest → y ∈ xs → less y x = false.
Proof.
  intros Hs Hy. rewrite <- (elem_of_sort_slice less), Hs, elem_of_cons in Hy.
  pose proof (sort_slice_sorted less xs) as Hss. rewrite Hs in Hss.
  inversion Hss as [|? ? ? Hall]; subst. destruct Hy as [->|Hy].
  - destruct (less x x) eqn:E; [|done]. by apply less_asym in E as E'; congruence.
  - by eapply Forall_forall in Hall.
Qed.

Lemma elem_of_sort_strings xs x : x ∈ sort_strings xs ↔ x ∈ xs.
Proof. unfold sort_strings. by rewrite merge_sort_Permutation. Qed.

Lemma sort_strings_perm_eq xs ys : xs ≡ₚ ys → sort_strings xs = sort_strings ys.
Proof.
  intros Hp. apply (StronglySorted_unique String.le).
  - apply StronglySorted_merge_sort; apply _.
  - apply StronglySorted_merge_sort; apply _.
  - unfold sort_strings. by rewrite !merge_sort_Permutation.
Qed.

Lemma elem_of_sorted_keys {V} (m : gmap string V) k : k ∈ sorted_keys m ↔ is_Some (m !! k).
Proof.
  unfold sorted_keys. rewrite elem_of_sort_strings, list_elem_of_fmap. split.
  - intros ([k' v] & -> & Hin). apply elem_of_map_to_list in Hin. by eexists.
  - intros [v Hv]. exists (k, v). split; [done|]. by apply elem_of_map_to_list.
Qed.

Lemma NoDup_sorted_keys {V} (m : gmap string V) : NoDup (sorted_keys m).
Proof.
  unfold sorted_keys, sort_strings. rewrite merge_sort_Permutation.
  apply NoDup_fst_map_to_list.
Qed.

(** ** Sums and filtered maps *)

Definition sumZ {A} (f : A → Z) (xs : list A) : Z := foldr (λ x acc, (f x + acc)%Z) 0%Z xs.
#[global] Arguments sumZ : simpl never.

Lemma sumZ_nil {A} (f : A → Z) : sumZ f [] = 0%Z.
Proof. done. Qed.
Lemma sumZ_cons {A} (f : A → Z) x xs : sumZ f (x :: xs) = (f x + sumZ f xs)%Z.
Proof. done. Qed.

#[export] Instance sumZ_perm {A} (f : A → Z) : Proper ((≡ₚ) ==> (=)) (sumZ f).
Proof. intros xs ys Hp. unfold sumZ. induction Hp; simpl; lia. Qed.

Lemma sumZ_app {A} (f : A → Z) xs ys : sumZ f (xs ++ ys) = (sumZ f xs + sumZ f ys)%Z.
Proof. induction xs as [|x xs IH]; simpl; [done|]. unfold sumZ in *. simpl. lia. Qed.

Lemma sumZ_nonneg {A} (f : A → Z) xs : (∀ x, x ∈ xs → 0 ≤ f x)%Z → (0 ≤ sumZ f xs)%Z.
Proof.
  induction xs as [|x xs IH]; intros H; unfold sumZ in *; simpl; [done|].
  pose proof (H x ltac:(set_solver)). assert (∀ y, y ∈ xs → 0 ≤ f y)%Z as H' by set_solver.
  specialize (IH H'). lia.
Qed.

Lemma sumZ_filter_le {A} (f : A → Z) (P : A → Prop) `{!∀ x, Decision (P x)} xs :
  (∀ x, x ∈ xs → 0 ≤ f x)%Z → (sumZ f (filter P xs) ≤ sumZ f xs)%Z.
Proof.
  induction xs as [|x xs IH]; intros Hf; [done|].
  pose proof (Hf x ltac:(set_solver)). assert (∀ y, y ∈ xs → 0 ≤ f y)%Z as Hf' by set_solver.
  specialize (IH Hf'). rewrite filter_cons. case_decide; unfold sumZ in *; simpl; lia.
Qed.

Lemma map_to_list_filter {V} (P : string * V → Prop) `{!∀ x, Decision (P x)} (m : gmap string V) :
  map_to_list (filter P m) ≡ₚ filter P (map_to_list m).
Proof.
  rewrite map_filter_alt. apply map_to_list_to_map.
  assert (NoDup (map_to_list m).*1) as Hnd by apply NoDup_fst_map_to_list.
  revert Hnd. generalize (map_to_list m). intros l. induction l as [|[k v] l IH]; simpl; [done|].
  intros [Hk Hnd]%NoDup_cons. rewrite filter_cons. case_decide; [|by apply IH].
  simpl. apply NoDup_cons. split; [|by apply IH].
  intros ([k' v'] & ? & Hin)%list_elem_of_fmap. simpl in *; subst.
  apply Hk, list_elem_of_fmap. exists (k', v'). split; [done|]. by apply list_elem_of_filter in Hin as [_ ?].
Qed.

Lemma length_app_string (a b : string) : String.length (a +:+ b) = (String.length a + String.length b)%nat.
Proof. induction a as [|c a IH]; [done|]. simpl. by rewrite <-IH. Qed.

Lemma string_app_assoc (a b c : string) : (a +:+ b) +:+ c = a +:+ (b +:+ c).
Proof. induction a as [|x a IH]; [done|]. trans (String x ((a +:+ b) +:+ c)); [done|]. by rewrite IH. Qed.

Lemma string_app_empty (a : string) : a +:+ "" = a.
Proof. induction a as [|x a IH]; [done|]. trans (String x (a +:+ "")); [done|]. by rewrite IH. Qed.
