(* ===== verification/Admission.v ===== *)
(** * Host admission ([src/internal/admission/admission.go])

    The pure capacity decision: given a host snapshot, a reserve policy and a
    request, [Evaluate] either rejects malformed input or returns a decision
    with the remaining capacity and the reason. All arithmetic is on Go's
    wrapping 64-bit [int]. *)

From S2P Require Import Prelude.

Local Open Scope Z_scope.
Local Open Scope go_scope.

(** ** Data *)

Inductive Reason :=
  | ReasonNone  (* the zero value of a decision not yet made *)
  | ReasonAdmitted
  | ReasonHostUnhealthy
  | ReasonDiskPressure
  | ReasonPoolSaturated
  | ReasonInsufficientCPU
  | ReasonCPUAllowance
  | ReasonInsufficientMemory
  | ReasonPressureUnavailable
  | ReasonCPUPressure
  | ReasonMemoryPressure
  | ReasonIOPressure
  | ReasonRecentOOM
  | ReasonDiagnosticWAL
  | ReasonPlacementRefused
  | ReasonLargerClassWaiting.

#[export] Instance Reason_eq_dec : EqDecision Reason.
Proof. solve_decision. Defined.

Record HostSnapshot := {
  Healthy : bool;
  TotalCPUUnits : Z;
  TotalMemoryMiB : Z;
  AvailableMemoryMiB : Z;
  AllocatedCPUUnits : Z;
  AllocatedCPUAllowanceUnits : Z;
  AllocatedMemoryMiB : Z;
  FreeDiskPercent : Z;
  PressureAvailable : bool;
  CPUSomeAvg10 : float64;
  MemoryFullAvg10 : float64;
  IOFullAvg10 : float64;
  RecentOOMKills : Z;
}.

Record ReservePolicy := {
  MinimumCPUUnits : Z;
  MaximumFleetCPUPercent : Z;
  CPUAllowanceOvercommit : Z;
  MinimumMemoryMiB : Z;
  MinimumPercent : Z;
  MinimumFreeDiskPercent : Z;
  RequirePressure : bool;
  MaxCPUSomeAvg10 : float64;
  MaxMemoryFullAvg10 : float64;
  MaxIOFullAvg10 : float64;
  MaxRecentOOMKills : Z;
}.

Record Request := {
  PoolName : string;
  VCPU : Z;
  CPUAllowanceUnits : Z;
  MemoryMiB : Z;
}.

Record Decision := {
  Decision_Admitted : bool;
  DecisionReason : Reason;
  Pool : string;
  RequiredCPUReserve : Z;
  RequiredMemoryReserve : Z;
  RemainingCPUUnits : Z;
  RemainingCPUAllowanceUnits : Z;
  RemainingMemoryMiB : Z;
  RemainingAvailableMiB : Z;
}.

Definition zero_Decision : Decision := {|
  Decision_Admitted := false; DecisionReason := ReasonNone; Pool := "";
  RequiredCPUReserve := 0; RequiredMemoryReserve := 0; RemainingCPUUnits := 0;
  RemainingCPUAllowanceUnits := 0; RemainingMemoryMiB := 0; RemainingAvailableMiB := 0 |}.

(** ** Operations *)

Definition percentCeiling (total percent : Z) : Z := (total ⊗ percent ⊕ 99) ⊘ 100.

Definition effectiveOvercommit (declared : Z) : Z := if declared <=? 0 then 1 else declared.

Definition max (left right : Z) : Z := if right <? left then left else right.

Definition validate (snapshot : HostSnapshot) (policy : ReservePolicy) (request : Request) : result unit :=
  fail_if ((TotalCPUUnits snapshot <=? 0) || (TotalMemoryMiB snapshot <=? 0) || (AvailableMemoryMiB snapshot <=? 0))
    (Errorf "host totals must be positive" []);;
  fail_if (TotalMemoryMiB snapshot <? AvailableMemoryMiB snapshot)
    (Errorf "available memory exceeds host capacity" []);;
  fail_if (AllocatedCPUUnits snapshot <? 0) (Errorf "allocated CPU units are negative" []);;
  fail_if (AllocatedMemoryMiB snapshot <? 0) (Errorf "allocated memory is negative" []);;
  fail_if ((FreeDiskPercent snapshot <? 0) || (100 <? FreeDiskPercent snapshot))
    (Errorf "free disk percent must be between 0 and 100" []);;
  fail_if ((CPUSomeAvg10 snapshot <f f_int 0) || (f_int 100 <f CPUSomeAvg10 snapshot) ||
           (MemoryFullAvg10 snapshot <f f_int 0) || (f_int 100 <f MemoryFullAvg10 snapshot) ||
           (IOFullAvg10 snapshot <f f_int 0) || (f_int 100 <f IOFullAvg10 snapshot) ||
           (RecentOOMKills snapshot <? 0))
    (Errorf "pressure snapshot is invalid" []);;
  fail_if ((MinimumCPUUnits policy <? 0) || (MinimumMemoryMiB policy <? 0) ||
           (MinimumPercent policy <? 0) || (100 <? MinimumPercent policy))
    (Errorf "reserve policy is invalid" []);;
  fail_if ((MaximumFleetCPUPercent policy <? 0) || (98 <? MaximumFleetCPUPercent policy))
    (Errorf "aggregate CPU policy is invalid" []);;
  fail_if ((CPUAllowanceOvercommit policy <? 0) || (4 <? CPUAllowanceOvercommit policy))
    (Errorf "CPU allowance overcommit is invalid" []);;
  fail_if ((MinimumFreeDiskPercent policy <? 0) || (100 <? MinimumFreeDiskPercent policy))
    (Errorf "disk reserve policy is invalid" []);;
  fail_if ((MaxCPUSomeAvg10 policy <f f_int 0) || (f_int 100 <f MaxCPUSomeAvg10 policy) ||
           (MaxMemoryFullAvg10 policy <f f_int 0) || (f_int 100 <f MaxMemoryFullAvg10 policy) ||
           (MaxIOFullAvg10 policy <f f_int 0) || (f_int 100 <f MaxIOFullAvg10 policy) ||
           (MaxRecentOOMKills policy <? 0))
    (Errorf "pressure policy is invalid" []);;
  fail_if (bool_decide (PoolName request = "") || (VCPU request <=? 0) || (MemoryMiB request <=? 0))
    (Errorf "admission request is invalid" []).

Definition cpuReserve (snapshot : HostSnapshot) (policy : ReservePolicy) : Z :=
  if 0 <? MaximumFleetCPUPercent policy then 0
  else max (MinimumCPUUnits policy) (percentCeiling (TotalCPUUnits snapshot) (MinimumPercent policy)).

Definition memoryReserve (snapshot : HostSnapshot) (policy : ReservePolicy) : Z :=
  max (MinimumMemoryMiB policy) (percentCeiling (TotalMemoryMiB snapshot) (MinimumPercent policy)).

Definition allowanceLimit (snapshot : HostSnapshot) (policy : ReservePolicy) : Z :=
  if 0 <? MaximumFleetCPUPercent policy
  then TotalCPUUnits snapshot ⊗ MaximumFleetCPUPercent policy ⊘ 100
         ⊗ effectiveOvercommit (CPUAllowanceOvercommit policy)
  else TotalCPUUnits snapshot.

Definition allocatedAllowance (snapshot : HostSnapshot) : Z :=
  if bool_decide (AllocatedCPUAllowanceUnits snapshot = 0) then AllocatedCPUUnits snapshot
  else AllocatedCPUAllowanceUnits snapshot.

Definition requestedAllowance (request : Request) : Z :=
  if bool_decide (CPUAllowanceUnits request = 0) then VCPU request
  else CPUAllowanceUnits request.

Definition remainingCPU (snapshot : HostSnapshot) (request : Request) : Z :=
  TotalCPUUnits snapshot ⊖ AllocatedCPUUnits snapshot ⊖ VCPU request.
Definition remainingAllowance (snapshot : HostSnapshot) (policy : ReservePolicy) (request : Request) : Z :=
  allowanceLimit snapshot policy ⊖ allocatedAllowance snapshot ⊖ requestedAllowance request.
Definition remainingMemory (snapshot : HostSnapshot) (request : Request) : Z :=
  TotalMemoryMiB snapshot ⊖ AllocatedMemoryMiB snapshot ⊖ MemoryMiB request.
Definition remainingAvailableMemory (snapshot : HostSnapshot) (request : Request) : Z :=
  AvailableMemoryMiB snapshot ⊖ MemoryMiB request.

(** The [switch] of [Evaluate], first matching case wins. *)
Definition decide_reason (snapshot : HostSnapshot) (policy : ReservePolicy) (request : Request) : Reason :=
  let pressure := RequirePressure policy && PressureAvailable snapshot in
  if negb (Healthy snapshot) then ReasonHostUnhealthy
  else if FreeDiskPercent snapshot <? MinimumFreeDiskPercent policy then ReasonDiskPressure
  else if RequirePressure policy && negb (PressureAvailable snapshot) then ReasonPressureUnavailable
  else if pressure && (MaxRecentOOMKills policy <? RecentOOMKills snapshot) then ReasonRecentOOM
  else if pressure && (MaxMemoryFullAvg10 policy <f MemoryFullAvg10 snapshot) then ReasonMemoryPressure
  else if pressure && (MaxCPUSomeAvg10 policy <f CPUSomeAvg10 snapshot) then ReasonCPUPressure
  else if pressure && (MaxIOFullAvg10 policy <f IOFullAvg10 snapshot) then ReasonIOPressure
  else if remainingCPU snapshot request <? cpuReserve snapshot policy then ReasonInsufficientCPU
  else if remainingAllowance snapshot policy request <? 0 then ReasonCPUAllowance
  else if (remainingMemory snapshot request <? memoryReserve snapshot policy)
          || (remainingAvailableMemory snapshot request <? memoryReserve snapshot policy)
       then ReasonInsufficientMemory
  else ReasonAdmitted.

Definition Evaluate (snapshot : HostSnapshot) (policy : ReservePolicy) (request : Request) : result Decision :=
  validate snapshot policy request;;
  let reason := decide_reason snapshot policy request in
  Ok {|
    Decision_Admitted := bool_decide (reason = ReasonAdmitted);
    DecisionReason := reason;
    Pool := PoolName request;
    RequiredCPUReserve := cpuReserve snapshot policy;
    RequiredMemoryReserve := memoryReserve snapshot policy;
    RemainingCPUUnits := remainingCPU snapshot request;
    RemainingCPUAllowanceUnits := remainingAllowance snapshot policy request;
    RemainingMemoryMiB := remainingMemory snapshot request;
    RemainingAvailableMiB := remainingAvailableMemory snapshot request |}.

(** ** Machine-range inputs

    The sizes for which no intermediate product or difference leaves the 64-bit
    range: 2^48 units or MiB is far beyond any host. *)
Definition size_bound : Z := 281474976710656.

Record sane (snapshot : HostSnapshot) (policy : ReservePolicy) (request : Request) : Prop := {
  sane_cpu : TotalCPUUnits snapshot ≤ size_bound;
  sane_memory : TotalMemoryMiB snapshot ≤ size_bound;
  sane_allocated_cpu : AllocatedCPUUnits snapshot ≤ size_bound;
  sane_allocated_allowance : 0 ≤ AllocatedCPUAllowanceUnits snapshot ≤ size_bound;
  sane_allocated_memory : AllocatedMemoryMiB snapshot ≤ size_bound;
  sane_min_cpu : MinimumCPUUnits policy ≤ size_bound;
  sane_min_memory : MinimumMemoryMiB policy ≤ size_bound;
  sane_vcpu : VCPU request ≤ size_bound;
  sane_allowance : 0 ≤ CPUAllowanceUnits request ≤ size_bound;
  sane_request_memory : MemoryMiB request ≤ size_bound;
}.

(** ** The reference specification, in unbounded arithmetic *)

Definition ceil_percent (total percent : Z) : Z := (total * percent + 99) / 100.

Definition spec_cpu_reserve (s : HostSnapshot) (p : ReservePolicy) : Z :=
  if decide (0 < MaximumFleetCPUPercent p) then 0
  else Z.max (MinimumCPUUnits p) (ceil_percent (TotalCPUUnits s) (MinimumPercent p)).
Definition spec_memory_reserve (s : HostSnapshot) (p : ReservePolicy) : Z :=
  Z.max (MinimumMemoryMiB p) (ceil_percent (TotalMemoryMiB s) (MinimumPercent p)).
Definition spec_allowance_limit (s : HostSnapshot) (p : ReservePolicy) : Z :=
  if decide (0 < MaximumFleetCPUPercent p)
  then TotalCPUUnits s * MaximumFleetCPUPercent p / 100 * Z.max 1 (CPUAllowanceOvercommit p)
  else TotalCPUUnits s.

(** What an admission promises: the request fits next to everything already
    allocated with every reserve intact, and no health or pressure gate is
    tripped. *)
Record fits (s : HostSnapshot) (p : ReservePolicy) (r : Request) : Prop := {
  fits_healthy : Healthy s = true;
  fits_disk : MinimumFreeDiskPercent p ≤ FreeDiskPercent s;
  fits_pressure : RequirePressure p = true →
    PressureAvailable s = true ∧
    RecentOOMKills s ≤ MaxRecentOOMKills p ∧
    (MaxMemoryFullAvg10 p <f MemoryFullAvg10 s) = false ∧
    (MaxCPUSomeAvg10 p <f CPUSomeAvg10 s) = false ∧
    (MaxIOFullAvg10 p <f IOFullAvg10 s) = false;
  fits_cpu : AllocatedCPUUnits s + VCPU r + spec_cpu_reserve s p ≤ TotalCPUUnits s;
  fits_allowance : allocatedAllowance s + requestedAllowance r ≤ spec_allowance_limit s p;
  fits_memory : AllocatedMemoryMiB s + MemoryMiB r + spec_memory_reserve s p ≤ TotalMemoryMiB s;
  fits_available : MemoryMiB r + spec_memory_reserve s p ≤ AvailableMemoryMiB s;
}.

(** ** Lemmas *)

(** The facts [validate] establishes, as propositions. *)
Record valid_input (s : HostSnapshot) (p : ReservePolicy) (r : Request) : Prop := {
  vi_cpu : 0 < TotalCPUUnits s;
  vi_memory : 0 < TotalMemoryMiB s;
  vi_available : 0 < AvailableMemoryMiB s ≤ TotalMemoryMiB s;
  vi_allocated_cpu : 0 ≤ AllocatedCPUUnits s;
  vi_allocated_memory : 0 ≤ AllocatedMemoryMiB s;
  vi_disk : 0 ≤ FreeDiskPercent s ≤ 100;
  vi_oom : 0 ≤ RecentOOMKills s;
  vi_min_cpu : 0 ≤ MinimumCPUUnits p;
  vi_min_memory : 0 ≤ MinimumMemoryMiB p;
  vi_percent : 0 ≤ MinimumPercent p ≤ 100;
  vi_fleet : 0 ≤ MaximumFleetCPUPercent p ≤ 98;
  vi_overcommit : 0 ≤ CPUAllowanceOvercommit p ≤ 4;
  vi_min_disk : 0 ≤ MinimumFreeDiskPercent p ≤ 100;
  vi_pool : PoolName r ≠ "";
  vi_vcpu : 0 < VCPU r;
  vi_request_memory : 0 < MemoryMiB r;
}.

Lemma validate_Ok s p r : validate s p r = Ok tt → valid_input s p r.
Proof. unfold validate. intros H. inv_ok. bool_hyps. constructor; try done; lia. Qed.

Ltac solve_range := unfold in_int64, min_int64, max_int64, size_bound in *; nia.

Lemma percentCeiling_exact total percent :
  0 ≤ total ≤ size_bound → 0 ≤ percent ≤ 100 →
  percentCeiling total percent = ceil_percent total percent.
Proof.
  intros Ht Hp. unfold percentCeiling, ceil_percent, int_div, int_add, int_mul.
  rewrite (wrap64_small (total * percent)) by solve_range.
  rewrite (wrap64_small (total * percent + 99)) by solve_range.
  rewrite Z.quot_div_nonneg by nia.
  apply wrap64_small. split; unfold min_int64, max_int64, size_bound in *.
  - pose proof (Z.div_pos (total * percent + 99) 100). nia.
  - enough ((total * percent + 99) / 100 ≤ total + 1) by lia.
    apply Z.div_le_upper_bound; nia.
Qed.

Lemma max_spec l r : max l r = Z.max l r.
Proof. unfold max. destruct (Z.ltb_spec r l); lia. Qed.

Lemma cpuReserve_exact s p r :
  valid_input s p r → sane s p r → cpuReserve s p = spec_cpu_reserve s p.
Proof.
  intros [] []. unfold cpuReserve, spec_cpu_reserve. destruct (Z.ltb_spec 0 (MaximumFleetCPUPercent p)).
  - by rewrite decide_True.
  - rewrite decide_False by lia. by rewrite max_spec, percentCeiling_exact by lia.
Qed.

Lemma memoryReserve_exact s p r :
  valid_input s p r → sane s p r → memoryReserve s p = spec_memory_reserve s p.
Proof.
  intros [] []. unfold memoryReserve, spec_memory_reserve.
  by rewrite max_spec, percentCeiling_exact by lia.
Qed.

Lemma allowanceLimit_exact s p r :
  valid_input s p r → sane s p r →
  allowanceLimit s p = spec_allowance_limit s p ∧ 0 ≤ spec_allowance_limit s p ≤ 4 * size_bound.
Proof.
  intros [] []. unfold allowanceLimit, spec_allowance_limit.
  destruct (Z.ltb_spec 0 (MaximumFleetCPUPercent p)); [rewrite decide_True by done|rewrite decide_False by lia].
  2:{ unfold size_bound in *. lia. }
  assert (effectiveOvercommit (CPUAllowanceOvercommit p) = Z.max 1 (CPUAllowanceOvercommit p)) as ->.
  { unfold effectiveOvercommit. destruct (Z.leb_spec (CPUAllowanceOvercommit p) 0); lia. }
  assert (0 ≤ TotalCPUUnits s * MaximumFleetCPUPercent p / 100 ≤ TotalCPUUnits s) as Hq.
  { split; [apply Z.div_pos; nia|apply Z.div_le_upper_bound; nia]. }
  assert (0 ≤ TotalCPUUnits s * MaximumFleetCPUPercent p ≤ size_bound * 98) by nia.
  unfold int_div, int_mul.
  rewrite (wrap64_small (TotalCPUUnits s * MaximumFleetCPUPercent p)) by solve_range.
  rewrite Z.quot_div_nonneg by nia.
  rewrite (wrap64_small (TotalCPUUnits s * MaximumFleetCPUPercent p / 100)) by solve_range.
  split; [apply wrap64_small; solve_range|nia].
Qed.

Lemma int_sub2_exact a b c k :
  0 ≤ a ≤ k → 0 ≤ b ≤ k → 0 ≤ c ≤ k → k ≤ 4 * size_bound →
  (a ⊖ b ⊖ c) = a - b - c.
Proof.
  intros. unfold int_sub. rewrite (wrap64_small (a - b)) by solve_range.
  apply wrap64_small. solve_range.
Qed.

Lemma remaining_exact s p r :
  valid_input s p r → sane s p r →
  remainingCPU s r = TotalCPUUnits s - AllocatedCPUUnits s - VCPU r ∧
  remainingAllowance s p r = spec_allowance_limit s p - allocatedAllowance s - requestedAllowance r ∧
  remainingMemory s r = TotalMemoryMiB s - AllocatedMemoryMiB s - MemoryMiB r ∧
  remainingAvailableMemory s r = AvailableMemoryMiB s - MemoryMiB r.
Proof.
  intros Hv Hs. destruct (allowanceLimit_exact _ _ _ Hv Hs) as [HL HLb].
  destruct Hv, Hs. split_and!.
  - apply int_sub2_exact with size_bound; unfold size_bound in *; lia.
  - unfold remainingAllowance. rewrite HL.
    apply int_sub2_exact with (4 * size_bound); [done|..|done];
      unfold allocatedAllowance, requestedAllowance; case_bool_decide; unfold size_bound in *; lia.
  - apply int_sub2_exact with size_bound; unfold size_bound in *; lia.
  - unfold remainingAvailableMemory, int_sub. apply wrap64_small. solve_range.
Qed.

(** On sane inputs the decision procedure is exactly the specification. *)
Lemma decide_reason_spec s p r :
  valid_input s p r → sane s p r → decide_reason s p r = ReasonAdmitted ↔ fits s p r.
Proof.
  intros Hv Hs.
  pose proof (remaining_exact _ _ _ Hv Hs) as (Hc & Ha & Hm & Hav).
  pose proof (cpuReserve_exact _ _ _ Hv Hs) as Hcr.
  pose proof (memoryReserve_exact _ _ _ Hv Hs) as Hmr.
  unfold decide_reason. rewrite Hc, Ha, Hm, Hav, Hcr, Hmr.
  split.
  - intros H. repeat (case_match; try discriminate); bool_hyps.
    destruct (RequirePressure p) eqn:?, (PressureAvailable s) eqn:?; simpl in *; try done;
      bool_hyps; constructor; try done; try lia; intros; split_and?; try congruence; lia.
  - intros [H1 H2 H3 H4 H5 H6 H7]. rewrite H1. simpl.
    rewrite (proj2 (Z.ltb_ge _ _)) by lia.
    destruct (RequirePressure p) eqn:?; simpl.
    + destruct H3 as (-> & ? & -> & -> & ->); [done|]. simpl.
      repeat rewrite (proj2 (Z.ltb_ge _ _)) by lia. done.
    + repeat rewrite (proj2 (Z.ltb_ge _ _)) by lia. done.
Qed.

(** ** Properties *)

(** C1: on inputs whose sizes are within the machine range, an accepted request
    is admitted exactly when it fits beside everything allocated with the CPU,
    allowance and memory reserves intact and no health, disk, OOM or pressure
    gate tripped. *)
Theorem Evaluate_admits_iff_fits s p r d :
  Evaluate s p r = Ok d → sane s p r → Decision_Admitted d = true ↔ fits s p r.
Proof.
  unfold Evaluate. intros H Hs. inv_ok. simpl.
  rewrite bool_decide_eq_true. destruct x. by apply decide_reason_spec; [apply validate_Ok|].
Qed.

Definition example_snapshot : HostSnapshot := {|
  Healthy := true; TotalCPUUnits := 8; TotalMemoryMiB := 16384; AvailableMemoryMiB := 12000;
  AllocatedCPUUnits := 2; AllocatedCPUAllowanceUnits := 2; AllocatedMemoryMiB := 4096;
  FreeDiskPercent := 40; PressureAvailable := true; CPUSomeAvg10 := f_int 10;
  MemoryFullAvg10 := f_int 0; IOFullAvg10 := f_int 1; RecentOOMKills := 0 |}.
Definition example_policy : ReservePolicy := {|
  MinimumCPUUnits := 1; MaximumFleetCPUPercent := 0; CPUAllowanceOvercommit := 0;
  MinimumMemoryMiB := 1024; MinimumPercent := 10; MinimumFreeDiskPercent := 15;
  RequirePressure := true; MaxCPUSomeAvg10 := f_int 60; MaxMemoryFullAvg10 := f_int 5;
  MaxIOFullAvg10 := f_int 20; MaxRecentOOMKills := 0 |}.
Definition example_request : Request := {|
  PoolName := "fast"; VCPU := 2; CPUAllowanceUnits := 0; MemoryMiB := 4096 |}.

Lemma example_sane : sane example_snapshot example_policy example_request.
Proof. constructor; unfold size_bound; simpl; lia. Qed.

Lemma Evaluate_admits_iff_fits_witness : fits example_snapshot example_policy example_request.
Proof.
  refine (proj1 (Evaluate_admits_iff_fits example_snapshot example_policy example_request _
    eq_refl example_sane) eq_refl).
Defined.
