(* ===== verification/Domain.v ===== *)
(** * Job identities ([src/internal/domain/job.go])

    The two identities a GitHub job is known by and the opaque key derived from
    each: SHA-256 over a canonical string, in lower-case hex. SHA-256 is the one
    of Go's [crypto/sha256], written out over lists of 32-bit words. *)

From S2P Require Import Prelude.

Local Open Scope Z_scope.

(** ** SHA-256 *)
Module Sha256.

Definition w32 (z : Z) : Z := Z.land z 4294967295.
Definition add32 (a b : Z) : Z := w32 (a + b).
Definition rotr (x n : Z) : Z := Z.lor (Z.shiftr x n) (w32 (Z.shiftl x (32 - n))).

Definition round_constants : list Z :=
  [1116352408; 1899447441; 3049323471; 3921009573; 961987163; 1508970993; 2453635748; 2870763221;
   3624381080; 310598401; 607225278; 1426881987; 1925078388; 2162078206; 2614888103; 3248222580;
   3835390401; 4022224774; 264347078; 604807628; 770255983; 1249150122; 1555081692; 1996064986;
   2554220882; 2821834349; 2952996808; 3210313671; 3336571891; 3584528711; 113926993; 338241895;
   666307205; 773529912; 1294757372; 1396182291; 1695183700; 1986661051; 2177026350; 2456956037;
   2730485921; 2820302411; 3259730800; 3345764771; 3516065817; 3600352804; 4094571909; 275423344;
   430227734; 506948616; 659060556; 883997877; 958139571; 1322822218; 1537002063; 1747873779;
   1955562222; 2024104815; 2227730452; 2361852424; 2428436474; 2756734187; 3204031479; 3329325298].

Definition initial : list Z :=
  [1779033703; 3144134277; 1013904242; 2773480762; 1359893119; 2600822924; 528734635; 1541459225].

Fixpoint string_bytes (s : string) : list Z :=
  match s with
  | EmptyString => []
  | String a s => Z.of_nat (Ascii.nat_of_ascii a) :: string_bytes s
  end.

Definition be64 (n : Z) : list Z :=
  (λ i, Z.land (Z.shiftr n (8 * i)) 255) <$> [7; 6; 5; 4; 3; 2; 1; 0].

Definition pad (msg : list Z) : list Z :=
  let len := Z.of_nat (length msg) in
  let zeros := Z.to_nat ((55 - len) `mod` 64) in
  msg ++ [128] ++ replicate zeros 0 ++ be64 (8 * len).

Fixpoint words (bs : list Z) : list Z :=
  match bs with
  | a :: b :: c :: d :: bs =>
      (Z.shiftl a 24 + Z.shiftl b 16 + Z.shiftl c 8 + d) :: words bs
  | _ => []
  end.

Definition sched_next (w : list Z) : Z :=  (* [w] is the schedule so far, most recent first *)
  let at_ i := nth i w 0 in
  let s0 := let x := at_ 14%nat in Z.lxor (Z.lxor (rotr x 7) (rotr x 18)) (Z.shiftr x 3) in
  let s1 := let x := at_ 1%nat in Z.lxor (Z.lxor (rotr x 17) (rotr x 19)) (Z.shiftr x 10) in
  add32 (add32 (at_ 15%nat) s0) (add32 (at_ 6%nat) s1).

Fixpoint extend (n : nat) (w : list Z) : list Z :=
  match n with O => w | S n => extend n (sched_next w :: w) end.

Definition round (st : list Z) (kw : Z * Z) : list Z :=
  match st with
  | [a; b; c; d; e; f; g; h] =>
      let '(k, w) := kw in
      let s1 := Z.lxor (Z.lxor (rotr e 6) (rotr e 11)) (rotr e 25) in
      let ch := Z.lxor (Z.land e f) (Z.land (4294967295 - e) g) in
      let t1 := add32 (add32 (add32 h s1) (add32 ch k)) w in
      let s0 := Z.lxor (Z.lxor (rotr a 2) (rotr a 13)) (rotr a 22) in
      let maj := Z.lxor (Z.lxor (Z.land a b) (Z.land a c)) (Z.land b c) in
      [add32 t1 (add32 s0 maj); a; b; c; add32 d t1; e; f; g]
  | _ => st
  end.

Definition compress (st block : list Z) : list Z :=
  let schedule := reverse (extend 48 (reverse block)) in
  zip_with add32 st (foldl round st (zip round_constants schedule)).

Fixpoint process (fuel : nat) (ws st : list Z) : list Z :=
  match fuel with
  | O => st
  | S fuel =>
      match ws with
      | [] => st
      | _ => process fuel (drop 16 ws) (compress st (take 16 ws))
      end
  end.

Definition hex_digit (n : Z) : Ascii.ascii :=
  Ascii.ascii_of_nat (Z.to_nat (if n <? 10 then 48 + n else 87 + n)).
Definition hex_byte (b : Z) (rest : string) : string :=
  String (hex_digit (Z.shiftr b 4)) (String (hex_digit (Z.land b 15)) rest).
Definition hex_word (w : Z) (rest : string) : string :=
  foldr (λ i, hex_byte (Z.land (Z.shiftr w (8 * i)) 255)) rest [3; 2; 1; 0].

(** [hex.EncodeToString(sha256.Sum256(msg))]. *)
Definition hex_sum (msg : string) : string :=
  let ws := words (pad (string_bytes msg)) in
  foldr hex_word EmptyString (process (length ws) ws initial).

(** The published test vectors for "abc" and for the 56-byte message. *)
Example hex_sum_abc :
  hex_sum "abc" = "ba7816bf8f01cfea414140de5dae2223b00361a396177a9cb410ff61f20015ad".
Proof. vm_compute. reflexivity. Qed.
Example hex_sum_two_blocks :
  hex_sum "abcdbcdecdefdefgefghfghighijhijkijkljklmklmnlmnomnopnopq"
  = "248d6a61d20638b8e5c026930c3e6039a33ce45964ff2167f6ecedd419db06c1".
Proof. vm_compute. reflexivity. Qed.
End Sha256.

(** ** Identities *)

Abbreviation JobKey := string (only parsing).

Record WebhookJobIdentity := {
  RepositoryID : Z;
  WorkflowJobID : Z;
  RunAttempt : Z;
}.

Record ScaleSetJobIdentity := {
  ScaleSetID : Z;
  JobID : string;
}.

Definition WebhookJobIdentity_Validate (identity : WebhookJobIdentity) : result unit :=
  fail_if (RepositoryID identity <=? 0) (Errorf "repository ID must be positive" []);;
  fail_if (WorkflowJobID identity <=? 0) (Errorf "workflow job ID must be positive" []);;
  fail_if (RunAttempt identity <=? 0) (Errorf "run attempt must be positive" []).

Definition ScaleSetJobIdentity_Validate (identity : ScaleSetJobIdentity) : result unit :=
  fail_if (ScaleSetID identity <=? 0) (Errorf "scale set ID must be positive" []);;
  fail_if (bool_decide (JobID identity = "")) (Errorf "job ID must not be empty" []).

Definition keyFromCanonical (canonical : string) : JobKey :=
  "ghjob:v1:" +:+ Sha256.hex_sum canonical.

Definition webhook_canonical (identity : WebhookJobIdentity) : string :=
  "github-webhook-job:v1:" +:+ pretty (RepositoryID identity) +:+ ":" +:+
    pretty (WorkflowJobID identity) +:+ ":" +:+ pretty (RunAttempt identity).

Definition scale_set_canonical (identity : ScaleSetJobIdentity) : string :=
  "github-scale-set-job:v2:" +:+ pretty (ScaleSetID identity) +:+ ":" +:+ JobID identity.

Definition WebhookJobIdentity_Key (identity : WebhookJobIdentity) : result JobKey :=
  WebhookJobIdentity_Validate identity;;
  Ok (keyFromCanonical (webhook_canonical identity)).

Definition ScaleSetJobIdentity_Key (identity : ScaleSetJobIdentity) : result JobKey :=
  ScaleSetJobIdentity_Validate identity;;
  Ok (keyFromCanonical (scale_set_canonical identity)).

Definition JobKey_IsZero (key : JobKey) : bool := bool_decide (key = "").

(** ** Canonical strings are injective *)

Lemma contains_byte_app c s t :
  contains_byte c (s +:+ t) = contains_byte c s || contains_byte c t.
Proof. induction s as [|a s IH]; simpl; [done|]. by rewrite IH, orb_assoc. Qed.

Lemma pretty_N_go_no_colon x s :
  contains_byte ":"%char s = false → contains_byte ":"%char (pretty_N_go x s) = false.
Proof.
  revert s. induction (N.lt_wf_0 x) as [x _ IH]; intros s Hs.
  destruct (decide (x = 0%N)) as [->|]; [by rewrite pretty_N_go_0|].
  rewrite pretty_N_go_step by lia. apply IH; [apply N.div_lt; lia|].
  simpl. rewrite Hs, orb_false_r. apply bool_decide_eq_false.
  unfold pretty_N_char. repeat case_match; discriminate.
Qed.

Lemma pretty_Z_no_colon (z : Z) : contains_byte ":"%char (pretty z) = false.
Proof.
  assert (∀ n : N, contains_byte ":"%char (pretty n) = false) as HN.
  { intros n. unfold pretty, pretty_N. case_decide; [done|]. by apply pretty_N_go_no_colon. }
  destruct z; [done|apply HN|].
  exact (HN (N.pos p)).
Qed.

(** A field without the separator is recovered from the front of a record. *)
Lemma app_sep_inj c a b x y :
  contains_byte c a = false → contains_byte c b = false →
  a +:+ String c x = b +:+ String c y → a = b ∧ x = y.
Proof.
  revert b. induction a as [|ca a IH]; intros [|cb b] Ha Hb H; simpl in *.
  - by injection H.
  - injection H as -> _. by rewrite bool_decide_eq_true_2 in Hb.
  - injection H as -> _. by rewrite bool_decide_eq_true_2 in Ha.
  - injection H as -> H. bool_hyps. destruct (IH b) as [-> ->]; done.
Qed.

Lemma scale_set_canonical_inj i j : scale_set_canonical i = scale_set_canonical j → i = j.
Proof.
  unfold scale_set_canonical. intros H. apply (inj (String.app _)) in H.
  apply app_sep_inj in H as [H1 H2]; [|apply pretty_Z_no_colon..].
  apply (inj pretty) in H1. destruct i, j; simpl in *. congruence.
Qed.

Lemma webhook_canonical_inj i j : webhook_canonical i = webhook_canonical j → i = j.
Proof.
  unfold webhook_canonical. intros H. apply (inj (String.app _)) in H.
  apply app_sep_inj in H as [H1 H]; [|apply pretty_Z_no_colon..].
  apply app_sep_inj in H as [H2 H3]; [|apply pretty_Z_no_colon..].
  apply (inj pretty) in H1, H2, H3. destruct i, j; simpl in *. congruence.
Qed.

Lemma canonical_disjoint i j : webhook_canonical i ≠ scale_set_canonical j.
Proof. unfold webhook_canonical, scale_set_canonical. discriminate. Qed.

(** A pair of distinct messages with the same SHA-256 digest. *)
Definition sha256_collision (x y : string) : Prop := x ≠ y ∧ Sha256.hex_sum x = Sha256.hex_sum y.

Lemma keyFromCanonical_inj x y : keyFromCanonical x = keyFromCanonical y → x = y ∨ sha256_collision x y.
Proof.
  unfold keyFromCanonical, sha256_collision. intros H%(inj (String.app _)).
  destruct (decide (x = y)); auto.
Qed.

(** two scale-set jobs share a job key only when they are the same job or
    SHA-256 collides on their canonical strings; an accepted identity never
    yields the zero key. *)
Theorem ScaleSetJobIdentity_Key_inj i j k :
  ScaleSetJobIdentity_Key i = Ok k → ScaleSetJobIdentity_Key j = Ok k →
  JobKey_IsZero k = false ∧
  (i = j ∨ sha256_collision (scale_set_canonical i) (scale_set_canonical j)).
Proof.
  unfold ScaleSetJobIdentity_Key. intros Hi Hj. inv_ok. split; [done|].
  apply keyFromCanonical_inj in Hi as [H|H]; [left|by right].
  by apply scale_set_canonical_inj.
Qed.

Definition example_scale_set_job : ScaleSetJobIdentity := {| ScaleSetID := 7; JobID := "a1b2" |}.

Lemma ScaleSetJobIdentity_Key_inj_witness :
  JobKey_IsZero (keyFromCanonical (scale_set_canonical example_scale_set_job)) = false.
Proof.
  exact (proj1 (ScaleSetJobIdentity_Key_inj example_scale_set_job example_scale_set_job
    (keyFromCanonical (scale_set_canonical example_scale_set_job)) eq_refl eq_refl)).
Defined.
