(* ===== verification/Lifecycle.v ===== *)
(** * Worker lifecycle ([src/internal/lifecycle/lifecycle.go])

    A worker is a disposable instance that runs at most one job. [Transition] is
    the whole state machine: the transition table, the job-key binding rules and
    the guard that keeps used workers out of the warm pool. *)

From S2P Require Import Prelude Domain.

(** ** Data *)

Inductive State :=
  | StateProvisioning | StateAvailableWarm | StateAdmitted | StateRegistering | StateOnline
  | StateAssigned | StateRunning | StateCollecting | StateDestroying | StateDestroyed
  | StateQuarantined.

Inductive Event :=
  | EventWarmReady | EventAdmit | EventBeginRegistration | EventRunnerOnline | EventAssigned
  | EventJobStarted | EventJobSucceeded | EventJobFailed | EventJobCancelled
  | EventProvisionFailed | EventRegistrationFailed | EventAssignmentTimedOut | EventDrain
  | EventDiagnosticsCollected | EventDiagnosticsFailed | EventDestroyed | EventDestroyFailed
  | EventRetryDestroy.

Inductive Outcome :=
  | OutcomeNone | OutcomeSucceeded | OutcomeFailed | OutcomeCancelled
  | OutcomeInfrastructureFailure.

#[export] Instance State_eq_dec : EqDecision State.
Proof. solve_decision. Defined.
#[export] Instance Event_eq_dec : EqDecision Event.
Proof. solve_decision. Defined.
#[export] Instance Outcome_eq_dec : EqDecision Outcome.
Proof. solve_decision. Defined.

Record Worker := {
  ID : string;
  ImageDigest : string;
  WState : State;
  JobKeyOf : string;
  HasRun : bool;
  WOutcome : Outcome;
}.

(** ** Operations *)

(** The transition table. *)
Definition transitions (state : State) (event : Event) : option State :=
  match state, event with
  | StateProvisioning, EventWarmReady => Some StateAvailableWarm
  | StateProvisioning, EventProvisionFailed => Some StateDestroying
  | StateAvailableWarm, EventAdmit => Some StateAdmitted
  | StateAvailableWarm, EventDrain => Some StateDestroying
  | StateAdmitted, EventBeginRegistration => Some StateRegistering
  | StateAdmitted, EventJobCancelled => Some StateCollecting
  | StateRegistering, EventRunnerOnline => Some StateOnline
  | StateRegistering, EventRegistrationFailed => Some StateCollecting
  | StateRegistering, EventJobCancelled => Some StateCollecting
  | StateOnline, EventAssigned => Some StateAssigned
  | StateOnline, EventAssignmentTimedOut => Some StateCollecting
  | StateOnline, EventJobCancelled => Some StateCollecting
  | StateAssigned, EventJobStarted => Some StateRunning
  | StateAssigned, EventJobCancelled => Some StateCollecting
  | StateRunning, EventJobSucceeded => Some StateCollecting
  | StateRunning, EventJobFailed => Some StateCollecting
  | StateRunning, EventJobCancelled => Some StateCollecting
  | StateCollecting, EventDiagnosticsCollected => Some StateDestroying
  | StateCollecting, EventDiagnosticsFailed => Some StateDestroying
  | StateDestroying, EventDestroyed => Some StateDestroyed
  | StateDestroying, EventDestroyFailed => Some StateQuarantined
  | StateQuarantined, EventRetryDestroy => Some StateDestroying
  | _, _ => None
  end.

Definition is_lower_hex (a : ascii) : bool :=
  let n := nat_of_ascii a in
  ((48 <=? n) && (n <=? 57)) || ((97 <=? n) && (n <=? 102)).

Fixpoint all_bytes (p : ascii → bool) (s : string) : bool :=
  match s with EmptyString => true | String a s => p a && all_bytes p s end.

(** [^sha256:[a-f0-9]{64}$]. *)
Definition imageDigestPattern (s : string) : bool :=
  HasPrefix s "sha256:" &&
  let digest := String.substring 7 (String.length s - 7) s in
  bool_decide (String.length digest = 64) && all_bytes is_lower_hex digest.

Definition NewWorker (id imageDigest : string) : result Worker :=
  fail_if (bool_decide (id = "")) (Errorf "worker ID is required" []);;
  fail_if (negb (imageDigestPattern imageDigest))
    (Errorf "image digest must be an immutable sha256 digest" []);;
  Ok {| ID := id; ImageDigest := imageDigest; WState := StateProvisioning;
        JobKeyOf := ""; HasRun := false; WOutcome := OutcomeNone |}.

Definition eventNeedsJob (event : Event) : bool :=
  match event with
  | EventAdmit | EventBeginRegistration | EventRunnerOnline | EventAssigned
  | EventJobStarted | EventJobSucceeded | EventJobFailed | EventJobCancelled
  | EventRegistrationFailed | EventAssignmentTimedOut => true
  | _ => false
  end.

(** The job-key rules: [Admit] binds a fresh key, a bound worker accepts only
    its own key, an unbound one accepts no key at all. *)
Definition bind_job (worker : Worker) (event : Event) (jobKey : string) : result string :=
  if bool_decide (event = EventAdmit) then
    fail_if (JobKey_IsZero jobKey) (Errorf "admission requires a job key" []);;
    fail_if (negb (JobKey_IsZero (JobKeyOf worker)) || HasRun worker)
      (Errorf "worker has already been bound or executed" []);;
    Ok jobKey
  else if negb (JobKey_IsZero (JobKeyOf worker)) then
    fail_if (JobKey_IsZero jobKey || negb (bool_decide (JobKeyOf worker = jobKey)))
      (Errorf "event %q does not match the admitted job" []);;
    Ok (JobKeyOf worker)
  else
    fail_if (eventNeedsJob event) (Errorf "event %q requires an admitted job" []);;
    fail_if (negb (JobKey_IsZero jobKey)) (Errorf "event %q carries a job key before admission" []);;
    Ok (JobKeyOf worker).

Definition next_outcome (event : Event) (outcome : Outcome) : Outcome :=
  match event with
  | EventJobSucceeded => OutcomeSucceeded
  | EventJobFailed => OutcomeFailed
  | EventJobCancelled => OutcomeCancelled
  | EventRegistrationFailed | EventAssignmentTimedOut => OutcomeInfrastructureFailure
  | _ => outcome
  end.

Definition Transition (worker : Worker) (event : Event) (jobKey : string) : result Worker :=
  match transitions (WState worker) event with
  | None => Err (Errorf "event %q is not valid from state %q" [])
  | Some nextState =>
      key ← bind_job worker event jobKey;
      let worker' := {|
        ID := ID worker; ImageDigest := ImageDigest worker; WState := nextState;
        JobKeyOf := key;
        HasRun := bool_decide (event = EventJobStarted) || HasRun worker;
        WOutcome := next_outcome event (WOutcome worker) |} in
      fail_if (bool_decide (WState worker' = StateAvailableWarm) &&
               (HasRun worker' || negb (JobKey_IsZero (JobKeyOf worker'))))
        (Errorf "executed or admitted workers cannot return to the warm pool" []);;
      Ok worker'
  end.

(** A run of the aggregate: the caller applies events in order and stops at the
    first refusal. *)
Definition run (events : list (Event * string)) (worker : Worker) : result Worker :=
  foldM (λ w ek, Transition w ek.1 ek.2) events worker.

(** ** Reachable workers *)

Inductive reachable : Worker → Prop :=
  | reachable_new id digest w : NewWorker id digest = Ok w → reachable w
  | reachable_step w event key w' :
      reachable w → Transition w event key = Ok w' → reachable w'.

(** What each phase of the life cycle guarantees about binding, execution and
    outcome. *)
Definition phase_ok (w : Worker) : Prop :=
  match WState w with
  | StateProvisioning | StateAvailableWarm =>
      JobKeyOf w = "" ∧ HasRun w = false ∧ WOutcome w = OutcomeNone
  | StateAdmitted | StateRegistering | StateOnline | StateAssigned =>
      JobKeyOf w ≠ "" ∧ HasRun w = false ∧ WOutcome w = OutcomeNone
  | StateRunning => JobKeyOf w ≠ "" ∧ HasRun w = true ∧ WOutcome w = OutcomeNone
  | StateCollecting => JobKeyOf w ≠ "" ∧ WOutcome w ≠ OutcomeNone
  | StateDestroying | StateDestroyed | StateQuarantined =>
      (JobKeyOf w = "" ↔ WOutcome w = OutcomeNone) ∧ (HasRun w = true → JobKeyOf w ≠ "")
  end ∧ (WOutcome w = OutcomeSucceeded ∨ WOutcome w = OutcomeFailed → HasRun w = true).

(** ** Lemmas *)

Lemma NewWorker_phase id digest w : NewWorker id digest = Ok w → phase_ok w.
Proof. unfold NewWorker. intros H. inv_ok. repeat split; naive_solver. Qed.

Lemma Transition_inv w e k w' :
  Transition w e k = Ok w' →
  ∃ s, transitions (WState w) e = Some s ∧ bind_job w e k = Ok (JobKeyOf w') ∧
    WState w' = s ∧ ID w' = ID w ∧ ImageDigest w' = ImageDigest w ∧
    HasRun w' = bool_decide (e = EventJobStarted) || HasRun w ∧
    WOutcome w' = next_outcome e (WOutcome w).
Proof.
  unfold Transition. destruct (transitions _ e) as [s|]; intros H; inv_ok. eauto 10.
Qed.

Lemma bind_job_inv w e k k' :
  bind_job w e k = Ok k' →
  (e = EventAdmit ∧ JobKeyOf w = "" ∧ k' = k ∧ k ≠ "") ∨
  (e ≠ EventAdmit ∧ JobKeyOf w ≠ "" ∧ k' = JobKeyOf w ∧ k = JobKeyOf w) ∨
  (eventNeedsJob e = false ∧ JobKeyOf w = "" ∧ k' = "" ∧ k = "").
Proof.
  unfold bind_job, JobKey_IsZero. intros H.
  case_bool_decide; [|case_bool_decide; simpl in H]; inv_ok; bool_hyps; subst; naive_solver.
Qed.

Ltac lifecycle_cases w e :=
  destruct (WState w), e; simpl in *; try discriminate.

Lemma Transition_phase w e k w' : phase_ok w → Transition w e k = Ok w' → phase_ok w'.
Proof.
  intros Hw H. apply Transition_inv in H as (s & Hs & Hb & Hst & _ & _ & Hrun & Hout).
  apply bind_job_inv in Hb. unfold phase_ok in *. rewrite Hst, Hrun, Hout. clear Hst Hrun Hout.
  lifecycle_cases w e; injection Hs as <-; simpl; destruct_or!; destruct_and!;
    try discriminate; intuition congruence.
Qed.

Lemma reachable_phase w : reachable w → phase_ok w.
Proof. induction 1; eauto using NewWorker_phase, Transition_phase. Qed.

#[export] Hint Resolve reachable_phase : go.

Lemma Transition_keeps_key w e k w' :
  Transition w e k = Ok w' → JobKeyOf w ≠ "" → JobKeyOf w' = JobKeyOf w ∧ k = JobKeyOf w.
Proof.
  intros H Hk. apply Transition_inv in H as (s & _ & Hb & _).
  apply bind_job_inv in Hb. naive_solver.
Qed.

Lemma run_cons w e es w' :
  run (e :: es) w = Ok w' ↔ ∃ w1, Transition w e.1 e.2 = Ok w1 ∧ run es w1 = Ok w'.
Proof. unfold run. simpl. apply bind_Ok. Qed.

Lemma run_reachable w es w' : reachable w → run es w = Ok w' → reachable w'.
Proof.
  intros Hw H. revert H. apply foldM_inv; [|done].
  intros [e k] s s' _ ??. by apply reachable_step with s e k.
Qed.

(** How often an event occurs in a run. *)
Definition count_event (e : Event) (es : list (Event * string)) : nat :=
  length (filter (λ ek, ek.1 = e) es).

(** Admissions still possible from a state, and starts still possible. *)
Definition admits_left (w : Worker) : nat := if decide (JobKeyOf w = "") then 1 else 0.
Definition starts_left (w : Worker) : nat := if HasRun w then 0 else 1.

Lemma admits_step w e k w' :
  Transition w e k = Ok w' →
  (if decide (e = EventAdmit) then 1 else 0) + admits_left w' ≤ admits_left w.
Proof.
  intros H. apply Transition_inv in H as (s & _ & Hb & _).
  apply bind_job_inv in Hb. unfold admits_left.
  repeat case_decide; destruct_or!; destruct_and!; first [lia|congruence|subst; discriminate].
Qed.

Lemma starts_step w e k w' :
  phase_ok w → Transition w e k = Ok w' →
  (if decide (e = EventJobStarted) then 1 else 0) + starts_left w' ≤ starts_left w.
Proof.
  intros Hw H. apply Transition_inv in H as (s & Hs & _ & _ & _ & _ & Hrun & _).
  unfold starts_left, phase_ok in *. rewrite Hrun.
  destruct (decide (e = EventJobStarted)) as [->|He].
  - destruct (WState w); try discriminate. destruct Hw as [(? & -> & ?) ?]. done.
  - by rewrite bool_decide_eq_false_2 by done.
Qed.

Lemma count_event_cons e ek es :
  count_event e (ek :: es) = (if decide (ek.1 = e) then 1 else 0) + count_event e es.
Proof. unfold count_event. rewrite filter_cons. by case_decide. Qed.

Lemma run_counts w es w' :
  reachable w → run es w = Ok w' →
  count_event EventAdmit es + admits_left w' ≤ admits_left w ∧
  count_event EventJobStarted es + starts_left w' ≤ starts_left w.
Proof.
  revert w. induction es as [|[e k] es IH]; intros w Hw H.
  - unfold run in H. simpl in H. inv_ok. done.
  - apply run_cons in H as (w1 & H1 & H2). simpl in H1.
    pose proof (admits_step _ _ _ _ H1).
    pose proof (starts_step _ _ _ _ (reachable_phase _ Hw) H1).
    destruct (IH w1) as [? ?]; [by apply reachable_step with w e k|done|].
    rewrite !count_event_cons; simpl. lia.
Qed.

Lemma run_keeps_key w es w' :
  run es w = Ok w' → JobKeyOf w ≠ "" → JobKeyOf w' = JobKeyOf w ∧ Forall (λ ek, ek.2 = JobKeyOf w) es.
Proof.
  revert w. induction es as [|[e k] es IH]; intros w H Hk.
  - unfold run in H. simpl in H. inv_ok. done.
  - apply run_cons in H as (w1 & H1 & H2). simpl in H1.
    apply Transition_keeps_key in H1 as [Hk1 ->]; [|done].
    destruct (IH w1 H2) as [-> HF]; [congruence|]. rewrite Hk1 in *. auto.
Qed.

(** ** Properties *)

(** every reachable worker satisfies its phase's guarantees: the job key is
    bound exactly from admission on, [HasRun] is set exactly once the job
    started, a warm worker is unbound and unused, a worker being collected has
    an outcome, and a success or failure is only recorded for a job that ran. *)
Theorem reachable_phase_ok w : reachable w → phase_ok w.
Proof. apply reachable_phase. Qed.

Definition example_digest : string :=
  "sha256:0123456789abcdef0123456789abcdef0123456789abcdef0123456789abcdef".
Definition example_worker : Worker := {|
  ID := "w1"; ImageDigest := example_digest; WState := StateProvisioning;
  JobKeyOf := ""; HasRun := false; WOutcome := OutcomeNone |}.
Definition example_trace : list (Event * string) :=
  [(EventWarmReady, ""); (EventAdmit, "k"); (EventBeginRegistration, "k");
   (EventRunnerOnline, "k"); (EventAssigned, "k"); (EventJobStarted, "k");
   (EventJobSucceeded, "k"); (EventDiagnosticsCollected, "k"); (EventDestroyed, "k")].
Definition example_final : Worker := {|
  ID := "w1"; ImageDigest := example_digest; WState := StateDestroyed;
  JobKeyOf := "k"; HasRun := true; WOutcome := OutcomeSucceeded |}.

Lemma example_reachable : reachable example_worker.
Proof. apply (reachable_new "w1" example_digest). reflexivity. Qed.

Lemma example_run : run example_trace example_worker = Ok example_final.
Proof. reflexivity. Qed.

Lemma reachable_phase_ok_witness : phase_ok example_final.
Proof.
  apply reachable_phase_ok. apply (run_reachable example_worker example_trace).
  - apply example_reachable.
  - apply example_run.
Defined.

(** C14: a worker is used for at most one job: on any run from a reachable worker
    there is at most one admission and at most one job start, and once a key is
    bound every later event carries that key and leaves it in place. *)
Theorem one_job_per_worker w es w' :
  reachable w → run es w = Ok w' →
  count_event EventAdmit es ≤ 1 ∧ count_event EventJobStarted es ≤ 1 ∧
  (JobKeyOf w ≠ "" → count_event EventAdmit es = 0 ∧ JobKeyOf w' = JobKeyOf w ∧
     Forall (λ ek, ek.2 = JobKeyOf w) es).
Proof.
  intros Hw H. pose proof (run_counts _ _ _ Hw H) as [H1 H2].
  unfold admits_left, starts_left in *. split_and!.
  - repeat case_decide; lia.
  - destruct (HasRun w), (HasRun w'); lia.
  - intros Hk. split; [|by apply run_keeps_key]. repeat case_decide; first [done|lia].
Qed.

Lemma one_job_per_worker_witness :
  count_event EventAdmit example_trace ≤ 1 ∧ count_event EventJobStarted example_trace ≤ 1.
Proof.
  destruct (one_job_per_worker example_worker example_trace example_final
    example_reachable example_run) as (? & ? & _). split; assumption.
Defined.

(** The events that lead a worker in a given state to destruction. *)
Definition teardown_events (state : State) : list Event :=
  match state with
  | StateProvisioning => [EventProvisionFailed; EventDestroyed]
  | StateAvailableWarm => [EventDrain; EventDestroyed]
  | StateAdmitted | StateRegistering | StateOnline | StateAssigned | StateRunning =>
      [EventJobCancelled; EventDiagnosticsFailed; EventDestroyed]
  | StateCollecting => [EventDiagnosticsFailed; EventDestroyed]
  | StateDestroying => [EventDestroyed]
  | StateDestroyed => []
  | StateQuarantined => [EventRetryDestroy; EventDestroyed]
  end.

(** A worker's own key is accepted on every event but [Admit]. *)
Lemma bind_job_own w e :
  e ≠ EventAdmit → (JobKeyOf w = "" → eventNeedsJob e = false) →
  bind_job w e (JobKeyOf w) = Ok (JobKeyOf w).
Proof.
  intros He Hneed. unfold bind_job, JobKey_IsZero.
  rewrite (bool_decide_eq_false_2 (e = EventAdmit)) by done.
  rewrite (bool_decide_eq_true_2 (JobKeyOf w = JobKeyOf w)) by done.
  destruct (decide (JobKeyOf w = "")) as [Hk|Hk].
  - rewrite (bool_decide_eq_true_2 (JobKeyOf w = "")) by done. simpl. by rewrite Hneed.
  - by rewrite (bool_decide_eq_false_2 (JobKeyOf w = "")) by done.
Qed.

Lemma bound_teardown w e s :
  e ≠ EventAdmit → transitions (WState w) e = Some s → s ≠ StateAvailableWarm →
  (JobKeyOf w = "" → eventNeedsJob e = false) →
  ∃ w', Transition w e (JobKeyOf w) = Ok w' ∧ WState w' = s ∧ JobKeyOf w' = JobKeyOf w.
Proof.
  intros He Hs Hwarm Hneed. unfold Transition. rewrite Hs, bind_job_own by done.
  simpl. rewrite (bool_decide_eq_false_2 (s = StateAvailableWarm)) by done. by eexists.
Qed.

(** One step of a teardown, the rest of it assumed possible. *)
Lemma run_teardown_cons w e es s :
  e ≠ EventAdmit → transitions (WState w) e = Some s → s ≠ StateAvailableWarm →
  (JobKeyOf w = "" → eventNeedsJob e = false) →
  (∀ w1, WState w1 = s → ∃ w', run ((λ e, (e, JobKeyOf w1)) <$> es) w1 = Ok w' ∧
     WState w' = StateDestroyed) →
  ∃ w', run ((λ e, (e, JobKeyOf w)) <$> e :: es) w = Ok w' ∧ WState w' = StateDestroyed.
Proof.
  intros He Hs Hwarm Hneed Hrest.
  destruct (bound_teardown w e s) as (w1 & H1 & Hst & Hk1); [done..|].
  destruct (Hrest w1 Hst) as (w' & Hrun & ?). exists w'. split; [|done].
  rewrite fmap_cons. apply run_cons. exists w1. split; [done|]. by rewrite <- Hk1.
Qed.

(** C15: a reachable worker can always be brought to destruction: cancelling the
    job (or failing provisioning, or draining), then collecting diagnostics and
    destroying, all under the worker's own job key, succeeds from every
    reachable state; and nothing is accepted by a destroyed worker. *)
Theorem teardown_possible w :
  reachable w →
  (∃ w', run ((λ e, (e, JobKeyOf w)) <$> teardown_events (WState w)) w = Ok w' ∧
         WState w' = StateDestroyed) ∧
  (WState w = StateDestroyed → ∀ e k, is_Ok (Transition w e k) = false).
Proof.
  intros Hw%reachable_phase. split.
  - destruct (WState w) eqn:HS; cbn [teardown_events]; unfold phase_ok in Hw; rewrite HS in Hw;
      repeat (eapply run_teardown_cons; [done|by rewrite HS|done|naive_solver|];
              clear HS; try clear Hw; intros ? HS);
      eexists; (split; [reflexivity|done]).
  - intros HS e k. unfold Transition. rewrite HS. by destruct e.
Qed.

Lemma teardown_possible_witness :
  ∃ w', run ((λ e, (e, JobKeyOf example_worker)) <$> teardown_events (WState example_worker))
          example_worker = Ok w' ∧ WState w' = StateDestroyed.
Proof. exact (proj1 (teardown_possible example_worker example_reachable)). Defined.
