(* ===== verification/ProviderJournal.v ===== *)
(** * Provider journal ([src/internal/providerjournal])

    The durable record of what the Incus provider has promised: one lease per
    instance and one claim per GARM job bound to a pre-booted instance.
    [Validate] is the well-formedness check every read and write goes through;
    the store serialises updates under a file lock and publishes a new
    generation with write-to-temporary, fsync and rename. *)

From S2P Require Import Prelude.

Local Open Scope Z_scope.

(** ** Data ([types.go]) *)

Definition SchemaVersion : Z := 4.
Definition LegacySchemaVersion : Z := 1.
Definition ClaimsSchemaVersion : Z := 2.
Definition PreemptionSchemaVersion : Z := 3.

(** The Go types are strings; the last constructor is any other value. *)
Inductive LeaseState :=
  | StateAdmitted | StateCreated | StateDeleting | StateWarmReady | StateWarmClaimed
  | OtherLeaseState (raw : string).
Inductive ClaimState :=
  | ClaimReserved | ClaimInjected
  | OtherClaimState (raw : string).

#[export] Instance LeaseState_eq_dec : EqDecision LeaseState.
Proof. solve_decision. Defined.
#[export] Instance ClaimState_eq_dec : EqDecision ClaimState.
Proof. solve_decision. Defined.

Record Claim := {
  Claim_JobName : string;
  Claim_InstanceName : string;
  Claim_ControllerID : string;
  Claim_PoolID : string;
  Claim_PoolName : string;
  Claim_ImageFingerprint : string;
  Claim_State : ClaimState;
  Claim_ReservedAt : Time;
  Claim_UpdatedAt : Time;
  Claim_ExpiresAt : Time;
}.

Record Lease := {
  Lease_InstanceName : string;
  Lease_ControllerID : string;
  Lease_PoolID : string;
  Lease_PoolName : string;
  Lease_VCPU : Z;
  Lease_CPUAllowanceUnits : Z;
  Lease_MemoryMiB : Z;
  Lease_ImageFingerprint : string;
  Lease_State : LeaseState;
  Lease_PreemptedBy : string;
  Lease_AdmittedAt : Time;
  Lease_UpdatedAt : Time;
  Lease_ExpiresAt : Time;
}.

#[export] Instance Claim_eq_dec : EqDecision Claim.
Proof. solve_decision. Defined.
#[export] Instance Lease_eq_dec : EqDecision Lease.
Proof. solve_decision. Defined.

Record Journal := {
  Journal_SchemaVersion : Z;
  Generation : Z;
  Journal_UpdatedAt : Time;
  WarmPreemptionsTotal : Z;
  Leases : gmap string Lease;
  Claims : gmap string Claim;
}.

Definition newJournal : Journal := {|
  Journal_SchemaVersion := SchemaVersion; Generation := 0; Journal_UpdatedAt := zero_time;
  WarmPreemptionsTotal := 0; Leases := ∅; Claims := ∅ |}.

(** Field updates. *)
Definition lease_touch (updated expires : Time) (l : Lease) : Lease := {|
  Lease_InstanceName := Lease_InstanceName l; Lease_ControllerID := Lease_ControllerID l;
  Lease_PoolID := Lease_PoolID l; Lease_PoolName := Lease_PoolName l; Lease_VCPU := Lease_VCPU l;
  Lease_CPUAllowanceUnits := Lease_CPUAllowanceUnits l; Lease_MemoryMiB := Lease_MemoryMiB l;
  Lease_ImageFingerprint := Lease_ImageFingerprint l; Lease_State := Lease_State l;
  Lease_PreemptedBy := Lease_PreemptedBy l; Lease_AdmittedAt := Lease_AdmittedAt l;
  Lease_UpdatedAt := updated; Lease_ExpiresAt := expires |}.
Definition lease_set_state (s : LeaseState) (l : Lease) : Lease := {|
  Lease_InstanceName := Lease_InstanceName l; Lease_ControllerID := Lease_ControllerID l;
  Lease_PoolID := Lease_PoolID l; Lease_PoolName := Lease_PoolName l; Lease_VCPU := Lease_VCPU l;
  Lease_CPUAllowanceUnits := Lease_CPUAllowanceUnits l; Lease_MemoryMiB := Lease_MemoryMiB l;
  Lease_ImageFingerprint := Lease_ImageFingerprint l; Lease_State := s;
  Lease_PreemptedBy := Lease_PreemptedBy l; Lease_AdmittedAt := Lease_AdmittedAt l;
  Lease_UpdatedAt := Lease_UpdatedAt l; Lease_ExpiresAt := Lease_ExpiresAt l |}.
Definition lease_set_preempted (target : string) (l : Lease) : Lease := {|
  Lease_InstanceName := Lease_InstanceName l; Lease_ControllerID := Lease_ControllerID l;
  Lease_PoolID := Lease_PoolID l; Lease_PoolName := Lease_PoolName l; Lease_VCPU := Lease_VCPU l;
  Lease_CPUAllowanceUnits := Lease_CPUAllowanceUnits l; Lease_MemoryMiB := Lease_MemoryMiB l;
  Lease_ImageFingerprint := Lease_ImageFingerprint l; Lease_State := Lease_State l;
  Lease_PreemptedBy := target; Lease_AdmittedAt := Lease_AdmittedAt l;
  Lease_UpdatedAt := Lease_UpdatedAt l; Lease_ExpiresAt := Lease_ExpiresAt l |}.
Definition claim_touch (updated expires : Time) (c : Claim) : Claim := {|
  Claim_JobName := Claim_JobName c; Claim_InstanceName := Claim_InstanceName c;
  Claim_ControllerID := Claim_ControllerID c; Claim_PoolID := Claim_PoolID c;
  Claim_PoolName := Claim_PoolName c; Claim_ImageFingerprint := Claim_ImageFingerprint c;
  Claim_State := Claim_State c; Claim_ReservedAt := Claim_ReservedAt c;
  Claim_UpdatedAt := updated; Claim_ExpiresAt := expires |}.
Definition claim_set_state (s : ClaimState) (c : Claim) : Claim := {|
  Claim_JobName := Claim_JobName c; Claim_InstanceName := Claim_InstanceName c;
  Claim_ControllerID := Claim_ControllerID c; Claim_PoolID := Claim_PoolID c;
  Claim_PoolName := Claim_PoolName c; Claim_ImageFingerprint := Claim_ImageFingerprint c;
  Claim_State := s; Claim_ReservedAt := Claim_ReservedAt c;
  Claim_UpdatedAt := Claim_UpdatedAt c; Claim_ExpiresAt := Claim_ExpiresAt c |}.
Definition with_leases (leases : gmap string Lease) (j : Journal) : Journal := {|
  Journal_SchemaVersion := Journal_SchemaVersion j; Generation := Generation j;
  Journal_UpdatedAt := Journal_UpdatedAt j; WarmPreemptionsTotal := WarmPreemptionsTotal j;
  Leases := leases; Claims := Claims j |}.
Definition with_claims (claims : gmap string Claim) (j : Journal) : Journal := {|
  Journal_SchemaVersion := Journal_SchemaVersion j; Generation := Generation j;
  Journal_UpdatedAt := Journal_UpdatedAt j; WarmPreemptionsTotal := WarmPreemptionsTotal j;
  Leases := Leases j; Claims := claims |}.
Definition with_preemptions (total : Z) (j : Journal) : Journal := {|
  Journal_SchemaVersion := Journal_SchemaVersion j; Generation := Generation j;
  Journal_UpdatedAt := Journal_UpdatedAt j; WarmPreemptionsTotal := total;
  Leases := Leases j; Claims := Claims j |}.

(** ** Validation *)

Definition warm_pool (pool_id : string) : bool := HasPrefix pool_id "warm/".

Definition known_lease_state (s : LeaseState) : bool :=
  match s with OtherLeaseState _ => false | _ => true end.
Definition known_claim_state (s : ClaimState) : bool :=
  match s with OtherClaimState _ => false | _ => true end.

Definition preemptible_state (s : LeaseState) : bool :=
  match s with StateCreated | StateWarmReady | StateDeleting => true | _ => false end.

(** The body of the first loop of [Journal.Validate]. *)
Definition validate_lease (key : string) (lease : Lease) : result unit :=
  fail_if (bool_decide (key = "") || negb (bool_decide (Lease_InstanceName lease = key)))
    (Errorf "lease key %q does not match instance_name %q" [key; Lease_InstanceName lease]);;
  fail_if (bool_decide (Lease_ControllerID lease = "") || bool_decide (Lease_PoolID lease = "")
           || bool_decide (Lease_PoolName lease = ""))
    (Errorf "lease %q has incomplete ownership" [key]);;
  fail_if ((Lease_VCPU lease <=? 0) || (Lease_MemoryMiB lease <=? 0))
    (Errorf "lease %q has invalid resources" [key]);;
  fail_if ((0 <? Lease_CPUAllowanceUnits lease) && (Lease_CPUAllowanceUnits lease <? Lease_VCPU lease))
    (Errorf "lease %q CPU allowance is below its reservation" [key]);;
  fail_if (bool_decide (Lease_ImageFingerprint lease = ""))
    (Errorf "lease %q has no image fingerprint" [key]);;
  fail_if (negb (known_lease_state (Lease_State lease)))
    (Errorf "lease %q has invalid state %q" [key]);;
  fail_if (IsZero (Lease_AdmittedAt lease) || IsZero (Lease_UpdatedAt lease) || IsZero (Lease_ExpiresAt lease))
    (Errorf "lease %q has incomplete timestamps" [key]);;
  fail_if (Before (Lease_ExpiresAt lease) (Lease_UpdatedAt lease))
    (Errorf "lease %q expires before its last update" [key]);;
  fail_if (negb (bool_decide (Lease_PreemptedBy lease = "")) &&
           (negb (preemptible_state (Lease_State lease)) || negb (warm_pool (Lease_PoolID lease))
            || bool_decide (Lease_PreemptedBy lease = key)))
    (Errorf "lease %q has invalid warm preemption ownership" [key]).

(** The body of the second loop; the state of the loop is the map from claimed
    instances to the job that claimed them. *)
Definition validate_claim (leases : gmap string Lease) (claimedInstances : gmap string string)
    (key : string) (claim : Claim) : result (gmap string string) :=
  fail_if (bool_decide (key = "") || negb (bool_decide (Claim_JobName claim = key)))
    (Errorf "claim key %q does not match job_name %q" [key; Claim_JobName claim]);;
  fail_if (bool_decide (Claim_InstanceName claim = "") || bool_decide (Claim_ControllerID claim = "")
           || bool_decide (Claim_PoolID claim = "") || bool_decide (Claim_PoolName claim = "")
           || bool_decide (Claim_ImageFingerprint claim = ""))
    (Errorf "claim %q has incomplete ownership" [key]);;
  fail_if (bool_decide (is_Some (claimedInstances !! Claim_InstanceName claim)))
    (Errorf "instance %q is claimed by both %q and %q" [Claim_InstanceName claim; key]);;
  match leases !! Claim_InstanceName claim with
  | None => Err (Errorf "claim %q references missing lease %q" [key; Claim_InstanceName claim])
  | Some lease =>
      fail_if (negb (bool_decide (Lease_ControllerID lease = Claim_ControllerID claim))
               || negb (bool_decide (Lease_PoolName lease = Claim_PoolName claim))
               || negb (bool_decide (Lease_ImageFingerprint lease = Claim_ImageFingerprint claim)))
        (Errorf "claim %q conflicts with lease %q" [key; Claim_InstanceName claim]);;
      fail_if (negb (bool_decide (Lease_PreemptedBy lease = "")))
        (Errorf "claim %q references preempted lease %q" [key; Claim_InstanceName claim]);;
      fail_if (negb (bool_decide (Lease_State lease = StateWarmClaimed))
               && negb (bool_decide (Lease_State lease = StateCreated))
               && negb (bool_decide (Lease_State lease = StateDeleting)))
        (Errorf "claim %q references lease %q in state %q" [key; Claim_InstanceName claim]);;
      fail_if (negb (known_claim_state (Claim_State claim)))
        (Errorf "claim %q has invalid state %q" [key]);;
      fail_if (IsZero (Claim_ReservedAt claim) || IsZero (Claim_UpdatedAt claim) || IsZero (Claim_ExpiresAt claim))
        (Errorf "claim %q has incomplete timestamps" [key]);;
      fail_if (Before (Claim_ExpiresAt claim) (Claim_UpdatedAt claim))
        (Errorf "claim %q expires before its last update" [key]);;
      Ok (<[Claim_InstanceName claim := key]> claimedInstances)
  end.

(** The body of the third loop: the preemption target must be a live cold lease. *)
Definition validate_target (leases : gmap string Lease) (key : string) (lease : Lease) : result unit :=
  if bool_decide (Lease_PreemptedBy lease = "") then Ok tt
  else match leases !! Lease_PreemptedBy lease with
       | Some target =>
           fail_if (warm_pool (Lease_PoolID target) || negb (bool_decide (Lease_PreemptedBy target = "")))
             (Errorf "lease %q references invalid preemption target %q" [key; Lease_PreemptedBy lease])
       | None => Err (Errorf "lease %q references invalid preemption target %q" [key; Lease_PreemptedBy lease])
       end.

(** Runs a check on a map's entry. *)
Definition with_entry {V R} (m : gmap string V) (key : string) (absent : result R) (f : V → result R) : result R :=
  match m !! key with Some v => f v | None => absent end.

Definition Validate (j : Journal) : result unit :=
  fail_if (negb (bool_decide (Journal_SchemaVersion j = SchemaVersion)))
    (Errorf "journal schema_version must be %d" []);;
  forM (sorted_keys (Leases j)) (λ key, with_entry (Leases j) key (Ok tt) (validate_lease key));;
  foldM (λ claimed key, with_entry (Claims j) key (Ok claimed) (validate_claim (Leases j) claimed key))
    (sorted_keys (Claims j)) ∅;;
  forM (map_to_list (Leases j)) (λ kl, validate_target (Leases j) kl.1 kl.2).

(** ** What a valid journal means *)

Record lease_wf (key : string) (l : Lease) : Prop := {
  lw_key : key ≠ "";
  lw_name : Lease_InstanceName l = key;
  lw_controller : Lease_ControllerID l ≠ "";
  lw_pool_id : Lease_PoolID l ≠ "";
  lw_pool_name : Lease_PoolName l ≠ "";
  lw_vcpu : 0 < Lease_VCPU l;
  lw_memory : 0 < Lease_MemoryMiB l;
  lw_allowance : 0 < Lease_CPUAllowanceUnits l → Lease_VCPU l ≤ Lease_CPUAllowanceUnits l;
  lw_image : Lease_ImageFingerprint l ≠ "";
  lw_state : known_lease_state (Lease_State l) = true;
  lw_admitted_at : Lease_AdmittedAt l ≠ zero_time;
  lw_updated_at : Lease_UpdatedAt l ≠ zero_time;
  lw_expires_at : Lease_ExpiresAt l ≠ zero_time;
  lw_times : Lease_UpdatedAt l ≤ Lease_ExpiresAt l;
  lw_preempted : Lease_PreemptedBy l ≠ "" →
    preemptible_state (Lease_State l) = true ∧ warm_pool (Lease_PoolID l) = true ∧
    Lease_PreemptedBy l ≠ key;
}.

(** A claim is bound to an existing lease of the same owner, pool and image that
    is not being preempted and is in a claimable state. *)
Record claim_bound (c : Claim) (l : Lease) : Prop := {
  cb_controller : Lease_ControllerID l = Claim_ControllerID c;
  cb_pool_name : Lease_PoolName l = Claim_PoolName c;
  cb_image : Lease_ImageFingerprint l = Claim_ImageFingerprint c;
  cb_preempted : Lease_PreemptedBy l = "";
  cb_state : Lease_State l = StateWarmClaimed ∨ Lease_State l = StateCreated ∨
             Lease_State l = StateDeleting;
}.

Record claim_wf (leases : gmap string Lease) (key : string) (c : Claim) : Prop := {
  cw_key : key ≠ "";
  cw_name : Claim_JobName c = key;
  cw_instance : Claim_InstanceName c ≠ "";
  cw_controller : Claim_ControllerID c ≠ "";
  cw_pool_id : Claim_PoolID c ≠ "";
  cw_pool_name : Claim_PoolName c ≠ "";
  cw_image : Claim_ImageFingerprint c ≠ "";
  cw_lease : ∃ l, leases !! Claim_InstanceName c = Some l ∧ claim_bound c l;
  cw_state : known_claim_state (Claim_State c) = true;
  cw_reserved_at : Claim_ReservedAt c ≠ zero_time;
  cw_updated_at : Claim_UpdatedAt c ≠ zero_time;
  cw_expires_at : Claim_ExpiresAt c ≠ zero_time;
  cw_times : Claim_UpdatedAt c ≤ Claim_ExpiresAt c;
}.

(** The target of a preemption is present, cold and itself not preempted. *)
Definition target_ok (leases : gmap string Lease) (l : Lease) : Prop :=
  Lease_PreemptedBy l ≠ "" →
  ∃ t, leases !! Lease_PreemptedBy l = Some t ∧
       warm_pool (Lease_PoolID t) = false ∧ Lease_PreemptedBy t = "".

Record journal_wf (j : Journal) : Prop := {
  jw_schema : Journal_SchemaVersion j = SchemaVersion;
  jw_leases : map_Forall lease_wf (Leases j);
  jw_claims : map_Forall (claim_wf (Leases j)) (Claims j);
  jw_exclusive : ∀ k1 k2 c1 c2,
    Claims j !! k1 = Some c1 → Claims j !! k2 = Some c2 →
    Claim_InstanceName c1 = Claim_InstanceName c2 → k1 = k2;
  jw_targets : map_Forall (λ _, target_ok (Leases j)) (Leases j);
}.

(** ** Validation decides well-formedness *)

Lemma fail_if_bind_Ok {A} cond e (k : result A) a :
  (fail_if cond e ≫= λ _, k) = Ok a ↔ cond = false ∧ k = Ok a.
Proof. destruct cond; simpl; naive_solver. Qed.

Lemma IsZero_false t : IsZero t = false ↔ t ≠ zero_time.
Proof. unfold IsZero. by rewrite bool_decide_eq_false. Qed.

(** Rewrites a chain of guards into the conjunction of their negations. *)
Ltac guards_to_props :=
  repeat first
    [ rewrite fail_if_bind_Ok | rewrite fail_if_Ok | rewrite orb_false_iff
    | rewrite andb_false_iff | rewrite negb_false_iff | rewrite negb_true_iff
    | rewrite bool_decide_eq_false | rewrite bool_decide_eq_true
    | rewrite IsZero_false | rewrite Z.leb_gt | rewrite Z.ltb_ge ].

Lemma validate_lease_Ok key l : validate_lease key l = Ok tt ↔ lease_wf key l.
Proof.
  unfold validate_lease, Before. guards_to_props. split.
  - intros (?&?&?&?&?&?&?&?&Hp). destruct_and!. constructor; try done.
    + lia.
    + destruct Hp as [?|Hp]; [by intros|]. intros ?. destruct_and!. by split_and!.
  - intros []. split_and!; try done.
    + destruct (Z.le_gt_cases (Lease_CPUAllowanceUnits l) 0); [by left|right; auto].
    + destruct (decide (Lease_PreemptedBy l = "")); [by left|right; naive_solver].
Qed.

Lemma validate_claim_Ok leases claimed key c claimed' :
  validate_claim leases claimed key c = Ok claimed' ↔
  claim_wf leases key c ∧ claimed !! Claim_InstanceName c = None ∧
  claimed' = <[Claim_InstanceName c := key]> claimed.
Proof.
  unfold validate_claim, Before. rewrite !fail_if_bind_Ok. guards_to_props.
  destruct (leases !! Claim_InstanceName c) as [l|] eqn:Hl.
  2:{ split; [naive_solver|]. intros (H & _). destruct (cw_lease _ _ _ H) as (?&?&_). congruence. }
  guards_to_props. split.
  - intros (?&?&Hn&?&?&Hs&?&?&?&[= <-]). destruct_and!. split_and!.
    + constructor; try done. exists l. split; [done|]. constructor; try done.
      destruct_or!; auto.
    + by apply eq_None_not_Some.
    + done.
  - intros (H & Hn & ->). destruct (cw_lease _ _ _ H) as (l' & Hl' & Hb). destruct H; simplify_eq.
    destruct Hb as [???? Hs]. split_and!; try done.
    + by apply eq_None_not_Some.
    + destruct Hs as [|[|]]; auto.
Qed.

Lemma validate_target_Ok leases key l : validate_target leases key l = Ok tt ↔ target_ok leases l.
Proof.
  unfold validate_target, target_ok. case_bool_decide as Hp.
  { split; [by intros _ ?|done]. }
  destruct (leases !! Lease_PreemptedBy l) as [t|].
  - guards_to_props. split; [naive_solver|]. intros (?&?&?); [done|]. naive_solver.
  - split; [done|]. intros (?&?&_); done.
Qed.

Lemma with_entry_Some {V R} (m : gmap string V) k v (a : result R) f :
  m !! k = Some v → with_entry m k a f = f v.
Proof. unfold with_entry. by intros ->. Qed.
Lemma with_entry_None {V R} (m : gmap string V) k (a : result R) (f : V → result R) :
  m !! k = None → with_entry m k a f = a.
Proof. unfold with_entry. by intros ->. Qed.

(** The claims loop succeeds exactly when every claim is well formed and no two
    walked claims name the same instance. *)
Lemma claims_loop_Ok leases (claims : gmap string Claim) keys claimed claimed' :
  NoDup keys →
  foldM (λ acc key, with_entry claims key (Ok acc) (validate_claim leases acc key)) keys claimed = Ok claimed' →
  (∀ k c, k ∈ keys → claims !! k = Some c →
     claim_wf leases k c ∧ claimed !! Claim_InstanceName c = None) ∧
  (∀ k1 k2 c1 c2, k1 ∈ keys → k2 ∈ keys → claims !! k1 = Some c1 → claims !! k2 = Some c2 →
     Claim_InstanceName c1 = Claim_InstanceName c2 → k1 = k2).
Proof.
  revert claimed. induction keys as [|k keys IH]; intros claimed Hnd H; [set_solver|].
  apply NoDup_cons in Hnd as [Hk Hnd]. simpl in H. apply bind_Ok in H as (acc & H1 & H2).
  destruct (IH acc Hnd H2) as [IH1 IH2]. clear IH.
  unfold with_entry in H1. destruct (claims !! k) as [c|] eqn:Hc.
  2:{ injection H1 as <-. split; [|set_solver].
      intros k' c' [->|?]%elem_of_cons ?; [congruence|eauto]. }
  apply validate_claim_Ok in H1 as (Hwf & Hn & ->).
  assert (∀ k' c', k' ∈ keys → claims !! k' = Some c' →
    Claim_InstanceName c' ≠ Claim_InstanceName c ∧ claimed !! Claim_InstanceName c' = None) as Hfresh.
  { intros k' c' Hin Hc'. destruct (IH1 _ _ Hin Hc') as [_ Hlk].
    apply lookup_insert_None in Hlk as [? ?]. split; congruence. }
  split.
  - intros k' c' [->|Hin]%elem_of_cons Hc'; simplify_eq; [done|].
    split; [by eapply IH1|by eapply Hfresh].
  - intros k1 k2 c1 c2 [->|?]%elem_of_cons [->|?]%elem_of_cons H1 H3 Heq; simplify_eq; [done|..].
    + by destruct (Hfresh k2 c2).
    + by destruct (Hfresh k1 c1).
    + by eapply IH2.
Qed.

Lemma claims_loop_total leases (claims : gmap string Claim) keys claimed :
  NoDup keys →
  (∀ k c, k ∈ keys → claims !! k = Some c →
     claim_wf leases k c ∧ claimed !! Claim_InstanceName c = None) →
  (∀ k1 k2 c1 c2, k1 ∈ keys → k2 ∈ keys → claims !! k1 = Some c1 → claims !! k2 = Some c2 →
     Claim_InstanceName c1 = Claim_InstanceName c2 → k1 = k2) →
  ∃ claimed', foldM (λ acc key, with_entry claims key (Ok acc) (validate_claim leases acc key))
    keys claimed = Ok claimed'.
Proof.
  revert claimed. induction keys as [|k keys IH]; intros claimed Hnd Hwf Hinj; [by eexists|].
  apply NoDup_cons in Hnd as [Hk Hnd]. simpl.
  destruct (claims !! k) as [c|] eqn:Hc;
    [rewrite (with_entry_Some _ _ c) by done|rewrite with_entry_None by done]; simpl.
  - destruct (Hwf k c) as [Hcw Hfree]; [set_solver|done|].
    rewrite (proj2 (validate_claim_Ok leases claimed k c _)) by done. simpl.
    apply IH; [done| |intros; eapply Hinj; set_solver].
    intros k' c' Hin Hc'. destruct (Hwf k' c') as [? ?]; [set_solver|done|]. split; [done|].
    apply lookup_insert_None. split; [done|]. intros Heq. apply Hk.
    by rewrite (Hinj k k' c c') by set_solver.
  - apply IH; [done|intros; apply Hwf; set_solver|intros; eapply Hinj; set_solver].
Qed.

Lemma Validate_Ok_wf j : Validate j = Ok tt → journal_wf j.
Proof.
  unfold Validate. intros (Hs & H)%fail_if_bind_Ok. bool_hyps.
  apply bind_Ok in H as ([] & H1 & (claimed & Hc & H)%bind_Ok).
  apply claims_loop_Ok in Hc as [Hclaims Hexcl]; [|apply NoDup_sorted_keys].
  rewrite forM_Ok in H. rewrite forM_Ok in H1.
  constructor; [done|..].
  - intros k l Hl. apply validate_lease_Ok.
    specialize (H1 k). unfold with_entry in H1. rewrite Hl in H1. apply H1, elem_of_sorted_keys. eauto.
  - intros k c Hc. apply Hclaims; [|done]. apply elem_of_sorted_keys. eauto.
  - intros k1 k2 c1 c2 ??. apply Hexcl; try done; apply elem_of_sorted_keys; eauto.
  - intros k l Hl. apply (validate_target_Ok _ k), (H (k, l)). by apply elem_of_map_to_list.
Qed.

Lemma Validate_wf_Ok j : journal_wf j → Validate j = Ok tt.
Proof.
  intros [Hs Hl Hc He Ht]. unfold Validate.
  rewrite fail_if_Ok_bind, bool_decide_eq_true_2 by done. simpl.
  rewrite (proj2 (forM_Ok (sorted_keys (Leases j)) _ tt)).
  2:{ intros k Hk. unfold with_entry. destruct (Leases j !! k) eqn:E; [|done].
      apply validate_lease_Ok. by apply Hl. }
  simpl. destruct (claims_loop_total (Leases j) (Claims j) (sorted_keys (Claims j)) ∅) as [m ->].
  - apply NoDup_sorted_keys.
  - intros k c _ ?. split; [by apply Hc|done].
  - intros; by eapply He.
  - simpl. apply forM_Ok. intros [k l] Hkl%elem_of_map_to_list. apply validate_target_Ok. by eapply Ht.
Qed.

Lemma Validate_spec j : Validate j = Ok tt ↔ journal_wf j.
Proof. split; [apply Validate_Ok_wf|apply Validate_wf_Ok]. Qed.

(** C3: [Journal.Validate] accepts exactly the well-formed journals: every lease
    is keyed by its own name with positive resources, known state and ordered
    timestamps, every claim is bound to an existing, unpreempted lease of the
    same controller, pool and image, no instance is claimed twice, and every
    preemption names a present cold lease that is not itself preempted. *)
Theorem Validate_iff_wf j : Validate j = Ok tt ↔ journal_wf j.
Proof. apply Validate_spec. Qed.
