(* ===== verification/ProviderStore.v ===== *)
(** * Provider journal store and maintenance
    ([src/internal/providerjournal/store.go], [maintenance.go])

    The file holding the journal, the locked read-modify-write [Update] with its
    temporary-file-and-rename publication, and the reconciliation that removes
    expired image-maintenance leases. The file is described by what the code
    inspects: whether it exists and opens, its mode, its size and what the strict
    JSON decoder returns for its bytes. *)

From S2P Require Import Prelude ProviderJournal.

Local Open Scope Z_scope.

(** ** The file on disk *)

(** The decoded document, before the nil-map checks and schema migration: a JSON
    [null] or absent map decodes to a nil map. *)
Record Document := {
  doc_SchemaVersion : Z;
  doc_Generation : Z;
  doc_UpdatedAt : Time;
  doc_WarmPreemptionsTotal : Z;
  doc_Leases : option (gmap string Lease);
  doc_Claims : option (gmap string Claim);
}.

(** What decoding the bytes yields: an error, a document followed by another
    JSON value, a document followed by garbage, or exactly one document. *)
Inductive Decoded :=
  | DecodeError
  | MultipleValues (doc : Document)
  | TrailingData (doc : Document)
  | OneValue (doc : Document).

Record File := {
  file_regular : bool;
  file_perm : Z;
  file_size : Z;
  file_content : Decoded;
}.

Inductive Disk :=
  | NotExist
  | Unopenable
  | HasFile (file : File).

Definition maxJournalBytes : Z := 4 * 1024 * 1024.

(** The schema upgrade of [readUnlocked]. *)
Definition migrate (doc : Document) : Document := {|
  doc_SchemaVersion :=
    if bool_decide (doc_SchemaVersion doc = LegacySchemaVersion)
       || bool_decide (doc_SchemaVersion doc = ClaimsSchemaVersion)
       || bool_decide (doc_SchemaVersion doc = PreemptionSchemaVersion)
    then SchemaVersion else doc_SchemaVersion doc;
  doc_Generation := doc_Generation doc;
  doc_UpdatedAt := doc_UpdatedAt doc;
  doc_WarmPreemptionsTotal := doc_WarmPreemptionsTotal doc;
  doc_Leases := doc_Leases doc;
  doc_Claims :=
    if bool_decide (doc_SchemaVersion doc = LegacySchemaVersion)
    then Some (default ∅ (doc_Claims doc)) else doc_Claims doc |}.

(** [Validate] on a decoded document, which may still hold nil maps. *)
Definition validate_document (doc : Document) : result Journal :=
  fail_if (negb (bool_decide (doc_SchemaVersion doc = SchemaVersion)))
    (Errorf "journal schema_version must be %d" []);;
  match doc_Leases doc, doc_Claims doc with
  | None, _ => Err (Errorf "journal leases must not be null" [])
  | _, None => Err (Errorf "journal claims must not be null" [])
  | Some leases, Some claims =>
      let j := {| Journal_SchemaVersion := doc_SchemaVersion doc; Generation := doc_Generation doc;
                  Journal_UpdatedAt := doc_UpdatedAt doc;
                  WarmPreemptionsTotal := doc_WarmPreemptionsTotal doc;
                  Leases := leases; Claims := claims |} in
      Validate j;; Ok j
  end.

Definition readUnlocked (disk : Disk) : result Journal :=
  match disk with
  | NotExist => Ok newJournal
  | Unopenable => Err (Errorf "open journal: %w" [])
  | HasFile file =>
      fail_if (negb (file_regular file) || negb (bool_decide (Z.land (file_perm file) 63 = 0)))
        (Errorf "journal must be a private regular file" []);;
      fail_if (maxJournalBytes <? file_size file) (Errorf "journal exceeds %d bytes" []);;
      match file_content file with
      | DecodeError => Err (Errorf "decode journal: %w" [])
      | MultipleValues _ => Err (Errorf "journal contains multiple JSON values" [])
      | TrailingData _ => Err (Errorf "decode trailing journal data: %w" [])
      | OneValue doc => validate_document (migrate doc)
      end
  end.

(** ** Publication *)

(** Where [writeUnlocked] can be interrupted, by an error or by a crash. *)
Inductive WriteFault :=
  | FaultCreateTemp | FaultChmod | FaultEncode | FaultSync | FaultClose | FaultRename
  | FaultOpenDirectory | FaultSyncDirectory.

#[export] Instance WriteFault_eq_dec : EqDecision WriteFault.
Proof. solve_decision. Defined.

Definition document_of (j : Journal) : Document := {|
  doc_SchemaVersion := Journal_SchemaVersion j; doc_Generation := Generation j;
  doc_UpdatedAt := Journal_UpdatedAt j; doc_WarmPreemptionsTotal := WarmPreemptionsTotal j;
  doc_Leases := Some (Leases j); doc_Claims := Some (Claims j) |}.

Definition journalsEqual (left right : Journal) : bool :=
  bool_decide (Journal_SchemaVersion left = Journal_SchemaVersion right) &&
  bool_decide (WarmPreemptionsTotal left = WarmPreemptionsTotal right) &&
  bool_decide (size (Leases left) = size (Leases right)) &&
  bool_decide (size (Claims left) = size (Claims right)) &&
  forallb (λ kl, bool_decide (Leases right !! kl.1 = Some kl.2)) (map_to_list (Leases left)) &&
  forallb (λ kc, bool_decide (Claims right !! kc.1 = Some kc.2)) (map_to_list (Claims left)).

(** What one call of the store observes of its environment: whether the paths
    are acceptable and the lock was acquired, the clock, and where the write is
    interrupted, if it is. *)
Record Env := {
  env_lock : result unit;
  env_now : Time;
  env_fault : option WriteFault;
}.

Definition stamp (now : Time) (j : Journal) : Journal := {|
  Journal_SchemaVersion := Journal_SchemaVersion j;
  Generation := (Generation j + 1) `mod` two64;
  Journal_UpdatedAt := now; WarmPreemptionsTotal := WarmPreemptionsTotal j;
  Leases := Leases j; Claims := Claims j |}.

Section store.
(** The length of the indented JSON encoding of a journal. *)
Context (encoded_size : Journal → Z).

Definition encode (j : Journal) : File := {|
  file_regular := true; file_perm := 384; file_size := encoded_size j;
  file_content := OneValue (document_of j) |}.

(** The journal path changes only at the rename; the temporary file never is
    the journal. *)
Definition writeUnlocked (fault : option WriteFault) (disk : Disk) (j : Journal) : Disk * result unit :=
  match fault with
  | Some FaultCreateTemp => (disk, Err (Errorf "create temporary journal: %w" []))
  | Some FaultChmod => (disk, Err (Errorf "set temporary journal permissions: %w" []))
  | Some FaultEncode => (disk, Err (Errorf "encode journal: %w" []))
  | Some FaultSync => (disk, Err (Errorf "sync temporary journal: %w" []))
  | Some FaultClose => (disk, Err (Errorf "close temporary journal: %w" []))
  | Some FaultRename => (disk, Err (Errorf "replace journal: %w" []))
  | Some FaultOpenDirectory => (HasFile (encode j), Err (Errorf "open journal directory: %w" []))
  | Some FaultSyncDirectory => (HasFile (encode j), Err (Errorf "sync journal directory: %w" []))
  | None => (HasFile (encode j), Ok tt)
  end.

Definition Read (env : Env) (disk : Disk) : result Journal :=
  env_lock env;; readUnlocked disk.

(** [Store.ReadOnly] takes no lock; [path] is the outcome of the checks of the
    context and the path. *)
Definition ReadOnly (path : result unit) (disk : Disk) : result Journal :=
  path;; readUnlocked disk.

(** [Store.Update]. The mutation works on a private copy; what it computes
    besides the journal is returned alongside. *)
Definition Update {R} (env : Env) (disk : Disk) (mutate : Journal → result (Journal * R))
    : Disk * result (Journal * R) :=
  match (env_lock env;; readUnlocked disk) with
  | Err e => (disk, Err e)
  | Ok before =>
      match mutate before with
      | Err e => (disk, Err e)
      | Ok (j, r) =>
          match Validate j with
          | Err e => (disk, Err (Wrapf "validate mutated journal: %w" [] e))
          | Ok _ =>
              if journalsEqual before j then (disk, Ok (j, r))
              else
                let j' := stamp (env_now env) j in
                let '(disk', written) := writeUnlocked (env_fault env) disk j' in
                (disk', written;; Ok (j', r))
          end
      end
  end.

(** ** Lemmas *)

Lemma forallb_covers {V} `{!EqDecision V} (m1 m2 : gmap string V) :
  forallb (λ kv, bool_decide (m2 !! kv.1 = Some kv.2)) (map_to_list m1) = true ↔
  map_Forall (λ k v, m2 !! k = Some v) m1.
Proof.
  rewrite forallb_forall. split.
  - intros H k v Hkv%elem_of_map_to_list. apply list_elem_of_In in Hkv.
    by apply H in Hkv; apply bool_decide_eq_true in Hkv.
  - intros H [k v] Hin%list_elem_of_In%elem_of_map_to_list.
    apply bool_decide_eq_true. by apply H.
Qed.

Lemma map_covers_eq {V} (m1 m2 : gmap string V) :
  size m1 = size m2 → map_Forall (λ k v, m2 !! k = Some v) m1 → m1 = m2.
Proof.
  intros Hsize Hsub. apply map_subseteq_size_eq; [|lia].
  apply map_subseteq_spec. exact Hsub.
Qed.

Lemma journalsEqual_spec l r :
  journalsEqual l r = true ↔
  Journal_SchemaVersion l = Journal_SchemaVersion r ∧
  WarmPreemptionsTotal l = WarmPreemptionsTotal r ∧ Leases l = Leases r ∧ Claims l = Claims r.
Proof.
  unfold journalsEqual. rewrite !andb_true_iff, !bool_decide_eq_true.
  rewrite !forallb_covers. split.
  - intros (((((-> & ->) & Hs1) & Hs2) & H1) & H2). split_and!; auto using map_covers_eq.
  - intros (-> & -> & -> & ->). split_and!; try done; by intros k v Hk.
Qed.

Lemma readUnlocked_wf disk j : readUnlocked disk = Ok j → journal_wf j.
Proof.
  destruct disk as [| |f]; simpl; intros H; inv_ok.
  - apply Validate_spec. reflexivity.
  - destruct (file_content f) as [|?|?|doc]; inv_ok. unfold validate_document in H. inv_ok.
    destruct (doc_Leases (migrate doc)) as [ls|]; [|done].
    destruct (doc_Claims (migrate doc)) as [cs|]; [|done].
    apply bind_Ok in H as ([] & HV & [= <-]). by apply Validate_spec.
Qed.

Lemma stamp_wf now j : journal_wf j → journal_wf (stamp now j).
Proof. by intros []. Qed.

Lemma migrate_current j :
  Journal_SchemaVersion j = SchemaVersion → migrate (document_of j) = document_of j.
Proof. unfold migrate, document_of. simpl. by intros ->. Qed.

(** A published journal reads back as itself. *)
Lemma readUnlocked_encode j :
  journal_wf j → encoded_size j ≤ maxJournalBytes → readUnlocked (HasFile (encode j)) = Ok j.
Proof.
  intros Hj Hsize. simpl. rewrite (proj2 (Z.ltb_ge _ _)) by done. simpl.
  rewrite migrate_current by apply Hj. unfold validate_document, document_of. simpl.
  rewrite bool_decide_eq_true_2 by apply Hj. simpl.
  destruct j as [sv g u w ls cs]. by rewrite Validate_wf_Ok.
Qed.

Lemma readUnlocked_encode_inv j after :
  journal_wf j → readUnlocked (HasFile (encode j)) = Ok after → after = j.
Proof.
  intros Hj H. pose proof H as H'. simpl in H'. rewrite !fail_if_Ok_bind in H'. simpl in H'.
  destruct (Z.ltb_spec maxJournalBytes (encoded_size j)); [done|].
  rewrite readUnlocked_encode in H by done. by injection H.
Qed.

(** The path holds the old file and the write failed, or it holds the new one. *)
Lemma writeUnlocked_atomic fault disk j disk' w :
  writeUnlocked fault disk j = (disk', w) →
  (disk' = disk ∧ ∃ e, w = Err e) ∨ disk' = HasFile (encode j).
Proof. destruct fault as [[]|]; simpl; intros [= <- <-]; eauto. Qed.

(** The four ways a call can end. *)
Lemma Update_cases {R} env disk (mutate : Journal → result (Journal * R)) disk' res :
  Update env disk mutate = (disk', res) →
  (disk' = disk ∧ ∃ e, res = Err e) ∨
  (∃ before j r, readUnlocked disk = Ok before ∧ mutate before = Ok (j, r) ∧ journal_wf j ∧
     ((journalsEqual before j = true ∧ disk' = disk ∧ res = Ok (j, r)) ∨
      (journalsEqual before j = false ∧
       writeUnlocked (env_fault env) disk (stamp (env_now env) j) = (disk', res ≫= λ _, Ok tt) ∧
       ∀ x, res = Ok x → x = (stamp (env_now env) j, r)))).
Proof.
  unfold Update. destruct (env_lock env) as [[]|e]; simpl; [|intros [= <- <-]; eauto].
  destruct (readUnlocked disk) as [before|e]; [|intros [= <- <-]; eauto].
  destruct (mutate before) as [[j r]|e] eqn:Hm; [|intros [= <- <-]; eauto].
  destruct (Validate j) as [[]|e] eqn:HV; [|intros [= <- <-]; eauto].
  destruct (journalsEqual before j) eqn:HE.
  - intros [= <- <-]. right. exists before, j, r. split_and!; auto. by apply Validate_spec.
  - destruct (writeUnlocked _ disk _) as [d w] eqn:HW. intros [= <- <-]. right.
    exists before, j, r. split_and!; auto; [by apply Validate_spec|]. right.
    split_and!; [done| |]; destruct w as [[]|]; simpl; naive_solver.
Qed.

(** ** Properties *)

(** C13: an update of a readable journal is atomic, provided the mutated journal
    encodes within the read limit (a larger one is written and can not be read again,
    [Update_oversize_wedges]): whatever else the mutation does and wherever the write is
    interrupted, the journal on disk afterwards is readable and well formed and
    is either the untouched previous journal or the complete mutated one with
    the next generation number; a successful update reports exactly the leases
    and claims a later read sees. *)
Theorem Update_atomic {R} env disk (mutate : Journal → result (Journal * R)) before disk' res :
  readUnlocked disk = Ok before →
  (∀ j r, mutate before = Ok (j, r) → encoded_size (stamp (env_now env) j) ≤ maxJournalBytes) →
  Update env disk mutate = (disk', res) →
  ∃ after, readUnlocked disk' = Ok after ∧ journal_wf after ∧
    (disk' = disk ∨
     ∃ j r, mutate before = Ok (j, r) ∧ after = stamp (env_now env) j ∧
            Generation after = (Generation j + 1) `mod` two64) ∧
    (∀ j r, res = Ok (j, r) → Leases after = Leases j ∧ Claims after = Claims j).
Proof.
  intros Hread Hsize H. pose proof (readUnlocked_wf _ _ Hread) as Hbw.
  apply Update_cases in H as [[-> [e ->]]|(b & j & r & Hb & Hm & Hw & [(HE & -> & ->)|(HE & HW & Hres)])].
  - exists before. split_and!; auto; done.
  - rewrite Hread in Hb. injection Hb as <-. apply journalsEqual_spec in HE as (?&?&?&?).
    exists before. split_and!; auto. intros j' r' [= <- <-]. done.
  - rewrite Hread in Hb. injection Hb as <-.
    assert (readUnlocked (HasFile (encode (stamp (env_now env) j))) = Ok (stamp (env_now env) j)) as Hrt.
    { apply readUnlocked_encode; [by apply stamp_wf|by eapply Hsize]. }
    apply writeUnlocked_atomic in HW as [[-> [e He]]| -> ].
    + exists before. split_and!; auto. intros j' r' ->. discriminate He.
    + exists (stamp (env_now env) j). split_and!; [done|by apply stamp_wf|right; by exists j, r|].
      intros j' r' ->. by injection (Hres _ eq_refl) as -> ->.
Qed.

(** the size limit is only enforced on reads: a successful update that
    publishes a journal whose encoding exceeds the limit leaves a store that no
    later read or update can open. *)
Theorem Update_oversize_wedges {R} env disk (mutate : Journal → result (Journal * R)) before j r :
  readUnlocked disk = Ok before → env_lock env = Ok tt → env_fault env = None →
  mutate before = Ok (j, r) → journal_wf j → journalsEqual before j = false →
  maxJournalBytes < encoded_size (stamp (env_now env) j) →
  ∃ disk', Update env disk mutate = (disk', Ok (stamp (env_now env) j, r)) ∧
    ∀ env' R' (m' : Journal → result (Journal * R')),
      (∃ e, Read env' disk' = Err e) ∧ ∃ e, Update env' disk' m' = (disk', Err e).
Proof.
  intros Hread Hlock Hfault Hm Hw HE Hsize. eexists. split.
  - unfold Update. rewrite Hlock, Hread. simpl. rewrite Hm, Validate_wf_Ok, HE, Hfault by done. done.
  - intros env' R' m'. unfold Read, Update.
    assert (readUnlocked (HasFile (encode (stamp (env_now env) j))) = Err (Errorf "journal exceeds %d bytes" [])) as ->.
    { simpl. by rewrite (proj2 (Z.ltb_lt _ _)) by done. }
    destruct (env_lock env') as [[]|]; simpl; eauto.
Qed.

End store.

(** ** Expired image-maintenance leases ([maintenance.go]) *)

Definition maintenanceExpiryGrace : Duration := Minute.

Record MaintenanceReconcileResult := {
  Applied : bool;
  ObservedAt : Time;
  Candidates : list string;
  Removed : list string;
  Retained : list string;
}.

Definition is_hex_rune (a : ascii) : bool :=
  let n := nat_of_ascii a in
  ((48 <=? n) && (n <=? 57) || (97 <=? n) && (n <=? 102))%nat.

Fixpoint all_hex (s : string) : bool :=
  match s with EmptyString => true | String a s => is_hex_rune a && all_hex s end.

(** [strings.CutPrefix] followed by the length and hex tests. *)
Definition has_hex_suffix (name pre : string) : bool :=
  HasPrefix name pre &&
  let suffix := String.substring (String.length pre) (String.length name - String.length pre) name in
  bool_decide (String.length suffix = 12%nat) && all_hex suffix.

Definition IsImageMaintenanceInstance (name : string) : bool :=
  existsb (has_hex_suffix name) ["gha-image-builder-"; "gha-image-smoke-"].

Definition claimed_instances (claims : gmap string Claim) : gset string :=
  list_to_set ((λ kc, Claim_InstanceName kc.2) <$> map_to_list claims).

Definition is_maintenance_candidate (j : Journal) (visible : gset string) (now : Time)
    (name : string) (lease : Lease) : bool :=
  negb (negb (IsImageMaintenanceInstance name)
        || negb (HasPrefix (Lease_PoolID lease) "image-maintenance/")
        || bool_decide (name ∈ visible)
        || bool_decide (name ∈ claimed_instances (Claims j))
        || negb (bool_decide (Lease_PreemptedBy lease = ""))
        || Before now (Add (Lease_ExpiresAt lease) maintenanceExpiryGrace)).

Definition maintenanceCandidates (j : Journal) (visible : gset string) (now : Time) : list string :=
  sort_strings
    ((filter (λ kl, is_maintenance_candidate j visible now kl.1 kl.2 = true) (map_to_list (Leases j))).*1).

Definition retainedMaintenance (j : Journal) (removed : list string) : list string :=
  sort_strings
    ((filter (λ kl, IsImageMaintenanceInstance kl.1 = true ∧
                    HasPrefix (Lease_PoolID kl.2) "image-maintenance/" = true ∧
                    kl.1 ∉ removed) (map_to_list (Leases j))).*1).

(** The mutation: each candidate loses its lease and every claim on it. *)
Definition remove_instance (j : Journal) (name : string) : Journal :=
  with_claims (filter (λ kc, Claim_InstanceName kc.2 ≠ name) (Claims j))
    (with_leases (delete name (Leases j)) j).

Definition maintenance_mutation (visible : gset string) (now : Time) (j : Journal)
    : result (Journal * list string) :=
  let names := maintenanceCandidates j visible now in
  Ok (foldl remove_instance j names, names).

Definition ReconcileExpiredMaintenance (encoded_size : Journal → Z) (env_read env_update : Env)
    (disk : Disk) (visible : gset string) (now : Time) (apply : bool)
    : Disk * result MaintenanceReconcileResult :=
  match Read env_read disk with
  | Err e => (disk, Err e)
  | Ok journal =>
      let candidates := maintenanceCandidates journal visible now in
      if negb apply then
        (disk, Ok {| Applied := apply; ObservedAt := now; Candidates := candidates; Removed := [];
                     Retained := retainedMaintenance journal candidates |})
      else
        let '(disk', updated) := Update encoded_size env_update disk (maintenance_mutation visible now) in
        (disk',
         '(after, removed) ← updated;
         Ok {| Applied := apply; ObservedAt := now; Candidates := candidates; Removed := removed;
               Retained := retainedMaintenance after removed |})
  end.

Lemma elem_of_maintenanceCandidates j visible now name :
  name ∈ maintenanceCandidates j visible now ↔
  ∃ l, Leases j !! name = Some l ∧ is_maintenance_candidate j visible now name l = true.
Proof.
  unfold maintenanceCandidates. rewrite elem_of_sort_strings, list_elem_of_fmap. split.
  - intros ([k l] & -> & Hin). rewrite list_elem_of_filter, elem_of_map_to_list in Hin. naive_solver.
  - intros (l & Hl & Hc). exists (name, l). rewrite list_elem_of_filter, elem_of_map_to_list. done.
Qed.

Lemma Leases_remove_all j names :
  Leases (foldl remove_instance j names) = filter (λ kl, kl.1 ∉ names) (Leases j).
Proof.
  revert j. induction names as [|n names IH]; intros j; simpl.
  { symmetry. apply map_filter_id. set_solver. }
  rewrite IH. simpl. apply map_eq. intros k.
  rewrite !map_lookup_filter, lookup_delete.
  destruct (decide (n = k)) as [->|Hne]; simpl.
  - destruct (Leases j !! k); simpl; [|done]. rewrite option_guard_False; [done|set_solver].
  - destruct (Leases j !! k); simpl; [|done].
    destruct (decide (k ∈ names)); [rewrite !option_guard_False by set_solver|rewrite !option_guard_True by set_solver]; done.
Qed.

Lemma Claims_remove_all j names :
  Claims (foldl remove_instance j names) = filter (λ kc, Claim_InstanceName kc.2 ∉ names) (Claims j).
Proof.
  revert j. induction names as [|n names IH]; intros j; simpl.
  { symmetry. apply map_filter_id. set_solver. }
  rewrite IH. simpl. rewrite map_filter_filter. apply map_filter_ext. set_solver.
Qed.

Lemma claimed_instances_spec claims i :
  i ∈ claimed_instances claims ↔ ∃ k c, claims !! k = Some c ∧ Claim_InstanceName c = i.
Proof.
  unfold claimed_instances. rewrite elem_of_list_to_set, list_elem_of_fmap. split.
  - intros ([k c] & -> & Hin%elem_of_map_to_list). eauto.
  - intros (k & c & Hc & <-). exists (k, c). by rewrite elem_of_map_to_list.
Qed.

(** The only difference between the two journals is that leases of
    image-maintenance instances that are invisible, unclaimed, unpreempted and
    past their expiry by the grace period are gone. *)
Definition only_expired_removed (visible : gset string) (now : Time) (before after : Journal) : Prop :=
  Claims after = Claims before ∧
  (∀ k l, Leases after !! k = Some l → Leases before !! k = Some l) ∧
  (∀ k l, Leases before !! k = Some l → Leases after !! k = None →
     IsImageMaintenanceInstance k = true ∧
     HasPrefix (Lease_PoolID l) "image-maintenance/" = true ∧ (k ∉ visible) ∧
     (∀ job c, Claims before !! job = Some c → Claim_InstanceName c ≠ k) ∧
     Lease_PreemptedBy l = "" ∧ Lease_ExpiresAt l + Minute ≤ now).

Lemma maintenance_mutation_spec visible now before j names :
  maintenance_mutation visible now before = Ok (j, names) → only_expired_removed visible now before j.
Proof.
  intros [= <- <-]. unfold only_expired_removed. rewrite Leases_remove_all, Claims_remove_all.
  assert (∀ k l, k ∈ maintenanceCandidates before visible now → Leases before !! k = Some l →
    is_maintenance_candidate before visible now k l = true) as Hcand.
  { intros k l (l' & Hl' & Hc)%elem_of_maintenanceCandidates Hl. congruence. }
  split_and!.
  - apply map_filter_id. intros k c Hc Hin. simpl in Hin.
    apply elem_of_maintenanceCandidates in Hin as (l & Hl & Hm).
    unfold is_maintenance_candidate in Hm. bool_hyps.
    match goal with H : _ ∉ claimed_instances _ |- _ => apply H end.
    apply claimed_instances_spec. eauto.
  - intros k l [? _]%map_lookup_filter_Some. done.
  - intros k l Hl Hnone. apply map_lookup_filter_None in Hnone as [?|Hn]; [congruence|].
    specialize (Hn l Hl). simpl in Hn. apply dec_stable in Hn.
    specialize (Hcand _ _ Hn Hl). unfold is_maintenance_candidate, Before, Add,
      maintenanceExpiryGrace in Hcand. bool_hyps. split_and!; try done.
    + intros job c Hc Heq. match goal with H : _ ∉ claimed_instances _ |- _ => apply H end.
      apply claimed_instances_spec. eauto.
    + lia.
Qed.

Lemma only_expired_removed_refl visible now j : only_expired_removed visible now j j.
Proof. split_and!; [done..|]. intros. congruence. Qed.

(** a maintenance reconciliation changes the journal on disk only by dropping
    leases of image-maintenance instances that are invisible, unclaimed,
    unpreempted and past their expiry by the grace period, whatever happens to
    the write; every other lease and every claim is untouched, and without
    [apply] nothing is written. *)
Theorem maintenance_removes_only_expired size env_r env_u disk visible now apply disk' res before after :
  ReconcileExpiredMaintenance size env_r env_u disk visible now apply = (disk', res) →
  readUnlocked disk = Ok before → readUnlocked disk' = Ok after →
  (apply = false → disk' = disk) ∧ only_expired_removed visible now before after.
Proof.
  unfold ReconcileExpiredMaintenance. intros H Hb Ha.
  destruct (Read env_r disk) as [journal|e].
  2:{ injection H as <- <-. split; [done|]. rewrite Hb in Ha. injection Ha as <-.
      apply only_expired_removed_refl. }
  destruct apply; simpl in H.
  2:{ injection H as <- <-. split; [done|]. rewrite Hb in Ha. injection Ha as <-.
      apply only_expired_removed_refl. }
  split; [done|].
  destruct (Update size env_u disk _) as [d r] eqn:HU. injection H as <- <-.
  apply Update_cases in HU as [[-> _]|(b & j & names & Hb' & Hm & Hw & [(_ & -> & _)|(_ & HW & _)])].
  - rewrite Hb in Ha. injection Ha as <-. apply only_expired_removed_refl.
  - rewrite Hb in Ha. injection Ha as <-. apply only_expired_removed_refl.
  - rewrite Hb in Hb'. injection Hb' as <-. apply maintenance_mutation_spec in Hm.
    apply writeUnlocked_atomic in HW as [[-> _]| -> ].
    + rewrite Hb in Ha. injection Ha as <-. apply only_expired_removed_refl.
    + apply readUnlocked_encode_inv in Ha as ->; [|by apply stamp_wf]. done.
Qed.

(** ** Witnesses *)

Definition example_lease (name pool : string) (state : LeaseState) : Lease := {|
  Lease_InstanceName := name; Lease_ControllerID := "ctl"; Lease_PoolID := pool;
  Lease_PoolName := "fast"; Lease_VCPU := 2; Lease_CPUAllowanceUnits := 0; Lease_MemoryMiB := 4096;
  Lease_ImageFingerprint := "img"; Lease_State := state; Lease_PreemptedBy := "";
  Lease_AdmittedAt := 10; Lease_UpdatedAt := 10; Lease_ExpiresAt := 20 |}.
Definition example_journal : Journal :=
  with_leases {[ "gha-image-smoke-0123456789ab" :=
      example_lease "gha-image-smoke-0123456789ab" "image-maintenance/x" StateCreated ]} newJournal.
Definition example_env : Env := {| env_lock := Ok tt; env_now := 5; env_fault := None |}.
Definition example_size (j : Journal) : Z := 100.
Definition example_disk : Disk := HasFile (encode example_size example_journal).

Lemma example_read : readUnlocked example_disk = Ok example_journal.
Proof. vm_compute. reflexivity. Qed.

Lemma maintenance_removes_only_expired_witness :
  only_expired_removed ∅ 60000000020 example_journal (stamp 5 newJournal).
Proof.
  refine (proj2 (maintenance_removes_only_expired example_size example_env example_env example_disk
    ∅ 60000000020 true (HasFile (encode example_size (stamp 5 newJournal)))
    (ReconcileExpiredMaintenance example_size example_env example_env example_disk ∅ 60000000020 true).2
    example_journal (stamp 5 newJournal) _ _ _)).
  - vm_compute. reflexivity.
  - exact example_read.
  - vm_compute. reflexivity.
Defined.

Lemma Update_atomic_witness :
  ∃ after, readUnlocked (Update example_size example_env example_disk
      (maintenance_mutation ∅ 60000000020)).1 = Ok after ∧ journal_wf after.
Proof.
  destruct (Update_atomic example_size example_env example_disk (maintenance_mutation ∅ 60000000020)
    example_journal (Update example_size example_env example_disk (maintenance_mutation ∅ 60000000020)).1
    (Update example_size example_env example_disk (maintenance_mutation ∅ 60000000020)).2)
    as (after & Hread & Hwf & _).
  - exact example_read.
  - intros j r _. vm_compute. discriminate.
  - vm_compute. reflexivity.
  - exists after. split; assumption.
Defined.

Lemma Update_oversize_wedges_witness :
  ∃ disk', ∀ env' R' (m' : Journal → result (Journal * R')),
    (∃ e, Read env' disk' = Err e) ∧ ∃ e, Update (λ _, 5000000) env' disk' m' = (disk', Err e).
Proof.
  destruct (Update_oversize_wedges (λ _, 5000000) example_env example_disk
    (maintenance_mutation ∅ 60000000020) example_journal newJournal
    ["gha-image-smoke-0123456789ab"]) as (disk' & _ & H).
  - exact example_read.
  - reflexivity.
  - reflexivity.
  - vm_compute. reflexivity.
  - apply Validate_spec. reflexivity.
  - vm_compute. reflexivity.
  - vm_compute. reflexivity.
  - exists disk'. exact H.
Defined.
