(* ===== verification/ProviderAdmission.v ===== *)
(** * Provider admission: data and operations
    ([src/internal/provideradmission/controller.go])

    The controller that reconciles the provider journal with the observed Incus
    inventory, reserves capacity for new instances (preempting warm ones when
    allowed), binds jobs to warm instances and releases what was reserved. Every
    public operation validates its arguments and then runs one mutation under
    the journal store's lock. *)

From S2P Require Import Prelude Admission ProviderJournal ProviderStore.

Local Open Scope Z_scope.
Local Open Scope go_scope.

(** ** Data *)

Record Allocation := {
  Alloc_InstanceName : string;
  Alloc_ControllerID : string;
  Alloc_PoolID : string;
  Alloc_PoolName : string;
  Alloc_VCPU : Z;
  Alloc_CPUAllowanceUnits : Z;
  Alloc_MemoryMiB : Z;
  Alloc_ImageFingerprint : string;
  Alloc_State : LeaseState;
  Alloc_JobName : string;
  Alloc_Location : string;
}.

Record AdmitRequest := {
  Req_Allocation : Allocation;
  QueueIntentAuthorized : bool;
}.

Record AdmissionResult := {
  Result_Decision : Decision;
  PreemptedWarmWorkers : list string;
}.

Record WarmClaimRequest := {
  WCR_JobName : string;
  WCR_ControllerID : string;
  WCR_PoolID : string;
  WCR_PoolName : string;
  WCR_ImageFingerprint : string;
}.

Record WarmClaimResult := {
  WCRes_InstanceName : string;
  WCRes_State : ClaimState;
  WCRes_Found : bool;
}.

Definition no_claim : WarmClaimResult := {|
  WCRes_InstanceName := ""; WCRes_State := OtherClaimState ""; WCRes_Found := false |}.

Record Controller := {
  ControllerID : string;
  Policy : ReservePolicy;
  LeaseTTL : Duration;
}.

(** ** Argument checks *)

Definition validate_controller (c : Controller) : result unit :=
  fail_if (bool_decide (ControllerID c = "")) (Errorf "controller ID is required" []);;
  fail_if ((LeaseTTL c <? Minute) || (Hour <? LeaseTTL c))
    (Errorf "lease TTL must be between one minute and one hour" []).

Definition validateAllocation (a : Allocation) : result unit :=
  fail_if (bool_decide (Alloc_InstanceName a = "") || bool_decide (Alloc_ControllerID a = "")
           || bool_decide (Alloc_PoolID a = "") || bool_decide (Alloc_PoolName a = ""))
    (Errorf "allocation identity is incomplete" []);;
  fail_if ((Alloc_VCPU a <=? 0) || (Alloc_MemoryMiB a <=? 0) || bool_decide (Alloc_ImageFingerprint a = ""))
    (Errorf "allocation resources or image fingerprint are invalid" []);;
  fail_if ((0 <? Alloc_CPUAllowanceUnits a) && (Alloc_CPUAllowanceUnits a <? Alloc_VCPU a))
    (Errorf "CPU allowance is below measured reservation" []).

Definition validateObserved (c : Controller) (observed : list Allocation) : result (gmap string Allocation) :=
  foldM (λ acc a,
    wrap_err "validate observed instance: %w" (validateAllocation a);;
    fail_if (negb (bool_decide (Alloc_ControllerID a = ControllerID c)))
      (Errorf "foreign instance %q belongs to controller %q" [Alloc_InstanceName a; Alloc_ControllerID a]);;
    fail_if (bool_decide (is_Some (acc !! Alloc_InstanceName a)))
      (Errorf "duplicate observed instance %q" [Alloc_InstanceName a]);;
    Ok (<[Alloc_InstanceName a := a]> acc)) observed ∅.

(** ** Matching *)

Definition effectiveCPUAllowance (allowance reservation : Z) : Z :=
  if 0 <? allowance then allowance else reservation.

Definition leaseMatches (lease : Lease) (a : Allocation) : result unit :=
  let name := Lease_InstanceName lease in
  fail_if (negb (bool_decide (Lease_InstanceName lease = Alloc_InstanceName a)))
    (Errorf "instance name mismatch for lease %q" [name]);;
  fail_if (negb (bool_decide (Lease_ControllerID lease = Alloc_ControllerID a)))
    (Errorf "controller mismatch for lease %q" [name]);;
  fail_if (negb (bool_decide (Lease_PoolID lease = Alloc_PoolID a)))
    (Errorf "pool ID mismatch for lease %q" [name]);;
  fail_if (negb (bool_decide (Lease_PoolName lease = Alloc_PoolName a)))
    (Errorf "pool name mismatch for lease %q" [name]);;
  fail_if (negb (bool_decide (Lease_VCPU lease = Alloc_VCPU a))
           || negb (bool_decide (Lease_MemoryMiB lease = Alloc_MemoryMiB a)))
    (Errorf "resource mismatch for lease %q" [name]);;
  fail_if (negb (bool_decide
             (effectiveCPUAllowance (Lease_CPUAllowanceUnits lease) (Lease_VCPU lease)
              = effectiveCPUAllowance (Alloc_CPUAllowanceUnits a) (Alloc_VCPU a))))
    (Errorf "CPU allowance mismatch for lease %q" [name]);;
  fail_if (negb (bool_decide (Lease_ImageFingerprint lease = Alloc_ImageFingerprint a)))
    (Errorf "image fingerprint mismatch for lease %q" [name]).

Definition leaseMatchesIdentity (lease : Lease) (a : Allocation) : bool :=
  bool_decide (Lease_InstanceName lease = Alloc_InstanceName a) &&
  bool_decide (Lease_ControllerID lease = Alloc_ControllerID a) &&
  bool_decide (Lease_PoolID lease = Alloc_PoolID a) &&
  bool_decide (Lease_PoolName lease = Alloc_PoolName a) &&
  bool_decide (Lease_ImageFingerprint lease = Alloc_ImageFingerprint a).

Definition normalizedObservedState (state : LeaseState) : LeaseState :=
  if bool_decide (state = OtherLeaseState "") then StateCreated else state.

Definition allocationMatchesClaim (a : Allocation) (claim : Claim) : bool :=
  bool_decide (Alloc_JobName a = Claim_JobName claim) &&
  bool_decide (Alloc_InstanceName a = Claim_InstanceName claim) &&
  bool_decide (Alloc_ControllerID a = Claim_ControllerID claim) &&
  bool_decide (Alloc_PoolID a = Claim_PoolID claim) &&
  bool_decide (Alloc_PoolName a = Claim_PoolName claim) &&
  bool_decide (Alloc_ImageFingerprint a = Claim_ImageFingerprint claim).

Definition claimMatches (claim : Claim) (request : WarmClaimRequest) : result unit :=
  let job := Claim_JobName claim in
  fail_if (negb (bool_decide (Claim_JobName claim = WCR_JobName request)))
    (Errorf "job name mismatch for warm claim %q" [job]);;
  fail_if (negb (bool_decide (Claim_ControllerID claim = WCR_ControllerID request)))
    (Errorf "controller mismatch for warm claim %q" [job]);;
  fail_if (negb (bool_decide (Claim_PoolID claim = WCR_PoolID request)))
    (Errorf "pool ID mismatch for warm claim %q" [job]);;
  fail_if (negb (bool_decide (Claim_PoolName claim = WCR_PoolName request)))
    (Errorf "pool name mismatch for warm claim %q" [job]);;
  fail_if (negb (bool_decide (Claim_ImageFingerprint claim = WCR_ImageFingerprint request)))
    (Errorf "image fingerprint mismatch for warm claim %q" [job]).

(** ** Reconciliation with the observed inventory *)

Definition new_lease (a : Allocation) (state : LeaseState) (now : Time) (ttl : Duration) : Lease := {|
  Lease_InstanceName := Alloc_InstanceName a; Lease_ControllerID := Alloc_ControllerID a;
  Lease_PoolID := Alloc_PoolID a; Lease_PoolName := Alloc_PoolName a; Lease_VCPU := Alloc_VCPU a;
  Lease_CPUAllowanceUnits := Alloc_CPUAllowanceUnits a; Lease_MemoryMiB := Alloc_MemoryMiB a;
  Lease_ImageFingerprint := Alloc_ImageFingerprint a; Lease_State := state;
  Lease_PreemptedBy := ""; Lease_AdmittedAt := now; Lease_UpdatedAt := now;
  Lease_ExpiresAt := Add now ttl |}.

Definition lease_set_resources (vcpu allowance memory : Z) (l : Lease) : Lease := {|
  Lease_InstanceName := Lease_InstanceName l; Lease_ControllerID := Lease_ControllerID l;
  Lease_PoolID := Lease_PoolID l; Lease_PoolName := Lease_PoolName l; Lease_VCPU := vcpu;
  Lease_CPUAllowanceUnits := allowance; Lease_MemoryMiB := memory;
  Lease_ImageFingerprint := Lease_ImageFingerprint l; Lease_State := Lease_State l;
  Lease_PreemptedBy := Lease_PreemptedBy l; Lease_AdmittedAt := Lease_AdmittedAt l;
  Lease_UpdatedAt := Lease_UpdatedAt l; Lease_ExpiresAt := Lease_ExpiresAt l |}.
Definition lease_set_pool_id (pool : string) (l : Lease) : Lease := {|
  Lease_InstanceName := Lease_InstanceName l; Lease_ControllerID := Lease_ControllerID l;
  Lease_PoolID := pool; Lease_PoolName := Lease_PoolName l; Lease_VCPU := Lease_VCPU l;
  Lease_CPUAllowanceUnits := Lease_CPUAllowanceUnits l; Lease_MemoryMiB := Lease_MemoryMiB l;
  Lease_ImageFingerprint := Lease_ImageFingerprint l; Lease_State := Lease_State l;
  Lease_PreemptedBy := Lease_PreemptedBy l; Lease_AdmittedAt := Lease_AdmittedAt l;
  Lease_UpdatedAt := Lease_UpdatedAt l; Lease_ExpiresAt := Lease_ExpiresAt l |}.

Definition claims_by_instance (claims : gmap string Claim) : gmap string Claim :=
  list_to_map ((λ kc, (Claim_InstanceName kc.2, kc.2)) <$> map_to_list claims).

(** The lease after comparing it with the observed allocation: unchanged, its
    resources adopted, or its pool adopted from the claim. *)
Definition adopt_observed (claim : option Claim) (lease : Lease) (a : Allocation) : result Lease :=
  match leaseMatches lease a with
  | Ok _ => Ok lease
  | Err e =>
      if leaseMatchesIdentity lease a
      then Ok (lease_set_resources (Alloc_VCPU a) (Alloc_CPUAllowanceUnits a) (Alloc_MemoryMiB a) lease)
      else
        let rebound := match claim with
          | None => false
          | Some claim =>
              allocationMatchesClaim a claim &&
              bool_decide (Lease_InstanceName lease = Alloc_InstanceName a) &&
              bool_decide (Lease_ControllerID lease = Alloc_ControllerID a) &&
              bool_decide (Lease_PoolName lease = Alloc_PoolName a) &&
              bool_decide (Lease_VCPU lease = Alloc_VCPU a) &&
              bool_decide (Lease_MemoryMiB lease = Alloc_MemoryMiB a) &&
              bool_decide (Lease_ImageFingerprint lease = Alloc_ImageFingerprint a)
          end in
        if rebound then Ok (lease_set_pool_id (Alloc_PoolID a) lease)
        else Err (Wrapf "observed instance conflicts with journal: %w" [] e)
  end.

(** The state and preemption reference an observed lease ends up with. *)
Definition observed_state (leases : gmap string Lease) (lease : Lease) (a : Allocation) (now : Time)
    : LeaseState * string :=
  let state := normalizedObservedState (Alloc_State a) in
  let state := if bool_decide (Lease_State lease = StateWarmClaimed) && bool_decide (state = StateWarmReady)
               then StateWarmClaimed else state in
  if bool_decide (Lease_PreemptedBy lease = "") then (state, "")
  else if bool_decide (is_Some (leases !! Lease_PreemptedBy lease)) && Before now (Lease_ExpiresAt lease)
       then ((if bool_decide (Lease_State lease = StateDeleting) then StateDeleting else state),
             Lease_PreemptedBy lease)
       else (state, "").

Record ReconcileState := {
  rs_leases : gmap string Lease;
  rs_claims : gmap string Claim;
  rs_observed : gmap string Allocation;
}.

(** The body of the first loop of [reconcile], for one lease name. *)
Definition reconcile_lease (c : Controller) (by_instance : gmap string Claim) (now : Time)
    (st : ReconcileState) (name : string) : result ReconcileState :=
  match rs_leases st !! name with
  | None => Ok st
  | Some lease =>
      fail_if (negb (bool_decide (Lease_ControllerID lease = ControllerID c)))
        (Errorf "journal lease %q belongs to controller %q" [name; Lease_ControllerID lease]);;
      match rs_observed st !! name with
      | Some a =>
          lease1 ← adopt_observed (by_instance !! name) lease a;
          let '(state, preempted) := observed_state (rs_leases st) lease1 a now in
          let expires := Add now (LeaseTTL c) in
          let lease2 := lease_touch now expires (lease_set_preempted preempted (lease_set_state state lease1)) in
          Ok {| rs_leases := <[name := lease2]> (rs_leases st);
                rs_claims := match by_instance !! name with
                             | Some claim => <[Claim_JobName claim := claim_touch now expires claim]> (rs_claims st)
                             | None => rs_claims st
                             end;
                rs_observed := delete name (rs_observed st) |}
      | None =>
          if negb (bool_decide (Lease_State lease = StateAdmitted)) || negb (Before now (Lease_ExpiresAt lease))
          then Ok {| rs_leases := delete name (rs_leases st);
                     rs_claims := match by_instance !! name with
                                  | Some claim => delete (Claim_JobName claim) (rs_claims st)
                                  | None => rs_claims st
                                  end;
                     rs_observed := rs_observed st |}
          else Ok st
      end
  end.

(** The body of the second loop: leases whose preemption target is gone are
    given back when observed, dropped otherwise. *)
Definition repair_preemption (states : gmap string LeaseState) (now : Time) (ttl : Duration)
    (leases : gmap string Lease) (name : string) : gmap string Lease :=
  match leases !! name with
  | None => leases
  | Some lease =>
      if bool_decide (Lease_PreemptedBy lease = "") then leases
      else if bool_decide (is_Some (leases !! Lease_PreemptedBy lease)) then leases
      else match states !! name with
           | None => delete name leases
           | Some state =>
               <[name := lease_touch now (Add now ttl) (lease_set_preempted "" (lease_set_state state lease))]> leases
           end
  end.

Definition reconcile (c : Controller) (observed : gmap string Allocation) (now : Time) (j : Journal)
    : result Journal :=
  let states := (λ a, normalizedObservedState (Alloc_State a)) <$> observed in
  let by_instance := claims_by_instance (Claims j) in
  st ← foldM (reconcile_lease c by_instance now) (sorted_keys (Leases j))
         {| rs_leases := Leases j; rs_claims := Claims j; rs_observed := observed |};
  let leases := foldl (repair_preemption states now (LeaseTTL c)) (rs_leases st) (map_to_list (rs_leases st)).*1 in
  let adopted := (λ a, new_lease a (normalizedObservedState (Alloc_State a)) now (LeaseTTL c)) <$> rs_observed st in
  Ok (with_claims (rs_claims st) (with_leases (adopted ∪ leases) j)).

(** ** Capacity accounting *)

Definition exclusionSet (names : list string) : gset string :=
  list_to_set (filter (λ n, n ≠ "") names).

Definition host_with_allocated (host : HostSnapshot) (cpu allowance memory : Z) : HostSnapshot := {|
  Healthy := Healthy host; TotalCPUUnits := TotalCPUUnits host; TotalMemoryMiB := TotalMemoryMiB host;
  AvailableMemoryMiB := AvailableMemoryMiB host; AllocatedCPUUnits := cpu;
  AllocatedCPUAllowanceUnits := allowance; AllocatedMemoryMiB := memory;
  FreeDiskPercent := FreeDiskPercent host; PressureAvailable := PressureAvailable host;
  CPUSomeAvg10 := CPUSomeAvg10 host; MemoryFullAvg10 := MemoryFullAvg10 host;
  IOFullAvg10 := IOFullAvg10 host; RecentOOMKills := RecentOOMKills host |}.
Definition host_with_available (host : HostSnapshot) (available : Z) : HostSnapshot := {|
  Healthy := Healthy host; TotalCPUUnits := TotalCPUUnits host; TotalMemoryMiB := TotalMemoryMiB host;
  AvailableMemoryMiB := available; AllocatedCPUUnits := AllocatedCPUUnits host;
  AllocatedCPUAllowanceUnits := AllocatedCPUAllowanceUnits host;
  AllocatedMemoryMiB := AllocatedMemoryMiB host;
  FreeDiskPercent := FreeDiskPercent host; PressureAvailable := PressureAvailable host;
  CPUSomeAvg10 := CPUSomeAvg10 host; MemoryFullAvg10 := MemoryFullAvg10 host;
  IOFullAvg10 := IOFullAvg10 host; RecentOOMKills := RecentOOMKills host |}.

(** The running totals of the accounting loop, over the leases not excluded. *)
Definition charged (leases : gmap string Lease) (excluded : gset string) : list Lease :=
  (filter (λ kl, kl.1 ∉ excluded) (map_to_list leases)).*2.

Definition sum_int (f : Lease → Z) (ls : list Lease) : Z := foldl (λ acc l, acc ⊕ f l) 0 ls.

Definition lease_allowance (l : Lease) : Z :=
  effectiveCPUAllowance (Lease_CPUAllowanceUnits l) (Lease_VCPU l).

Definition withAllocatedLeasesExcluding (host : HostSnapshot) (leases : gmap string Lease)
    (excluded : gset string) : HostSnapshot :=
  let ls := charged leases excluded in
  host_with_allocated host (sum_int Lease_VCPU ls) (sum_int lease_allowance ls) (sum_int Lease_MemoryMiB ls).

Definition withAllocatedLeases (host : HostSnapshot) (leases : gmap string Lease) (exclude : string) : HostSnapshot :=
  withAllocatedLeasesExcluding host leases (exclusionSet [exclude]).

(** The zero value a Go map read yields for an absent lease name. *)
Definition lease_memory (leases : gmap string Lease) (name : string) : Z :=
  from_option Lease_MemoryMiB 0 (leases !! name).

Definition preemptionsFor (leases : gmap string Lease) (requestName : string) : list string :=
  sort_strings ((filter (λ kl, Lease_PreemptedBy kl.2 = requestName) (map_to_list leases)).*1).

Definition projectedAvailableMemory (host : HostSnapshot) (leases : gmap string Lease)
    (preemptions : list string) : Z :=
  let available := foldl (λ acc name, acc ⊕ lease_memory leases name) (AvailableMemoryMiB host) preemptions in
  if TotalMemoryMiB host <? available then TotalMemoryMiB host else available.

Definition leasesMemoryMiB (leases : gmap string Lease) (names : list string) : Z :=
  foldl (λ acc name, acc ⊕ lease_memory leases name) 0 names.

Definition preemptibleReason (reason : Reason) : bool :=
  bool_decide (reason = ReasonInsufficientCPU) || bool_decide (reason = ReasonInsufficientMemory).

Definition admission_request (a : Allocation) : Request := {|
  PoolName := Alloc_PoolName a; VCPU := Alloc_VCPU a;
  CPUAllowanceUnits := Alloc_CPUAllowanceUnits a; MemoryMiB := Alloc_MemoryMiB a |}.

(** The host as it would be with [victims] gone. *)
Definition projected_host (host : HostSnapshot) (leases : gmap string Lease) (victims : list string) : HostSnapshot :=
  host_with_available (withAllocatedLeasesExcluding host leases (exclusionSet victims))
    (projectedAvailableMemory host leases victims).

(** ** Choosing warm victims *)

Definition preemptible (claimed : gset string) (request : AdmitRequest) (allowSamePool : bool) (lease : Lease) : bool :=
  negb (bool_decide (Lease_InstanceName lease ∈ claimed)) &&
  negb (negb (bool_decide (Lease_State lease = StateWarmReady)
              || (QueueIntentAuthorized request && bool_decide (Lease_State lease = StateCreated)))
        || negb (bool_decide (Lease_PreemptedBy lease = ""))
        || negb (warm_pool (Lease_PoolID lease))
        || (negb allowSamePool && bool_decide (Lease_PoolName lease = Alloc_PoolName (Req_Allocation request)))).

Definition victim_less (left right : Lease) : bool :=
  if negb (bool_decide (Lease_VCPU left = Lease_VCPU right)) then Lease_VCPU right <? Lease_VCPU left
  else if negb (bool_decide (Lease_MemoryMiB left = Lease_MemoryMiB right))
       then Lease_MemoryMiB right <? Lease_MemoryMiB left
  else if negb (bool_decide (Lease_AdmittedAt left = Lease_AdmittedAt right))
       then Before (Lease_AdmittedAt left) (Lease_AdmittedAt right)
  else string_ltb (Lease_InstanceName left) (Lease_InstanceName right).

Definition victim_candidates (j : Journal) (request : AdmitRequest) (allowSamePool : bool) : list Lease :=
  sort_slice victim_less
    (filter (λ l, preemptible (claimed_instances (Claims j)) request allowSamePool l = true)
       (map_to_list (Leases j)).*2).

Definition location_of (locations : gmap string string) (lease : Lease) : string :=
  let location := default "" (locations !! Lease_InstanceName lease) in
  if bool_decide (location = "") then String "000" (Lease_InstanceName lease) else location.

(** The locations of the candidates, in order of first appearance. *)
Fixpoint location_order (locations : gmap string string) (seen : list string) (candidates : list Lease) : list string :=
  match candidates with
  | [] => []
  | l :: ls =>
      let loc := location_of locations l in
      if bool_decide (loc ∈ seen) then location_order locations seen ls
      else loc :: location_order locations (loc :: seen) ls
  end.

Definition location_group (locations : gmap string string) (candidates : list Lease) (loc : string) : list Lease :=
  filter (λ l, location_of locations l = loc) candidates.

(** The inner loop: names taken until their memory covers the demand. The
    boolean says whether it was covered. *)
Fixpoint take_until (minFreed : Z) (selected : list string) (memory : Z) (group : list Lease)
    : list string * Z * bool :=
  match group with
  | [] => (selected, memory, false)
  | warm :: group =>
      let selected := selected ++ [Lease_InstanceName warm] in
      let memory := memory ⊕ Lease_MemoryMiB warm in
      if minFreed <=? memory then (selected, memory, true)
      else take_until minFreed selected memory group
  end.

Record PlacementScan := {
  covering : list (list string);
  bestPartial : list string;
  bestPartialMemory : Z;
  bestPartialLocation : string;
  considered : nat;
}.

Definition scan_location (locations : gmap string string) (prefer : gset string) (restricted : bool)
    (candidates : list Lease) (minFreed : Z) (scan : PlacementScan) (loc : string) : PlacementScan :=
  if restricted && bool_decide (loc ∉ prefer) then scan
  else
    let '(selected, memory, covered) := take_until minFreed [] 0 (location_group locations candidates loc) in
    let better := (memory <? minFreed) &&
      ((bestPartialMemory scan <? memory)
       || (bool_decide (memory = bestPartialMemory scan) && string_ltb loc (bestPartialLocation scan))) in
    {| covering := if covered then covering scan ++ [selected] else covering scan;
       bestPartial := if better then selected else bestPartial scan;
       bestPartialMemory := if better then memory else bestPartialMemory scan;
       bestPartialLocation := if better then loc else bestPartialLocation scan;
       considered := S (considered scan) |}.

Definition leaseMemoryByName (leases : list Lease) (name : string) : Z :=
  match list_find (λ l, Lease_InstanceName l = name) leases with
  | Some (_, l) => Lease_MemoryMiB l
  | None => 0
  end.

Definition names_memory (candidates : list Lease) (names : list string) : Z :=
  foldl (λ acc name, acc ⊕ leaseMemoryByName candidates name) 0 names.

Definition covering_less (candidates : list Lease) (left right : list string) : bool :=
  if negb (bool_decide (length left = length right)) then (length left <? length right)%nat
  else if negb (bool_decide (names_memory candidates left = names_memory candidates right))
       then names_memory candidates left <? names_memory candidates right
  else string_ltb (default "" (head left)) (default "" (head right)).

(** One pass of [selectPlacementWarmVictims]. [None] asks for the unrestricted
    pass: the preferred locations hold no candidate, or cannot cover. *)
Definition select_pass (candidates : list Lease) (minFreed : Z) (locations : gmap string string)
    (prefer : gset string) : option (list string) :=
  let restricted := negb (bool_decide (prefer = ∅)) in
  let scan := foldl (scan_location locations prefer restricted candidates minFreed)
    {| covering := []; bestPartial := []; bestPartialMemory := -1; bestPartialLocation := "";
       considered := 0 |} (location_order locations [] candidates) in
  if restricted && bool_decide (considered scan = 0%nat) then None
  else match sort_slice (covering_less candidates) (covering scan) with
       | best :: _ => Some best
       | [] => if restricted then None else Some (bestPartial scan)
       end.

Definition selectPlacementWarmVictims (candidates : list Lease) (minFreed : Z)
    (locations : gmap string string) (prefer : gset string) : list string :=
  if (minFreed <=? 0) || bool_decide (candidates = []) then []
  else match select_pass candidates minFreed locations prefer with
       | Some names => names
       | None => default [] (select_pass candidates minFreed locations ∅)
       end.

(** The loop that grows the victim set until the request is admitted. *)
Fixpoint grow_victims (host : HostSnapshot) (policy : ReservePolicy) (leases : gmap string Lease)
    (request : Request) (decision : Decision) (selected : list string) (candidates : list Lease)
    : result (Decision * list string) :=
  match candidates with
  | [] => Ok (decision, [])
  | candidate :: candidates =>
      let selected := selected ++ [Lease_InstanceName candidate] in
      decision ← Evaluate (projected_host host leases selected) policy request;
      if Decision_Admitted decision then Ok (decision, selected)
      else grow_victims host policy leases request decision selected candidates
  end.

Definition force_admitted (d : Decision) : Decision :=
  if Decision_Admitted d then d else {|
    Decision_Admitted := true; DecisionReason := ReasonAdmitted; Pool := Pool d;
    RequiredCPUReserve := RequiredCPUReserve d; RequiredMemoryReserve := RequiredMemoryReserve d;
    RemainingCPUUnits := RemainingCPUUnits d;
    RemainingCPUAllowanceUnits := RemainingCPUAllowanceUnits d;
    RemainingMemoryMiB := RemainingMemoryMiB d; RemainingAvailableMiB := RemainingAvailableMiB d |}.

Definition planWarmPreemption (c : Controller) (host : HostSnapshot) (j : Journal) (request : AdmitRequest)
    (allowSamePool : bool) (minFreed : Z) (locations : gmap string string) (prefer : gset string)
    : result (Decision * list string) :=
  let req := admission_request (Req_Allocation request) in
  decision ← Evaluate (withAllocatedLeases host (Leases j) "") (Policy c) req;
  let candidates := victim_candidates j request allowSamePool in
  if 0 <? minFreed then
    match selectPlacementWarmVictims candidates minFreed locations prefer with
    | [] => Ok (decision, [])
    | selected =>
        decision ← Evaluate (projected_host host (Leases j) selected) (Policy c) req;
        Ok (force_admitted decision, selected)
    end
  else grow_victims host (Policy c) (Leases j) req decision [] candidates.

(** ** Mutations *)

Definition renew (c : Controller) (now : Time) (l : Lease) : Lease := lease_touch now (Add now (LeaseTTL c)) l.

(** [v := Leases[name]; ...; Leases[name] = v]: reading an absent name of a Go map
    yields the zero value, and the write then creates the entry. *)
Definition zero_Lease : Lease := {|
  Lease_InstanceName := ""; Lease_ControllerID := ""; Lease_PoolID := ""; Lease_PoolName := "";
  Lease_VCPU := 0; Lease_CPUAllowanceUnits := 0; Lease_MemoryMiB := 0; Lease_ImageFingerprint := "";
  Lease_State := OtherLeaseState ""; Lease_PreemptedBy := ""; Lease_AdmittedAt := zero_time;
  Lease_UpdatedAt := zero_time; Lease_ExpiresAt := zero_time |}.

Definition write_lease (f : Lease → Lease) (name : string) (leases : gmap string Lease) : gmap string Lease :=
  <[name := f (default zero_Lease (leases !! name))]> leases.

Definition update_leases (f : Lease → Lease) (names : list string) (leases : gmap string Lease) : gmap string Lease :=
  foldl (λ ls name, write_lease f name ls) leases names.

Definition mark_victims (c : Controller) (now : Time) (target : string) (names : list string)
    (leases : gmap string Lease) : gmap string Lease :=
  update_leases (λ l, renew c now (lease_set_preempted target l)) names leases.

(** The counter is checked before it is advanced. *)
Definition count_preemptions (names : list string) (j : Journal) : result Journal :=
  let increment := Z.of_nat (length names) in
  fail_if (max_uint64 - WarmPreemptionsTotal j <? increment) (Errorf "warm preemption counter overflow" []);;
  Ok (with_preemptions (WarmPreemptionsTotal j + increment) j).

(** The closure of [admit]. *)
Definition admit_mutation (c : Controller) (host : HostSnapshot) (observed : gmap string Allocation)
    (request : AdmitRequest) (allowWarmPreemption : bool) (now : Time) (j : Journal)
    : result (Journal * AdmissionResult) :=
  let a := Req_Allocation request in
  let name := Alloc_InstanceName a in
  let req := admission_request a in
  j ← reconcile c observed now j;
  match Leases j !! name with
  | Some existing =>
      leaseMatches existing a;;
      let preemptions := preemptionsFor (Leases j) name in
      let host' := host_with_available
        (withAllocatedLeasesExcluding host (Leases j) (exclusionSet (name :: preemptions)))
        (projectedAvailableMemory host (Leases j) preemptions) in
      decision ← Evaluate host' (Policy c) req;
      let res := {| Result_Decision := decision; PreemptedWarmWorkers := preemptions |} in
      if negb (Decision_Admitted decision) && bool_decide (preemptions = []) then Ok (j, res)
      else
        let leases := <[name := renew c now existing]> (Leases j) in
        Ok (with_leases (update_leases (renew c now) preemptions leases) j, res)
  | None =>
      decision ← Evaluate (withAllocatedLeases host (Leases j) "") (Policy c) req;
      '(decision, victims) ←
        (if negb (Decision_Admitted decision) && allowWarmPreemption && preemptibleReason (DecisionReason decision)
         then planWarmPreemption c host j request false 0 ∅ ∅
         else Ok (decision, []));
      let res := {| Result_Decision := decision; PreemptedWarmWorkers := victims |} in
      if negb (Decision_Admitted decision) then Ok (j, res)
      else
        let leases := <[name := new_lease a StateAdmitted now (LeaseTTL c)]> (Leases j) in
        j' ← count_preemptions victims (with_leases (mark_victims c now name victims leases) j);
        Ok (j', res)
  end.

Definition observedLocations (observed : list Allocation) : gmap string string :=
  foldl (λ m a, if bool_decide (Alloc_InstanceName a = "") || bool_decide (Alloc_Location a = "") then m
                else <[Alloc_InstanceName a := Alloc_Location a]> m) ∅ observed.

Definition locationsOf (names : list string) (locations : gmap string string) : gset string :=
  list_to_set (filter (λ l, l ≠ "") ((λ n, default "" (locations !! n)) <$> names)).

Definition placement_decision (admitted : bool) (pool : string) : Decision := {|
  Decision_Admitted := admitted; DecisionReason := if admitted then ReasonAdmitted else ReasonPlacementRefused;
  Pool := pool; RequiredCPUReserve := 0; RequiredMemoryReserve := 0; RemainingCPUUnits := 0;
  RemainingCPUAllowanceUnits := 0; RemainingMemoryMiB := 0; RemainingAvailableMiB := 0 |}.

(** The closure of [PreemptForPlacement]. *)
Definition placement_mutation (c : Controller) (host : HostSnapshot) (observed_list : list Allocation)
    (observed : gmap string Allocation) (request : AdmitRequest) (now : Time) (j : Journal)
    : result (Journal * AdmissionResult) :=
  let a := Req_Allocation request in
  let name := Alloc_InstanceName a in
  j ← reconcile c observed now j;
  match Leases j !! name with
  | None => Err (Errorf "placement preemption requires an admitted lease for %q" [name])
  | Some existing =>
      leaseMatches existing a;;
      let already := preemptionsFor (Leases j) name in
      let locations := observedLocations observed_list in
      let alreadyMemory := leasesMemoryMiB (Leases j) already in
      if negb (bool_decide (already = [])) && (Alloc_MemoryMiB a <=? alreadyMemory) then
        Ok (with_leases (<[name := renew c now existing]> (Leases j)) j,
            {| Result_Decision := placement_decision true (Alloc_PoolName a);
               PreemptedWarmWorkers := already |})
      else
        let remaining := Alloc_MemoryMiB a ⊖ alreadyMemory in
        let remaining := if remaining <? 1 then Alloc_MemoryMiB a else remaining in
        '(decision, selected) ←
          planWarmPreemption c host j request true remaining locations (locationsOf already locations);
        if bool_decide (already = []) && bool_decide (selected = []) then
          Ok (j, {| Result_Decision := placement_decision false (Alloc_PoolName a);
                    PreemptedWarmWorkers := [] |})
        else
          let leases := <[name := renew c now existing]> (Leases j) in
          let j := with_leases (mark_victims c now name selected leases) j in
          j' ← (if bool_decide (selected = []) then Ok j else count_preemptions selected j);
          Ok (j', {| Result_Decision := force_admitted decision;
                     PreemptedWarmWorkers := already ++ selected |})
  end.

Definition claimable (request : WarmClaimRequest) (l : Lease) : bool :=
  bool_decide (Lease_State l = StateWarmReady) && bool_decide (Lease_PreemptedBy l = "") &&
  bool_decide (Lease_ControllerID l = WCR_ControllerID request) &&
  bool_decide (Lease_PoolName l = WCR_PoolName request) &&
  bool_decide (Lease_ImageFingerprint l = WCR_ImageFingerprint request).

Definition new_claim (request : WarmClaimRequest) (instance : string) (now : Time) (ttl : Duration) : Claim := {|
  Claim_JobName := WCR_JobName request; Claim_InstanceName := instance;
  Claim_ControllerID := WCR_ControllerID request; Claim_PoolID := WCR_PoolID request;
  Claim_PoolName := WCR_PoolName request; Claim_ImageFingerprint := WCR_ImageFingerprint request;
  Claim_State := ClaimReserved; Claim_ReservedAt := now; Claim_UpdatedAt := now;
  Claim_ExpiresAt := Add now ttl |}.

(** The closure of [ClaimWarm]. *)
Definition claim_mutation (c : Controller) (observed : gmap string Allocation) (request : WarmClaimRequest)
    (now : Time) (j : Journal) : result (Journal * WarmClaimResult) :=
  j ← reconcile c observed now j;
  let expires := Add now (LeaseTTL c) in
  match Claims j !! WCR_JobName request with
  | Some existing =>
      claimMatches existing request;;
      Ok (with_claims (<[WCR_JobName request := claim_touch now expires existing]> (Claims j))
            (with_leases (write_lease (renew c now) (Claim_InstanceName existing) (Leases j)) j),
          {| WCRes_InstanceName := Claim_InstanceName existing; WCRes_State := Claim_State existing;
             WCRes_Found := true |})
  | None =>
      match sort_strings ((filter (λ kl, claimable request kl.2 = true) (map_to_list (Leases j))).*1) with
      | [] => Ok (j, no_claim)
      | instance :: _ =>
          let claim := new_claim request instance now (LeaseTTL c) in
          Ok (with_claims (<[WCR_JobName request := claim]> (Claims j))
                (with_leases (write_lease (λ l, renew c now (lease_set_state StateWarmClaimed l)) instance (Leases j)) j),
              {| WCRes_InstanceName := instance; WCRes_State := ClaimReserved; WCRes_Found := true |})
      end
  end.

(** The closure of [MarkWarmInjected]. *)
Definition injected_mutation (c : Controller) (jobName instanceName : string) (now : Time) (j : Journal)
    : result (Journal * unit) :=
  match Claims j !! jobName with
  | Some claim =>
      fail_if (negb (bool_decide (Claim_InstanceName claim = instanceName))
               || negb (bool_decide (Claim_ControllerID claim = ControllerID c)))
        (Errorf "warm claim %q does not own instance %q" [jobName; instanceName]);;
      Ok (with_claims
            (<[jobName := claim_touch now (Add now (LeaseTTL c)) (claim_set_state ClaimInjected claim)]> (Claims j))
            (with_leases (write_lease (renew c now) instanceName (Leases j)) j), tt)
  | None => Err (Errorf "warm claim %q does not own instance %q" [jobName; instanceName])
  end.

(** The closure of [AuthorizeWarmDrain], which only checks. *)
Definition drain_check (c : Controller) (instanceName : string) (j : Journal) : result (Journal * unit) :=
  fail_if (negb (bool_decide (Claims j = ∅))) (Errorf "warm drain requires zero claims, found %d" []);;
  match Leases j !! instanceName with
  | None => Err (Errorf "warm drain lease %q does not exist" [instanceName])
  | Some lease =>
      fail_if (negb (bool_decide (Lease_ControllerID lease = ControllerID c)))
        (Errorf "warm drain lease %q belongs to controller %q" [instanceName]);;
      fail_if (negb (bool_decide (Lease_State lease = StateWarmReady)))
        (Errorf "warm drain lease %q has state %q" [instanceName]);;
      fail_if (negb (bool_decide (Lease_PreemptedBy lease = "")))
        (Errorf "warm drain lease %q is reserved by preemption target %q" [instanceName]);;
      Ok (j, tt)
  end.

(** Giving a victim of [target] back: only its reference is dropped once its
    teardown has begun, otherwise its lease is also renewed. [clock] is the
    reading taken when the named victim is handled. *)
Definition give_back (c : Controller) (clock : string → Time) (target name : string) (l : Lease) : Lease :=
  if bool_decide (Lease_PreemptedBy l = target) then
    let l := lease_set_preempted "" l in
    if bool_decide (Lease_State l = StateDeleting) then l else renew c (clock name) l
  else l.

(** The closure of [Release]. *)
Definition release_mutation (c : Controller) (clock : string → Time) (identifier : string) (j : Journal)
    : result (Journal * unit) :=
  let instanceName := match Claims j !! identifier with
                      | Some claim => Claim_InstanceName claim
                      | None => identifier
                      end in
  match Leases j !! instanceName with
  | None => Ok (j, tt)
  | Some lease =>
      fail_if (negb (bool_decide (Lease_ControllerID lease = ControllerID c)))
        (Errorf "lease %q belongs to controller %q" [instanceName; Lease_ControllerID lease]);;
      Ok (with_claims (filter (λ kc, Claim_InstanceName kc.2 ≠ instanceName) (Claims j))
            (with_leases (delete instanceName (map_imap (λ name l, Some (give_back c clock instanceName name l)) (Leases j))) j),
          tt)
  end.

(** The closure of [transition]. *)
Definition transition_mutation (c : Controller) (instanceName : string) (state : LeaseState)
    (requireExisting : bool) (now : Time) (j : Journal) : result (Journal * unit) :=
  match Leases j !! instanceName with
  | None =>
      if requireExisting then Err (Errorf "lease %q does not exist" [instanceName]) else Ok (j, tt)
  | Some lease =>
      fail_if (negb (bool_decide (Lease_ControllerID lease = ControllerID c)))
        (Errorf "lease %q belongs to controller %q" [instanceName; Lease_ControllerID lease]);;
      Ok (with_leases (<[instanceName := renew c now (lease_set_state state lease)]> (Leases j)) j, tt)
  end.

(** ** Public operations *)

Section operations.
Context (encoded_size : Journal → Z).

(** Argument checks, then one locked update. *)
Definition locked {P R} (env : Env) (disk : Disk) (checks : result P)
    (mutate : P → Journal → result (Journal * R)) : Disk * result R :=
  match checks with
  | Err e => (disk, Err e)
  | Ok p =>
      let '(disk', res) := Update encoded_size env disk (mutate p) in
      (disk', '(_, r) ← res; Ok r)
  end.

Definition Reconcile (c : Controller) (env : Env) (observed : list Allocation) (now : Time) (disk : Disk)
    : Disk * result unit :=
  locked env disk (validate_controller c;; validateObserved c observed)
    (λ obs j, j' ← reconcile c obs now j; Ok (j', tt)).

Definition request_checks (c : Controller) (observed : list Allocation) (request : AdmitRequest)
    (allowWarmPreemption : bool) : result (gmap string Allocation) :=
  let a := Req_Allocation request in
  validate_controller c;;
  wrap_err "validate request: %w" (validateAllocation a);;
  fail_if (negb (bool_decide (Alloc_ControllerID a = ControllerID c)))
    (Errorf "request controller ID does not match admission controller" []);;
  fail_if (allowWarmPreemption && warm_pool (Alloc_PoolID a))
    (Errorf "warm capacity cannot request warm preemption" []);;
  validateObserved c observed.

Definition admit_with (c : Controller) (env : Env) (host : HostSnapshot) (observed : list Allocation)
    (request : AdmitRequest) (allowWarmPreemption : bool) (now : Time) (disk : Disk)
    : Disk * result AdmissionResult :=
  locked env disk (request_checks c observed request allowWarmPreemption)
    (λ obs, admit_mutation c host obs request allowWarmPreemption now).

Definition Admit c env host observed request now disk : Disk * result Decision :=
  let '(disk', res) := admit_with c env host observed request false now disk in
  (disk', r ← res; Ok (Result_Decision r)).

Definition AdmitPreemptible c env host observed request now disk : Disk * result AdmissionResult :=
  admit_with c env host observed request true now disk.

Definition PreemptForPlacement (c : Controller) (env : Env) (host : HostSnapshot) (observed : list Allocation)
    (request : AdmitRequest) (now : Time) (disk : Disk) : Disk * result AdmissionResult :=
  locked env disk (request_checks c observed request false)
    (λ obs, placement_mutation c host observed obs request now).

Definition ClaimWarm (c : Controller) (env : Env) (observed : list Allocation) (request : WarmClaimRequest)
    (now : Time) (disk : Disk) : Disk * result WarmClaimResult :=
  locked env disk
    (validate_controller c;;
     fail_if (bool_decide (WCR_JobName request = "") || bool_decide (WCR_ControllerID request = "")
              || bool_decide (WCR_PoolID request = "") || bool_decide (WCR_PoolName request = "")
              || bool_decide (WCR_ImageFingerprint request = ""))
       (Errorf "warm claim identity is incomplete" []);;
     fail_if (negb (bool_decide (WCR_ControllerID request = ControllerID c)))
       (Errorf "warm claim controller ID does not match admission controller" []);;
     validateObserved c observed)
    (λ obs, claim_mutation c obs request now).

Definition MarkWarmInjected (c : Controller) (env : Env) (jobName instanceName : string) (now : Time)
    (disk : Disk) : Disk * result unit :=
  locked env disk (validate_controller c) (λ _, injected_mutation c jobName instanceName now).

Definition Resolve (c : Controller) (env : Env) (identifier : string) (disk : Disk) : result string :=
  validate_controller c;;
  j ← Read env disk;
  if bool_decide (is_Some (Leases j !! identifier)) then Ok identifier
  else match Claims j !! identifier with
       | Some claim =>
           if bool_decide (Claim_ControllerID claim = ControllerID c) then Ok (Claim_InstanceName claim)
           else Ok identifier
       | None => Ok identifier
       end.

Definition AuthorizeWarmDrain (c : Controller) (env : Env) (instanceName : string) (disk : Disk)
    : Disk * result unit :=
  locked env disk
    (validate_controller c;;
     fail_if (bool_decide (instanceName = "")) (Errorf "warm drain instance name is required" []))
    (λ _, drain_check c instanceName).

Definition transition (c : Controller) (env : Env) (instanceName : string) (state : LeaseState)
    (requireExisting : bool) (now : Time) (disk : Disk) : Disk * result unit :=
  locked env disk
    (validate_controller c;;
     fail_if (bool_decide (instanceName = "")) (Errorf "instance name is required" []))
    (λ _, transition_mutation c instanceName state requireExisting now).

Definition MarkCreated c env instanceName now disk := transition c env instanceName StateCreated true now disk.
Definition MarkDeleting c env instanceName now disk := transition c env instanceName StateDeleting false now disk.

Definition Release (c : Controller) (env : Env) (clock : string → Time) (instanceName : string) (disk : Disk)
    : Disk * result unit :=
  locked env disk (validate_controller c) (λ _, release_mutation c clock instanceName).

End operations.
