(* ===== verification/ProviderReleaseFacts.v ===== *)
(** * Provider admission: state changes that cannot fail validation

    [Release], [MarkCreated], [MarkDeleting], [MarkWarmInjected] and
    [AuthorizeWarmDrain] on a well-formed journal: what they change, and that
    the store's validation never rejects what they produce. *)

From S2P Require Import Prelude Admission ProviderJournal ProviderStore ProviderAdmission.

Local Open Scope Z_scope.

(** ** Renewal *)

(** An instant that a lease may carry: neither it nor its expiry is the zero time. *)
Definition live_instant (c : Controller) (t : Time) : Prop := 0 < t ∧ 0 ≤ LeaseTTL c.

Lemma controller_ttl c : validate_controller c = Ok tt → Minute ≤ LeaseTTL c ≤ Hour.
Proof. unfold validate_controller. intros H. inv_ok. bool_hyps. lia. Qed.

Lemma renew_wf c t key l : live_instant c t → lease_wf key l → lease_wf key (renew c t l).
Proof.
  unfold live_instant, renew, lease_touch, Add. intros [? ?] [].
  constructor; simpl; try done; unfold zero_time; lia.
Qed.

Lemma set_state_wf key s l :
  preemptible_state s = true → lease_wf key l → lease_wf key (lease_set_state s l).
Proof.
  intros Hs []. constructor; simpl; try done; [by destruct s|]. naive_solver.
Qed.

Lemma clear_preempted_wf key l : lease_wf key l → lease_wf key (lease_set_preempted "" l).
Proof. intros []. by constructor. Qed.

#[export] Hint Resolve renew_wf set_state_wf clear_preempted_wf : go.

(** ** Transitions *)

Lemma claim_bound_state c l s :
  s = StateWarmClaimed ∨ s = StateCreated ∨ s = StateDeleting →
  claim_bound c l → claim_bound c (lease_set_state s l).
Proof. intros Hs []. by constructor. Qed.

Lemma claim_bound_renew ctl t c l : claim_bound c l → claim_bound c (renew ctl t l).
Proof. intros []. by constructor. Qed.

Lemma claim_wf_mono ls1 ls2 key c :
  (∀ l1, ls1 !! Claim_InstanceName c = Some l1 → claim_bound c l1 →
     ∃ l2, ls2 !! Claim_InstanceName c = Some l2 ∧ claim_bound c l2) →
  claim_wf ls1 key c → claim_wf ls2 key c.
Proof. intros H []. constructor; try done. destruct cw_lease as (l & ? & ?). by eapply H. Qed.

(** Replacing one lease by a well-formed variant of itself that keeps its pool,
    its preemption reference and every claim's binding. *)
Lemma replace_lease_wf j name l l' :
  journal_wf j → Leases j !! name = Some l → lease_wf name l' →
  Lease_PoolID l' = Lease_PoolID l → Lease_PreemptedBy l' = Lease_PreemptedBy l →
  (∀ c, claim_bound c l → claim_bound c l') →
  journal_wf (with_leases (<[name := l']> (Leases j)) j).
Proof.
  intros [Hs Hl Hc He Ht] Hn Hl' Hpool Hpre Hb. constructor; simpl; try done.
  - by apply map_Forall_insert_2.
  - intros k c Hk. specialize (Hc k c Hk). revert Hc. apply claim_wf_mono. intros l1 Hl1 Hb1.
    destruct (decide (name = Claim_InstanceName c)) as [Heq|Hne].
    + rewrite <- Heq in *. rewrite lookup_insert_eq. simplify_eq. eauto.
    + rewrite lookup_insert_ne by done. eauto.
  - assert (∀ k x, Leases j !! k = Some x → target_ok (<[name := l']> (Leases j)) x) as Hmono.
    { intros k x Hk Hx. destruct (Ht k x Hk Hx) as (t & Ht1 & Ht2 & Ht3).
      destruct (decide (name = Lease_PreemptedBy x)) as [Heq|Hne].
      - rewrite <- Heq in *. rewrite lookup_insert_eq. simplify_eq. exists l'. by rewrite Hpool, Hpre.
      - rewrite lookup_insert_ne by done. eauto. }
    intros k x [[<- <-]|[Hne Hk]]%lookup_insert_Some; [|by eapply Hmono].
    intros Hx. rewrite Hpre in *. by apply (Hmono name l Hn).
Qed.

(** [MarkCreated] and [MarkDeleting] change one lease's state and renewal and
    nothing else, and what they write is always a valid journal; marking an
    unknown instance created is refused, so no lease is manufactured without
    admission, and a foreign controller's lease is refused. *)
Theorem transition_safe c name state required now j :
  journal_wf j → live_instant c now → state = StateCreated ∨ state = StateDeleting →
  match transition_mutation c name state required now j with
  | Ok (j', _) =>
      journal_wf j' ∧ Claims j' = Claims j ∧
      (∀ k, k ≠ name → Leases j' !! k = Leases j !! k) ∧
      match Leases j !! name with
      | None => required = false ∧ j' = j
      | Some l => Lease_ControllerID l = ControllerID c ∧
                  Leases j' !! name = Some (renew c now (lease_set_state state l))
      end
  | Err _ =>
      (Leases j !! name = None ∧ required = true) ∨
      ∃ l, Leases j !! name = Some l ∧ Lease_ControllerID l ≠ ControllerID c
  end.
Proof.
  intros Hj Hnow Hs. unfold transition_mutation. destruct (Leases j !! name) as [l|] eqn:Hl.
  - case_bool_decide as Hc; simpl; [|right; eauto]. rewrite lookup_insert_eq. split_and!; try done.
    + apply replace_lease_wf with l; try done.
      * apply renew_wf, set_state_wf; [done|by destruct Hs as [->| ->]|by apply (jw_leases j Hj)].
      * intros cl Hcl. apply claim_bound_renew, claim_bound_state; [naive_solver|done].
    + intros k Hk. by rewrite lookup_insert_ne.
  - destruct required; [by left|done].
Qed.

(** ** Release *)

Lemma give_back_lookup c clock target (ls : gmap string Lease) k :
  map_imap (λ name l, Some (give_back c clock target name l)) ls !! k =
  give_back c clock target k <$> ls !! k.
Proof. rewrite map_lookup_imap. by destruct (ls !! k). Qed.

Lemma give_back_other c clock target k l :
  Lease_PreemptedBy l ≠ target → give_back c clock target k l = l.
Proof. intros. unfold give_back. by rewrite bool_decide_eq_false_2. Qed.

Lemma give_back_victim c clock target k l :
  Lease_PreemptedBy l = target →
  Lease_PreemptedBy (give_back c clock target k l) = "" ∧
  Lease_State (give_back c clock target k l) = Lease_State l ∧
  Lease_PoolID (give_back c clock target k l) = Lease_PoolID l.
Proof. intros. unfold give_back. rewrite bool_decide_eq_true_2 by done. by case_bool_decide. Qed.

Lemma give_back_wf c clock target k l :
  live_instant c (clock k) → lease_wf k l → lease_wf k (give_back c clock target k l).
Proof.
  intros. unfold give_back. case_bool_decide; [|done]. case_bool_decide; auto with go.
Qed.

(** The instance a release identifier denotes. *)
Definition release_target (j : Journal) (identifier : string) : string :=
  from_option Claim_InstanceName identifier (Claims j !! identifier).

Lemma release_wf c clock identifier j j' u :
  journal_wf j → (∀ k, live_instant c (clock k)) →
  release_mutation c clock identifier j = Ok (j', u) → journal_wf j'.
Proof.
  intros Hj Hclock H. unfold release_mutation in H.
  set (target := match Claims j !! identifier with Some c => _ | None => _ end) in H.
  destruct (Leases j !! target) as [lt|] eqn:Hlt; [|by injection H as <- <-].
  apply fail_if_bind_Ok in H as [_ [= <- _]]. destruct Hj as [Hs Hl Hc He Ht].
  assert (target ≠ "") as Hne by (eapply lw_key; by apply Hl).
  constructor; simpl; [done|..].
  - intros k l Hk. apply lookup_delete_Some in Hk as [_ Hk]. rewrite give_back_lookup in Hk.
    apply fmap_Some in Hk as (l0 & Hl0 & ->). apply give_back_wf; [done|by apply Hl].
  - intros k cl Hcl. apply map_lookup_filter_Some in Hcl as [Hcl Hni]. simpl in Hni.
    specialize (Hc k cl Hcl). revert Hc. apply claim_wf_mono. intros l1 Hl1 Hb.
    exists l1. split; [|done]. rewrite lookup_delete_ne, give_back_lookup, Hl1 by done. simpl.
    rewrite give_back_other; [done|]. by rewrite (cb_preempted _ _ Hb).
  - intros k1 k2 c1 c2 [? _]%map_lookup_filter_Some [? _]%map_lookup_filter_Some. by eapply He.
  - intros k l Hk Hp. apply lookup_delete_Some in Hk as [_ Hk]. rewrite give_back_lookup in Hk.
    apply fmap_Some in Hk as (l0 & Hl0 & ->).
    destruct (decide (Lease_PreemptedBy l0 = target)) as [Heq|Hneq].
    { by rewrite (proj1 (give_back_victim _ _ _ _ _ Heq)) in Hp. }
    rewrite give_back_other in * by done. destruct (Ht k l0 Hl0 Hp) as (t & Ht1 & Ht2 & Ht3).
    exists t. rewrite lookup_delete_ne, give_back_lookup, Ht1 by done. simpl.
    rewrite give_back_other; [done|]. by rewrite Ht3.
Qed.

(** releasing an owned instance always succeeds on a well-formed journal and
    yields a well-formed one: the lease and every claim on it are gone, every
    victim of the released instance loses its reference and keeps its state
    (including one already being deleted), and every other lease and claim is
    untouched. *)
Theorem release_total c clock identifier j l :
  journal_wf j → (∀ k, live_instant c (clock k)) →
  Leases j !! release_target j identifier = Some l → Lease_ControllerID l = ControllerID c →
  ∃ j', release_mutation c clock identifier j = Ok (j', tt) ∧ journal_wf j' ∧
    Leases j' !! release_target j identifier = None ∧
    (∀ job cl, Claims j' !! job = Some cl ↔
       Claims j !! job = Some cl ∧ Claim_InstanceName cl ≠ release_target j identifier) ∧
    (∀ k v, k ≠ release_target j identifier → Leases j !! k = Some v →
       if decide (Lease_PreemptedBy v = release_target j identifier)
       then ∃ v', Leases j' !! k = Some v' ∧ Lease_PreemptedBy v' = "" ∧ Lease_State v' = Lease_State v
       else Leases j' !! k = Some v).
Proof.
  intros Hj Hclock Hl Hown.
  assert (is_Some (match release_mutation c clock identifier j with Ok (j', _) => Some j' | Err _ => None end)) as Hok.
  { unfold release_mutation, release_target in *. destruct (Claims j !! identifier); simpl in *;
      rewrite Hl; rewrite bool_decide_eq_true_2 by done; simpl; eauto. }
  destruct (release_mutation c clock identifier j) as [[j' []]|] eqn:E; [|by destruct Hok].
  exists j'. split; [done|]. split; [by eapply release_wf|]. clear Hok.
  assert (match Claims j !! identifier with Some c => Claim_InstanceName c | None => identifier end
          = release_target j identifier) as Heq by (unfold release_target; by destruct (Claims j !! identifier)).
  unfold release_mutation in E. rewrite Heq, Hl in E. apply fail_if_bind_Ok in E as [_ [= <-]]. simpl.
  split_and!.
  - apply lookup_delete_eq.
  - intros job cl. by rewrite map_lookup_filter_Some.
  - intros k v Hk Hv. rewrite lookup_delete_ne, give_back_lookup, Hv by done. simpl.
    case_decide as Hp.
    + eexists. split; [done|]. destruct (give_back_victim c clock _ k v Hp) as (?&?&?). done.
    + by rewrite give_back_other.
Qed.

(** ** Witnesses *)

Definition example_controller : Controller := {|
  ControllerID := "ctl"; Policy := example_policy; LeaseTTL := Minute |}.
(** A cold lease and the warm lease it preempts. *)
Definition example_preempting : Journal :=
  with_leases
    {[ "job" := example_lease "job" "cold/a" StateAdmitted;
       "w1" := lease_set_preempted "job" (example_lease "w1" "warm/a" StateDeleting) ]} newJournal.

Lemma example_preempting_wf : journal_wf example_preempting.
Proof. apply Validate_spec. vm_compute. reflexivity. Qed.

Lemma example_live t : 0 < t → live_instant example_controller t.
Proof. intros. split; [done|]. vm_compute. discriminate. Qed.

Lemma transition_safe_witness :
  ∃ j', transition_mutation example_controller "job" StateCreated true 50 example_preempting = Ok (j', tt)
        ∧ journal_wf j'.
Proof.
  pose proof (transition_safe example_controller "job" StateCreated true 50 example_preempting
    example_preempting_wf (example_live 50 eq_refl) (or_introl eq_refl)) as H.
  destruct (transition_mutation example_controller "job" StateCreated true 50 example_preempting)
    as [[j' []]|e] eqn:E.
  - exists j'. split; [reflexivity|exact (proj1 H)].
  - exfalso. vm_compute in E. discriminate E.
Defined.

Lemma release_total_witness :
  ∃ j', release_mutation example_controller (λ _, 50) "job" example_preempting = Ok (j', tt) ∧ journal_wf j'.
Proof.
  destruct (release_total example_controller (λ _, 50) "job" example_preempting
    (example_lease "job" "cold/a" StateAdmitted)) as (j' & H1 & H2 & _).
  - exact example_preempting_wf.
  - intros k. apply example_live. reflexivity.
  - vm_compute. reflexivity.
  - reflexivity.
  - exists j'. split; assumption.
Defined.
