(* ===== verification/ProviderAdmissionFacts.v ===== *)
(** * Provider admission: capacity safety and victim selection

    What an admission of a new instance guarantees about the journal it writes
    and about the warm instances it preempts. *)

From S2P Require Import Prelude Admission ProviderJournal ProviderStore ProviderAdmission ProviderReleaseFacts.

Local Open Scope Z_scope.

(** ** Accounting in machine arithmetic is accounting *)

Lemma sum_int_from {A} (f : A → Z) ls a : in_int64 a → foldl (λ acc l, int_add acc (f l)) a ls = wrap64 (a + sumZ f ls).
Proof.
  revert a. induction ls as [|l ls IH]; intros a Ha; simpl.
  - unfold sumZ. simpl. rewrite Z.add_0_r. by rewrite wrap64_small.
  - rewrite IH by apply wrap64_range. unfold int_add, sumZ. rewrite wrap64_add_l. f_equal. simpl. lia.
Qed.

Lemma sum_int_exact f (ls : list Lease) : in_int64 (sumZ f ls) → sum_int f ls = sumZ f ls.
Proof.
  intros. unfold sum_int. rewrite sum_int_from by done. rewrite Z.add_0_l. by apply wrap64_small.
Qed.

(** The accounting does not depend on the order in which the map is walked. *)
Lemma sum_int_perm f (ls ls' : list Lease) : ls ≡ₚ ls' → sum_int f ls = sum_int f ls'.
Proof. intros Hp. unfold sum_int. rewrite !sum_int_from by done. by rewrite Hp. Qed.

Lemma elem_of_charged leases excluded l :
  l ∈ charged leases excluded ↔ ∃ k, leases !! k = Some l ∧ k ∉ excluded.
Proof.
  unfold charged. rewrite list_elem_of_fmap. split.
  - intros ([k l'] & -> & Hin). rewrite list_elem_of_filter, elem_of_map_to_list in Hin. naive_solver.
  - intros (k & Hk & Hn). exists (k, l). by rewrite list_elem_of_filter, elem_of_map_to_list.
Qed.

Lemma charged_map leases excluded :
  charged leases excluded ≡ₚ (map_to_list (filter (λ kl, kl.1 ∉ excluded) leases)).*2.
Proof. unfold charged. by rewrite map_to_list_filter. Qed.

Lemma exclusionSet_spec names n : n ∈ exclusionSet names ↔ n ∈ names ∧ n ≠ "".
Proof. unfold exclusionSet. rewrite elem_of_list_to_set, list_elem_of_filter. tauto. Qed.

Lemma exclusionSet_empty : exclusionSet [""] = ∅.
Proof. reflexivity. Qed.

(** ** Map writes *)

Lemma lookup_update_leases f names (leases : gmap string Lease) k :
  (∀ l, f (f l) = f l) →
  update_leases f names leases !! k =
  if decide (k ∈ names) then Some (f (default zero_Lease (leases !! k))) else leases !! k.
Proof.
  intros Hf. unfold update_leases. revert leases.
  induction names as [|n names IH]; intros leases; simpl; [done|].
  rewrite IH. unfold write_lease. destruct (decide (n = k)) as [->|Hne].
  - rewrite lookup_insert_eq, (decide_True (P := k ∈ k :: names)) by set_solver. simpl. rewrite Hf.
    by case_decide.
  - rewrite lookup_insert_ne by done. repeat case_decide; set_solver.
Qed.

Lemma renew_idem c t l : renew c t (renew c t l) = renew c t l.
Proof. done. Qed.

Lemma mark_victim_idem c t target l :
  renew c t (lease_set_preempted target (renew c t (lease_set_preempted target l)))
  = renew c t (lease_set_preempted target l).
Proof. done. Qed.

(** ** Growing the victim set *)

(** The candidates' names, in the order they are tried. *)
Abbreviation names_of := (fmap Lease_InstanceName).

Lemma grow_victims_spec host policy leases req d0 sel cands d victims :
  Decision_Admitted d0 = false →
  grow_victims host policy leases req d0 sel cands = Ok (d, victims) →
  ∃ n, (n ≤ length cands)%nat ∧
    (∀ m dm, (0 < m < n)%nat →
       Evaluate (projected_host host leases (sel ++ names_of (take m cands))) policy req = Ok dm →
       Decision_Admitted dm = false) ∧
    if Decision_Admitted d then
      (0 < n)%nat ∧ victims = sel ++ names_of (take n cands) ∧
      Evaluate (projected_host host leases victims) policy req = Ok d
    else victims = [] ∧ n = length cands ∧ (n = 0%nat → d = d0) ∧
      ((0 < n)%nat → Evaluate (projected_host host leases (sel ++ names_of cands)) policy req = Ok d).
Proof.
  revert d0 sel. induction cands as [|l cands IH]; intros d0 sel Hd0 H; simpl in H.
  { injection H as <- <-. exists 0%nat. rewrite Hd0. simpl. split_and!; try done; lia. }
  apply bind_Ok in H as (d1 & HE & H). destruct (Decision_Admitted d1) eqn:Hd1.
  - injection H as <- <-. exists 1%nat. rewrite Hd1. simpl. split_and!; try lia; try done.
  - apply IH in H as (n & Hn & Hmin & Hd); [|done]. exists (S n). simpl. split_and!; [lia| |].
    + intros [|[|m]] dm Hm HEm; [lia| |].
      * simpl in HEm. congruence.
      * apply (Hmin (S m) dm); [lia|]. rewrite <- app_assoc. done.
    + destruct (Decision_Admitted d) eqn:Hda.
      * destruct Hd as (? & -> & HE'). rewrite <- app_assoc in *. split_and!; [lia|done|done].
      * destruct Hd as (-> & -> & H0 & HE'). split_and!; [done|done|done|]. intros _.
        destruct cands as [|l' cands]; [|rewrite <- app_assoc in HE'; apply HE'; simpl; lia].
        by rewrite (H0 eq_refl).
Qed.

(** ** The victims are idle warm capacity *)

Record idle_warm (j : Journal) (request : AdmitRequest) (l : Lease) : Prop := {
  iw_unclaimed : ∀ job c, Claims j !! job = Some c → Claim_InstanceName c ≠ Lease_InstanceName l;
  iw_state : Lease_State l = StateWarmReady ∨
             (QueueIntentAuthorized request = true ∧ Lease_State l = StateCreated);
  iw_free : Lease_PreemptedBy l = "";
  iw_warm : warm_pool (Lease_PoolID l) = true;
}.

Lemma elem_of_victim_candidates j request same l :
  l ∈ victim_candidates j request same →
  (∃ k, Leases j !! k = Some l) ∧ idle_warm j request l ∧
  (same = false → Lease_PoolName l ≠ Alloc_PoolName (Req_Allocation request)).
Proof.
  unfold victim_candidates. rewrite elem_of_sort_slice, list_elem_of_filter.
  intros [Hp ([k l'] & -> & Hin%elem_of_map_to_list)%list_elem_of_fmap]. simpl in *.
  unfold preemptible in Hp. bool_hyps. split; [eauto|]. split.
  - constructor; try done.
    + intros job c Hc Heq. match goal with H : _ ∉ claimed_instances _ |- _ => apply H end.
      apply claimed_instances_spec. eauto.
    + match goal with H : _ || _ = true |- _ => apply orb_true_iff in H as [?|?] end; bool_hyps; auto.
  - intros ->. simpl in *. by bool_hyps.
Qed.

(** ** Determinism of the choice *)

#[export] Instance victim_less_strict : StrictWeak victim_less.
Proof.
  assert (∀ a b, string_ltb a b = true ↔ ¬ String.le b a) as Hlt.
  { intros a b. unfold string_ltb, String.le. destruct (String.leb b a); simpl; naive_solver. }
  split.
  - intros x y. unfold victim_less, Before. repeat case_bool_decide; simpl; try lia; try congruence.
    intros Hxy. apply Hlt in Hxy. unfold string_ltb. apply negb_false_iff.
    destruct (total String.le (Lease_InstanceName x) (Lease_InstanceName y)); [|done].
    by apply Is_true_true.
  - intros x y z. unfold victim_less, Before. repeat case_bool_decide; simpl; try lia; try congruence.
    unfold string_ltb. rewrite !negb_false_iff. intros Ha Hb. apply Is_true_true.
    apply Is_true_true in Ha, Hb. by trans (Lease_InstanceName y).
Qed.

Lemma victim_less_total x y :
  victim_less x y = false → victim_less y x = false → Lease_InstanceName x = Lease_InstanceName y.
Proof.
  unfold victim_less, Before. repeat case_bool_decide; simpl; try lia; try congruence.
  unfold string_ltb. rewrite !negb_false_iff, <- !Is_true_true. intros Ha Hb.
  by apply (anti_symm String.le).
Qed.

(** the victim order is determined by the journal alone: however Go walks the
    lease map and whichever ordering [sort.Slice] returns among those its
    comparison allows, the sorted candidate list is the same, and so is the
    capacity charged to the host. *)
Theorem victim_order_deterministic j request same walk sorted excluded :
  journal_wf j → walk ≡ₚ map_to_list (Leases j) →
  sorted ≡ₚ filter (λ l, preemptible (claimed_instances (Claims j)) request same l = true) walk.*2 →
  StronglySorted (less_rel victim_less) sorted →
  sorted = victim_candidates j request same ∧
  ∀ f, sum_int f (filter (λ kl, kl.1 ∉ excluded) walk).*2 = sum_int f (charged (Leases j) excluded).
Proof.
  intros Hj Hwalk Hperm Hsorted. split.
  - apply sort_slice_unique; [apply _| |done|by rewrite Hperm, Hwalk].
    intros x y Hx Hy H1 H2. pose proof (victim_less_total x y H1 H2) as Hname.
    apply list_elem_of_filter in Hx as [_ ([k1 ?] & -> & Hk1%elem_of_map_to_list)%list_elem_of_fmap].
    apply list_elem_of_filter in Hy as [_ ([k2 ?] & -> & Hk2%elem_of_map_to_list)%list_elem_of_fmap].
    simpl in *. pose proof (lw_name _ _ (jw_leases _ Hj _ _ Hk1)).
    pose proof (lw_name _ _ (jw_leases _ Hj _ _ Hk2)). congruence.
  - intros f. apply sum_int_perm. unfold charged. by rewrite Hwalk.
Qed.

(** ** Capacity safety of an admission *)

(** Sizes within the machine range: the host, the policy's minimums, the request
    and the journal's totals. *)
Record bounded (c : Controller) (host : HostSnapshot) (j : Journal) (a : Allocation) : Prop := {
  bd_cpu : TotalCPUUnits host ≤ size_bound;
  bd_memory : TotalMemoryMiB host ≤ size_bound;
  bd_min_cpu : MinimumCPUUnits (Policy c) ≤ size_bound;
  bd_min_memory : MinimumMemoryMiB (Policy c) ≤ size_bound;
  bd_vcpu : Alloc_VCPU a ≤ size_bound;
  bd_allowance : 0 ≤ Alloc_CPUAllowanceUnits a ≤ size_bound;
  bd_request_memory : Alloc_MemoryMiB a ≤ size_bound;
  bd_lease_cpu : sumZ Lease_VCPU (map_to_list (Leases j)).*2 ≤ size_bound;
  bd_lease_allowance : sumZ lease_allowance (map_to_list (Leases j)).*2 ≤ size_bound;
  bd_lease_memory : sumZ Lease_MemoryMiB (map_to_list (Leases j)).*2 ≤ size_bound;
}.

Lemma charged_sum_le f leases excluded :
  (∀ k l, leases !! k = Some l → 0 ≤ f l) →
  0 ≤ sumZ f (charged leases excluded) ≤ sumZ f (map_to_list leases).*2.
Proof.
  intros Hf. split.
  - apply sumZ_nonneg. intros l (k & Hk & _)%elem_of_charged. by eapply Hf.
  - unfold charged. assert (∀ x : string * Lease, x ∈ map_to_list leases → 0 ≤ f x.2) as Hpos.
    { intros [k l] Hin%elem_of_map_to_list. by eapply Hf. }
    assert (∀ xs : list (string * Lease), sumZ f xs.*2 = sumZ (λ kl, f kl.2) xs) as Hfm.
    { intros xs. induction xs as [|x xs IH]; [done|]. change (f x.2 + sumZ f xs.*2 = f x.2 + sumZ (λ kl, f kl.2) xs). by rewrite IH. }
    rewrite !Hfm. by apply sumZ_filter_le.
Qed.

Lemma charged_exact c host j a f excluded :
  bounded c host j a → (∀ k l, Leases j !! k = Some l → 0 ≤ f l) →
  sumZ f (map_to_list (Leases j)).*2 ≤ size_bound →
  sum_int f (charged (Leases j) excluded) = sumZ f (charged (Leases j) excluded) ∧
  0 ≤ sumZ f (charged (Leases j) excluded) ≤ size_bound.
Proof.
  intros Hb Hf Hle. pose proof (charged_sum_le f (Leases j) excluded Hf). split; [|lia].
  apply sum_int_exact. unfold in_int64, min_int64, max_int64, size_bound in *. lia.
Qed.

(** The leases of [j] carry positive resources. *)
Definition positive_leases (leases : gmap string Lease) : Prop :=
  ∀ k l, leases !! k = Some l → 0 < Lease_VCPU l ∧ 0 < Lease_MemoryMiB l.

Lemma lease_allowance_nonneg l : 0 < Lease_VCPU l → 0 ≤ lease_allowance l.
Proof. unfold lease_allowance, effectiveCPUAllowance. destruct (Z.ltb_spec 0 (Lease_CPUAllowanceUnits l)); lia. Qed.

(** Any host that differs from [host] only in what it counts as allocated and
    available: an admitted decision bounds the leases not excluded. *)
Lemma Evaluate_charged c host j a excluded available d :
  bounded c host j a → positive_leases (Leases j) →
  Evaluate (host_with_available (withAllocatedLeasesExcluding host (Leases j) excluded) available)
    (Policy c) (admission_request a) = Ok d →
  Decision_Admitted d = true →
  sumZ Lease_VCPU (charged (Leases j) excluded) + Alloc_VCPU a + spec_cpu_reserve host (Policy c)
    ≤ TotalCPUUnits host ∧
  sumZ Lease_MemoryMiB (charged (Leases j) excluded) + Alloc_MemoryMiB a
    + spec_memory_reserve host (Policy c) ≤ TotalMemoryMiB host.
Proof.
  intros Hb Hpos HE Had.
  destruct (charged_exact c host j a Lease_VCPU excluded Hb) as [Hc1 Hc2];
    [intros k l Hk; destruct (Hpos k l Hk); lia|apply Hb|].
  destruct (charged_exact c host j a lease_allowance excluded Hb) as [Ha1 Ha2];
    [intros k l Hk; by apply lease_allowance_nonneg, (Hpos k l Hk)|apply Hb|].
  destruct (charged_exact c host j a Lease_MemoryMiB excluded Hb) as [Hm1 Hm2];
    [intros k l Hk; destruct (Hpos k l Hk); lia|apply Hb|].
  set (host' := host_with_available _ _) in HE.
  assert (sane host' (Policy c) (admission_request a)) as Hs.
  { unfold host'. destruct Hb. constructor; simpl; rewrite ?Hc1, ?Ha1, ?Hm1; try done; lia. }
  assert (fits host' (Policy c) (admission_request a)) as Hfit.
  { unfold Evaluate in HE. apply bind_Ok in HE as ([] & HV & [= <-]). simpl in Had.
    apply bool_decide_eq_true in Had. apply decide_reason_spec in Had; [done|by apply validate_Ok|done]. }
  destruct Hfit as [_ _ _ Hcpu _ Hmem _]. unfold host' in *. simpl in *.
  rewrite Hc1 in Hcpu. rewrite Hm1 in Hmem. split; [exact Hcpu|exact Hmem].
Qed.

Lemma host_with_available_id h : host_with_available h (AvailableMemoryMiB h) = h.
Proof. by destruct h. Qed.

(** The two ways [admit] settles a new instance: either nothing is written, or
    the decision was an admitted evaluation of the host without the victims. *)
Lemma admit_new_cases c host obs request allow now j jr j' res :
  reconcile c obs now j = Ok jr →
  Leases jr !! Alloc_InstanceName (Req_Allocation request) = None →
  admit_mutation c host obs request allow now j = Ok (j', res) →
  (Decision_Admitted (Result_Decision res) = false ∧ j' = jr) ∨
  (Decision_Admitted (Result_Decision res) = true ∧
   (PreemptedWarmWorkers res = [] ∨
    ∃ n, PreemptedWarmWorkers res = names_of (take n (victim_candidates jr request false))) ∧
   (∃ available, Evaluate (host_with_available
      (withAllocatedLeasesExcluding host (Leases jr) (exclusionSet (PreemptedWarmWorkers res))) available)
      (Policy c) (admission_request (Req_Allocation request)) = Ok (Result_Decision res)) ∧
   Claims j' = Claims jr ∧
   Leases j' = mark_victims c now (Alloc_InstanceName (Req_Allocation request)) (PreemptedWarmWorkers res)
     (<[Alloc_InstanceName (Req_Allocation request) :=
        new_lease (Req_Allocation request) StateAdmitted now (LeaseTTL c)]> (Leases jr))).
Proof.
  intros Hr Hnone H. unfold admit_mutation in H. rewrite Hr in H. simpl in H. rewrite Hnone in H.
  apply bind_Ok in H as (d0 & HE0 & H). apply bind_Ok in H as ([d victims] & Hplan & H).
  destruct (Decision_Admitted d) eqn:Hd; simpl in H.
  2:{ injection H as <- <-. left. by split. }
  apply bind_Ok in H as (j1 & Hcount & [= <- <-]). right. simpl. split; [done|].
  unfold count_preemptions in Hcount. apply fail_if_bind_Ok in Hcount as [_ [= <-]]. simpl.
  destruct (negb (Decision_Admitted d0) && allow && preemptibleReason (DecisionReason d0)) eqn:Hpre.
  - bool_hyps. unfold planWarmPreemption in Hplan. rewrite HE0 in Hplan. simpl in Hplan.
    apply grow_victims_spec in Hplan as (n & _ & _ & Hplan); [|done]. rewrite Hd in Hplan.
    destruct Hplan as (_ & -> & HE).
    simpl in *. split; [right; by exists n|]. split; [|done].
    eexists. exact HE.
  - injection Hplan as <- <-. split; [by left|]. split; [|done].
    exists (AvailableMemoryMiB host). unfold withAllocatedLeases in HE0. exact HE0.
Qed.

(** What [admit] writes for a new instance, name by name. *)
Lemma lookup_marked c now name victims new leases k :
  mark_victims c now name victims (<[name := new]> leases) !! k =
  if decide (k ∈ victims) then Some (renew c now (lease_set_preempted name (default zero_Lease (<[name := new]> leases !! k))))
  else <[name := new]> leases !! k.
Proof. unfold mark_victims. rewrite lookup_update_leases; [done|]. intros l. apply mark_victim_idem. Qed.

(** The leases an accepted journal was built from were keyed by their own names
    and positive. *)
Lemma marked_wf_before c now name victims new leases j' k l :
  Leases j' = mark_victims c now name victims (<[name := new]> leases) → journal_wf j' →
  leases !! name = None → leases !! k = Some l →
  Lease_InstanceName l = k ∧ k ≠ "" ∧ 0 < Lease_VCPU l ∧ 0 < Lease_MemoryMiB l.
Proof.
  intros Hls Hwf Hnone Hk. assert (k ≠ name) as Hne by congruence.
  pose proof (lookup_marked c now name victims new leases k) as Hlook. rewrite <- Hls in Hlook.
  rewrite lookup_insert_ne, Hk in Hlook by done. simpl in Hlook.
  case_decide; destruct (jw_leases _ Hwf _ _ Hlook); simpl in *; auto.
Qed.

Lemma charged_marked c now name victims new leases :
  leases !! name = None → name ∉ victims →
  charged (mark_victims c now name victims (<[name := new]> leases)) (list_to_set victims)
  ≡ₚ new :: charged leases (list_to_set victims).
Proof.
  intros Hnone Hni. rewrite !charged_map.
  assert (filter (λ kl, kl.1 ∉ (list_to_set victims : gset string))
            (mark_victims c now name victims (<[name := new]> leases))
          = <[name := new]> (filter (λ kl, kl.1 ∉ (list_to_set victims : gset string)) leases)) as ->.
  { apply map_eq. intros k. apply option_eq. intros l.
    rewrite map_lookup_filter_Some, lookup_marked, elem_of_list_to_set. simpl.
    destruct (decide (k = name)) as [->|Hk].
    - rewrite decide_False by done. rewrite !lookup_insert_eq. naive_solver.
    - rewrite (lookup_insert_ne (filter _ _)), map_lookup_filter_Some, elem_of_list_to_set by done. simpl.
      case_decide; rewrite ?lookup_insert_ne by done; naive_solver. }
  rewrite map_to_list_insert; [done|]. apply map_lookup_filter_None. by left.
Qed.

(** C2: admitting a new instance is safe. When [admit] grants it, the journal
    holds exactly the request's lease in state admitted, and the CPU and memory
    charged to all leases that are not preempted still leave the host's
    reserves; the preempted instances were idle, unclaimed warm instances of
    another pool, now bound to the request, and everything else is as
    reconciliation left it. When it does not grant it, nothing beyond the
    reconciliation is written. *)
Theorem admit_new_safe c host obs request allow now j jr j' res :
  reconcile c obs now j = Ok jr →
  Leases jr !! Alloc_InstanceName (Req_Allocation request) = None →
  admit_mutation c host obs request allow now j = Ok (j', res) →
  journal_wf j' → bounded c host jr (Req_Allocation request) →
  let name := Alloc_InstanceName (Req_Allocation request) in
  let victims := PreemptedWarmWorkers res in
  if Decision_Admitted (Result_Decision res) then
    Leases j' !! name = Some (new_lease (Req_Allocation request) StateAdmitted now (LeaseTTL c)) ∧
    sumZ Lease_VCPU (charged (Leases j') (list_to_set victims)) + spec_cpu_reserve host (Policy c)
      ≤ TotalCPUUnits host ∧
    sumZ Lease_MemoryMiB (charged (Leases j') (list_to_set victims)) + spec_memory_reserve host (Policy c)
      ≤ TotalMemoryMiB host ∧
    (∀ v, v ∈ victims → ∃ l, Leases jr !! v = Some l ∧ idle_warm jr request l ∧
       Lease_PoolName l ≠ Alloc_PoolName (Req_Allocation request) ∧
       Leases j' !! v = Some (renew c now (lease_set_preempted name l))) ∧
    (∀ k, k ≠ name → k ∉ victims → Leases j' !! k = Leases jr !! k) ∧
    Claims j' = Claims jr
  else j' = jr.
Proof.
  intros Hr Hnone H Hwf Hb name victims.
  destruct (admit_new_cases _ _ _ _ _ _ _ _ _ _ Hr Hnone H)
    as [[-> ->]|(Had & Hvict & [av HE] & Hcl & Hls)]; [done|]. rewrite Had.
  pose proof (λ k l, marked_wf_before _ _ _ _ _ _ _ k l Hls Hwf Hnone) as Hbefore.
  assert (∀ v, v ∈ victims → ∃ l, Leases jr !! v = Some l ∧ idle_warm jr request l ∧
            Lease_PoolName l ≠ Alloc_PoolName (Req_Allocation request)) as Hv.
  { intros v Hin. fold victims in Hvict. destruct Hvict as [->|[n ->]]; [set_solver|].
    apply list_elem_of_fmap in Hin as (l & -> & Hin).
    apply elem_of_take in Hin as (i & Hin%list_elem_of_lookup_2 & _).
    apply elem_of_victim_candidates in Hin as ([k Hk] & ? & Hpool).
    destruct (Hbefore k l Hk) as (-> & _). eauto. }
  assert (name ∉ victims) as Hni.
  { intros (l & Hl & _)%Hv. unfold name in Hl. congruence. }
  assert (exclusionSet victims = list_to_set victims) as Hex.
  { apply set_eq. intros v. rewrite exclusionSet_spec, elem_of_list_to_set. split; [tauto|].
    intros Hin. split; [done|]. destruct (Hv v Hin) as (l & Hl & _). apply (Hbefore v l Hl). }
  fold victims name in HE, Hls. rewrite Hex in HE.
  apply (Evaluate_charged _ _ _ _ _ _ _ Hb) in HE as [Hcpu Hmem]; [| |done].
  2:{ intros k l Hk. apply (Hbefore k l Hk). }
  rewrite Hls, (charged_marked c now name victims _ _ Hnone Hni). unfold sumZ in *. simpl.
  split_and!; try lia; try done.
  - rewrite lookup_marked, decide_False by done. by rewrite lookup_insert_eq.
  - intros v Hin. destruct (Hv v Hin) as (l & Hl & ? & ?). exists l. split_and!; try done.
    rewrite lookup_marked, decide_True by done. rewrite lookup_insert_ne; [by rewrite Hl|congruence].
  - intros k Hk Hkv. rewrite lookup_marked, decide_False by done. by rewrite lookup_insert_ne.
Qed.

(** preemption takes no more than it needs. When the request does not fit,
    the plan walks the idle warm candidates in victim order and stops at the
    first prefix whose removal lets the request in: every shorter non-empty
    prefix was refused. When the plan gives up it preempts nothing, and then
    even removing every candidate would not have been enough. *)
Theorem preemption_minimal c host j request d0 d victims :
  let req := admission_request (Req_Allocation request) in
  let candidates := victim_candidates j request false in
  let without n := projected_host host (Leases j) (names_of (take n candidates)) in
  Evaluate (withAllocatedLeases host (Leases j) "") (Policy c) req = Ok d0 → Decision_Admitted d0 = false →
  planWarmPreemption c host j request false 0 ∅ ∅ = Ok (d, victims) →
  ∃ n, (n ≤ length candidates)%nat ∧
    (∀ m dm, (0 < m < n)%nat → Evaluate (without m) (Policy c) req = Ok dm → Decision_Admitted dm = false) ∧
    if Decision_Admitted d
    then (0 < n)%nat ∧ victims = names_of (take n candidates) ∧ Evaluate (without n) (Policy c) req = Ok d
    else victims = [] ∧ n = length candidates ∧
         (n = 0%nat → d = d0) ∧ ((0 < n)%nat → Evaluate (without n) (Policy c) req = Ok d).
Proof.
  intros req candidates without HE Hd0 Hplan. unfold planWarmPreemption in Hplan.
  fold req in Hplan. rewrite HE in Hplan. simpl in Hplan.
  apply grow_victims_spec in Hplan as (n & Hn & Hmin & Hd); [|done]. exists n.
  split_and!; [done|done|]. destruct (Decision_Admitted d).
  - destruct Hd as (? & -> & ?). done.
  - destruct Hd as (-> & -> & ? & ?). split_and!; [done|done|done|].
    unfold without, candidates. by rewrite take_ge by done.
Qed.

(** ** Binding jobs to warm instances *)

Lemma sort_strings_head xs x ys y : sort_strings xs = x :: ys → y ∈ xs → String.le x y.
Proof.
  intros Hs Hy. rewrite <- (elem_of_sort_strings xs), Hs, elem_of_cons in Hy.
  assert (StronglySorted String.le (x :: ys)) as Hss.
  { rewrite <- Hs. apply StronglySorted_merge_sort; apply _. }
  destruct Hy as [->|Hy]; [done|]. inversion Hss as [|? ? ? Hall]; subst.
  by eapply Forall_forall in Hall.
Qed.

Definition claimable_names (request : WarmClaimRequest) (j : Journal) : list string :=
  (filter (λ kl, claimable request kl.2 = true) (map_to_list (Leases j))).*1.

Lemma elem_of_claimable_names request j k :
  k ∈ claimable_names request j ↔ ∃ l, Leases j !! k = Some l ∧ claimable request l = true.
Proof.
  unfold claimable_names. rewrite list_elem_of_fmap. split.
  - intros ([k' l] & -> & [? ?%elem_of_map_to_list]%list_elem_of_filter). eauto.
  - intros (l & ? & ?). exists (k, l). by rewrite list_elem_of_filter, elem_of_map_to_list.
Qed.

(** [ClaimWarm] binds a job to exactly one instance. A job that already has a
    claim gets the same instance and claim state back, whatever else changed. A
    new job gets the first (in name order) warm-ready, unpreempted lease of its
    controller, pool and image, which no other job holds; the lease becomes
    warm-claimed. When there is none the journal is left as reconciled. *)
Theorem claim_binds_once c obs request now j jr j' res :
  reconcile c obs now j = Ok jr →
  claim_mutation c obs request now j = Ok (j', res) → journal_wf j' →
  let job := WCR_JobName request in
  match Claims jr !! job with
  | Some cl =>
      res = {| WCRes_InstanceName := Claim_InstanceName cl; WCRes_State := Claim_State cl; WCRes_Found := true |}
      ∧ ∃ cl', Claims j' !! job = Some cl' ∧ Claim_InstanceName cl' = Claim_InstanceName cl
               ∧ Claim_State cl' = Claim_State cl
  | None =>
      if WCRes_Found res then
        ∃ l, Leases jr !! WCRes_InstanceName res = Some l ∧ claimable request l = true ∧
          (∀ k l', Leases jr !! k = Some l' → claimable request l' = true → String.le (WCRes_InstanceName res) k) ∧
          (∀ job' cl, Claims jr !! job' = Some cl → Claim_InstanceName cl ≠ WCRes_InstanceName res) ∧
          Claims j' !! job = Some (new_claim request (WCRes_InstanceName res) now (LeaseTTL c)) ∧
          Leases j' !! WCRes_InstanceName res = Some (renew c now (lease_set_state StateWarmClaimed l))
      else j' = jr ∧ ∀ k l, Leases jr !! k = Some l → claimable request l = false
  end.
Proof.
  intros Hr H Hwf job. unfold claim_mutation in H. rewrite Hr in H. simpl in H. fold job in H.
  destruct (Claims jr !! job) as [cl|] eqn:Hcl.
  { apply bind_Ok in H as ([] & _ & [= <- <-]). split; [done|]. simpl. rewrite lookup_insert_eq. eauto. }
  fold (claimable_names request jr) in H.
  destruct (sort_strings (claimable_names request jr)) as [|inst rest] eqn:Hs.
  - injection H as <- <-. split; [done|]. intros k l Hk.
    destruct (claimable request l) eqn:Hc; [|done].
    assert (k ∈ sort_strings (claimable_names request jr)) as Hin.
    { apply elem_of_sort_strings, elem_of_claimable_names. eauto. }
    rewrite Hs in Hin. set_solver.
  - injection H as <- <-. simpl in *.
    assert (inst ∈ claimable_names request jr) as Hin by (apply elem_of_sort_strings; rewrite Hs; set_solver).
    apply elem_of_claimable_names in Hin as (l & Hl & Hc). exists l. split_and!; try done.
    + intros k l' Hk Hc'. eapply sort_strings_head; [exact Hs|]. apply elem_of_claimable_names. eauto.
    + intros job' cl Hjob Heq. assert (job' ≠ job) as Hne by congruence.
      apply Hne. eapply (jw_exclusive _ Hwf job' job); simpl.
      * by rewrite lookup_insert_ne.
      * by rewrite lookup_insert_eq.
      * done.
    + by rewrite lookup_insert_eq.
    + unfold write_lease. by rewrite lookup_insert_eq, Hl.
Qed.

(** ** Witnesses *)

(** Two idle warm instances, both observed, and a request too large to fit beside
    them. *)
Definition example_warm (name : string) : Allocation := {|
  Alloc_InstanceName := name; Alloc_ControllerID := "ctl"; Alloc_PoolID := "warm/a"; Alloc_PoolName := "fast";
  Alloc_VCPU := 2; Alloc_CPUAllowanceUnits := 0; Alloc_MemoryMiB := 4096; Alloc_ImageFingerprint := "img";
  Alloc_State := StateWarmReady; Alloc_JobName := ""; Alloc_Location := "m1" |}.
Definition example_observed : gmap string Allocation := {[ "w1" := example_warm "w1"; "w2" := example_warm "w2" ]}.
Definition example_admit : AdmitRequest := {|
  Req_Allocation := {|
    Alloc_InstanceName := "job"; Alloc_ControllerID := "ctl"; Alloc_PoolID := "cold/b"; Alloc_PoolName := "large";
    Alloc_VCPU := 6; Alloc_CPUAllowanceUnits := 0; Alloc_MemoryMiB := 8192; Alloc_ImageFingerprint := "img";
    Alloc_State := StateAdmitted; Alloc_JobName := ""; Alloc_Location := "" |};
  QueueIntentAuthorized := false |}.
(** The journal after reconciliation with the two observed instances. *)
Definition example_reconciled : Journal :=
  match reconcile example_controller example_observed 50 newJournal with Ok j => j | Err _ => newJournal end.
Definition example_admitted : Journal * AdmissionResult :=
  match admit_mutation example_controller example_snapshot example_observed example_admit true 50 newJournal with
  | Ok r => r
  | Err _ => (newJournal, {| Result_Decision := placement_decision false ""; PreemptedWarmWorkers := [] |})
  end.

Lemma example_reconciled_wf : journal_wf example_reconciled.
Proof. apply Validate_spec. vm_compute. reflexivity. Qed.
Lemma example_admitted_wf : journal_wf example_admitted.1.
Proof. apply Validate_spec. vm_compute. reflexivity. Qed.

Lemma example_bounded :
  bounded example_controller example_snapshot example_reconciled (Req_Allocation example_admit).
Proof. constructor; try (split; [|]); vm_compute; discriminate. Qed.

Lemma admit_new_safe_witness :
  PreemptedWarmWorkers example_admitted.2 = ["w1"; "w2"] ∧
  Leases example_admitted.1 !! "job"
    = Some (new_lease (Req_Allocation example_admit) StateAdmitted 50 (LeaseTTL example_controller)).
Proof.
  split; [vm_compute; reflexivity|].
  pose proof (admit_new_safe example_controller example_snapshot example_observed example_admit true 50
    newJournal example_reconciled example_admitted.1 example_admitted.2
    ltac:(vm_compute; reflexivity) ltac:(vm_compute; reflexivity) ltac:(vm_compute; reflexivity)
    example_admitted_wf example_bounded) as H. cbv zeta in H.
  destruct (Decision_Admitted (Result_Decision example_admitted.2)) eqn:E; [exact (proj1 H)|].
  vm_compute in E. discriminate E.
Defined.

Lemma victim_order_deterministic_witness :
  Lease_InstanceName <$> victim_candidates example_reconciled example_admit false = ["w1"; "w2"] ∧
  reverse (reverse (victim_candidates example_reconciled example_admit false))
    = victim_candidates example_reconciled example_admit false.
Proof.
  split; [vm_compute; reflexivity|].
  refine (proj1 (victim_order_deterministic example_reconciled example_admit false
    (reverse (map_to_list (Leases example_reconciled))) _ ∅ example_reconciled_wf _ _ _)).
  - by rewrite reverse_Permutation.
  - rewrite reverse_involutive. unfold victim_candidates. rewrite sort_slice_perm.
    by rewrite reverse_Permutation.
  - rewrite reverse_involutive. apply sort_slice_sorted. apply _.
Defined.

Definition example_plan : Decision * list string :=
  match planWarmPreemption example_controller example_snapshot example_reconciled example_admit false 0 ∅ ∅ with
  | Ok r => r
  | Err _ => (placement_decision false "", [])
  end.
Definition example_refusal : Decision :=
  match Evaluate (withAllocatedLeases example_snapshot (Leases example_reconciled) "") example_policy
          (admission_request (Req_Allocation example_admit)) with
  | Ok d => d
  | Err _ => placement_decision false ""
  end.

Lemma preemption_minimal_witness :
  ∃ n, (n ≤ 2)%nat ∧ example_plan.2
    = names_of (take n (victim_candidates example_reconciled example_admit false)).
Proof.
  destruct (preemption_minimal example_controller example_snapshot example_reconciled example_admit
    example_refusal example_plan.1 example_plan.2) as (n & Hn & _ & Hd).
  - vm_compute. reflexivity.
  - vm_compute. reflexivity.
  - vm_compute. reflexivity.
  - exists n. split.
    + etransitivity; [exact Hn|]. vm_compute. auto.
    + destruct (Decision_Admitted example_plan.1) eqn:E; [exact (proj1 (proj2 Hd))|].
      vm_compute in E. discriminate E.
Defined.

Definition example_claim_request : WarmClaimRequest := {|
  WCR_JobName := "build"; WCR_ControllerID := "ctl"; WCR_PoolID := "cold/a"; WCR_PoolName := "fast";
  WCR_ImageFingerprint := "img" |}.
Definition example_claimed : Journal * WarmClaimResult :=
  match claim_mutation example_controller example_observed example_claim_request 50 newJournal with
  | Ok r => r
  | Err _ => (newJournal, no_claim)
  end.

Lemma claim_binds_once_witness :
  ∃ l, Leases example_reconciled !! "w1" = Some l ∧ claimable example_claim_request l = true.
Proof.
  pose proof (claim_binds_once example_controller example_observed example_claim_request 50 newJournal
    example_reconciled example_claimed.1 example_claimed.2
    ltac:(vm_compute; reflexivity) ltac:(vm_compute; reflexivity)) as H.
  assert (journal_wf example_claimed.1) as Hwf by (apply Validate_spec; vm_compute; reflexivity).
  specialize (H Hwf). cbv zeta in H.
  replace (Claims example_reconciled !! WCR_JobName example_claim_request) with (@None Claim) in H
    by (vm_compute; reflexivity).
  replace (WCRes_Found example_claimed.2) with true in H by (vm_compute; reflexivity).
  replace (WCRes_InstanceName example_claimed.2) with "w1" in H by (vm_compute; reflexivity).
  destruct H as (l & H1 & H2 & _). exists l. split; assumption.
Defined.
