(* ===== verification/ProviderPlacementFacts.v ===== *)
(** * Provider admission: victims for a placement refusal

    [selectPlacementWarmVictims] of [src/internal/provideradmission/controller.go]
    frees memory on one cluster member: all its victims share a location, and it
    covers the demand whenever some location can. *)

From S2P Require Import Prelude ProviderJournal ProviderAdmission.

Local Open Scope Z_scope.

Abbreviation names_of := (fmap Lease_InstanceName) (only parsing).
Abbreviation memory_of := (sumZ Lease_MemoryMiB) (only parsing).

(** Candidates the journal can hold: positive memory, total within an int. *)
Record placeable (candidates : list Lease) : Prop := {
  pl_memory : ∀ l, l ∈ candidates → 0 < Lease_MemoryMiB l;
  pl_total : memory_of candidates ≤ max_int64;
}.

(** [n] names of one location's group, in victim order, that free the demand
    while no shorter prefix does. *)
Definition covers (group : list Lease) (minFreed : Z) (n : nat) : Prop :=
  (0 < n ≤ length group)%nat ∧ minFreed ≤ memory_of (take n group) ∧
  ∀ m, (0 < m < n)%nat → memory_of (take m group) < minFreed.

Lemma take_until_spec minFreed sel mem group :
  (∀ l, l ∈ group → 0 < Lease_MemoryMiB l) → 0 ≤ mem → mem + memory_of group ≤ max_int64 →
  ∃ n covered, take_until minFreed sel mem group
      = (sel ++ names_of (take n group), mem + memory_of (take n group), covered) ∧
    (n ≤ length group)%nat ∧
    (∀ m, (0 < m < n)%nat → mem + memory_of (take m group) < minFreed) ∧
    if covered then (0 < n)%nat ∧ minFreed ≤ mem + memory_of (take n group)
    else n = length group ∧ ((0 < n)%nat → mem + memory_of group < minFreed).
Proof.
  revert sel mem. induction group as [|w group IH]; intros sel mem Hpos Hmem Htot; simpl.
  { exists 0%nat, false. rewrite app_nil_r, sumZ_nil, Z.add_0_r. split_and!; try done; lia. }
  rewrite sumZ_cons in Htot. pose proof (Hpos w ltac:(set_solver)) as Hw.
  assert (∀ l, l ∈ group → 0 < Lease_MemoryMiB l) as Hpos' by set_solver.
  assert (0 ≤ memory_of group) by (apply sumZ_nonneg; intros l Hl; specialize (Hpos' l Hl); lia).
  assert (int_add mem (Lease_MemoryMiB w) = mem + Lease_MemoryMiB w) as ->.
  { apply wrap64_small. unfold in_int64, min_int64, max_int64 in *. lia. }
  destruct (Z.leb_spec minFreed (mem + Lease_MemoryMiB w)) as [Hle|Hlt].
  - exists 1%nat, true. simpl. rewrite take_0, sumZ_cons, sumZ_nil, Z.add_0_r. split_and!; try done; lia.
  - destruct (IH (sel ++ [Lease_InstanceName w]) (mem + Lease_MemoryMiB w)) as (n & cov & -> & Hn & Hmin & Hc);
      [done|lia|lia|].
    exists (S n), cov. simpl. rewrite <- app_assoc, !sumZ_cons, !Z.add_assoc. split_and!; [done|lia| |].
    + intros [|[|m]] Hm; [lia| |].
      * simpl. rewrite take_0, sumZ_cons, sumZ_nil. lia.
      * simpl. rewrite sumZ_cons, Z.add_assoc. apply (Hmin (S m)). lia.
    + destruct cov; [split; [lia|tauto]|]. destruct Hc as [-> Hc]. split; [done|]. intros _.
      destruct group as [|w' group]; [rewrite sumZ_nil; lia|]. apply Hc. simpl. lia.
Qed.

Lemma location_group_placeable locations candidates loc :
  placeable candidates →
  (∀ l, l ∈ location_group locations candidates loc → 0 < Lease_MemoryMiB l) ∧
  memory_of (location_group locations candidates loc) ≤ max_int64.
Proof.
  intros [Hm Ht]. unfold location_group. split.
  - intros l [_ ?]%list_elem_of_filter. by apply Hm.
  - etransitivity; [apply sumZ_filter_le|done]. intros l Hl. specialize (Hm l Hl). lia.
Qed.

Lemma group_memory_take locations candidates loc n :
  placeable candidates →
  0 ≤ memory_of (take n (location_group locations candidates loc)) ≤ memory_of (location_group locations candidates loc).
Proof.
  intros Hc. pose proof (proj1 (location_group_placeable locations candidates loc Hc)) as Hpos.
  rewrite <- (take_drop n (location_group locations candidates loc)) in Hpos.
  rewrite <- (take_drop n (location_group locations candidates loc)) at 3. rewrite sumZ_app.
  assert (0 ≤ memory_of (take n (location_group locations candidates loc))
    ∧ 0 ≤ memory_of (drop n (location_group locations candidates loc))); [|lia].
  split; apply sumZ_nonneg; intros l Hl; (enough (0 < Lease_MemoryMiB l) by lia); set_solver.
Qed.

Section scan.
Context (candidates : list Lease) (minFreed : Z) (locations : gmap string string).
Hypothesis (Hcands : placeable candidates) (Hdemand : 0 < minFreed).

Abbreviation group := (location_group locations candidates).

(** What scanning one location finds. *)
Lemma take_location loc :
  ∃ n covered, take_until minFreed [] 0 (group loc)
      = (names_of (take n (group loc)), memory_of (take n (group loc)), covered) ∧
    if covered then covers (group loc) minFreed n
    else n = length (group loc) ∧ memory_of (group loc) < minFreed.
Proof using Hcands Hdemand.
  destruct (location_group_placeable locations candidates loc Hcands) as [Hm Ht].
  destruct (take_until_spec minFreed [] 0 (group loc) Hm) as (n & cov & -> & Hn & Hmin & Hc); [done|lia|].
  exists n, cov. rewrite !app_nil_l, !Z.add_0_l. split; [done|].
  destruct cov; [unfold covers; split_and!; [lia|lia|lia|done]|]. destruct Hc as [-> Hc]. split; [done|].
  destruct (group loc); [rewrite sumZ_nil; lia|]. apply Hc. simpl. lia.
Qed.

(** The state of the scan after the locations [done_]. *)
Record scan_ok (done_ : list string) (s : PlacementScan) : Prop := {
  so_covering : ∀ names, names ∈ covering s →
    ∃ loc n, loc ∈ done_ ∧ names = names_of (take n (group loc)) ∧ covers (group loc) minFreed n;
  so_complete : ∀ loc, loc ∈ done_ →
    memory_of (group loc) < minFreed ∨ ∃ n, covers (group loc) minFreed n ∧ names_of (take n (group loc)) ∈ covering s;
  so_partial : (bestPartial s = [] ∧ bestPartialMemory s = -1 ∧ ∀ loc, loc ∈ done_ → minFreed ≤ memory_of (group loc)) ∨
    ∃ loc, loc ∈ done_ ∧ bestPartial s = names_of (group loc) ∧ bestPartialMemory s = memory_of (group loc) ∧
      ∀ loc', loc' ∈ done_ → memory_of (group loc') < minFreed → memory_of (group loc') ≤ memory_of (group loc);
}.

Lemma scan_step prefer restricted done_ s loc :
  scan_ok done_ s → restricted && bool_decide (loc ∉ prefer) = false →
  scan_ok (done_ ++ [loc]) (scan_location locations prefer restricted candidates minFreed s loc).
Proof using Hcands Hdemand.
  intros [Hcov Hcomp Hpart] Hallow. unfold scan_location. rewrite Hallow.
  destruct (take_location loc) as (n & covered & -> & Hc). destruct covered; simpl.
  - pose proof Hc as (Hn & Hge & Hmin). rewrite (proj2 (Z.ltb_ge _ _) Hge). simpl.
    assert (minFreed ≤ memory_of (group loc)) as Hbig.
    { pose proof (group_memory_take locations candidates loc n Hcands). lia. }
    constructor; simpl.
    + intros names [Hin| ->%list_elem_of_singleton]%elem_of_app.
      * destruct (Hcov names Hin) as (loc' & n' & ? & ?). exists loc', n'. split; [set_solver|done].
      * exists loc, n. split; [set_solver|]. done.
    + intros loc' [Hin| ->%list_elem_of_singleton]%elem_of_app; [|right; exists n; split; [done|set_solver]].
      destruct (Hcomp loc' Hin) as [?|(n' & ? & ?)]; [by left|right]. exists n'. split; [done|set_solver].
    + destruct Hpart as [(? & ? & Hall)|(loc' & ? & ? & ? & Hall)]; [left|right; exists loc'].
      * split_and!; try done. intros l [?| ->%list_elem_of_singleton]%elem_of_app; auto.
      * split_and!; try done; [set_solver|]. intros l [?| ->%list_elem_of_singleton]%elem_of_app; [auto|lia].
  - destruct Hc as [-> Hlt]. rewrite firstn_all. rewrite (proj2 (Z.ltb_lt _ _) Hlt). simpl.
    assert (0 ≤ memory_of (group loc)) as Hpos.
    { pose proof (group_memory_take locations candidates loc 0 Hcands). rewrite take_0, sumZ_nil in *. lia. }
    constructor; simpl.
    + intros names Hin. destruct (Hcov names Hin) as (loc' & n' & ? & ?). exists loc', n'. split; [set_solver|done].
    + intros loc' [Hin| ->%list_elem_of_singleton]%elem_of_app; [by apply Hcomp|by left].
    + right. case_match eqn:Hb.
      * exists loc. split_and!; try done; [set_solver|].
        intros l [Hin| ->%list_elem_of_singleton]%elem_of_app Hl; [|lia].
        apply orb_true_iff in Hb. destruct Hpart as [(? & ? & Hall)|(loc' & ? & ? & Hm & Hall)].
        { specialize (Hall l Hin). lia. }
        rewrite Hm in Hb.
        specialize (Hall l Hin Hl). destruct Hb as [Hb|Hb]; [lia|]. bool_hyps. lia.
      * apply orb_false_iff in Hb as [Hb _].
        destruct Hpart as [(? & Hm1 & _)|(loc' & Hin' & ? & Hm & Hall)]; [lia|].
        exists loc'. split_and!; try done; [set_solver|].
        intros l [Hin| ->%list_elem_of_singleton]%elem_of_app Hl; [auto|lia].
Qed.

Lemma scan_all prefer restricted locs done_ s :
  scan_ok done_ s →
  scan_ok (done_ ++ filter (λ loc, restricted && bool_decide (loc ∉ prefer) = false) locs)
    (foldl (scan_location locations prefer restricted candidates minFreed) s locs).
Proof using Hcands Hdemand.
  revert done_ s. induction locs as [|loc locs IH]; intros done_ s Hs; simpl.
  { by rewrite filter_nil, app_nil_r. }
  rewrite filter_cons. case_decide as Ha.
  - rewrite cons_middle, app_assoc. apply IH. by apply scan_step.
  - apply not_false_iff_true in Ha. replace (scan_location _ _ _ _ _ _ _) with s; [by apply IH|].
    unfold scan_location. by rewrite Ha.
Qed.

Lemma scan_considered prefer restricted locs s :
  considered (foldl (scan_location locations prefer restricted candidates minFreed) s locs)
  = (considered s + length (filter (λ loc, restricted && bool_decide (loc ∉ prefer) = false) locs))%nat.
Proof.
  revert s. induction locs as [|loc locs IH]; intros s; simpl; [lia|]. rewrite IH, filter_cons.
  unfold scan_location. case_decide as Ha.
  - rewrite Ha. destruct (take_until _ _ _ _) as [[??]?]. simpl. lia.
  - apply not_false_iff_true in Ha. by rewrite Ha.
Qed.

End scan.

Lemma elem_of_location_order locations seen candidates loc :
  loc ∈ location_order locations seen candidates ↔
  (loc ∉ seen) ∧ ∃ l, l ∈ candidates ∧ location_of locations l = loc.
Proof.
  revert seen. induction candidates as [|l ls IH]; intros seen; simpl; [set_solver|].
  case_bool_decide as Hs; rewrite ?elem_of_cons, IH; [set_solver|].
  destruct (decide (loc = location_of locations l)) as [->|Hne]; set_solver.
Qed.

#[export] Instance covering_less_strict candidates : StrictWeak (covering_less candidates).
Proof.
  split.
  - intros x y. unfold covering_less.
    repeat case_bool_decide; simpl; rewrite ?Nat.ltb_lt, ?Nat.ltb_ge; try lia; try congruence.
    unfold string_ltb. intros Hxy%negb_true_iff. apply negb_false_iff.
    destruct (total String.le (default "" (head x)) (default "" (head y))) as [H'|H']; [by apply Is_true_true|].
    apply Is_true_true in H'. congruence.
  - intros x y z. unfold covering_less.
    repeat case_bool_decide; simpl; rewrite ?Nat.ltb_lt, ?Nat.ltb_ge; try lia; try congruence.
    unfold string_ltb. rewrite !negb_false_iff, <- !Is_true_true. intros Ha Hb.
    by trans (default "" (head y)).
Qed.

(** ** The selection *)

Definition occurs (locations : gmap string string) (candidates : list Lease) (loc : string) : Prop :=
  ∃ l, l ∈ candidates ∧ location_of locations l = loc.

(** [n] names of the location [loc] are the fewest that cover the demand, among
    the locations [ok]. *)
Definition best_cover (locations : gmap string string) (candidates : list Lease) (minFreed : Z)
    (ok : string → Prop) (loc : string) (n : nat) : Prop :=
  covers (location_group locations candidates loc) minFreed n ∧
  ∀ loc' n', ok loc' → covers (location_group locations candidates loc') minFreed n' → (n ≤ n')%nat.

(** All of the location with the most memory, when none covers the demand. *)
Definition best_partial (locations : gmap string string) (candidates : list Lease) (minFreed : Z)
    (loc : string) (n : nat) : Prop :=
  n = length (location_group locations candidates loc) ∧
  ∀ loc', memory_of (location_group locations candidates loc') < minFreed ∧
          memory_of (location_group locations candidates loc') ≤ memory_of (location_group locations candidates loc).

Lemma covers_occurs locations candidates minFreed loc n :
  covers (location_group locations candidates loc) minFreed n → occurs locations candidates loc.
Proof.
  intros ([Hn Hlen] & _). destruct (location_group locations candidates loc) as [|l g] eqn:Hg; [simpl in *; lia|].
  assert (l ∈ location_group locations candidates loc) as [? ?]%list_elem_of_filter by (rewrite Hg; set_solver).
  by exists l.
Qed.

Lemma covers_unique group minFreed n n' : covers group minFreed n → covers group minFreed n' → n = n'.
Proof.
  intros (Hn & Hge & Hmin) (Hn' & Hge' & Hmin').
  destruct (Nat.lt_trichotomy n n') as [Hlt|[?|Hlt]]; [|done|].
  - specialize (Hmin' n). lia.
  - specialize (Hmin n'). lia.
Qed.

Lemma not_occurs_memory locations candidates loc :
  ¬ occurs locations candidates loc → memory_of (location_group locations candidates loc) = 0.
Proof.
  intros Hno. replace (location_group locations candidates loc) with (@nil Lease); [done|].
  symmetry. apply elem_of_nil_inv. intros l [? ?]%list_elem_of_filter. apply Hno. by exists l.
Qed.

Lemma best_covering_fewest candidates xs best rest names :
  sort_slice (covering_less candidates) xs = best :: rest → names ∈ xs → (length best ≤ length names)%nat.
Proof.
  intros Hs Hin. pose proof (sort_slice_head (covering_less candidates) _ _ _ _ Hs Hin) as Hless.
  unfold covering_less in Hless. case_bool_decide; simpl in Hless; [lia|]. apply Nat.ltb_ge in Hless. lia.
Qed.

Lemma select_pass_spec candidates minFreed locations prefer :
  placeable candidates → 0 < minFreed → candidates ≠ [] →
  match select_pass candidates minFreed locations prefer with
  | Some names =>
      ∃ loc n, names = names_of (take n (location_group locations candidates loc)) ∧
        (prefer = ∅ ∨ loc ∈ prefer) ∧
        (best_cover locations candidates minFreed (λ loc', prefer = ∅ ∨ loc' ∈ prefer) loc n ∨
         prefer = ∅ ∧ best_partial locations candidates minFreed loc n)
  | None => prefer ≠ ∅ ∧ ∀ loc, loc ∈ prefer → memory_of (location_group locations candidates loc) < minFreed
  end.
Proof.
  intros Hc Hd Hne. unfold select_pass. set (restricted := negb (bool_decide (prefer = ∅))).
  set (locs := location_order locations [] candidates).
  set (allowed := filter (λ loc, restricted && bool_decide (loc ∉ prefer) = false) locs).
  assert (∀ loc, loc ∈ allowed ↔ occurs locations candidates loc ∧ (prefer = ∅ ∨ loc ∈ prefer)) as Hall.
  { intros loc. unfold allowed, locs. rewrite list_elem_of_filter, elem_of_location_order, andb_false_iff.
    unfold restricted. rewrite negb_false_iff, bool_decide_eq_true, bool_decide_eq_false.
    destruct (decide (loc ∈ prefer)); unfold occurs; set_solver. }
  match goal with |- context [foldl ?f ?s0 locs] => set (s := foldl f s0 locs); set (s_init := s0) in s end.
  assert (scan_ok candidates minFreed locations allowed s) as [Hcov Hcomp Hpart].
  { apply (scan_all candidates minFreed locations Hc Hd prefer restricted locs [] s_init).
    constructor; simpl; [set_solver|set_solver|]. left. set_solver. }
  assert (considered s = length allowed) as Hcons by apply scan_considered.
  assert (∀ loc, prefer = ∅ ∨ loc ∈ prefer → loc ∉ allowed → memory_of (location_group locations candidates loc) < minFreed) as Hout.
  { intros loc Hok Hni. rewrite not_occurs_memory; [done|]. intros Hocc. apply Hni, Hall. done. }
  destruct (restricted && bool_decide (considered s = 0%nat)) eqn:Hzero.
  { apply andb_true_iff in Hzero as [Hr Hz%bool_decide_eq_true]. unfold restricted in Hr.
    apply negb_true_iff, bool_decide_eq_false in Hr. split; [done|]. intros loc Hin. apply Hout; [by right|].
    rewrite Hcons in Hz. apply nil_length_inv in Hz. rewrite Hz. set_solver. }
  destruct (sort_slice (covering_less candidates) (covering s)) as [|best rest] eqn:Hs.
  - assert (covering s = []) as Hempty.
    { apply Permutation_nil. by rewrite <- Hs, sort_slice_perm. }
    assert (∀ loc, prefer = ∅ ∨ loc ∈ prefer → memory_of (location_group locations candidates loc) < minFreed) as Hlow.
    { intros loc Hok. destruct (decide (loc ∈ allowed)) as [Hin|]; [|by apply Hout].
      destruct (Hcomp loc Hin) as [?|(n & _ & Hin')]; [done|]. rewrite Hempty in Hin'. set_solver. }
    destruct restricted eqn:Hr; unfold restricted in Hr.
    + apply negb_true_iff, bool_decide_eq_false in Hr. split; [done|]. auto.
    + apply negb_false_iff, bool_decide_eq_true in Hr.
      destruct Hpart as [(_ & _ & Hbad)|(loc & Hin & -> & _ & Hmax)].
      * exfalso. destruct candidates as [|l ls]; [done|].
        assert (location_of locations l ∈ allowed) as Hin.
        { apply Hall. split; [exists l; set_solver|by left]. }
        specialize (Hbad _ Hin). specialize (Hlow (location_of locations l) (or_introl Hr)). lia.
      * exists loc, (length (location_group locations candidates loc)). rewrite firstn_all.
        split_and!; [done|by left|]. right. split; [done|]. split; [done|]. intros loc'.
        split; [by apply Hlow; left|]. destruct (decide (loc' ∈ allowed)) as [Hin'|Hni].
        { apply Hmax; [done|]. apply Hlow. by left. }
        rewrite not_occurs_memory; [|intros Hocc; apply Hni, Hall; auto].
        pose proof (group_memory_take locations candidates loc 0 Hc). rewrite take_0, sumZ_nil in *. lia.
  - assert (best ∈ covering s) as Hbest by (rewrite <- (elem_of_sort_slice (covering_less candidates)), Hs; set_solver).
    destruct (Hcov best Hbest) as (loc & n & Hin & -> & Hn). exists loc, n. split; [done|].
    apply Hall in Hin as [_ Hok]. split; [done|]. left. split; [done|]. intros loc' n' Hok' Hn'.
    assert (loc' ∈ allowed) as Hin' by (apply Hall; split; [by eapply covers_occurs|done]).
    destruct (Hcomp loc' Hin') as [Hlow|(n'' & Hn'' & Hin'')].
    + destruct Hn' as (_ & Hge & _). pose proof (group_memory_take locations candidates loc' n' Hc). lia.
    + rewrite (covers_unique _ _ _ _ Hn' Hn''). 
      pose proof (best_covering_fewest _ _ _ _ _ Hs Hin'') as Hlen. rewrite !length_fmap, !length_take in Hlen.
      destruct Hn as ((? & ?) & _), Hn'' as ((? & ?) & _). lia.
Qed.

(** the victims for a refused placement all run on one location, so that the
    freed memory is usable by one instance. When the locations already emptying
    can cover the demand, one of those is chosen; when any location can, the
    choice covers the demand with the fewest victims of any such location and no
    shorter prefix would do; only when no location can does it return all the
    candidates of the location that frees the most. *)
Theorem placement_one_location candidates minFreed locations prefer :
  placeable candidates → 0 < minFreed → candidates ≠ [] →
  let group := location_group locations candidates in
  ∃ loc n,
    selectPlacementWarmVictims candidates minFreed locations prefer = names_of (take n (group loc)) ∧
    (best_cover locations candidates minFreed (λ loc', loc' ∈ prefer) loc n ∧ loc ∈ prefer ∨
     (∀ loc', loc' ∈ prefer → memory_of (group loc') < minFreed) ∧
     (best_cover locations candidates minFreed (λ _, True) loc n ∨
      best_partial locations candidates minFreed loc n)).
Proof.
  intros Hc Hd Hne group. unfold selectPlacementWarmVictims.
  rewrite (proj2 (Z.leb_gt _ _) Hd), (bool_decide_eq_false_2 (candidates = [])) by done. simpl.
  pose proof (select_pass_spec candidates minFreed locations prefer Hc Hd Hne) as Hfirst.
  pose proof (select_pass_spec candidates minFreed locations ∅ Hc Hd Hne) as Hsecond.
  destruct (select_pass candidates minFreed locations prefer) as [names|].
  - destruct Hfirst as (loc & n & -> & Hok & Hbest). exists loc, n. split; [done|].
    destruct (decide (prefer = ∅)) as [->|Hp].
    + right. split; [set_solver|]. destruct Hbest as [[? Hb]|[_ ?]]; [left|by right].
      split; [done|]. intros loc' n' _. apply Hb. by left.
    + left. destruct Hok as [?|Hok]; [done|]. split; [|done]. destruct Hbest as [[? Hb]|[? _]]; [|done].
      split; [done|]. intros loc' n' ?. apply Hb. by right.
  - destruct Hfirst as [_ Hlow]. destruct (select_pass candidates minFreed locations ∅) as [names|]; [|by destruct Hsecond].
    destruct Hsecond as (loc & n & -> & _ & Hbest). exists loc, n. split; [done|]. right. split; [done|].
    destruct Hbest as [[? Hb]|[_ ?]]; [left|by right]. split; [done|]. intros loc' n' _. apply Hb. by left.
Qed.

(** ** Witness *)

(** Two candidates on one member, one on another. *)
Definition example_candidates : list Lease :=
  let lease name memory := {|
    Lease_InstanceName := name; Lease_ControllerID := "ctl"; Lease_PoolID := "warm/a"; Lease_PoolName := "fast";
    Lease_VCPU := 2; Lease_CPUAllowanceUnits := 0; Lease_MemoryMiB := memory; Lease_ImageFingerprint := "img";
    Lease_State := StateWarmReady; Lease_PreemptedBy := ""; Lease_AdmittedAt := 10; Lease_UpdatedAt := 10;
    Lease_ExpiresAt := 20 |} in
  [lease "w1" 4096; lease "w2" 4096; lease "w3" 3000].
Definition example_locations : gmap string string := {[ "w1" := "m1"; "w2" := "m1"; "w3" := "m2" ]}.

Lemma placement_one_location_witness :
  selectPlacementWarmVictims example_candidates 6000 example_locations ∅ = ["w1"; "w2"] ∧
  ∃ loc n, selectPlacementWarmVictims example_candidates 6000 example_locations ∅
    = names_of (take n (location_group example_locations example_candidates loc)).
Proof.
  split; [vm_compute; reflexivity|].
  destruct (placement_one_location example_candidates 6000 example_locations ∅) as (loc & n & H & _).
  - split.
    + intros l Hl. repeat (apply elem_of_cons in Hl as [->|Hl]; [vm_compute; reflexivity|]).
      by apply not_elem_of_nil in Hl.
    + vm_compute. discriminate.
  - reflexivity.
  - discriminate.
  - exists loc, n. exact H.
Defined.
