(* ===== verification/PressureGate.v ===== *)
(** * The pressure gate ([src/internal/pressuregate/pressure.go])

    Local pressure-stall and OOM observations become an open or closed cluster
    member gate with hysteresis: it closes at once, and reopens only after the
    pressure fell below lower thresholds and a minimum closed period passed. *)

From S2P Require Import Prelude.

Local Open Scope Z_scope.
Local Open Scope go_scope.

(** ** Data *)

(** The [State] string of a gate. Any other string reads as "never evaluated". *)
Inductive GateState := StateOpen | StateClosed | OtherGateState (s : string).

#[export] Instance GateState_eq_dec : EqDecision GateState.
Proof. solve_decision. Defined.

Record Policy := {
  Required : bool;
  StaleAfterSeconds : Z;
  HeartbeatSeconds : Z;
  MinimumClosedSeconds : Z;
  CPUSomeClose : float64;
  CPUSomeReopen : float64;
  MemoryFullClose : float64;
  MemoryFullReopen : float64;
  IOFullClose : float64;
  IOFullReopen : float64;
  MaximumRecentOOMKills : Z;
}.

Record Sample := {
  Sample_ObservedAt : Time;
  Sample_CPUSomeAvg10 : float64;
  Sample_MemoryFullAvg10 : float64;
  Sample_IOFullAvg10 : float64;
  Sample_OOMKillsTotal : Z;
}.

Record State := {
  State_SchemaVersion : Z;
  State_State : GateState;
  State_Reason : string;
  State_StateSince : Time;
  State_ObservedAt : Time;
  State_OOMKillsTotal : Z;
}.

Definition SchemaVersion : Z := 1.

(** The Go zero value, which a missing state file reads as. *)
Definition zero_State : State := {|
  State_SchemaVersion := 0; State_State := OtherGateState ""; State_Reason := "";
  State_StateSince := zero_time; State_ObservedAt := zero_time; State_OOMKillsTotal := 0 |}.

(** ** Validation *)

(** [p == (Policy{})]. *)
Definition is_zero_Policy (p : Policy) : bool :=
  let fzero v := feq v (f_int 0) in
  negb (Required p) && (StaleAfterSeconds p =? 0) && (HeartbeatSeconds p =? 0) && (MinimumClosedSeconds p =? 0)
  && fzero (CPUSomeClose p) && fzero (CPUSomeReopen p) && fzero (MemoryFullClose p) && fzero (MemoryFullReopen p)
  && fzero (IOFullClose p) && fzero (IOFullReopen p) && (MaximumRecentOOMKills p =? 0).

(** [0 <= reopen < close <= 100]; the loop walks a map, so only which pair is
    named by the error depends on Go's iteration order. *)
Definition check_pair (name : string) (reopen close : float64) : result unit :=
  fail_if ((reopen <f f_int 0) || (close ≤f reopen) || (f_int 100 <f close))
    (Errorf "%s thresholds must satisfy 0 <= reopen < close <= 100" [name]).

Definition Policy_Validate (p : Policy) : result unit :=
  if negb (Required p) then
    fail_if (negb (is_zero_Policy p)) (Errorf "disabled pressure admission must not carry thresholds" [])
  else
    fail_if ((StaleAfterSeconds p <? 15) || (300 <? StaleAfterSeconds p))
      (Errorf "stale_after_seconds must be in 15..300" []);;
    fail_if ((HeartbeatSeconds p <? 10) || (StaleAfterSeconds p <=? HeartbeatSeconds p))
      (Errorf "heartbeat_seconds must be at least 10 and below stale_after_seconds" []);;
    fail_if ((MinimumClosedSeconds p <? 15) || (600 <? MinimumClosedSeconds p))
      (Errorf "minimum_closed_seconds must be in 15..600" []);;
    fail_if (10 <? MaximumRecentOOMKills p) (Errorf "maximum_recent_oom_kills must be in 0..10" []);;
    check_pair "cpu_some" (CPUSomeReopen p) (CPUSomeClose p);;
    check_pair "memory_full" (MemoryFullReopen p) (MemoryFullClose p);;
    check_pair "io_full" (IOFullReopen p) (IOFullClose p).

Definition check_percent (name : string) (value : float64) : result unit :=
  fail_if ((value <f f_int 0) || (f_int 100 <f value)) (Errorf "%s must be in 0..100" [name]).

Definition Sample_Validate (s : Sample) (now : Time) (staleAfter : Duration) : result unit :=
  fail_if (IsZero (Sample_ObservedAt s) || After (Sample_ObservedAt s) (Add now Second))
    (Errorf "pressure sample timestamp is missing or in the future" []);;
  fail_if (staleAfter <? Sub now (Sample_ObservedAt s)) (Errorf "pressure sample is stale" []);;
  check_percent "cpu_some_avg10" (Sample_CPUSomeAvg10 s);;
  check_percent "memory_full_avg10" (Sample_MemoryFullAvg10 s);;
  check_percent "io_full_avg10" (Sample_IOFullAvg10 s).

Definition known_gate_state (s : GateState) : bool :=
  match s with StateOpen | StateClosed => true | OtherGateState _ => false end.

Definition State_Validate (s : State) : result unit :=
  fail_if (negb (State_SchemaVersion s =? SchemaVersion) || negb (known_gate_state (State_State s)))
    (Errorf "pressure state schema or state is invalid" []);;
  fail_if (bool_decide (State_Reason s = "") || IsZero (State_StateSince s) || IsZero (State_ObservedAt s)
           || After (State_StateSince s) (Add (State_ObservedAt s) Second))
    (Errorf "pressure state timestamps or reason are invalid" []).

(** ** The gate *)

Definition closeReason (sample : Sample) (recentOOMKills : Z) (p : Policy) : string :=
  if MaximumRecentOOMKills p <? recentOOMKills then "recent-oom"
  else if MemoryFullClose p ≤f Sample_MemoryFullAvg10 sample then "memory-pressure"
  else if CPUSomeClose p ≤f Sample_CPUSomeAvg10 sample then "cpu-pressure"
  else if IOFullClose p ≤f Sample_IOFullAvg10 sample then "io-pressure"
  else "".

Definition belowReopen (sample : Sample) (p : Policy) : bool :=
  (Sample_CPUSomeAvg10 sample ≤f CPUSomeReopen p) &&
  (Sample_MemoryFullAvg10 sample ≤f MemoryFullReopen p) &&
  (Sample_IOFullAvg10 sample ≤f IOFullReopen p).

(** The fields every outcome takes from the sample. *)
Definition observe (schema : Z) (st : GateState) (reason : string) (since : Time) (sample : Sample) : State := {|
  State_SchemaVersion := schema; State_State := st; State_Reason := reason; State_StateSince := since;
  State_ObservedAt := Sample_ObservedAt sample; State_OOMKillsTotal := Sample_OOMKillsTotal sample |}.

(** Kills since the previous state; a counter that went backwards (a reboot)
    counts as none. *)
Definition recent_oom_kills (previous : State) (sample : Sample) : Z :=
  if known_gate_state (State_State previous) && (State_OOMKillsTotal previous <=? Sample_OOMKillsTotal sample)
  then Sample_OOMKillsTotal sample - State_OOMKillsTotal previous else 0.

Definition initialised (previous : State) (sample : Sample) (now : Time) : State :=
  if known_gate_state (State_State previous) then previous
  else {| State_SchemaVersion := SchemaVersion; State_State := StateClosed; State_Reason := "initializing";
          State_StateSince := now; State_ObservedAt := zero_time;
          State_OOMKillsTotal := Sample_OOMKillsTotal sample |}.

Definition Evaluate (previous : State) (sample : Sample) (p : Policy) (now : Time) : result State :=
  Policy_Validate p;;
  Sample_Validate sample now (seconds (StaleAfterSeconds p));;
  let recent := recent_oom_kills previous sample in
  let prev := initialised previous sample now in
  let reason := closeReason sample recent p in
  if negb (bool_decide (reason = "")) then
    let since := if negb (bool_decide (State_State prev = StateClosed)) then now else State_StateSince prev in
    Ok (observe SchemaVersion StateClosed reason since sample)
  else if bool_decide (State_State prev = StateClosed) then
    if negb (belowReopen sample p) then
      Ok (observe (State_SchemaVersion prev) StateClosed "reopen-hysteresis" (State_StateSince prev) sample)
    else if Sub now (State_StateSince prev) <? seconds (MinimumClosedSeconds p) then
      Ok (observe (State_SchemaVersion prev) StateClosed "minimum-closed-period" (State_StateSince prev) sample)
    else Ok (observe SchemaVersion StateOpen "healthy" now sample)
  else Ok (observe SchemaVersion (State_State prev) "healthy" (State_StateSince prev) sample).

Definition ForceClosed (previous : State) (sample : Sample) (p : Policy) (now : Time) (reason : string) : result State :=
  Policy_Validate p;;
  Sample_Validate sample now (seconds (StaleAfterSeconds p));;
  fail_if (bool_decide (reason = "") || (64 <? String.length reason)%nat) (Errorf "forced-close reason is invalid" []);;
  let since := if negb (bool_decide (State_State previous = StateClosed)) then now else State_StateSince previous in
  Ok (observe SchemaVersion StateClosed reason since sample).

(** * Correctness of the gate *)

(** ** Policies *)

Record policy_ok (p : Policy) : Prop := {
  po_required : Required p = true;
  po_stale : 15 ≤ StaleAfterSeconds p ≤ 300;
  po_heartbeat : 10 ≤ HeartbeatSeconds p < StaleAfterSeconds p;
  po_closed : 15 ≤ MinimumClosedSeconds p ≤ 600;
}.

Lemma Policy_Validate_ok p : Policy_Validate p = Ok tt → Required p = true → policy_ok p.
Proof.
  unfold Policy_Validate. intros H Hr. rewrite Hr in H. simpl in H. inv_ok. bool_hyps. constructor; [done|lia..].
Qed.

Lemma seconds_exact n : 0 ≤ n ≤ 600 → seconds n = n * Second.
Proof. intros. apply wrap64_small. unfold in_int64, min_int64, max_int64, Second. lia. Qed.

Lemma Sub_ge t u d : min_int64 < d ≤ max_int64 → (Sub t u <? d) = false ↔ u + d ≤ t.
Proof. intros. rewrite Z.ltb_ge. unfold Sub, min_int64, max_int64 in *. lia. Qed.

(** A successful evaluation passed both validations. *)
Lemma Evaluate_validated s sample p now s' :
  Evaluate s sample p now = Ok s' →
  Policy_Validate p = Ok tt ∧ Sample_Validate sample now (seconds (StaleAfterSeconds p)) = Ok tt.
Proof. unfold Evaluate. intros H. apply bind_Ok in H as ([] & ? & ([] & ? & ?)%bind_Ok). done. Qed.

(** [Evaluate] opens or stays open only without a reason to close. *)
Lemma Evaluate_cases s sample p now s' :
  Evaluate s sample p now = Ok s' →
  State_ObservedAt s' = Sample_ObservedAt sample ∧ State_OOMKillsTotal s' = Sample_OOMKillsTotal sample ∧
  let quiet := closeReason sample (recent_oom_kills s sample) p = "" in
  match State_State s' with
  | StateOpen => State_Reason s' = "healthy" ∧ quiet ∧ State_SchemaVersion s' = SchemaVersion ∧
      (State_State s = StateOpen ∧ State_StateSince s' = State_StateSince s ∨
       State_State s = StateClosed ∧ belowReopen sample p = true ∧
       (Sub now (State_StateSince s) <? seconds (MinimumClosedSeconds p)) = false ∧ State_StateSince s' = now ∨
       known_gate_state (State_State s) = false ∧ (Sub now now <? seconds (MinimumClosedSeconds p)) = false ∧
       State_StateSince s' = now)
  | StateClosed => State_Reason s' ≠ "" ∧
      (¬ quiet ∨ State_State s ≠ StateOpen) ∧
      State_StateSince s' = (if bool_decide (State_State s = StateClosed) then State_StateSince s else now) ∧
      (State_SchemaVersion s' = SchemaVersion ∨ State_State s = StateClosed ∧ State_SchemaVersion s' = State_SchemaVersion s)
  | OtherGateState _ => False
  end.
Proof.
  unfold Evaluate, initialised. intros H. apply bind_Ok in H as ([] & _ & ([] & _ & H)%bind_Ok).
  case_bool_decide as Hq; simpl in H.
  2:{ injection H as <-. simpl. split_and!; try done; [by left| |by left].
      destruct (State_State s) eqn:Hs; simpl; rewrite ?Hs; done. }
  destruct (State_State s) eqn:Hs; simpl in H; rewrite ?Hs in H; simpl in H.
  - injection H as <-. simpl. split_and!; try done. by left.
  - destruct (belowReopen sample p) eqn:Hb; simpl in H.
    + destruct (Sub now (State_StateSince s) <? seconds (MinimumClosedSeconds p)) eqn:Hm; simplify_eq; simpl.
      * split_and!; try done; auto.
      * split_and!; try done. right; left. done.
    + injection H as <-. simpl. split_and!; try done; auto.
  - destruct (belowReopen sample p) eqn:Hb; simpl in H.
    + destruct (Sub now now <? seconds (MinimumClosedSeconds p)) eqn:Hm; simplify_eq; simpl.
      * split_and!; try done; auto.
      * split_and!; try done. right; right. done.
    + injection H as <-. simpl. split_and!; try done; auto.
Qed.

Lemma closed_period p : policy_ok p →
  seconds (MinimumClosedSeconds p) = MinimumClosedSeconds p * Second ∧
  0 < MinimumClosedSeconds p * Second ≤ max_int64.
Proof.
  intros []. rewrite seconds_exact by lia. split; [done|]. unfold Second, max_int64. lia.
Qed.

(** ** Hysteresis over a history *)

(** The evaluations and forced closures a gate went through, latest first, each
    with its time and resulting state. *)
Inductive gate_run (p : Policy) : list (Time * GateState) → State → Prop :=
  | run_start : gate_run p [] zero_State
  | run_evaluate h s sample now s' :
      gate_run p h s → Evaluate s sample p now = Ok s' → gate_run p ((now, State_State s') :: h) s'
  | run_force h s sample now reason s' :
      gate_run p h s → ForceClosed s sample p now reason = Ok s' → gate_run p ((now, State_State s') :: h) s'.

(** When the current run of closed states began. *)
Fixpoint closed_since (h : list (Time * GateState)) : option Time :=
  match h with
  | (t, StateClosed) :: h => match closed_since h with Some t0 => Some t0 | None => Some t end
  | _ => None
  end.

Lemma ForceClosed_cases s sample p now reason s' :
  ForceClosed s sample p now reason = Ok s' →
  State_State s' = StateClosed ∧ State_Reason s' = reason ∧
  State_StateSince s' = (if bool_decide (State_State s = StateClosed) then State_StateSince s else now) ∧
  State_OOMKillsTotal s' = Sample_OOMKillsTotal sample.
Proof.
  unfold ForceClosed. intros H. apply bind_Ok in H as ([] & _ & ([] & _ & ([] & _ & [= <-])%bind_Ok)%bind_Ok).
  simpl. by case_bool_decide.
Qed.

Lemma gate_run_since p h s :
  gate_run p h s →
  match State_State s with
  | StateClosed => closed_since h = Some (State_StateSince s)
  | StateOpen => closed_since h = None ∧ h ≠ []
  | OtherGateState _ => h = [] ∧ s = zero_State
  end.
Proof.
  assert (∀ h s s' now, match State_State s with
    | StateClosed => closed_since h = Some (State_StateSince s)
    | StateOpen => closed_since h = None ∧ h ≠ []
    | OtherGateState _ => h = [] ∧ s = zero_State end →
    State_StateSince s' = (if bool_decide (State_State s = StateClosed) then State_StateSince s else now) →
    closed_since ((now, StateClosed) :: h) = Some (State_StateSince s')) as Hclose.
  { intros h0 s0 s' now IH Hsince. simpl. rewrite Hsince. destruct (State_State s0); simpl in *.
    - by destruct IH as [-> _].
    - by rewrite IH.
    - by destruct IH as [-> _]. }
  induction 1 as [|h s sample now s' Hrun IH HE|h s sample now reason s' Hrun IH HE]; [done|..].
  - apply Evaluate_cases in HE as (_ & _ & HE). destruct (State_State s') eqn:Hs'; [done| |done].
    apply (Hclose h s s' now IH). apply HE.
  - apply ForceClosed_cases in HE as (Hs' & _ & Hsince & _). rewrite Hs'. by apply (Hclose h s s' now IH).
Qed.

Lemma gate_run_head p h s : gate_run p h s → h ≠ [] → ∃ t, head h = Some (t, State_State s).
Proof. intros [] ?; [done|simpl; eauto..]. Qed.

(** the gate does not flap. In every history of evaluations and forced
    closures, with samples and clock readings of any kind, a gate that opens was
    either open already or had been closed, without interruption, for at least
    the policy's minimum closed period; it never starts open. *)
Theorem gate_reopens_late p h t s :
  Required p = true → gate_run p ((t, StateOpen) :: h) s →
  (∃ t', head h = Some (t', StateOpen)) ∨
  (∃ since, closed_since h = Some since ∧ since + MinimumClosedSeconds p * Second ≤ t).
Proof.
  intros Hr Hrun. inversion Hrun as [|h0 s0 sample now s' Hrun0 HE|h0 s0 sample now reason s' Hrun0 HE]; subst.
  - pose proof (Evaluate_validated _ _ _ _ _ HE) as [Hp _]. pose proof (Policy_Validate_ok p Hp Hr) as Hok.
    destruct (closed_period p Hok) as [Hsec Hrange]. pose proof (gate_run_since p h s0 Hrun0) as Hsince.
    apply Evaluate_cases in HE as (_ & _ & HE). rewrite H0 in HE. destruct HE as (_ & _ & _ & [[Hs _]|[(Hs & _ & Hm & _)|(_ & Hm & _)]]).
    + left. rewrite Hs in Hsince. destruct Hsince as [_ Hne]. destruct (gate_run_head p h s0 Hrun0 Hne) as [t' Ht'].
      exists t'. rewrite Ht'. congruence.
    + right. rewrite Hs in Hsince. exists (State_StateSince s0). split; [done|].
      rewrite Hsec in Hm. apply Sub_ge in Hm; [done|]. unfold min_int64. lia.
    + exfalso. rewrite Hsec in Hm. apply Sub_ge in Hm; [lia|]. unfold min_int64. lia.
  - apply ForceClosed_cases in HE as (Hs & _). congruence.
Qed.

(** what one evaluation decides. With a valid policy and sample it always
    returns, and the gate is open afterwards exactly when no threshold for
    closing is reached and it was open before, or it was closed, every value is
    below its reopening threshold and the minimum closed period has passed. *)
Theorem Evaluate_opens_iff s sample p now :
  Policy_Validate p = Ok tt → Required p = true →
  Sample_Validate sample now (seconds (StaleAfterSeconds p)) = Ok tt →
  ∃ s', Evaluate s sample p now = Ok s' ∧
    (State_State s' = StateOpen ↔
       closeReason sample (recent_oom_kills s sample) p = "" ∧
       (State_State s = StateOpen ∨
        State_State s = StateClosed ∧ belowReopen sample p = true ∧
        State_StateSince s + MinimumClosedSeconds p * Second ≤ now)) ∧
    (State_State s' ≠ StateOpen → State_State s' = StateClosed).
Proof.
  intros Hp Hr Hv. destruct (closed_period p (Policy_Validate_ok p Hp Hr)) as [Hsec Hrange].
  assert (∀ u, (Sub now u <? MinimumClosedSeconds p * Second) = false ↔ u + MinimumClosedSeconds p * Second ≤ now) as Hsub.
  { intros u. apply Sub_ge. unfold min_int64. lia. }
  unfold Evaluate, initialised. rewrite Hp, Hv. simpl. rewrite Hsec.
  case_bool_decide as Hq; simpl; [|eexists; split; [done|]; simpl; naive_solver].
  destruct (State_State s) eqn:Hs; simpl; rewrite ?Hs; simpl.
  - eexists. split; [done|]. simpl. naive_solver.
  - destruct (belowReopen sample p); simpl; [|eexists; split; [done|]; simpl; naive_solver].
    destruct (Sub now (State_StateSince s) <? MinimumClosedSeconds p * Second) eqn:Hm.
    + eexists. split; [done|]. simpl. split; [|done]. split; [done|].
      intros (_ & [?|(_ & _ & Hle%Hsub)]); congruence.
    + apply Hsub in Hm. eexists. split; [done|]. simpl. naive_solver.
  - destruct (belowReopen sample p); simpl; [|eexists; split; [done|]; simpl; naive_solver].
    destruct (Sub now now <? MinimumClosedSeconds p * Second) eqn:Hm; [|apply Hsub in Hm; lia].
    eexists. split; [done|]. simpl. naive_solver.
Qed.

(** what the gate stores can always be read back. The state left by an
    evaluation or a forced closure passes the validation that the next run
    applies to the stored file, provided the stored state it started from did
    (or there was none) and the sample is at most a second old; every later
    transition time is then at most a second after its observation. *)
Theorem gate_state_reloads s sample p now s' :
  s = zero_State ∨ State_Validate s = Ok tt →
  now ≤ Sample_ObservedAt sample + Second → now ≠ zero_time →
  State_ObservedAt s ≤ Sample_ObservedAt sample →
  (Evaluate s sample p now = Ok s' ∨ ∃ reason, ForceClosed s sample p now reason = Ok s') →
  State_Validate s' = Ok tt.
Proof.
  intros Hs Hnow Hnz Hmono Hstep.
  assert (Sample_ObservedAt sample ≠ zero_time ∧ State_Reason s' ≠ "" ∧ known_gate_state (State_State s') = true ∧
    (State_SchemaVersion s' = SchemaVersion ∨ State_State s = StateClosed ∧ State_SchemaVersion s' = State_SchemaVersion s) ∧
    State_ObservedAt s' = Sample_ObservedAt sample ∧
    (State_StateSince s' = now ∨ known_gate_state (State_State s) = true ∧ State_StateSince s' = State_StateSince s))
    as (Ho & Hreason & Hknown & Hschema & Hobs & Hsince).
  { assert (∀ d, Sample_Validate sample now d = Ok tt → Sample_ObservedAt sample ≠ zero_time) as Hnonzero.
    { intros d H. unfold Sample_Validate in H. apply bind_Ok in H as ([] & H & _). apply fail_if_Ok in H.
      bool_hyps. unfold IsZero in *. by bool_hyps. }
    destruct Hstep as [HE|[reason HF]].
    - pose proof (Evaluate_validated _ _ _ _ _ HE) as [_ ?%Hnonzero].
      apply Evaluate_cases in HE as (? & _ & HE). split; [done|]. destruct (State_State s'); [| |done].
      + destruct HE as (-> & _ & ? & Hc). split_and!; try done; [by left|].
        destruct Hc as [[-> ->]|[(_ & _ & _ & ->)|(_ & _ & ->)]]; [by right|by left|by left].
      + destruct HE as (? & _ & -> & ?). split_and!; try done. case_bool_decide as Hc; [right|by left].
        by rewrite Hc.
    - unfold ForceClosed in HF. apply bind_Ok in HF as ([] & _ & ([] & ?%Hnonzero & ([] & Hr & [= <-])%bind_Ok)%bind_Ok).
      apply fail_if_Ok in Hr. bool_hyps. simpl. split_and!; try done; [by left|].
      case_bool_decide as Hc; simpl; [right; by rewrite Hc|by left]. }
  assert (known_gate_state (State_State s) = true → State_Validate s = Ok tt) as Hsv by (destruct Hs as [->|]; done).
  assert (State_Validate s = Ok tt → State_SchemaVersion s = SchemaVersion ∧
    State_StateSince s ≠ zero_time ∧ State_StateSince s ≤ State_ObservedAt s + Second) as Hfacts.
  { unfold State_Validate, IsZero, After, Add. intros H. inv_ok. bool_hyps. split_and!; [lia|done|lia]. }
  assert (State_SchemaVersion s' = SchemaVersion) as Hsch.
  { destruct Hschema as [?|[Hc ->]]; [done|]. by rewrite Hc in Hsv; apply Hfacts, Hsv. }
  unfold State_Validate, IsZero, After, Add. rewrite Hsch, Hknown, Hobs, Z.eqb_refl. simpl.
  assert (State_StateSince s' ≠ zero_time) as Hsz by (destruct Hsince as [->|[Hk%Hsv%Hfacts ->]]; [done|apply Hk]).
  rewrite (bool_decide_eq_false_2 (State_Reason s' = "")), (bool_decide_eq_false_2 (State_StateSince s' = zero_time)),
    (bool_decide_eq_false_2 (Sample_ObservedAt sample = zero_time)) by done. simpl.
  apply fail_if_Ok, Z.ltb_ge. destruct Hsince as [->|[Hk%Hsv%Hfacts ->]]; [done|lia].
Qed.

(** ** Witnesses *)

Definition example_gate_policy : Policy := {|
  Required := true; StaleAfterSeconds := 60; HeartbeatSeconds := 30; MinimumClosedSeconds := 30;
  CPUSomeClose := f_int 60; CPUSomeReopen := f_int 40; MemoryFullClose := f_int 10; MemoryFullReopen := f_int 5;
  IOFullClose := f_int 20; IOFullReopen := f_int 10; MaximumRecentOOMKills := 0 |}.
Definition example_sample (at_ : Time) (cpu : Z) (kills : Z) : Sample := {|
  Sample_ObservedAt := at_; Sample_CPUSomeAvg10 := f_int cpu; Sample_MemoryFullAvg10 := f_int 0;
  Sample_IOFullAvg10 := f_int 0; Sample_OOMKillsTotal := kills |}.
Definition example_closed (since at_ : Time) : State := {|
  State_SchemaVersion := 1; State_State := StateClosed; State_Reason := "cpu-pressure";
  State_StateSince := since; State_ObservedAt := at_; State_OOMKillsTotal := 0 |}.

Definition gate_or_zero (m : result State) : State := match m with Ok s => s | Err _ => zero_State end.
(** First evaluated at 100 s, still closed; open at 140 s. *)
Definition example_first : State :=
  gate_or_zero (Evaluate zero_State (example_sample (100 * Second) 5 0) example_gate_policy (100 * Second)).
Definition example_second : State :=
  gate_or_zero (Evaluate example_first (example_sample (140 * Second) 5 0) example_gate_policy (140 * Second)).

Lemma gate_reopens_late_witness :
  gate_run example_gate_policy [(140 * Second, StateOpen); (100 * Second, StateClosed)] example_second ∧
  ((∃ t', head [(100 * Second, StateClosed)] = Some (t', StateOpen)) ∨
   (∃ since, closed_since [(100 * Second, StateClosed)] = Some since ∧
      since + MinimumClosedSeconds example_gate_policy * Second ≤ 140 * Second)).
Proof.
  assert (gate_run example_gate_policy [(140 * Second, StateOpen); (100 * Second, StateClosed)] example_second) as Hrun.
  { apply (run_evaluate _ _ example_first (example_sample (140 * Second) 5 0) (140 * Second) example_second);
      [|vm_compute; reflexivity].
    apply (run_evaluate _ _ zero_State (example_sample (100 * Second) 5 0) (100 * Second) example_first);
      [constructor|vm_compute; reflexivity]. }
  split; [exact Hrun|].
  exact (gate_reopens_late example_gate_policy _ _ example_second eq_refl Hrun).
Defined.

Lemma Evaluate_opens_iff_witness :
  ∃ s', Evaluate (example_closed (100 * Second) (120 * Second)) (example_sample (140 * Second) 5 0)
          example_gate_policy (140 * Second) = Ok s' ∧ State_State s' = StateOpen.
Proof.
  destruct (Evaluate_opens_iff (example_closed (100 * Second) (120 * Second)) (example_sample (140 * Second) 5 0)
    example_gate_policy (140 * Second)) as (s' & HE & Hopen & _).
  - vm_compute. reflexivity.
  - reflexivity.
  - vm_compute. reflexivity.
  - exists s'. split; [exact HE|]. apply Hopen. split; [vm_compute; reflexivity|].
    right. split; [reflexivity|]. split; [vm_compute; reflexivity|]. vm_compute. discriminate.
Defined.

Lemma gate_state_reloads_witness : State_Validate example_second = Ok tt.
Proof.
  apply (gate_state_reloads example_first (example_sample (140 * Second) 5 0) example_gate_policy (140 * Second)).
  - right. vm_compute. reflexivity.
  - vm_compute. discriminate.
  - vm_compute. discriminate.
  - vm_compute. discriminate.
  - left. vm_compute. reflexivity.
Defined.
