(* ===== verification/PressurePublish.v ===== *)
(** * Publishing the gate ([src/internal/pressurepublish/publish.go], the drain
    marker of [src/internal/pressuregate/pressure.go], and the publisher command
    of [src/cmd/gha-fleet/main.go])

    One publisher cycle loads the stored gate state, evaluates the gate, writes
    the cluster member's scheduler setting and pressure metadata, and stores the
    new state. A drain marker beside the state file turns every cycle into a
    forced closure. *)

From Stdlib Require Import QArith_base Qround.
From S2P Require Import Prelude PressureGate.

Local Open Scope Z_scope.
Local Open Scope go_scope.

(** ** Member metadata

    A config string is kept as the value it renders: a UTC time in RFC 3339 with
    nanoseconds, a [float64] in its shortest decimal form, an unsigned number in
    base ten (all three renderings are exact), or any other text. *)
Inductive ConfigValue :=
  | Stamp (t : Time)
  | Number (f : float64)
  | Count (n : Z)
  | Text (s : string).

Abbreviation Config := (gmap string ConfigValue).

(** Reading a missing key of the map yields the empty string. *)
Definition get (values : Config) (key : string) : ConfigValue := default (Text "") (values !! key).

Definition ParseTime (v : ConfigValue) : option Time :=
  match v with Stamp t => Some t | _ => None end.
Definition ParseFloat (v : ConfigValue) : option float64 :=
  match v with Number f => Some f | Count n => Some (f_int n) | _ => None end.
Definition ParseUint (v : ConfigValue) : option Z :=
  match v with
  | Count n => Some n
  | Number (Finite q) =>
      let n := Qround.Qfloor q in
      if Qeq_bool q (inject_Z n) && (0 <=? n) && (n <=? max_uint64) then Some n else None
  | _ => None
  end.

Definition GateState_string (s : GateState) : string :=
  match s with StateOpen => "open" | StateClosed => "closed" | OtherGateState s => s end.
Definition GateState_of (s : string) : GateState :=
  if bool_decide (s = "open") then StateOpen else if bool_decide (s = "closed") then StateClosed
  else OtherGateState s.

Definition MetadataSchema := "user.gha_pressure.schema".
Definition MetadataState := "user.gha_pressure.state".
Definition MetadataReason := "user.gha_pressure.reason".
Definition MetadataObservedAt := "user.gha_pressure.observed_at".
Definition MetadataStateSince := "user.gha_pressure.state_since".
Definition MetadataCPUSome := "user.gha_pressure.cpu_some_avg10".
Definition MetadataMemoryFull := "user.gha_pressure.memory_full_avg10".
Definition MetadataIOFull := "user.gha_pressure.io_full_avg10".
Definition MetadataOOMKills := "user.gha_pressure.oom_kills_total".

Definition Metadata (state : State) (sample : Sample) : Config :=
  list_to_map [
    (MetadataSchema, Count SchemaVersion);
    (MetadataState, Text (GateState_string (State_State state)));
    (MetadataReason, Text (State_Reason state));
    (MetadataObservedAt, Stamp (Sample_ObservedAt sample));
    (MetadataStateSince, Stamp (State_StateSince state));
    (MetadataCPUSome, Number (Sample_CPUSomeAvg10 sample));
    (MetadataMemoryFull, Number (Sample_MemoryFullAvg10 sample));
    (MetadataIOFull, Number (Sample_IOFullAvg10 sample));
    (MetadataOOMKills, Count (Sample_OOMKillsTotal sample))].

Definition text_of (v : ConfigValue) : string := match v with Text s => s | _ => "?" end.

Definition parsed {A} (format : string) (o : option A) : result A :=
  match o with Some a => Ok a | None => Err (Wrapf format [] (Errorf "invalid syntax" [])) end.

Definition is_schema (v : ConfigValue) : bool :=
  match v with Count n => n =? SchemaVersion | _ => false end.

Definition ParseMetadata (values : Config) (p : Policy) (now : Time) : result (State * Sample) :=
  fail_if (negb (is_schema (get values MetadataSchema)))
    (Errorf "pressure metadata schema is missing or unsupported" []);;
  observedAt ← parsed "parse pressure observed_at: %w" (ParseTime (get values MetadataObservedAt));
  stateSince ← parsed "parse pressure state_since: %w" (ParseTime (get values MetadataStateSince));
  cpu ← parsed "parse %s: %w" (ParseFloat (get values MetadataCPUSome));
  memory ← parsed "parse %s: %w" (ParseFloat (get values MetadataMemoryFull));
  ioFull ← parsed "parse %s: %w" (ParseFloat (get values MetadataIOFull));
  oom ← parsed "parse %s: %w" (ParseUint (get values MetadataOOMKills));
  let sample := {| Sample_ObservedAt := observedAt; Sample_CPUSomeAvg10 := cpu; Sample_MemoryFullAvg10 := memory;
                   Sample_IOFullAvg10 := ioFull; Sample_OOMKillsTotal := oom |} in
  Sample_Validate sample now (seconds (StaleAfterSeconds p));;
  let state := {| State_SchemaVersion := SchemaVersion;
                  State_State := GateState_of (text_of (get values MetadataState));
                  State_Reason := text_of (get values MetadataReason); State_StateSince := stateSince;
                  State_ObservedAt := observedAt; State_OOMKillsTotal := oom |} in
  State_Validate state;;
  Ok (state, sample).

(** ** The drain marker *)

Inductive MarkerFile :=
  | NoMarker
  | Marker (reason : string) (since : Time)
  | BadMarker (e : error).

Definition ReadDrainMarker (f : MarkerFile) : result (option string) :=
  match f with
  | NoMarker => Ok None
  | BadMarker e => Err e
  | Marker reason _ =>
      fail_if (bool_decide (reason = "")) (Errorf "drain marker carries no reason" []);; Ok (Some reason)
  end.

(** [fault] is an error of writing the temporary file or of the final rename;
    either leaves the marker as it was. *)
Definition WriteDrainMarker (fault : option error) (reason : string) (now : Time) (f : MarkerFile)
    : MarkerFile * result unit :=
  if bool_decide (reason = "") then (f, Err (Errorf "a drain marker requires a reason" []))
  else match fault with
       | Some e => (f, Err (Wrapf "write drain marker: %w" [] e))
       | None => (Marker reason now, Ok tt)
       end.

Definition ClearDrainMarker (fault : option error) (f : MarkerFile) : MarkerFile * result unit :=
  match f, fault with
  | NoMarker, _ => (NoMarker, Ok tt)
  | _, Some e => (f, Err (Wrapf "clear drain marker: %w" [] e))
  | _, None => (NoMarker, Ok tt)
  end.

(** ** One cycle *)

(** The member's host: the stored gate state, the drain marker and the member's
    config in the cluster. *)
Inductive StateFile :=
  | NoStateFile
  | Stored (s : State)
  | Unreadable (e : error).

Record Host := {
  host_state : StateFile;
  host_marker : MarkerFile;
  host_config : Config;
}.
Definition with_state (f : StateFile) (h : Host) : Host :=
  {| host_state := f; host_marker := host_marker h; host_config := host_config h |}.
Definition with_marker (f : MarkerFile) (h : Host) : Host :=
  {| host_state := host_state h; host_marker := f; host_config := host_config h |}.
Definition with_config (c : Config) (h : Host) : Host :=
  {| host_state := host_state h; host_marker := host_marker h; host_config := c |}.

(** What the outside answers during a cycle: the context, reading and updating
    the member, and a fault while storing the state, before the rename (the old
    file stays) or after it (syncing the directory). *)
Inductive SaveFault := BeforeRename (e : error) | AfterRename (e : error).
Record PublishEnv := {
  env_context : result unit;
  env_member : result string;
  env_update : result unit;
  env_save : option SaveFault;
  env_clock : Time;
}.

Record PublishOptions := {
  MemberName : string;
  StatePath : string;
  Opt_Policy : Policy;
  Opt_Sample : Sample;
  Apply : bool;
  ForceCloseReason : string;
  Opt_Now : Time;
}.

Record PublishResult := {
  Res_State : State;
  Res_Metadata : Config;
  Scheduler : string;
  Changed : bool;
  Applied : bool;
}.

Definition loadState (f : StateFile) : result State :=
  match f with
  | NoStateFile => Ok zero_State
  | Unreadable e => Err e
  | Stored s => State_Validate s;; Ok s
  end.

Definition saveState (fault : option SaveFault) (s : State) (h : Host) : Host * result unit :=
  match fault with
  | None => (with_state (Stored s) h, Ok tt)
  | Some (BeforeRename e) => (h, Err e)
  | Some (AfterRename e) => (with_state (Stored s) h, Err e)
  end.

Definition SchedulerKey := "scheduler.instance".

(** The member's config after publishing: its own keys set, all others kept. *)
Definition published (scheduler : string) (metadata config : Config) : Config :=
  metadata ∪ <[SchedulerKey := Text scheduler]> config.

Definition owned_scheduler (v : ConfigValue) : bool :=
  match v with
  | Text s => bool_decide (s = "") || bool_decide (s = "all") || bool_decide (s = "manual")
  | _ => false
  end.

Definition same_text (v : ConfigValue) (s : string) : bool :=
  match v with Text t => bool_decide (t = s) | _ => false end.

Definition next_state (o : PublishOptions) (previous : State) (now : Time) : result State :=
  if negb (bool_decide (ForceCloseReason o = ""))
  then ForceClosed previous (Opt_Sample o) (Opt_Policy o) now (ForceCloseReason o)
  else Evaluate previous (Opt_Sample o) (Opt_Policy o) now.

Definition heartbeat_due (o : PublishOptions) (config : Config) (now : Time) : bool :=
  match ParseTime (get config MetadataObservedAt) with
  | None => true
  | Some last => seconds (HeartbeatSeconds (Opt_Policy o)) <=? Sub now last
  end.

(** The checks and the plan, before anything is written. *)
Definition plan_publish (env : PublishEnv) (o : PublishOptions) (h : Host) : result PublishResult :=
  env_context env;;
  fail_if (bool_decide (MemberName o = "") || negb (HasPrefix (StatePath o) "/"))
    (Errorf "pressure publisher requires a client, member name and absolute state path" []);;
  let now := if IsZero (Opt_Now o) then env_clock env else Opt_Now o in
  previous ← loadState (host_state h);
  state ← next_state o previous now;
  serverName ← wrap_err "read Incus cluster member %q: %w" (env_member env);
  fail_if (negb (bool_decide (serverName = MemberName o)))
    (Errorf "Incus returned cluster member %q for %q" [serverName; MemberName o]);;
  let config := host_config h in
  let scheduler := if bool_decide (State_State state = StateOpen) then "all" else "manual" in
  fail_if (negb (owned_scheduler (get config SchedulerKey)))
    (Errorf "cluster member scheduler.instance=%q is outside pressure-gate ownership" []);;
  let stateChanged :=
    negb (same_text (get config SchedulerKey) scheduler) ||
    negb (is_schema (get config MetadataSchema)) ||
    negb (same_text (get config MetadataState) (GateState_string (State_State state))) ||
    negb (same_text (get config MetadataReason) (State_Reason state)) in
  Ok {| Res_State := state; Res_Metadata := Metadata state (Opt_Sample o); Scheduler := scheduler;
        Changed := stateChanged || heartbeat_due o config now; Applied := false |}.

Definition Reconcile (env : PublishEnv) (o : PublishOptions) (h : Host) : Host * result PublishResult :=
  match plan_publish env o h with
  | Err e => (h, Err e)
  | Ok res =>
      if negb (Apply o) then (h, Ok res)
      else
        let update := if Changed res then env_update env else Ok tt in
        match update with
        | Err e => (h, Err (Wrapf "publish Incus pressure state for %q: %w" [MemberName o] e))
        | Ok _ =>
            let h1 := if Changed res
                      then with_config (published (Scheduler res) (Res_Metadata res) (host_config h)) h else h in
            let '(h2, saved) := saveState (env_save env) (Res_State res) h1 in
            (h2, match saved with
                 | Err e => Err e
                 | Ok _ => Ok {| Res_State := Res_State res; Res_Metadata := Res_Metadata res;
                                 Scheduler := Scheduler res; Changed := Changed res; Applied := true |}
                 end)
        end
  end.

(** The sample a forced closure publishes: nothing is read from the host. *)
Definition zero_sample (now : Time) : Sample := {|
  Sample_ObservedAt := now; Sample_CPUSomeAvg10 := f_int 0; Sample_MemoryFullAvg10 := f_int 0;
  Sample_IOFullAvg10 := f_int 0; Sample_OOMKillsTotal := 0 |}.

(** [runPublishPressure] after its flags and config are read: [probe] is what
    collecting the host's pressure yields, stamped with the cycle's time. *)
Definition publish_cycle (env : PublishEnv) (member path : string) (p : Policy) (apply : bool)
    (forceClose : string) (probe : result Sample) (h : Host) : Host * result PublishResult :=
  let now := env_clock env in
  match (if bool_decide (forceClose = "")
         then marker ← ReadDrainMarker (host_marker h);
              Ok (match marker with Some reason => "drained: " +:+ reason | None => "" end)
         else Ok forceClose) with
  | Err e => (h, Err e)
  | Ok force =>
      match (if bool_decide (force = "") then probe else Ok (zero_sample now)) with
      | Err e => (h, Err e)
      | Ok sample =>
          Reconcile env {| MemberName := member; StatePath := path; Opt_Policy := p; Opt_Sample := sample;
                           Apply := apply; ForceCloseReason := force; Opt_Now := now |} h
      end
  end.

(** [pressureGate.publish] and its two callers. *)
Definition gate_publish (env : PublishEnv) (member path : string) (p : Policy) (sample : Sample) (reason : string)
    (h : Host) : Host * result string :=
  let '(h', res) := Reconcile env {| MemberName := member; StatePath := path; Opt_Policy := p; Opt_Sample := sample;
                                     Apply := true; ForceCloseReason := reason; Opt_Now := env_clock env |} h in
  (h', r ← res; Ok (Scheduler r)).

Definition ForceClose (env : PublishEnv) (member path : string) (p : Policy) (reason : string) (h : Host)
    : Host * result string :=
  gate_publish env member path p (zero_sample (env_clock env)) reason h.

Definition Reopen (env : PublishEnv) (member path : string) (p : Policy) (probe : result Sample) (h : Host)
    : Host * result string :=
  match probe with
  | Err e => (h, Err e)
  | Ok sample => gate_publish env member path p sample "" h
  end.

(** * Correctness *)

(** ** Metadata round trip *)

Lemma GateState_roundtrip s : known_gate_state s = true → GateState_of (GateState_string s) = s.
Proof. by destruct s. Qed.

Lemma State_Validate_known s :
  State_Validate s = Ok tt → State_SchemaVersion s = SchemaVersion ∧ known_gate_state (State_State s) = true.
Proof. unfold State_Validate. intros H. inv_ok. bool_hyps. split; [lia|done]. Qed.

Lemma get_published scheduler metadata config key v :
  metadata !! key = Some v → get (published scheduler metadata config) key = v.
Proof. intros H. unfold get, published. by rewrite (lookup_union_Some_l _ _ _ _ H). Qed.

(** what a member publishes is what the controller reads. Parsing a config
    into which a valid state and the sample it was computed from were published,
    whatever else the config holds, gives back that state and that sample while
    the sample is fresh. *)
Theorem metadata_roundtrip state sample scheduler config p now :
  State_Validate state = Ok tt →
  State_ObservedAt state = Sample_ObservedAt sample → State_OOMKillsTotal state = Sample_OOMKillsTotal sample →
  Sample_Validate sample now (seconds (StaleAfterSeconds p)) = Ok tt →
  ParseMetadata (published scheduler (Metadata state sample) config) p now = Ok (state, sample).
Proof.
  intros Hv Hobs Hoom Hs. destruct (State_Validate_known state Hv) as [Hschema Hknown].
  unfold ParseMetadata.
  repeat (erewrite get_published by (unfold Metadata; simpl; by simplify_map_eq)). simpl.
  rewrite GateState_roundtrip by done. destruct state, sample; simpl in *; subst. by rewrite Hs, Hv.
Qed.

(** ** A drained member stays closed *)

Lemma next_state_forced o previous now s :
  ForceCloseReason o ≠ "" → next_state o previous now = Ok s →
  State_State s = StateClosed ∧ State_Reason s = ForceCloseReason o.
Proof.
  intros Hr. unfold next_state. rewrite bool_decide_eq_false_2 by done. simpl.
  intros (? & ? & _)%ForceClosed_cases. done.
Qed.

Lemma plan_publish_state env o h res :
  plan_publish env o h = Ok res →
  ∃ previous now, loadState (host_state h) = Ok previous ∧ next_state o previous now = Ok (Res_State res) ∧
    Scheduler res = (if bool_decide (State_State (Res_State res) = StateOpen) then "all" else "manual") ∧
    Res_Metadata res = Metadata (Res_State res) (Opt_Sample o) ∧
    (Changed res = false → get (host_config h) SchedulerKey = Text (Scheduler res)).
Proof.
  unfold plan_publish. intros H. apply bind_Ok in H as ([] & _ & H). apply bind_Ok in H as ([] & _ & H).
  apply bind_Ok in H as (prev & Hprev & H). apply bind_Ok in H as (st & Hst & H).
  apply bind_Ok in H as (name & _ & H). apply bind_Ok in H as ([] & _ & H). apply bind_Ok in H as ([] & _ & H).
  injection H as <-. simpl. eexists prev, _. split_and!; try done. intros Hch. bool_hyps.
  unfold same_text in *. destruct (get (host_config h) SchedulerKey); try done. bool_hyps. congruence.
Qed.

Lemma published_scheduler state sample scheduler config :
  get (published scheduler (Metadata state sample) config) SchedulerKey = Text scheduler.
Proof.
  unfold get, published. rewrite lookup_union_r; [by rewrite lookup_insert_eq|].
  unfold Metadata. simpl. by rewrite !lookup_insert_ne.
Qed.

(** Every cycle keeps the marker, and either leaves the config alone or
    publishes the state it computed. *)
Lemma Reconcile_effect env o h h' res :
  Reconcile env o h = (h', res) →
  host_marker h' = host_marker h ∧
  (host_config h' = host_config h ∨
   ∃ r, plan_publish env o h = Ok r ∧ host_config h' = published (Scheduler r) (Res_Metadata r) (host_config h)).
Proof.
  unfold Reconcile. destruct (plan_publish env o h) as [r|e] eqn:Hp; [|intros [= <- _]; auto].
  destruct (negb (Apply o)); [intros [= <- _]; auto|].
  destruct (if Changed r then env_update env else Ok tt); [|intros [= <- _]; auto].
  unfold saveState. destruct (Changed r), (env_save env) as [[]|]; intros [= <- _]; simpl; split; eauto.
Qed.

(** A successful applied cycle leaves the scheduler setting it reports. *)
Lemma Reconcile_applied env o h h' r :
  Apply o = true → Reconcile env o h = (h', Ok r) →
  get (host_config h') SchedulerKey = Text (Scheduler r) ∧ host_state h' = Stored (Res_State r) ∧
  ∃ previous now, loadState (host_state h) = Ok previous ∧ next_state o previous now = Ok (Res_State r) ∧
    Scheduler r = (if bool_decide (State_State (Res_State r) = StateOpen) then "all" else "manual").
Proof.
  intros Ha. unfold Reconcile. rewrite Ha. simpl. destruct (plan_publish env o h) as [r0|e] eqn:Hp; [|done].
  apply plan_publish_state in Hp as (prev & now & Hprev & Hst & Hsch & Hmeta & Hsame).
  destruct (Changed r0) eqn:Hc; [destruct (env_update env); [|done]|];
    unfold saveState; destruct (env_save env) as [[]|]; intros [= <- <-]; simpl; split_and!; eauto.
  by rewrite Hmeta, published_scheduler.
Qed.

Definition drained (h : Host) : Prop :=
  (∃ reason since, reason ≠ "" ∧ host_marker h = Marker reason since) ∧
  get (host_config h) SchedulerKey = Text "manual".

Lemma publish_cycle_drained env member path p apply probe h :
  drained h → drained (publish_cycle env member path p apply "" probe h).1.
Proof.
  intros [(reason & since & Hne & Hm) Hs]. unfold publish_cycle. rewrite Hm. simpl.
  rewrite (bool_decide_eq_false_2 (reason = "")) by done. simpl.
  match goal with |- context [Reconcile env ?o h] => set (opts := o) end.
  destruct (Reconcile env opts h) as [h' res] eqn:E. simpl.
  destruct (Reconcile_effect _ _ _ _ _ E) as [Hmk Hcfg]. split; [rewrite Hmk; eauto|].
  destruct Hcfg as [->|(r & Hp & ->)]; [done|].
  apply plan_publish_state in Hp as (prev & now & _ & Hst & Hsch & -> & _).
  apply next_state_forced in Hst as [Hst _]; [|done]. rewrite published_scheduler, Hsch, Hst. done.
Qed.

(** One run of the publisher's timer: its environment and what probing the host
    would yield. *)
Definition timer_run : Type := PublishEnv * (bool * result Sample).
Definition timer_runs (member path : string) (p : Policy) (runs : list timer_run) (h : Host) : Host :=
  foldl (λ h run, (publish_cycle run.1 member path p run.2.1 "" run.2.2 h).1) h runs.

Lemma timer_runs_drained member path p runs h :
  drained h → drained (timer_runs member path p runs h).
Proof.
  revert h. induction runs as [|[env [apply probe]] runs IH]; intros h Hd; [done|].
  simpl. apply IH. by apply publish_cycle_drained.
Qed.

(** C16: a drained member stays closed. Once the drain marker is in place and the
    member's scheduler is set to manual, no sequence of publisher cycles opens
    it again: whatever pressure is observed, whichever reads, updates and saves
    fail, and across restarts of the publisher, the marker and the closed
    scheduler remain. *)
Theorem drained_stays_closed member path p runs h :
  drained h → drained (timer_runs member path p runs h).
Proof. apply timer_runs_drained. Qed.

(** With a marker reason of more than 55 bytes no publisher cycle succeeds or
    changes anything. *)
Lemma publish_cycle_long_reason env member path p apply probe since reason h :
  (56 ≤ String.length reason)%nat → host_marker h = Marker reason since →
  (publish_cycle env member path p apply "" probe h).1 = h ∧
  is_Ok (publish_cycle env member path p apply "" probe h).2 = false.
Proof.
  intros Hlen Hm. assert (reason ≠ "") as Hne by (intros ->; simpl in Hlen; lia).
  unfold publish_cycle. rewrite Hm. simpl. rewrite (bool_decide_eq_false_2 (reason = "")) by done. simpl.
  match goal with |- context [Reconcile env ?o h] => set (opts := o) end.
  enough (is_Ok (plan_publish env opts h) = false) as Hbad.
  { unfold Reconcile. by destruct (plan_publish env opts h). }
  destruct (plan_publish env opts h) as [r|e] eqn:E; [|done].
  apply plan_publish_state in E as (prev & now & _ & Hst & _). exfalso. revert Hst.
  unfold next_state, opts. simpl. unfold ForceClosed. intros H.
  apply bind_Ok in H as ([] & _ & ([] & _ & ([] & H & _)%bind_Ok)%bind_Ok).
  apply fail_if_Ok, orb_false_iff in H as [_ H%Nat.ltb_ge]. simpl in H. change ("" +:+ reason) with reason in H. lia.
Qed.

(** a drain reason of 56 to 64 bytes stops the publisher. The drain itself
    accepts the reason, but every later publisher cycle prefixes it with
    "drained: ", exceeds the 64-byte limit and fails without publishing or
    storing anything, so the member's published state goes stale although the
    marker is there to keep it fresh. *)
Theorem long_drain_reason_stops_publisher env env' member path p apply probe since reason h :
  (56 ≤ String.length reason ≤ 64)%nat → host_marker h = Marker reason since →
  (∀ previous, Policy_Validate p = Ok tt →
     Sample_Validate (zero_sample (env_clock env')) (env_clock env') (seconds (StaleAfterSeconds p)) = Ok tt →
     is_Ok (ForceClosed previous (zero_sample (env_clock env')) p (env_clock env') reason) = true) ∧
  (publish_cycle env member path p apply "" probe h).1 = h ∧
  is_Ok (publish_cycle env member path p apply "" probe h).2 = false.
Proof.
  intros Hlen Hm.
  assert (reason ≠ "") as Hne by (intros ->; simpl in Hlen; lia).
  split.
  { intros previous Hp Hs. unfold ForceClosed. rewrite Hp, Hs. simpl.
    rewrite (bool_decide_eq_false_2 (reason = "")) by done. simpl.
    rewrite (proj2 (Nat.ltb_ge _ _)) by lia. done. }
  apply publish_cycle_long_reason with since reason; [lia|done].
Qed.

(** restoring a drained member misreports old kills. A forced closure stores
    an OOM count of zero, so the first evaluation after it sees every kill since
    boot as recent: with more kills than the policy allows, all of them before
    the drain, it keeps the gate closed with reason "recent-oom". *)
Theorem restore_reports_old_kills previous p reason closed_at s sample now :
  ForceClosed previous (zero_sample closed_at) p closed_at reason = Ok s →
  Sample_Validate sample now (seconds (StaleAfterSeconds p)) = Ok tt →
  0 ≤ MaximumRecentOOMKills p < Sample_OOMKillsTotal sample →
  ∃ s', Evaluate s sample p now = Ok s' ∧ State_State s' = StateClosed ∧ State_Reason s' = "recent-oom".
Proof.
  intros HF Hs Hk. pose proof HF as HF0. unfold ForceClosed in HF0. apply bind_Ok in HF0 as ([] & Hp & _).
  apply ForceClosed_cases in HF as (Hst & _ & _ & Hoom). simpl in Hoom.
  unfold Evaluate. rewrite Hp, Hs. simpl. unfold recent_oom_kills, initialised, closeReason.
  rewrite Hst, Hoom. simpl. rewrite (proj2 (Z.leb_le 0 _)), Z.sub_0_r by lia.
  rewrite (proj2 (Z.ltb_lt _ _)) by lia. simpl. eauto.
Qed.

(** ** Witnesses *)

Definition example_publish_env : PublishEnv := {|
  env_context := Ok tt; env_member := Ok "m1"; env_update := Ok tt; env_save := None;
  env_clock := 140 * Second |}.
Definition example_host : Host := {|
  host_state := Stored example_first; host_marker := Marker "kernel upgrade" (90 * Second);
  host_config := {[ SchedulerKey := Text "manual" ]} |}.

Lemma metadata_roundtrip_witness :
  ParseMetadata (published "all" (Metadata example_second (example_sample (140 * Second) 5 0)) ∅)
    example_gate_policy (150 * Second) = Ok (example_second, example_sample (140 * Second) 5 0).
Proof.
  apply metadata_roundtrip.
  - vm_compute. reflexivity.
  - vm_compute. reflexivity.
  - vm_compute. reflexivity.
  - vm_compute. reflexivity.
Defined.

Lemma drained_stays_closed_witness :
  drained (timer_runs "m1" "/var/lib/gate.json" example_gate_policy
    [(example_publish_env, (true, Ok (example_sample (140 * Second) 5 0)))] example_host).
Proof.
  apply drained_stays_closed. split.
  - exists "kernel upgrade", (90 * Second). split; [discriminate|reflexivity].
  - vm_compute. reflexivity.
Defined.

(** Sixty bytes. *)
Definition example_long_reason : string := "planned kernel upgrade and storage rebuild on member node-03".
Definition example_long_host : Host := with_marker (Marker example_long_reason 90) example_host.

Lemma long_drain_reason_stops_publisher_witness :
  is_Ok (publish_cycle example_publish_env "m1" "/var/lib/gate.json" example_gate_policy true ""
    (Ok (example_sample (140 * Second) 5 0)) example_long_host).2 = false.
Proof.
  refine (proj2 (proj2 (long_drain_reason_stops_publisher example_publish_env example_publish_env "m1"
    "/var/lib/gate.json" example_gate_policy true (Ok (example_sample (140 * Second) 5 0)) 90
    example_long_reason example_long_host _ _))).
  - split; vm_compute; repeat constructor.
  - reflexivity.
Defined.

Definition example_forced : State :=
  gate_or_zero (ForceClosed example_second (zero_sample (150 * Second)) example_gate_policy (150 * Second) "drain").

Lemma restore_reports_old_kills_witness :
  ∃ s', Evaluate example_forced (example_sample (300 * Second) 5 2) example_gate_policy (300 * Second) = Ok s' ∧
    State_State s' = StateClosed ∧ State_Reason s' = "recent-oom".
Proof.
  apply (restore_reports_old_kills example_second example_gate_policy "drain" (150 * Second)).
  - vm_compute. reflexivity.
  - vm_compute. reflexivity.
  - split; vm_compute; [discriminate|reflexivity].
Defined.
