(* ===== verification/MemberDrain.v ===== *)
(** * Draining a cluster member ([src/internal/memberdrain/drain.go])

    [Drain] marks the member drained, closes its gate and waits for the running
    workers to finish; [Restore] hands it back. Their effects are a record of
    operations on a world type, as the source injects them; the deployed
    operations are the marker, the pressure gate and the cluster of
    [PressurePublish]. *)

From S2P Require Import Prelude PressureGate PressurePublish.

Local Open Scope Z_scope.
Local Open Scope go_scope.

(** ** Effects *)

(** An operation on the world that may fail. *)
Definition Op (W A : Type) : Type := W → W * result A.

Definition op_ret {W A} (a : A) : Op W A := λ w, (w, Ok a).
Definition op_fail {W A} (e : error) : Op W A := λ w, (w, Err e).
Definition op_bind {W A B} (m : Op W A) (k : A → Op W B) : Op W B := λ w,
  match m w with
  | (w', Ok a) => k a w'
  | (w', Err e) => (w', Err e)
  end.
Definition op_wrap {W A} (format : string) (args : list string) (m : Op W A) : Op W A := λ w,
  match m w with
  | (w', Ok a) => (w', Ok a)
  | (w', Err e) => (w', Err (Wrapf format args e))
  end.
Definition op_lift {W A} (r : result A) : Op W A := λ w, (w, r).

Notation "'do' x '<-' m ; k" := (op_bind m (λ x, k))
  (at level 20, x pattern, m at level 100, k at level 200, right associativity) : go_scope.

(** ** Data *)

Record Instance_ := {
  Instance_Name : string;
  Instance_Location : string;
  Instance_Status : string;
}.

Record Occupant := {
  Occupant_Name : string;
  Occupant_Status : string;
}.

(** The injected operations. [Deps_valid] is whether none of them is nil, and
    [Context] is the state of the caller's context. *)
Record Deps (W : Type) := {
  Deps_valid : bool;
  Context_Err : Op W unit;
  GetInstances : Op W (list Instance_);
  IsActive : string → Op W bool;
  Start : string → Op W unit;
  Gate_ForceClose : string → Op W string;
  Gate_Reopen : Op W string;
  Marker_Set : string → Op W unit;
  Marker_Clear : Op W unit;
  Sleep : Duration → Op W unit;
  Now : W → W * Time;
}.
Arguments Deps_valid {_} _.
Arguments Context_Err {_} _ _.
Arguments GetInstances {_} _ _.
Arguments IsActive {_} _ _ _.
Arguments Start {_} _ _ _.
Arguments Gate_ForceClose {_} _ _ _.
Arguments Gate_Reopen {_} _ _.
Arguments Marker_Set {_} _ _ _.
Arguments Marker_Clear {_} _ _.
Arguments Sleep {_} _ _ _.
Arguments Now {_} _ _.

Record Options := {
  Drain_MemberName : string;
  Drain_Reason : string;
  TimerUnit : string;
  Timeout : Duration;
  Poll : Duration;
  Drain_Apply : bool;
  FenceOnly : bool;
}.

Record Result := {
  R_MemberName : string;
  R_Action : string;
  R_Reason : string;
  R_TimerUnit : string;
  R_TimerRunning : bool;
  R_GateClosed : bool;
  R_GateRepublished : bool;
  R_SchedulerInstance : string;
  R_Occupants : list Occupant;
  R_WaitedSecs : Z;
  R_Drained : bool;
  R_TimedOut : bool;
  R_Applied : bool;
  R_FenceOnly : bool;
}.

Definition DefaultTimerUnit := "gha-pressure-gate.timer".
Definition DefaultTimeout : Duration := 45 * Minute.
Definition DefaultPoll : Duration := 5 * Second.

(** ** Operations *)

Definition occupant_less (a b : Occupant) : bool := string_ltb (Occupant_Name a) (Occupant_Name b).

Definition occupants_of (member : string) (instances : list Instance_) : list Occupant :=
  sort_slice occupant_less
    ((λ i, {| Occupant_Name := Instance_Name i; Occupant_Status := Instance_Status i |}) <$>
     filter (λ i, Instance_Location i = member ∧ Instance_Status i ≠ "Stopped") instances).

Definition Occupancy {W} (deps : Deps W) (member : string) : Op W (list Occupant) :=
  if bool_decide (member = "") then op_fail (Errorf "member occupancy requires a client and a member name" [])
  else do instances <- op_wrap "list instances: %w" [] (GetInstances deps); op_ret (occupants_of member instances).

Definition valid_deps {W} (deps : Deps W) : result unit :=
  fail_if (negb (Deps_valid deps)) (Errorf "drain requires a client, unit control, a gate and a drain marker" []).

Definition normalised (o : Options) : result Options :=
  fail_if (bool_decide (Drain_MemberName o = "")) (Errorf "drain requires a member name" []);;
  let unit_ := if bool_decide (TimerUnit o = "") then DefaultTimerUnit else TimerUnit o in
  let timeout := if Timeout o <=? 0 then DefaultTimeout else Timeout o in
  let poll := if Poll o <=? 0 then DefaultPoll else Poll o in
  fail_if (timeout <? poll) (Errorf "drain poll interval %s exceeds its timeout %s" []);;
  Ok {| Drain_MemberName := Drain_MemberName o; Drain_Reason := Drain_Reason o; TimerUnit := unit_;
        Timeout := timeout; Poll := poll; Drain_Apply := Drain_Apply o; FenceOnly := FenceOnly o |}.

Definition drain_result (o : Options) : Result := {|
  R_MemberName := Drain_MemberName o; R_Action := if FenceOnly o then "fence" else "drain";
  R_Reason := Drain_Reason o; R_TimerUnit := TimerUnit o; R_TimerRunning := false; R_GateClosed := false;
  R_GateRepublished := false; R_SchedulerInstance := ""; R_Occupants := []; R_WaitedSecs := 0;
  R_Drained := false; R_TimedOut := false; R_Applied := Drain_Apply o; R_FenceOnly := FenceOnly o |}.

(** The report without [Apply]. *)
Definition drain_report {W} (deps : Deps W) (o : Options) : Op W Result :=
  do occupants <- Occupancy deps (Drain_MemberName o);
  do running <- IsActive deps (TimerUnit o);
  let r := drain_result o in
  op_ret {|
    R_MemberName := R_MemberName r; R_Action := R_Action r; R_Reason := R_Reason r; R_TimerUnit := R_TimerUnit r;
    R_TimerRunning := running; R_GateClosed := false; R_GateRepublished := false; R_SchedulerInstance := "";
    R_Occupants := occupants; R_WaitedSecs := 0; R_Drained := bool_decide (occupants = []); R_TimedOut := false;
    R_Applied := R_Applied r; R_FenceOnly := R_FenceOnly r |}.

(** What a wait ends with. *)
Definition waited_result (o : Options) (scheduler : string) (occupants : list Occupant) (waited : Z)
    (timedOut : bool) : Result := {|
  R_MemberName := Drain_MemberName o; R_Action := if FenceOnly o then "fence" else "drain";
  R_Reason := Drain_Reason o; R_TimerUnit := TimerUnit o; R_TimerRunning := false; R_GateClosed := true;
  R_GateRepublished := false; R_SchedulerInstance := scheduler; R_Occupants := occupants; R_WaitedSecs := waited;
  R_Drained := bool_decide (occupants = []); R_TimedOut := timedOut; R_Applied := Drain_Apply o;
  R_FenceOnly := FenceOnly o |}.

(** The waiting loop; [None] when the fuel runs out. Each turn lists the
    instances, reads the clock for the report, and reads it again for the
    deadline. *)
Fixpoint drain_loop {W} (deps : Deps W) (o : Options) (scheduler : string) (started : Time) (fuel : nat) (w : W)
    : option (W * result Result) :=
  match fuel with
  | O => None
  | S fuel =>
      match Occupancy deps (Drain_MemberName o) w with
      | (w, Err e) => Some (w, Err e)
      | (w, Ok occupants) =>
          let '(w, t1) := Now deps w in
          let waited := Sub t1 started ⊘ Second in
          if bool_decide (occupants = []) then Some (w, Ok (waited_result o scheduler occupants waited false))
          else if FenceOnly o then Some (w, Ok (waited_result o scheduler occupants waited false))
          else
            let '(w, t2) := Now deps w in
            if negb (Before t2 (Add started (Timeout o)))
            then Some (w, Ok (waited_result o scheduler occupants waited true))
            else match Sleep deps (Poll o) w with
                 | (w, Err e) => Some (w, Err e)
                 | (w, Ok _) => drain_loop deps o scheduler started fuel w
                 end
      end
  end.

(** The checks both operations start with. *)
Definition prepare {W} (deps : Deps W) (o : Options) : Op W Options :=
  do _ <- Context_Err deps; do _ <- op_lift (valid_deps deps); op_lift (normalised o).

Definition Drain {W} (deps : Deps W) (o : Options) (fuel : nat) (w : W) : option (W * result Result) :=
  match (do o <- prepare deps o;
         do _ <- op_lift (fail_if (bool_decide (Drain_Reason o = ""))
           (Errorf "drain requires a reason, which is published as the gate's close reason" []));
         op_ret o) w with
  | (w, Err e) => Some (w, Err e)
  | (w, Ok o) =>
      if negb (Drain_Apply o) then Some (drain_report deps o w)
      else
        match (do _ <- op_wrap "set the drain marker on %s: %w" [Drain_MemberName o] (Marker_Set deps (Drain_Reason o));
               op_wrap "close the gate on %s: %w" [Drain_MemberName o] (Gate_ForceClose deps (Drain_Reason o))) w with
        | (w, Err e) => Some (w, Err e)
        | (w, Ok scheduler) =>
            let '(w, started) := Now deps w in
            drain_loop deps o scheduler started fuel w
        end
  end.

Definition restore_result (o : Options) (running republished : bool) (scheduler : string) : Result := {|
  R_MemberName := Drain_MemberName o; R_Action := "restore"; R_Reason := ""; R_TimerUnit := TimerUnit o;
  R_TimerRunning := running; R_GateClosed := false; R_GateRepublished := republished;
  R_SchedulerInstance := scheduler; R_Occupants := []; R_WaitedSecs := 0; R_Drained := false; R_TimedOut := false;
  R_Applied := Drain_Apply o; R_FenceOnly := false |}.

Definition Restore {W} (deps : Deps W) (o : Options) : Op W Result :=
  do o <- prepare deps o;
  do running <- IsActive deps (TimerUnit o);
  if negb (Drain_Apply o) then op_ret (restore_result o running false "")
  else
    do _ <- op_wrap "clear the drain marker on %s: %w" [Drain_MemberName o] (Marker_Clear deps);
    do scheduler <- op_wrap "republish the gate on %s: %w" [Drain_MemberName o] (Gate_Reopen deps);
    do _ <- op_wrap "start %s: %w" [TimerUnit o] (Start deps (TimerUnit o));
    op_ret (restore_result o true true scheduler).
