(* ===== verification/MemberDrainFacts.v ===== *)
(** * What a drain guarantees *)

From S2P Require Import Prelude PressureGate PressurePublish MemberDrain.

Local Open Scope Z_scope.
Local Open Scope go_scope.

(** ** Laws of the injected operations *)

(** The wall clock may be set forwards and backwards while a drain waits, since
    [time.Now().UTC()] carries no monotonic reading. What the operating system
    promises is that time elapses and that a sleep that returns has slept; the
    readings stay within [skew] of the elapsed time, for some [skew]. *)
Class ClockLaws {W} (deps : Deps W) (elapsed : W → Time) (skew : Duration) : Prop := {
  cl_now w : elapsed w ≤ elapsed (Now deps w).1;
  cl_reading w : Z.abs ((Now deps w).2 - elapsed (Now deps w).1) ≤ skew;
  cl_list w : elapsed w ≤ elapsed (GetInstances deps w).1;
  cl_sleep d w w' u : Sleep deps d w = (w', Ok u) → elapsed w + d ≤ elapsed w';
}.

(** Listing, asking for the unit and checking the context change nothing
    [visible]. *)
Class ReadOnly {W V} (deps : Deps W) (visible : W → V) : Prop := {
  ro_context w : visible (Context_Err deps w).1 = visible w;
  ro_list w : visible (GetInstances deps w).1 = visible w;
  ro_active unit_ w : visible (IsActive deps unit_ w).1 = visible w;
}.

Lemma op_bind_fst {W A B} (m : Op W A) (k : A → Op W B) w :
  (op_bind m k w).1 = match m w with (w', Ok a) => (k a w').1 | (w', Err _) => w' end.
Proof. unfold op_bind. by destruct (m w) as [w' []]. Qed.

Lemma op_bind_Ok {W A B} (m : Op W A) (k : A → Op W B) w w' b :
  op_bind m k w = (w', Ok b) ↔ ∃ w1 a, m w = (w1, Ok a) ∧ k a w1 = (w', Ok b).
Proof.
  unfold op_bind. destruct (m w) as [w1 [a|e]]; split.
  - eauto.
  - by intros (? & ? & [= -> ->] & ?).
  - done.
  - by intros (? & ? & ? & ?).
Qed.

Lemma op_wrap_fst {W A} f args (m : Op W A) w : (op_wrap f args m w).1 = (m w).1.
Proof. unfold op_wrap. by destruct (m w) as [w' []]. Qed.

Lemma op_wrap_Ok {W A} f args (m : Op W A) w w' a : op_wrap f args m w = (w', Ok a) ↔ m w = (w', Ok a).
Proof. unfold op_wrap. destruct (m w) as [w1 []]; naive_solver. Qed.

Lemma Occupancy_fst {W} (deps : Deps W) member w :
  (Occupancy deps member w).1 = w ∨ (Occupancy deps member w).1 = (GetInstances deps w).1.
Proof.
  unfold Occupancy. case_bool_decide; [by left|]. right. unfold op_bind, op_wrap.
  by destruct (GetInstances deps w) as [w' []].
Qed.

Lemma Occupancy_Ok {W} (deps : Deps W) member w w' os :
  Occupancy deps member w = (w', Ok os) →
  ∃ instances, GetInstances deps w = (w', Ok instances) ∧ os = occupants_of member instances.
Proof.
  unfold Occupancy. case_bool_decide; [done|]. intros (w1 & insts & Hget%op_wrap_Ok & [= <- <-])%op_bind_Ok. eauto.
Qed.

Lemma elem_of_occupants_of member instances o :
  o ∈ occupants_of member instances ↔
  ∃ i, i ∈ instances ∧ Instance_Location i = member ∧ Instance_Status i ≠ "Stopped" ∧
       o = {| Occupant_Name := Instance_Name i; Occupant_Status := Instance_Status i |}.
Proof.
  unfold occupants_of. rewrite elem_of_sort_slice, list_elem_of_fmap. split.
  - intros (i & -> & [[? ?] ?]%list_elem_of_filter). eauto 10.
  - intros (i & ? & ? & ? & ->). exists i. by rewrite list_elem_of_filter.
Qed.

(** ** Options *)

Record normal (o : Options) : Prop := {
  no_member : Drain_MemberName o ≠ "";
  no_poll : 0 < Poll o ≤ Timeout o;
}.

Lemma normalised_normal o o' : normalised o = Ok o' →
  normal o' ∧ Drain_MemberName o' = Drain_MemberName o ∧ Drain_Reason o' = Drain_Reason o ∧
  Drain_Apply o' = Drain_Apply o ∧ FenceOnly o' = FenceOnly o.
Proof.
  unfold normalised. intros H. apply bind_Ok in H as ([] & Hm & ([] & Hp & [= <-])%bind_Ok).
  apply fail_if_Ok in Hm, Hp. bool_hyps. simpl. split_and!; try done. constructor; simpl; [done|].
  apply Z.ltb_ge in Hp. unfold DefaultPoll, DefaultTimeout, Minute, Second in *.
  split; [|done]. clear Hp. destruct (Z.leb_spec (Poll o) 0); lia.
Qed.

Lemma prepare_Ok {W} (deps : Deps W) o w w' o' :
  prepare deps o w = (w', Ok o') → w' = (Context_Err deps w).1 ∧ normalised o = Ok o'.
Proof.
  unfold prepare. intros (w1 & [] & H1 & (w2 & [] & [= <- _] & [= <- ->])%op_bind_Ok)%op_bind_Ok.
  by rewrite H1.
Qed.

(** ** Termination *)

(** Enough turns for the deadline to pass on a clock set back by at most twice
    [skew]. *)
Definition wait_bound (o : Options) (skew : Duration) : nat := Z.to_nat ((Timeout o + 2 * skew) / Poll o) + 2.

Lemma drain_loop_returns {W} (deps : Deps W) elapsed skew `{!ClockLaws deps elapsed skew} o scheduler started fuel w :
  0 < Poll o → started + Timeout o + skew ≤ elapsed w + Z.of_nat fuel * Poll o →
  is_Some (drain_loop deps o scheduler started (S fuel) w).
Proof.
  intros Hpoll. revert w. induction fuel as [|fuel IH]; intros w Hdl; [|remember (S fuel) as n eqn:Hn].
  all: cbn [drain_loop]; destruct (Occupancy deps (Drain_MemberName o) w) as [w1 [os|e]] eqn:Eo; [|eauto].
  all: apply Occupancy_Ok in Eo as (insts & Hl & ->).
  all: pose proof (cl_list w) as Hc1; rewrite Hl in Hc1; simpl in Hc1.
  all: pose proof (cl_now w1) as Hc2; destruct (Now deps w1) as [w2 t1]; simpl in Hc2.
  all: case_bool_decide; [eauto|]; destruct (FenceOnly o); [eauto|].
  all: pose proof (cl_now w2) as Hc3; pose proof (cl_reading w2) as Hr3; destruct (Now deps w2) as [w3 t2]; simpl in Hc3, Hr3.
  all: unfold Before, Add; destruct (Z.ltb_spec t2 (started + Timeout o)); simpl; [|eauto].
  - exfalso. lia.
  - destruct (Sleep deps (Poll o) w3) as [w4 [u|e]] eqn:Es; [|eauto].
    apply cl_sleep in Es. apply IH. lia.
Qed.

(** C17: a drain ends, also on a wall clock that is set back while it waits. When
    every reading of the clock is within [skew] of the elapsed time and sleeps
    sleep, [Drain] returns after at most (Timeout + 2 * skew)/Poll + 2 turns of its
    loop, whatever the cluster answers and however long the workers run. *)
Theorem Drain_terminates {W} (deps : Deps W) elapsed skew `{!ClockLaws deps elapsed skew} o o' w :
  normalised o = Ok o' → is_Some (Drain deps o (wait_bound o' skew) w).
Proof.
  intros Hn. unfold Drain. destruct (op_bind (prepare deps o) _ w) as [w0 [o1|e]] eqn:E; [|eauto].
  apply op_bind_Ok in E as (w1 & o2 & [_ Hp]%prepare_Ok & (w2 & [] & [= <- _] & [= <- ->])%op_bind_Ok).
  assert (o1 = o') as -> by congruence. destruct (normalised_normal _ _ Hn) as ([_ Hpoll] & _).
  destruct (negb (Drain_Apply o')); [eauto|]. destruct (op_bind _ _ w1) as [w3 [sch|e]]; [|eauto].
  pose proof (cl_reading w3) as Hc. destruct (Now deps w3) as [w4 started]; simpl in Hc.
  unfold wait_bound. rewrite Nat.add_succ_r. apply (drain_loop_returns deps elapsed skew); [lia|].
  rewrite Nat2Z.inj_add, Z2Nat.id by (apply Z.div_pos; lia).
  pose proof (Z.div_mod (Timeout o' + 2 * skew) (Poll o') ltac:(lia)).
  pose proof (Z.mod_pos_bound (Timeout o' + 2 * skew) (Poll o') ltac:(lia)). nia.
Qed.

(** without [Apply], a drain or a restore only looks: nothing an observer can
    see changes, and the drain returns at once whatever the fuel. *)
Theorem dry_run_changes_nothing {W V} (deps : Deps W) (visible : W → V) `{!ReadOnly deps visible} o fuel w :
  Drain_Apply o = false →
  (∃ w' r, Drain deps o fuel w = Some (w', r) ∧ visible w' = visible w) ∧ visible (Restore deps o w).1 = visible w.
Proof.
  intros Ha.
  assert (∀ w, visible (prepare deps o w).1 = visible w) as Hprep.
  { intros w0. unfold prepare. rewrite op_bind_fst. pose proof (ro_context w0) as Hc.
    destruct (Context_Err deps w0) as [w1 []]; [|done]. rewrite op_bind_fst. simpl in *.
    by destruct (valid_deps deps). }
  assert (∀ m w, visible (Occupancy deps m w).1 = visible w) as Hocc.
  { intros m w0. destruct (Occupancy_fst deps m w0) as [->| ->]; [done|apply ro_list]. }
  specialize (Hprep w). split.
  - unfold Drain. destruct (op_bind (prepare deps o) _ w) as [w0 [o1|e]] eqn:E.
    + apply op_bind_Ok in E as (w1 & o2 & Hp & (w2 & [] & [= <- _] & [= <- ->])%op_bind_Ok).
      rewrite Hp in Hprep. simpl in Hprep. apply prepare_Ok in Hp as [_ Hn].
      destruct (normalised_normal _ _ Hn) as (_ & _ & _ & Hap & _). rewrite Hap, Ha. simpl.
      destruct (drain_report deps o1 w1) as [w' r] eqn:Er. exists w', r. split; [done|].
      rewrite <- Hprep. rewrite <- (Hocc (Drain_MemberName o1) w1). unfold drain_report, op_bind, op_ret in Er.
      destruct (Occupancy deps (Drain_MemberName o1) w1) as [w2 [os|e]]; [|by simplify_eq]. simpl in *.
      pose proof (ro_active (TimerUnit o1) w2) as Hact.
      destruct (IsActive deps (TimerUnit o1) w2) as [w3 []]; simpl in Hact; simplify_eq; done.
    + eexists _, _. split; [done|]. unfold op_bind, op_lift in E.
      destruct (prepare deps o w) as [w1 [o2|e2]]; [|by simplify_eq].
      destruct (fail_if _ _); simplify_eq; done.
  - unfold Restore. rewrite op_bind_fst. destruct (prepare deps o w) as [w1 [o1|e]] eqn:Hp; [|done].
    simpl in Hprep. apply prepare_Ok in Hp as [_ Hn].
    destruct (normalised_normal _ _ Hn) as (_ & _ & _ & Hap & _).
    rewrite op_bind_fst. pose proof (ro_active (TimerUnit o1) w1) as Hact.
    destruct (IsActive deps (TimerUnit o1) w1) as [w2 [running|e]]; simpl in Hact; [|congruence].
    rewrite Hap, Ha. simpl. congruence.
Qed.

(** ** What the result says *)

(** A report is honest about the last listing: the occupants are the member's
    instances that are not stopped, drained means there are none, and a full
    drain that leaves some timed out at or after its deadline. *)
Record honest {W} (deps : Deps W) (o : Options) (started : Time) (r : Result) : Prop := {
  ho_closed : R_GateClosed r = true;
  ho_listing : ∃ w w' instances, GetInstances deps w = (w', Ok instances) ∧
    R_Occupants r = occupants_of (Drain_MemberName o) instances;
  ho_drained : R_Drained r = bool_decide (R_Occupants r = []);
  ho_timeout : R_TimedOut r = true ↔ R_Drained r = false ∧ FenceOnly o = false;
  ho_deadline : R_TimedOut r = true → ∃ w, started + Timeout o ≤ (Now deps w).2;
}.

Lemma drain_loop_honest {W} (deps : Deps W) o scheduler started fuel w w' r :
  drain_loop deps o scheduler started fuel w = Some (w', Ok r) → honest deps o started r.
Proof.
  revert w. induction fuel as [|fuel IH]; intros w H; [done|]. simpl in H.
  destruct (Occupancy deps (Drain_MemberName o) w) as [w1 [os|e]] eqn:Eo; [|done].
  apply Occupancy_Ok in Eo as (insts & Hl & ->).
  destruct (Now deps w1) as [w2 t1]. case_bool_decide as Hos.
  { injection H as <- <-. constructor; simpl; [done|eauto 10|done| |done].
    rewrite bool_decide_eq_true_2 by done. naive_solver. }
  destruct (FenceOnly o) eqn:Hf.
  { injection H as <- <-. constructor; simpl; [done|eauto 10|done|naive_solver|done]. }
  destruct (Now deps w2) as [w3 t2] eqn:Et. unfold Before, Add in H.
  destruct (Z.ltb_spec t2 (started + Timeout o)) as [|Hge]; simpl in H.
  - destruct (Sleep deps (Poll o) w3) as [w4 [u|e]]; [|done]. by eapply IH.
  - injection H as <- <-. constructor; simpl; [done|eauto 10|done|..].
    + rewrite bool_decide_eq_false_2 by done. naive_solver.
    + intros _. exists w2. by rewrite Et.
Qed.

(** an applied drain reports the truth. When it returns a result, the gate
    was closed, the reported occupants are exactly the member's non-stopped
    instances at the last listing, "drained" means there were none, and a drain
    that is not fence-only gives up on the rest only at or after its deadline. *)
Theorem Drain_honest {W} (deps : Deps W) o fuel w w' r :
  Drain_Apply o = true → Drain deps o fuel w = Some (w', Ok r) →
  ∃ o' started, normalised o = Ok o' ∧ honest deps o' started r ∧
    ∀ x, x ∈ R_Occupants r → Occupant_Status x ≠ "Stopped".
Proof.
  intros Ha H. unfold Drain in H. destruct (op_bind (prepare deps o) _ w) as [w0 [o1|e]] eqn:E; [|done].
  apply op_bind_Ok in E as (w1 & o2 & [_ Hn]%prepare_Ok & (w2 & [] & [= <- _] & [= <- ->])%op_bind_Ok).
  destruct (normalised_normal _ _ Hn) as (_ & _ & _ & Hap & _). rewrite Hap, Ha in H. simpl in H.
  destruct (op_bind _ _ w1) as [w3 [sch|e]]; [|done].
  destruct (Now deps w3) as [w4 started]. apply drain_loop_honest in H. exists o1, started.
  split_and!; [done|done|]. intros x Hx. destruct (ho_listing _ _ _ _ H) as (? & ? & insts & _ & Hos).
  rewrite Hos in Hx. apply elem_of_occupants_of in Hx as (i & _ & _ & Hs & ->). done.
Qed.

(** ** The deployed operations *)

(** The world of one member: its host and the time. *)
Definition World : Type := Host * Time.

Section deployed.
Context (member path : string) (policy : Policy).
(** What the outside does: the listing at each instant, the answers of the
    cluster and the file system during a gate operation, faults of the marker
    file, what probing the host yields, the unit control, whether a sleep is
    cancelled, by how much it oversleeps, and which publisher cycles run during
    it. *)
Context (listing : Time → result (list Instance_)) (gate_env : Time → PublishEnv)
  (marker_fault : Time → option error) (probe : Time → result Sample)
  (active : Time → result bool) (start_fault : Time → option error)
  (cancelled : Time → bool) (oversleep : Time → Duration) (runs : Time → list timer_run).

Definition at_clock (env : PublishEnv) (now : Time) : PublishEnv := {|
  env_context := env_context env; env_member := env_member env; env_update := env_update env;
  env_save := env_save env; env_clock := now |}.

Definition on_host {A} (f : Host → Host * result A) : Op World A := λ w,
  let '(h, r) := f w.1 in ((h, w.2), r).

Definition deployed : Deps World := {|
  Deps_valid := true;
  Context_Err := op_ret tt;
  GetInstances := λ w, (w, listing w.2);
  IsActive := λ _ w, (w, active w.2);
  Start := λ _ w, (w, match start_fault w.2 with Some e => Err e | None => Ok tt end);
  Gate_ForceClose := λ reason w, on_host (ForceClose (at_clock (gate_env w.2) w.2) member path policy reason) w;
  Gate_Reopen := λ w, on_host (Reopen (at_clock (gate_env w.2) w.2) member path policy (probe w.2)) w;
  Marker_Set := λ reason w, on_host
    (λ h, let '(f, r) := WriteDrainMarker (marker_fault w.2) reason w.2 (host_marker h) in (with_marker f h, r)) w;
  Marker_Clear := λ w, on_host
    (λ h, let '(f, r) := ClearDrainMarker (marker_fault w.2) (host_marker h) in (with_marker f h, r)) w;
  Sleep := λ d w,
    ((timer_runs member path policy (runs w.2) w.1, w.2 + d + Z.max 0 (oversleep w.2)),
     if cancelled w.2 then Err (Errorf "context canceled" []) else Ok tt);
  Now := λ w, (w, w.2);
|}.

#[export] Instance deployed_clock : ClockLaws deployed snd 0.
Proof.
  split; simpl; [lia|lia|lia|]. intros d w w' u H. destruct (cancelled w.2); simplify_eq. simpl. lia.
Qed.

#[export] Instance deployed_readonly : ReadOnly deployed fst.
Proof. split; done. Qed.

Lemma timer_runs_marker rs h : host_marker (timer_runs member path policy rs h) = host_marker h.
Proof.
  revert h. induction rs as [|[env [ap pr]] rs IH]; intros h; [done|]. simpl. rewrite IH.
  unfold publish_cycle. destruct (if bool_decide ("" = "") then _ else _); [|done].
  destruct (if bool_decide (_ = "") then pr else _); [|done].
  match goal with |- context [Reconcile env ?o h] => destruct (Reconcile env o h) as [h' res] eqn:E end.
  simpl. by destruct (Reconcile_effect _ _ _ _ _ E) as [Hm _].
Qed.

(** What every turn of the waiting loop keeps. *)
Lemma drain_loop_host o scheduler started fuel w w' r :
  drain_loop deployed o scheduler started fuel w = Some (w', r) →
  host_marker w'.1 = host_marker w.1 ∧ (drained w.1 → drained w'.1).
Proof.
  revert w. induction fuel as [|fuel IH]; intros w H; [done|]. simpl in H.
  destruct (Occupancy deployed (Drain_MemberName o) w) as [w1 os] eqn:Eo.
  assert (w1 = w) as ->.
  { pose proof (Occupancy_fst deployed (Drain_MemberName o) w) as [H1|H1]; by rewrite Eo in H1. }
  destruct os as [os|e]; [|by simplify_eq]. case_bool_decide; [by simplify_eq|].
  destruct (FenceOnly o); [by simplify_eq|]. destruct (negb _); [by simplify_eq|].
  destruct (cancelled w.2); simplify_eq; simpl.
  - split; [apply timer_runs_marker|apply timer_runs_drained].
  - apply IH in H as [Hm Hd]. simpl in *. rewrite Hm, timer_runs_marker. split; [done|].
    intros Hdr. by apply Hd, timer_runs_drained.
Qed.

Lemma gate_publish_effect env sample reason h h' r :
  gate_publish env member path policy sample reason h = (h', r) →
  host_marker h' = host_marker h ∧
  (∀ scheduler, r = Ok scheduler → get (host_config h') SchedulerKey = Text scheduler ∧
     (reason ≠ "" → scheduler = "manual")).
Proof.
  unfold gate_publish. match goal with |- context [Reconcile env ?o h] => set (opts := o) end.
  destruct (Reconcile env opts h) as [h1 res] eqn:E. intros [= <- <-].
  destruct (Reconcile_effect _ _ _ _ _ E) as [Hm _]. split; [done|]. intros scheduler Hr.
  destruct res as [pr|e]; [|done]. injection Hr as <-.
  apply Reconcile_applied in E as (Hget & _ & prev & now & _ & Hst & Hsch); [|done]. split; [done|].
  intros Hne. apply next_state_forced in Hst as [Hst _]; [|done]. by rewrite Hsch, Hst.
Qed.

(** An applied drain past its checks: the marker is set whatever happens next,
    and a result means the gate accepted the closure. *)
Lemma Drain_deployed_effect o o' fuel w w' r :
  Drain_Apply o = true → normalised o = Ok o' → Drain_Reason o ≠ "" → marker_fault w.2 = None →
  Drain deployed o fuel w = Some (w', r) →
  host_marker w'.1 = Marker (Drain_Reason o) w.2 ∧
  (is_Ok r = true → drained w'.1 ∧
     ∃ env h h1 scheduler, ForceClose env member path policy (Drain_Reason o) h = (h1, Ok scheduler)).
Proof.
  intros Ha Hn Hr Hmf H. destruct (normalised_normal _ _ Hn) as (_ & _ & Hreason & Hap & _).
  unfold Drain, prepare, op_bind, op_lift, op_ret in H. simpl in H. rewrite Hn, Hreason in H.
  rewrite (bool_decide_eq_false_2 (Drain_Reason o = "")) in H by done. simpl in H.
  rewrite Hap, Ha in H. simpl in H. destruct w as [h t]. simpl in Hmf.
  unfold op_wrap, on_host, WriteDrainMarker in H. simpl in H. rewrite Hmf, !Hreason in H.
  rewrite (bool_decide_eq_false_2 (Drain_Reason o = "")) in H by done. simpl in H.
  destruct (ForceClose _ _ _ _ _ _) as [h1 res] eqn:EF. pose proof EF as EF'.
  apply gate_publish_effect in EF as [Hm Hget]. simpl in Hm.
  destruct res as [scheduler|e]; [|injection H as <- <-; done]. simpl in H.
  specialize (Hget scheduler eq_refl) as [Hsch Hman]. specialize (Hman Hr) as ->.
  apply drain_loop_host in H as [Hmk Hdr]. simpl in *. rewrite Hm in Hmk.
  split; [done|]. intros _. split; [apply Hdr; split; [|done]; eauto|by eauto].
Qed.

(** Otherwise it stops before changing anything. *)
Lemma Drain_deployed_refused o fuel w w' r :
  Drain_Apply o = true → is_Ok (normalised o) = false ∨ Drain_Reason o = "" ∨ marker_fault w.2 ≠ None →
  Drain deployed o fuel w = Some (w', r) → w'.1 = w.1 ∧ is_Ok r = false.
Proof.
  intros Ha Hwhy H. unfold Drain, prepare, op_bind, op_lift, op_ret in H. simpl in H.
  destruct (normalised o) as [o'|e] eqn:Hn; [|by simplify_eq].
  destruct (normalised_normal _ _ Hn) as (_ & _ & Hreason & Hap & _). rewrite Hreason in H.
  case_bool_decide as Hr; simpl in H; [by simplify_eq|]. rewrite Hap, Ha in H. simpl in H.
  destruct w as [h t]. unfold op_wrap, on_host, WriteDrainMarker in H. simpl in *. rewrite !Hreason in H.
  rewrite (bool_decide_eq_false_2 (Drain_Reason o = "")) in H by done.
  destruct Hwhy as [?|[?|Hf]]; [done|done|]. destruct (marker_fault t); [|done].
  injection H as <- <-. by destruct h.
Qed.

(** a drain is safe to interrupt. Whatever fails and wherever it stops, an
    applied drain has either left the host as it was or left the marker with its
    reason in place, so the publisher keeps the member closed; when it returns a
    result, the member is marked and its scheduler is manual, and it was so at
    every publisher cycle that ran while the drain waited. *)
Theorem Drain_leaves_marker o fuel w w' r :
  Drain_Apply o = true → Drain deployed o fuel w = Some (w', r) →
  match r with
  | Ok _ => (∃ since, host_marker w'.1 = Marker (Drain_Reason o) since) ∧ drained w'.1
  | Err _ => w'.1 = w.1 ∨ ∃ since, host_marker w'.1 = Marker (Drain_Reason o) since
  end.
Proof.
  intros Ha H. destruct (normalised o) as [o'|e] eqn:Hn.
  2:{ assert (is_Ok (normalised o) = false) as Hbad by by rewrite Hn.
      destruct (Drain_deployed_refused _ _ _ _ _ Ha (or_introl Hbad) H) as [? ?].
      destruct r; [done|by left]. }
  destruct (decide (Drain_Reason o = "" ∨ marker_fault w.2 ≠ None)) as [Hwhy|Hgood].
  - destruct (Drain_deployed_refused _ _ _ _ _ Ha (or_intror Hwhy) H) as [? ?]. destruct r; [done|by left].
  - assert (marker_fault w.2 = None) as Hmf by (destruct (marker_fault w.2); naive_solver).
    destruct (Drain_deployed_effect _ _ _ _ _ _ Ha Hn ltac:(naive_solver) Hmf H) as [Hm Hd].
    destruct r; [|right; eauto]. split; [eauto|]. by apply Hd.
Qed.

(** a restore hands the member back. On success the marker is gone, the
    member carries the scheduler value the restore reports, and the timer was
    started; if clearing the marker fails nothing has changed. *)
Theorem Restore_hands_back o w w' r :
  Drain_Apply o = true → Restore deployed o w = (w', r) →
  match r with
  | Ok res => host_marker w'.1 = NoMarker ∧ R_TimerRunning res = true ∧ R_GateRepublished res = true ∧
      get (host_config w'.1) SchedulerKey = Text (R_SchedulerInstance res) ∧ start_fault w.2 = None
  | Err _ => w'.1 = w.1 ∨ host_marker w'.1 = NoMarker
  end.
Proof.
  intros Ha H. unfold Restore in H. unfold op_bind in H at 1.
  destruct (prepare deployed o w) as [w1 [o1|e]] eqn:E.
  2:{ injection H as <- <-. left. unfold prepare, op_bind, op_lift in E. simpl in E. by simplify_eq. }
  apply prepare_Ok in E as [Hw1 Hn]. simpl in Hw1. subst w1.
  destruct (normalised_normal _ _ Hn) as (_ & _ & _ & Hap & _). rewrite Hap, Ha in H.
  destruct w as [h t]. unfold op_bind, op_wrap, op_ret, on_host in H. simpl in H.
  destruct (active t); [|injection H as <- <-; by left]. simpl in H. unfold on_host in H. simpl in H.
  destruct (ClearDrainMarker (marker_fault t) (host_marker h)) as [f [u|e]] eqn:EC.
  - assert (f = NoMarker) as ->.
    { unfold ClearDrainMarker in EC. by destruct (host_marker h), (marker_fault t); simplify_eq. }
    simpl in H. destruct (Reopen _ _ _ _ _ _) as [h1 res] eqn:ER. unfold Reopen in ER.
    destruct (probe t) as [sample|e]; [|injection ER as <- <-; injection H as <- <-; by right].
    apply gate_publish_effect in ER as [Hm Hget]. simpl in Hm.
    destruct res as [scheduler|e]; simpl in H; [|injection H as <- <-; by right].
    specialize (Hget scheduler eq_refl) as [Hsch _].
    destruct (start_fault t) eqn:Hsf; injection H as <- <-; simpl; [by right|]. split_and!; done.
  - assert (f = host_marker h) as ->.
    { unfold ClearDrainMarker in EC. destruct (host_marker h), (marker_fault t); simplify_eq; done. }
    injection H as <- <-. left. by destruct h.
Qed.

End deployed.

(** ** Witnesses *)

(** One worker that finishes two minutes after the drain starts, on a member whose
    publisher runs a cycle during every sleep. *)
Definition example_worker (status : string) : Instance_ := {|
  Instance_Name := "gha-1"; Instance_Location := "m1"; Instance_Status := status |}.
Definition example_listing (t : Time) : result (list Instance_) :=
  Ok [example_worker (if t <? 420 * Second then "Running" else "Stopped")].
Definition example_runs (t : Time) : list timer_run :=
  [(at_clock example_publish_env t, (true, Ok (example_sample t 5 0)))].
Definition example_deployed : Deps World :=
  deployed "m1" "/var/lib/gate.json" example_gate_policy
    example_listing
    (λ _, example_publish_env) (λ _, None) (λ t, Ok (example_sample t 5 0)) (λ _, Ok true) (λ _, None)
    (λ _, false) (λ _, 0)
    example_runs.
Definition example_options (apply : bool) : Options := {|
  Drain_MemberName := "m1"; Drain_Reason := "kernel upgrade"; TimerUnit := ""; Timeout := 0;
  Poll := 60 * Second; Drain_Apply := apply; FenceOnly := false |}.
Definition example_normal (apply : bool) : Options := {|
  Drain_MemberName := "m1"; Drain_Reason := "kernel upgrade"; TimerUnit := DefaultTimerUnit;
  Timeout := DefaultTimeout; Poll := 60 * Second; Drain_Apply := apply; FenceOnly := false |}.
Definition example_world : World := (with_marker NoMarker example_host, 300 * Second).
Definition example_drain : option (World * result Result) :=
  Drain example_deployed (example_options true) (wait_bound (example_normal true) 0) example_world.
Definition example_after : World := match example_drain with Some (w, _) => w | None => example_world end.
Definition example_report : Result :=
  match example_drain with Some (_, Ok r) => r | _ => drain_result (example_normal true) end.

(** The same member with a worker that never finishes and a clock that is set back
    by an hour ten minutes into the drain. *)
Definition set_back_reading (t : Time) : Time := if t <? 900 * Second then t else t - Hour.
Definition set_back_deployed : Deps World :=
  let d := deployed "m1" "/var/lib/gate.json" example_gate_policy (λ _, Ok [example_worker "Running"])
    (λ _, example_publish_env) (λ _, None) (λ t, Ok (example_sample t 5 0)) (λ _, Ok true) (λ _, None)
    (λ _, false) (λ _, 0) example_runs in {|
  Deps_valid := Deps_valid d; Context_Err := Context_Err d; GetInstances := GetInstances d; IsActive := IsActive d; Start := Start d;
  Gate_ForceClose := Gate_ForceClose d; Gate_Reopen := Gate_Reopen d; Marker_Set := Marker_Set d; Marker_Clear := Marker_Clear d;
  Sleep := Sleep d; Now := λ w, (w, set_back_reading w.2) |}.

#[export] Instance set_back_clock : ClockLaws set_back_deployed snd Hour.
Proof.
  split; simpl; [lia| |lia|].
  - intros w. unfold set_back_reading. destruct (w.2 <? _); unfold Hour, Minute, Second; lia.
  - intros d w w' u H. simplify_eq. simpl. lia.
Qed.

Lemma Drain_terminates_witness :
  is_Some example_drain ∧
  Drain set_back_deployed (example_options true) (wait_bound (example_normal true) 0) example_world = None ∧
  is_Some (Drain set_back_deployed (example_options true) (wait_bound (example_normal true) Hour) example_world).
Proof.
  split; [|split; [vm_compute; reflexivity|]].
  - apply (Drain_terminates example_deployed snd 0 (example_options true) (example_normal true)). vm_compute. reflexivity.
  - apply (Drain_terminates set_back_deployed snd Hour (example_options true) (example_normal true)). vm_compute. reflexivity.
Defined.

Lemma dry_run_changes_nothing_witness :
  ∃ w' r, Drain example_deployed (example_options false) 0 example_world = Some (w', r) ∧ w'.1 = example_world.1.
Proof.
  exact (proj1 (dry_run_changes_nothing example_deployed fst (example_options false) 0 example_world eq_refl)).
Defined.

Lemma Drain_honest_witness :
  R_Drained example_report = true ∧ R_WaitedSecs example_report = 120 ∧
  ∃ o' started, normalised (example_options true) = Ok o' ∧ honest example_deployed o' started example_report.
Proof.
  split; [vm_compute; reflexivity|]. split; [vm_compute; reflexivity|].
  destruct (Drain_honest example_deployed (example_options true) (wait_bound (example_normal true) 0) example_world
    example_after example_report) as (o' & started & H1 & H2 & _).
  - reflexivity.
  - vm_compute. reflexivity.
  - exists o', started. split; assumption.
Defined.

Lemma Drain_leaves_marker_witness : drained example_after.1.
Proof.
  refine (proj2 (Drain_leaves_marker "m1" "/var/lib/gate.json" example_gate_policy example_listing
    (λ _, example_publish_env) (λ _, None) (λ t, Ok (example_sample t 5 0)) (λ _, Ok true) (λ _, None)
    (λ _, false) (λ _, 0) example_runs (example_options true)
    (wait_bound (example_normal true) 0) example_world example_after (Ok example_report) eq_refl _)).
  vm_compute. reflexivity.
Defined.

Definition example_restored : World * result Result :=
  Restore example_deployed (example_options true) (example_after.1, 900 * Second).

Lemma Restore_hands_back_witness : host_marker example_restored.1.1 = NoMarker.
Proof.
  pose proof (Restore_hands_back "m1" "/var/lib/gate.json" example_gate_policy
    example_listing
    (λ _, example_publish_env) (λ _, None) (λ t, Ok (example_sample t 5 0)) (λ _, Ok true) (λ _, None)
    (λ _, false) (λ _, 0)
    example_runs
    (example_options true) (example_after.1, 900 * Second) example_restored.1 example_restored.2 eq_refl) as H.
  assert (Restore example_deployed (example_options true) (example_after.1, 900 * Second)
    = (example_restored.1, example_restored.2)) as E by (vm_compute; reflexivity).
  specialize (H E). destruct example_restored.2 as [res|e] eqn:Er.
  - exact (proj1 H).
  - exfalso. vm_compute in Er. discriminate Er.
Defined.
