(* ===== verification/SlabHeal.v ===== *)
(** * The slab heal ([src/internal/slabheal/slabheal.go] and [runSlabHeal] of
    [src/cmd/gha-fleet/main.go])

    A member whose unreclaimable slab exceeds its budget may drain itself and
    reboot, one member at a time. *)

From S2P Require Import Prelude PressureGate PressurePublish MemberDrain MemberDrainFacts.

Local Open Scope Z_scope.
Local Open Scope go_scope.

(** ** The decision *)

Record Facts := {
  SUnreclaimBytes : Z;
  ThresholdBytes : Z;
  SelfState : string;
  OtherStates : gmap string string;
  NonWarmOccupants : Z;
  LastHealAt : Time;
  Cooldown : Duration;
  Facts_Now : Time;
}.

(** The reason is its format and arguments. *)
Record HealDecision := {
  Heal : bool;
  HealReason : string * list string;
}.

Definition refuse (format : string) (args : list string) : HealDecision :=
  {| Heal := false; HealReason := (format, args) |}.

(** The other members whose gate is not open; the loop walks a map, so which of
    them the refusal names depends on Go's iteration order. *)
Definition not_open (states : gmap string string) : list (string * string) :=
  filter (λ ms, ms.2 ≠ "open") (map_to_list states).

Definition Decide (f : Facts) : HealDecision :=
  if ThresholdBytes f =? 0 then refuse "threshold is zero; refusing to heal on an unset budget" []
  else if SUnreclaimBytes f <=? ThresholdBytes f
  then refuse "SUnreclaim %d is within the %d budget" [pretty (SUnreclaimBytes f); pretty (ThresholdBytes f)]
  else if negb (bool_decide (SelfState f = "open"))
  then refuse "own gate is %q; a closed gate belongs to its operator" [SelfState f]
  else match not_open (OtherStates f) with
       | (member, state) :: _ => refuse "member %s gate is %q; one member heals at a time" [member; state]
       | [] =>
           if 0 <? NonWarmOccupants f
           then refuse "%d non-warm occupants; healing waits for a quiet member" [pretty (NonWarmOccupants f)]
           else if negb (IsZero (LastHealAt f)) && (Sub (Facts_Now f) (LastHealAt f) <? Cooldown f)
           then refuse "healed %s ago, inside the %s cooldown; a reboot that did not help needs a human" []
           else {| Heal := true;
                   HealReason := ("SUnreclaim %d exceeds the %d budget on a quiet open member",
                     [pretty (SUnreclaimBytes f); pretty (ThresholdBytes f)]) |}
       end.

Definition PreferAttributed (attributed : Z) (attributedOK : bool) (counter : Z) : Z * string :=
  if attributedOK then (attributed, "memcg-attributed") else (counter, "meminfo-counter").

Definition HealReasonPrefix : string := "slab-heal: ".

(** ** The command *)

(** [%.1f] of a number of bytes divided by 2^30: tenths, rounded half to even. *)
Definition round_half_even (n d : Z) : Z :=
  let q := n / d in
  match (2 * (n `mod` d)) ?= d with
  | Lt => q
  | Gt => q + 1
  | Eq => if Z.even q then q else q + 1
  end.
Definition gib (n : Z) : string :=
  let tenths := round_half_even (n * 10) (2 ^ 30) in
  pretty (tenths / 10) +:+ "." +:+ pretty (tenths `mod` 10).

Definition heal_reason (sunreclaim : Z) (source : string) (threshold : Z) : string :=
  HealReasonPrefix +:+ "SUnreclaim " +:+ gib sunreclaim +:+ " GiB (" +:+ source +:+ ") over the "
  +:+ gib threshold +:+ " GiB budget".

Inductive HealOutcome :=
  | Reported (decision : HealDecision)
  | DrainFailed (e : error)
  | NotDrained
  | Rebooting (reason : string).

(** The command after it has gathered its facts: the slab measurement is the one
    [PreferAttributed] picks. *)
Definition runSlabHeal {W} (deps : Deps W) (f : Facts) (source : string) (o : Options) (apply : bool)
    (fuel : nat) (w : W) : option (W * HealOutcome) :=
  let decision := Decide f in
  if negb (Heal decision) || negb apply then Some (w, Reported decision)
  else
    let reason := heal_reason (SUnreclaimBytes f) source (ThresholdBytes f) in
    let options := {| Drain_MemberName := Drain_MemberName o; Drain_Reason := reason; TimerUnit := TimerUnit o;
                      Timeout := Timeout o; Poll := Poll o; Drain_Apply := true; FenceOnly := false |} in
    match Drain deps options fuel w with
    | None => None
    | Some (w', Err e) => Some (w', DrainFailed e)
    | Some (w', Ok r) => Some (w', if negb (R_Drained r) then NotDrained else Rebooting reason)
    end.

(** * Correctness *)

(** the heal is timid. It is decided exactly when the slab exceeds a non-zero
    budget, this member's gate and every other member's gate are open, no job
    occupies the member, and any previous heal is at least the cooldown ago. *)
Theorem Decide_timid f :
  Heal (Decide f) = true ↔
  ThresholdBytes f ≠ 0 ∧ ThresholdBytes f < SUnreclaimBytes f ∧ SelfState f = "open" ∧
  map_Forall (λ _ s, s = "open") (OtherStates f) ∧ NonWarmOccupants f ≤ 0 ∧
  (LastHealAt f = zero_time ∨ Cooldown f ≤ Sub (Facts_Now f) (LastHealAt f)).
Proof.
  assert (not_open (OtherStates f) = [] ↔ map_Forall (λ _ s, s = "open") (OtherStates f)) as Hopen.
  { unfold not_open. split.
    - intros Hnil m s Hm. destruct (decide (s = "open")) as [|Hne]; [done|].
      assert ((m, s) ∈ filter (λ ms : string * string, ms.2 ≠ "open") (map_to_list (OtherStates f))) as Hin
        by by rewrite list_elem_of_filter, elem_of_map_to_list.
      rewrite Hnil in Hin. set_solver.
    - intros Hall. apply elem_of_nil_inv. intros [m s] [Hne Hin%elem_of_map_to_list]%list_elem_of_filter.
      by apply Hne, (Hall m s). }
  unfold Decide. destruct (Z.eqb_spec (ThresholdBytes f) 0); simpl; [naive_solver|].
  destruct (Z.leb_spec (SUnreclaimBytes f) (ThresholdBytes f)); simpl; [split; [done|lia]|].
  case_bool_decide; simpl; [|naive_solver].
  destruct (not_open (OtherStates f)) as [|[m s] l]; simpl.
  2:{ split; [done|]. intros (_ & _ & _ & H'%Hopen & _). done. }
  destruct (Z.ltb_spec 0 (NonWarmOccupants f)); simpl; [split; [done|lia]|].
  unfold IsZero. case_bool_decide; simpl.
  - split; [|done]. intros _. split_and!; try done; [by apply Hopen|by left].
  - destruct (Z.ltb_spec (Sub (Facts_Now f) (LastHealAt f)) (Cooldown f)); simpl; split; try done.
    + intros (_ & _ & _ & _ & _ & [?|?]); [done|lia].
    + intros _. split_and!; try done; [by apply Hopen|by right].
Qed.

(** ** The published reason never fits *)

Lemma pretty_N_go_length x s : (String.length s ≤ String.length (pretty_N_go x s))%nat.
Proof.
  revert s. induction (N.lt_wf_0 x) as [x _ IH]; intros s.
  destruct (decide (0 < x)%N) as [Hx|Hx].
  - rewrite pretty_N_go_step by done.
    specialize (IH (x `div` 10)%N ltac:(apply N.div_lt; lia) (String (pretty_N_char (x `mod` 10)) s)). simpl in IH. lia.
  - assert (x = 0%N) as -> by lia. by rewrite pretty_N_go_0.
Qed.

Lemma pretty_N_length (x : N) : (1 ≤ String.length (pretty x))%nat.
Proof.
  unfold pretty, pretty_N. case_decide as Hx; [simpl; lia|]. rewrite pretty_N_go_step by lia.
  pose proof (pretty_N_go_length (x `div` 10)%N (String (pretty_N_char (x `mod` 10)) "")) as H. simpl in H. lia.
Qed.

Lemma pretty_Z_length (x : Z) : (1 ≤ String.length (pretty x))%nat.
Proof. destruct x; simpl; [lia|apply pretty_N_length|]. rewrite length_app_string. simpl. lia. Qed.

Lemma gib_length n : (3 ≤ String.length (gib n))%nat.
Proof.
  unfold gib. rewrite !length_app_string.
  pose proof (pretty_Z_length (round_half_even (n * 10) (2 ^ 30) / 10)).
  pose proof (pretty_Z_length (round_half_even (n * 10) (2 ^ 30) `mod` 10)).
  change (String.length ".") with 1%nat. lia.
Qed.

Definition slab_source (source : string) : Prop := ∃ a ok c, source = (PreferAttributed a ok c).2.

Lemma heal_reason_length n source t : slab_source source → (64 < String.length (heal_reason n source t))%nat.
Proof.
  intros (a & ok & c & ->). unfold heal_reason, HealReasonPrefix. rewrite !length_app_string.
  pose proof (gib_length n). pose proof (gib_length t).
  destruct ok; cbn [PreferAttributed snd];
    repeat match goal with |- context [String.length (String ?a ?b)] =>
      let v := eval vm_compute in (String.length (String a b)) in
      change (String.length (String a b)) with v end; lia.
Qed.

Lemma ForceClosed_long previous sample p now reason s :
  ForceClosed previous sample p now reason = Ok s → (String.length reason ≤ 64)%nat.
Proof.
  unfold ForceClosed. intros H. apply bind_Ok in H as ([] & _ & ([] & _ & ([] & H & _)%bind_Ok)%bind_Ok).
  apply fail_if_Ok, orb_false_iff in H as [_ H%Nat.ltb_ge]. done.
Qed.

Section never.
Context (member path : string) (policy : Policy)
  (listing : Time → result (list Instance_)) (gate_env : Time → PublishEnv)
  (marker_fault : Time → option error) (probe : Time → result Sample)
  (active : Time → result bool) (start_fault : Time → option error)
  (cancelled : Time → bool) (oversleep : Time → Duration) (runs : Time → list timer_run).

Abbreviation deps := (deployed member path policy listing gate_env marker_fault probe active start_fault
  cancelled oversleep runs).

Lemma ForceClose_short env reason h h' scheduler :
  reason ≠ "" → ForceClose env member path policy reason h = (h', Ok scheduler) → (String.length reason ≤ 64)%nat.
Proof.
  intros Hne. unfold ForceClose, gate_publish.
  match goal with |- context [Reconcile env ?o h] => set (opts := o) end.
  destruct (Reconcile env opts h) as [h1 [r|e]] eqn:E; [|done]. intros _.
  apply Reconcile_applied in E as (_ & _ & prev & now & _ & Hst & _); [|done].
  unfold next_state, opts in Hst. simpl in Hst. rewrite bool_decide_eq_false_2 in Hst by done.
  by apply ForceClosed_long in Hst.
Qed.

(** The options the heal drains with. *)
Definition heal_options (f : Facts) (source : string) (o : Options) : Options := {|
  Drain_MemberName := Drain_MemberName o;
  Drain_Reason := heal_reason (SUnreclaimBytes f) source (ThresholdBytes f); TimerUnit := TimerUnit o;
  Timeout := Timeout o; Poll := Poll o; Drain_Apply := true; FenceOnly := false |}.

(** the automated heal can never reboot a member, and stops its publisher. The
    reason it drains with is always longer than the 64 bytes a forced closure
    accepts, so whatever the cluster, the files and the clock do, the drain fails
    and no reboot is requested; and when the marker was written before the
    refusal, it stays, and from then on every publisher cycle fails too. *)
Theorem slab_heal_never_reboots f source o apply fuel w w' outcome :
  slab_source source →
  runSlabHeal deps f source o apply fuel w = Some (w', outcome) →
  (∀ reason, outcome ≠ Rebooting reason) ∧
  (Heal (Decide f) = true → apply = true → is_Ok (normalised (heal_options f source o)) = true →
   marker_fault w.2 = None →
   (∃ e, outcome = DrainFailed e) ∧
   ∀ env apply' probe', (publish_cycle env member path policy apply' "" probe' w'.1).1 = w'.1 ∧
     is_Ok (publish_cycle env member path policy apply' "" probe' w'.1).2 = false).
Proof.
  intros Hsrc H. unfold runSlabHeal in H.
  destruct (negb (Heal (Decide f)) || negb apply) eqn:Hskip.
  { injection H as <- <-. split; [done|]. intros Hh Ha. by rewrite Hh, Ha in Hskip. }
  fold (heal_options f source o) in H.
  assert (64 < String.length (heal_reason (SUnreclaimBytes f) source (ThresholdBytes f)))%nat as Hlen
    by by apply heal_reason_length.
  assert (Drain_Reason (heal_options f source o) ≠ "") as Hne
    by (simpl; intros Heq; rewrite Heq in Hlen; simpl in Hlen; lia).
  assert (Drain_Apply (heal_options f source o) = true) as Hap by done.
  destruct (Drain deps (heal_options f source o) fuel w) as [[w1 r]|] eqn:ED; [|done].
  assert (is_Ok r = false) as Hfail.
  { destruct (is_Ok r) eqn:Hok; [exfalso|done]. destruct (normalised (heal_options f source o)) as [o'|e] eqn:Hn.
    - destruct (decide (marker_fault w.2 = None)) as [Hmf|Hmf].
      + destruct (Drain_deployed_effect _ _ _ _ _ _ _ _ _ _ _ _ _ _ _ _ _ _ Hap Hn Hne Hmf ED)
          as [_ (_ & env & h & h1 & sch & HF)]; [done|].
        apply ForceClose_short in HF; [|done]. cbn [heal_options Drain_Reason] in HF. lia.
      + destruct (Drain_deployed_refused _ _ _ _ _ _ _ _ _ _ _ _ _ _ _ _ _ Hap (or_intror (or_intror Hmf)) ED).
        congruence.
    - assert (is_Ok (normalised (heal_options f source o)) = false) as Hbad by by rewrite Hn.
      destruct (Drain_deployed_refused _ _ _ _ _ _ _ _ _ _ _ _ _ _ _ _ _ Hap (or_introl Hbad) ED). congruence. }
  destruct r as [r|e]; [done|]. injection H as <- <-. split; [done|]. intros _ _ Hn Hmf. split; [eauto|].
  destruct (normalised (heal_options f source o)) as [o'|] eqn:Hn'; [|done].
  destruct (Drain_deployed_effect _ _ _ _ _ _ _ _ _ _ _ _ _ _ _ _ _ _ Hap Hn' Hne Hmf ED) as [Hm _].
  intros env apply' probe'. apply publish_cycle_long_reason with w.2 (Drain_Reason (heal_options f source o)); [|done].
  cbn [heal_options Drain_Reason]. lia.
Qed.
End never.

(** ** Witness *)

Definition example_facts : Facts := {|
  SUnreclaimBytes := 3 * 2 ^ 30; ThresholdBytes := 2 * 2 ^ 30; SelfState := "open";
  OtherStates := {[ "gha-runner-2" := "open" ]}; NonWarmOccupants := 0; LastHealAt := zero_time;
  Cooldown := 12 * Hour; Facts_Now := 300 * Second |}.
Definition example_heal : option (World * HealOutcome) :=
  runSlabHeal example_deployed example_facts "memcg-attributed" (example_options true) true
    (wait_bound (example_normal true) 0) example_world.
Definition example_heal_world : World := match example_heal with Some (w, _) => w | None => example_world end.
Definition example_heal_outcome : HealOutcome := match example_heal with Some (_, r) => r | None => NotDrained end.

Lemma slab_heal_never_reboots_witness :
  heal_reason (3 * 2 ^ 30) "memcg-attributed" (2 * 2 ^ 30)
    = "slab-heal: SUnreclaim 3.0 GiB (memcg-attributed) over the 2.0 GiB budget" ∧
  (∃ e, example_heal_outcome = DrainFailed e) ∧
  is_Ok (publish_cycle example_publish_env "m1" "/var/lib/gate.json" example_gate_policy true ""
    (Ok (example_sample (140 * Second) 5 0)) example_heal_world.1).2 = false.
Proof.
  split; [vm_compute; reflexivity|].
  destruct (slab_heal_never_reboots "m1" "/var/lib/gate.json" example_gate_policy example_listing
    (λ _, example_publish_env) (λ _, None) (λ t, Ok (example_sample t 5 0)) (λ _, Ok true) (λ _, None)
    (λ _, false) (λ _, 0) example_runs example_facts "memcg-attributed" (example_options true) true
    (wait_bound (example_normal true) 0) example_world example_heal_world example_heal_outcome) as [_ H].
  - exists 0, true, 0. reflexivity.
  - vm_compute. reflexivity.
  - destruct H as [H1 H2].
    + vm_compute. reflexivity.
    + reflexivity.
    + vm_compute. reflexivity.
    + reflexivity.
    + split; [exact H1|]. exact (proj2 (H2 example_publish_env true (Ok (example_sample (140 * Second) 5 0)))).
Defined.
