(* ===== verification/QueueIntent.v ===== *)
(** * Queue intents: data and validation
    ([src/third_party/garm/overlay/workers/scaleset/queue_intent.go])

    The durable queue added to GARM: one intent per GitHub job, repositories with
    a stride-scheduling pass, and tombstones of terminal jobs. This file holds
    the data, the configuration and journal checks, and the identity rules. *)

From S2P Require Import Prelude.

Local Open Scope Z_scope.
Local Open Scope go_scope.

(** ** Data *)

Inductive queueIntentState :=
  | queueStateQueued | queueStateAcquiring | queueStateAcquired | queueStateAssigned | queueStateRunning
  | OtherQueueState (s : string).

#[export] Instance queueIntentState_eq_dec : EqDecision queueIntentState.
Proof. solve_decision. Defined.

Record queueRepositoryPolicy := {
  Policy_Weight : Z;
  Policy_MaxInFlight : Z;
}.

Record queueResourceBudget := {
  CPUUnits : Z;
  MemoryMiB : Z;
}.

Record queueScaleSetResources := {
  Resources_CPUUnits : Z;
  Resources_MemoryMiB : Z;
  ReservationCPUUnits : Z;
  ReservationMemoryMiB : Z;
  Resources_Priority : Z;
}.

(** [Repositories] is [None] when the configuration holds a null map. *)
Record queueAdmissionConfig := {
  Config_SchemaVersion : Z;
  MaxInFlight : Z;
  MaxBackgroundInFlight : Z;
  DefaultRepositoryLimit : Z;
  DefaultWeight : Z;
  QueuedTTLSeconds : Z;
  AcquiringTTLSeconds : Z;
  AcquiredTTLSeconds : Z;
  ExecutionTTLSeconds : Z;
  PriorityAgingSeconds : Z;
  MaxRepositorySharePercent : Z;
  Capacity : queueResourceBudget;
  ScaleSets : gmap string queueScaleSetResources;
  Config_Repositories : option (gmap string queueRepositoryPolicy);
}.

Record queueIntent := {
  Key : string;
  ScaleSetID : Z;
  JobID : string;
  RunnerRequestID : Z;
  WorkflowRunID : Z;
  JobDisplayName : string;
  GitHubRunnerID : Z;
  ScaleSetName : string;
  RunnerName : string;
  Owner : string;
  Repository : string;
  WorkflowRef : string;
  EventName : string;
  QueueTime : Time;
  FirstQueuedAt : Time;
  State : queueIntentState;
  Priority : Z;
  StateEnteredAt : Time;
  UpdatedAt : Time;
  ExpiresAt : Time;
}.

#[export] Instance queueIntent_eq_dec : EqDecision queueIntent.
Proof. solve_decision. Defined.

Record queueRepositoryState := {
  RepositoryState_Repository : string;
  Weight : Z;
  Pass : Z;
}.

#[export] Instance queueRepositoryState_eq_dec : EqDecision queueRepositoryState.
Proof. solve_decision. Defined.

Record queueIntentJournal := {
  Journal_SchemaVersion : Z;
  Generation : Z;
  Journal_UpdatedAt : Time;
  Intents : gmap string queueIntent;
  Repositories : gmap string queueRepositoryState;
  TerminalJobs : gmap string Time;
}.

#[export] Instance queueIntentJournal_eq_dec : EqDecision queueIntentJournal.
Proof. solve_decision. Defined.

(** Field updates. *)
Definition set_RunnerRequestID (v : Z) (i : queueIntent) : queueIntent := {|
  Key := Key i; ScaleSetID := ScaleSetID i; JobID := JobID i; RunnerRequestID := v;
  WorkflowRunID := WorkflowRunID i; JobDisplayName := JobDisplayName i; GitHubRunnerID := GitHubRunnerID i;
  ScaleSetName := ScaleSetName i; RunnerName := RunnerName i; Owner := Owner i; Repository := Repository i;
  WorkflowRef := WorkflowRef i; EventName := EventName i; QueueTime := QueueTime i;
  FirstQueuedAt := FirstQueuedAt i; State := State i; Priority := Priority i;
  StateEnteredAt := StateEnteredAt i; UpdatedAt := UpdatedAt i; ExpiresAt := ExpiresAt i |}.
Definition set_WorkflowRunID (v : Z) (i : queueIntent) : queueIntent := {|
  Key := Key i; ScaleSetID := ScaleSetID i; JobID := JobID i; RunnerRequestID := RunnerRequestID i;
  WorkflowRunID := v; JobDisplayName := JobDisplayName i; GitHubRunnerID := GitHubRunnerID i;
  ScaleSetName := ScaleSetName i; RunnerName := RunnerName i; Owner := Owner i; Repository := Repository i;
  WorkflowRef := WorkflowRef i; EventName := EventName i; QueueTime := QueueTime i;
  FirstQueuedAt := FirstQueuedAt i; State := State i; Priority := Priority i;
  StateEnteredAt := StateEnteredAt i; UpdatedAt := UpdatedAt i; ExpiresAt := ExpiresAt i |}.
Definition set_JobDisplayName (v : string) (i : queueIntent) : queueIntent := {|
  Key := Key i; ScaleSetID := ScaleSetID i; JobID := JobID i; RunnerRequestID := RunnerRequestID i;
  WorkflowRunID := WorkflowRunID i; JobDisplayName := v; GitHubRunnerID := GitHubRunnerID i;
  ScaleSetName := ScaleSetName i; RunnerName := RunnerName i; Owner := Owner i; Repository := Repository i;
  WorkflowRef := WorkflowRef i; EventName := EventName i; QueueTime := QueueTime i;
  FirstQueuedAt := FirstQueuedAt i; State := State i; Priority := Priority i;
  StateEnteredAt := StateEnteredAt i; UpdatedAt := UpdatedAt i; ExpiresAt := ExpiresAt i |}.
Definition set_GitHubRunnerID (v : Z) (i : queueIntent) : queueIntent := {|
  Key := Key i; ScaleSetID := ScaleSetID i; JobID := JobID i; RunnerRequestID := RunnerRequestID i;
  WorkflowRunID := WorkflowRunID i; JobDisplayName := JobDisplayName i; GitHubRunnerID := v;
  ScaleSetName := ScaleSetName i; RunnerName := RunnerName i; Owner := Owner i; Repository := Repository i;
  WorkflowRef := WorkflowRef i; EventName := EventName i; QueueTime := QueueTime i;
  FirstQueuedAt := FirstQueuedAt i; State := State i; Priority := Priority i;
  StateEnteredAt := StateEnteredAt i; UpdatedAt := UpdatedAt i; ExpiresAt := ExpiresAt i |}.
Definition set_RunnerName (v : string) (i : queueIntent) : queueIntent := {|
  Key := Key i; ScaleSetID := ScaleSetID i; JobID := JobID i; RunnerRequestID := RunnerRequestID i;
  WorkflowRunID := WorkflowRunID i; JobDisplayName := JobDisplayName i; GitHubRunnerID := GitHubRunnerID i;
  ScaleSetName := ScaleSetName i; RunnerName := v; Owner := Owner i; Repository := Repository i;
  WorkflowRef := WorkflowRef i; EventName := EventName i; QueueTime := QueueTime i;
  FirstQueuedAt := FirstQueuedAt i; State := State i; Priority := Priority i;
  StateEnteredAt := StateEnteredAt i; UpdatedAt := UpdatedAt i; ExpiresAt := ExpiresAt i |}.
Definition set_Repository (v : string) (i : queueIntent) : queueIntent := {|
  Key := Key i; ScaleSetID := ScaleSetID i; JobID := JobID i; RunnerRequestID := RunnerRequestID i;
  WorkflowRunID := WorkflowRunID i; JobDisplayName := JobDisplayName i; GitHubRunnerID := GitHubRunnerID i;
  ScaleSetName := ScaleSetName i; RunnerName := RunnerName i; Owner := Owner i; Repository := v;
  WorkflowRef := WorkflowRef i; EventName := EventName i; QueueTime := QueueTime i;
  FirstQueuedAt := FirstQueuedAt i; State := State i; Priority := Priority i;
  StateEnteredAt := StateEnteredAt i; UpdatedAt := UpdatedAt i; ExpiresAt := ExpiresAt i |}.
Definition set_WorkflowRef (v : string) (i : queueIntent) : queueIntent := {|
  Key := Key i; ScaleSetID := ScaleSetID i; JobID := JobID i; RunnerRequestID := RunnerRequestID i;
  WorkflowRunID := WorkflowRunID i; JobDisplayName := JobDisplayName i; GitHubRunnerID := GitHubRunnerID i;
  ScaleSetName := ScaleSetName i; RunnerName := RunnerName i; Owner := Owner i; Repository := Repository i;
  WorkflowRef := v; EventName := EventName i; QueueTime := QueueTime i; FirstQueuedAt := FirstQueuedAt i;
  State := State i; Priority := Priority i; StateEnteredAt := StateEnteredAt i; UpdatedAt := UpdatedAt i;
  ExpiresAt := ExpiresAt i |}.
Definition set_EventName (v : string) (i : queueIntent) : queueIntent := {|
  Key := Key i; ScaleSetID := ScaleSetID i; JobID := JobID i; RunnerRequestID := RunnerRequestID i;
  WorkflowRunID := WorkflowRunID i; JobDisplayName := JobDisplayName i; GitHubRunnerID := GitHubRunnerID i;
  ScaleSetName := ScaleSetName i; RunnerName := RunnerName i; Owner := Owner i; Repository := Repository i;
  WorkflowRef := WorkflowRef i; EventName := v; QueueTime := QueueTime i; FirstQueuedAt := FirstQueuedAt i;
  State := State i; Priority := Priority i; StateEnteredAt := StateEnteredAt i; UpdatedAt := UpdatedAt i;
  ExpiresAt := ExpiresAt i |}.
Definition set_QueueTime (v : Time) (i : queueIntent) : queueIntent := {|
  Key := Key i; ScaleSetID := ScaleSetID i; JobID := JobID i; RunnerRequestID := RunnerRequestID i;
  WorkflowRunID := WorkflowRunID i; JobDisplayName := JobDisplayName i; GitHubRunnerID := GitHubRunnerID i;
  ScaleSetName := ScaleSetName i; RunnerName := RunnerName i; Owner := Owner i; Repository := Repository i;
  WorkflowRef := WorkflowRef i; EventName := EventName i; QueueTime := v; FirstQueuedAt := FirstQueuedAt i;
  State := State i; Priority := Priority i; StateEnteredAt := StateEnteredAt i; UpdatedAt := UpdatedAt i;
  ExpiresAt := ExpiresAt i |}.
Definition set_FirstQueuedAt (v : Time) (i : queueIntent) : queueIntent := {|
  Key := Key i; ScaleSetID := ScaleSetID i; JobID := JobID i; RunnerRequestID := RunnerRequestID i;
  WorkflowRunID := WorkflowRunID i; JobDisplayName := JobDisplayName i; GitHubRunnerID := GitHubRunnerID i;
  ScaleSetName := ScaleSetName i; RunnerName := RunnerName i; Owner := Owner i; Repository := Repository i;
  WorkflowRef := WorkflowRef i; EventName := EventName i; QueueTime := QueueTime i; FirstQueuedAt := v;
  State := State i; Priority := Priority i; StateEnteredAt := StateEnteredAt i; UpdatedAt := UpdatedAt i;
  ExpiresAt := ExpiresAt i |}.
Definition set_Priority (v : Z) (i : queueIntent) : queueIntent := {|
  Key := Key i; ScaleSetID := ScaleSetID i; JobID := JobID i; RunnerRequestID := RunnerRequestID i;
  WorkflowRunID := WorkflowRunID i; JobDisplayName := JobDisplayName i; GitHubRunnerID := GitHubRunnerID i;
  ScaleSetName := ScaleSetName i; RunnerName := RunnerName i; Owner := Owner i; Repository := Repository i;
  WorkflowRef := WorkflowRef i; EventName := EventName i; QueueTime := QueueTime i;
  FirstQueuedAt := FirstQueuedAt i; State := State i; Priority := v; StateEnteredAt := StateEnteredAt i;
  UpdatedAt := UpdatedAt i; ExpiresAt := ExpiresAt i |}.
Definition set_UpdatedAt (v : Time) (i : queueIntent) : queueIntent := {|
  Key := Key i; ScaleSetID := ScaleSetID i; JobID := JobID i; RunnerRequestID := RunnerRequestID i;
  WorkflowRunID := WorkflowRunID i; JobDisplayName := JobDisplayName i; GitHubRunnerID := GitHubRunnerID i;
  ScaleSetName := ScaleSetName i; RunnerName := RunnerName i; Owner := Owner i; Repository := Repository i;
  WorkflowRef := WorkflowRef i; EventName := EventName i; QueueTime := QueueTime i;
  FirstQueuedAt := FirstQueuedAt i; State := State i; Priority := Priority i;
  StateEnteredAt := StateEnteredAt i; UpdatedAt := v; ExpiresAt := ExpiresAt i |}.
Definition set_ExpiresAt (v : Time) (i : queueIntent) : queueIntent := {|
  Key := Key i; ScaleSetID := ScaleSetID i; JobID := JobID i; RunnerRequestID := RunnerRequestID i;
  WorkflowRunID := WorkflowRunID i; JobDisplayName := JobDisplayName i; GitHubRunnerID := GitHubRunnerID i;
  ScaleSetName := ScaleSetName i; RunnerName := RunnerName i; Owner := Owner i; Repository := Repository i;
  WorkflowRef := WorkflowRef i; EventName := EventName i; QueueTime := QueueTime i;
  FirstQueuedAt := FirstQueuedAt i; State := State i; Priority := Priority i;
  StateEnteredAt := StateEnteredAt i; UpdatedAt := UpdatedAt i; ExpiresAt := v |}.
Definition set_phase (st : queueIntentState) (entered updated expires : Time) (i : queueIntent) : queueIntent := {|
  Key := Key i; ScaleSetID := ScaleSetID i; JobID := JobID i; RunnerRequestID := RunnerRequestID i;
  WorkflowRunID := WorkflowRunID i; JobDisplayName := JobDisplayName i; GitHubRunnerID := GitHubRunnerID i;
  ScaleSetName := ScaleSetName i; RunnerName := RunnerName i; Owner := Owner i; Repository := Repository i;
  WorkflowRef := WorkflowRef i; EventName := EventName i; QueueTime := QueueTime i;
  FirstQueuedAt := FirstQueuedAt i; State := st; Priority := Priority i; StateEnteredAt := entered;
  UpdatedAt := updated; ExpiresAt := expires |}.

Definition with_intents (m : gmap string queueIntent) (j : queueIntentJournal) : queueIntentJournal := {|
  Journal_SchemaVersion := Journal_SchemaVersion j; Generation := Generation j;
  Journal_UpdatedAt := Journal_UpdatedAt j; Intents := m; Repositories := Repositories j;
  TerminalJobs := TerminalJobs j |}.
Definition with_repositories (m : gmap string queueRepositoryState) (j : queueIntentJournal) : queueIntentJournal := {|
  Journal_SchemaVersion := Journal_SchemaVersion j; Generation := Generation j;
  Journal_UpdatedAt := Journal_UpdatedAt j; Intents := Intents j; Repositories := m;
  TerminalJobs := TerminalJobs j |}.
Definition with_terminal (m : gmap string Time) (j : queueIntentJournal) : queueIntentJournal := {|
  Journal_SchemaVersion := Journal_SchemaVersion j; Generation := Generation j;
  Journal_UpdatedAt := Journal_UpdatedAt j; Intents := Intents j; Repositories := Repositories j;
  TerminalJobs := m |}.

Definition queueAdmissionSchemaVersion : Z := 5.
Definition queueIntentLegacySchemaVersion : Z := 1.
Definition queueIntentPreviousSchemaVersion : Z := 5.
Definition queueIntentSchemaVersion : Z := 6.
Definition queueSchedulerStride : Z := 1000000.
Definition queueAcquireRetryDelay : Duration := 5 * Second.
Definition queueMaxInFlightCeiling : Z := 64.

Definition newQueueIntentJournal : queueIntentJournal := {|
  Journal_SchemaVersion := queueIntentSchemaVersion; Generation := 0; Journal_UpdatedAt := zero_time;
  Intents := ∅; Repositories := ∅; TerminalJobs := ∅ |}.

(** ** Text and identity *)

Definition carriage_return : ascii := ascii_of_nat 13.
Definition line_feed : ascii := ascii_of_nat 10.
Definition nul_byte : ascii := ascii_of_nat 0.
Definition slash : ascii := "/".

Definition validQueueText (value : string) : bool :=
  negb (bool_decide (value = "")) && (String.length value <=? 1024)%nat && trimmed value &&
  negb (contains_byte carriage_return value || contains_byte line_feed value || contains_byte nul_byte value).

Definition validRepository (repository : string) : bool :=
  match split_byte slash repository with
  | [owner; name] => validQueueText owner && validQueueText name
  | _ => false
  end.

Definition validQueueAccountOrRepository (value : string) : bool :=
  validRepository value || (validQueueText value && negb (contains_byte slash value)).

Definition queueIntentKey (scaleSetID : Z) (jobID : string) : string :=
  "github-scale-set-job:v2:" +:+ pretty scaleSetID +:+ ":" +:+ jobID.

Definition queueIntentRepositoryBound (i : queueIntent) : bool := contains_byte slash (Repository i).

(** The comparison takes the incoming repository; the incoming intent's other
    fields are not read. *)
Definition queueIntentRepositoryCompatible (existing : queueIntent) (incoming : string) : bool :=
  if bool_decide (Repository existing = incoming) then true
  else if queueIntentRepositoryBound existing || negb (contains_byte slash incoming) then false
  else bool_decide (Repository existing = Owner existing) && HasPrefix incoming (Owner existing +:+ "/").

Definition queueIntentCoreIdentityEqual (existing incoming : queueIntent) : bool :=
  bool_decide (Key existing = Key incoming) && bool_decide (ScaleSetID existing = ScaleSetID incoming) &&
  bool_decide (JobID existing = JobID incoming) && bool_decide (ScaleSetName existing = ScaleSetName incoming) &&
  bool_decide (Owner existing = Owner incoming) && queueIntentRepositoryCompatible existing (Repository incoming).

Definition queueIntentMetadataEqual (left right : queueIntent) : bool :=
  bool_decide (WorkflowRunID left = WorkflowRunID right) && bool_decide (JobDisplayName left = JobDisplayName right) &&
  bool_decide (GitHubRunnerID left = GitHubRunnerID right) && bool_decide (WorkflowRef left = WorkflowRef right) &&
  bool_decide (EventName left = EventName right) && bool_decide (QueueTime left = QueueTime right) &&
  bool_decide (Priority left = Priority right).

(** ** Resources *)

Definition reservation (r : queueScaleSetResources) : queueResourceBudget :=
  if (0 <? ReservationCPUUnits r) && (0 <? ReservationMemoryMiB r)
  then {| CPUUnits := ReservationCPUUnits r; MemoryMiB := ReservationMemoryMiB r |}
  else
    let memory :=
      if Resources_MemoryMiB r =? 2048 then 512 else if Resources_MemoryMiB r =? 3072 then 512
      else if Resources_MemoryMiB r =? 4096 then 2560 else if Resources_MemoryMiB r =? 6144 then 2048 else 0 in
    if memory =? 0 then {| CPUUnits := Resources_CPUUnits r; MemoryMiB := Resources_MemoryMiB r |}
    else {| CPUUnits := 1; MemoryMiB := memory |}.

Definition percentageCeiling (total percent : Z) : Z := (total ⊗ percent ⊕ 99) ⊘ 100.

(** ** Validation *)

(** The loops walk maps and only decide whether some entry is refused. *)
Definition scale_set_ok (c : queueAdmissionConfig) (name : string) (resources : queueScaleSetResources) : bool :=
  let res := reservation resources in
  negb (negb (validQueueText name) || (Resources_CPUUnits resources <? 1)
        || (CPUUnits (Capacity c) <? Resources_CPUUnits resources)
        || (Resources_MemoryMiB resources <? 1) || (MemoryMiB (Capacity c) <? Resources_MemoryMiB resources)
        || (CPUUnits res <? 1) || (Resources_CPUUnits resources <? CPUUnits res)
        || (MemoryMiB res <? 256) || negb (MemoryMiB res `rem` 256 =? 0)
        || (Resources_MemoryMiB resources <? MemoryMiB res)
        || (Resources_Priority resources <? 0) || (2 <? Resources_Priority resources)).

Definition repository_policy_ok (c : queueAdmissionConfig) (repository : string) (p : queueRepositoryPolicy) : bool :=
  negb (negb (validRepository repository) || (Policy_Weight p =? 0) || (100 <? Policy_Weight p)
        || (Policy_MaxInFlight p <? 1) || (MaxInFlight c <? Policy_MaxInFlight p)).

Definition Config_Validate (c : queueAdmissionConfig) : result unit :=
  fail_if (negb (Config_SchemaVersion c =? queueAdmissionSchemaVersion)
           || (MaxInFlight c <? 1) || (queueMaxInFlightCeiling <? MaxInFlight c)
           || (MaxBackgroundInFlight c <? 1) || (MaxInFlight c <? MaxBackgroundInFlight c)
           || (DefaultWeight c =? 0) || (100 <? DefaultWeight c))
    (Errorf "queue admission identity or global limits are invalid" []);;
  fail_if ((DefaultRepositoryLimit c <? 1) || (MaxInFlight c <? DefaultRepositoryLimit c))
    (Errorf "queue admission default repository limit %d is outside 1..%d" []);;
  fail_if (negb (QueuedTTLSeconds c =? 600) || negb (AcquiringTTLSeconds c =? 120)
           || negb (AcquiredTTLSeconds c =? 600) || negb (ExecutionTTLSeconds c =? 86400)
           || negb (PriorityAgingSeconds c =? 300) || negb (MaxRepositorySharePercent c =? 75))
    (Errorf "queue admission pilot TTL/aging policy is invalid" []);;
  fail_if ((CPUUnits (Capacity c) <? 1) || (1024 <? CPUUnits (Capacity c))
           || (MemoryMiB (Capacity c) <? 1024) || (2 ^ 24 <? MemoryMiB (Capacity c)))
    (Errorf "queue admission resource capacity is invalid" []);;
  fail_if (bool_decide (ScaleSets c = ∅)) (Errorf "queue admission scale-set resources must not be empty" []);;
  fail_if (negb (forallb (λ ns, scale_set_ok c ns.1 ns.2) (map_to_list (ScaleSets c))))
    (Errorf "queue admission scale-set resources %q are invalid" []);;
  match Config_Repositories c with
  | None => Err (Errorf "queue admission repositories must not be null" [])
  | Some repositories =>
      fail_if (negb (forallb (λ rp, repository_policy_ok c rp.1 rp.2) (map_to_list repositories)))
        (Errorf "queue admission repository policy %q is invalid" [])
  end.

Definition repositoryPolicy (c : queueAdmissionConfig) (repository : string) : queueRepositoryPolicy :=
  match default ∅ (Config_Repositories c) !! repository with
  | Some p => p
  | None => {| Policy_Weight := DefaultWeight c; Policy_MaxInFlight := DefaultRepositoryLimit c |}
  end.

Definition known_queue_state (s : queueIntentState) : bool :=
  match s with OtherQueueState _ => false | _ => true end.

Definition intent_ok (key : string) (i : queueIntent) : bool :=
  negb (bool_decide (key = "") || negb (bool_decide (Key i = key))
        || negb (bool_decide (Key i = queueIntentKey (ScaleSetID i) (JobID i)))
        || (ScaleSetID i <=? 0) || negb (validQueueText (JobID i)) || (RunnerRequestID i <? 0)
        || (WorkflowRunID i <? 0) || (GitHubRunnerID i <? 0) || negb (validQueueText (ScaleSetName i))
        || (negb (bool_decide (JobDisplayName i = "")) && negb (validQueueText (JobDisplayName i)))
        || (negb (bool_decide (RunnerName i = "")) && negb (validQueueText (RunnerName i)))
        || negb (validQueueAccountOrRepository (Repository i)) || negb (validQueueText (WorkflowRef i))
        || negb (validQueueText (EventName i)) || IsZero (QueueTime i) || IsZero (StateEnteredAt i)
        || After (StateEnteredAt i) (UpdatedAt i) || IsZero (UpdatedAt i) || Before (ExpiresAt i) (UpdatedAt i)
        || (Priority i <? 0) || (3 <? Priority i)) &&
  negb (negb (queueIntentRepositoryBound i) && negb (bool_decide (Repository i = Owner i))) &&
  known_queue_state (State i).

Definition repository_state_ok (key : string) (s : queueRepositoryState) : bool :=
  negb (negb (validQueueAccountOrRepository key) || negb (bool_decide (RepositoryState_Repository s = key))
        || (Weight s =? 0) || (100 <? Weight s)).

Definition terminal_ok (jobID : string) (expiry : Time) : bool :=
  negb (negb (validQueueText jobID) || IsZero expiry).

Definition Journal_Validate (j : queueIntentJournal) : result unit :=
  fail_if (negb (Journal_SchemaVersion j =? queueIntentSchemaVersion))
    (Errorf "queue-intent journal identity or maps are invalid" []);;
  fail_if (negb (forallb (λ ki, intent_ok ki.1 ki.2) (map_to_list (Intents j))))
    (Errorf "queue intent %q is invalid" []);;
  fail_if (negb (forallb (λ rs, repository_state_ok rs.1 rs.2) (map_to_list (Repositories j))))
    (Errorf "queue repository state %q is invalid" []);;
  fail_if (negb (forallb (λ te, terminal_ok te.1 te.2) (map_to_list (TerminalJobs j))))
    (Errorf "terminal queue job %q is invalid" []).

(** ** Expiry *)

Definition expiryForState (c : queueAdmissionConfig) (state : queueIntentState) (now : Time) : Time :=
  Add now (seconds
    match state with
    | queueStateAcquiring => AcquiringTTLSeconds c
    | queueStateAcquired | queueStateAssigned => AcquiredTTLSeconds c
    | queueStateRunning => ExecutionTTLSeconds c
    | _ => QueuedTTLSeconds c
    end).

(** The FIFO clock. *)
Definition queueWaitSince (i : queueIntent) : Time :=
  if negb (IsZero (FirstQueuedAt i)) then FirstQueuedAt i else QueueTime i.

Definition first_queued_or (now : Time) (i : queueIntent) : queueIntent :=
  if IsZero (FirstQueuedAt i) then
    let i := set_FirstQueuedAt (QueueTime i) i in
    if IsZero (FirstQueuedAt i) then set_FirstQueuedAt now i else i
  else i.

Definition execution_horizon (c : queueAdmissionConfig) (i : queueIntent) : Time :=
  Add (FirstQueuedAt i) (seconds (ExecutionTTLSeconds c)).

(** [retainNeverStartedQueueIntent]: the retained intent, or [None]. *)
Definition retainNeverStartedQueueIntent (c : queueAdmissionConfig) (now : Time) (i : queueIntent) : option queueIntent :=
  if negb (bool_decide (RunnerName i = "")) || bool_decide (State i = queueStateRunning) then None
  else
    let i := first_queued_or now i in
    let horizon := execution_horizon c i in
    if negb (After horizon now) then None
    else
      let next := expiryForState c queueStateQueued now in
      let next := if After next horizon then horizon else next in
      match State i with
      | queueStateAssigned =>
          if negb (RunnerRequestID i =? 0) then None
          else Some (set_phase queueStateQueued now now next i)
      | queueStateQueued => Some (set_ExpiresAt next (set_UpdatedAt now i))
      | _ => None
      end.

Definition cleanupExpiredQueueIntents (c : queueAdmissionConfig) (now : Time) (j : queueIntentJournal) : queueIntentJournal :=
  with_intents (omap (λ i, if After (ExpiresAt i) now then Some i else retainNeverStartedQueueIntent c now i) (Intents j)) j.

Definition markTerminalJob (jobID : string) (expiry : Time) (j : queueIntentJournal) : queueIntentJournal :=
  match TerminalJobs j !! jobID with
  | Some current =>
      if After current expiry then j else with_terminal (<[jobID := expiry]> (TerminalJobs j)) j
  | None => with_terminal (<[jobID := expiry]> (TerminalJobs j)) j
  end.

Definition cleanupExpiredTerminalJobs (now : Time) (j : queueIntentJournal) : queueIntentJournal :=
  with_terminal (filter (λ te, After te.2 now = true) (TerminalJobs j)) j.

Definition migrateLegacyQueueIntentOwnership (c : queueAdmissionConfig) (now : Time) (j : queueIntentJournal)
    : queueIntentJournal :=
  let cap state i := let deadline := expiryForState c state now in
    if After (ExpiresAt i) deadline then set_ExpiresAt deadline i else i in
  with_intents ((λ i,
    match State i with
    | queueStateAssigned =>
        if (RunnerRequestID i =? 0) && After (ExpiresAt i) (Add now (seconds (AcquiredTTLSeconds c)))
        then set_phase queueStateQueued (StateEnteredAt i) (UpdatedAt i) (expiryForState c queueStateQueued now) i
        else cap queueStateAssigned i
    | queueStateAcquired => cap queueStateAcquired i
    | _ => i
    end) <$> Intents j) j.
