(* ===== verification/QueueScheduler.v ===== *)
(** * Queue scheduler
    ([src/third_party/garm/overlay/workers/scaleset/queue_intent.go])

    Which queued intent may take the next slot: budgets, the candidate order
    (effective priority, stride pass, waiting time, key), resource fit, admission
    to the budget and yielding of slots held without a runner request.

    Sorting candidates has a side effect in the source: comparing two candidates
    of equal effective priority stores both repositories' scheduling state. Any
    comparison sort compares neighbours of its result, so exactly the
    repositories of candidates that share their effective priority with another
    candidate are stored, whatever the algorithm ([sort_effect]). *)

From S2P Require Import Prelude QueueIntent.

Local Open Scope Z_scope.
Local Open Scope go_scope.

(** ** Counting *)

Definition intents_of (j : queueIntentJournal) : list queueIntent := (map_to_list (Intents j)).*2.

Definition countZ {A} (p : A → bool) (xs : list A) : Z := Z.of_nat (length (filter (λ x, p x = true) xs)).

Definition is_queued (i : queueIntent) : bool := bool_decide (State i = queueStateQueued).
Definition in_flight (i : queueIntent) : bool := negb (is_queued i).

(** [queueInFlight]: the total and, per repository, the count. *)
Definition globalInFlight (j : queueIntentJournal) : Z := countZ in_flight (intents_of j).
Definition repositoryInFlight (j : queueIntentJournal) (repository : string) : Z :=
  countZ (λ i, in_flight i && bool_decide (Repository i = repository)) (intents_of j).

Definition queueBackgroundInFlight (j : queueIntentJournal) : Z :=
  countZ (λ i, in_flight i && (Priority i =? 2)) (intents_of j).

Definition queueHasCompetingRepository (j : queueIntentJournal) (repository : string) : bool :=
  existsb (λ i, is_queued i && negb (bool_decide (Repository i = repository))) (intents_of j).

(** [queueResourcesInFlight]: [None] when an intent in flight has no resource
    contract. The sums are over the intents in flight, all and per repository. *)
Definition reservation_of (c : queueAdmissionConfig) (i : queueIntent) : option queueResourceBudget :=
  reservation <$> ScaleSets c !! ScaleSetName i.

Definition sum_reserved (c : queueAdmissionConfig) (field : queueResourceBudget → Z) (xs : list queueIntent) : Z :=
  foldl (λ acc i, acc ⊕ from_option field 0 (reservation_of c i)) 0 xs.

Record queueResourceUsage := {
  usage_cpu : Z;
  usage_memory : Z;
}.

Definition usage_of (c : queueAdmissionConfig) (xs : list queueIntent) : queueResourceUsage :=
  {| usage_cpu := sum_reserved c CPUUnits xs; usage_memory := sum_reserved c MemoryMiB xs |}.

Definition queueResourcesInFlight (c : queueAdmissionConfig) (j : queueIntentJournal)
    : option (queueResourceUsage * (string → queueResourceUsage)) :=
  let xs := filter (λ i, in_flight i = true) (intents_of j) in
  if forallb (λ i, bool_decide (is_Some (ScaleSets c !! ScaleSetName i))) xs
  then Some (usage_of c xs, λ repository, usage_of c (filter (λ i, Repository i = repository) xs))
  else None.

(** ** Order *)

Definition maxQueuePriority (left right : Z) : Z := if right <? left then left else right.

Definition effectiveQueuePriority (c : queueAdmissionConfig) (now : Time) (i : queueIntent) : Z :=
  let waitSince := queueWaitSince i in
  if (Priority i <=? 1) || negb (After now waitSince) then Priority i
  else
    let aged := Sub now waitSince ⊘ seconds (PriorityAgingSeconds c) in
    maxQueuePriority 1 (Priority i ⊖ aged).

Definition repository_pass (repositories : gmap string queueRepositoryState) (repository : string) : Z :=
  from_option Pass 0 (repositories !! repository).

(** [ensureRepositoryState] on the map of repositories. *)
Definition ensured_state (c : queueAdmissionConfig) (repositories : gmap string queueRepositoryState)
    (repository : string) : queueRepositoryState := {|
  RepositoryState_Repository := from_option RepositoryState_Repository repository (repositories !! repository);
  Weight := Policy_Weight (repositoryPolicy c repository);
  Pass := repository_pass repositories repository |}.
Definition ensure_repository (c : queueAdmissionConfig) (repository : string)
    (repositories : gmap string queueRepositoryState) : gmap string queueRepositoryState :=
  <[repository := ensured_state c repositories repository]> repositories.
Definition ensureRepositoryState (c : queueAdmissionConfig) (repository : string) (j : queueIntentJournal)
    : queueIntentJournal :=
  with_repositories (ensure_repository c repository (Repositories j)) j.

Definition candidate_less (c : queueAdmissionConfig) (now : Time) (repositories : gmap string queueRepositoryState)
    (left right : queueIntent) : bool :=
  let leftPriority := effectiveQueuePriority c now left in
  let rightPriority := effectiveQueuePriority c now right in
  if negb (leftPriority =? rightPriority) then leftPriority <? rightPriority
  else
    let leftPass := repository_pass repositories (Repository left) in
    let rightPass := repository_pass repositories (Repository right) in
    if negb (leftPass =? rightPass) then leftPass <? rightPass
    else if negb (queueWaitSince left =? queueWaitSince right)
         then Before (queueWaitSince left) (queueWaitSince right)
         else string_ltb (Key left) (Key right).

Definition compared (c : queueAdmissionConfig) (now : Time) (candidates : list queueIntent) (i : queueIntent) : bool :=
  existsb (λ k, negb (bool_decide (Key k = Key i))
                && (effectiveQueuePriority c now k =? effectiveQueuePriority c now i)) candidates.

Definition sort_effect (c : queueAdmissionConfig) (now : Time) (candidates : list queueIntent)
    (repositories : gmap string queueRepositoryState) : gmap string queueRepositoryState :=
  foldr (λ i, ensure_repository c (Repository i)) repositories
    (filter (λ i, compared c now candidates i = true) candidates).

Definition sortQueueAdmissionCandidates (c : queueAdmissionConfig) (now : Time) (j : queueIntentJournal)
    (candidates : list queueIntent) : queueIntentJournal * list queueIntent :=
  (with_repositories (sort_effect c now candidates (Repositories j)) j,
   sort_slice (candidate_less c now (Repositories j)) candidates).

(** ** Candidates *)

Definition tombstoned (j : queueIntentJournal) (now : Time) (jobID : string) : bool :=
  match TerminalJobs j !! jobID with Some expiry => After expiry now | None => false end.

Definition queueIntentAdmissionBlocked (c : queueAdmissionConfig) (j : queueIntentJournal)
    (inFlight : string → Z) (backgroundInFlight : Z) (now : Time) (i : queueIntent) : bool :=
  let limit := Policy_MaxInFlight (repositoryPolicy c (Repository i)) in
  let limit := if queueHasCompetingRepository j (Repository i)
               then Z.min limit (percentageCeiling (MaxInFlight c) (MaxRepositorySharePercent c)) else limit in
  negb (is_queued i) || tombstoned j now (JobID i) || (limit <=? inFlight (Repository i))
  || ((Priority i =? 2) && (MaxBackgroundInFlight c <=? backgroundInFlight)).

Definition dispatchableAdmissionCandidates (c : queueAdmissionConfig) (j : queueIntentJournal)
    (inFlight : string → Z) (now : Time) : queueIntentJournal * list queueIntent :=
  let background := queueBackgroundInFlight j in
  sortQueueAdmissionCandidates c now j
    (filter (λ i, ((RunnerRequestID i =? 0) || queueIntentAdmissionBlocked c j inFlight background now i) = false)
       (intents_of j)).

Definition fits_global (c : queueAdmissionConfig) (usage : queueResourceUsage) (res : queueResourceBudget) : bool :=
  (usage_cpu usage ⊕ CPUUnits res <=? CPUUnits (Capacity c)) &&
  (usage_memory usage ⊕ MemoryMiB res <=? MemoryMiB (Capacity c)).

Definition fits_repository (c : queueAdmissionConfig) (j : queueIntentJournal) (repository : string)
    (usage : queueResourceUsage) (res : queueResourceBudget) : bool :=
  if queueHasCompetingRepository j repository then
    let cpuLimit := Z.max (CPUUnits res) (percentageCeiling (CPUUnits (Capacity c)) (MaxRepositorySharePercent c)) in
    let memoryLimit := Z.max (MemoryMiB res) (percentageCeiling (MemoryMiB (Capacity c)) (MaxRepositorySharePercent c)) in
    (usage_cpu usage ⊕ CPUUnits res <=? cpuLimit) && (usage_memory usage ⊕ MemoryMiB res <=? memoryLimit)
  else true.

(** The candidate loop of [resourceFitCandidate]; [first] says whether the loop is
    at index zero. *)
Fixpoint fit_loop (c : queueAdmissionConfig) (j : queueIntentJournal) (now : Time) (usage : queueResourceUsage)
    (byRepository : string → queueResourceUsage) (first : bool) (candidates : list queueIntent) : option queueIntent :=
  match candidates with
  | [] => None
  | candidate :: rest =>
      match ScaleSets c !! ScaleSetName candidate with
      | None => None
      | Some resources =>
          let res := reservation resources in
          let fitsGlobal := fits_global c usage res in
          let fitsRepository := fits_repository c j (Repository candidate) (byRepository (Repository candidate)) res in
          if fitsGlobal && fitsRepository then Some candidate
          else if negb fitsGlobal && first && (effectiveQueuePriority c now candidate =? 0) then None
          else fit_loop c j now usage byRepository false rest
      end
  end.

Definition resourceFitCandidate (c : queueAdmissionConfig) (j : queueIntentJournal) (candidates : list queueIntent)
    (now : Time) : option queueIntent :=
  match queueResourcesInFlight c j with
  | None => None
  | Some (usage, byRepository) => fit_loop c j now usage byRepository true candidates
  end.

Definition dispatchableQueuedWouldFit (c : queueAdmissionConfig) (j : queueIntentJournal) (inFlight : string → Z)
    (now : Time) : queueIntentJournal * bool :=
  let '(j', candidates) := dispatchableAdmissionCandidates c j inFlight now in
  (j', bool_decide (is_Some (resourceFitCandidate c j' candidates now))).

Definition eligibleQueueCandidates (c : queueAdmissionConfig) (j : queueIntentJournal) (inFlight : string → Z)
    (now : Time) : queueIntentJournal * list queueIntent :=
  let '(j, blockRequestless) := dispatchableQueuedWouldFit c j inFlight now in
  let background := queueBackgroundInFlight j in
  sortQueueAdmissionCandidates c now j
    (filter (λ i, (queueIntentAdmissionBlocked c j inFlight background now i
                   || (blockRequestless && (RunnerRequestID i =? 0))) = false)
       (intents_of j)).

(** ** Admission *)

(** [intent.State = s; StateEnteredAt = now; UpdatedAt = now; ExpiresAt = ...]. *)
Definition enter_state (c : queueAdmissionConfig) (state : queueIntentState) (now : Time) (i : queueIntent) : queueIntent :=
  set_phase state now now (expiryForState c state now) i.

(** Charging the repository's stride; fails before its pass would overflow. The
    weight is positive for every validated configuration, where Go's division
    cannot panic. *)
Definition charge_stride (c : queueAdmissionConfig) (repository : string) (j : queueIntentJournal)
    : queueIntentJournal * result bool :=
  let j := ensureRepositoryState c repository j in
  let state := ensured_state c (Repositories j) repository in
  let stride := queueSchedulerStride `quot` Weight state in
  if (stride =? 0) || (max_uint64 - Pass state <? stride)
  then (j, Err (Errorf "repository scheduler pass overflow for %q" [repository]))
  else
    (with_repositories (<[repository := {| RepositoryState_Repository := RepositoryState_Repository state;
                                            Weight := Weight state; Pass := Pass state + stride |}]> (Repositories j)) j,
     Ok true).

Definition tryAdmitQueueIntent (c : queueAdmissionConfig) (key : string) (now : Time) (j : queueIntentJournal)
    : queueIntentJournal * result bool :=
  match Intents j !! key with
  | None => (j, Err (Errorf "queue intent %q is missing" [key]))
  | Some i =>
      if negb (is_queued i) then (j, Ok true)
      else if MaxInFlight c <=? globalInFlight j then (j, Ok false)
      else
        let '(j, candidates) := eligibleQueueCandidates c j (repositoryInFlight j) now in
        match resourceFitCandidate c j candidates now with
        | None => (j, Ok false)
        | Some selected =>
            if negb (bool_decide (Key selected = key)) then (j, Ok false)
            else charge_stride c (Repository i)
                   (with_intents (<[key := enter_state c queueStateAssigned now i]> (Intents j)) j)
        end
  end.

(** The loop of [admitQueuedToBudget]; the boolean says whether it left by one of
    its returns. *)
Fixpoint admit_loop (c : queueAdmissionConfig) (now : Time) (fuel : nat) (j : queueIntentJournal)
    : queueIntentJournal * bool :=
  match fuel with
  | O => (j, false)
  | S fuel =>
      if MaxInFlight c <=? globalInFlight j then (j, true)
      else
        let '(j, candidates) := eligibleQueueCandidates c j (repositoryInFlight j) now in
        match candidates with
        | [] => (j, true)
        | _ =>
            match resourceFitCandidate c j candidates now with
            | None => (j, true)
            | Some selected =>
                match tryAdmitQueueIntent c (Key selected) now j with
                | (j, Ok true) => admit_loop c now fuel j
                | (j, _) => (j, true)
                end
            end
        end
  end.

(** Every turn but the last takes one intent out of the queue. *)
Definition admit_fuel (j : queueIntentJournal) : nat := S (length (filter (λ i, is_queued i = true) (intents_of j))).

Definition admitQueuedToBudget (c : queueAdmissionConfig) (now : Time) (j : queueIntentJournal) : queueIntentJournal :=
  (admit_loop c now (admit_fuel j) j).1.

(** ** Yielding slots without a runner request *)

Definition yieldable (i : queueIntent) : bool :=
  bool_decide (State i = queueStateAssigned) && (RunnerRequestID i =? 0) && bool_decide (RunnerName i = "").

Definition wait_key_less (left right : string * queueIntent) : bool :=
  if negb (queueWaitSince left.2 =? queueWaitSince right.2)
  then Before (queueWaitSince left.2) (queueWaitSince right.2) else string_ltb left.1 right.1.

Definition yieldableRequestlessKeys (j : queueIntentJournal) : list string :=
  (sort_slice wait_key_less (filter (λ ki, yieldable ki.2 = true) (map_to_list (Intents j)))).*1.

Definition demoted (c : queueAdmissionConfig) (now : Time) (i : queueIntent) : queueIntent :=
  let i := first_queued_or now (set_phase queueStateQueued now now (ExpiresAt i) i) in
  let next := expiryForState c queueStateQueued now in
  let horizon := execution_horizon c i in
  set_ExpiresAt (if After next horizon then horizon else next) i.

Definition demoteRequestlessAssigned (c : queueAdmissionConfig) (key : string) (now : Time) (j : queueIntentJournal)
    : queueIntentJournal :=
  match Intents j !! key with
  | Some i => if yieldable i then with_intents (<[key := demoted c now i]> (Intents j)) j else j
  | None => j
  end.

(** The first key whose demotion lets a dispatchable job in, tried on a copy. *)
Fixpoint first_yield (c : queueAdmissionConfig) (now : Time) (j : queueIntentJournal) (keys : list string) : option string :=
  match keys with
  | [] => None
  | key :: keys =>
      let clone := demoteRequestlessAssigned c key now j in
      if (dispatchableQueuedWouldFit c clone (repositoryInFlight clone) now).2 then Some key
      else first_yield c now j keys
  end.

Fixpoint yield_loop (c : queueAdmissionConfig) (now : Time) (fuel : nat) (j : queueIntentJournal)
    : queueIntentJournal * bool :=
  match fuel with
  | O => (j, false)
  | S fuel =>
      let '(j, fits) := dispatchableQueuedWouldFit c j (repositoryInFlight j) now in
      if fits then (j, true)
      else match first_yield c now j (yieldableRequestlessKeys j) with
           | None => (j, true)
           | Some key => yield_loop c now fuel (demoteRequestlessAssigned c key now j)
           end
  end.

(** Two turns are enough: after a demotion a dispatchable job fits. *)
Definition yieldRequestlessOccupancy (c : queueAdmissionConfig) (now : Time) (j : queueIntentJournal) : queueIntentJournal :=
  (yield_loop c now 2 j).1.

(** ** Budget check *)

Definition reserved (i : queueIntent) : bool :=
  negb (is_queued i) && negb (bool_decide (State i = queueStateRunning)).

Definition reserved_in (j : queueIntentJournal) (repository : string) : Z :=
  countZ (λ i, reserved i && bool_decide (Repository i = repository)) (intents_of j).

Definition validateQueueBudget (c : queueAdmissionConfig) (j : queueIntentJournal) : result unit :=
  let xs := filter (λ i, reserved i = true) (intents_of j) in
  fail_if (negb (forallb (λ i, bool_decide (is_Some (ScaleSets c !! ScaleSetName i))) xs))
    (Errorf "queue journal contains a reservation without a resource contract" []);;
  fail_if (MaxInFlight c <? Z.of_nat (length xs)) (Errorf "queue journal exceeds global reservation budget: %d > %d" []);;
  fail_if (negb (forallb (λ i, reserved_in j (Repository i) <=? Policy_MaxInFlight (repositoryPolicy c (Repository i))) xs))
    (Errorf "queue journal exceeds repository %q reservation budget: %d > %d" []);;
  fail_if ((CPUUnits (Capacity c) <? usage_cpu (usage_of c xs)) || (MemoryMiB (Capacity c) <? usage_memory (usage_of c xs)))
    (Errorf "queue journal exceeds reservation resource budget: cpu=%d/%d memory_mib=%d/%d" []).
