(* ===== verification/QueueSchedulerFacts.v ===== *)
(** * Queue scheduler: budgets, termination and order *)

From S2P Require Import Prelude QueueIntent QueueScheduler.

Local Open Scope Z_scope.
Local Open Scope go_scope.

(** ** What the scheduler reads and writes *)

(** Two journals that differ at most in stored repository weights and in passes
    that read the same. *)
Record same_schedule (j1 j2 : queueIntentJournal) : Prop := {
  ss_intents : Intents j1 = Intents j2;
  ss_terminal : TerminalJobs j1 = TerminalJobs j2;
  ss_pass : ∀ r, repository_pass (Repositories j1) r = repository_pass (Repositories j2) r;
}.

#[export] Instance same_schedule_equiv : Equivalence same_schedule.
Proof.
  split.
  - by constructor.
  - intros x y [H1 H2 H3]. by constructor; [..|intros r; rewrite H3].
  - intros x y z [H1 H2 H3] [H4 H5 H6].
    by constructor; [congruence|congruence|intros r; rewrite H3].
Qed.

Lemma repository_pass_ensure c r repositories r' :
  repository_pass (ensure_repository c r repositories) r' = repository_pass repositories r'.
Proof.
  unfold ensure_repository, repository_pass at 1. destruct (decide (r = r')) as [->|Hne].
  - by rewrite lookup_insert_eq.
  - by rewrite lookup_insert_ne.
Qed.

Lemma repository_pass_effect c now cands repositories r :
  repository_pass (sort_effect c now cands repositories) r = repository_pass repositories r.
Proof.
  unfold sort_effect. induction (filter _ cands) as [|i l IH]; [done|]. simpl.
  by rewrite repository_pass_ensure.
Qed.

Lemma sort_same c now j cands : same_schedule (sortQueueAdmissionCandidates c now j cands).1 j.
Proof. constructor; [done|done|]. intros r. apply repository_pass_effect. Qed.

Lemma ensure_same c r j : same_schedule (ensureRepositoryState c r j) j.
Proof. constructor; [done|done|]. intros r'. apply repository_pass_ensure. Qed.

(** Everything the scheduler computes is the same on such journals. *)
Section same.
Context (c : queueAdmissionConfig) (now : Time) (j1 j2 : queueIntentJournal) (Hsame : same_schedule j1 j2).

Lemma intents_of_same : intents_of j1 = intents_of j2.
Proof using Hsame. unfold intents_of. by rewrite (ss_intents _ _ Hsame). Qed.

Lemma blocked_same inFlight background i :
  queueIntentAdmissionBlocked c j1 inFlight background now i = queueIntentAdmissionBlocked c j2 inFlight background now i.
Proof using Hsame.
  unfold queueIntentAdmissionBlocked, queueHasCompetingRepository, tombstoned.
  by rewrite intents_of_same, (ss_terminal _ _ Hsame).
Qed.

Lemma fit_loop_same usage byRepository first cands :
  fit_loop c j1 now usage byRepository first cands = fit_loop c j2 now usage byRepository first cands.
Proof using Hsame.
  revert first. induction cands as [|i cands IH]; intros first; [done|]. simpl.
  destruct (ScaleSets c !! ScaleSetName i); [|done].
  assert (∀ u res, fits_repository c j1 (Repository i) u res = fits_repository c j2 (Repository i) u res) as Hf.
  { intros u res. unfold fits_repository, queueHasCompetingRepository. by rewrite intents_of_same. }
  rewrite Hf, IH. done.
Qed.

Lemma resourceFit_same cands : resourceFitCandidate c j1 cands now = resourceFitCandidate c j2 cands now.
Proof using Hsame.
  unfold resourceFitCandidate, queueResourcesInFlight. rewrite intents_of_same.
  match goal with |- match ?x with _ => _ end = _ => destruct x as [[usage byRepository]|] end; [|done].
  apply fit_loop_same.
Qed.

Lemma candidate_less_same x y :
  candidate_less c now (Repositories j1) x y = candidate_less c now (Repositories j2) x y.
Proof using Hsame. unfold candidate_less. by rewrite !(ss_pass _ _ Hsame). Qed.
End same.

Lemma merge_sort_ext {A} (R1 R2 : relation A) `{!∀ x y, Decision (R1 x y)} `{!∀ x y, Decision (R2 x y)} xs :
  (∀ x y, R1 x y ↔ R2 x y) → merge_sort R1 xs = merge_sort R2 xs.
Proof.
  intros HR. unfold merge_sort.
  assert (∀ l1 l2, list_merge R1 l1 l2 = list_merge R2 l1 l2) as Hm.
  { intros l1. induction l1 as [|x l1 IH1]; intros l2; [done|]. induction l2 as [|y l2 IH2]; [done|]. simpl.
    destruct (decide (R1 x y)), (decide (R2 x y)); try naive_solver.
    - by rewrite IH1.
    - f_equal. done. }
  assert (∀ st, merge_stack R1 st = merge_stack R2 st) as Hs.
  { intros st. induction st as [|[l|] st IH]; simpl; [done| |done]. by rewrite IH, Hm. }
  assert (∀ st l, merge_list_to_stack R1 st l = merge_list_to_stack R2 st l) as Hls.
  { intros st. induction st as [|[l'|] st IH]; intros l; simpl; [done| |done]. by rewrite Hm, IH. }
  generalize (@nil (option (list A))) as st. induction xs as [|x xs IH]; intros st; simpl; [done|].
  by rewrite Hls, IH.
Qed.

Lemma sort_candidates_same c now j1 j2 cands :
  same_schedule j1 j2 →
  (sortQueueAdmissionCandidates c now j1 cands).2 = (sortQueueAdmissionCandidates c now j2 cands).2.
Proof.
  intros Hsame. simpl. unfold sort_slice. apply merge_sort_ext. intros x y. unfold less_rel.
  by rewrite (candidate_less_same c now j1 j2 Hsame).
Qed.

Lemma repositoryInFlight_same j1 j2 : same_schedule j1 j2 → repositoryInFlight j1 = repositoryInFlight j2.
Proof.
  intros Hsame. unfold repositoryInFlight, intents_of. by rewrite (ss_intents _ _ Hsame).
Qed.

Lemma dispatchable_same c now j1 j2 inFlight :
  same_schedule j1 j2 →
  same_schedule (dispatchableQueuedWouldFit c j1 inFlight now).1 j1 ∧
  (dispatchableQueuedWouldFit c j1 inFlight now).2 = (dispatchableQueuedWouldFit c j2 inFlight now).2.
Proof.
  intros Hsame. unfold dispatchableQueuedWouldFit, dispatchableAdmissionCandidates. simpl.
  split; [apply (sort_same c now j1)|].
  assert (∀ i, ((RunnerRequestID i =? 0) || queueIntentAdmissionBlocked c j1 inFlight (queueBackgroundInFlight j1) now i)
             = ((RunnerRequestID i =? 0) || queueIntentAdmissionBlocked c j2 inFlight (queueBackgroundInFlight j2) now i)) as Hb.
  { intros i. unfold queueBackgroundInFlight. by rewrite (intents_of_same j1 j2 Hsame), (blocked_same c now j1 j2 Hsame). }
  set (cs1 := filter _ (intents_of j1)). set (cs2 := filter _ (intents_of j2)).
  assert (cs1 = cs2) as Heq.
  { unfold cs1, cs2. rewrite (intents_of_same j1 j2 Hsame). apply list_filter_iff. intros i. by rewrite Hb. }
  pose proof (sort_candidates_same c now j1 j2 cs1 Hsame) as Hsort. simpl in Hsort. rewrite Heq in Hsort.
  rewrite Heq, Hsort. apply bool_decide_ext. erewrite resourceFit_same; [done|].
  etrans; [apply (sort_same c now j1)|]. etrans; [exact Hsame|]. symmetry. apply (sort_same c now j2).
Qed.

Lemma eligible_same c now j1 j2 inFlight :
  same_schedule j1 j2 →
  same_schedule (eligibleQueueCandidates c j1 inFlight now).1 j1 ∧
  (eligibleQueueCandidates c j1 inFlight now).2 = (eligibleQueueCandidates c j2 inFlight now).2.
Proof.
  intros Hsame. pose proof (dispatchable_same c now j1 j2 inFlight Hsame) as [Hd1 Hb].
  pose proof (dispatchable_same c now j2 j2 inFlight (reflexivity _)) as [Hd2 _].
  unfold eligibleQueueCandidates.
  destruct (dispatchableQueuedWouldFit c j1 inFlight now) as [k1 b1].
  destruct (dispatchableQueuedWouldFit c j2 inFlight now) as [k2 b2]. cbn [fst snd] in *. subst b2.
  assert (same_schedule k1 k2) as Hk by (by rewrite Hd1, Hd2).
  set (cs1 := filter _ (intents_of k1)). set (cs2 := filter _ (intents_of k2)).
  split; [transitivity k1; [apply sort_same|done]|].
  assert (cs1 = cs2) as Heq.
  { unfold cs1, cs2. rewrite (intents_of_same k1 k2 Hk). apply list_filter_iff. intros i.
    unfold queueBackgroundInFlight. by rewrite (intents_of_same k1 k2 Hk), (blocked_same c now k1 k2 Hk). }
  rewrite Heq. by apply sort_candidates_same.
Qed.
