(* ===== verification/QueueBudgetFacts.v ===== *)
(** * Queue scheduler: what an admission may do

    [admission_step] is the abstract rule of the scheduler: one queued intent
    becomes assigned, and every budget has room for it. The loop that fills the
    budget is shown to be a sequence of such steps that stops only when no
    further step is possible; the budgets follow by induction on the steps. *)

From S2P Require Import Prelude QueueIntent QueueScheduler QueueSchedulerFacts.

Local Open Scope Z_scope.
Local Open Scope go_scope.

(** ** Counting *)

#[export] Instance countZ_perm {A} (p : A → bool) : Proper ((≡ₚ) ==> (=)) (countZ p).
Proof. intros xs ys Hp. unfold countZ. by rewrite Hp. Qed.

Lemma countZ_cons {A} (p : A → bool) x xs : countZ p (x :: xs) = (if p x then 1 else 0) + countZ p xs.
Proof. unfold countZ. rewrite filter_cons. destruct (p x); case_decide; simpl; try congruence; lia. Qed.

Lemma countZ_nonneg {A} (p : A → bool) xs : 0 ≤ countZ p xs.
Proof. unfold countZ. lia. Qed.

(** A journal stores every intent under its key. *)
Definition keyed (m : gmap string queueIntent) : Prop := map_Forall (λ k i, Key i = k) m.

Lemma elem_of_intents j i : keyed (Intents j) → i ∈ intents_of j ↔ Intents j !! Key i = Some i.
Proof.
  intros Hk. unfold intents_of. rewrite list_elem_of_fmap. split.
  - intros ([k i'] & -> & Hin). apply elem_of_map_to_list in Hin. simpl. by rewrite (Hk _ _ Hin).
  - intros Hi. exists (Key i, i). split; [done|]. by apply elem_of_map_to_list.
Qed.

Lemma intents_replace j j' k i i' :
  Intents j !! k = Some i → Intents j' = <[k := i']> (Intents j) →
  ∃ rest, intents_of j ≡ₚ i :: rest ∧ intents_of j' ≡ₚ i' :: rest.
Proof.
  intros Hi Hj'. exists (map_to_list (delete k (Intents j))).*2. unfold intents_of. rewrite Hj'. split.
  - by rewrite <- (map_to_list_delete (Intents j) k i Hi).
  - rewrite <- insert_delete_eq. by rewrite map_to_list_insert by apply lookup_delete_eq.
Qed.

(** ** Sums of reservations *)

Definition in_flight_of (j : queueIntentJournal) : list queueIntent := filter (λ i, in_flight i = true) (intents_of j).

Definition reserved_cpu (c : queueAdmissionConfig) (i : queueIntent) : Z := from_option CPUUnits 0 (reservation_of c i).
Definition reserved_memory (c : queueAdmissionConfig) (i : queueIntent) : Z := from_option MemoryMiB 0 (reservation_of c i).

(** The exact sums, without wrap-around. *)
Definition cpu_in_flight (c : queueAdmissionConfig) (j : queueIntentJournal) : Z := sumZ (reserved_cpu c) (in_flight_of j).
Definition memory_in_flight (c : queueAdmissionConfig) (j : queueIntentJournal) : Z := sumZ (reserved_memory c) (in_flight_of j).

Lemma foldl_int_add {A} (f : A → Z) bound xs : ∀ acc,
  (∀ x, x ∈ xs → 0 ≤ f x ≤ bound) → 0 ≤ acc → acc + bound * Z.of_nat (length xs) ≤ max_int64 →
  foldl (λ a x, a ⊕ f x) acc xs = acc + sumZ f xs.
Proof.
  induction xs as [|x xs IH]; intros acc Hf Hacc Hb; [unfold sumZ; simpl; lia|].
  pose proof (Hf x ltac:(set_solver)) as Hx. cbn [length] in Hb.
  assert (acc ⊕ f x = acc + f x) as Hadd.
  { apply wrap64_small. unfold in_int64, min_int64, max_int64 in *. nia. }
  simpl. rewrite Hadd, IH; [rewrite sumZ_cons; lia|set_solver|lia|nia].
Qed.

Lemma sumZ_le_bound {A} (f : A → Z) bound xs :
  (∀ x, x ∈ xs → 0 ≤ f x ≤ bound) → 0 ≤ sumZ f xs ≤ bound * Z.of_nat (length xs).
Proof.
  induction xs as [|x xs IH]; intros Hf; [unfold sumZ; simpl; lia|].
  pose proof (Hf x ltac:(set_solver)). assert (∀ y, y ∈ xs → 0 ≤ f y ≤ bound) as Hf' by set_solver.
  specialize (IH Hf'). rewrite sumZ_cons. cbn [length]. lia.
Qed.

(** ** Valid configurations *)

(** Weights are unsigned in the source. *)
Definition unsigned_weights (c : queueAdmissionConfig) : Prop :=
  0 ≤ DefaultWeight c ∧ map_Forall (λ _ p, 0 ≤ Policy_Weight p) (default ∅ (Config_Repositories c)).

Section config.
Context (c : queueAdmissionConfig) (Hc : Config_Validate c = Ok tt).

Lemma config_limits : 1 ≤ MaxInFlight c ≤ 64 ∧ 1 ≤ CPUUnits (Capacity c) ≤ 1024 ∧ 1024 ≤ MemoryMiB (Capacity c) ≤ 2 ^ 24.
Proof using Hc.
  unfold Config_Validate in Hc. apply bind_Ok in Hc as ([] & H1 & H2). apply bind_Ok in H2 as ([] & H2 & H3).
  apply bind_Ok in H3 as ([] & H3 & H4). apply bind_Ok in H4 as ([] & H4 & _).
  apply fail_if_Ok in H1, H4. bool_hyps. unfold queueMaxInFlightCeiling in *. lia.
Qed.

Lemma config_share : MaxRepositorySharePercent c = 75.
Proof using Hc.
  unfold Config_Validate in Hc. apply bind_Ok in Hc as ([] & _ & H). apply bind_Ok in H as ([] & _ & H).
  apply bind_Ok in H as ([] & H & _). apply fail_if_Ok in H. bool_hyps. lia.
Qed.

(** The rounding of the source, on the sizes of a configuration. *)
Lemma share_ceiling total : 0 ≤ total ≤ 2 ^ 24 → percentageCeiling total (MaxRepositorySharePercent c) = (total * 75 + 99) / 100.
Proof using Hc.
  intros Ht. rewrite config_share. unfold percentageCeiling, int_div, int_add, int_mul.
  rewrite (wrap64_small (total * 75)) by (unfold in_int64, min_int64, max_int64; lia).
  rewrite (wrap64_small (total * 75 + 99)) by (unfold in_int64, min_int64, max_int64; lia).
  rewrite Z.quot_div_nonneg by lia. apply wrap64_small. unfold in_int64, min_int64, max_int64.
  pose proof (Z.div_pos (total * 75 + 99) 100 ltac:(lia) ltac:(lia)).
  pose proof (Z.div_le_upper_bound (total * 75 + 99) 100 (total * 75 + 99) ltac:(lia) ltac:(lia)). lia.
Qed.

Lemma config_scale_set name r : ScaleSets c !! name = Some r → scale_set_ok c name r = true.
Proof using Hc.
  intros Hr. unfold Config_Validate in Hc. apply bind_Ok in Hc as ([] & _ & H). apply bind_Ok in H as ([] & _ & H).
  apply bind_Ok in H as ([] & _ & H). apply bind_Ok in H as ([] & _ & H). apply bind_Ok in H as ([] & _ & H).
  apply bind_Ok in H as ([] & H & _). apply fail_if_Ok in H. bool_hyps. rewrite forallb_forall in H.
  apply (H (name, r)). apply list_elem_of_In. by apply elem_of_map_to_list.
Qed.

Lemma reserved_bounds i : 0 ≤ reserved_cpu c i ≤ 1024 ∧ 0 ≤ reserved_memory c i ≤ 2 ^ 24.
Proof using Hc.
  pose proof config_limits as (_ & Hcpu & Hmem). unfold reserved_cpu, reserved_memory, reservation_of.
  destruct (ScaleSets c !! ScaleSetName i) as [r|] eqn:Hr; simpl; [|lia].
  apply config_scale_set in Hr. unfold scale_set_ok in Hr. bool_hyps. lia.
Qed.

Lemma policy_weight_ok repository :
  unsigned_weights c → 1 ≤ Policy_Weight (repositoryPolicy c repository) ≤ 100.
Proof using Hc.
  intros [Hd Hw]. unfold Config_Validate in Hc. apply bind_Ok in Hc as ([] & H1 & H).
  apply bind_Ok in H as ([] & _ & H). apply bind_Ok in H as ([] & _ & H). apply bind_Ok in H as ([] & _ & H).
  apply bind_Ok in H as ([] & _ & H). apply bind_Ok in H as ([] & _ & H). apply fail_if_Ok in H1. bool_hyps.
  unfold repositoryPolicy. destruct (Config_Repositories c) as [ps|]; [|done]. apply fail_if_Ok in H. bool_hyps.
  simpl in *. destruct (ps !! repository) as [p|] eqn:Hp; simpl; [|lia].
  rewrite forallb_forall in H. specialize (H (repository, p)). pose proof (Hw _ _ Hp) as Hpos. simpl in Hpos.
  assert (repository_policy_ok c repository p = true) as Hok.
  { apply H, list_elem_of_In. by apply elem_of_map_to_list. }
  unfold repository_policy_ok in Hok. bool_hyps. lia.
Qed.

(** While a slot is free the wrapped sums are exact. *)
Lemma usage_exact j :
  globalInFlight j < MaxInFlight c →
  usage_of c (in_flight_of j) = {| usage_cpu := cpu_in_flight c j; usage_memory := memory_in_flight c j |} ∧
  0 ≤ cpu_in_flight c j ≤ 1024 * 64 ∧ 0 ≤ memory_in_flight c j ≤ 2 ^ 24 * 64.
Proof using Hc.
  intros Hfree. pose proof config_limits as (Hmax & _ & _).
  assert (Z.of_nat (length (in_flight_of j)) ≤ 64) as Hlen.
  { unfold globalInFlight, countZ in Hfree. unfold in_flight_of. lia. }
  assert (∀ i, i ∈ in_flight_of j → 0 ≤ reserved_cpu c i ≤ 1024) as H1 by (intros; apply reserved_bounds).
  assert (∀ i, i ∈ in_flight_of j → 0 ≤ reserved_memory c i ≤ 2 ^ 24) as H2 by (intros; apply reserved_bounds).
  pose proof (sumZ_le_bound _ _ _ H1). pose proof (sumZ_le_bound _ _ _ H2).
  split; [|unfold cpu_in_flight, memory_in_flight; nia].
  unfold usage_of, sum_reserved. f_equal.
  - apply (foldl_int_add (reserved_cpu c) 1024); [done|done|unfold max_int64; lia].
  - apply (foldl_int_add (reserved_memory c) (2 ^ 24)); [done|done|unfold max_int64; lia].
Qed.

(** So are the sums of one repository. *)
Lemma repository_usage_exact j repository :
  globalInFlight j < MaxInFlight c →
  let xs := filter (λ i, Repository i = repository) (in_flight_of j) in
  usage_of c xs = {| usage_cpu := sumZ (reserved_cpu c) xs; usage_memory := sumZ (reserved_memory c) xs |} ∧
  0 ≤ sumZ (reserved_cpu c) xs ≤ 1024 * 64 ∧ 0 ≤ sumZ (reserved_memory c) xs ≤ 2 ^ 24 * 64.
Proof using Hc.
  intros Hfree xs. pose proof config_limits as (Hmax & _ & _).
  assert (Z.of_nat (length xs) ≤ 64) as Hlen.
  { unfold globalInFlight, countZ in Hfree. pose proof (length_filter (λ i, Repository i = repository) (in_flight_of j)) as Hl.
    unfold xs, in_flight_of in *. lia. }
  assert (∀ i, i ∈ xs → 0 ≤ reserved_cpu c i ≤ 1024) as H1 by (intros; apply reserved_bounds).
  assert (∀ i, i ∈ xs → 0 ≤ reserved_memory c i ≤ 2 ^ 24) as H2 by (intros; apply reserved_bounds).
  pose proof (sumZ_le_bound _ _ _ H1). pose proof (sumZ_le_bound _ _ _ H2).
  split; [|nia]. unfold usage_of, sum_reserved. f_equal.
  - apply (foldl_int_add (reserved_cpu c) 1024); [done|done|unfold max_int64; lia].
  - apply (foldl_int_add (reserved_memory c) (2 ^ 24)); [done|done|unfold max_int64; lia].
Qed.
End config.

(** ** The admission rule *)

(** Another repository is waiting. *)
Definition contended (j : queueIntentJournal) (repository : string) : Prop :=
  ∃ k, k ∈ intents_of j ∧ State k = queueStateQueued ∧ Repository k ≠ repository.

(** What a repository has in flight, exactly. *)
Definition repository_cpu (c : queueAdmissionConfig) (j : queueIntentJournal) (repository : string) : Z :=
  sumZ (reserved_cpu c) (filter (λ i, Repository i = repository) (in_flight_of j)).
Definition repository_memory (c : queueAdmissionConfig) (j : queueIntentJournal) (repository : string) : Z :=
  sumZ (reserved_memory c) (filter (λ i, Repository i = repository) (in_flight_of j)).

(** [more] on top of [used] stays within the share of [total], rounded up; a
    repository that uses nothing may always have one job. *)
Definition within_share (c : queueAdmissionConfig) (total used more : Z) : Prop :=
  used = 0 ∨ 100 * (used + more) < total * MaxRepositorySharePercent c + 100.

Record may_admit (c : queueAdmissionConfig) (now : Time) (j : queueIntentJournal) (i : queueIntent) : Prop := {
  ma_present : Intents j !! Key i = Some i;
  ma_queued : State i = queueStateQueued;
  ma_live : tombstoned j now (JobID i) = false;
  ma_global : globalInFlight j < MaxInFlight c;
  ma_repository : repositoryInFlight j (Repository i) < Policy_MaxInFlight (repositoryPolicy c (Repository i));
  ma_share : contended j (Repository i) →
    100 * repositoryInFlight j (Repository i) < MaxInFlight c * MaxRepositorySharePercent c;
  ma_share_cpu : contended j (Repository i) →
    within_share c (CPUUnits (Capacity c)) (repository_cpu c j (Repository i)) (reserved_cpu c i);
  ma_share_memory : contended j (Repository i) →
    within_share c (MemoryMiB (Capacity c)) (repository_memory c j (Repository i)) (reserved_memory c i);
  ma_background : Priority i = 2 → queueBackgroundInFlight j < MaxBackgroundInFlight c;
  ma_contract : is_Some (ScaleSets c !! ScaleSetName i);
  ma_cpu : cpu_in_flight c j + reserved_cpu c i ≤ CPUUnits (Capacity c);
  ma_memory : memory_in_flight c j + reserved_memory c i ≤ MemoryMiB (Capacity c);
  ma_dispatchable : RunnerRequestID i = 0 → (dispatchableQueuedWouldFit c j (repositoryInFlight j) now).2 = false;
}.

Definition stride_of (c : queueAdmissionConfig) (repository : string) : Z :=
  queueSchedulerStride `quot` Policy_Weight (repositoryPolicy c repository).

Definition can_charge (c : queueAdmissionConfig) (j : queueIntentJournal) (repository : string) : bool :=
  negb ((stride_of c repository =? 0)
        || (max_uint64 - repository_pass (Repositories j) repository <? stride_of c repository)).

Definition charged_pass (c : queueAdmissionConfig) (j : queueIntentJournal) (repository r : string) : Z :=
  repository_pass (Repositories j) r + (if decide (r = repository) then if can_charge c j repository then stride_of c repository else 0 else 0).

(** One admission: [i] becomes assigned, its repository pays its stride. *)
Record admitted_by (c : queueAdmissionConfig) (now : Time) (j j' : queueIntentJournal) (i : queueIntent) : Prop := {
  ab_allowed : may_admit c now j i;
  ab_intents : Intents j' = <[Key i := enter_state c queueStateAssigned now i]> (Intents j);
  ab_terminal : TerminalJobs j' = TerminalJobs j;
  ab_pass : ∀ r, repository_pass (Repositories j') r = charged_pass c j (Repository i) r;
}.

Inductive admissions (c : queueAdmissionConfig) (now : Time) : queueIntentJournal → queueIntentJournal → Prop :=
  | admissions_done j j' : same_schedule j' j → admissions c now j j'
  | admissions_step j j1 j' i : admitted_by c now j j1 i → admissions c now j1 j' → admissions c now j j'.

(** ** What the search returns *)

Lemma fit_loop_spec c j now usage byRepository cands i : ∀ first,
  fit_loop c j now usage byRepository first cands = Some i →
  i ∈ cands ∧ ∃ r, ScaleSets c !! ScaleSetName i = Some r ∧ fits_global c usage (reservation r) = true ∧
    fits_repository c j (Repository i) (byRepository (Repository i)) (reservation r) = true.
Proof.
  induction cands as [|k cands IH]; intros first; simpl; [done|].
  destruct (ScaleSets c !! ScaleSetName k) as [r|] eqn:Hr; [|done].
  destruct (fits_global _ _ _ && _) eqn:Hfit; [intros [= ->]|].
  - apply andb_true_iff in Hfit as [Hg Hr']. split; [set_solver|eauto].
  - destruct (_ && _ && _); [done|]. intros [Hin Hspec]%IH. split; [set_solver|done].
Qed.

Lemma resourceFit_spec c j cands now i :
  resourceFitCandidate c j cands now = Some i →
  i ∈ cands ∧ ∃ r, ScaleSets c !! ScaleSetName i = Some r ∧ fits_global c (usage_of c (in_flight_of j)) (reservation r) = true ∧
    fits_repository c j (Repository i) (usage_of c (filter (λ k, Repository k = Repository i) (in_flight_of j))) (reservation r) = true.
Proof.
  unfold resourceFitCandidate, queueResourcesInFlight. case_match eqn:Hres; [|done].
  case_match eqn:Hall; [|done]. simplify_eq. apply fit_loop_spec.
Qed.

Lemma eligible_spec c j inFlight now i :
  i ∈ (eligibleQueueCandidates c j inFlight now).2 →
  i ∈ intents_of j ∧ queueIntentAdmissionBlocked c j inFlight (queueBackgroundInFlight j) now i = false ∧
  (RunnerRequestID i = 0 → (dispatchableQueuedWouldFit c j inFlight now).2 = false).
Proof.
  pose proof (dispatchable_same c now j j inFlight (reflexivity _)) as [Hk _].
  unfold eligibleQueueCandidates. destruct (dispatchableQueuedWouldFit c j inFlight now) as [k fits]. simpl in *.
  rewrite elem_of_sort_slice, list_elem_of_filter. intros [Hb Hin]. apply orb_false_iff in Hb as [Hb Hr].
  unfold queueBackgroundInFlight in Hb. rewrite (intents_of_same _ _ Hk) in Hin, Hb.
  rewrite (blocked_same c now _ _ Hk) in Hb.
  split_and!; [done|done|]. intros H0. rewrite H0 in Hr. by destruct fits.
Qed.

Lemma competing_spec j repository : contended j repository → queueHasCompetingRepository j repository = true.
Proof.
  intros (k & Hin & Hq & Hne). apply existsb_exists. exists k. split; [by apply list_elem_of_In|].
  unfold is_queued. by rewrite bool_decide_eq_true_2, bool_decide_eq_false_2.
Qed.

(** Passing the source's check on a share is staying within it. *)
Lemma within_share_spec c total used more :
  Config_Validate c = Ok tt → 0 ≤ total ≤ 2 ^ 24 → 0 ≤ used ≤ 2 ^ 24 * 64 → 0 ≤ more ≤ 2 ^ 24 →
  (used ⊕ more <=? Z.max more (percentageCeiling total (MaxRepositorySharePercent c))) = true → within_share c total used more.
Proof.
  intros Hc Ht Hu Hm. rewrite share_ceiling by done. unfold int_add, within_share. rewrite (config_share c Hc).
  rewrite wrap64_small by (unfold in_int64, min_int64, max_int64; lia). intros H%Z.leb_le.
  pose proof (Z.mul_div_le (total * 75 + 99) 100 ltac:(lia)). lia.
Qed.

Lemma selected_allowed c now j i :
  Config_Validate c = Ok tt → keyed (Intents j) → globalInFlight j < MaxInFlight c →
  resourceFitCandidate c (eligibleQueueCandidates c j (repositoryInFlight j) now).1
    (eligibleQueueCandidates c j (repositoryInFlight j) now).2 now = Some i →
  may_admit c now j i.
Proof.
  intros Hc Hk Hfree Hfit.
  pose proof (eligible_same c now j j (repositoryInFlight j) (reflexivity _)) as [Hsame _].
  rewrite (resourceFit_same c now _ j Hsame) in Hfit.
  apply resourceFit_spec in Hfit as (Hin & r & Hr & Hg & Hshare).
  apply eligible_spec in Hin as (Hin & Hb & Hd). apply elem_of_intents in Hin; [|done].
  pose proof (usage_exact c Hc j Hfree) as (Hu & Hcpu & Hmem). rewrite Hu in Hg.
  pose proof (reserved_bounds c Hc i) as [Hrc Hrm].
  assert (CPUUnits (reservation r) = reserved_cpu c i ∧ MemoryMiB (reservation r) = reserved_memory c i) as [Ec Em].
  { unfold reserved_cpu, reserved_memory, reservation_of. by rewrite Hr. }
  unfold fits_global in Hg. cbn [usage_cpu usage_memory] in Hg. rewrite Ec, Em in Hg. unfold int_add in Hg.
  rewrite !wrap64_small in Hg by (unfold in_int64, min_int64, max_int64; lia).
  pose proof (repository_usage_exact c Hc j (Repository i) Hfree) as (Hru & Hrcpu & Hrmem). cbv zeta in Hru, Hrcpu, Hrmem.
  unfold fits_repository in Hshare. rewrite Hru in Hshare. cbn [usage_cpu usage_memory] in Hshare. rewrite Ec, Em in Hshare.
  pose proof (config_limits c Hc) as (Hmax & Hcapc & Hcapm).
  unfold queueIntentAdmissionBlocked in Hb. bool_hyps.
  assert (State i = queueStateQueued) as Hq by (unfold is_queued in *; bool_hyps; done).
  split; [done|done|done|done|..|by eexists|lia|lia|done].
  - case_match; lia.
  - intros Hcomp%competing_spec. rewrite Hcomp in *. rewrite (config_share c Hc). pose proof (share_ceiling c Hc (MaxInFlight c) ltac:(lia)) as Hceil.
    rewrite Hceil in *. pose proof (Z.mul_div_le (MaxInFlight c * 75 + 99) 100 ltac:(lia)). lia.
  - intros Hcomp%competing_spec. rewrite Hcomp in Hshare. bool_hyps. unfold repository_cpu, repository_memory. apply within_share_spec; [done|lia..|done].
  - intros Hcomp%competing_spec. rewrite Hcomp in Hshare. bool_hyps. unfold repository_cpu, repository_memory. apply within_share_spec; [done|lia..|done].
  - intros Hp. rewrite Hp in *. simpl in *. lia.
Qed.

(** ** One turn of the loop *)

Lemma charge_stride_spec c repository j j' r :
  charge_stride c repository j = (j', r) →
  Intents j' = Intents j ∧ TerminalJobs j' = TerminalJobs j ∧
  (∀ x, repository_pass (Repositories j') x = charged_pass c j repository x) ∧
  (if can_charge c j repository then r = Ok true else ∃ e, r = Err e).
Proof.
  unfold charge_stride, charged_pass, can_charge, stride_of. cbn [Repositories ensureRepositoryState with_repositories].
  unfold ensured_state at 1 2. cbn [Weight Pass]. rewrite repository_pass_ensure.
  destruct ((_ =? 0) || _) eqn:Hov; intros [= <- <-]; split_and!; try done; try by eexists.
  - intros x. cbn [Repositories ensureRepositoryState with_repositories]. rewrite repository_pass_ensure.
    simpl. case_decide; lia.
  - intros x. cbn [Repositories ensureRepositoryState with_repositories negb].
    unfold repository_pass at 1. case_decide as Hx.
    + subst x. rewrite lookup_insert_eq. simpl. by rewrite repository_pass_ensure.
    + rewrite lookup_insert_ne by done. fold (repository_pass (ensure_repository c repository (Repositories j)) x).
      rewrite repository_pass_ensure. lia.
Qed.

Lemma globalInFlight_same j1 j2 : same_schedule j1 j2 → globalInFlight j1 = globalInFlight j2.
Proof. intros H. unfold globalInFlight. by rewrite (intents_of_same _ _ H). Qed.

Lemma try_selected c now j j1 cands i :
  Config_Validate c = Ok tt → keyed (Intents j) → globalInFlight j < MaxInFlight c →
  eligibleQueueCandidates c j (repositoryInFlight j) now = (j1, cands) →
  resourceFitCandidate c j1 cands now = Some i →
  ∃ j2 r, tryAdmitQueueIntent c (Key i) now j1 = (j2, r) ∧ admitted_by c now j j2 i ∧
    (if can_charge c j (Repository i) then r = Ok true else ∃ e, r = Err e).
Proof.
  intros Hc Hk Hfree Helig Hfit.
  assert (may_admit c now j i) as Hma by (apply selected_allowed; [done|done|done|by rewrite Helig]).
  pose proof (eligible_same c now j j (repositoryInFlight j) (reflexivity _)) as [H1 _].
  rewrite Helig in H1. simpl in H1.
  pose proof (eligible_same c now j1 j (repositoryInFlight j) H1) as [H2 Hcands]. rewrite Helig in Hcands. cbn [fst snd] in Hcands.
  pose proof (ma_present _ _ _ _ Hma) as Hi. rewrite <- (ss_intents _ _ H1) in Hi.
  unfold tryAdmitQueueIntent. rewrite Hi. unfold is_queued. rewrite (ma_queued _ _ _ _ Hma). cbn [negb bool_decide]. rewrite bool_decide_eq_true_2 by done. cbn [negb].
  rewrite (globalInFlight_same _ _ H1). rewrite (proj2 (Z.leb_gt _ _)) by done.
  rewrite (repositoryInFlight_same _ _ H1).
  destruct (eligibleQueueCandidates c j1 (repositoryInFlight j) now) as [j1' cands'] eqn:Helig'.
  cbn [fst snd] in *. subst cands'.
  rewrite (resourceFit_same c now _ _ H2), Hfit, bool_decide_eq_true_2 by done. cbn [negb].
  destruct (charge_stride _ _ _) as [j2 r] eqn:Hcharge. apply charge_stride_spec in Hcharge as (Hin & Ht & Hp & Hr).
  assert (same_schedule j1' j) as H12 by (by etrans).
  assert (can_charge c (with_intents (<[Key i:=enter_state c queueStateAssigned now i]> (Intents j1')) j1') (Repository i)
          = can_charge c j (Repository i)) as Hcan.
  { unfold can_charge. simpl. by rewrite (ss_pass _ _ H12). }
  exists j2, r. split; [done|]. rewrite Hcan in Hr. split; [|done]. split; [done|..].
  - rewrite Hin. simpl. by rewrite (ss_intents _ _ H12).
  - rewrite Ht. simpl. by apply ss_terminal.
  - intros x. rewrite Hp. unfold charged_pass. rewrite Hcan. simpl. by rewrite (ss_pass _ _ H12).
Qed.

(** ** Queue length *)

Definition queued_of (j : queueIntentJournal) : list queueIntent := filter (λ i, is_queued i = true) (intents_of j).

Section step.
Context (c : queueAdmissionConfig) (now : Time) (j j' : queueIntentJournal) (i : queueIntent).
Context (Hstep : admitted_by c now j j' i).

Lemma step_intents : ∃ rest, intents_of j ≡ₚ i :: rest ∧ intents_of j' ≡ₚ enter_state c queueStateAssigned now i :: rest.
Proof using Hstep.
  eapply intents_replace; [|apply (ab_intents _ _ _ _ _ Hstep)]. apply (ma_present _ _ _ _ (ab_allowed _ _ _ _ _ Hstep)).
Qed.

Lemma step_was_queued : is_queued i = true.
Proof using Hstep. apply bool_decide_eq_true_2, (ma_queued _ _ _ _ (ab_allowed _ _ _ _ _ Hstep)). Qed.

Lemma step_queued : length (queued_of j) = S (length (queued_of j')).
Proof using Hstep.
  destruct step_intents as (rest & H1 & H2). unfold queued_of. rewrite H1, H2.
  by rewrite filter_cons_True, filter_cons_False by (done || apply step_was_queued).
Qed.

Lemma step_count p :
  p i = false → p (enter_state c queueStateAssigned now i) = true → countZ p (intents_of j') = countZ p (intents_of j) + 1.
Proof using Hstep.
  intros Hp Hp'. destruct step_intents as (rest & -> & ->). rewrite !countZ_cons, Hp, Hp'. lia.
Qed.

Lemma step_count_same p :
  p i = p (enter_state c queueStateAssigned now i) → countZ p (intents_of j') = countZ p (intents_of j).
Proof using Hstep. intros Hp. destruct step_intents as (rest & -> & ->). by rewrite !countZ_cons, Hp. Qed.

Lemma step_sum f :
  (∀ k, f (enter_state c queueStateAssigned now k) = f k) → sumZ f (in_flight_of j') = sumZ f (in_flight_of j) + f i.
Proof using Hstep.
  intros Hf. destruct step_intents as (rest & H1 & H2). unfold in_flight_of. rewrite H1, H2.
  rewrite (filter_cons_True _ (enter_state _ _ _ _)) by done.
  rewrite (filter_cons_False _ i) by (unfold in_flight; by rewrite step_was_queued). rewrite sumZ_cons, Hf. lia.
Qed.

Lemma step_keyed : keyed (Intents j) → keyed (Intents j').
Proof using Hstep.
  intros Hk. rewrite (ab_intents _ _ _ _ _ Hstep). by apply map_Forall_insert_2.
Qed.
End step.

(** ** The loop *)

(** No queued intent can be taken. *)
Definition exhausted (c : queueAdmissionConfig) (now : Time) (j : queueIntentJournal) : Prop :=
  MaxInFlight c ≤ globalInFlight j ∨
  let '(j1, cands) := eligibleQueueCandidates c j (repositoryInFlight j) now in resourceFitCandidate c j1 cands now = None.

(** Every repository can pay for the whole queue. *)
Definition pass_room (j : queueIntentJournal) : Prop :=
  ∀ r, repository_pass (Repositories j) r + queueSchedulerStride * Z.of_nat (length (queued_of j)) ≤ max_uint64.

Lemma exhausted_same c now j j' : same_schedule j' j → exhausted c now j → exhausted c now j'.
Proof.
  intros Hsame. unfold exhausted. rewrite (globalInFlight_same _ _ Hsame), (repositoryInFlight_same _ _ Hsame).
  pose proof (eligible_same c now j' j (repositoryInFlight j) Hsame) as [H1 H2].
  pose proof (eligible_same c now j j (repositoryInFlight j) (reflexivity _)) as [H3 _].
  destruct (eligibleQueueCandidates c j _ now) as [k1 cs1], (eligibleQueueCandidates c j' _ now) as [k2 cs2].
  cbn [fst snd] in *. subst cs2. intros [?|Hnone]; [by left|right].
  rewrite (resourceFit_same c now k2 k1); [done|]. etrans; [exact H1|]. etrans; [exact Hsame|]. by symmetry.
Qed.

Lemma resourceFit_nil c j now : resourceFitCandidate c j [] now = None.
Proof. unfold resourceFitCandidate. by destruct (queueResourcesInFlight c j) as [[]|]. Qed.

Lemma room_can_charge c j r :
  Config_Validate c = Ok tt → unsigned_weights c → pass_room j → (0 < length (queued_of j))%nat →
  can_charge c j r = true ∧ 0 ≤ stride_of c r ≤ queueSchedulerStride.
Proof.
  intros Hc Hu Hroom Hlen. pose proof (policy_weight_ok c Hc r Hu) as Hw. specialize (Hroom r).
  unfold can_charge, stride_of. set (w := Policy_Weight (repositoryPolicy c r)) in *.
  assert (10000 ≤ queueSchedulerStride `quot` w ≤ queueSchedulerStride) as Hs.
  { unfold queueSchedulerStride. rewrite Z.quot_div_nonneg by lia. split.
    - apply Z.div_le_lower_bound; lia.
    - apply Z.div_le_upper_bound; lia. }
  split; [|lia]. apply negb_true_iff, orb_false_iff. split; [lia|].
  unfold queueSchedulerStride in *. nia.
Qed.

Lemma step_room c now j j' i :
  Config_Validate c = Ok tt → unsigned_weights c → admitted_by c now j j' i → pass_room j → pass_room j'.
Proof.
  intros Hc Hu Hstep Hroom r. pose proof (step_queued c now j j' i Hstep) as Hq.
  pose proof (room_can_charge c j (Repository i) Hc Hu Hroom ltac:(lia)) as [Hcan Hs].
  rewrite (ab_pass _ _ _ _ _ Hstep). unfold charged_pass. rewrite Hcan. specialize (Hroom r).
  unfold queueSchedulerStride in *. case_decide; lia.
Qed.

Lemma admit_loop_spec c now fuel : ∀ j,
  Config_Validate c = Ok tt → keyed (Intents j) → (length (queued_of j) < fuel)%nat →
  (admit_loop c now fuel j).2 = true ∧ admissions c now j (admit_loop c now fuel j).1 ∧
  (unsigned_weights c → pass_room j → exhausted c now (admit_loop c now fuel j).1).
Proof.
  induction fuel as [|fuel IH]; intros j Hc Hk Hf; [lia|]. cbn [admit_loop].
  destruct (MaxInFlight c <=? globalInFlight j) eqn:Hmax.
  { split_and!; [done|by constructor|]. intros _ _. left. simpl. lia. }
  pose proof (eligible_same c now j j (repositoryInFlight j) (reflexivity _)) as [Hsame _].
  destruct (eligibleQueueCandidates c j (repositoryInFlight j) now) as [j1 cands] eqn:Helig. cbn [fst snd] in *.
  assert (resourceFitCandidate c j1 cands now = None → exhausted c now j1) as Hex.
  { intros Hnone. apply (exhausted_same c now j); [done|]. right. by rewrite Helig. }
  destruct cands as [|cand cands].
  { split_and!; [done|by constructor|]. intros _ _. apply Hex, resourceFit_nil. }
  destruct (resourceFitCandidate c j1 (cand :: cands) now) as [i|] eqn:Hfit;
    [|by split_and!; [|constructor|intros; apply Hex]].
  destruct (try_selected c now j j1 (cand :: cands) i) as (j2 & r & -> & Hstep & Hr); [done|done|lia|done|done|].
  pose proof (step_queued c now j j2 i Hstep) as Hq.
  pose proof (step_room c now j j2 i Hc) as Hroom'.
  destruct (can_charge c j (Repository i)) eqn:Hcan.
  - subst r. destruct (IH j2) as (H1 & H2 & H3); [done|by eapply step_keyed|lia|].
    split_and!; [done|by econstructor|]. intros Hu Hroom. apply H3; [done|]. by apply Hroom'.
  - destruct Hr as [e ->]. split_and!; [done|by econstructor; [|constructor]|]. intros Hu Hroom.
    pose proof (room_can_charge c j (Repository i) Hc Hu Hroom ltac:(lia)) as [Hyes _]. congruence.
Qed.

Lemma exhausted_try c now j key i :
  exhausted c now j → Intents j !! key = Some i → State i = queueStateQueued →
  (tryAdmitQueueIntent c key now j).2 = Ok false.
Proof.
  intros Hex Hi Hq. unfold tryAdmitQueueIntent. rewrite Hi. unfold is_queued. rewrite Hq.
  rewrite bool_decide_eq_true_2 by done. cbn [negb].
  destruct (MaxInFlight c <=? globalInFlight j) eqn:Hmax; [done|]. unfold exhausted in Hex.
  destruct (eligibleQueueCandidates c j (repositoryInFlight j) now) as [j1 cands].
  destruct Hex as [?|Hnone]; [lia|]. by rewrite Hnone.
Qed.

(** ** Budgets along admissions *)

(** [j] is within every budget, or where it is above one, no further than [j0]. *)
Record within (c : queueAdmissionConfig) (j0 j : queueIntentJournal) : Prop := {
  wi_global : globalInFlight j ≤ Z.max (globalInFlight j0) (MaxInFlight c);
  wi_repository r : repositoryInFlight j r ≤ Z.max (repositoryInFlight j0 r) (Policy_MaxInFlight (repositoryPolicy c r));
  wi_background : queueBackgroundInFlight j ≤ Z.max (queueBackgroundInFlight j0) (MaxBackgroundInFlight c);
  wi_cpu : cpu_in_flight c j ≤ Z.max (cpu_in_flight c j0) (CPUUnits (Capacity c));
  wi_memory : memory_in_flight c j ≤ Z.max (memory_in_flight c j0) (MemoryMiB (Capacity c));
}.

#[export] Instance within_refl c : Reflexive (within c).
Proof. intros j. split; intros; lia. Qed.

#[export] Instance within_trans c : Transitive (within c).
Proof.
  intros j1 j2 j3 [A1 A2 A3 A4 A5] [B1 B2 B3 B4 B5].
  split; [lia| |lia..]. intros r. specialize (A2 r). specialize (B2 r). lia.
Qed.

Lemma within_same c j j' : same_schedule j' j → within c j j'.
Proof.
  intros Hs. pose proof (intents_of_same _ _ Hs) as Hi.
  split; unfold globalInFlight, repositoryInFlight, queueBackgroundInFlight, cpu_in_flight, memory_in_flight, in_flight_of;
    intros; rewrite Hi; lia.
Qed.

Lemma step_within c now j j' i : admitted_by c now j j' i → within c j j'.
Proof.
  intros Hstep. pose proof (step_was_queued c now j j' i Hstep) as Hq.
  destruct (ab_allowed _ _ _ _ _ Hstep) as [_ _ _ Hg Hr _ _ _ Hb _ Hc Hm _]. split.
  - unfold globalInFlight in *. rewrite (step_count c now j j' i Hstep); [lia|by unfold in_flight; rewrite Hq|done].
  - intros r. unfold repositoryInFlight in *. destruct (decide (Repository i = r)) as [<-|Hne].
    + rewrite (step_count c now j j' i Hstep); [lia|by unfold in_flight; rewrite Hq|].
      simpl. by rewrite bool_decide_eq_true_2.
    + rewrite (step_count_same c now j j' i Hstep); [lia|].
      simpl. by rewrite bool_decide_eq_false_2, andb_false_r.
  - unfold queueBackgroundInFlight in *. destruct (decide (Priority i = 2)) as [Hp|Hp].
    + rewrite (step_count c now j j' i Hstep); [specialize (Hb Hp); lia|by unfold in_flight; rewrite Hq|].
      simpl. rewrite Hp. done.
    + rewrite (step_count_same c now j j' i Hstep); [lia|].
      simpl. rewrite (proj2 (Z.eqb_neq _ _) Hp). by rewrite andb_false_r.
  - unfold cpu_in_flight in *. rewrite (step_sum c now j j' i Hstep) by done. lia.
  - unfold memory_in_flight in *. rewrite (step_sum c now j j' i Hstep) by done. lia.
Qed.

Lemma admissions_within c now j j' : admissions c now j j' → within c j j'.
Proof.
  induction 1 as [j j' Hs|j j1 j' i Hstep _ IH]; [by apply within_same|].
  transitivity j1; [by eapply step_within|done].
Qed.

Lemma admit_spec c now j :
  Config_Validate c = Ok tt → keyed (Intents j) →
  (admit_loop c now (admit_fuel j) j).2 = true ∧ admissions c now j (admitQueuedToBudget c now j) ∧
  (unsigned_weights c → pass_room j → exhausted c now (admitQueuedToBudget c now j)).
Proof. intros Hc Hk. apply admit_loop_spec; [done|done|]. unfold admit_fuel, queued_of. lia. Qed.

(** Intents along admissions: untouched, or taken from the queue. *)
Lemma admissions_intents c now j j' k :
  admissions c now j j' →
  Intents j' !! k = Intents j !! k ∨
  ∃ i, Intents j !! k = Some i ∧ State i = queueStateQueued ∧ Intents j' !! k = Some (enter_state c queueStateAssigned now i).
Proof.
  induction 1 as [j j' Hs|j j1 j' i Hstep _ IH]; [left; by rewrite (ss_intents _ _ Hs)|].
  rewrite (ab_intents _ _ _ _ _ Hstep) in IH. destruct (ab_allowed _ _ _ _ _ Hstep) as [Hp Hq _ _ _ _ _ _ _ _ _ _ _].
  destruct (decide (k = Key i)) as [->|Hne].
  - rewrite lookup_insert_eq in IH. right. exists i. split_and!; [done|done|].
    destruct IH as [->|(i' & [= <-] & Hq' & _)]; done.
  - by rewrite lookup_insert_ne in IH.
Qed.
