(* ===== verification/QueueAdmitClaims.v ===== *)
(** * Queue scheduler: its promises

    The theorems on filling the budget, on giving a slot back and on aging, with
    a small concrete fleet on which they are exercised. *)

From S2P Require Import Prelude QueueIntent QueueScheduler QueueSchedulerFacts QueueBudgetFacts.

Local Open Scope Z_scope.
Local Open Scope go_scope.

(** ** A concrete fleet: two slots, two repositories *)

Definition fleet_config : queueAdmissionConfig := {|
  Config_SchemaVersion := 5; MaxInFlight := 2; MaxBackgroundInFlight := 1; DefaultRepositoryLimit := 2;
  DefaultWeight := 1; QueuedTTLSeconds := 600; AcquiringTTLSeconds := 120; AcquiredTTLSeconds := 600;
  ExecutionTTLSeconds := 86400; PriorityAgingSeconds := 300; MaxRepositorySharePercent := 75;
  Capacity := {| CPUUnits := 4; MemoryMiB := 8192 |};
  ScaleSets := {[ "linux" := {| Resources_CPUUnits := 2; Resources_MemoryMiB := 4096; ReservationCPUUnits := 2;
                                ReservationMemoryMiB := 2560; Resources_Priority := 1 |} ]};
  Config_Repositories := Some {[ "acme/api" := {| Policy_Weight := 2; Policy_MaxInFlight := 2 |} ]} |}.

Definition fleet_time : Time := 63871200000 * Second.

Definition fleet_intent (jobID repository : string) (request : Z) (state : queueIntentState) (since : Time) : queueIntent := {|
  Key := queueIntentKey 7 jobID; ScaleSetID := 7; JobID := jobID; RunnerRequestID := request; WorkflowRunID := 1;
  JobDisplayName := "build"; GitHubRunnerID := 0; ScaleSetName := "linux"; RunnerName := ""; Owner := "acme";
  Repository := repository; WorkflowRef := "main"; EventName := "push"; QueueTime := since; FirstQueuedAt := since;
  State := state; Priority := 1; StateEnteredAt := since; UpdatedAt := since; ExpiresAt := fleet_time + 300 * Second |}.

Definition fleet_journal (xs : list queueIntent) : queueIntentJournal := {|
  Journal_SchemaVersion := 6; Generation := 1; Journal_UpdatedAt := fleet_time;
  Intents := list_to_map ((λ i, (Key i, i)) <$> xs); Repositories := ∅; TerminalJobs := ∅ |}.

(** Three queued jobs for two slots. *)
Definition crowded : queueIntentJournal := fleet_journal
  [fleet_intent "a" "acme/api" 11 queueStateQueued (fleet_time - 30 * Second);
   fleet_intent "b" "acme/api" 12 queueStateQueued (fleet_time - 20 * Second);
   fleet_intent "c" "acme/web" 13 queueStateQueued (fleet_time - 10 * Second)].

Lemma crowded_keyed : keyed (Intents crowded).
Proof. apply map_Forall_to_list. vm_compute. repeat constructor. Qed.

Lemma crowded_room : pass_room crowded.
Proof. intros r. unfold crowded, fleet_journal, repository_pass; simpl Repositories. rewrite lookup_empty. by vm_compute. Qed.

Lemma fleet_weights : unsigned_weights fleet_config.
Proof.
  split; [done|]. simpl. intros k p Hp. apply lookup_singleton_Some in Hp as [_ <-]. simpl. lia.
Qed.

(** ** Filling the budget *)

(** C5: Filling the budget is a sequence of legal admissions and ends. Every step
    takes one queued, not tombstoned intent whose scale set has a resource
    contract, at a moment when the global, repository, fair-share, background,
    CPU and memory budgets and the repository's own share of CPU and memory all have
    room for it, and never a job without a
    runner request while one with a request would fit; the repository is charged
    its stride, and nothing else of the journal's intents or tombstones changes.
    The loop leaves by one of its own returns within one turn more than there
    are queued intents. *)
Theorem admit_refines_rule c now j :
  Config_Validate c = Ok tt → keyed (Intents j) →
  admissions c now j (admitQueuedToBudget c now j) ∧ (admit_loop c now (admit_fuel j) j).2 = true.
Proof. intros Hc Hk. destruct (admit_spec c now j Hc Hk) as (H1 & H2 & _). done. Qed.

Lemma admit_refines_rule_witness :
  admissions fleet_config fleet_time crowded (admitQueuedToBudget fleet_config fleet_time crowded) ∧
  (admit_loop fleet_config fleet_time (admit_fuel crowded) crowded).2 = true.
Proof.
  apply (admit_refines_rule fleet_config fleet_time crowded); [vm_compute; reflexivity|exact crowded_keyed].
Defined.

(** C6: Filling the budget never breaks a budget. Afterwards the number of intents
    in flight (in all, per repository, of background class) and the exact sums of
    their CPU and memory reservations are within the configured limit, or no
    larger than before where they were already above it. *)
Theorem admit_keeps_budgets c now j :
  Config_Validate c = Ok tt → keyed (Intents j) → within c j (admitQueuedToBudget c now j).
Proof. intros Hc Hk. destruct (admit_spec c now j Hc Hk) as (_ & H2 & _). by eapply admissions_within. Qed.

Lemma admit_keeps_budgets_witness :
  within fleet_config crowded (admitQueuedToBudget fleet_config fleet_time crowded).
Proof.
  apply (admit_keeps_budgets fleet_config fleet_time crowded); [vm_compute; reflexivity|exact crowded_keyed].
Defined.

(** Both slots are taken, one by each repository. *)
Example crowded_served :
  globalInFlight (admitQueuedToBudget fleet_config fleet_time crowded) = 2 ∧
  repositoryInFlight (admitQueuedToBudget fleet_config fleet_time crowded) "acme/web" = 1.
Proof. vm_compute. done. Qed.

(** Filling the budget leaves nothing behind. As long as no repository's pass
    is about to overflow, the scheduler refuses each intent that is still queued
    afterwards: no slot stays empty that a queued job was allowed to take. *)
Theorem admit_fills_budget c now j key i :
  Config_Validate c = Ok tt → unsigned_weights c → keyed (Intents j) → pass_room j →
  Intents (admitQueuedToBudget c now j) !! key = Some i → State i = queueStateQueued →
  (tryAdmitQueueIntent c key now (admitQueuedToBudget c now j)).2 = Ok false.
Proof.
  intros Hc Hu Hk Hroom. destruct (admit_spec c now j Hc Hk) as (_ & _ & Hex).
  by apply exhausted_try, Hex.
Qed.

Lemma admit_fills_budget_witness :
  (tryAdmitQueueIntent fleet_config (queueIntentKey 7 "b") fleet_time
     (admitQueuedToBudget fleet_config fleet_time crowded)).2 = Ok false.
Proof.
  apply (admit_fills_budget fleet_config fleet_time crowded (queueIntentKey 7 "b")
           (fleet_intent "b" "acme/api" 12 queueStateQueued (fleet_time - 20 * Second)));
    [vm_compute; reflexivity|exact fleet_weights|exact crowded_keyed|exact crowded_room|vm_compute; reflexivity|reflexivity].
Defined.

(** ** Giving a slot back *)

Lemma demote_lookup c now j key :
  Intents (demoteRequestlessAssigned c key now j) = Intents j ∨
  ∃ i, Intents j !! key = Some i ∧ yieldable i = true ∧
       Intents (demoteRequestlessAssigned c key now j) = <[key := demoted c now i]> (Intents j).
Proof.
  unfold demoteRequestlessAssigned. destruct (Intents j !! key) as [i|] eqn:Hi; [|by left].
  destruct (yieldable i) eqn:Hy; [right; eauto|by left].
Qed.

Lemma first_yield_spec c now j keys key :
  first_yield c now j keys = Some key →
  key ∈ keys ∧ let clone := demoteRequestlessAssigned c key now j in
  (dispatchableQueuedWouldFit c clone (repositoryInFlight clone) now).2 = true.
Proof.
  induction keys as [|k keys IH]; cbn [first_yield]; [done|].
  destruct (dispatchableQueuedWouldFit _ _ _ _).2 eqn:Hfit.
  - intros [= ->]. split; [set_solver|done].
  - intros [? ?]%IH. split; [set_solver|done].
Qed.

Lemma yieldable_keys_spec j key :
  key ∈ yieldableRequestlessKeys j → ∃ i, Intents j !! key = Some i ∧ yieldable i = true.
Proof.
  unfold yieldableRequestlessKeys. intros ([k i] & -> & Hin)%list_elem_of_fmap.
  apply elem_of_sort_slice, list_elem_of_filter in Hin as [Hy Hin]. apply elem_of_map_to_list in Hin. eauto.
Qed.

(** Yielding gives up at most one slot, and only for a job that can use it.
    The loop ends within two turns. Either no intent changes, or exactly one
    assigned intent with neither a runner request nor a runner goes back to the
    queue, when no job with a request fitted before and one fits after. *)
Theorem yield_one_slot c now j :
  let j' := yieldRequestlessOccupancy c now j in
  (yield_loop c now 2 j).2 = true ∧ TerminalJobs j' = TerminalJobs j ∧
  (Intents j' = Intents j ∨
   ∃ key i, Intents j !! key = Some i ∧ yieldable i = true ∧ Intents j' = <[key := demoted c now i]> (Intents j) ∧
     (dispatchableQueuedWouldFit c j (repositoryInFlight j) now).2 = false ∧
     (dispatchableQueuedWouldFit c j' (repositoryInFlight j') now).2 = true).
Proof.
  unfold yieldRequestlessOccupancy. remember 1%nat as one eqn:Hone. cbn [yield_loop].
  pose proof (dispatchable_same c now j j (repositoryInFlight j) (reflexivity _)) as [Hs _].
  destruct (dispatchableQueuedWouldFit c j (repositoryInFlight j) now) as [k fits] eqn:Hd. cbn [fst snd] in *.
  pose proof (ss_intents _ _ Hs) as Hi. pose proof (ss_terminal _ _ Hs) as Ht.
  destruct fits; [by split_and!; [| |left]|].
  destruct (first_yield c now k _) as [key|] eqn:Hf; [|by split_and!; [| |left]].
  apply first_yield_spec in Hf as [Hkey Hfit]. cbv zeta in Hfit. apply yieldable_keys_spec in Hkey as (i & Hlook & Hy).
  subst one. cbn [yield_loop]. set (clone := demoteRequestlessAssigned c key now k) in *.
  pose proof (dispatchable_same c now clone clone (repositoryInFlight clone) (reflexivity _)) as [Hs' _].
  destruct (dispatchableQueuedWouldFit c clone (repositoryInFlight clone) now) as [k' fits'] eqn:Hd'.
  rewrite ?Hd' in Hfit. cbn [fst snd] in *. subst fits'. cbn [fst snd].
  assert (Intents clone = <[key := demoted c now i]> (Intents j) ∧ TerminalJobs clone = TerminalJobs j) as [Hci Hct].
  { unfold clone, demoteRequestlessAssigned. rewrite Hlook, Hy. simpl. by rewrite Hi, Ht. }
  split_and!; [done|by rewrite (ss_terminal _ _ Hs')|right].
  exists key, i. rewrite Hi in Hlook. split_and!; [done|done|by rewrite (ss_intents _ _ Hs')|done|].
  pose proof (dispatchable_same c now k' clone (repositoryInFlight clone) Hs') as [_ Heq].
  rewrite (repositoryInFlight_same _ _ Hs'), Heq. by rewrite Hd'.
Qed.

(** ** Aging *)

Lemma quot_seconds d : 0 ≤ d ≤ max_int64 → d ⊘ seconds 300 = d `div` (300 * Second).
Proof.
  unfold max_int64. intros Hd. unfold int_div, seconds, int_mul.
  change (wrap64 (300 * Second)) with (300 * Second). rewrite Z.quot_div_nonneg by (unfold Second; lia).
  apply wrap64_small. unfold in_int64, min_int64, max_int64.
  pose proof (Z.div_pos d (300 * Second) ltac:(lia) ltac:(unfold Second; lia)).
  pose proof (Z.div_le_upper_bound d (300 * Second) d ltac:(unfold Second; lia) ltac:(unfold Second; lia)). lia.
Qed.

(** Aging is bounded on both sides. An intent's effective priority is never
    worse than its own, is zero exactly when its own is zero, and is the ordinary
    priority one at the latest after five minutes of waiting per class above it.
    A waiting job therefore never ages into the reserved class zero, which alone
    stops smaller jobs from passing it. *)
Theorem aging_bounded c now i :
  Config_Validate c = Ok tt → 0 ≤ Priority i ≤ 3 →
  effectiveQueuePriority c now i ≤ Priority i ∧
  (effectiveQueuePriority c now i = 0 ↔ Priority i = 0) ∧
  ((Priority i - 1) * 300 * Second ≤ now - queueWaitSince i → effectiveQueuePriority c now i ≤ 1).
Proof.
  intros Hc Hp. assert (PriorityAgingSeconds c = 300) as Hage.
  { unfold Config_Validate in Hc. apply bind_Ok in Hc as ([] & _ & H). apply bind_Ok in H as ([] & _ & H).
    apply bind_Ok in H as ([] & H & _). apply fail_if_Ok in H. bool_hyps. lia. }
  unfold effectiveQueuePriority, After. rewrite Hage. destruct (Priority i <=? 1) eqn:H1; [simpl; lia|].
  destruct (queueWaitSince i <? now) eqn:Hw; [|simpl; unfold Second in *; nia]. simpl.
  set (d := Sub now (queueWaitSince i)). assert (0 ≤ d ≤ max_int64 ∧ Z.min max_int64 (now - queueWaitSince i) = d) as [Hd He].
  { unfold d, Sub, min_int64, max_int64. lia. }
  rewrite (quot_seconds d Hd). pose proof (Z.div_pos d (300 * Second) ltac:(lia) ltac:(unfold Second; lia)) as Hq.
  pose proof (Z.mod_pos_bound d (300 * Second) ltac:(unfold Second; lia)) as Hr.
  pose proof (Z.div_mod d (300 * Second) ltac:(unfold Second; lia)) as Hdm.
  pose proof (Z.div_le_upper_bound d (300 * Second) d ltac:(unfold Second; lia) ltac:(unfold Second; lia)) as Hle.
  set (q := d `div` (300 * Second)) in *.
  assert (Priority i ⊖ q = Priority i - q) as ->.
  { apply wrap64_small. unfold in_int64, min_int64, max_int64 in *. lia. }
  unfold maxQueuePriority. destruct (_ <? 1) eqn:Hlt; [lia|]. split_and!; [lia|lia|].
  intros Hwait. unfold max_int64, Second in *. nia.
Qed.

Lemma aging_bounded_witness :
  effectiveQueuePriority fleet_config fleet_time
    (set_Priority 2 (fleet_intent "old" "acme/api" 9 queueStateQueued (fleet_time - 4000 * Second))) ≤ 1.
Proof.
  apply (aging_bounded fleet_config fleet_time
    (set_Priority 2 (fleet_intent "old" "acme/api" 9 queueStateQueued (fleet_time - 4000 * Second))));
    [vm_compute; reflexivity|vm_compute; split; discriminate|vm_compute; discriminate].
Defined.
