(* ===== verification/QueueOps.v ===== *)
(** * Queue coordinator: messages and the locked transaction
    ([src/third_party/garm/overlay/workers/scaleset/queue_intent.go])

    Every public operation of the coordinator is a mutation of the journal run
    inside one locked transaction ([update]). GARM's [params] structs are records
    of the fields the coordinator reads. A file is its size and the result of
    reading and decoding it; paths and the lock are one result; the length of a
    journal's JSON is an argument; a write fails before or after the rename. A value Go returns next to a
    non-nil error is dropped. *)

From S2P Require Import Prelude QueueIntent QueueScheduler.

Local Open Scope Z_scope.
Local Open Scope go_scope.

(** ** Messages *)

Record ScaleSet := {
  ScaleSet_ID : Z;
  ScaleSet_Name : string;
  MaxRunners : Z;
  Enabled : bool;
}.

Inductive ForgeEntityType := ForgeEntityTypeRepository | ForgeEntityTypeOrganization | OtherEntityType (s : string).

Record ForgeEntity := {
  EntityType : ForgeEntityType;
  Entity_Owner : string;
  Entity_Name : string;
}.

Inductive MessageType := MessageTypeJobStarted | OtherMessageType (s : string).

Record ScaleSetJobMessage := {
  Message_Type : MessageType;
  Message_JobID : string;
  Message_RunnerRequestID : Z;
  Message_WorkflowRunID : Z;
  Message_JobDisplayName : string;
  Message_RunnerID : Z;
  Message_RunnerName : string;
  Message_OwnerName : string;
  Message_RepositoryName : string;
  Message_JobWorkflowRef : string;
  Message_EventName : string;
  Message_QueueTime : Time;
}.

(** The database row of a job. *)
Record Job := {
  ScaleSetJobID : string;
  RunID : Z;
  RepositoryOwner : string;
  Job_RepositoryName : string;
  Job_Action : string;
  CreatedAt : Time;
}.

(** ** Intents from messages *)

Definition baseQueuePriority (c : queueAdmissionConfig) (scaleSetName eventName : string) : Z :=
  match ScaleSets c !! scaleSetName with
  | None => 1
  | Some r =>
      if Resources_Priority r =? 0 then 0
      else if bool_decide (eventName = "schedule") || (Resources_Priority r =? 2) then 2 else 1
  end.

Definition queueIntentFromJob (c : queueAdmissionConfig) (ss : ScaleSet) (job : ScaleSetJobMessage) (now : Time)
    (ttl : Duration) : result queueIntent :=
  let repository := Message_OwnerName job +:+ "/" +:+ Message_RepositoryName job in
  fail_if ((ScaleSet_ID ss <=? 0) || (MaxRunners ss <? 1) || negb (validQueueText (ScaleSet_Name ss))
           || negb (validQueueText (Message_JobID job)) || (Message_RunnerRequestID job <=? 0)
           || negb (validRepository repository) || IsZero (Message_QueueTime job)
           || After (Message_QueueTime job) (Add now Minute) || negb (validQueueText (Message_JobWorkflowRef job))
           || negb (validQueueText (Message_EventName job)))
    (Errorf "job %d has incomplete queue admission identity" []);;
  Ok {| Key := queueIntentKey (ScaleSet_ID ss) (Message_JobID job); ScaleSetID := ScaleSet_ID ss;
        JobID := Message_JobID job; RunnerRequestID := Message_RunnerRequestID job;
        WorkflowRunID := Message_WorkflowRunID job; JobDisplayName := Message_JobDisplayName job;
        GitHubRunnerID := Message_RunnerID job; ScaleSetName := ScaleSet_Name ss; RunnerName := "";
        Owner := Message_OwnerName job; Repository := repository; WorkflowRef := Message_JobWorkflowRef job;
        EventName := Message_EventName job; QueueTime := Message_QueueTime job; FirstQueuedAt := now;
        State := queueStateQueued; Priority := baseQueuePriority c (ScaleSet_Name ss) (Message_EventName job);
        StateEnteredAt := now; UpdatedAt := now; ExpiresAt := Add now ttl |}.

Definition unavailable : string := "unavailable-before-job-available".

Definition lifecycle_repository (entity : ForgeEntity) (jobID : string) : result string :=
  let refuse := Errorf "job %q has incomplete queue admission identity" [jobID] in
  match EntityType entity with
  | ForgeEntityTypeRepository =>
      let repository := Entity_Owner entity +:+ "/" +:+ Entity_Name entity in
      fail_if (negb (validRepository repository)) refuse;; Ok repository
  | ForgeEntityTypeOrganization =>
      let repository := Entity_Owner entity in
      fail_if (negb (validQueueText repository) || contains_byte slash repository) refuse;; Ok repository
  | OtherEntityType _ => Err refuse
  end.

Definition queueIntentFromLifecycle (c : queueAdmissionConfig) (ss : ScaleSet) (entity : ForgeEntity)
    (job : ScaleSetJobMessage) (now : Time) (ttl : Duration) : result queueIntent :=
  repository ← lifecycle_repository entity (Message_JobID job);
  fail_if ((ScaleSet_ID ss <=? 0) || (MaxRunners ss <? 1) || negb (validQueueText (ScaleSet_Name ss))
           || negb (validQueueText (Message_JobID job)) || negb (validQueueText (Entity_Owner entity)))
    (Errorf "job %q has incomplete queue admission identity" [Message_JobID job]);;
  let runnerName :=
    match Message_Type job with
    | MessageTypeJobStarted => if validQueueText (Message_RunnerName job) then Message_RunnerName job else ""
    | OtherMessageType _ => ""
    end in
  Ok {| Key := queueIntentKey (ScaleSet_ID ss) (Message_JobID job); ScaleSetID := ScaleSet_ID ss;
        JobID := Message_JobID job; RunnerRequestID := 0; WorkflowRunID := Message_WorkflowRunID job;
        JobDisplayName := Message_JobDisplayName job; GitHubRunnerID := Message_RunnerID job;
        ScaleSetName := ScaleSet_Name ss; RunnerName := runnerName; Owner := Entity_Owner entity;
        Repository := repository; WorkflowRef := unavailable; EventName := unavailable; QueueTime := now;
        FirstQueuedAt := now; State := queueStateQueued; Priority := baseQueuePriority c (ScaleSet_Name ss) "";
        StateEnteredAt := now; UpdatedAt := now; ExpiresAt := Add now ttl |}.

Definition put (i : queueIntent) (j : queueIntentJournal) : queueIntentJournal := with_intents (<[Key i := i]> (Intents j)) j.
Definition put_at (key : string) (i : queueIntent) (j : queueIntentJournal) : queueIntentJournal :=
  with_intents (<[key := i]> (Intents j)) j.

(** ** JobAvailable *)

Definition backfill_first_queued (i : queueIntent) : queueIntent :=
  if IsZero (FirstQueuedAt i) then set_FirstQueuedAt (QueueTime i) i else i.

(** An intent without a request learns it, and everything JobAvailable carries. *)
Definition bind_available (existing incoming : queueIntent) : queueIntent :=
  set_Priority (Priority incoming) (set_QueueTime (QueueTime incoming) (backfill_first_queued
    (set_EventName (EventName incoming) (set_WorkflowRef (WorkflowRef incoming)
      (set_JobDisplayName (JobDisplayName incoming) (set_WorkflowRunID (WorkflowRunID incoming)
        (set_RunnerRequestID (RunnerRequestID incoming) (set_Repository (Repository incoming) existing)))))))).

Definition observe_job (c : queueAdmissionConfig) (ss : ScaleSet) (now : Time) (j : queueIntentJournal)
    (job : ScaleSetJobMessage) : result queueIntentJournal :=
  intent ← queueIntentFromJob c ss job now (seconds (QueuedTTLSeconds c));
  match Intents j !! Key intent with
  | Some existing =>
      fail_if (negb (queueIntentCoreIdentityEqual existing intent)
               || (negb (RunnerRequestID existing =? 0) && negb (RunnerRequestID existing =? RunnerRequestID intent)))
        (Errorf "duplicate queue intent %q changed immutable identity" [Key intent]);;
      if RunnerRequestID existing =? 0 then
        Ok (ensureRepositoryState c (Repository intent) (put_at (Key intent) (bind_available existing intent) j))
      else
        fail_if (negb (queueIntentMetadataEqual existing intent))
          (Errorf "duplicate queue intent %q changed available-job metadata" [Key intent]);;
        Ok (ensureRepositoryState c (Repository intent) j)
  | None => Ok (ensureRepositoryState c (Repository intent) (put intent j))
  end.

Definition try_job (c : queueAdmissionConfig) (ss : ScaleSet) (now : Time) (j : queueIntentJournal)
    (job : ScaleSetJobMessage) : result queueIntentJournal :=
  let '(j', r) := tryAdmitQueueIntent c (queueIntentKey (ScaleSet_ID ss) (Message_JobID job)) now j in
  r;; Ok j'.

Definition observe_available (c : queueAdmissionConfig) (ss : ScaleSet) (jobs : list ScaleSetJobMessage) (now : Time)
    (j : queueIntentJournal) : result (queueIntentJournal * unit) :=
  j1 ← foldM (observe_job c ss now) jobs j;
  j2 ← foldM (try_job c ss now) jobs j1;
  Ok (j2, tt).

Definition has_queued_available (ss : ScaleSet) (jobs : list ScaleSetJobMessage) (now : Time)
    (j : queueIntentJournal) : result (queueIntentJournal * bool) :=
  pending ← foldM (λ pending job,
    let key := queueIntentKey (ScaleSet_ID ss) (Message_JobID job) in
    match Intents j !! key with
    | None => Err (Errorf "available queue intent %q is missing" [key])
    | Some i => Ok (pending || match State i with
                               | queueStateQueued | queueStateAssigned | queueStateAcquiring => true
                               | _ => false
                               end)
    end) jobs false;
  Ok (j, pending).

(** ** Capacity target *)

Definition owns_capacity (ss : ScaleSet) (entity : ForgeEntity) (now : Time) (j : queueIntentJournal) (i : queueIntent) : bool :=
  (ScaleSetID i =? ScaleSet_ID ss) && bool_decide (ScaleSetName i = ScaleSet_Name ss) &&
  bool_decide (Owner i = Entity_Owner entity) && negb (tombstoned j now (JobID i)) &&
  match State i with
  | queueStateAssigned | queueStateAcquiring | queueStateAcquired | queueStateRunning => true
  | _ => false
  end.

Definition admitted_capacity_target (ss : ScaleSet) (entity : ForgeEntity) (now : Time) (j : queueIntentJournal)
    : result (queueIntentJournal * Z) :=
  Ok (j, countZ (owns_capacity ss entity now j) (intents_of j)).

Definition admittedScaleUpTarget (intentTarget maxRunners : Z) : Z :=
  if (intentTarget <? 1) || (maxRunners <? 1) then 0
  else if maxRunners <? intentTarget then maxRunners else intentTarget.

Definition shouldScaleUp (current githubDesired accepted : Z) : bool := (current <? accepted) || (current <? githubDesired).
Definition shouldScaleDown (current githubDesired accepted : Z) : bool := (githubDesired <? current) && (accepted <? current).

(** ** Acquiring *)

Definition selectable (now : Time) (i : queueIntent) : bool :=
  match State i with
  | queueStateAcquiring => negb (Sub now (UpdatedAt i) <? queueAcquireRetryDelay)
  | queueStateAssigned => true
  | _ => false
  end.

Definition select_job (c : queueAdmissionConfig) (ss : ScaleSet) (now : Time) (acc : queueIntentJournal * list Z)
    (job : ScaleSetJobMessage) : queueIntentJournal * list Z :=
  let '(j, selected) := acc in
  let key := queueIntentKey (ScaleSet_ID ss) (Message_JobID job) in
  match Intents j !! key with
  | Some i =>
      if selectable now i
      then (put_at key (enter_state c queueStateAcquiring now i) j, selected ++ [Message_RunnerRequestID job])
      else (j, selected)
  | None => (j, selected)
  end.

Definition select_for_acquire (c : queueAdmissionConfig) (ss : ScaleSet) (jobs : list ScaleSetJobMessage) (now : Time)
    (j : queueIntentJournal) : result (queueIntentJournal * list Z) :=
  Ok (foldl (select_job c ss now) (j, []) jobs).

(** [queueIntentKeyForRequest]: the key of the one matching intent. *)
Definition queueIntentKeyForRequest (j : queueIntentJournal) (scaleSetID requestID : Z) : result string :=
  match (filter (λ ki, ((ScaleSetID ki.2 =? scaleSetID) && (RunnerRequestID ki.2 =? requestID)) = true)
           (map_to_list (Intents j))).*1 with
  | [] => Err (Errorf "runner request ID %d is missing in scale set %d" [])
  | [key] => if bool_decide (key = "") then Err (Errorf "runner request ID %d is missing in scale set %d" []) else Ok key
  | _ => Err (Errorf "runner request ID %d is not unique in scale set %d" [])
  end.

(** The intent of a request, which must be acquiring. *)
Definition acquiring_intent (j : queueIntentJournal) (ss : ScaleSet) (id : Z) : result (string * queueIntent) :=
  key ← queueIntentKeyForRequest j (ScaleSet_ID ss) id;
  match Intents j !! key with
  | Some i =>
      if bool_decide (State i = queueStateAcquiring) then Ok (key, i)
      else Err (Errorf "queue intent %q is not durably acquiring" [key])
  | None => Err (Errorf "queue intent %q is not durably acquiring" [key])
  end.

Definition complete_one (c : queueAdmissionConfig) (ss : ScaleSet) (acquired : list Z) (now : Time)
    (j : queueIntentJournal) (id : Z) : result queueIntentJournal :=
  ki ← acquiring_intent j ss id;
  let '(key, i) := (ki : string * queueIntent) in
  if bool_decide (id ∈ acquired) then Ok (put_at key (enter_state c queueStateAcquired now i) j)
  else Ok (put_at key (set_phase (State i) (StateEnteredAt i) now (expiryForState c (State i) now) i) j).

Definition complete_acquire (c : queueAdmissionConfig) (ss : ScaleSet) (selected acquired : list Z) (now : Time)
    (j : queueIntentJournal) : result (queueIntentJournal * unit) :=
  j' ← foldM (complete_one c ss acquired now) selected j; Ok (j', tt).

Definition fail_one (c : queueAdmissionConfig) (ss : ScaleSet) (now : Time) (j : queueIntentJournal) (id : Z)
    : result queueIntentJournal :=
  ki ← acquiring_intent j ss id;
  let '(key, i) := (ki : string * queueIntent) in
  Ok (put_at key (enter_state c queueStateAssigned now i) j).

Definition fail_acquire (c : queueAdmissionConfig) (ss : ScaleSet) (selected : list Z) (now : Time)
    (j : queueIntentJournal) : result (queueIntentJournal * unit) :=
  j' ← foldM (fail_one c ss now) selected j; Ok (j', tt).

(** ** Lifecycle events *)

Definition execution_tombstone (c : queueAdmissionConfig) (now : Time) : Time := Add now (seconds (ExecutionTTLSeconds c)).

Definition never_started (i : queueIntent) : bool :=
  (RunnerRequestID i =? 0) && bool_decide (RunnerName i = "") && negb (bool_decide (State i = queueStateRunning)).

Definition complete_job (c : queueAdmissionConfig) (ss : ScaleSet) (startedKeys : gset string) (now : Time)
    (acc : queueIntentJournal * gset string) (job : ScaleSetJobMessage) : result (queueIntentJournal * gset string) :=
  let '(j, completedKeys) := acc in
  fail_if (negb (validQueueText (Message_JobID job))) (Errorf "completed job has invalid job ID" []);;
  let key := queueIntentKey (ScaleSet_ID ss) (Message_JobID job) in
  let '(j, completedKeys) :=
    match Intents j !! key with
    | Some i =>
        if negb (bool_decide (key ∈ startedKeys)) && never_started i
        then (put_at key (enter_state c queueStateQueued now i) j, completedKeys)
        else (j, {[key]} ∪ completedKeys)
    | None => (j, {[key]} ∪ completedKeys)
    end in
  Ok (markTerminalJob (Message_JobID job) (execution_tombstone c now) j, completedKeys).

(** [bindStartedIdentity] returns the bound intent and the journal. *)
Definition started_repository (i : queueIntent) (job : ScaleSetJobMessage) : option string :=
  let repository := Message_OwnerName job +:+ "/" +:+ Message_RepositoryName job in
  if negb (queueIntentRepositoryBound i) && validQueueText (Message_OwnerName job)
     && validQueueText (Message_RepositoryName job) && validRepository repository
     && queueIntentRepositoryCompatible i repository
  then Some repository else None.

Definition bindStartedIdentity (c : queueAdmissionConfig) (job : ScaleSetJobMessage) (i : queueIntent)
    (j : queueIntentJournal) : queueIntent * queueIntentJournal :=
  let '(i, j) := match started_repository i job with
                 | Some repository => (set_Repository repository i, ensureRepositoryState c repository j)
                 | None => (i, j)
                 end in
  let i := if bool_decide (WorkflowRef i = unavailable) && validQueueText (Message_JobWorkflowRef job)
           then set_WorkflowRef (Message_JobWorkflowRef job) i else i in
  let i := if bool_decide (EventName i = unavailable) && validQueueText (Message_EventName job)
           then set_EventName (Message_EventName job) i else i in
  (i, j).

Definition start_existing (c : queueAdmissionConfig) (job : ScaleSetJobMessage) (now : Time) (i : queueIntent)
    (j : queueIntentJournal) : queueIntent * queueIntentJournal :=
  let entered := if bool_decide (State i = queueStateRunning) then StateEnteredAt i else now in
  let i := set_phase queueStateRunning entered (UpdatedAt i) (ExpiresAt i) i in
  let i := if validQueueText (Message_RunnerName job) then set_RunnerName (Message_RunnerName job) i else i in
  let '(i, j) := bindStartedIdentity c job i j in
  let i := if 0 <? Message_WorkflowRunID job then set_WorkflowRunID (Message_WorkflowRunID job) i else i in
  let i := if validQueueText (Message_JobDisplayName job) then set_JobDisplayName (Message_JobDisplayName job) i else i in
  let i := if 0 <? Message_RunnerID job then set_GitHubRunnerID (Message_RunnerID job) i else i in
  (set_phase queueStateRunning (StateEnteredAt i) now (expiryForState c queueStateRunning now) i, j).

(** [transferAssignedReservation] and [transferTerminalWaiterLineage] never
    transfer anything; a started job without an intent is rehydrated, and one
    whose identity is incomplete is only logged. *)
Definition start_job (c : queueAdmissionConfig) (ss : ScaleSet) (entity : ForgeEntity) (completedKeys : gset string)
    (now : Time) (j : queueIntentJournal) (job : ScaleSetJobMessage) : queueIntentJournal :=
  let key := queueIntentKey (ScaleSet_ID ss) (Message_JobID job) in
  if bool_decide (key ∈ completedKeys) then j
  else
    match Intents j !! key with
    | Some i => let '(i, j) := start_existing c job now i j in put_at key i j
    | None =>
        match queueIntentFromLifecycle c ss entity job now (seconds (ExecutionTTLSeconds c)) with
        | Err _ => j
        | Ok replacement =>
            let replacement := enter_state c queueStateRunning now replacement in
            let '(replacement, j) := bindStartedIdentity c job replacement j in
            ensureRepositoryState c (Repository replacement) (put_at key replacement j)
        end
    end.

Definition assign_job (c : queueAdmissionConfig) (ss : ScaleSet) (entity : ForgeEntity)
    (completedKeys startedKeys : gset string) (now : Time) (j : queueIntentJournal) (job : ScaleSetJobMessage)
    : result queueIntentJournal :=
  if tombstoned j now (Message_JobID job) then Ok j
  else
    intent ← queueIntentFromLifecycle c ss entity job now (seconds (QueuedTTLSeconds c));
    if bool_decide (Key intent ∈ completedKeys) then Ok j
    else
      match Intents j !! Key intent with
      | Some existing =>
          fail_if (negb (queueIntentCoreIdentityEqual existing intent))
            (Errorf "duplicate assigned intent %q changed immutable identity" [Key intent]);;
          Ok j
      | None =>
          if bool_decide (Key intent ∈ startedKeys) then Ok j
          else Ok (ensureRepositoryState c (Repository intent) (put intent j))
      end.

Definition drop_keys (keys : gset string) (j : queueIntentJournal) : queueIntentJournal :=
  with_intents (filter (λ ki, ki.1 ∉ keys) (Intents j)) j.

Definition observe_lifecycle (c : queueAdmissionConfig) (ss : ScaleSet) (entity : ForgeEntity)
    (assigned started completed : list ScaleSetJobMessage) (now : Time) (j : queueIntentJournal)
    : result (queueIntentJournal * bool) :=
  let startedKeys : gset string :=
    list_to_set ((λ job, queueIntentKey (ScaleSet_ID ss) (Message_JobID job)) <$> started) in
  done ← foldM (complete_job c ss startedKeys now) completed (j, ∅);
  let '(j, completedKeys) := (done : queueIntentJournal * gset string) in
  let j := foldl (start_job c ss entity completedKeys now) j started in
  j ← foldM (assign_job c ss entity completedKeys startedKeys now) assigned j;
  Ok (admitQueuedToBudget c now (drop_keys completedKeys j), false).

(** ** Authoritative reconciliation *)

Definition remove_intent (c : queueAdmissionConfig) (jobID : string) (now : Time) (j : queueIntentJournal)
    : result (queueIntentJournal * bool) :=
  match (filter (λ ki, JobID ki.2 = jobID) (map_to_list (Intents j))).*1 with
  | [] => Ok (markTerminalJob jobID (execution_tombstone c now) j, false)
  | [key] =>
      if bool_decide (key = "") then Ok (markTerminalJob jobID (execution_tombstone c now) j, false)
      else Ok (admitQueuedToBudget c now (markTerminalJob jobID (execution_tombstone c now)
                 (with_intents (delete key (Intents j)) j)), true)
  | _ => Err (Errorf "authoritative queue reconciliation is ambiguous for job %q" [jobID])
  end.

(** An account-scoped intent is bound to the repository of the database row. *)
Definition bind_authoritative (c : queueAdmissionConfig) (ss : ScaleSet) (job : Job) (repository : string)
    (queueTime now : Time) (existing : queueIntent) : queueIntent :=
  set_UpdatedAt now (set_Priority (baseQueuePriority c (ScaleSet_Name ss) (Job_Action job)) (set_QueueTime queueTime
    (backfill_first_queued (set_EventName (Job_Action job) (set_WorkflowRef "authoritative-reconciliation"
      (set_Repository repository existing)))))).

Definition rehydrated (c : queueAdmissionConfig) (ss : ScaleSet) (entity : ForgeEntity) (job : Job)
    (repository : string) (queueTime now : Time) : queueIntent :=
  {| Key := queueIntentKey (ScaleSet_ID ss) (ScaleSetJobID job); ScaleSetID := ScaleSet_ID ss;
     JobID := ScaleSetJobID job; RunnerRequestID := 0; WorkflowRunID := RunID job; JobDisplayName := "";
     GitHubRunnerID := 0; ScaleSetName := ScaleSet_Name ss; RunnerName := ""; Owner := Entity_Owner entity;
     Repository := repository; WorkflowRef := "authoritative-rehydration"; EventName := Job_Action job;
     QueueTime := queueTime; FirstQueuedAt := now; State := queueStateQueued;
     Priority := baseQueuePriority c (ScaleSet_Name ss) (Job_Action job); StateEnteredAt := now; UpdatedAt := now;
     ExpiresAt := expiryForState c queueStateQueued now |}.

Definition ensure_authoritative (c : queueAdmissionConfig) (ss : ScaleSet) (entity : ForgeEntity) (job : Job)
    (repository : string) (now : Time) (j : queueIntentJournal) : result (queueIntentJournal * bool) :=
  let key := queueIntentKey (ScaleSet_ID ss) (ScaleSetJobID job) in
  let queueTime := if IsZero (CreatedAt job) || After (CreatedAt job) now then now else CreatedAt job in
  let cleared := bool_decide (is_Some (TerminalJobs j !! ScaleSetJobID job)) in
  let j := with_terminal (delete (ScaleSetJobID job) (TerminalJobs j)) j in
  let refill j := if cleared then admitQueuedToBudget c now j else j in
  match Intents j !! key with
  | Some existing =>
      fail_if (negb (bool_decide (ScaleSetName existing = ScaleSet_Name ss))
               || negb (bool_decide (Owner existing = Entity_Owner entity))
               || negb (queueIntentRepositoryCompatible existing repository))
        (Errorf "authoritative queued job changed immutable queue identity" []);;
      fail_if (negb (WorkflowRunID existing =? 0) && negb (RunID job =? 0) && negb (WorkflowRunID existing =? RunID job))
        (Errorf "authoritative queued job changed workflow run identity" []);;
      let learns := (WorkflowRunID existing =? 0) && (0 <? RunID job) in
      let existing := if learns then set_WorkflowRunID (RunID job) existing else existing in
      let j := if learns then put_at key existing j else j in
      if queueIntentRepositoryBound existing then Ok (refill j, cleared || learns)
      else
        Ok (refill (ensureRepositoryState c repository
                     (put_at key (bind_authoritative c ss job repository queueTime now existing) j)), true)
  | None =>
      Ok (admitQueuedToBudget c now (ensureRepositoryState c repository
            (put (rehydrated c ss entity job repository queueTime now) j)), true)
  end.

(** ** The transaction *)

Definition queueIntentMaxBytes : Z := 4 * 1024 * 1024.

(** A decoded document; absent JSON maps are [None]. *)
Record QueueDocument := {
  Document_SchemaVersion : Z;
  Document_Generation : Z;
  Document_UpdatedAt : Time;
  Document_Intents : option (gmap string queueIntent);
  Document_Repositories : option (gmap string queueRepositoryState);
  Document_TerminalJobs : option (gmap string Time);
}.

(** The journal file: absent, or its size, its permission bits and what opening,
    reading and decoding it gives. *)
Inductive QueueFile :=
  | NoQueueFile
  | QueueContent (size perm : Z) (content : result QueueDocument).

(** [info.Mode().Perm()&mask != 0]. *)
Definition grants (perm mask : Z) : bool := negb (Z.land perm mask =? 0).

Definition documentOf (j : queueIntentJournal) : QueueDocument := {|
  Document_SchemaVersion := Journal_SchemaVersion j; Document_Generation := Generation j;
  Document_UpdatedAt := Journal_UpdatedAt j; Document_Intents := Some (Intents j);
  Document_Repositories := Some (Repositories j); Document_TerminalJobs := Some (TerminalJobs j) |}.

Definition entered_at_update (i : queueIntent) : queueIntent :=
  set_phase (State i) (UpdatedAt i) (UpdatedAt i) (ExpiresAt i) i.

(** The upgrade of older schema versions. *)
Definition upgrade (d : QueueDocument) : result QueueDocument :=
  let version := Document_SchemaVersion d in
  let upgraded intents terminal := {|
    Document_SchemaVersion := queueIntentSchemaVersion; Document_Generation := Document_Generation d;
    Document_UpdatedAt := Document_UpdatedAt d; Document_Intents := intents;
    Document_Repositories := Document_Repositories d; Document_TerminalJobs := terminal |} in
  if (version =? queueIntentLegacySchemaVersion) || (version =? 2)
  then Ok (upgraded (fmap (M := gmap string) entered_at_update <$> Document_Intents d) (Some ∅))
  else if (version =? 3) || (version =? 4) then Ok (upgraded (Document_Intents d) (Some ∅))
  else if version =? queueIntentPreviousSchemaVersion then Ok (upgraded (Document_Intents d) (Document_TerminalJobs d))
  else if version =? queueIntentSchemaVersion then Ok d
  else Err (Errorf "queue-intent journal schema_version must be %d" []).

Definition journal_of (d : QueueDocument) : result queueIntentJournal :=
  match Document_Intents d, Document_Repositories d, Document_TerminalJobs d with
  | Some intents, Some repositories, Some terminal =>
      let j := {| Journal_SchemaVersion := Document_SchemaVersion d; Generation := Document_Generation d;
                  Journal_UpdatedAt := Document_UpdatedAt d; Intents := intents; Repositories := repositories;
                  TerminalJobs := terminal |} in
      Journal_Validate j;; Ok j
  | _, _, _ => Err (Errorf "queue-intent journal identity or maps are invalid" [])
  end.

(** [openPrivateRegular] lets the group read. *)
Definition readQueueIntentJournal (size perm : Z) (content : result QueueDocument) : result queueIntentJournal :=
  fail_if (grants perm 23) (Errorf "%s must be a private regular file" ["queue-intent journal"]);;
  fail_if (queueIntentMaxBytes <? size) (Errorf "queue-intent journal exceeds %d bytes" []);;
  d ← content; d ← upgrade d; journal_of d.

(** How writing ends: done, failed with the old file in place, or failed after
    the rename. *)
Inductive QueueWrite := WriteDone | WriteFailed (e : error) | WriteNotSynced (e : error).

(** [encodedSize] is the length of the indented JSON of a journal; the temporary file
    is given mode 0600. *)
Definition stored (encodedSize : queueIntentJournal → Z) (j : queueIntentJournal) : QueueFile :=
  QueueContent (encodedSize j) 384 (Ok (documentOf j)).

Definition writeQueueIntentJournal (encodedSize : queueIntentJournal → Z) (w : QueueWrite) (file : QueueFile)
    (j : queueIntentJournal) : QueueFile * result unit :=
  match w with
  | WriteDone => (stored encodedSize j, Ok tt)
  | WriteFailed e => (file, Err e)
  | WriteNotSynced e => (stored encodedSize j, Err e)
  end.

Record QueueEnv := {
  queue_encoded_size : queueIntentJournal → Z;
  queue_lock : result unit;
  queue_now : Time;
  queue_write : QueueWrite;
}.

(** Before the mutation. *)
Definition prepare (c : queueAdmissionConfig) (now : Time) (j : queueIntentJournal) : queueIntentJournal :=
  admitQueuedToBudget c now (cleanupExpiredTerminalJobs now (cleanupExpiredQueueIntents c now
    (migrateLegacyQueueIntentOwnership c now j))).

(** After the mutation. *)
Definition settle (c : queueAdmissionConfig) (now : Time) (j : queueIntentJournal) : queueIntentJournal :=
  admitQueuedToBudget c now (yieldRequestlessOccupancy c now j).

Definition transaction {A} (c : queueAdmissionConfig) (mutate : Time → queueIntentJournal → result (queueIntentJournal * A))
    (now : Time) (j : queueIntentJournal) : result (queueIntentJournal * A) :=
  let j := prepare c now j in
  validateQueueBudget c j;;
  ja ← mutate now j;
  let '(j, a) := (ja : queueIntentJournal * A) in
  let j := settle c now j in
  Journal_Validate j;;
  validateQueueBudget c j;;
  Ok (j, a).

Definition next_generation (now : Time) (j : queueIntentJournal) : queueIntentJournal := {|
  Journal_SchemaVersion := Journal_SchemaVersion j; Generation := (Generation j + 1) `mod` two64;
  Journal_UpdatedAt := now; Intents := Intents j; Repositories := Repositories j; TerminalJobs := TerminalJobs j |}.

Definition current_journal (file : QueueFile) : result queueIntentJournal :=
  match file with
  | NoQueueFile => Ok newQueueIntentJournal
  | QueueContent size perm content => readQueueIntentJournal size perm content
  end.

Definition file_exists (file : QueueFile) : bool := match file with NoQueueFile => false | QueueContent _ _ _ => true end.

Definition update {A} (c : queueAdmissionConfig) (env : QueueEnv)
    (mutate : Time → queueIntentJournal → result (queueIntentJournal * A)) (file : QueueFile) : QueueFile * result A :=
  match (queue_lock env;; before ← current_journal file; ja ← transaction c mutate (queue_now env) before;
         Ok (before, ja)) with
  | Err e => (file, Err e)
  | Ok (before, (j, a)) =>
      if bool_decide (j = before) && file_exists file then (file, Ok a)
      else
        let '(file', written) := writeQueueIntentJournal (queue_encoded_size env) (queue_write env) file
                                   (next_generation (queue_now env) j) in
        (file', written;; Ok a)
  end.

(** ** The public operations *)

Definition loadConfig (decoded : result queueAdmissionConfig) : result queueAdmissionConfig :=
  c ← decoded; Config_Validate c;; Ok c.

Section operations.
Context (decoded : result queueAdmissionConfig) (env : QueueEnv) (ss : ScaleSet).

(** Loads the configuration, checks, and runs a mutation. *)
Definition with_config {A} (check : queueAdmissionConfig → result unit)
    (mutate : queueAdmissionConfig → Time → queueIntentJournal → result (queueIntentJournal * A)) (file : QueueFile)
    : QueueFile * result A :=
  match (c ← loadConfig decoded; check c;; Ok c) with
  | Err e => (file, Err e)
  | Ok c => update c env (mutate c) file
  end.

Definition max_runners_check (_ : queueAdmissionConfig) : result unit :=
  fail_if (MaxRunners ss <? 1) (Errorf "queue admission requires a scale set that admits at least one runner, got max_runners=%d" []).

Definition ObserveAvailable (jobs : list ScaleSetJobMessage) (file : QueueFile) : QueueFile * result unit :=
  if negb (Enabled ss) then (file, Ok tt)
  else with_config max_runners_check (λ c, observe_available c ss jobs) file.

Definition HasQueuedAvailable (jobs : list ScaleSetJobMessage) (file : QueueFile) : QueueFile * result bool :=
  with_config (λ _, Ok tt) (λ _, has_queued_available ss jobs) file.

Definition AdmittedCapacityTarget (entity : ForgeEntity) (file : QueueFile) : QueueFile * result Z :=
  with_config (λ _, Ok tt) (λ _, admitted_capacity_target ss entity) file.

Definition SelectForAcquire (jobs : list ScaleSetJobMessage) (file : QueueFile) : QueueFile * result (list Z) :=
  if negb (Enabled ss) then (file, Ok [])
  else with_config
    (λ _, forM jobs (λ job, fail_if ((Message_RunnerRequestID job <=? 0) || negb (validQueueText (Message_JobID job)))
                              (Errorf "available job has invalid runner request ID" [])))
    (λ c, select_for_acquire c ss jobs) file.

Definition CompleteAcquire (selected acquired : list Z) (file : QueueFile) : QueueFile * result unit :=
  with_config
    (λ _, forM acquired (λ id, fail_if (negb (bool_decide (id ∈ selected)))
                                 (Errorf "GitHub returned unselected runner request ID %d" [])))
    (λ c, complete_acquire c ss selected acquired) file.

Definition FailAcquire (selected : list Z) (file : QueueFile) : QueueFile * result unit :=
  with_config (λ _, Ok tt) (λ c, fail_acquire c ss selected) file.

Definition ObserveLifecycle (entity : ForgeEntity) (assigned started completed : list ScaleSetJobMessage)
    (file : QueueFile) : QueueFile * result bool :=
  if negb (Enabled ss) then (file, Ok false)
  else with_config max_runners_check (λ c, observe_lifecycle c ss entity assigned started completed) file.

Definition authoritative_check (entity : ForgeEntity) (job : Job) (_ : queueAdmissionConfig) : result unit :=
  fail_if ((ScaleSet_ID ss <=? 0) || negb (validQueueText (ScaleSet_Name ss)) || negb (validQueueText (ScaleSetJobID job))
           || negb (validQueueText (Entity_Owner entity)) || negb (validQueueText (RepositoryOwner job))
           || negb (validQueueText (Job_RepositoryName job)) || negb (bool_decide (RepositoryOwner job = Entity_Owner entity)))
    (Errorf "authoritative queued job has incomplete or cross-entity identity" []);;
  fail_if (negb (validRepository (RepositoryOwner job +:+ "/" +:+ Job_RepositoryName job)))
    (Errorf "authoritative queued job repository is invalid" []).

Definition EnsureAuthoritative (entity : ForgeEntity) (job : Job) (file : QueueFile) : QueueFile * result bool :=
  with_config (authoritative_check entity job)
    (λ c, ensure_authoritative c ss entity job (RepositoryOwner job +:+ "/" +:+ Job_RepositoryName job)) file.

Definition Coordinator_Validate (file : QueueFile) : QueueFile * result unit :=
  with_config (λ _, Ok tt) (λ _ _ j, Ok (j, tt)) file.
End operations.

(** [NDDevRemoveQueueIntent]; the context has not been cancelled. *)
Definition NDDevRemoveQueueIntent (decoded : result queueAdmissionConfig) (env : QueueEnv) (jobID : string)
    (file : QueueFile) : QueueFile * result bool :=
  if negb (validQueueText jobID) then (file, Err (Errorf "authoritative queue reconciliation requires an exact job ID" []))
  else with_config decoded env (λ _, Ok tt) (λ c, remove_intent c jobID) file.
