(* ===== verification/QueueOpsFacts.v ===== *)
(** * Queue coordinator: what its operations keep

    Shared lemmas on the mutations of [QueueOps], and the theorems on the
    transaction, on identities, on redelivery and on acquiring. *)

From S2P Require Import Prelude QueueIntent QueueScheduler QueueSchedulerFacts QueueBudgetFacts QueueAdmitClaims QueueOps.

Local Open Scope Z_scope.
Local Open Scope go_scope.

(** ** Identity of an intent *)

(** Everything that names the job and its tenant; a repository is learned at most
    once, below the owner. *)
Record same_identity (i i' : queueIntent) : Prop := {
  si_key : Key i' = Key i;
  si_scale_set : ScaleSetID i' = ScaleSetID i ∧ ScaleSetName i' = ScaleSetName i;
  si_job : JobID i' = JobID i;
  si_owner : Owner i' = Owner i;
  si_repository : Repository i' = Repository i ∨
    (queueIntentRepositoryBound i = false ∧ HasPrefix (Repository i') (Owner i +:+ "/") = true);
}.

#[export] Instance same_identity_refl : Reflexive same_identity.
Proof. intros i. split; auto. Qed.

Lemma prefix_contains p s : String.prefix (p +:+ "/") s = true → contains_byte slash s = true.
Proof.
  revert s. induction p as [|a p IH]; intros [|b s]; try done.
  - change ("" +:+ "/") with "/". intros H. cbn [String.prefix] in H.
    destruct (Ascii.ascii_dec _ _) as [E|]; [|done]. cbn [contains_byte]. rewrite <- E.
    by rewrite bool_decide_eq_true_2.
  - change (String a p +:+ "/") with (String a (p +:+ "/")). intros H. cbn [String.prefix] in H.
    destruct (Ascii.ascii_dec _ _) as [E|]; [|done]. cbn [contains_byte]. rewrite (IH s H). apply orb_true_r.
Qed.

#[export] Instance same_identity_trans : Transitive same_identity.
Proof.
  intros x y z [K1 [S1 N1] J1 O1 R1] [K2 [S2 N2] J2 O2 R2]. split; [congruence|split; congruence|congruence|congruence|].
  rewrite O1 in R2. destruct R1 as [R1|[B1 P1]].
  - unfold queueIntentRepositoryBound in *. rewrite R1 in R2. done.
  - right. split; [done|]. destruct R2 as [->|[B2 _]]; [done|]. unfold queueIntentRepositoryBound, HasPrefix in *.
    apply prefix_contains in P1. congruence.
Qed.

Lemma compatible_identity i i' repository :
  queueIntentRepositoryCompatible i repository = true → same_identity i i' →
  Repository i' = Repository i → same_identity i (set_Repository repository i').
Proof.
  intros Hc [K S J O _] HR. split; [done|done|done|done|]. simpl.
  unfold queueIntentRepositoryCompatible in Hc. case_bool_decide as Heq; [by left|].
  destruct (queueIntentRepositoryBound i) eqn:Hb; [done|]. destruct (contains_byte slash repository); [|done].
  apply andb_true_iff in Hc as [_ Hp]. by right.
Qed.

(** No intent disappears, and each keeps its identity. *)
Definition grows (m m' : gmap string queueIntent) : Prop :=
  ∀ k i, m !! k = Some i → ∃ i', m' !! k = Some i' ∧ same_identity i i'.

#[export] Instance grows_refl : Reflexive grows.
Proof. intros m k i Hi. by exists i. Qed.

#[export] Instance grows_trans : Transitive grows.
Proof. intros x y z H1 H2 k i (i1 & Hi1 & E1)%H1. apply H2 in Hi1 as (i2 & ? & ?). exists i2. split; [done|by etrans]. Qed.

Lemma grows_insert m k i i' : m !! k = Some i → same_identity i i' → grows m (<[k := i']> m).
Proof.
  intros Hk Hs k' x Hx. destruct (decide (k = k')) as [<-|Hne].
  - simplify_eq. exists i'. by rewrite lookup_insert_eq.
  - exists x. by rewrite lookup_insert_ne.
Qed.

Lemma grows_insert_new m k i' : m !! k = None → grows m (<[k := i']> m).
Proof. intros Hk k' x Hx. exists x. rewrite lookup_insert_ne; [done|]. by intros <-; simplify_eq. Qed.

(** No intent appears, and each keeps its identity. *)
Definition shrinks (m m' : gmap string queueIntent) : Prop :=
  ∀ k i', m' !! k = Some i' → ∃ i, m !! k = Some i ∧ same_identity i i'.

#[export] Instance shrinks_refl : Reflexive shrinks.
Proof. intros m k i Hi. by exists i. Qed.

#[export] Instance shrinks_trans : Transitive shrinks.
Proof. intros x y z H1 H2 k i (i1 & Hi1 & E1)%H2. apply H1 in Hi1 as (i2 & ? & ?). exists i2. split; [done|by etrans]. Qed.

Lemma shrinks_insert m k i i' : m !! k = Some i → same_identity i i' → shrinks m (<[k := i']> m).
Proof.
  intros Hk Hs k' x. destruct (decide (k = k')) as [<-|Hne].
  - rewrite lookup_insert_eq. intros [= <-]. by exists i.
  - rewrite lookup_insert_ne by done. by exists x.
Qed.

Lemma shrinks_subseteq m m' : m' ⊆ m → shrinks m m'.
Proof. intros Hsub k i Hi. exists i. split; [|done]. by eapply lookup_weaken. Qed.

Lemma grows_shrinks m1 m2 m3 k i i' :
  grows m1 m2 → shrinks m2 m3 → m1 !! k = Some i → m3 !! k = Some i' → same_identity i i'.
Proof.
  intros Hg Hs (i1 & Hi1 & E1)%Hg (i2 & Hi2 & E2)%Hs. simplify_eq. by etrans.
Qed.

Create HintDb identity discriminated.
#[export] Hint Resolve grows_insert grows_insert_new shrinks_insert : identity.

(** ** The scheduler only moves intents between states *)

(** The same intents, each with its identity. *)
Definition moves (m m' : gmap string queueIntent) : Prop := grows m m' ∧ shrinks m m'.

#[export] Instance moves_refl : Reflexive moves.
Proof. by split. Qed.

#[export] Instance moves_trans : Transitive moves.
Proof. intros x y z [] []. split; by etrans. Qed.

Lemma moves_insert m k i i' : m !! k = Some i → same_identity i i' → moves m (<[k := i']> m).
Proof. split; eauto with identity. Qed.

Lemma enter_state_identity c state now i : same_identity i (enter_state c state now i).
Proof. split; auto. Qed.

Lemma demoted_identity c now i : same_identity i (demoted c now i).
Proof.
  unfold demoted, first_queued_or. simpl. split; repeat case_match; simpl; auto.
Qed.

Lemma charge_stride_intents c r j : Intents (charge_stride c r j).1 = Intents j.
Proof. unfold charge_stride. by case_match. Qed.

Lemma eligible_intents c j inFlight now : Intents (eligibleQueueCandidates c j inFlight now).1 = Intents j.
Proof. apply (ss_intents _ _ (proj1 (eligible_same c now j j inFlight (reflexivity _)))). Qed.

Lemma dispatchable_intents c j inFlight now : Intents (dispatchableQueuedWouldFit c j inFlight now).1 = Intents j.
Proof. apply (ss_intents _ _ (proj1 (dispatchable_same c now j j inFlight (reflexivity _)))). Qed.

(** An admission attempt changes nothing or moves the intent into [assigned]. *)
Lemma try_intents c key now j :
  Intents (tryAdmitQueueIntent c key now j).1 = Intents j ∨
  ∃ i, Intents j !! key = Some i ∧ State i = queueStateQueued ∧
       Intents (tryAdmitQueueIntent c key now j).1 = <[key := enter_state c queueStateAssigned now i]> (Intents j).
Proof.
  unfold tryAdmitQueueIntent. destruct (Intents j !! key) as [i|] eqn:Hi; [|by left].
  destruct (is_queued i) eqn:Hq; [|by left]. cbn [negb].
  destruct (MaxInFlight c <=? globalInFlight j); [by left|].
  pose proof (eligible_intents c j (repositoryInFlight j) now) as He.
  destruct (eligibleQueueCandidates c j (repositoryInFlight j) now) as [j1 cands]. cbn [fst] in He.
  destruct (resourceFitCandidate c j1 cands now); [|by left]. case_match; [by left|].
  right. exists i. split_and!; [done|by apply bool_decide_eq_true in Hq|].
  rewrite charge_stride_intents. simpl. by rewrite He.
Qed.

Lemma try_moves c key now j : moves (Intents j) (Intents (tryAdmitQueueIntent c key now j).1).
Proof.
  destruct (try_intents c key now j) as [->|(i & Hi & _ & ->)]; [done|].
  by eapply moves_insert, enter_state_identity.
Qed.

Lemma admit_loop_moves c now fuel : ∀ j, moves (Intents j) (Intents (admit_loop c now fuel j).1).
Proof.
  induction fuel as [|fuel IH]; intros j; cbn [admit_loop]; [done|]. case_match; [done|].
  pose proof (eligible_intents c j (repositoryInFlight j) now) as He.
  destruct (eligibleQueueCandidates c j (repositoryInFlight j) now) as [j1 cands]. cbn [fst] in He. rewrite <- He.
  destruct cands as [|x cands]; [done|]. destruct (resourceFitCandidate c j1 (x :: cands) now) as [i|]; [|done].
  pose proof (try_moves c (Key i) now j1) as Ht.
  destruct (tryAdmitQueueIntent c (Key i) now j1) as [j2 [[]|]]; cbn [fst] in *; try done. by etrans.
Qed.

Lemma admit_moves c now j : moves (Intents j) (Intents (admitQueuedToBudget c now j)).
Proof. apply admit_loop_moves. Qed.

Lemma yield_loop_moves c now fuel : ∀ j, moves (Intents j) (Intents (yield_loop c now fuel j).1).
Proof.
  induction fuel as [|fuel IH]; intros j; cbn [yield_loop]; [done|].
  pose proof (dispatchable_intents c j (repositoryInFlight j) now) as Hd.
  destruct (dispatchableQueuedWouldFit c j (repositoryInFlight j) now) as [j1 fits]. cbn [fst] in Hd. rewrite <- Hd.
  destruct fits; [done|]. destruct (first_yield c now j1 _) as [key|]; [|done]. etrans; [|apply IH].
  destruct (demote_lookup c now j1 key) as [->|(i & Hi & _ & ->)]; [done|].
  by eapply moves_insert, demoted_identity.
Qed.

Lemma settle_moves c now j : moves (Intents j) (Intents (settle c now j)).
Proof. unfold settle. etrans; [|apply admit_moves]. apply yield_loop_moves. Qed.

(** ** Mutations *)

Lemma foldM_grows {A} (body : queueIntentJournal → A → result queueIntentJournal) xs j j' :
  (∀ x j j', body j x = Ok j' → grows (Intents j) (Intents j')) →
  foldM body xs j = Ok j' → grows (Intents j) (Intents j').
Proof.
  intros Hb. apply (foldM_inv (λ s, grows (Intents j) (Intents s))); [|done].
  intros x s s' _ Hs Hx. etrans; [exact Hs|]. by eapply Hb.
Qed.

Lemma foldl_grows {A S} (f : S → A → S) (get : S → queueIntentJournal) xs s :
  (∀ s x, grows (Intents (get s)) (Intents (get (f s x)))) → grows (Intents (get s)) (Intents (get (foldl f s xs))).
Proof. intros Hf. revert s. induction xs as [|x xs IH]; intros s; [done|]. simpl. etrans; [apply Hf|apply IH]. Qed.

Lemma put_at_grows k i i' j : Intents j !! k = Some i → same_identity i i' → grows (Intents j) (Intents (put_at k i' j)).
Proof. apply grows_insert. Qed.

Lemma bind_available_fields i i' :
  same_identity i (set_Repository (Repository i') i) → same_identity i (bind_available i i').
Proof. intros [K S J O R]. unfold bind_available, backfill_first_queued. split; case_match; simpl in *; auto. Qed.

Lemma core_identity_bind i i' :
  queueIntentCoreIdentityEqual i i' = true → same_identity i (bind_available i i').
Proof.
  intros H. unfold queueIntentCoreIdentityEqual in H. apply andb_true_iff in H as [_ Hc].
  by apply bind_available_fields, compatible_identity.
Qed.

Lemma observe_job_grows c ss now j job j' : observe_job c ss now j job = Ok j' → grows (Intents j) (Intents j').
Proof.
  unfold observe_job. intros (i & _ & H)%bind_Ok. destruct (Intents j !! Key i) as [e|] eqn:He.
  - apply bind_Ok in H as ([] & Hid & H). apply fail_if_Ok in Hid. bool_hyps. destruct (RunnerRequestID e =? 0).
    + apply Ok_inj in H as <-. by eapply put_at_grows, core_identity_bind.
    + by apply bind_Ok in H as ([] & _ & <-%Ok_inj).
  - apply Ok_inj in H as <-. by apply grows_insert_new.
Qed.

Lemma try_job_grows c ss now j job j' : try_job c ss now j job = Ok j' → grows (Intents j) (Intents j').
Proof.
  unfold try_job. pose proof (try_moves c (queueIntentKey (ScaleSet_ID ss) (Message_JobID job)) now j) as [Hg _].
  destruct (tryAdmitQueueIntent _ _ _ _) as [k [r|]]; [|done]. by intros <-%Ok_inj.
Qed.

Lemma select_job_grows c ss now acc job : grows (Intents acc.1) (Intents (select_job c ss now acc job).1).
Proof.
  destruct acc as [j sel]. unfold select_job. destruct (Intents j !! _) as [i|] eqn:Hi; [|done].
  destruct (selectable now i); [|done]. by eapply put_at_grows, enter_state_identity.
Qed.

Lemma acquiring_intent_lookup j ss id k i :
  acquiring_intent j ss id = Ok (k, i) → Intents j !! k = Some i ∧ State i = queueStateAcquiring.
Proof.
  unfold acquiring_intent. intros (key & _ & H)%bind_Ok. destruct (Intents j !! key) as [i'|] eqn:Hi; [|done].
  case_bool_decide; [|done]. by simplify_eq.
Qed.

Lemma complete_one_grows c ss acquired now j id j' :
  complete_one c ss acquired now j id = Ok j' → grows (Intents j) (Intents j').
Proof.
  unfold complete_one. intros ([k i] & [Hi _]%acquiring_intent_lookup & H)%bind_Ok.
  case_bool_decide; apply Ok_inj in H as <-; eapply put_at_grows; [done|apply enter_state_identity|done|by split; auto].
Qed.

Lemma fail_one_grows c ss now j id j' : fail_one c ss now j id = Ok j' → grows (Intents j) (Intents j').
Proof.
  unfold fail_one. intros ([k i] & [Hi _]%acquiring_intent_lookup & <-%Ok_inj)%bind_Ok.
  by eapply put_at_grows, enter_state_identity.
Qed.

Lemma markTerminal_intents id e j : Intents (markTerminalJob id e j) = Intents j.
Proof. unfold markTerminalJob. by repeat case_match. Qed.

Lemma complete_job_grows c ss started now acc job acc' :
  complete_job c ss started now acc job = Ok acc' → grows (Intents acc.1) (Intents acc'.1).
Proof.
  destruct acc as [j keys]. unfold complete_job. intros ([] & _ & H)%bind_Ok.
  destruct (Intents j !! _) as [i|] eqn:Hi; [destruct (negb _ && _)|];
    apply Ok_inj in H as <-; simpl; rewrite markTerminal_intents; try done.
  by eapply put_at_grows, enter_state_identity.
Qed.

Lemma bindStarted_spec c job i j i' j' :
  bindStartedIdentity c job i j = (i', j') → Intents j' = Intents j ∧ same_identity i i'.
Proof.
  unfold bindStartedIdentity, started_repository.
  assert (∀ x, same_identity i x → same_identity i
    (let y := if bool_decide (WorkflowRef x = unavailable) && validQueueText (Message_JobWorkflowRef job)
           then set_WorkflowRef (Message_JobWorkflowRef job) x else x in
     if bool_decide (EventName y = unavailable) && validQueueText (Message_EventName job)
           then set_EventName (Message_EventName job) y else y)) as Htail.
  { intros x Hx. cbv zeta. destruct (bool_decide (WorkflowRef x = unavailable) && _);
      destruct (bool_decide (EventName _ = unavailable) && _); try done; etrans; [exact Hx| |exact Hx| |exact Hx|];
      by split; auto. }
  destruct (_ && _ && _ && _ && _) eqn:Hb; intros [= <- <-]; (split; [done|]).
  - apply andb_true_iff in Hb as [_ Hb]. apply (Htail (set_Repository _ i)). by apply compatible_identity.
  - by apply (Htail i).
Qed.

Lemma start_existing_spec c job now i j i' j' :
  start_existing c job now i j = (i', j') → Intents j' = Intents j ∧ same_identity i i'.
Proof.
  unfold start_existing. destruct (bindStartedIdentity _ _ _ _) as [i1 j1] eqn:Hb.
  apply bindStarted_spec in Hb as [Hj Hid]. intros [= <- <-]. split; [done|].
  etrans; [|etrans; [exact Hid|]]; split; repeat case_match; simpl; auto.
Qed.

Lemma start_job_grows c ss entity completedKeys now j job :
  grows (Intents j) (Intents (start_job c ss entity completedKeys now j job)).
Proof.
  unfold start_job. case_bool_decide; [reflexivity|]. destruct (Intents j !! _) as [i|] eqn:Hi.
  - destruct (start_existing c job now i j) as [i' j'] eqn:Hs. apply start_existing_spec in Hs as [Hj Hid].
    rewrite <- Hj. eapply put_at_grows; [|exact Hid]. by rewrite Hj.
  - destruct (queueIntentFromLifecycle _ _ _ _ _ _) as [r|]; [|reflexivity].
    destruct (bindStartedIdentity _ _ _ _) as [r' j'] eqn:Hb. apply bindStarted_spec in Hb as [Hj _].
    rewrite <- Hj. apply grows_insert_new. by rewrite Hj.
Qed.

Lemma assign_job_grows c ss entity completedKeys started now j job j' :
  assign_job c ss entity completedKeys started now j job = Ok j' → grows (Intents j) (Intents j').
Proof.
  unfold assign_job. destruct (tombstoned _ _ _); [by intros <-%Ok_inj|]. intros (i & _ & H)%bind_Ok.
  case_bool_decide; [by apply Ok_inj in H as <-|]. destruct (Intents j !! Key i) as [e|] eqn:He.
  - by apply bind_Ok in H as ([] & _ & <-%Ok_inj).
  - case_bool_decide; apply Ok_inj in H as <-; [reflexivity|]. by apply grows_insert_new.
Qed.
