(* ===== verification/QueueOpsClaims.v ===== *)
(** * Queue coordinator: its promises

    The transaction stores only valid journals, no operation moves an intent to
    another tenant, redelivery is not progress, acquiring never changes what is
    reserved, and the one case in which giving a slot back makes the transaction
    fail. *)

From S2P Require Import Prelude QueueIntent QueueScheduler QueueSchedulerFacts QueueBudgetFacts QueueAdmitClaims QueueOps QueueOpsFacts.

Local Open Scope Z_scope.
Local Open Scope go_scope.

(** ** Stored journals *)

Lemma schema_current j : Journal_Validate j = Ok tt → Journal_SchemaVersion j = queueIntentSchemaVersion.
Proof. unfold Journal_Validate. intros ([] & H & _)%bind_Ok. apply fail_if_Ok in H. bool_hyps. lia. Qed.

(** A valid journal that is small enough is read back; a larger one is refused. *)
Lemma read_stored size j :
  Journal_Validate j = Ok tt →
  current_journal (stored size j) =
    if queueIntentMaxBytes <? size j then Err (Errorf "queue-intent journal exceeds %d bytes" []) else Ok j.
Proof.
  intros Hv. pose proof (schema_current j Hv) as Hs. unfold current_journal, stored, readQueueIntentJournal.
  rewrite fail_if_Ok_bind. destruct (_ <? _); [done|]. unfold upgrade. simpl. rewrite Hs. simpl. unfold journal_of. simpl.
  replace {| Journal_SchemaVersion := Journal_SchemaVersion j; Generation := Generation j;
    Journal_UpdatedAt := Journal_UpdatedAt j; Intents := Intents j; Repositories := Repositories j;
    TerminalJobs := TerminalJobs j |} with j by (by destruct j). by rewrite Hv.
Qed.

(** A transaction's result, stamped. *)
Lemma transaction_valid {A} c mutate now j j' (a : A) :
  transaction c mutate now j = Ok (j', a) →
  Journal_Validate (next_generation now j') = Ok tt ∧ validateQueueBudget c (next_generation now j') = Ok tt.
Proof.
  unfold transaction. intros ([] & _ & H)%bind_Ok. apply bind_Ok in H as ([j1 a1] & _ & H).
  apply bind_Ok in H as ([] & Hv & H). apply bind_Ok in H as ([] & Hb & H). by simplify_eq.
Qed.

(** C7: Every operation of the coordinator is all or nothing, and stores only
    journals that can be trusted. Whatever the mutation, the lock and the disk do,
    the file afterwards is the old one, or holds a journal that passes validation
    and the reservation budget, and that the next transaction reads back exactly
    as it was stored, provided its encoding is at most 4 MiB (a longer one is
    stored all the same and then refused). A success means that the whole
    transaction ran on the journal the file held, and that the file holds its
    outcome with the next generation number, or was left alone because nothing
    changed. *)
Theorem update_atomic_valid A c env (mutate : Time → queueIntentJournal → result (queueIntentJournal * A)) file :
  let '(file', r) := update c env mutate file in
  (file' = file ∨
   ∃ k, file' = stored (queue_encoded_size env) k ∧ Journal_Validate k = Ok tt ∧ validateQueueBudget c k = Ok tt ∧
        (queue_encoded_size env k ≤ queueIntentMaxBytes → current_journal file' = Ok k) ∧
        (queueIntentMaxBytes < queue_encoded_size env k → ∃ e, current_journal file' = Err e)) ∧
  (∀ a, r = Ok a → ∃ before j, current_journal file = Ok before ∧
     transaction c mutate (queue_now env) before = Ok (j, a) ∧
     (file' = file ∧ j = before ∨
      file' = stored (queue_encoded_size env) (next_generation (queue_now env) j))).
Proof.
  unfold update. destruct (queue_lock env ≫= _) as [[before [j a]]|e] eqn:Hrun; [|by split; [left|]].
  apply bind_Ok in Hrun as ([] & _ & Hrun). apply bind_Ok in Hrun as (b & Hbefore & Hrun).
  apply bind_Ok in Hrun as ([j1 a1] & Htx & Hrun). apply Ok_inj in Hrun. simplify_eq.
  pose proof (transaction_valid c mutate _ _ _ _ Htx) as [Hv Hb].
  pose proof (read_stored (queue_encoded_size env) _ Hv) as Hread.
  set (k := next_generation (queue_now env) j) in *.
  assert (∃ k', stored (queue_encoded_size env) k = stored (queue_encoded_size env) k' ∧ Journal_Validate k' = Ok tt ∧
    validateQueueBudget c k' = Ok tt ∧
    (queue_encoded_size env k' ≤ queueIntentMaxBytes → current_journal (stored (queue_encoded_size env) k) = Ok k') ∧
    (queueIntentMaxBytes < queue_encoded_size env k' → ∃ e, current_journal (stored (queue_encoded_size env) k) = Err e)) as Hk.
  { exists k. rewrite Hread. split_and!; [done|done|done|..]; intros; destruct (_ <? _) eqn:?; try lia; eauto. }
  destruct (bool_decide (j = before) && file_exists file) eqn:Hsame.
  - apply andb_true_iff in Hsame as [Hsame _]. apply bool_decide_eq_true in Hsame as ->. split; [by left|].
    intros a' [= <-]. exists before, before. auto.
  - destruct (queue_write env) as [|e|e]; simpl; (split; [auto|intros a' Ha]); simplify_eq. exists before, j. auto.
Qed.

(** ** Requests *)

(** Every operation of the coordinator, by its mutation. *)
Inductive queue_request :=
  | ReqAvailable (ss : ScaleSet) (jobs : list ScaleSetJobMessage)
  | ReqHasQueued (ss : ScaleSet) (jobs : list ScaleSetJobMessage)
  | ReqTarget (ss : ScaleSet) (entity : ForgeEntity)
  | ReqSelect (ss : ScaleSet) (jobs : list ScaleSetJobMessage)
  | ReqComplete (ss : ScaleSet) (selected acquired : list Z)
  | ReqFail (ss : ScaleSet) (selected : list Z)
  | ReqLifecycle (ss : ScaleSet) (entity : ForgeEntity) (assigned started completed : list ScaleSetJobMessage)
  | ReqEnsure (ss : ScaleSet) (entity : ForgeEntity) (job : Job) (repository : string)
  | ReqRemove (jobID : string).

Definition journal_result {A} (r : result (queueIntentJournal * A)) : result queueIntentJournal := x ← r; Ok x.1.

Definition mutation_of (c : queueAdmissionConfig) (req : queue_request) (now : Time) (j : queueIntentJournal)
    : result queueIntentJournal :=
  match req with
  | ReqAvailable ss jobs => journal_result (observe_available c ss jobs now j)
  | ReqHasQueued ss jobs => journal_result (has_queued_available ss jobs now j)
  | ReqTarget ss entity => journal_result (admitted_capacity_target ss entity now j)
  | ReqSelect ss jobs => journal_result (select_for_acquire c ss jobs now j)
  | ReqComplete ss selected acquired => journal_result (complete_acquire c ss selected acquired now j)
  | ReqFail ss selected => journal_result (fail_acquire c ss selected now j)
  | ReqLifecycle ss entity assigned started completed =>
      journal_result (observe_lifecycle c ss entity assigned started completed now j)
  | ReqEnsure ss entity job repository => journal_result (ensure_authoritative c ss entity job repository now j)
  | ReqRemove jobID => journal_result (remove_intent c jobID now j)
  end.

Lemma journal_result_Ok {A} (r : result (queueIntentJournal * A)) j : journal_result r = Ok j → ∃ a, r = Ok (j, a).
Proof. destruct r as [[k a]|]; [|done]. unfold journal_result. simpl. intros [= ->]. eauto. Qed.

(** A mutation grows the journal, then may drop intents and move the rest. *)
Definition keeps (m m' : gmap string queueIntent) : Prop := ∃ m1, grows m m1 ∧ shrinks m1 m'.

Lemma keeps_grows m m' : grows m m' → keeps m m'.
Proof. intros H. by exists m'. Qed.

Lemma keeps_moves m m' m'' : keeps m m' → moves m' m'' → keeps m m''.
Proof. intros (m1 & H1 & H2) [_ H3]. exists m1. split; [done|by etrans]. Qed.

Lemma lifecycle_keeps c ss entity assigned started completed now j j' b :
  observe_lifecycle c ss entity assigned started completed now j = Ok (j', b) → keeps (Intents j) (Intents j').
Proof.
  unfold observe_lifecycle. intros ([j1 keys] & H1 & H)%bind_Ok. apply bind_Ok in H as (j2 & H2 & H).
  apply Ok_inj in H. simplify_eq. eapply keeps_moves; [|apply admit_moves]. exists (Intents j2). split.
  - transitivity (Intents j1).
    { apply (foldM_inv (λ s, grows (Intents j) (Intents s.1))) in H1; [done| |done].
      intros x s s' _ Hs Hx. etrans; [exact Hs|]. by eapply complete_job_grows. }
    etrans; [apply (foldl_grows (start_job c ss entity keys now) id started j1); intros; apply start_job_grows|].
    eapply foldM_grows; [|exact H2]. intros. by eapply assign_job_grows.
  - apply shrinks_subseteq. apply map_filter_subseteq.
Qed.

Lemma bind_authoritative_identity c ss job repository queueTime now i :
  queueIntentRepositoryCompatible i repository = true →
  same_identity i (bind_authoritative c ss job repository queueTime now i).
Proof.
  intros Hc. pose proof (compatible_identity i i repository Hc (reflexivity i) eq_refl) as [K S J O R].
  unfold bind_authoritative, backfill_first_queued. split; case_match; simpl in *; auto.
Qed.

Lemma refill_keeps c now m (cleared : bool) j :
  grows m (Intents j) → keeps m (Intents (if cleared then admitQueuedToBudget c now j else j)).
Proof.
  intros Hg. destruct cleared; [eapply keeps_moves; [|apply admit_moves]|]; by apply keeps_grows.
Qed.

Lemma ensure_keeps c ss entity job repository now j j' b :
  ensure_authoritative c ss entity job repository now j = Ok (j', b) → keeps (Intents j) (Intents j').
Proof.
  unfold ensure_authoritative. cbn [Intents with_terminal].
  destruct (Intents j !! _) as [i|] eqn:Hi.
  - intros ([] & Hid%fail_if_Ok & H)%bind_Ok. apply bind_Ok in H as ([] & _ & H). bool_hyps.
    set (learns := (WorkflowRunID i =? 0) && _) in H.
    set (i1 := if learns then set_WorkflowRunID _ i else i) in H. set (j1 := if learns then put_at _ i1 _ else _) in H.
    assert (same_identity i i1 ∧ queueIntentRepositoryCompatible i1 repository = true) as [Hi1 Hc].
    { unfold i1. destruct learns; (split; [by split; auto|done]). }
    assert (grows (Intents j) (Intents j1) ∧ Intents j1 !! queueIntentKey (ScaleSet_ID ss) (ScaleSetJobID job) = Some i1) as [Hg Hl].
    { unfold j1, i1. destruct learns; [|done]. split; [by eapply grows_insert|apply lookup_insert_eq]. }
    destruct (queueIntentRepositoryBound i1); apply Ok_inj in H; simplify_eq; apply refill_keeps; [done|].
    etrans; [exact Hg|]. by eapply grows_insert, bind_authoritative_identity.
  - intros H. apply Ok_inj in H. simplify_eq. eapply keeps_moves; [|apply admit_moves].
    apply keeps_grows. by apply grows_insert_new.
Qed.

Lemma remove_keeps c jobID now j j' b : remove_intent c jobID now j = Ok (j', b) → keeps (Intents j) (Intents j').
Proof.
  unfold remove_intent. intros H.
  destruct (_.*1) as [|k [|]]; [|case_bool_decide|done]; apply Ok_inj in H; simplify_eq.
  - rewrite markTerminal_intents. by apply keeps_grows.
  - rewrite markTerminal_intents. by apply keeps_grows.
  - eapply keeps_moves; [|apply admit_moves]. rewrite markTerminal_intents. exists (Intents j). split; [done|].
    apply shrinks_subseteq. apply delete_subseteq.
Qed.

Lemma mutation_keeps c req now j j' : mutation_of c req now j = Ok j' → keeps (Intents j) (Intents j').
Proof.
  destruct req; cbn [mutation_of]; intros (b & H)%journal_result_Ok.
  - unfold observe_available in H. apply bind_Ok in H as (j1 & H1 & H). apply bind_Ok in H as (j2 & H2 & H). simplify_eq.
    apply keeps_grows. transitivity (Intents j1); eapply foldM_grows; try done; intros.
    + by eapply observe_job_grows.
    + by eapply try_job_grows.
  - unfold has_queued_available in H. apply bind_Ok in H as (? & _ & H). simplify_eq. by apply keeps_grows.
  - unfold admitted_capacity_target in H. simplify_eq. by apply keeps_grows.
  - unfold select_for_acquire in H. apply Ok_inj in H. apply keeps_grows.
    pose proof (foldl_grows (select_job c ss now) fst jobs (j, [])) as Hf. rewrite H in Hf.
    apply Hf. intros. apply select_job_grows.
  - unfold complete_acquire in H. apply bind_Ok in H as (j1 & H1 & H). simplify_eq. apply keeps_grows.
    eapply foldM_grows; [|exact H1]. intros. by eapply complete_one_grows.
  - unfold fail_acquire in H. apply bind_Ok in H as (j1 & H1 & H). simplify_eq. apply keeps_grows.
    eapply foldM_grows; [|exact H1]. intros. by eapply fail_one_grows.
  - by eapply lifecycle_keeps.
  - by eapply ensure_keeps.
  - by eapply remove_keeps.
Qed.

(** C8: No operation moves a journaled job to another tenant. Whatever message or
    reconciliation is processed, with the yielding and admission that follow it,
    an intent that is still in the journal afterwards has the same key, scale
    set, job and owner; its repository is the same, or was the bare account and
    is now a repository below that account. *)
Theorem tenant_identity_kept c req now j j' k i i' :
  mutation_of c req now j = Ok j' →
  Intents j !! k = Some i → Intents (settle c now j') !! k = Some i' → same_identity i i'.
Proof.
  intros Hm. pose proof (settle_moves c now j') as Hs.
  destruct (keeps_moves _ _ _ (mutation_keeps c req now j j' Hm) Hs) as (m1 & Hg & Hsh).
  by eapply grows_shrinks.
Qed.

(** An organization scale set and a job of its account. *)
Definition org_scale_set : ScaleSet := {| ScaleSet_ID := 7; ScaleSet_Name := "linux"; MaxRunners := 4; Enabled := true |}.
Definition org_waiter : queueIntent := fleet_intent "a" "acme" 0 queueStateQueued (fleet_time - 30 * Second).
Definition available_message (jobID : string) (request : Z) : ScaleSetJobMessage := {|
  Message_Type := OtherMessageType "JobAvailable"; Message_JobID := jobID; Message_RunnerRequestID := request;
  Message_WorkflowRunID := 1; Message_JobDisplayName := "build"; Message_RunnerID := 0; Message_RunnerName := "";
  Message_OwnerName := "acme"; Message_RepositoryName := "api"; Message_JobWorkflowRef := "main";
  Message_EventName := "push"; Message_QueueTime := fleet_time - 30 * Second |}.
Definition org_request : queue_request := ReqAvailable org_scale_set [available_message "a" 21].

Definition org_bound : queueIntentJournal :=
  match mutation_of fleet_config org_request fleet_time (fleet_journal [org_waiter]) with Ok j => j | Err _ => crowded end.

Lemma tenant_identity_kept_witness :
  ∃ i', Intents (settle fleet_config fleet_time org_bound) !! queueIntentKey 7 "a" = Some i' ∧
        Repository i' = "acme/api" ∧ same_identity org_waiter i'.
Proof.
  eexists. split; [vm_compute; reflexivity|]. split; [vm_compute; reflexivity|].
  apply (tenant_identity_kept fleet_config org_request fleet_time (fleet_journal [org_waiter]) org_bound
           (queueIntentKey 7 "a")); vm_compute; reflexivity.
Defined.

(** ** Redelivery *)

Definition lease_of (i : queueIntent) : queueIntentState * Time * Time * Time :=
  (State i, StateEnteredAt i, UpdatedAt i, ExpiresAt i).

Record redelivered (i i' : queueIntent) : Prop := {
  rd_lease : lease_of i' = lease_of i;
  rd_wait : queueWaitSince i ≠ zero_time → queueWaitSince i' = queueWaitSince i;
  rd_request : RunnerRequestID i ≠ 0 → RunnerRequestID i' = RunnerRequestID i;
}.

Lemma redelivered_trans x y z : redelivered x y → redelivered y z → redelivered x z.
Proof.
  intros [L1 W1 R1] [L2 W2 R2]. split; [congruence| |].
  - intros H. rewrite W2; [by apply W1|]. by rewrite W1.
  - intros H. rewrite R2; [by apply R1|]. by rewrite R1.
Qed.

Lemma bind_available_redelivered i i' : RunnerRequestID i = 0 → redelivered i (bind_available i i').
Proof.
  intros H0. unfold bind_available, backfill_first_queued. split; [by case_match| |by intros].
  unfold queueWaitSince, IsZero. simpl. intros Hw. case_bool_decide; simpl in *; repeat case_bool_decide; simpl in *; congruence.
Qed.

Lemma observe_job_redelivered c ss now j job j' k i :
  observe_job c ss now j job = Ok j' → Intents j !! k = Some i →
  ∃ i', Intents j' !! k = Some i' ∧ redelivered i i'.
Proof.
  unfold observe_job. intros (n & _ & H)%bind_Ok Hi. destruct (Intents j !! Key n) as [e|] eqn:He.
  - apply bind_Ok in H as ([] & _ & H). destruct (RunnerRequestID e =? 0) eqn:H0.
    + apply Ok_inj in H as <-. simpl. destruct (decide (Key n = k)) as [<-|Hne].
      * simplify_eq. eexists. rewrite lookup_insert_eq. split; [done|]. apply bind_available_redelivered. lia.
      * rewrite lookup_insert_ne by done. by exists i.
    + apply bind_Ok in H as ([] & _ & <-%Ok_inj). by exists i.
  - apply Ok_inj in H as <-. simpl. rewrite lookup_insert_ne by congruence. by exists i.
Qed.

(** Redelivering JobAvailable is not progress. For every journaled job, the
    operation keeps state, entry time and lease exactly as they were, unless it
    admits the queued job, which then starts a fresh assigned lease; the waiting
    clock and a runner request once learned never change. *)
Theorem redelivery_no_progress c ss jobs now j j' k i :
  observe_available c ss jobs now j = Ok (j', tt) → Intents j !! k = Some i →
  ∃ i', Intents j' !! k = Some i' ∧
    (lease_of i' = lease_of i ∨
     State i = queueStateQueued ∧ lease_of i' = lease_of (enter_state c queueStateAssigned now i)) ∧
    (queueWaitSince i ≠ zero_time → queueWaitSince i' = queueWaitSince i) ∧
    (RunnerRequestID i ≠ 0 → RunnerRequestID i' = RunnerRequestID i).
Proof.
  unfold observe_available. intros (j1 & H1 & H)%bind_Ok Hi. apply bind_Ok in H as (j2 & H2 & H). simplify_eq.
  assert (∃ x, Intents j1 !! k = Some x ∧ redelivered i x) as (x & Hx & [Hl Hw Hr]).
  { apply (foldM_inv (λ s, ∃ x, Intents s !! k = Some x ∧ redelivered i x)) in H1; [done| |by exists i; split].
    intros job s s' _ (x & Hx & Hd) Hjob. destruct (observe_job_redelivered _ _ _ _ _ _ _ _ Hjob Hx) as (y & Hy & Hd').
    exists y. split; [done|]. by eapply redelivered_trans. }
  assert (∃ y, Intents j' !! k = Some y ∧
    (y = x ∨ State x = queueStateQueued ∧ y = enter_state c queueStateAssigned now x)) as (y & Hy & Hor).
  { apply (foldM_inv (λ s, ∃ y, Intents s !! k = Some y ∧
      (y = x ∨ State x = queueStateQueued ∧ y = enter_state c queueStateAssigned now x))) in H2; [done| |by exists x; auto].
    intros job s s' _ (y & Hy & Hor) Hjob. unfold try_job in Hjob.
    pose proof (try_intents c (queueIntentKey (ScaleSet_ID ss) (Message_JobID job)) now s) as Ht.
    destruct (tryAdmitQueueIntent _ _ _ _) as [s1 [r|]]; [|done]. apply Ok_inj in Hjob as <-. cbn [fst] in Ht.
    destruct Ht as [->|(z & Hz & Hq & ->)]; [by exists y|].
    destruct (decide (queueIntentKey (ScaleSet_ID ss) (Message_JobID job) = k)) as [<-|Hne].
    - rewrite lookup_insert_eq. eexists. split; [done|]. simplify_eq. destruct Hor as [->|[_ ->]]; [by right|done].
    - rewrite lookup_insert_ne by done. by exists y. }
  exists y. split; [done|]. assert (State x = State i) as Hst by (by injection Hl).
  destruct Hor as [->|[Hq ->]]; (split_and!; [|done|done]); [by left|right]. split; [congruence|done].
Qed.

Lemma redelivery_no_progress_witness :
  ∃ i', Intents org_bound !! queueIntentKey 7 "a" = Some i' ∧ RunnerRequestID i' = 21 ∧
        queueWaitSince i' = fleet_time - 30 * Second.
Proof.
  destruct (redelivery_no_progress fleet_config org_scale_set [available_message "a" 21] fleet_time
    (fleet_journal [org_waiter]) org_bound (queueIntentKey 7 "a") org_waiter
    ltac:(vm_compute; reflexivity) ltac:(vm_compute; reflexivity)) as (i' & Hi' & _ & Hw & _).
  exists i'. split; [exact Hi'|]. split; [|apply Hw; vm_compute; discriminate].
  vm_compute in Hi'. injection Hi' as <-. reflexivity.
Defined.

(** ** Acquiring *)

(** The same slots and resources are taken. *)
Record same_reservations (c : queueAdmissionConfig) (j j' : queueIntentJournal) : Prop := {
  sr_global : globalInFlight j' = globalInFlight j;
  sr_repository r : repositoryInFlight j' r = repositoryInFlight j r;
  sr_background : queueBackgroundInFlight j' = queueBackgroundInFlight j;
  sr_cpu : cpu_in_flight c j' = cpu_in_flight c j;
  sr_memory : memory_in_flight c j' = memory_in_flight c j;
}.

#[export] Instance same_reservations_refl c : Reflexive (same_reservations c).
Proof. by intros j. Qed.

#[export] Instance same_reservations_trans c : Transitive (same_reservations c).
Proof.
  intros j1 j2 j3 [A1 A2 A3 A4 A5] [B1 B2 B3 B4 B5]. split; [congruence| |congruence..].
  intros r. by rewrite B2.
Qed.

(** Replacing an intent in flight by one that is charged alike. *)
Lemma rephase_reservations c j k i st entered updated expires :
  Intents j !! k = Some i → in_flight i = true → st ≠ queueStateQueued →
  same_reservations c j (put_at k (set_phase st entered updated expires i) j).
Proof.
  intros Hi Hf Hst. set (i' := set_phase st entered updated expires i).
  destruct (intents_replace j (put_at k i' j) k i i' Hi eq_refl) as (rest & H1 & H2).
  assert (in_flight i' = true) as Hf' by (unfold in_flight, is_queued, i'; simpl; by rewrite bool_decide_eq_false_2).
  assert (∀ f, f i' = f i → sumZ f (in_flight_of (put_at k i' j)) = sumZ f (in_flight_of j)) as Hsum.
  { intros f Hff. unfold in_flight_of. rewrite H1, H2, !filter_cons_True by done. by rewrite !sumZ_cons, Hff. }
  split; [..|by apply Hsum|by apply Hsum].
  - unfold globalInFlight. by rewrite H1, H2, !countZ_cons, Hf, Hf'.
  - intros r. unfold repositoryInFlight. by rewrite H1, H2, !countZ_cons, Hf, Hf'.
  - unfold queueBackgroundInFlight. by rewrite H1, H2, !countZ_cons, Hf, Hf'.
Qed.

Lemma select_job_reservations c ss now acc job : same_reservations c acc.1 (select_job c ss now acc job).1.
Proof.
  destruct acc as [j sel]. unfold select_job. destruct (Intents j !! _) as [i|] eqn:Hi; [|done].
  destruct (selectable now i) eqn:Hs; [|done]. apply rephase_reservations; [done| |done].
  unfold selectable in Hs. unfold in_flight, is_queued. by destruct (State i).
Qed.

Lemma select_jobs_reservations c ss now jobs : ∀ acc,
  same_reservations c acc.1 (foldl (select_job c ss now) acc jobs).1.
Proof.
  induction jobs as [|job jobs IH]; intros acc; [done|]. simpl.
  etrans; [apply select_job_reservations|apply IH].
Qed.

Lemma acquiring_in_flight i : State i = queueStateAcquiring → in_flight i = true.
Proof. unfold in_flight, is_queued. by intros ->. Qed.

Lemma complete_one_reservations c ss acquired now j id j' :
  complete_one c ss acquired now j id = Ok j' → same_reservations c j j'.
Proof.
  unfold complete_one. intros ([k i] & [Hi Hs]%acquiring_intent_lookup & H)%bind_Ok.
  case_bool_decide; apply Ok_inj in H as <-; apply rephase_reservations; auto using acquiring_in_flight; congruence.
Qed.

Lemma fail_one_reservations c ss now j id j' : fail_one c ss now j id = Ok j' → same_reservations c j j'.
Proof.
  unfold fail_one. intros ([k i] & [Hi Hs]%acquiring_intent_lookup & <-%Ok_inj)%bind_Ok.
  apply rephase_reservations; [done|by apply acquiring_in_flight|done].
Qed.

Lemma foldM_reservations {A} c (body : queueIntentJournal → A → result queueIntentJournal) xs j j' :
  (∀ x j j', body j x = Ok j' → same_reservations c j j') → foldM body xs j = Ok j' → same_reservations c j j'.
Proof.
  intros Hb. apply (foldM_inv (same_reservations c j)); [|done].
  intros x s s' _ Hs Hx. etrans; [exact Hs|]. by eapply Hb.
Qed.

(** Acquiring a batch needs no budget check of its own. Selecting any number
    of jobs for acquisition, completing the acquisition with any subset acquired,
    and giving a failed acquisition back leave every count of intents in flight
    and every sum of reserved resources exactly as it was. *)
Theorem acquire_keeps_reservations c req now j j' :
  match req with ReqSelect _ _ | ReqComplete _ _ _ | ReqFail _ _ => True | _ => False end →
  mutation_of c req now j = Ok j' → same_reservations c j j'.
Proof.
  destruct req; try done; intros _; cbn [mutation_of]; intros (b & H)%journal_result_Ok.
  - unfold select_for_acquire in H. apply Ok_inj in H.
    pose proof (select_jobs_reservations c ss now jobs (j, [])) as Hf. by rewrite H in Hf.
  - unfold complete_acquire in H. apply bind_Ok in H as (j1 & H1 & H). simplify_eq.
    eapply foldM_reservations; [|exact H1]. intros. by eapply complete_one_reservations.
  - unfold fail_acquire in H. apply bind_Ok in H as (j1 & H1 & H). simplify_eq.
    eapply foldM_reservations; [|exact H1]. intros. by eapply fail_one_reservations.
Qed.

Definition granted : queueIntentJournal := fleet_journal
  [fleet_intent "a" "acme/api" 11 queueStateAssigned (fleet_time - 30 * Second);
   fleet_intent "b" "acme/web" 12 queueStateAssigned (fleet_time - 20 * Second)].
Definition select_both : queue_request := ReqSelect org_scale_set [available_message "a" 11; available_message "b" 12].
Definition acquiring_both : queueIntentJournal :=
  match mutation_of fleet_config select_both fleet_time granted with Ok j => j | Err _ => crowded end.

Lemma acquire_keeps_reservations_witness :
  same_reservations fleet_config granted acquiring_both ∧
  (State <$> Intents acquiring_both !! queueIntentKey 7 "b") = Some queueStateAcquiring.
Proof.
  split; [|vm_compute; reflexivity].
  apply (acquire_keeps_reservations fleet_config select_both fleet_time granted acquiring_both I).
  vm_compute. reflexivity.
Defined.

(** ** Past the execution horizon *)

Lemma config_ttls c :
  Config_Validate c = Ok tt → QueuedTTLSeconds c = 600 ∧ ExecutionTTLSeconds c = 86400.
Proof.
  intros Hc. unfold Config_Validate in Hc. apply bind_Ok in Hc as ([] & _ & H). apply bind_Ok in H as ([] & _ & H).
  apply bind_Ok in H as ([] & H & _). apply fail_if_Ok in H. bool_hyps. lia.
Qed.

Lemma demoted_past_horizon c now k i :
  Config_Validate c = Ok tt → queueWaitSince i ≠ zero_time → queueWaitSince i + 86400 * Second < now →
  intent_ok k (demoted c now i) = false.
Proof.
  intros Hc Hz Hlate. destruct (config_ttls c Hc) as [Hq He].
  assert (FirstQueuedAt (first_queued_or now (set_phase queueStateQueued now now (ExpiresAt i) i)) = queueWaitSince i) as Hf.
  { unfold first_queued_or, queueWaitSince, IsZero in *. simpl. repeat case_bool_decide; simpl in *; congruence. }
  assert (Before (ExpiresAt (demoted c now i)) (UpdatedAt (demoted c now i)) = true) as Hb.
  { unfold demoted, execution_horizon, expiryForState. rewrite Hf, Hq, He.
    change (seconds 86400) with (86400 * Second). change (seconds 600) with (600 * Second).
    assert (UpdatedAt (first_queued_or now (set_phase queueStateQueued now now (ExpiresAt i) i)) = now) as Hu.
    { unfold first_queued_or. by repeat case_match. }
    simpl. rewrite Hu. unfold After, Before, Add, Second in *. rewrite (proj2 (Z.ltb_lt _ (now + 600 * 1000000000))) by lia; lia. }
  unfold intent_ok. rewrite Hb. by rewrite !orb_true_r.
Qed.

(** Giving back a slot can make the whole transaction fail. When the request-less
    job that yields its slot has been waiting for longer than the 24-hour
    execution horizon, its new expiry lies before its update time, the journal
    no longer validates, and nothing is stored: neither the yielded slot nor the
    message that needed it. *)
Theorem yield_past_horizon_refused A c (mutate : Time → queueIntentJournal → result (queueIntentJournal * A)) now j j1 a k i :
  Config_Validate c = Ok tt → mutate now (prepare c now j) = Ok (j1, a) →
  Intents (settle c now j1) !! k = Some (demoted c now i) →
  queueWaitSince i ≠ zero_time → queueWaitSince i + 86400 * Second < now →
  ∃ e, transaction c mutate now j = Err e.
Proof.
  intros Hc Hm Hk Hz Hlate. pose proof (demoted_past_horizon c now k i Hc Hz Hlate) as Hbad.
  destruct (transaction c mutate now j) as [[j' a']|e] eqn:Htx; [exfalso|by exists e].
  unfold transaction in Htx. apply bind_Ok in Htx as ([] & _ & Htx). rewrite Hm in Htx. cbn [mbind] in Htx.
  apply bind_Ok in Htx as (ja & Hja & Htx). apply Ok_inj in Hja as <-.
  apply bind_Ok in Htx as ([] & Hv & _). unfold Journal_Validate in Hv. apply bind_Ok in Hv as ([] & _ & Hv).
  apply bind_Ok in Hv as ([] & Hv & _). apply fail_if_Ok in Hv. bool_hyps. rewrite forallb_forall in Hv.
  specialize (Hv (k, demoted c now i)). simpl in Hv. rewrite Hbad in Hv.
  assert (false = true) as Habs; [|done]. apply Hv, list_elem_of_In. by apply elem_of_map_to_list.
Qed.

(** A job admitted just before its horizon, a running job, and a new message. *)
Definition late_waiter : queueIntent :=
  fleet_intent "w" "acme/web" 0 queueStateAssigned (fleet_time - 86500 * Second).
Definition late_journal : queueIntentJournal := fleet_journal
  [late_waiter; fleet_intent "r" "acme/web" 31 queueStateRunning (fleet_time - 900 * Second)].
Definition late_mutation : Time → queueIntentJournal → result (queueIntentJournal * unit) :=
  observe_available fleet_config org_scale_set [available_message "d" 41].
Definition late_mutated : queueIntentJournal :=
  match late_mutation fleet_time (prepare fleet_config fleet_time late_journal) with Ok (j, _) => j | Err _ => crowded end.

Lemma yield_past_horizon_refused_witness :
  Journal_Validate late_journal = Ok tt ∧ validateQueueBudget fleet_config late_journal = Ok tt ∧
  ∃ e, transaction fleet_config late_mutation fleet_time late_journal = Err e.
Proof.
  split; [vm_compute; reflexivity|]. split; [vm_compute; reflexivity|].
  apply (yield_past_horizon_refused unit fleet_config late_mutation fleet_time late_journal late_mutated tt
           (queueIntentKey 7 "w") late_waiter);
    [vm_compute; reflexivity|vm_compute; reflexivity|vm_compute; reflexivity|vm_compute; discriminate|vm_compute; reflexivity].
Defined.
