(* ===== verification/StateFile.v ===== *)
(** * State files

    The durable state files of the recovery controllers share one discipline: a
    lock, a read that decodes and checks, and a publication by rename. A file is
    absent or holds what reading it gives; publication is done, fails with the
    old file in place, or fails after the rename. *)

From S2P Require Import Prelude.

Local Open Scope Z_scope.
Local Open Scope go_scope.

Inductive StateFile (S : Type) :=
  | Absent
  | Present (content : result S).
Arguments Absent {_}.
Arguments Present {_} _.

Inductive Publication := Published | NotPublished (e : error) | PublishedNotSynced (e : error).

(** One access to a file: its paths and lock, and how a write would end. *)
Record Access := {
  access_lock : result unit;
  access_write : Publication;
}.

Definition fault_free : Access := {| access_lock := Ok tt; access_write := Published |}.

Definition publish {S} (w : Publication) (file content : StateFile S) : StateFile S * result unit :=
  match w with
  | Published => (content, Ok tt)
  | NotPublished e => (file, Err e)
  | PublishedNotSynced e => (content, Err e)
  end.

(** The state a file holds, the empty state when it is absent. *)
Definition state_of {S} (empty : S) (file : StateFile S) : result S :=
  match file with Absent => Ok empty | Present content => content end.

(** Whatever happens to a write, the file afterwards is the old or the new one;
    success means the new one. *)
Lemma publish_cases {S} w (file content : StateFile S) file' r :
  publish w file content = (file', r) → (file' = file ∨ file' = content) ∧ (r = Ok tt → file' = content).
Proof. destruct w; intros [= <- <-]; split; auto; done. Qed.
