(* ===== verification/GoText.v ===== *)
(** * Text functions of Go's standard library

    [strings.TrimSpace], [strings.Join], [slices.Compact], and the
    [time.RFC3339Nano] layout of a UTC time, as the recovery controllers use
    them. *)

From S2P Require Import Prelude.

Local Open Scope Z_scope.

(** Cut leading space runes; every rune is at least one byte long. *)
Fixpoint trim_left (runes : list string) (fuel : nat) (s : string) : string :=
  match fuel with
  | O => s
  | S fuel =>
      match List.find (λ r, String.prefix r s) runes with
      | Some r => trim_left runes fuel (drop_bytes (String.length r) s)
      | None => s
      end
  end.

(** [strings.TrimSpace]. *)
Definition TrimSpace (s : string) : string :=
  let runes := space_runes ++ wide_space_runes in
  let s := trim_left runes (String.length s) s in
  rev_string (trim_left (rev_string <$> runes) (String.length s) (rev_string s)).

(** [strings.Join(xs, sep)]. *)
Fixpoint Join (sep : string) (xs : list string) : string :=
  match xs with
  | [] => EmptyString
  | [x] => x
  | x :: xs => x +:+ sep +:+ Join sep xs
  end.

(** [slices.Compact]: one of each run of equal elements. *)
Fixpoint Compact (xs : list string) : list string :=
  match xs with
  | x :: (y :: _) as rest => if bool_decide (x = y) then Compact rest else x :: Compact rest
  | _ => xs
  end.

(** ** Times as text *)

(** The decimal digits of [n], [width] of them. *)
Fixpoint digits (width : nat) (n : Z) : string :=
  match width with
  | O => EmptyString
  | S w => digits w (n / 10) +:+ String (ascii_of_nat (48 + Z.to_nat (n mod 10))) EmptyString
  end.

(** The civil date of a number of days since 0000-03-01. *)
Definition civil (z : Z) : Z * Z * Z :=
  let era := z / 146097 in
  let doe := z - era * 146097 in
  let yoe := (doe - doe / 1460 + doe / 36524 - doe / 146096) / 365 in
  let doy := doe - (365 * yoe + yoe / 4 - yoe / 100) in
  let mp := (5 * doy + 2) / 153 in
  let month := if mp <? 10 then mp + 3 else mp - 9 in
  (yoe + era * 400 + (if month <=? 2 then 1 else 0), month, doy - (153 * mp + 2) / 5 + 1).

(** Drop trailing zeros; the argument is the reversed text. *)
Fixpoint strip_zeros (s : string) : string :=
  match s with
  | String c rest => if bool_decide (c = ascii_of_nat 48) then strip_zeros rest else s
  | EmptyString => EmptyString
  end.

Definition fraction (nanos : Z) : string :=
  let s := rev_string (strip_zeros (rev_string (digits 9 nanos))) in
  if bool_decide (s = EmptyString) then EmptyString else "." +:+ s.

(** [t.UTC().Format(time.RFC3339Nano)] for the years 1 to 9999. *)
Definition RFC3339Nano (t : Time) : string :=
  let day := 86400 * Second in
  let '(y, m, d) := civil (t / day + 306) in
  let sec := (t mod day) / Second in
  digits 4 y +:+ "-" +:+ digits 2 m +:+ "-" +:+ digits 2 d +:+ "T" +:+
  digits 2 (sec / 3600) +:+ ":" +:+ digits 2 ((sec / 60) mod 60) +:+ ":" +:+ digits 2 (sec mod 60) +:+
  fraction (t mod Second) +:+ "Z".

Example RFC3339Nano_zero : RFC3339Nano zero_time = "0001-01-01T00:00:00Z".
Proof. vm_compute. reflexivity. Qed.
Example RFC3339Nano_leap : RFC3339Nano ((738944 * 86400 + 45296) * Second + 7200000) = "2024-02-29T12:34:56.0072Z".
Proof. vm_compute. reflexivity. Qed.
Example TrimSpace_both : TrimSpace (" 	a b" +:+ bytes [10; 194; 160]%nat) = "a b".
Proof. vm_compute. reflexivity. Qed.
