(* ===== verification/VanishedJob.v ===== *)
(** * Recovery of jobs whose runner vanished
    ([src/internal/vanishedjob])

    A job that GitHub reports in progress on a runner that no longer exists is
    force-cancelled and its run started again. Each recovery is a record in a
    state file that moves from detected over cancel-requested to
    rerun-requested. *)

From S2P Require Import Prelude StateFile.

Local Open Scope Z_scope.
Local Open Scope go_scope.

(** ** Policy *)

Inductive Mode := ModeObserve | ModeFullRerun | OtherMode (s : string).

#[export] Instance Mode_eq_dec : EqDecision Mode.
Proof. solve_decision. Defined.

Record Policy := {
  Policy_SchemaVersion : Z;
  MissingRunnerGraceSeconds : Z;
  Policy_ScaleSets : gmap string Mode;
}.

Definition known_mode (scaleSet : string) (mode : Mode) : bool :=
  negb (bool_decide (scaleSet = "")) && match mode with OtherMode _ => false | _ => true end.

Definition Policy_Validate (p : Policy) : result unit :=
  fail_if (negb (Policy_SchemaVersion p =? 1) || (MissingRunnerGraceSeconds p <? 60)
           || (3600 <? MissingRunnerGraceSeconds p) || bool_decide (Policy_ScaleSets p = ∅))
    (Errorf "vanished-runner recovery policy identity or grace is invalid" []);;
  fail_if (negb (forallb (λ sm, known_mode sm.1 sm.2) (map_to_list (Policy_ScaleSets p))))
    (Errorf "vanished-runner recovery policy for scale set %q is invalid" []).

Definition Grace (p : Policy) : Duration := seconds (MissingRunnerGraceSeconds p).

(** ** State *)

Inductive Stage := StageDetected | StageCancelRequested | StageRerunRequested | OtherStage (s : string).

#[export] Instance Stage_eq_dec : EqDecision Stage.
Proof. solve_decision. Defined.

Inductive Action :=
  | ActionNone | ActionIncident | ActionForceCancel | ActionAwaitCancel | ActionFullRerun | ActionAwaitRerun | ActionComplete.

#[export] Instance Action_eq_dec : EqDecision Action.
Proof. solve_decision. Defined.

Record Job := {
  Job_Repository : string;
  Job_ScaleSet : string;
  Job_RunID : Z;
  Job_JobID : Z;
  Job_RunnerID : Z;
  Job_RunnerName : string;
  Job_Status : string;
  Job_StartedAt : Time;
  Job_RunnerPresent : bool;
  Job_RunStatus : string;
  Job_RunConclusion : string;
  Job_RunAttempt : Z;
}.

Record RecoveryRecord := {
  Record_Repository : string;
  Record_RunID : Z;
  Record_JobID : Z;
  Record_RunnerID : Z;
  Record_RunnerName : string;
  Record_ScaleSet : string;
  OriginalAttempt : Z;
  Record_Stage : Stage;
  Record_UpdatedAt : Time;
}.

#[export] Instance RecoveryRecord_eq_dec : EqDecision RecoveryRecord.
Proof. solve_decision. Defined.

(** The record of a decision is its zero value when there is none. *)
Record Decision := {
  Decision_Action : Action;
  Decision_Reason : string;
  Decision_Record : option RecoveryRecord;
}.

Definition decided (action : Action) (reason : string) (r : option RecoveryRecord) : Decision :=
  {| Decision_Action := action; Decision_Reason := reason; Decision_Record := r |}.

(** ** Decision *)

Definition detected (job : Job) (now : Time) : RecoveryRecord := {|
  Record_Repository := Job_Repository job; Record_RunID := Job_RunID job; Record_JobID := Job_JobID job;
  Record_RunnerID := Job_RunnerID job; Record_RunnerName := Job_RunnerName job; Record_ScaleSet := Job_ScaleSet job;
  OriginalAttempt := Job_RunAttempt job; Record_Stage := StageDetected; Record_UpdatedAt := now |}.

Definition complete_identity (job : Job) : bool :=
  negb (bool_decide (Job_Repository job = "") || (Job_RunID job <=? 0) || (Job_JobID job <=? 0)
        || (Job_RunnerID job <=? 0) || bool_decide (Job_RunnerName job = "") || (Job_RunAttempt job <=? 0)
        || IsZero (Job_StartedAt job)).

Definition vanished (p : Policy) (job : Job) (now : Time) : bool :=
  negb (negb (bool_decide (Job_Status job = "in_progress")) || Job_RunnerPresent job
        || (Sub now (Job_StartedAt job) <? Grace p)).

Definition same_recovery (existing : RecoveryRecord) (job : Job) : bool :=
  negb (negb (bool_decide (Record_Repository existing = Job_Repository job)) || negb (Record_RunID existing =? Job_RunID job)
        || negb (Record_JobID existing =? Job_JobID job) || negb (Record_RunnerID existing =? Job_RunnerID job)
        || negb (bool_decide (Record_RunnerName existing = Job_RunnerName job))
        || negb (bool_decide (Record_ScaleSet existing = Job_ScaleSet job)) || (OriginalAttempt existing <? 1)).

Definition run_completed (job : Job) : bool := bool_decide (Job_RunStatus job = "completed").

Definition Evaluate (p : Policy) (job : Job) (existing : option RecoveryRecord) (now : Time) : result Decision :=
  Policy_Validate p;;
  match Policy_ScaleSets p !! Job_ScaleSet job with
  | None => Ok (decided ActionNone "scale-set-unconfigured" None)
  | Some mode =>
      match existing with
      | None =>
          fail_if (negb (complete_identity job)) (Errorf "vanished-runner job identity is incomplete" []);;
          if negb (vanished p job now) then Ok (decided ActionNone "no-aged-vanished-runner" None)
          else if bool_decide (mode = ModeObserve)
               then Ok (decided ActionIncident "side-effecting-workflow-requires-policy" (Some (detected job now)))
               else Ok (decided ActionForceCancel "aged-job-runner-absent" (Some (detected job now)))
      | Some r =>
          fail_if (negb (same_recovery r job)) (Errorf "vanished-runner recovery identity changed" []);;
          if OriginalAttempt r <? Job_RunAttempt job then
            if run_completed job then Ok (decided ActionComplete "replacement-attempt-terminal" (Some r))
            else Ok (decided ActionAwaitRerun "replacement-attempt-active" (Some r))
          else
            match Record_Stage r with
            | StageDetected =>
                if run_completed job then Ok (decided ActionFullRerun "force-cancel-became-terminal" (Some r))
                else Ok (decided ActionForceCancel "resume-force-cancel" (Some r))
            | StageCancelRequested =>
                if run_completed job then Ok (decided ActionFullRerun "cancel-terminal" (Some r))
                else Ok (decided ActionAwaitCancel "cancel-in-progress" (Some r))
            | StageRerunRequested => Ok (decided ActionAwaitRerun "rerun-attempt-not-visible" (Some r))
            | OtherStage _ => Err (Errorf "vanished-runner recovery stage is invalid" [])
            end
      end
  end.

(** ** Store *)

Definition recoveryHistoryLimit : nat := 128.
Definition maximumStateBytes : Z := 1024 * 1024.

Record RecoveryResult := {
  Result_Key : string;
  Result_OriginalAttempt : Z;
  Result_ReplacementAttempt : Z;
  Result_Conclusion : string;
  Result_FinishedAt : Time;
}.

Record fileState := {
  State_SchemaVersion : Z;
  State_Generation : Z;
  State_Records : gmap string RecoveryRecord;
  State_Finished : list RecoveryResult;
}.

Definition empty_state : fileState :=
  {| State_SchemaVersion := 1; State_Generation := 0; State_Records := ∅; State_Finished := [] |}.

Definition RecordKey (repository : string) (runID attempt : Z) : string :=
  repository +:+ "/runs/" +:+ pretty runID +:+ "/attempts/" +:+ pretty attempt.

Definition record_key (r : RecoveryRecord) : string := RecordKey (Record_Repository r) (Record_RunID r) (OriginalAttempt r).

Definition repository_parts (repository : string) : bool :=
  match split_byte "/" repository with
  | [owner; name] => negb (bool_decide (owner = "")) && negb (bool_decide (name = ""))
  | _ => false
  end.

Definition Record_Validate (r : RecoveryRecord) : result unit :=
  fail_if (negb (repository_parts (Record_Repository r)) || (Record_RunID r <=? 0) || (Record_JobID r <=? 0)
           || (Record_RunnerID r <=? 0) || blank (Record_RunnerName r) || blank (Record_ScaleSet r)
           || (OriginalAttempt r <=? 0) || IsZero (Record_UpdatedAt r)
           || match Record_Stage r with OtherStage _ => true | _ => false end)
    (Errorf "vanished-runner recovery record identity is invalid" []).

Definition valid_entry (key : string) (r : RecoveryRecord) : bool :=
  match Record_Validate r with Ok _ => bool_decide (key = record_key r) | Err _ => false end.

(** A decoded document; an absent map of records is [None]. *)
Definition readState (content : result (fileState * bool)) : result fileState :=
  match content with
  | Err e => Err e
  | Ok (s, has_records) =>
      fail_if (negb (State_SchemaVersion s =? 1) || negb has_records) (Errorf "vanished-runner recovery state is invalid" []);;
      fail_if (negb (forallb (λ kr, valid_entry kr.1 kr.2) (map_to_list (State_Records s))))
        (Errorf "vanished-runner recovery record %q is invalid" []);;
      Ok s
  end.

(** [encodedSize] is the length of a state's JSON; a longer file than the read
    bound is refused when it is read. *)
Definition document (encodedSize : fileState → Z) (s : fileState) : StateFile (fileState * bool) :=
  Present (if maximumStateBytes <? encodedSize s
           then Err (Errorf "vanished-runner recovery state exceeds its bounded size" [])
           else Ok (s, true)).

Definition current (file : StateFile (fileState * bool)) : result fileState :=
  match file with Absent => Ok empty_state | Present content => readState content end.

Definition with_records (m : gmap string RecoveryRecord) (s : fileState) : fileState := {|
  State_SchemaVersion := State_SchemaVersion s; State_Generation := State_Generation s;
  State_Records := m; State_Finished := State_Finished s |}.
Definition next_generation (s : fileState) : fileState := {|
  State_SchemaVersion := State_SchemaVersion s; State_Generation := (State_Generation s + 1) `mod` two64;
  State_Records := State_Records s; State_Finished := State_Finished s |}.

(** [locked]: the update returns the changed state, or [None] for no change. *)
Definition locked {A} (encodedSize : fileState → Z) (a : Access) (update : fileState → result (option fileState * A))
    (file : StateFile (fileState * bool)) : StateFile (fileState * bool) * result A :=
  match (access_lock a;; s ← current file; update s) with
  | Err e => (file, Err e)
  | Ok (None, x) => (file, Ok x)
  | Ok (Some s, x) =>
      let '(file', w) := publish (access_write a) file (document encodedSize (next_generation s)) in
      (file', w;; Ok x)
  end.

(** [readLocked] takes no lock when there is no file. *)
Definition readLocked {A} (a : Access) (read : fileState → result A) (file : StateFile (fileState * bool)) : result A :=
  match file with
  | Absent => read empty_state
  | Present content => access_lock a;; s ← readState content; read s
  end.

Definition Get (a : Access) (key : string) : StateFile (fileState * bool) → result (option RecoveryRecord) :=
  readLocked a (λ s, Ok (State_Records s !! key)).

Definition ForRun (a : Access) (repository : string) (runID : Z)
    : StateFile (fileState * bool) → result (option (string * RecoveryRecord)) :=
  readLocked a (λ s,
    match filter (λ kr, Record_Repository kr.2 = repository ∧ Record_RunID kr.2 = runID) (map_to_list (State_Records s)) with
    | [] => Ok None
    | [kr] => Ok (Some kr)
    | _ => Err (Errorf "multiple vanished-runner recoveries exist for one run" [])
    end).

Section store.
Context (encodedSize : fileState → Z) (a : Access).

Definition Begin (r : RecoveryRecord) (file : StateFile (fileState * bool)) : StateFile (fileState * bool) * result bool :=
  match Record_Validate r with
  | Err e => (file, Err e)
  | Ok _ =>
      let key := record_key r in
      locked encodedSize a (λ s,
        if bool_decide (is_Some (State_Records s !! key)) || existsb (λ x, bool_decide (Result_Key x = key)) (State_Finished s)
        then Ok (None, false)
        else Ok (Some (with_records (<[key := r]> (State_Records s)) s), true)) file
  end.

Definition valid_transition (expected next : Stage) (at_ : Time) : bool :=
  negb (IsZero at_
        || (bool_decide (expected = StageDetected) && negb (bool_decide (next = StageCancelRequested)))
        || (bool_decide (expected = StageCancelRequested) && negb (bool_decide (next = StageRerunRequested)))
        || bool_decide (expected = StageRerunRequested)).

Definition set_stage (stage : Stage) (at_ : Time) (r : RecoveryRecord) : RecoveryRecord := {|
  Record_Repository := Record_Repository r; Record_RunID := Record_RunID r; Record_JobID := Record_JobID r;
  Record_RunnerID := Record_RunnerID r; Record_RunnerName := Record_RunnerName r; Record_ScaleSet := Record_ScaleSet r;
  OriginalAttempt := OriginalAttempt r; Record_Stage := stage; Record_UpdatedAt := at_ |}.

Definition Advance (key : string) (expected next : Stage) (at_ : Time) (file : StateFile (fileState * bool))
    : StateFile (fileState * bool) * result unit :=
  if negb (valid_transition expected next at_)
  then (file, Err (Errorf "vanished-runner recovery transition is invalid" []))
  else locked encodedSize a (λ s,
    match State_Records s !! key with
    | Some r =>
        if bool_decide (Record_Stage r = expected)
        then Ok (Some (with_records (<[key := set_stage next at_ r]> (State_Records s)) s), tt)
        else Err (Errorf "vanished-runner recovery stage changed" [])
    | None => Err (Errorf "vanished-runner recovery stage changed" [])
    end) file.

(** [xs[len(xs)-n:]] when longer than [n]. *)
Definition last_entries {A} (n : nat) (xs : list A) : list A := drop (length xs - n) xs.

Definition finished (key : string) (x : RecoveryResult) (s : fileState) : fileState := {|
  State_SchemaVersion := State_SchemaVersion s; State_Generation := State_Generation s;
  State_Records := delete key (State_Records s);
  State_Finished := last_entries recoveryHistoryLimit (State_Finished s ++ [x]) |}.

Definition Finish (key : string) (expected : Stage) (x : RecoveryResult) (file : StateFile (fileState * bool))
    : StateFile (fileState * bool) * result unit :=
  if (Result_ReplacementAttempt x <=? Result_OriginalAttempt x) || bool_decide (Result_Conclusion x = "")
  then (file, Err (Errorf "vanished-runner recovery result is invalid" []))
  else locked encodedSize a (λ s,
    match State_Records s !! key with
    | Some r =>
        if negb (bool_decide (Record_Stage r = expected)) || negb (bool_decide (Result_Key x = key))
           || negb (Result_OriginalAttempt x =? OriginalAttempt r) || IsZero (Result_FinishedAt x)
        then Err (Errorf "vanished-runner recovery finish identity changed" [])
        else Ok (Some (finished key x s), tt)
    | None => Err (Errorf "vanished-runner recovery finish identity changed" [])
    end) file.
End store.

(** ** Controller *)

(** What GitHub is asked to do. *)
Inductive Call :=
  | CallForceCancel (repository : string) (runID : Z)
  | CallFullRerun (repository : string) (runID : Z).

#[export] Instance Call_eq_dec : EqDecision Call.
Proof. solve_decision. Defined.

(** One reconciliation: the accesses to the store in their order, the clock when
    it evaluates and when it stores, and the answers of GitHub and of the event
    sink. *)
Record ReconcileEnv := {
  get_access : Access;
  run_access : Access;
  begin_access : Access;
  store_access : Access;
  now_evaluate : Time;
  now_store : Time;
  force_cancel : result unit;
  full_rerun : result unit;
  emit_event : result unit;
}.

Definition emit {A} (env : ReconcileEnv) (a : A) (operation : result unit) : result A :=
  wrap_err "emit vanished-runner recovery event: %w" (emit_event env);; operation;; Ok a.

(** The record of the run, under its own attempt or under the original one. *)
Definition find_existing (env : ReconcileEnv) (job : Job) (file : StateFile (fileState * bool))
    : result (option (string * RecoveryRecord)) :=
  let key := RecordKey (Job_Repository job) (Job_RunID job) (Job_RunAttempt job) in
  existing ← wrap_err "read vanished-runner recovery: %w" (Get (get_access env) key file);
  match existing with
  | Some r => Ok (Some (key, r))
  | None => ForRun (run_access env) (Job_Repository job) (Job_RunID job) file
  end.

Section act.
Context (encodedSize : fileState → Z) (env : ReconcileEnv) (job : Job).

Let repository := Job_Repository job.
Let runID := Job_RunID job.

(** The switch on the action, for a record [r] stored under [key]. *)
Definition act (d : Decision) (key : string) (r : RecoveryRecord) (file : StateFile (fileState * bool))
    : StateFile (fileState * bool) * list Call * result unit :=
  match Decision_Action d with
  | ActionForceCancel =>
      match force_cancel env with
      | Err e => (file, [CallForceCancel repository runID], Err e)
      | Ok _ =>
          if bool_decide (Record_Stage r = StageDetected) then
            let '(file', w) := Advance encodedSize (store_access env) key StageDetected StageCancelRequested (now_store env) file in
            (file', [CallForceCancel repository runID], w)
          else (file, [CallForceCancel repository runID], Ok tt)
      end
  | ActionFullRerun =>
      match full_rerun env with
      | Err e => (file, [CallFullRerun repository runID], Err e)
      | Ok _ =>
          let '(file', w) := Advance encodedSize (store_access env) key (Record_Stage r) StageRerunRequested (now_store env) file in
          (file', [CallFullRerun repository runID], w)
      end
  | ActionComplete =>
      let x := {| Result_Key := key; Result_OriginalAttempt := OriginalAttempt r;
                  Result_ReplacementAttempt := Job_RunAttempt job; Result_Conclusion := Job_RunConclusion job;
                  Result_FinishedAt := now_store env |} in
      let '(file', w) := Finish encodedSize (store_access env) key (Record_Stage r) x file in (file', [], w)
  | _ => (file, [], Ok tt)
  end.
End act.

Definition Reconcile (encodedSize : fileState → Z) (p : Policy) (env : ReconcileEnv) (job : Job) (file : StateFile (fileState * bool))
    : StateFile (fileState * bool) * list Call * result Decision :=
  match find_existing env job file with
  | Err e => (file, [], Err e)
  | Ok existing =>
      match Evaluate p job (snd <$> existing) (now_evaluate env) with
      | Err e => (file, [], wrap_err "emit vanished-runner recovery event: %w" (emit_event env);; Err e)
      | Ok d =>
          match existing, Decision_Action d, Decision_Record d with
          | None, ActionForceCancel, Some r =>
              match Begin encodedSize (begin_access env) r file with
              | (file, Err e) => (file, [], emit env d (Err e))
              | (file, Ok false) => (file, [], Ok d)
              | (file, Ok true) =>
                  let '(file, calls, w) := act encodedSize env job d (record_key r) r file in (file, calls, emit env d w)
              end
          | Some (key, r), _, _ =>
              let '(file, calls, w) := act encodedSize env job d key r file in (file, calls, emit env d w)
          | None, _, _ => (file, [], emit env d (Ok tt))
          end
      end
  end.

(** Several reconciliations, of possibly different jobs, in order. *)
Fixpoint reconcile_all (encodedSize : fileState → Z) (p : Policy) (steps : list (ReconcileEnv * Job)) (file : StateFile (fileState * bool))
    : StateFile (fileState * bool) * list Call :=
  match steps with
  | [] => (file, [])
  | (env, job) :: steps =>
      let '(file, calls, _) := Reconcile encodedSize p env job file in
      let '(file', calls') := reconcile_all encodedSize p steps file in (file', calls ++ calls')
  end.
