(* ===== verification/VanishedJobFacts.v ===== *)
(** * Recovery of vanished jobs: its promises *)

From S2P Require Import Prelude StateFile VanishedJob.

Local Open Scope Z_scope.
Local Open Scope go_scope.

(** ** States that read back *)

Record wf_state (s : fileState) : Prop := {
  wf_schema : State_SchemaVersion s = 1;
  wf_records : ∀ k r, State_Records s !! k = Some r → valid_entry k r = true;
}.

Lemma readState_spec content s : readState content = Ok s ↔ content = Ok (s, true) ∧ wf_state s.
Proof.
  destruct content as [[s' b]|e]; [|naive_solver]. unfold readState. rewrite !fail_if_Ok_bind.
  destruct (negb (State_SchemaVersion s' =? 1) || negb b) eqn:H1.
  { split; [done|]. intros [[= -> ->] [Hs _]]. rewrite Hs in H1. done. }
  bool_hyps. subst b. destruct (forallb _ _) eqn:H2; simpl.
  - rewrite forallb_forall in H2. split.
    + intros [= ->]. split; [done|]. split; [lia|]. intros k r Hr. apply (H2 (k, r)).
      apply list_elem_of_In. by apply elem_of_map_to_list.
    + by intros [[= ->] _].
  - split; [done|]. intros [[= ->] [_ Hr]]. assert (forallb (λ kr, valid_entry kr.1 kr.2) (map_to_list (State_Records s)) = true); [|congruence].
    apply forallb_forall. intros [k r] Hin. apply Hr. by apply elem_of_map_to_list, list_elem_of_In.
Qed.

Lemma current_wf file s : current file = Ok s → wf_state s.
Proof. destruct file as [|content]; simpl; [intros [= <-]; split; done|]. by intros [_ ?]%readState_spec. Qed.

(** The file holds [s]: it reads as [s], or [s] was published and is longer than
    a read accepts. *)
Definition holds (size : fileState → Z) (file : StateFile (fileState * bool)) (s : fileState) : Prop :=
  current file = Ok s ∨ file = document size s ∧ wf_state s.

Lemma holds_wf size file s : holds size file s → wf_state s.
Proof. intros [H|[_ H]]; [by eapply current_wf|done]. Qed.

Lemma holds_read size file s : holds size file s → current file = Ok s ∨ ∃ e, current file = Err e.
Proof.
  intros [H|[-> H]]; [by left|]. unfold document, current. destruct (maximumStateBytes <? size s); [right; by eexists|].
  left. by apply readState_spec.
Qed.

Lemma holds_current size file s s' : holds size file s → current file = Ok s' → s' = s.
Proof. intros [H|[e H]]%holds_read ?; congruence. Qed.

Lemma wf_insert s k r : wf_state s → valid_entry k r = true → wf_state (next_generation (with_records (<[k := r]> (State_Records s)) s)).
Proof.
  intros [Hv Hr] Hk. split; [done|]. simpl. intros k' r'. destruct (decide (k = k')) as [<-|Hne].
  - rewrite lookup_insert_eq. by intros [= <-].
  - rewrite lookup_insert_ne by done. apply Hr.
Qed.

(** ** The locked update *)

(** The file holds a readable state related to the old one by [R], or is the old
    file. *)
Lemma recovery_locked_spec {A} size a (f : fileState → result (option fileState * A)) file file' r s :
  locked size a f file = (file', r) → holds size file s →
  (∀ s' x, f s = Ok (Some s', x) → wf_state (next_generation s')) →
  (file' = file ∧ (∀ x, r = Ok x → access_lock a = Ok tt ∧ f s = Ok (None, x))) ∨
  (∃ s' x, access_lock a = Ok tt ∧ f s = Ok (Some s', x) ∧ holds size file' (next_generation s') ∧ (∀ y, r = Ok y → y = x)) ∨
  (file' = file ∧ ∃ e, r = Err e).
Proof.
  intros Hl Hs Hwf. unfold locked in Hl. apply holds_read in Hs as [Hs|[e Hs]]; rewrite Hs in Hl; cycle 1.
  { right. right. destruct (access_lock a); simpl in Hl; simplify_eq; eauto. }
  destruct (access_lock a) as [[]|e] eqn:Ha; simpl in Hl; [|simplify_eq; right; right; eauto].
  destruct (f s) as [[[s'|] x]|e] eqn:Hf; simpl in Hl.
  - destruct (publish _ _ _) as [g w] eqn:Hp. apply publish_cases in Hp as [[->| ->] Hok]; simplify_eq.
    + destruct w as [[]|e]; [|right; right; eauto]. specialize (Hok eq_refl). right. left. exists s', x. split_and!; try done.
      * rewrite Hok. right. split; [done|]. by eapply Hwf.
      * by intros y [= ->].
    + right. left. exists s', x. split_and!; try done; [right; split; [done|by eapply Hwf]|].
      intros y. destruct w; [by intros [= ->]|done].
  - simplify_eq. left. split; [done|]. by intros y [= <-].
  - simplify_eq. right; right; eauto.
Qed.

(** What an operation may do to the readable state. *)
Definition steps_to (size : fileState → Z) (R : fileState → fileState → Prop) (file file' : StateFile (fileState * bool)) (s : fileState) : Prop :=
  file' = file ∨ ∃ s', holds size file' s' ∧ R s s'.

Definition inserted (k : string) (r : RecoveryRecord) (s s' : fileState) : Prop :=
  State_Records s' = <[k := r]> (State_Records s) ∧ State_Finished s' = State_Finished s.

Section ops.
Context (size : fileState → Z).

Lemma recovery_Begin_spec a r file file' res s :
  Begin size a r file = (file', res) → holds size file s →
  steps_to size (inserted (record_key r) r) file file' s ∧
  (res = Ok true → State_Records s !! record_key r = None ∧ ∃ s', holds size file' s' ∧ inserted (record_key r) r s s').
Proof.
  unfold Begin. destruct (Record_Validate r) as [[]|e] eqn:Hv; [|intros [= <- <-] _; by split; [left|]].
  intros Hl Hs. eapply recovery_locked_spec in Hl; [|done|]; cycle 1.
  { intros s' x. case_match; intros [= <- <-]. apply wf_insert; [by eapply holds_wf|].
    unfold valid_entry. rewrite Hv. by rewrite bool_decide_eq_true_2. }
  destruct Hl as [[-> Hr]|[(s' & x & _ & Hf & Hc & Hr)|[-> [e ->]]]].
  - split; [by left|]. intros ->. destruct (Hr true eq_refl) as [_ Hf]. by case_match.
  - case_match eqn:Hb; [done|]. apply Ok_inj in Hf. simplify_eq. apply orb_false_iff in Hb as [Hb _].
    apply bool_decide_eq_false in Hb. apply eq_None_not_Some in Hb. split; [right|intros _; split; [done|]]; eexists; split; try done.
  - by split; [left|].
Qed.

Lemma valid_transition_known expected next at_ :
  valid_transition expected next at_ = true → expected ≠ StageRerunRequested ∧ at_ ≠ zero_time ∧
  (expected = StageDetected → next = StageCancelRequested) ∧ (expected = StageCancelRequested → next = StageRerunRequested).
Proof.
  unfold valid_transition, IsZero. intros H. bool_hyps. split_and!; try done.
  - intros ->. match goal with H : _ && _ = false |- _ => apply andb_false_iff in H as [H|H]; bool_hyps; done end.
  - intros ->. repeat match goal with H : _ && _ = false |- _ => apply andb_false_iff in H as [H|H]; bool_hyps; try done end.
Qed.

Lemma Advance_spec a key expected next at_ file file' res s :
  Advance size a key expected next at_ file = (file', res) → holds size file s →
  (file' = file ∧ (res = Ok tt → False)) ∨
  ∃ r s', valid_transition expected next at_ = true ∧ State_Records s !! key = Some r ∧ Record_Stage r = expected ∧
    holds size file' s' ∧ inserted key (set_stage next at_ r) s s'.
Proof.
  unfold Advance. destruct (valid_transition expected next at_) eqn:Ht; [|intros [= <- <-] _; left; by split].
  apply valid_transition_known in Ht as Hk. destruct Hk as (Hnr & Hz & Hd & Hcr). cbn [negb].
  intros Hl Hs. eapply recovery_locked_spec in Hl; [|done|]; cycle 1.
  { intros s' x. destruct (State_Records s !! key) as [r|] eqn:Hr; [|done]. case_bool_decide as Hst; [|done].
    intros [= <- <-]. pose proof (holds_wf _ _ _ Hs) as Hwf. apply wf_insert; [done|].
    pose proof (wf_records _ Hwf _ _ Hr) as Hv. unfold valid_entry in *.
    destruct (Record_Validate r) as [u|] eqn:Hrv; [|done]. apply fail_if_Ok in Hrv. bool_hyps.
    assert (Record_Validate (set_stage next at_ r) = Ok tt) as ->.
    { apply fail_if_Ok. simpl. repeat (apply orb_false_iff; split); try done.
      - by apply negb_false_iff.
      - unfold IsZero. by apply bool_decide_eq_false_2.
      - destruct (Record_Stage r); subst; [by rewrite Hd|by rewrite Hcr|done|done]. }
    by apply bool_decide_eq_true_2. }
  destruct Hl as [[-> Hr]|[(s' & x & _ & Hf & Hc & _)|[-> [e ->]]]].
  - left. split; [done|]. intros ->. destruct (Hr tt eq_refl) as [_ Hf]. repeat case_match; try done; simplify_eq.
  - right. destruct (State_Records s !! key) as [r|] eqn:Hr; [|done]. case_bool_decide; [|done].
    apply Ok_inj in Hf. simplify_eq. exists r. eexists. by split_and!.
  - by left.
Qed.

Lemma recovery_Finish_spec a key expected x file file' res s :
  Finish size a key expected x file = (file', res) → holds size file s →
  (file' = file ∧ (res = Ok tt → False)) ∨
  ∃ r s', State_Records s !! key = Some r ∧ holds size file' s' ∧ State_Records s' = delete key (State_Records s).
Proof.
  unfold Finish. case_match; [intros [= <- <-] _; left; by split|].
  intros Hl Hs. eapply recovery_locked_spec in Hl; [|done|]; cycle 1.
  { intros s' y. repeat case_match; try done. intros [= <- <-]. pose proof (holds_wf _ _ _ Hs) as [Hv Hr].
    split; [done|]. simpl. intros k r' Hk. apply lookup_delete_Some in Hk as [_ Hk]. by apply Hr. }
  destruct Hl as [[-> Hr]|[(s' & y & _ & Hf & Hc & _)|[-> [e ->]]]].
  - left. split; [done|]. intros ->. destruct (Hr tt eq_refl) as [_ Hf]. repeat case_match; try done; simplify_eq.
  - right. destruct (State_Records s !! key) as [r|] eqn:Hr; [|done]. case_match; [done|].
    apply Ok_inj in Hf. simplify_eq. exists r. eexists. by split_and!.
  - by left.
Qed.
End ops.

(** ** Looking up the record of a run *)

Lemma find_existing_spec size env job file s key r :
  find_existing env job file = Ok (Some (key, r)) → holds size file s → State_Records s !! key = Some r.
Proof.
  unfold find_existing, Get, ForRun, readLocked. destruct file as [|content]; simpl.
  { by intros H%Ok_inj. }
  destruct (access_lock (get_access env)) as [[]|]; simpl; [|done].
  destruct (readState content) as [s'|] eqn:Hc; simpl; [|done]. intros H Hs. apply (holds_current _ _ _ s') in Hs as <-; [|done]. rename s' into s. destruct (State_Records s !! _) as [r'|] eqn:Hr; simpl in H.
  { by simplify_eq. }
  destruct (access_lock (run_access env)) as [[]|]; simpl in H; [|done].
  destruct (filter _ _) as [|kr [|]] eqn:Hf; simplify_eq.
  assert ((key, r) ∈ filter (λ kr, Record_Repository kr.2 = Job_Repository job ∧ Record_RunID kr.2 = Job_RunID job)
    (map_to_list (State_Records s))) as Hin by (rewrite Hf; set_solver).
  apply list_elem_of_filter in Hin as [_ Hin]. by apply elem_of_map_to_list.
Qed.

Lemma find_existing_None size env job file s k r :
  find_existing env job file = Ok None → holds size file s → State_Records s !! k = Some r →
  Record_Repository r = Job_Repository job → Record_RunID r = Job_RunID job → False.
Proof.
  unfold find_existing, Get, ForRun, readLocked. destruct file as [|content]; simpl.
  { intros _ Hs. apply holds_read in Hs as [[= <-]|[e [=]]]. done. }
  destruct (access_lock (get_access env)) as [[]|]; simpl; [|done].
  destruct (readState content) as [s'|] eqn:Hc; simpl; [|done]. intros H Hs. apply (holds_current _ _ _ s') in Hs as <-; [|done]. rename s' into s. intros Hr Hrepo Hrun.
  destruct (State_Records s !! RecordKey _ _ _) as [r'|]; simpl in H; [done|].
  destruct (access_lock (run_access env)) as [[]|]; simpl in H; [|done].
  destruct (filter _ _) as [|kr [|]] eqn:Hf; simplify_eq.
  assert ((k, r) ∉ map_to_list (State_Records s)) as Hn by (eapply filter_nil_not_elem_of; [exact Hf|done]).
  apply Hn. by apply elem_of_map_to_list.
Qed.

(** ** What the decision allows *)

Lemma Evaluate_force_cancel p job existing now d :
  Evaluate p job existing now = Ok d → Decision_Action d = ActionForceCancel →
  match existing with
  | None => Decision_Record d = Some (detected job now) ∧ complete_identity job = true ∧ vanished p job now = true ∧
            Policy_ScaleSets p !! Job_ScaleSet job = Some ModeFullRerun
  | Some r => same_recovery r job = true ∧ Record_Stage r = StageDetected ∧ run_completed job = false ∧
              Job_RunAttempt job ≤ OriginalAttempt r
  end.
Proof.
  unfold Evaluate. intros H Ha. apply bind_Ok in H as ([] & Hp & H). destruct (Policy_ScaleSets p !! _) as [mode|] eqn:Hm; [|by simplify_eq].
  destruct existing as [r|]; rewrite fail_if_Ok_bind in H; destruct (negb _) eqn:Hi in H; try done; apply negb_false_iff in Hi.
  - destruct (OriginalAttempt r <? Job_RunAttempt job) eqn:?; [by repeat case_match; simplify_eq|].
    destruct (Record_Stage r), (run_completed job); simplify_eq; split_and!; try done; lia.
  - destruct (vanished p job now) eqn:Hv; cbn [negb] in H; [|by simplify_eq]. case_bool_decide as Hmode; simplify_eq.
    simpl. split_and!; try done. apply bind_Ok in Hp as (_ & _ & Hk). apply fail_if_Ok, negb_false_iff in Hk.
    rewrite forallb_forall in Hk. specialize (Hk (Job_ScaleSet job, mode)). f_equal.
    unfold known_mode in Hk. simpl in Hk. destruct mode; try done.
    rewrite andb_false_r in Hk. discriminate Hk. by apply list_elem_of_In, elem_of_map_to_list.
Qed.

Lemma Evaluate_full_rerun p job existing now d :
  Evaluate p job existing now = Ok d → Decision_Action d = ActionFullRerun →
  ∃ r, existing = Some r ∧ same_recovery r job = true ∧ run_completed job = true ∧ Job_RunAttempt job ≤ OriginalAttempt r ∧
       (Record_Stage r = StageDetected ∨ Record_Stage r = StageCancelRequested).
Proof.
  unfold Evaluate. intros H Ha. apply bind_Ok in H as ([] & Hp & H). destruct (Policy_ScaleSets p !! _) as [mode|] eqn:Hm; [|by simplify_eq].
  destruct existing as [r|]; rewrite fail_if_Ok_bind in H; destruct (negb _) eqn:Hi in H; try done; apply negb_false_iff in Hi.
  - exists r. destruct (OriginalAttempt r <? Job_RunAttempt job) eqn:?; [by repeat case_match; simplify_eq|].
    destruct (Record_Stage r), (run_completed job); simplify_eq; split_and!; try done; try lia; auto.
  - repeat case_match; simplify_eq.
Qed.

Lemma same_recovery_eq r job : same_recovery r job = true →
  Record_Repository r = Job_Repository job ∧ Record_RunID r = Job_RunID job.
Proof. unfold same_recovery. intros H. bool_hyps. split; [done|lia]. Qed.

(** ** Promises of a reconciliation *)

Section reconcile.
Context (size : fileState → Z) (p : Policy) (env : ReconcileEnv) (job : Job).

(** The effect of the switch on the stored record. *)
Lemma act_spec d key r file s file' calls res :
  act size env job d key r file = (file', calls, res) → holds size file s → State_Records s !! key = Some r →
  (∃ s', holds size file' s') ∧
  ∀ c, c ∈ calls →
    (c = CallForceCancel (Job_Repository job) (Job_RunID job) ∧ Decision_Action d = ActionForceCancel ∨
     c = CallFullRerun (Job_Repository job) (Job_RunID job) ∧ Decision_Action d = ActionFullRerun) ∧
    ∃ s' r', holds size file' s' ∧ State_Records s' !! key = Some r' ∧
      Record_Repository r' = Record_Repository r ∧ Record_RunID r' = Record_RunID r ∧ OriginalAttempt r' = OriginalAttempt r.
Proof.
  intros Hact Hs Hr.
  assert (∀ st nx file' w, Advance size (store_access env) key st nx (now_store env) file = (file', w) →
    ∃ s' r', holds size file' s' ∧ State_Records s' !! key = Some r' ∧
      Record_Repository r' = Record_Repository r ∧ Record_RunID r' = Record_RunID r ∧ OriginalAttempt r' = OriginalAttempt r) as Hadv.
  { intros st nx f w Ha. eapply Advance_spec in Ha; [|done].
    destruct Ha as [[-> _]|(r' & s' & _ & Hr' & _ & Hc & Hi & _)]; [by exists s, r|]. simplify_eq.
    exists s'. eexists. split; [done|]. rewrite Hi, lookup_insert_eq. done. }
  unfold act in Hact.
  assert (∃ s' r', holds size file s' ∧ State_Records s' !! key = Some r' ∧
      Record_Repository r' = Record_Repository r ∧ Record_RunID r' = Record_RunID r ∧ OriginalAttempt r' = OriginalAttempt r) as Hsame
    by (by exists s, r).
  destruct (Decision_Action d) eqn:Hd; try (simplify_eq; split; [by eexists|]; intros c Hc; set_solver).
  - destruct (force_cancel env); [case_bool_decide; [destruct (Advance _ _ _ _ _ _ _) as [f w] eqn:Ha; apply Hadv in Ha|]|];
      simplify_eq; (split; [naive_solver|]); intros c ->%list_elem_of_singleton; (split; [by left|]); done.
  - destruct (full_rerun env); [destruct (Advance _ _ _ _ _ _ _) as [f w] eqn:Ha; apply Hadv in Ha|];
      simplify_eq; (split; [naive_solver|]); intros c ->%list_elem_of_singleton; (split; [by right|]); done.
  - destruct (Finish _ _ _ _ _ _) as [f w] eqn:Hf. simplify_eq. eapply recovery_Finish_spec in Hf; [|done]. split; [|set_solver].
    destruct Hf as [[-> _]|(? & s' & _ & ? & _)]; by eexists.
Qed.

(** What makes a call legitimate in the state it was made from. *)
Definition justified (s : fileState) (c : Call) : Prop :=
  match c with
  | CallForceCancel repository runID =>
      repository = Job_Repository job ∧ runID = Job_RunID job ∧
      ((∃ k r, State_Records s !! k = Some r ∧ same_recovery r job = true ∧ Record_Stage r = StageDetected ∧
               run_completed job = false ∧ Job_RunAttempt job ≤ OriginalAttempt r) ∨
       ((∀ k r, State_Records s !! k = Some r → Record_Repository r = repository → Record_RunID r = runID → False) ∧
        Policy_ScaleSets p !! Job_ScaleSet job = Some ModeFullRerun ∧ vanished p job (now_evaluate env) = true))
  | CallFullRerun repository runID =>
      repository = Job_Repository job ∧ runID = Job_RunID job ∧ run_completed job = true ∧
      ∃ k r, State_Records s !! k = Some r ∧ same_recovery r job = true ∧ Job_RunAttempt job ≤ OriginalAttempt r ∧
             (Record_Stage r = StageDetected ∨ Record_Stage r = StageCancelRequested)
  end.

(** The run has a record, whose attempt is [n] at least. *)
Definition recorded (s : fileState) : Prop :=
  ∃ k r, State_Records s !! k = Some r ∧ Record_Repository r = Job_Repository job ∧ Record_RunID r = Job_RunID job ∧
         Job_RunAttempt job ≤ OriginalAttempt r.

Lemma Reconcile_spec file s file' calls res :
  Reconcile size p env job file = (file', calls, res) → holds size file s →
  (∃ s', holds size file' s') ∧ ∀ c, c ∈ calls → justified s c ∧ ∃ s', holds size file' s' ∧ recorded s'.
Proof.
  unfold Reconcile. intros H Hs.
  assert (∀ (l : list Call), l = [] → ∀ c, c ∈ l → justified s c ∧ ∃ s', holds size file' s' ∧ recorded s') as Hnil by set_solver.
  destruct (find_existing env job file) as [existing|] eqn:Hf; [|simplify_eq; split; [by eexists|by apply Hnil]].
  destruct (Evaluate _ _ _ _) as [d|] eqn:He; [|simplify_eq; split; [by eexists|by apply Hnil]].
  pose proof (Evaluate_force_cancel _ _ _ _ _ He) as Hfc. pose proof (Evaluate_full_rerun _ _ _ _ _ He) as Hfr.
  destruct existing as [[key r]|]; cbn [fmap option_fmap option_map snd] in *.
  - destruct (act size env job d key r file) as [[f cs] w] eqn:Hact. simplify_eq.
    pose proof (find_existing_spec _ _ _ _ _ _ _ Hf Hs) as Hr.
    destruct (act_spec _ _ _ _ _ _ _ _ Hact Hs Hr) as [Hex Hcalls]. split; [done|]. intros c Hc.
    destruct (Hcalls c Hc) as [Hk (s' & r' & Hs' & Hr' & ? & ? & ?)].
    destruct Hk as [[-> Hd]|[-> Hd]].
    + destruct (Hfc Hd) as (Hsr & ? & ? & ?). split; [split_and!; try done; left; by exists key, r|].
      apply same_recovery_eq in Hsr as [? ?]. exists s'. split; [done|]. exists key, r'. split_and!; [done|congruence|congruence|lia].
    + destruct (Hfr Hd) as (r0 & [= <-] & Hsr & ? & ? & ?). split; [split_and!; try done; by exists key, r|].
      apply same_recovery_eq in Hsr as [? ?]. exists s'. split; [done|]. exists key, r'. split_and!; [done|congruence|congruence|lia].
  - destruct (decide (Decision_Action d = ActionForceCancel)) as [Hd|Hd]; cycle 1.
    { assert ((file', calls) = (file, [])) as [= -> ->] by (by destruct (Decision_Action d); simplify_eq). split; [by eexists|by apply Hnil]. }
    destruct (Hfc Hd) as (Hrec & Hid & Hv & Hm). rewrite Hd, Hrec in H.
    destruct (Begin _ _ _ _) as [f b] eqn:Hb. eapply recovery_Begin_spec in Hb; [|done]. destruct Hb as [Hst Hnew].
    destruct b as [[]|]; cycle 1.
    { simplify_eq. split; [|by apply Hnil]. destruct Hst as [->|(? & ? & _)]; by eexists. }
    { simplify_eq. split; [|by apply Hnil]. destruct Hst as [->|(? & ? & _)]; by eexists. }
    destruct (Hnew eq_refl) as (Hnone & s1 & Hs1 & Hins & _).
    destruct (act size env job d _ _ f) as [[f2 cs] w] eqn:Hact. simplify_eq.
    assert (State_Records s1 !! record_key (detected job (now_evaluate env)) = Some (detected job (now_evaluate env))) as Hr1
      by (by rewrite Hins, lookup_insert_eq).
    destruct (act_spec _ _ _ _ _ _ _ _ Hact Hs1 Hr1) as [Hex Hcalls]. split; [done|]. intros c Hc.
    destruct (Hcalls c Hc) as [[[-> _]|[_ ?]] (s' & r' & Hs' & Hr' & Hrepo & Hrun & Hatt)]; [|congruence].
    split.
    + split_and!; try done. right. split; [|done]. intros k r Hk. by eapply find_existing_None.
    + exists s'. split; [done|]. eexists _, r'. split; [done|]. rewrite Hrepo, Hrun, Hatt. done.
Qed.
End reconcile.

Lemma readState_document s : wf_state s → readState (Ok (s, true)) = Ok s.
Proof. intros H. by apply readState_spec. Qed.

(** ** Claims *)

(** C11: Every state that reconciliations store is well formed: from a readable file,
    any sequence of reconciliations of any jobs, under any faults, leaves the
    state file absent, as it was, or holding a state with schema 1 in which
    every record is valid and sits under its own key. *)
Theorem reconcile_all_well_formed (size : fileState → Z) (p : Policy) (steps : list (ReconcileEnv * Job))
    (file : StateFile (fileState * bool)) (s : fileState) :
  current file = Ok s → ∃ s', holds size (reconcile_all size p steps file).1 s' ∧ wf_state s'.
Proof.
  intros Hs. assert (∃ s, holds size file s) as Hh by (exists s; by left). clear Hs s.
  revert file Hh. induction steps as [|[env job] steps IH]; intros file [s Hs]; simpl.
  { exists s. split; [done|]. by eapply holds_wf. }
  destruct (Reconcile size p env job file) as [[f cs] res] eqn:Hr.
  eapply Reconcile_spec in Hr as [Hex _]; [|done]. specialize (IH f Hex).
  by destruct (reconcile_all size p steps f) as [f' cs'].
Qed.

(** A reconciliation calls GitHub only with a reason. Each call is for the run
    of the job it was given. A force-cancel continues a detected recovery of this
    job whose run is not complete, or starts one: then the run had no record, the
    policy of the scale set is force-cancel-full-rerun and the runner has been
    missing past the grace. A rerun has a detected or cancelled recovery of this
    job, a completed run and no newer attempt. Afterwards a record of the run is
    in the state file, however the call and the writes ended. *)
Theorem Reconcile_calls_justified (size : fileState → Z) (p : Policy) (env : ReconcileEnv) (job : Job)
    (file : StateFile (fileState * bool)) (s : fileState) (c : Call) :
  current file = Ok s → c ∈ (Reconcile size p env job file).1.2 →
  justified p env job s c ∧ ∃ s', holds size (Reconcile size p env job file).1.1 s' ∧ recorded job s'.
Proof.
  intros Hs Hc. destruct (Reconcile size p env job file) as [[f cs] res] eqn:Hr.
  eapply Reconcile_spec in Hr as [_ H]; [by apply H|by left].
Qed.

Lemma Advance_from_detected size a key next at_ file :
  next ≠ StageCancelRequested → ∃ e, Advance size a key StageDetected next at_ file = (file, Err e).
Proof.
  intros Hn. unfold Advance. destruct (valid_transition StageDetected next at_) eqn:Ht; [|by eexists].
  apply valid_transition_known in Ht as (_ & _ & Hd & _). by specialize (Hd eq_refl).
Qed.

(** A recovery still in stage detected whose run has completed is rerun again and
    again: the store refuses to move a record from detected to rerun-requested,
    so each of any number of reconciliations issues a full rerun and leaves the
    file as it is, even when GitHub accepts every one of them. *)
Theorem detected_reruns_repeat (size : fileState → Z) (p : Policy) (job : Job) (s : fileState) (r : RecoveryRecord)
    (envs : list ReconcileEnv) :
  Policy_Validate p = Ok tt → is_Some (Policy_ScaleSets p !! Job_ScaleSet job) → wf_state s →
  State_Records s !! RecordKey (Job_Repository job) (Job_RunID job) (Job_RunAttempt job) = Some r →
  same_recovery r job = true → Record_Stage r = StageDetected → run_completed job = true →
  Job_RunAttempt job ≤ OriginalAttempt r →
  Forall (λ env, access_lock (get_access env) = Ok tt) envs →
  reconcile_all size p ((λ env, (env, job)) <$> envs) (Present (Ok (s, true))) =
    (Present (Ok (s, true)), (λ _, CallFullRerun (Job_Repository job) (Job_RunID job)) <$> envs).
Proof.
  intros Hp [mode Hm] Hwf Hr Hsame Hst Hrun Hatt. induction 1 as [|env envs Hlock _ IH]; [done|].
  rewrite !fmap_cons. cbn [reconcile_all]. unfold Reconcile at 1, find_existing, Get, readLocked.
  rewrite Hlock. cbn [mbind result_bind]. rewrite (readState_document s Hwf).
  cbn [mbind result_bind wrap_err]. rewrite Hr. cbn [mbind result_bind wrap_err fmap option_fmap option_map snd].
  assert (Evaluate p job (Some r) (now_evaluate env) = Ok (decided ActionFullRerun "force-cancel-became-terminal" (Some r))) as ->.
  { unfold Evaluate. rewrite Hp, Hm. cbn [mbind result_bind]. rewrite Hsame, Hst, Hrun. simpl. destruct (OriginalAttempt r <? Job_RunAttempt job) eqn:?; [lia|done]. }
  unfold act. cbn [Decision_Action decided]. rewrite Hst.
  destruct (full_rerun env) as [|e]; [|by rewrite IH].
  destruct (Advance_from_detected size (store_access env) (RecordKey (Job_Repository job) (Job_RunID job) (Job_RunAttempt job))
    StageRerunRequested (now_store env) (Present (Ok (s, true)))) as [e ->]; [done|]. by rewrite IH.
Qed.

(** ** A concrete recovery *)

Definition policy0 : Policy := {|
  Policy_SchemaVersion := 1; MissingRunnerGraceSeconds := 300; Policy_ScaleSets := {[ "linux" := ModeFullRerun ]} |}.

Definition job0 (status : string) : Job := {|
  Job_Repository := "org/repo"; Job_ScaleSet := "linux"; Job_RunID := 11; Job_JobID := 12; Job_RunnerID := 13;
  Job_RunnerName := "runner-13"; Job_Status := "in_progress"; Job_StartedAt := 5 * Minute; Job_RunnerPresent := false;
  Job_RunStatus := status; Job_RunConclusion := ""; Job_RunAttempt := 1 |}.

Definition env0 (now : Time) : ReconcileEnv := {|
  get_access := fault_free; run_access := fault_free; begin_access := fault_free; store_access := fault_free;
  now_evaluate := now; now_store := now; force_cancel := Ok tt; full_rerun := Ok tt; emit_event := Ok tt |}.

Definition record0 : RecoveryRecord := detected (job0 "in_progress") Hour.
Definition state0 : fileState := {|
  State_SchemaVersion := 1; State_Generation := 1; State_Records := {[ record_key record0 := record0 ]}; State_Finished := [] |}.

Lemma wf_state0 : wf_state state0.
Proof. split; [done|]. cbn [State_Records state0]. intros k r Hr. apply lookup_singleton_Some in Hr as [<- <-]. vm_compute. done. Qed.

Lemma reconcile_all_well_formed_witness : ∃ s', holds (λ _, 400) (reconcile_all (λ _, 400) policy0
  [(env0 Hour, job0 "in_progress"); (env0 (2 * Hour), job0 "completed")] Absent).1 s' ∧ wf_state s'.
Proof. apply (reconcile_all_well_formed _ _ _ _ empty_state). vm_compute. reflexivity. Defined.

Lemma Reconcile_calls_justified_witness :
  justified policy0 (env0 Hour) (job0 "in_progress") empty_state (CallForceCancel "org/repo" 11) ∧
  ∃ s', holds (λ _, 400) (Reconcile (λ _, 400) policy0 (env0 Hour) (job0 "in_progress") Absent).1.1 s' ∧ recorded (job0 "in_progress") s'.
Proof.
  apply (Reconcile_calls_justified (λ _, 400) policy0 (env0 Hour) (job0 "in_progress") Absent empty_state);
    [vm_compute; reflexivity|]. apply list_elem_of_In. vm_compute. by left.
Defined.

Lemma detected_reruns_repeat_witness :
  reconcile_all (λ _, 400) policy0 ((λ env, (env, job0 "completed")) <$> [env0 (2 * Hour); env0 (3 * Hour)]) (Present (Ok (state0, true))) =
    (Present (Ok (state0, true)), (λ _, CallFullRerun "org/repo" 11) <$> [env0 (2 * Hour); env0 (3 * Hour)]).
Proof.
  apply (detected_reruns_repeat (λ _, 400) policy0 (job0 "completed") state0 record0); try (vm_compute; reflexivity).
  - vm_compute. by eexists.
  - exact wf_state0.
  - vm_compute. done.
  - repeat constructor.
Defined.
