(* ===== verification/SchedulerRecovery.v ===== *)
(** * Recovery of a stuck scheduler
    ([src/internal/schedulerrecovery])

    A controller observes the scheduler, decides whether it is stuck, and then
    checkpoints, restarts the dispatcher and waits for a proof that every stuck
    identity moved. Attempts and results are kept in a state file, so that a
    controller that died is resumed without a second restart and an incident has
    a budget of restarts. *)

From S2P Require Import Prelude StateFile GoText Domain.

Local Open Scope Z_scope.
Local Open Scope go_scope.

(** ** Decision (evaluate.go) *)

Record Policy := {
  MinimumStuckAge : Duration;
  MinimumUptime : Duration;
  Cooldown : Duration;
  HeartbeatStale : Duration;
}.

Record PendingCreate := { Pending_ID : string; Pending_Age : Duration; CreateAttempt : Z }.
Record ProviderRetry := { Retry_ID : string; OverdueAge : Duration }.
Record AssignedIntent := { Assigned_ID : string; Assigned_Age : Duration }.

Record Observation := {
  ObservedAt : Time;
  ActiveIntents : Z;
  PendingCreates : list PendingCreate;
  OverdueRetries : list ProviderRetry;
  StaleAssigned : list AssignedIntent;
  CapacityBackpressure : bool;
  RecoveryBlockers : list string;
  ManagerUptime : Duration;
  LastRecoveryAt : Time;
  HeartbeatAt : Time;
  RecoveryRunning : bool;
}.

Record Decision := { Decision_Recover : bool; Decision_Reason : string; Decision_Stuck : list string }.

Definition decided (recover : bool) (reason : string) (stuck : list string) : Decision :=
  {| Decision_Recover := recover; Decision_Reason := reason; Decision_Stuck := stuck |}.

Definition stuck_pending (policy : Policy) (pending : PendingCreate) : bool :=
  (CreateAttempt pending =? 0) && (MinimumStuckAge policy <=? Pending_Age pending).
Definition stuck_retry (policy : Policy) (retry : ProviderRetry) : bool := MinimumStuckAge policy <=? OverdueAge retry.
Definition stuck_assigned (policy : Policy) (assigned : AssignedIntent) : bool := MinimumStuckAge policy <=? Assigned_Age assigned.

Definition Evaluate (policy : Policy) (observation : Observation) : Decision :=
  if RecoveryRunning observation then decided false "recovery-already-running" []
  else if ActiveIntents observation =? 0 then decided false "no-admitted-demand" []
  else
    let pending := List.filter (stuck_pending policy) (PendingCreates observation) in
    let retries := List.filter (stuck_retry policy) (OverdueRetries observation) in
    let assigned := List.filter (stuck_assigned policy) (StaleAssigned observation) in
    let stuck := (Pending_ID <$> pending) ++ (Retry_ID <$> retries) ++ (Assigned_ID <$> assigned) in
    let overdueRetry := negb (bool_decide (length retries = 0%nat)) in
    let staleAssigned := negb (bool_decide (length assigned = 0%nat)) in
    if bool_decide (stuck = []) then decided false "no-stale-undispatched-instance" []
    else if negb (bool_decide (RecoveryBlockers observation = [])) then
      decided false ("recovery-blocked:" +:+ Join "," (Compact (sort_strings (RecoveryBlockers observation)))) stuck
    else if negb overdueRetry && negb staleAssigned && negb (IsZero (HeartbeatAt observation))
            && (Sub (ObservedAt observation) (HeartbeatAt observation) <? HeartbeatStale policy) then
      decided false "dispatcher-heartbeat-current" stuck
    else if ManagerUptime observation <? MinimumUptime policy then decided false "manager-startup-grace" stuck
    else if negb (IsZero (LastRecoveryAt observation))
            && (Sub (ObservedAt observation) (LastRecoveryAt observation) <? Cooldown policy) then
      decided false "recovery-cooldown" stuck
    else if staleAssigned && CapacityBackpressure observation && negb overdueRetry then
      decided false "capacity-deferred-assigned" stuck
    else
      let reason := "stale-pending-create-attempt-zero" in
      let reason := if overdueRetry then "stale-provider-retry-past-next-allowed" else reason in
      let reason := if staleAssigned then "stale-assigned-intent-without-instance" else reason in
      decided true reason stuck.

(** ** The observation command (observe.go) *)

Definition NUL : ascii := ascii_of_nat 0.
Definition CR : ascii := ascii_of_nat 13.
Definition LF : ascii := ascii_of_nat 10.

Definition valid_argv (argv : list string) : bool :=
  match argv with
  | [] => false
  | executable :: _ => HasPrefix executable "/" && forallb (λ argument, negb (contains_byte NUL argument)) argv
  end.

Definition CommandObserver_Validate (argv : list string) (timeout : Duration) : result unit :=
  fail_if (timeout <=? 0) (Errorf "observation timeout must be positive" []);;
  fail_if (negb (valid_argv argv)) (Errorf "observation command must use an absolute executable without NUL arguments" []).

(** [output] is the decoded standard output of the command or its failure; the
    decoded uptime is in seconds and there is no heartbeat in it. *)
Definition Observe (argv : list string) (timeout : Duration) (output : result (Observation * Z)) : result Observation :=
  CommandObserver_Validate argv timeout;;
  out ← output;
  let '(o, uptimeSeconds) := out in
  fail_if (existsb (λ b, blank b || (128 <? Z.of_nat (String.length b)) || contains_any [CR; LF; NUL; ","%char] b) (RecoveryBlockers o))
    (Errorf "scheduler observation contains an invalid recovery blocker" []);;
  fail_if (IsZero (ObservedAt o) || (ActiveIntents o <? 0) || (uptimeSeconds <? 0))
    (Errorf "scheduler observation contains invalid values" []);;
  fail_if (existsb (λ p, bool_decide (Pending_ID p = "") || (Pending_Age p <? 0) || (CreateAttempt p <? 0)) (PendingCreates o))
    (Errorf "scheduler observation contains an invalid pending create" []);;
  fail_if (existsb (λ r, bool_decide (Retry_ID r = "") || (OverdueAge r <? 0)) (OverdueRetries o))
    (Errorf "scheduler observation contains an invalid overdue provider retry" []);;
  fail_if (existsb (λ a, bool_decide (Assigned_ID a = "") || (Assigned_Age a <? 0)) (StaleAssigned o))
    (Errorf "scheduler observation contains an invalid stale assigned intent" []);;
  Ok {| ObservedAt := ObservedAt o; ActiveIntents := ActiveIntents o; PendingCreates := PendingCreates o;
        OverdueRetries := OverdueRetries o; StaleAssigned := StaleAssigned o; CapacityBackpressure := CapacityBackpressure o;
        RecoveryBlockers := RecoveryBlockers o; ManagerUptime := seconds uptimeSeconds; LastRecoveryAt := LastRecoveryAt o;
        HeartbeatAt := zero_time; RecoveryRunning := RecoveryRunning o |}.

(** ** Progress (progress_contract.go) *)

Definition valid_identity (id : string) : bool := negb (blank id || contains_any [","%char; NUL; CR; LF] id).

Definition expect (want : gmap string bool) (id : string) : result (gmap string bool) :=
  fail_if (negb (valid_identity id)) (Errorf "invalid recovery identity" []);;
  fail_if (bool_decide (is_Some (want !! id))) (Errorf "duplicate expected recovery identity" []);;
  Ok (<[id := false]> want).

Definition see (want : gmap string bool) (id : string) : result (gmap string bool) :=
  match want !! id with
  | Some false => Ok (<[id := true]> want)
  | _ => Err (Errorf "progress contains an unexpected or repeated identity" [])
  end.

Definition validateProgress (expected progressed remaining : list string) : result unit :=
  fail_if (bool_decide (expected = [])) (Errorf "recovery progress requires expected identities" []);;
  want ← foldM expect expected ∅;
  want ← foldM (λ want group, foldM see group want) [progressed; remaining] want;
  fail_if (negb (forallb snd (map_to_list want))) (Errorf "progress omits an expected recovery identity" []).

(** ** Commands (command.go) *)

Record CommandConfig := {
  Config_Checkpoint : list string;
  Config_Restart : list string;
  Config_Progress : list string;
  Config_Timeout : Duration;
}.

Definition CommandExecutor_Validate (c : CommandConfig) : result unit :=
  fail_if (Config_Timeout c <=? 0) (Errorf "command timeout must be positive" []);;
  fail_if (negb (forallb valid_argv [Config_Checkpoint c; Config_Restart c; Config_Progress c]))
    (Errorf "%s command must use an absolute executable without NUL arguments" []).

(** The outputs of the commands are arguments. *)
Definition CommandExecutor_Checkpoint (c : CommandConfig) (output : result string) : result string :=
  CommandExecutor_Validate c;;
  out ← output;
  let checkpoint := TrimSpace out in
  fail_if (bool_decide (checkpoint = "") || contains_any [CR; LF] checkpoint)
    (Errorf "checkpoint command returned an invalid identity" []);;
  Ok checkpoint.

Definition CommandExecutor_AwaitProgress (c : CommandConfig) (stuck : list string) (output : result (list string * list string))
    : result (list string * list string) :=
  CommandExecutor_Validate c;;
  out ← output;
  validateProgress stuck out.1 out.2;;
  Ok out.

(** ** Attempts and results (recover.go) *)

Record Attempt := { Attempt_ID : string; StartedAt : Time; Attempt_Stuck : list string }.

Record Result := {
  AttemptID : string;
  Suppressed : bool;
  Checkpoint : string;
  Progressed : list string;
  Remaining : list string;
  Recovered : bool;
  FinishedAt : Time;
  Result_Error : option error;
}.

Definition zero_Result : Result := {|
  AttemptID := ""; Suppressed := false; Checkpoint := ""; Progressed := []; Remaining := []; Recovered := false;
  FinishedAt := zero_time; Result_Error := None |}.

Definition maxIncidentRecoveryAttempts : Z := 1 + 2.

Definition subjectSetsOverlap (left : list string) (right : gset string) : bool := existsb (λ id, bool_decide (id ∈ right)) left.
Definition incidentSubjects (r : Result) : list string := Progressed r ++ Remaining r.

Definition incidentRecoveryAttempts (history : list Result) (stuck : list string) : Z :=
  if bool_decide (stuck = []) then 0
  else
    let current := list_to_set stuck in
    fold_left (λ count r,
      if Suppressed r || negb (subjectSetsOverlap (incidentSubjects r) current) then count
      else if Recovered r then 0 else count ⊕ 1) history 0.

Definition NewAttempt (observedAt : Time) (stuck : list string) : Attempt :=
  let ordered := sort_strings stuck in
  let nul := String NUL EmptyString in
  {| Attempt_ID := Sha256.hex_sum (RFC3339Nano observedAt +:+ nul +:+ Join nul ordered);
     StartedAt := observedAt; Attempt_Stuck := ordered |}.

(** ** The state file (store.go) *)

Definition historyLimit : nat := 64.

Record Heartbeat := { Heartbeat_At : Time; Heartbeat_Progress : string }.

Record fileState := {
  SchemaVersion : Z;
  State_Heartbeat : Heartbeat;
  Active : gmap string Attempt;
  Finished : list Result;
}.

Definition empty_state : fileState := {|
  SchemaVersion := 1; State_Heartbeat := {| Heartbeat_At := zero_time; Heartbeat_Progress := "" |};
  Active := ∅; Finished := [] |}.

(** A decoded document and whether its map of active attempts is there. *)
Definition readFileState (file : StateFile (fileState * bool)) : result fileState :=
  match file with
  | Absent => Ok empty_state
  | Present (Err e) => Err (Wrapf "read or decode recovery state: %w" [] e)
  | Present (Ok (s, has_active)) =>
      fail_if (negb (SchemaVersion s =? 1) || negb has_active) (Errorf "unsupported recovery state" []);; Ok s
  end.

(** [locked] writes the state back after every successful update. *)
Definition locked {A} (a : Access) (update : fileState → result (fileState * A)) (file : StateFile (fileState * bool))
    : StateFile (fileState * bool) * result A :=
  match (access_lock a;; s ← readFileState file; update s) with
  | Err e => (file, Err e)
  | Ok (s, x) => let '(file', w) := publish (access_write a) file (Present (Ok (s, true))) in (file', w;; Ok x)
  end.

Definition set_heartbeat (h : Heartbeat) (s : fileState) : fileState :=
  {| SchemaVersion := SchemaVersion s; State_Heartbeat := h; Active := Active s; Finished := Finished s |}.
Definition set_active (m : gmap string Attempt) (s : fileState) : fileState :=
  {| SchemaVersion := SchemaVersion s; State_Heartbeat := State_Heartbeat s; Active := m; Finished := Finished s |}.
Definition set_finished (xs : list Result) (s : fileState) : fileState :=
  {| SchemaVersion := SchemaVersion s; State_Heartbeat := State_Heartbeat s; Active := Active s; Finished := xs |}.

Definition RecordHeartbeat (a : Access) (h : Heartbeat) (file : StateFile (fileState * bool))
    : StateFile (fileState * bool) * result unit :=
  if IsZero (Heartbeat_At h) || bool_decide (Heartbeat_Progress h = "")
  then (file, Err (Errorf "heartbeat time and progress identity are required" []))
  else locked a (λ s,
    let old := State_Heartbeat s in
    if bool_decide (Heartbeat_Progress h = Heartbeat_Progress old) then Ok (s, tt)
    else
      fail_if (negb (IsZero (Heartbeat_At old)) && Before (Heartbeat_At h) (Heartbeat_At old))
        (Errorf "heartbeat time moved backwards" []);;
      Ok (set_heartbeat h s, tt)) file.

Definition ReadHeartbeat (a : Access) : StateFile (fileState * bool) → StateFile (fileState * bool) * result Heartbeat :=
  locked a (λ s, Ok (s, State_Heartbeat s)).

Definition Begin (a : Access) (attempt : Attempt) : StateFile (fileState * bool) → StateFile (fileState * bool) * result bool :=
  locked a (λ s,
    if negb (bool_decide (Active s = ∅)) then Ok (s, false)
    else if existsb (λ r, bool_decide (AttemptID r = Attempt_ID attempt)) (Finished s) then Ok (s, false)
    else Ok (set_active (<[Attempt_ID attempt := attempt]> (Active s)) s, true)).

Definition started_before (left right : Attempt) : bool := StartedAt left <? StartedAt right.

Definition ActiveAttempts (a : Access) : StateFile (fileState * bool) → StateFile (fileState * bool) * result (list Attempt) :=
  locked a (λ s, Ok (s, sort_slice started_before (snd <$> map_to_list (Active s)))).

Definition keep_last (xs : list Result) : list Result := drop (length xs - historyLimit) xs.

Definition Finish (a : Access) (r : Result) : StateFile (fileState * bool) → StateFile (fileState * bool) * result unit :=
  locked a (λ s,
    match Active s !! AttemptID r with
    | None => Err (Errorf "attempt %s is not active" [AttemptID r])
    | Some _ => Ok (set_finished (keep_last (Finished s ++ [r])) (set_active (delete (AttemptID r) (Active s)) s), tt)
    end).

Definition History (a : Access) : StateFile (fileState * bool) → StateFile (fileState * bool) * result (list Result) :=
  locked a (λ s, Ok (s, Finished s)).

(** ** Effects

    The executor's commands and the events, in the order they happen, together
    with the state file. *)

Record Event := {
  Event_State : string;
  Event_Reason : string;
  Event_AttemptID : string;
  Event_Stuck : list string;
  Event_Error : option error;
}.

Inductive Effect :=
  | CheckpointCall (attempt : Attempt)
  | RestartCall (attempt : Attempt)
  | ProgressCall (attempt : Attempt)
  | Emitted (event : Event).

Definition World : Type := StateFile (fileState * bool) * list Effect.
Definition M (A : Type) : Type := World → World * A.

#[export] Instance M_ret : MRet M := λ A a w, (w, a).
#[export] Instance M_bind : MBind M := λ A B f m w, let '(w', a) := m w in f a w'.

Definition on_store {A} (op : StateFile (fileState * bool) → StateFile (fileState * bool) * result A) : M (result A) :=
  λ w, let '(file, x) := op w.1 in ((file, w.2), x).
Definition perform {A} (e : Effect) (answer : result A) : M (result A) := λ w, ((w.1, w.2 ++ [e]), answer).

(** What the environment answers during one tick: how each access to the state
    file goes, the observation, the commands and the event sink. *)
Record TickEnv := {
  active_access : Access;
  heartbeat_access : Access;
  history_access : Access;
  begin_access : Access;
  finish_access : Access;
  observe : result Observation;
  checkpoint : result string;
  restart : result unit;
  progress : result (list string * list string);
  now_finish : Time;
  emit_first : result unit;
  emit_recovering : result unit;
  emit_terminal : result unit;
}.

(** [AwaitProgress] followed by the check of the partition. *)
Definition await_validated (env : TickEnv) (attempt : Attempt) : M (result (list string * list string)) :=
  p ← perform (ProgressCall attempt) (progress env);
  mret (pr ← p; validateProgress (Attempt_Stuck attempt) pr.1 pr.2;; Ok pr).

Definition error_of (r : result unit) : option error := match r with Ok _ => None | Err e => Some e end.

Definition resumeAcquired (env : TickEnv) (attempt : Attempt) : M (Result * result unit) :=
  p ← await_validated env attempt;
  let finish r operation :=
    f ← on_store (Finish (finish_access env) r);
    mret (r, wrap_err "finish resumed recovery attempt: %w" f;; operation) in
  match p with
  | Err e =>
      let e := Wrapf "verify resumed recovery progress: %w" [] e in
      finish {| AttemptID := Attempt_ID attempt; Suppressed := false; Checkpoint := ""; Progressed := [];
                Remaining := Attempt_Stuck attempt; Recovered := false; FinishedAt := now_finish env; Result_Error := Some e |}
        (Err e)
  | Ok (progressed, remaining) =>
      if bool_decide (remaining = []) then
        finish {| AttemptID := Attempt_ID attempt; Suppressed := false; Checkpoint := ""; Progressed := progressed;
                  Remaining := []; Recovered := true; FinishedAt := now_finish env; Result_Error := None |} (Ok tt)
      else
        finish {| AttemptID := Attempt_ID attempt; Suppressed := false; Checkpoint := ""; Progressed := progressed;
                  Remaining := remaining; Recovered := false; FinishedAt := now_finish env;
                  Result_Error := Some (Errorf "resumed recovery incomplete: fresh evaluation required" []) |}
          (Err (Errorf "resumed recovery incomplete: %d identities remain" [pretty (Z.of_nat (length remaining))]))
  end.

Definition recoverAcquired (env : TickEnv) (attempt : Attempt) : M (Result * result unit) :=
  let finish cp progressed remaining recovered operation :=
    let r := {| AttemptID := Attempt_ID attempt; Suppressed := false; Checkpoint := cp; Progressed := progressed;
                Remaining := remaining; Recovered := recovered; FinishedAt := now_finish env;
                Result_Error := error_of operation |} in
    f ← on_store (Finish (finish_access env) r);
    mret (r, wrap_err "finish recovery attempt: %w" f;; operation) in
  c ← perform (CheckpointCall attempt) (checkpoint env);
  match c with
  | Err e => finish "" [] (Attempt_Stuck attempt) false (Err (Wrapf "checkpoint scheduler state: %w" [] e))
  | Ok cp =>
      d ← perform (RestartCall attempt) (restart env);
      match d with
      | Err e => finish cp [] (Attempt_Stuck attempt) false (Err (Wrapf "restart dispatcher: %w" [] e))
      | Ok _ =>
          p ← await_validated env attempt;
          match p with
          | Err e => finish cp [] (Attempt_Stuck attempt) false (Err (Wrapf "verify dispatcher progress: %w" [] e))
          | Ok (progressed, remaining) =>
              if bool_decide (remaining = []) then finish cp progressed remaining true (Ok tt)
              else finish cp progressed remaining false
                (Err (Errorf "recovery incomplete: %d stuck instances remain" [pretty (Z.of_nat (length remaining))]))
          end
      end
  end.

Definition suppressed (attempt : Attempt) : Result := {|
  AttemptID := Attempt_ID attempt; Suppressed := true; Checkpoint := ""; Progressed := []; Remaining := []; Recovered := false;
  FinishedAt := zero_time; Result_Error := None |}.

Definition Recover (env : TickEnv) (observedAt : Time) (decision : Decision) : M (Result * result unit) :=
  if negb (Decision_Recover decision) then
    mret (zero_Result, Err (Errorf "recovery refused: %s" [Decision_Reason decision]))
  else
    match validateProgress (Decision_Stuck decision) [] (Decision_Stuck decision) with
    | Err e => mret (zero_Result, Err (Wrapf "invalid recovery identities: %w" [] e))
    | Ok _ =>
        h ← on_store (History (history_access env));
        match h with
        | Err e => mret (zero_Result, Err (Wrapf "read recovery history: %w" [] e))
        | Ok history =>
            if maxIncidentRecoveryAttempts <=? incidentRecoveryAttempts history (Decision_Stuck decision)
            then mret (zero_Result, Err (Errorf "recovery refused: recovery-retry-budget-exhausted" []))
            else
              let attempt := NewAttempt observedAt (Decision_Stuck decision) in
              b ← on_store (Begin (begin_access env) attempt);
              match b with
              | Err e => mret (zero_Result, Err (Wrapf "begin recovery attempt: %w" [] e))
              | Ok false => mret (suppressed attempt, Ok tt)
              | Ok true => recoverAcquired env attempt
              end
        end
    end.

(** ** The controller (controller.go) *)

Definition no_decision : Decision := decided false "" [].

Definition event (state reason id : string) (stuck : list string) (e : option error) : Event :=
  {| Event_State := state; Event_Reason := reason; Event_AttemptID := id; Event_Stuck := stuck; Event_Error := e |}.

Definition emit (e : Event) (answer : result unit) : M (result unit) :=
  r ← perform (Emitted e) answer; mret (wrap_err "emit scheduler recovery event: %w" r).

(** The event that ends a recovery, and what the tick returns after it; [lost] is
    the decision it returns when the event cannot be emitted. *)
Definition conclude (env : TickEnv) (d lost : Decision) (reason id : string) (ro : Result * result unit)
    : M (Decision * Result * result unit) :=
  let '(r, operation) := ro in
  t ← emit (event (if is_Ok operation then "recovered" else "failed") reason id (Remaining r) (error_of operation)) (emit_terminal env);
  match t with
  | Err e => mret (lost, r, Err e)
  | Ok _ => mret (d, r, operation)
  end.

Definition set_observed_heartbeat (h : Time) (o : Observation) : Observation := {|
  ObservedAt := ObservedAt o; ActiveIntents := ActiveIntents o; PendingCreates := PendingCreates o;
  OverdueRetries := OverdueRetries o; StaleAssigned := StaleAssigned o; CapacityBackpressure := CapacityBackpressure o;
  RecoveryBlockers := RecoveryBlockers o; ManagerUptime := ManagerUptime o; LastRecoveryAt := LastRecoveryAt o;
  HeartbeatAt := h; RecoveryRunning := RecoveryRunning o |}.

(** The restart budget turns a decision to recover into a refusal. *)
Definition budgeted (env : TickEnv) (d : Decision) : M (result Decision) :=
  if Decision_Recover d then
    h ← on_store (History (history_access env));
    mret (history ← wrap_err "read recovery history: %w" h;
          Ok (if maxIncidentRecoveryAttempts <=? incidentRecoveryAttempts history (Decision_Stuck d)
              then decided false "recovery-retry-budget-exhausted" (Decision_Stuck d) else d))
  else mret (Ok d).

Definition begin_recovery (env : TickEnv) (o : Observation) (d : Decision) : M (Decision * Result * result unit) :=
  match validateProgress (Decision_Stuck d) [] (Decision_Stuck d) with
  | Err e => mret (d, zero_Result, Err (Wrapf "invalid recovery identities: %w" [] e))
  | Ok _ =>
      let attempt := NewAttempt (ObservedAt o) (Decision_Stuck d) in
      b ← on_store (Begin (begin_access env) attempt);
      match b with
      | Err e => mret (d, zero_Result, Err (Wrapf "begin recovery attempt: %w" [] e))
      | Ok false =>
          t ← emit (event "unhealthy" "duplicate-recovery-suppressed" (Attempt_ID attempt) (Attempt_Stuck attempt) None) (emit_recovering env);
          mret (d, suppressed attempt, t)
      | Ok true =>
          t ← emit (event "recovering" (Decision_Reason d) (Attempt_ID attempt) (Attempt_Stuck attempt) None) (emit_recovering env);
          match t with
          | Err e => mret (d, zero_Result, Err e)
          | Ok _ => ro ← recoverAcquired env attempt; conclude env d d (Decision_Reason d) (Attempt_ID attempt) ro
          end
      end
  end.

Definition Tick (policy : Policy) (env : TickEnv) : M (Decision * Result * result unit) :=
  a ← on_store (ActiveAttempts (active_access env));
  match a with
  | Err e => mret (no_decision, zero_Result, Err (Wrapf "read active recovery attempt: %w" [] e))
  | Ok (_ :: _ :: _) =>
      mret (no_decision, zero_Result, Err (Errorf "multiple active recovery attempts require deterministic repair" []))
  | Ok [attempt] =>
      let reason := "resume-interrupted-recovery" in
      t ← emit (event "recovering" reason (Attempt_ID attempt) (Attempt_Stuck attempt) None) (emit_first env);
      match t with
      | Err e => mret (no_decision, zero_Result, Err e)
      | Ok _ =>
          ro ← resumeAcquired env attempt;
          conclude env (decided false reason (Attempt_Stuck attempt)) no_decision reason (Attempt_ID attempt) ro
      end
  | Ok [] =>
      match observe env with
      | Err e => mret (no_decision, zero_Result, Err (Wrapf "observe scheduler: %w" [] e))
      | Ok o =>
          h ← on_store (ReadHeartbeat (heartbeat_access env));
          match h with
          | Err e => mret (no_decision, zero_Result, Err (Wrapf "read dispatcher heartbeat: %w" [] e))
          | Ok heartbeat =>
              let o := set_observed_heartbeat (Heartbeat_At heartbeat) o in
              let d0 := Evaluate policy o in
              b ← budgeted env d0;
              match b with
              | Err e => mret (d0, zero_Result, Err e)
              | Ok d =>
                  let state := if Decision_Recover d || negb (bool_decide (Decision_Stuck d = [])) then "unhealthy" else "healthy" in
                  t ← emit (event state (Decision_Reason d) "" (Decision_Stuck d) None) (emit_first env);
                  match t with
                  | Err e => mret (d, zero_Result, Err e)
                  | Ok _ =>
                      if negb (Decision_Recover d) then mret (d, zero_Result, Ok tt) else begin_recovery env o d
                  end
              end
          end
      end
  end.

(** Consecutive ticks. *)
Fixpoint ticks (policy : Policy) (envs : list TickEnv) (w : World) : World :=
  match envs with
  | [] => w
  | env :: envs => ticks policy envs (Tick policy env w).1
  end.
