(* ===== verification/SchedulerRecoveryFacts.v ===== *)
(** * Recovery of a stuck scheduler: its promises *)

From S2P Require Import Prelude StateFile GoText Domain SchedulerRecovery.

Local Open Scope Z_scope.
Local Open Scope go_scope.

(** ** The partition check *)

Lemma expect_all ids m m' :
  foldM expect ids m = Ok m' ↔
  Forall (λ id, valid_identity id = true) ids ∧ NoDup ids ∧ (∀ id, id ∈ ids → m !! id = None) ∧
  (∀ k, m' !! k = if decide (k ∈ ids) then Some false else m !! k).
Proof.
  revert m; induction ids as [|id ids IH]; intros m; cbn [foldM].
  { split.
    - intros [= <-]. split_and!; [by apply Forall_nil|by apply NoDup_nil|set_solver|]. intros k. rewrite decide_False by set_solver. done.
    - intros (_ & _ & _ & H). f_equal. apply map_eq. intros k. rewrite H, decide_False by set_solver. done. }
  rewrite bind_Ok. unfold expect at 1. split.
  - intros (m1 & H1 & H2). apply bind_Ok in H1 as ([] & Hv & H1). apply bind_Ok in H1 as ([] & Hd & [= <-]).
    apply fail_if_Ok, negb_false_iff in Hv. apply fail_if_Ok, bool_decide_eq_false, eq_None_not_Some in Hd.
    apply IH in H2 as (Hall & Hnd & Hn & Hk). split_and!; [by constructor| | |].
    + constructor; [|done]. intros Hin. specialize (Hn id Hin). by rewrite lookup_insert_eq in Hn.
    + intros i [->|Hi]%elem_of_cons; [done|]. specialize (Hn i Hi). by apply lookup_insert_None in Hn as [? _].
    + intros k. rewrite Hk. destruct (decide (k ∈ ids)) as [Hi|Hi]; [by rewrite decide_True by set_solver|].
      destruct (decide (k = id)) as [->|Hne]; [by rewrite lookup_insert_eq, decide_True by set_solver|].
      rewrite lookup_insert_ne by done. by rewrite decide_False by set_solver.
  - intros ([Hv Hall]%Forall_cons & [Hni Hnd]%NoDup_cons & Hn & Hk). exists (<[id := false]> m). split.
    + rewrite Hv, Hn by set_solver. done.
    + apply IH. split_and!; try done.
      * intros i Hi. apply lookup_insert_None. split; [apply Hn; set_solver|]. by intros ->.
      * intros k. rewrite Hk. destruct (decide (k ∈ ids)) as [Hi|Hi]; [by rewrite decide_True by set_solver|].
        destruct (decide (k = id)) as [->|Hne]; [by rewrite lookup_insert_eq, decide_True by set_solver|].
        rewrite lookup_insert_ne by done. by rewrite decide_False by set_solver.
Qed.

Lemma see_all ids m m' :
  foldM see ids m = Ok m' ↔
  NoDup ids ∧ (∀ id, id ∈ ids → m !! id = Some false) ∧ (∀ k, m' !! k = if decide (k ∈ ids) then Some true else m !! k).
Proof.
  revert m; induction ids as [|id ids IH]; intros m; cbn [foldM].
  { split.
    - intros [= <-]. split_and!; [by apply NoDup_nil|set_solver|]. intros k. rewrite decide_False by set_solver. done.
    - intros (_ & _ & H). f_equal. apply map_eq. intros k. rewrite H, decide_False by set_solver. done. }
  assert (∀ k, (if decide (k ∈ ids) then Some true else <[id := true]> m !! k) =
    if decide (k ∈ id :: ids) then Some true else m !! k) as Hshift.
  { intros k. destruct (decide (k ∈ ids)) as [Hi|Hi]; [by rewrite decide_True by set_solver|].
    destruct (decide (k = id)) as [->|Hne]; [by rewrite lookup_insert_eq, decide_True by set_solver|].
    rewrite lookup_insert_ne by done. by rewrite decide_False by set_solver. }
  rewrite bind_Ok. unfold see at 1. split.
  - intros (m1 & H1 & H2). destruct (m !! id) as [[]|] eqn:Hm; try done. apply Ok_inj in H1 as <-.
    apply IH in H2 as (Hnd & Hn & Hk). split_and!.
    + constructor; [|done]. intros Hin. specialize (Hn id Hin). by rewrite lookup_insert_eq in Hn.
    + intros i [->|Hi]%elem_of_cons; [done|]. specialize (Hn i Hi). apply lookup_insert_Some in Hn as [[_ ?]|[_ ?]]; done.
    + intros k. by rewrite Hk, Hshift.
  - intros ([Hni Hnd]%NoDup_cons & Hn & Hk). rewrite Hn by set_solver. eexists. split; [done|].
    apply IH. split_and!; [done| |].
    + intros i Hi. rewrite lookup_insert_ne by (by intros ->). apply Hn; set_solver.
    + intros k. by rewrite Hk, Hshift.
Qed.

(** The declarative meaning of a valid progress report. *)
Record partition_of (expected progressed remaining : list string) : Prop := {
  partition_nonempty : expected ≠ [];
  partition_identities : Forall (λ id, valid_identity id = true) expected;
  partition_distinct : NoDup expected;
  partition_complete : progressed ++ remaining ≡ₚ expected;
}.

Lemma validateProgress_spec expected progressed remaining :
  validateProgress expected progressed remaining = Ok tt ↔ partition_of expected progressed remaining.
Proof.
  unfold validateProgress.
  assert (∀ m, foldM (λ want group, foldM see group want) [progressed; remaining] m = foldM see (progressed ++ remaining) m) as Hgroups.
  { intros m. rewrite foldM_app. simpl. destruct (foldM see progressed m) as [m1|]; simpl; [|done]. by destruct (foldM see remaining m1). }
  split.
  - intros H. apply bind_Ok in H as ([] & Hne & H). apply bind_Ok in H as (m1 & H1 & H). rewrite Hgroups in H.
    apply bind_Ok in H as (m2 & H2 & H3). apply fail_if_Ok, bool_decide_eq_false in Hne.
    apply fail_if_Ok, negb_false_iff in H3. rewrite forallb_forall in H3.
    apply expect_all in H1 as (Hv & Hnd & _ & Hk1). apply see_all in H2 as (Hnd2 & Hsub & Hk2).
    split; try done. apply NoDup_Permutation; [done|done|]. intros id. split.
    + intros Hi. specialize (Hsub id Hi). rewrite Hk1 in Hsub. by destruct (decide (id ∈ expected)).
    + intros Hi. destruct (decide (id ∈ progressed ++ remaining)) as [|Hn]; [done|]. exfalso.
      specialize (Hk2 id). rewrite decide_False in Hk2 by done. rewrite Hk1, decide_True in Hk2 by done.
      specialize (H3 (id, false)). simpl in H3. discriminate H3. by apply list_elem_of_In, elem_of_map_to_list.
  - intros [Hne Hv Hnd Hp]. rewrite bool_decide_eq_false_2 by done.
    assert (∃ m1, foldM expect expected ∅ = Ok m1) as [m1 H1].
    { assert (∀ k, (gset_to_gmap false (list_to_set expected) : gmap string bool) !! k =
        if decide (k ∈ expected) then Some false else (∅ : gmap string bool) !! k) as Hmap.
      { intros k. rewrite lookup_gset_to_gmap. case_decide as Hd.
        - by rewrite option_guard_True by set_solver.
        - by rewrite option_guard_False by set_solver. }
      eexists. apply expect_all. split_and!; [done|done|by intros; rewrite lookup_empty|]. exact Hmap. }
    rewrite H1. cbn [mbind result_bind fail_if]. rewrite Hgroups. apply expect_all in H1 as (_ & _ & _ & Hk1).
    assert (∀ k, (gset_to_gmap true (list_to_set expected) : gmap string bool) !! k =
      if decide (k ∈ progressed ++ remaining) then Some true else m1 !! k) as Hmap.
    { intros k. rewrite lookup_gset_to_gmap, Hk1. rewrite (decide_ext _ (k ∈ expected)) by (by rewrite Hp). case_decide as Hd.
      - by rewrite option_guard_True by set_solver.
      - by rewrite option_guard_False by set_solver. }
    assert (foldM see (progressed ++ remaining) m1 = Ok (gset_to_gmap true (list_to_set expected))) as ->.
    { apply see_all. split_and!; [by rewrite Hp| |done]. intros id Hid. rewrite Hp in Hid. by rewrite Hk1, decide_True. }
    cbn [mbind result_bind]. apply fail_if_Ok, negb_false_iff, forallb_forall. intros [k v] Hin.
    apply list_elem_of_In, elem_of_map_to_list, lookup_gset_to_gmap_Some in Hin as [_ <-]. done.
Qed.

Lemma partition_start stuck : validateProgress stuck [] stuck = Ok tt →
  stuck ≠ [] ∧ NoDup stuck ∧ Forall (λ id, valid_identity id = true) stuck.
Proof. by intros [? ? ? _]%validateProgress_spec. Qed.

(** ** The state file *)

Abbreviation File := (StateFile (fileState * bool)) (only parsing).

Definition reads (file : File) (s : fileState) : Prop := readFileState file = Ok s.

Lemma reads_schema file s : reads file s → SchemaVersion s = 1.
Proof.
  unfold reads. destruct file as [|[[s' b]|e]]; simpl; [by intros [= <-]| |done].
  rewrite fail_if_Ok_bind. case_match; [done|]. intros [= <-]. bool_hyps. lia.
Qed.

Lemma reads_written s : SchemaVersion s = 1 → reads (Present (Ok (s, true))) s.
Proof. unfold reads. simpl. by intros ->. Qed.

(** An access either fails and leaves the state, or applies the update; a failed
    synchronisation may still have applied it. *)
Lemma attempt_locked_spec {A} a (f : fileState → result (fileState * A)) file file' res s :
  locked a f file = (file', res) → reads file s → (∀ s' x, f s = Ok (s', x) → SchemaVersion s' = 1) →
  reads file' s ∧ (∃ e, res = Err e) ∨
  ∃ s' x, f s = Ok (s', x) ∧ reads file' s' ∧ (res = Ok x ∨ ∃ e, res = Err e).
Proof.
  intros Hl Hs Hf. unfold locked in Hl. rewrite Hs in Hl.
  destruct (access_lock a) as [[]|e]; simpl in Hl; [|simplify_eq; left; eauto].
  destruct (f s) as [[s' x]|e] eqn:Hfs; simpl in Hl; [|simplify_eq; left; eauto].
  specialize (Hf s' x eq_refl). destruct (publish _ _ _) as [g w] eqn:Hp. apply publish_cases in Hp as [Hg Hw]. simplify_eq.
  destruct w as [[]|e]; simpl.
  - right. exists s', x. rewrite (Hw eq_refl). split_and!; [done|by apply reads_written|by left].
  - destruct Hg as [->| ->]; [left; eauto|]. right. exists s', x. split_and!; [done|by apply reads_written|right; eauto].
Qed.

Lemma locked_unreadable {A} a (f : fileState → result (fileState * A)) file file' x :
  locked a f file = (file', Ok x) → ∃ s, reads file s.
Proof.
  unfold locked, reads. destruct (access_lock a) as [[]|]; simpl; [|done].
  destruct (readFileState file) as [s|]; simpl; [eauto|done].
Qed.

(** An operation that only reads leaves the state. *)
Lemma locked_read {A} a (g : fileState → A) file file' res s :
  locked a (λ s, Ok (s, g s)) file = (file', res) → reads file s →
  reads file' s ∧ (res = Ok (g s) ∨ ∃ e, res = Err e).
Proof.
  intros Hl Hs. eapply attempt_locked_spec in Hl; [|done|].
  - destruct Hl as [[? ?]|(s' & x & [= <- <-] & ? & ?)]; auto.
  - intros s' x [= <- <-]. by eapply reads_schema.
Qed.

Definition begun (attempt : Attempt) (s : fileState) : fileState :=
  set_active (<[Attempt_ID attempt := attempt]> (Active s)) s.
Definition finish_state (r : Result) (s : fileState) : fileState :=
  set_finished (keep_last (Finished s ++ [r])) (set_active (delete (AttemptID r) (Active s)) s).

Lemma attempt_Begin_spec a attempt file file' res s :
  Begin a attempt file = (file', res) → reads file s →
  reads file' s ∧ res ≠ Ok true ∨
  reads file' (begun attempt s) ∧ Active s = ∅ ∧ (∀ r, r ∈ Finished s → AttemptID r ≠ Attempt_ID attempt) ∧
    (res = Ok true ∨ ∃ e, res = Err e).
Proof.
  intros Hl Hs. pose proof (reads_schema _ _ Hs) as Hv. eapply attempt_locked_spec in Hl; [|done|]; cycle 1.
  { intros s' x. repeat case_match; by intros [= <- <-]. }
  destruct Hl as [[? [e ->]]|(s' & x & Hf & Hr & Hx)]; [left; by split|].
  case_bool_decide as Ha; simpl in Hf.
  - destruct (existsb _ _) eqn:Hex; apply Ok_inj in Hf; simplify_eq.
    + left. split; [done|]. destruct Hx as [->|[e ->]]; done.
    + right. split_and!; try done. intros r Hr' Heq. apply not_true_iff_false in Hex. apply Hex, existsb_exists.
      exists r. split; [by apply list_elem_of_In|]. by apply bool_decide_eq_true_2.
  - apply Ok_inj in Hf. simplify_eq. left. split; [done|]. destruct Hx as [->|[e ->]]; done.
Qed.

Lemma attempt_Finish_spec a r file file' res s :
  Finish a r file = (file', res) → reads file s →
  reads file' s ∧ (∃ e, res = Err e) ∨ reads file' (finish_state r s) ∧ is_Some (Active s !! AttemptID r).
Proof.
  intros Hl Hs. pose proof (reads_schema _ _ Hs) as Hv. eapply attempt_locked_spec in Hl; [|done|]; cycle 1.
  { intros s' x. case_match; [|done]. by intros [= <- <-]. }
  destruct Hl as [?|(s' & x & Hf & Hr & _)]; [by left|]. right.
  destruct (Active s !! _); [|done]. apply Ok_inj in Hf. simplify_eq. by split.
Qed.

(** ** A tick as a step of the stored state *)

Definition restarts (es : list Effect) : nat := length (List.filter (λ e, match e with RestartCall _ => true | _ => false end) es).

Lemma restarts_app es es' : restarts (es ++ es') = (restarts es + restarts es')%nat.
Proof. unfold restarts. by rewrite List.filter_app, length_app. Qed.

(** The result of an attempt accounts for exactly its identities; it counts as
    recovered only when the progress command reported nothing remaining. *)
Record result_of (env : TickEnv) (attempt : Attempt) (r : Result) : Prop := {
  result_id : AttemptID r = Attempt_ID attempt;
  result_counted : Suppressed r = false;
  result_subjects : incidentSubjects r ≡ₚ Attempt_Stuck attempt;
  result_recovered : Recovered r = true → ∃ progressed, progress env = Ok (progressed, []);
}.

(** The decision of a tick that found no active attempt. *)
Definition tick_decision (policy : Policy) (o : Observation) (s : fileState) : Decision :=
  Evaluate policy (set_observed_heartbeat (Heartbeat_At (State_Heartbeat s)) o).

(** A new attempt may begin. *)
Definition may_begin (policy : Policy) (env : TickEnv) (s : fileState) (attempt : Attempt) : Prop :=
  Active s = ∅ ∧ (∀ r, r ∈ Finished s → AttemptID r ≠ Attempt_ID attempt) ∧
  ∃ o, observe env = Ok o ∧
    let d := tick_decision policy o s in
    Decision_Recover d = true ∧ attempt = NewAttempt (ObservedAt o) (Decision_Stuck d) ∧
    validateProgress (Decision_Stuck d) [] (Decision_Stuck d) = Ok tt ∧
    incidentRecoveryAttempts (Finished s) (Decision_Stuck d) < maxIncidentRecoveryAttempts.

(** What a tick does to the stored state, and the commands it runs. *)
Inductive tick_step (policy : Policy) (env : TickEnv) (s : fileState) : fileState → list Effect → Prop :=
  | step_none es : restarts es = 0%nat → tick_step policy env s s es
  | step_resume attempt r es :
      snd <$> map_to_list (Active s) = [attempt] → result_of env attempt r → restarts es = 0%nat →
      is_Some (Active s !! Attempt_ID attempt) →
      tick_step policy env s (finish_state r s) es
  | step_begin attempt es : may_begin policy env s attempt → restarts es = 0%nat → tick_step policy env s (begun attempt s) es
  | step_recover attempt r es (stored : bool) :
      may_begin policy env s attempt → result_of env attempt r →
      restarts es = 0%nat ∨
        (∃ es1 es2, es = es1 ++ [CheckpointCall attempt; RestartCall attempt] ++ es2 ∧
           restarts es1 = 0%nat ∧ restarts es2 = 0%nat) ∧ is_Ok (checkpoint env) = true →
      tick_step policy env s (if stored then finish_state r (begun attempt s) else begun attempt s) es.

Lemma M_bind_eq {A B} (m : M A) (f : A → M B) w : (m ≫= f) w = let '(w', a) := m w in f a w'.
Proof. done. Qed.
Lemma on_store_eq {A} (op : File → File * result A) file tr :
  on_store op (file, tr) = let '(file', x) := op file in ((file', tr), x).
Proof. done. Qed.
Lemma perform_eq {A} e (answer : result A) file tr : perform e answer (file, tr) = ((file, tr ++ [e]), answer).
Proof. done. Qed.
Lemma emit_eq e answer file tr : emit e answer (file, tr) = ((file, tr ++ [Emitted e]), wrap_err "emit scheduler recovery event: %w" answer).
Proof. done. Qed.
Lemma M_ret_eq {A} (a : A) w : (mret a : M A) w = (w, a).
Proof. done. Qed.

Create Rewrite HintDb go_monad.
#[export] Hint Rewrite @M_bind_eq @on_store_eq @perform_eq emit_eq @M_ret_eq : go_monad.

Ltac run_in H := autorewrite with go_monad in H; cbn beta iota in H.

Lemma await_validated_eq env attempt file tr :
  await_validated env attempt (file, tr) =
  ((file, tr ++ [ProgressCall attempt]), pr ← progress env; validateProgress (Attempt_Stuck attempt) pr.1 pr.2;; Ok pr).
Proof. done. Qed.

(** What a validated report says. *)
Lemma validated_report env attempt pr :
  (pr ← progress env; validateProgress (Attempt_Stuck attempt) pr.1 pr.2;; Ok pr) = Ok pr →
  progress env = Ok pr ∧ pr.1 ++ pr.2 ≡ₚ Attempt_Stuck attempt.
Proof.
  intros H. apply bind_Ok in H as (pr' & Hp & H). apply bind_Ok in H as ([] & Hv & [= ->]).
  apply validateProgress_spec in Hv as [_ _ _ ?]. by split.
Qed.

Lemma resumeAcquired_spec env attempt file tr w r op s :
  resumeAcquired env attempt (file, tr) = (w, (r, op)) → reads file s →
  w.2 = tr ++ [ProgressCall attempt] ∧ result_of env attempt r ∧
  (reads w.1 s ∨ reads w.1 (finish_state r s) ∧ is_Some (Active s !! Attempt_ID attempt)).
Proof.
  intros H Hs. unfold resumeAcquired in H. rewrite M_bind_eq, await_validated_eq in H. cbn beta iota in H.
  assert (∀ r0 op0, AttemptID r0 = Attempt_ID attempt →
    (f ← on_store (Finish (finish_access env) r0); mret (r0, wrap_err "finish resumed recovery attempt: %w" f;; op0))
      (file, tr ++ [ProgressCall attempt]) = (w, (r, op)) →
    w.2 = tr ++ [ProgressCall attempt] ∧ r = r0 ∧
    (reads w.1 s ∨ reads w.1 (finish_state r0 s) ∧ is_Some (Active s !! Attempt_ID attempt))) as Hfinish.
  { intros r0 op0 Hid Hf. run_in Hf. destruct (Finish _ _ _) as [f x] eqn:He. run_in Hf. simplify_eq/=. split; [done|]. split; [done|].
    eapply attempt_Finish_spec in He; [|done]. destruct He as [[? _]|[? ?]]; [by left|]. right. by rewrite <-Hid. }
  destruct (pr ← progress env; _) as [pr|e] eqn:Hp.
  - assert (Hp' := Hp). apply bind_Ok in Hp' as (pr' & Hpr & Hp'). apply bind_Ok in Hp' as ([] & _ & [= ->]).
    apply validated_report in Hp as [_ Hperm]. destruct pr as [progressed remaining]. case_bool_decide as Hrem; simpl in Hperm.
    + apply Hfinish in H as (? & -> & ?); [|done]. subst. split_and!; try done. split; try done. by eexists.
    + apply Hfinish in H as (? & -> & ?); [|done]. split_and!; try done.
  - apply Hfinish in H as (? & -> & ?); [|done]. split_and!; try done.
Qed.

Lemma recoverAcquired_spec env attempt file tr w r op s :
  recoverAcquired env attempt (file, tr) = (w, (r, op)) → reads file s →
  ∃ es, w.2 = tr ++ es ∧ result_of env attempt r ∧
  (reads w.1 s ∨ reads w.1 (finish_state r s)) ∧
  (restarts es = 0%nat ∨ ∃ es2, es = [CheckpointCall attempt; RestartCall attempt] ++ es2 ∧ restarts es2 = 0%nat ∧ is_Ok (checkpoint env) = true).
Proof.
  intros H Hs. unfold recoverAcquired in H. cbv zeta in H. rewrite M_bind_eq, perform_eq in H. cbn beta iota in H.
  assert (∀ r0 op0 tr0,
    (f ← on_store (Finish (finish_access env) r0); mret (r0, wrap_err "finish recovery attempt: %w" f;; op0))
      (file, tr0) = (w, (r, op)) →
    w.2 = tr0 ∧ r = r0 ∧ (reads w.1 s ∨ reads w.1 (finish_state r0 s))) as Hfinish.
  { intros r0 op0 tr0 Hf. run_in Hf. destruct (Finish _ _ _) as [f x] eqn:He. run_in Hf. simplify_eq/=. split; [done|]. split; [done|].
    eapply attempt_Finish_spec in He; [|done]. destruct He as [[? _]|[? ?]]; [by left|by right]. }
  destruct (checkpoint env) as [cp|e].
  2:{ apply Hfinish in H as (-> & -> & ?). eexists. split_and!; [done|done|done|by left]. }
  rewrite M_bind_eq, perform_eq in H. cbn beta iota in H. rewrite <-app_assoc in H.
  destruct (restart env) as [[]|e].
  2:{ apply Hfinish in H as (-> & -> & ?). eexists. split_and!; [done|done|done|]. right. by exists []. }
  rewrite M_bind_eq, await_validated_eq in H. cbn beta iota in H. rewrite <-app_assoc in H.
  destruct (pr ← progress env; _) as [pr|e] eqn:Hp.
  2:{ apply Hfinish in H as (-> & -> & ?). eexists. split_and!; [done|done|done|]. right. by exists [ProgressCall attempt]. }
  assert (Hp' := Hp). apply bind_Ok in Hp' as (pr' & Hpr & Hp'). apply bind_Ok in Hp' as ([] & _ & [= ->]).
  apply validated_report in Hp as [_ Hperm]. destruct pr as [progressed remaining]. simpl in Hperm.
  case_bool_decide as Hrem; apply Hfinish in H as (-> & -> & ?); eexists; (split_and!; [done| |done|]).
  - subst. split; try done. by eexists.
  - right. by exists [ProgressCall attempt].
  - split; done.
  - right. by exists [ProgressCall attempt].
Qed.

Lemma conclude_spec env d lost reason id ro file tr :
  ∃ e out, conclude env d lost reason id ro (file, tr) = ((file, tr ++ [Emitted e]), out).
Proof.
  destruct ro as [r operation]. unfold conclude. rewrite M_bind_eq, emit_eq. cbn beta iota.
  destruct (wrap_err _ _); rewrite M_ret_eq; eauto.
Qed.

Lemma restarts_emitted es e : restarts (es ++ [Emitted e]) = restarts es.
Proof. rewrite restarts_app. unfold restarts at 2. simpl. lia. Qed.

(** After the decision: begin, and recover when the attempt is stored. *)
Lemma begin_recovery_spec policy env o0 file tr w out s :
  let o := set_observed_heartbeat (Heartbeat_At (State_Heartbeat s)) o0 in
  let d := tick_decision policy o0 s in
  observe env = Ok o0 → Decision_Recover d = true →
  incidentRecoveryAttempts (Finished s) (Decision_Stuck d) < maxIncidentRecoveryAttempts →
  begin_recovery env o d (file, tr) = (w, out) → reads file s →
  ∃ s' es, w.2 = tr ++ es ∧ reads w.1 s' ∧ tick_step policy env s s' es.
Proof.
  intros o d Ho Hd Hbudget H Hs. unfold begin_recovery in H.
  destruct (validateProgress _ _ _) as [[]|e] eqn:Hv.
  2:{ run_in H. simplify_eq. exists s, []. rewrite app_nil_r. split_and!; try done. by constructor. }
  cbv zeta in H. remember (NewAttempt (ObservedAt o) (Decision_Stuck d)) as attempt eqn:Hattempt.
  run_in H. destruct (Begin _ _ _) as [f b] eqn:Hb. cbn beta iota in H. eapply attempt_Begin_spec in Hb; [|done].
  destruct Hb as [[Hf Hnt]|(Hf & Hact & Hfin & Hx)].
  { exists s. destruct b as [[]|e]; [done| |]; run_in H; simplify_eq/=.
    - eexists. split_and!; [done|done|]. by constructor.
    - exists []. rewrite app_nil_r. split_and!; try done. by constructor. }
  assert (may_begin policy env s attempt) as Hmay.
  { split; [done|]. split; [done|]. exists o0. split; [done|]. split; [done|]. split; [exact Hattempt|by split]. }
  clear Hattempt. destruct Hx as [->|[e ->]]; cycle 1.
  { run_in H. simplify_eq/=. exists (begun attempt s), []. rewrite app_nil_r. split_and!; try done. by apply step_begin. }
  run_in H. destruct (wrap_err _ _) as [[]|e]; cycle 1.
  { run_in H. simplify_eq/=. exists (begun attempt s). eexists. split_and!; [done|done|]. by apply step_begin. }
  run_in H. destruct (recoverAcquired env attempt _) as [w1 [r op]] eqn:Hr.
  eapply recoverAcquired_spec in Hr as (es & Htr & Hres & Hreads & Hes); [|done]. destruct w1 as [f1 tr1]. simpl in Htr, Hreads.
  destruct (conclude_spec env d d (Decision_Reason d) (Attempt_ID attempt) (r, op) f1 tr1) as (ev & out' & Hc).
  rewrite Hc in H. simplify_eq/=.
  assert (restarts (([Emitted (event "recovering" (Decision_Reason d) (Attempt_ID attempt) (Attempt_Stuck attempt) None)] ++ es) ++ [Emitted ev]) = 0%nat ∨
    (∃ es1 es2, ([Emitted (event "recovering" (Decision_Reason d) (Attempt_ID attempt) (Attempt_Stuck attempt) None)] ++ es) ++ [Emitted ev]
        = es1 ++ [CheckpointCall attempt; RestartCall attempt] ++ es2 ∧ restarts es1 = 0%nat ∧ restarts es2 = 0%nat) ∧ is_Ok (checkpoint env) = true) as Hcase.
  { destruct Hes as [Hes|(es2 & -> & Hes & Hc2)]; [left; by rewrite restarts_emitted|]. right. split; [|done].
    eexists [_], (es2 ++ [Emitted ev]). split; [done|]. by rewrite restarts_emitted. }
  destruct Hreads as [Hrd|Hrd]; eexists; eexists (([_] ++ es) ++ [_]);
    (split; [by rewrite <-!app_assoc|]); (split; [exact Hrd|]).
  - by eapply (step_recover policy env s attempt r _ false).
  - by eapply (step_recover policy env s attempt r _ true).
Qed.

Lemma Tick_spec policy env file tr w out s :
  Tick policy env (file, tr) = (w, out) → reads file s →
  ∃ s' es, w.2 = tr ++ es ∧ reads w.1 s' ∧ tick_step policy env s s' es.
Proof.
  intros H Hs. unfold Tick in H. run_in H. destruct (ActiveAttempts _ _) as [f a] eqn:Ha. cbn beta iota in H.
  eapply locked_read in Ha as [Hf Ha]; [|done].
  assert (∀ f, reads f s → w = (f, tr) → ∃ s' es, w.2 = tr ++ es ∧ reads w.1 s' ∧ tick_step policy env s s' es) as Hnone.
  { intros f' Hf' ->. exists s, []. rewrite app_nil_r. split_and!; try done. by constructor. }
  assert (∀ f e, reads f s → w = (f, tr ++ [Emitted e]) → ∃ s' es, w.2 = tr ++ es ∧ reads w.1 s' ∧ tick_step policy env s s' es) as Hemit.
  { intros f' e Hf' ->. exists s. eexists. split_and!; [done|done|]. by constructor. }
  destruct Ha as [->|[e ->]]; [|run_in H; simplify_eq; eapply Hnone; [|reflexivity]; done].
  destruct (sort_slice _ _) as [|attempt [|]] eqn:Hsort.
  - destruct (observe env) as [o|] eqn:Ho; [|run_in H; simplify_eq; eapply Hnone; [|reflexivity]; done].
    run_in H. destruct (ReadHeartbeat _ _) as [f2 h] eqn:Hh. cbn beta iota in H. eapply locked_read in Hh as [Hf2 Hh]; [|done].
    destruct Hh as [->|[e ->]]; [|run_in H; simplify_eq; eapply Hnone; [|reflexivity]; done].
    cbv zeta in H. run_in H. fold (tick_decision policy o s) in H.
    assert (∃ f3 b, reads f3 s ∧ budgeted env (tick_decision policy o s) (f2, tr) = ((f3, tr), b) ∧
      ∀ d, b = Ok d → Decision_Recover d = true → d = tick_decision policy o s ∧
        incidentRecoveryAttempts (Finished s) (Decision_Stuck d) < maxIncidentRecoveryAttempts) as (f3 & b & Hf3 & Hb & Hd).
    { unfold budgeted. destruct (Decision_Recover (tick_decision policy o s)) eqn:Hrec.
      2:{ exists f2. eexists. split; [done|]. split; [done|]. intros d [= <-]. congruence. }
      rewrite M_bind_eq, on_store_eq. destruct (History _ _) as [f3 x] eqn:Hx. eapply locked_read in Hx as [Hf3 Hx]; [|done].
      exists f3. eexists. split; [done|]. split; [done|]. destruct Hx as [->|[e ->]]; [|done]. simpl. intros d [= <-].
      destruct (Z.leb_spec maxIncidentRecoveryAttempts (incidentRecoveryAttempts (Finished s) (Decision_Stuck (tick_decision policy o s)))); [done|].
      by intros _. }
    rewrite Hb in H. cbn beta iota in H. destruct b as [d|e]; [|run_in H; simplify_eq; eapply Hnone; [|reflexivity]; done].
    run_in H. destruct (wrap_err _ _) as [[]|]; [|run_in H; simplify_eq; eapply Hemit; [|reflexivity]; done].
    destruct (Decision_Recover d) eqn:Hrec; cbn [negb] in H; [|run_in H; simplify_eq; eapply Hemit; [|reflexivity]; done].
    destruct (Hd d eq_refl Hrec) as [-> Hbudget].
    eapply begin_recovery_spec in H as (s' & es & Hw & Hr & Hstep); try done. rewrite <-app_assoc in Hw.
    eexists s', _. split; [done|]. split; [done|].
    assert (∀ e es, restarts (Emitted e :: es) = restarts es) as Hcons by done.
    inversion Hstep; subst.
    + by apply step_none.
    + by eapply step_resume.
    + by apply step_begin.
    + eapply (step_recover policy env s attempt r (_ :: es)); [done|done|].
      match goal with H : _ ∨ _ |- _ => destruct H as [|[(es1 & es2 & -> & ? & ?) ?]] end; [by left|right]. split; [|done].
      by eexists (_ :: es1), es2.
  - run_in H. destruct (wrap_err _ _) as [[]|]; [|run_in H; simplify_eq; eapply Hemit; [|reflexivity]; done].
    run_in H. destruct (resumeAcquired _ _ _) as [w1 [r op]] eqn:Hr. eapply resumeAcquired_spec in Hr as (Htr & Hres & Hreads); [|done].
    destruct w1 as [f1 tr1]. simpl in Htr, Hreads. edestruct conclude_spec as (ev & out' & Hc). rewrite Hc in H. simplify_eq/=.
    rewrite <-!app_assoc. destruct Hreads as [Hrd|[Hrd Hin]]; [exists s|exists (finish_state r s)]; (eexists; split; [done|]; split; [done|]).
    + by apply step_none.
    + eapply step_resume; [|done|done|done]. apply Permutation_singleton_r. rewrite <-Hsort. symmetry. apply sort_slice_perm.
  - run_in H. simplify_eq. by eapply Hnone.
Qed.

(** ** Consequences for the decision and the budget *)

Lemma Evaluate_recovers policy o :
  Decision_Recover (Evaluate policy o) = true →
  RecoveryRunning o = false ∧ ActiveIntents o ≠ 0 ∧ RecoveryBlockers o = [] ∧ MinimumUptime policy ≤ ManagerUptime o ∧
  (LastRecoveryAt o = zero_time ∨ Cooldown policy ≤ Sub (ObservedAt o) (LastRecoveryAt o)) ∧ Decision_Stuck (Evaluate policy o) ≠ [].
Proof.
  unfold Evaluate, IsZero. destruct (RecoveryRunning o); [done|]. destruct (ActiveIntents o =? 0) eqn:Ha; [done|]. cbv zeta.
  generalize (Pending_ID <$> List.filter (stuck_pending policy) (PendingCreates o)).
  set (retries := List.filter _ (OverdueRetries o)). set (assigned := List.filter _ (StaleAssigned o)). intros pending.
  case_bool_decide as Hstuck; [done|]. case_bool_decide as Hb; [|done]. cbn [negb].
  destruct (_ && (Sub (ObservedAt o) (HeartbeatAt o) <? _)); [done|].
  destruct (ManagerUptime o <? MinimumUptime policy) eqn:Hu; [done|].
  destruct (negb (bool_decide (LastRecoveryAt o = zero_time)) && _) eqn:Hc; [done|].
  destruct (_ && CapacityBackpressure o && _); [done|]. intros _. split_and!; try done; [lia|lia|].
  apply andb_false_iff in Hc as [Hc|Hc]; bool_hyps; [by left|right; lia].
Qed.

Lemma attempts_counted history stuck x :
  Forall (λ r, x ∈ incidentSubjects r ∧ Suppressed r = false ∧ Recovered r = false) history → x ∈ stuck →
  Z.of_nat (length history) ≤ max_int64 → incidentRecoveryAttempts history stuck = Z.of_nat (length history).
Proof.
  intros Hall Hx Hlen. unfold incidentRecoveryAttempts. rewrite bool_decide_eq_false_2 by (intros ->; by apply not_elem_of_nil in Hx). cbv zeta.
  assert (∀ n, 0 ≤ n → n + Z.of_nat (length history) ≤ max_int64 →
    fold_left (λ count r, if Suppressed r || negb (subjectSetsOverlap (incidentSubjects r) (list_to_set stuck)) then count
      else if Recovered r then 0 else count ⊕ 1) history n = n + Z.of_nat (length history)) as Hn; [|by apply Hn; lia].
  clear Hlen. induction Hall as [|r history (Hr & Hs & Hrec) Hall IH]; simpl length; intros n Hn Hlen; [simpl; lia|].
  cbn [fold_left]. rewrite Hs, Hrec. assert (subjectSetsOverlap (incidentSubjects r) (list_to_set stuck) = true) as ->.
  { apply existsb_exists. exists x. split; [by apply list_elem_of_In|]. apply bool_decide_eq_true_2. by apply elem_of_list_to_set. }
  cbn [orb negb]. unfold int_add. rewrite wrap64_small by (unfold in_int64, min_int64; lia). rewrite IH by lia. lia.
Qed.

Lemma keep_last_length xs : (length (keep_last xs) ≤ historyLimit)%nat.
Proof. unfold keep_last. rewrite length_drop. lia. Qed.
Lemma keep_last_short xs : (length xs ≤ historyLimit)%nat → keep_last xs = xs.
Proof. intros H. unfold keep_last. replace (length xs - historyLimit)%nat with 0%nat by lia. done. Qed.
Lemma keep_last_last xs x : last (keep_last (xs ++ [x])) = Some x.
Proof.
  unfold keep_last. rewrite length_app. simpl length. rewrite drop_app_le by (unfold historyLimit; lia).
  by rewrite last_snoc.
Qed.

Lemma NewAttempt_stuck o stuck : Attempt_Stuck (NewAttempt o stuck) = sort_strings stuck.
Proof. done. Qed.

(** ** The stored state over any run *)

Record stored_ok (s : fileState) : Prop := {
  stored_history : (length (Finished s) ≤ historyLimit)%nat;
  stored_single : Active s = ∅ ∨ ∃ attempt, Active s = {[ Attempt_ID attempt := attempt ]};
}.

Lemma stored_ok_begun s attempt : stored_ok s → Active s = ∅ → stored_ok (begun attempt s).
Proof. intros [Hh _] Ha. split; [done|]. right. exists attempt. simpl. by rewrite Ha. Qed.

Lemma stored_ok_finish s r : stored_ok s → is_Some (Active s !! AttemptID r) → stored_ok (finish_state r s).
Proof.
  intros [Hh Hs] Ha. split; [apply keep_last_length|]. left. simpl. destruct Hs as [Hs|[attempt Hs]]; rewrite Hs in *.
  - rewrite lookup_empty in Ha. by destruct Ha.
  - destruct Ha as [b Ha]. apply lookup_singleton_Some in Ha as [<- _]. apply delete_singleton_eq.
Qed.

Lemma begun_active s attempt : Active (begun attempt s) !! Attempt_ID attempt = Some attempt.
Proof. apply lookup_insert_eq. Qed.

Lemma tick_step_stored_ok policy env s s' es : tick_step policy env s s' es → stored_ok s → stored_ok s'.
Proof.
  intros [es' Hr|attempt r es' Ha Hr _ Hin|attempt es' [Ha _] _|attempt r es' [] [Ha _] Hr _] Hok.
  - done.
  - apply stored_ok_finish; [done|]. by rewrite (result_id _ _ _ Hr).
  - by apply stored_ok_begun.
  - apply stored_ok_finish; [by apply stored_ok_begun|]. rewrite (result_id _ _ _ Hr). eexists. apply begun_active.
  - by apply stored_ok_begun.
Qed.

(** The budget of an incident that keeps one identity [x] stuck. *)
Record incident_inv (x : string) (s : fileState) (es : list Effect) : Prop := {
  incident_results : Forall (λ r, x ∈ incidentSubjects r ∧ Suppressed r = false ∧ Recovered r = false) (Finished s);
  incident_active : Active s = ∅ ∨ ∃ attempt, Active s = {[ Attempt_ID attempt := attempt ]} ∧ x ∈ Attempt_Stuck attempt;
  incident_bound : (restarts es ≤ length (Finished s) + size (Active s) ≤ 3)%nat;
}.

Lemma incident_finish x env attempt r s es :
  incident_inv x s es → Active s = {[ Attempt_ID attempt := attempt ]} → x ∈ Attempt_Stuck attempt → result_of env attempt r →
  (∀ progressed, progress env ≠ Ok (progressed, [])) → incident_inv x (finish_state r s) es.
Proof.
  intros [Hres _ Hb] Ha Hx [Hid Hsup Hsub Hrec] Hno. rewrite Ha, map_size_singleton in Hb.
  assert (Active (finish_state r s) = ∅) as Hempty by (simpl; rewrite Ha, Hid; apply delete_singleton_eq).
  assert (Finished (finish_state r s) = Finished s ++ [r]) as Hf.
  { apply keep_last_short. rewrite length_app. unfold historyLimit. simpl. lia. }
  split.
  - rewrite Hf. apply Forall_app. split; [done|]. apply Forall_singleton. rewrite Hsub. split_and!; try done.
    destruct (Recovered r); [|done]. destruct (Hrec eq_refl) as [? Hp]. by apply Hno in Hp.
  - by left.
  - rewrite Hf, Hempty, map_size_empty, length_app. simpl. lia.
Qed.

Lemma incident_begun policy env x s es attempt es' :
  incident_inv x s es → may_begin policy env s attempt → x ∈ Attempt_Stuck attempt → (restarts es' ≤ 1)%nat →
  incident_inv x (begun attempt s) (es ++ es').
Proof.
  intros [Hres _ Hb] (Ha & _ & o & _ & Hd & Hatt & _ & Hbudget) Hx Hes. rewrite Ha, map_size_empty in Hb.
  rewrite Hatt, NewAttempt_stuck, elem_of_sort_strings in Hx. rewrite (attempts_counted _ _ x) in Hbudget; [|done|done|unfold max_int64; lia].
  split; [done| |].
  - right. exists attempt. simpl. rewrite Ha. split; [done|]. by rewrite Hatt, NewAttempt_stuck, elem_of_sort_strings.
  - simpl. rewrite Ha, restarts_app, insert_empty, map_size_singleton. unfold maxIncidentRecoveryAttempts in *. lia.
Qed.
