(* ===== verification/SchedulerRecoveryClaims.v ===== *)
(** * Recovery of a stuck scheduler: the claims *)

From S2P Require Import Prelude StateFile GoText Domain SchedulerRecovery SchedulerRecoveryFacts.

Local Open Scope Z_scope.
Local Open Scope go_scope.

(** A progress report is accepted exactly when it is a partition of the expected
    identities: there are some, each is a usable identity, none is expected
    twice, and the progressed and the remaining ones together are a permutation
    of the expected ones (none omitted, repeated or foreign). *)
Theorem validateProgress_partition (expected progressed remaining : list string) :
  validateProgress expected progressed remaining = Ok tt ↔ partition_of expected progressed remaining.
Proof. apply validateProgress_spec. Qed.

Lemma Tick_unreadable policy env file tr e : readFileState file = Err e → (Tick policy env (file, tr)).1 = (file, tr).
Proof.
  intros H. unfold Tick. rewrite M_bind_eq, on_store_eq. unfold ActiveAttempts, locked. rewrite H.
  destruct (access_lock (active_access env)) as [[]|]; done.
Qed.

Lemma elem_of_restart attempt es : RestartCall attempt ∈ es → restarts es ≠ 0%nat.
Proof.
  intros H. unfold restarts. destruct (List.filter _ es) eqn:Hf; [|done].
  assert (List.In (RestartCall attempt) (List.filter (λ e, match e with RestartCall _ => true | _ => false end) es)) as Hin
    by (apply List.filter_In; split; [by apply list_elem_of_In|done]).
  by rewrite Hf in Hin.
Qed.

Lemma restart_of_split attempt attempt' es1 es2 :
  RestartCall attempt' ∈ es1 ++ [CheckpointCall attempt; RestartCall attempt] ++ es2 →
  restarts es1 = 0%nat → restarts es2 = 0%nat → attempt' = attempt.
Proof.
  intros Hin H1 H2. apply elem_of_app in Hin as [Hin|Hin]; [by apply elem_of_restart in Hin|].
  apply elem_of_app in Hin as [Hin|Hin]; [|by apply elem_of_restart in Hin].
  apply elem_of_cons in Hin as [?|Hin]; [done|]. apply list_elem_of_singleton in Hin. congruence.
Qed.

(** C9: A tick restarts the dispatcher only with fresh authority. If it ran the
    restart command for an attempt then the file was readable and no attempt was
    active, the attempt is the one for the identities the decision on this tick's
    observation found stuck, fewer than three counted attempts of the incident
    are in the history, nothing blocked recovery, the manager was up long enough
    and past the cooldown; the checkpoint command succeeded immediately before,
    it is the only restart, and the file now holds the attempt as active or its
    result as the latest one. In particular a resumed attempt never restarts. *)
Theorem Tick_restart_safe (policy : Policy) (env : TickEnv) (file : StateFile (fileState * bool)) (attempt : Attempt) :
  let w := (Tick policy env (file, [])).1 in
  RestartCall attempt ∈ w.2 →
  ∃ s o, readFileState file = Ok s ∧ observe env = Ok o ∧ may_begin policy env s attempt ∧
    RecoveryBlockers o = [] ∧ RecoveryRunning o = false ∧ MinimumUptime policy ≤ ManagerUptime o ∧
    (LastRecoveryAt o = zero_time ∨ Cooldown policy ≤ Sub (ObservedAt o) (LastRecoveryAt o)) ∧
    is_Ok (checkpoint env) = true ∧
    (∃ es1 es2, w.2 = es1 ++ [CheckpointCall attempt; RestartCall attempt] ++ es2) ∧ restarts w.2 = 1%nat ∧
    ∃ s', readFileState w.1 = Ok s' ∧
      (Active s' !! Attempt_ID attempt = Some attempt ∨ ∃ r, last (Finished s') = Some r ∧ result_of env attempt r).
Proof.
  intros w Hin. destruct (readFileState file) as [s|e] eqn:Hs; cycle 1.
  { unfold w in Hin. rewrite (Tick_unreadable _ _ _ _ e) in Hin by done. by apply not_elem_of_nil in Hin. }
  destruct (Tick policy env (file, [])) as [w1 out] eqn:Ht. simpl in w. subst w.
  eapply Tick_spec in Ht as (s' & es & Htr & Hr & Hstep); [|done]. simpl in Htr. rewrite Htr in *.
  pose proof (elem_of_restart _ _ Hin) as Hne.
  destruct Hstep as [|attempt' r es|attempt' es|attempt' r es stored Hmay Hres Hes]; try done.
  destruct Hes as [|[(es1 & es2 & -> & H1 & H2) Hcp]]; [done|].
  pose proof (restart_of_split _ _ _ _ Hin H1 H2) as ->.
  destruct (id Hmay) as (_ & _ & o & Ho & Hd & _). apply Evaluate_recovers in Hd as (? & ? & ? & ? & ? & _).
  exists s, o. split_and!; try done.
  - by eexists es1, es2.
  - rewrite !restarts_app, H1, H2. done.
  - eexists. split; [exact Hr|]. destruct stored; [right|left; apply begun_active].
    exists r. split; [|done]. apply keep_last_last.
Qed.

(** Over any run of the controller from a fresh file, under any faults, the
    stored history is bounded by its limit and at most one attempt is active, under
    its own id. *)
Theorem ticks_stored_ok (policy : Policy) (envs : list TickEnv) :
  ∃ s, readFileState (ticks policy envs (Absent, [])).1 = Ok s ∧ stored_ok s.
Proof.
  assert (∃ s, reads (Absent : StateFile (fileState * bool), @nil Effect).1 s ∧ stored_ok s) as Hw.
  { exists empty_state. split; [done|]. split; [simpl; unfold historyLimit; lia|by left]. }
  revert Hw. generalize (Absent : StateFile (fileState * bool), @nil Effect).
  induction envs as [|env envs IH]; intros [file tr] (s & Hs & Hok); simpl; [by exists s|].
  destruct (Tick policy env (file, tr)) as [w out] eqn:Ht. apply IH.
  eapply Tick_spec in Ht as (s' & es & _ & Hr & Hstep); [|done]. exists s'. split; [done|]. by eapply tick_step_stored_ok.
Qed.

(** C18: An incident has a budget of three restarts. Over any run from a fresh file in
    which identity [x] is among the stuck ones whenever recovery is decided and no
    progress report is complete, the dispatcher is restarted at most three times,
    however many ticks there are and whatever faults interrupt them. *)
Theorem incident_restart_budget (policy : Policy) (envs : list TickEnv) (x : string) :
  (∀ env o h, env ∈ envs → observe env = Ok o →
     let d := Evaluate policy (set_observed_heartbeat h o) in Decision_Recover d = true → x ∈ Decision_Stuck d) →
  (∀ env progressed, env ∈ envs → progress env ≠ Ok (progressed, [])) →
  (restarts (ticks policy envs (Absent, [])).2 ≤ 3)%nat.
Proof.
  intros Hx Hno. assert (∃ s, reads (Absent : StateFile (fileState * bool), @nil Effect).1 s ∧ incident_inv x s (Absent : StateFile (fileState * bool), @nil Effect).2) as Hw.
  { exists empty_state. split; [done|]. split; [by apply Forall_nil|by left|]. simpl. rewrite map_size_empty. unfold restarts. simpl. lia. }
  revert Hx Hno Hw. generalize (Absent : StateFile (fileState * bool), @nil Effect).
  induction envs as [|env envs IH]; intros [file tr] Hx Hno (s & Hs & Hinv); simpl.
  { simpl in Hinv. destruct (incident_bound _ _ _ Hinv). lia. }
  destruct (Tick policy env (file, tr)) as [w out] eqn:Ht. apply IH.
  { intros env' o h Henv. apply Hx. by apply list_elem_of_further. }
  { intros env' p Henv. apply Hno. by apply list_elem_of_further. }
  eapply Tick_spec in Ht as (s' & es & Htr & Hr & Hstep); [|done]. exists s'. split; [done|]. simpl. rewrite Htr. simpl in Hinv.
  assert (∀ attempt, may_begin policy env s attempt → x ∈ Attempt_Stuck attempt) as Hmx.
  { intros attempt (_ & _ & o & Ho & Hd & -> & _). rewrite NewAttempt_stuck, elem_of_sort_strings.
    apply (Hx env o (Heartbeat_At (State_Heartbeat s))); [by apply list_elem_of_here|done|done]. }
  assert (∀ p, progress env ≠ Ok (p, [])) as Hnp by (intros p; apply Hno, list_elem_of_here).
  assert (∀ es, restarts es = 0%nat → incident_inv x s (tr ++ es)) as Hquiet.
  { intros es' He. destruct Hinv as [? ? ?]. split; try done. by rewrite restarts_app, He, Nat.add_0_r. }
  destruct Hstep as [es He|attempt r es Ha Hres He Hin|attempt es Hmay He|attempt r es stored Hmay Hres Hes].
  - by apply Hquiet.
  - destruct (incident_active _ _ _ Hinv) as [Hact|(attempt' & Hact & Hxa)].
    { rewrite Hact in Ha. by rewrite map_to_list_empty in Ha. }
    rewrite Hact, map_to_list_singleton in Ha. simpl in Ha. simplify_eq. eapply incident_finish; [by apply Hquiet|done..].
  - eapply incident_begun; [done|done|by apply Hmx|lia].
  - assert (restarts es ≤ 1)%nat as Hle.
    { destruct Hes as [->|[(es1 & es2 & -> & H1 & H2) _]]; [lia|]. rewrite !restarts_app, H1, H2. done. }
    assert (incident_inv x (begun attempt s) (tr ++ es)) as Hbegun by (eapply incident_begun; [done|done|by apply Hmx|done]).
    destruct stored; [|done]. eapply incident_finish; [done| |by apply Hmx|done|done].
    destruct Hmay as [Ha _]. simpl. by rewrite Ha.
Qed.

(** ** A concrete incident *)

Definition policy0 : Policy := {|
  MinimumStuckAge := 10 * Minute; MinimumUptime := 5 * Minute; Cooldown := Hour; HeartbeatStale := 5 * Minute |}.

Definition observation0 (at_ : Time) : Observation := {|
  ObservedAt := at_; ActiveIntents := 2;
  PendingCreates := [{| Pending_ID := "runner-1"; Pending_Age := 20 * Minute; CreateAttempt := 0 |};
                     {| Pending_ID := "runner-2"; Pending_Age := Minute; CreateAttempt := 0 |}];
  OverdueRetries := []; StaleAssigned := []; CapacityBackpressure := false; RecoveryBlockers := [];
  ManagerUptime := Hour; LastRecoveryAt := zero_time; HeartbeatAt := zero_time; RecoveryRunning := false |}.

Definition env0 (at_ : Time) (p : result (list string * list string)) : TickEnv := {|
  active_access := fault_free; heartbeat_access := fault_free; history_access := fault_free; begin_access := fault_free;
  finish_access := fault_free; observe := Ok (observation0 at_); checkpoint := Ok "checkpoint-1"; restart := Ok tt;
  progress := p; now_finish := at_; emit_first := Ok tt; emit_recovering := Ok tt; emit_terminal := Ok tt |}.

Definition attempt0 : Attempt := NewAttempt Hour ["runner-1"].

Lemma Tick_restart_safe_witness :
  let env := env0 Hour (Ok (["runner-1"], [])) in
  let w := (Tick policy0 env (Absent, [])).1 in
  ∃ s o, readFileState Absent = Ok s ∧ observe env = Ok o ∧ may_begin policy0 env s attempt0 ∧
    RecoveryBlockers o = [] ∧ RecoveryRunning o = false ∧ MinimumUptime policy0 ≤ ManagerUptime o ∧
    (LastRecoveryAt o = zero_time ∨ Cooldown policy0 ≤ Sub (ObservedAt o) (LastRecoveryAt o)) ∧
    is_Ok (checkpoint env) = true ∧
    (∃ es1 es2, w.2 = es1 ++ [CheckpointCall attempt0; RestartCall attempt0] ++ es2) ∧ restarts w.2 = 1%nat ∧
    ∃ s', readFileState w.1 = Ok s' ∧
      (Active s' !! Attempt_ID attempt0 = Some attempt0 ∨ ∃ r, last (Finished s') = Some r ∧ result_of env attempt0 r).
Proof.
  apply (Tick_restart_safe policy0 (env0 Hour (Ok (["runner-1"], []))) Absent attempt0).
  apply list_elem_of_In. vm_compute. right; right; right; left. reflexivity.
Defined.

Definition incident0 : list TickEnv :=
  (λ n, env0 (Z.of_nat n * Hour) (Ok ([], ["runner-1"]))) <$> seq 1 5.

(** Five ticks restart the dispatcher three times. *)
Example incident0_restarts : restarts (ticks policy0 incident0 (Absent, [])).2 = 3%nat.
Proof. vm_compute. reflexivity. Qed.

Lemma incident_restart_budget_witness : (restarts (ticks policy0 incident0 (Absent, [])).2 ≤ 3)%nat.
Proof.
  apply (incident_restart_budget policy0 incident0 "runner-1").
  - intros env o h Henv Ho. apply list_elem_of_fmap in Henv as (n & -> & _). injection Ho as <-. intros d Hd.
    subst d. unfold Evaluate in *. cbn in *. repeat case_match; try done; apply list_elem_of_here.
  - intros env p Henv. apply list_elem_of_fmap in Henv as (n & -> & _). done.
Defined.
