(* ===== verification/Tenant.v ===== *)
(** * Tenants
    ([src/internal/tenant], and the repository boundary of
    [src/internal/garmproviderincus/provider/incus.go])

    The registry of accounts the fleet may serve, its validation, and the
    provider's check that a repository belongs to the account a pool was declared
    for. *)

From S2P Require Import Prelude Domain.

Local Open Scope Z_scope.
Local Open Scope go_scope.

(** ** Data *)

Record Tenant := {
  ID : string;
  Owner : string;
  Repository : string;
  ManagedRepositories : list string;
  AppSlug : string;
  CredentialName : string;
  HomepageURL : string;
  ServesWholeAccount : bool;
  ScaleSetRepositories : gmap string string;
}.

#[export] Instance Tenant_eq_dec : EqDecision Tenant.
Proof. solve_decision. Defined.

Record Registry := {
  SchemaVersion : Z;
  Registry_DefaultID : string;
  Tenants : list Tenant;
}.

(** ** Rows *)

Definition slash : ascii := "/".

(** The part after the last slash. *)
Fixpoint repositoryName (repository : string) : string :=
  match repository with
  | EmptyString => EmptyString
  | String c rest => if contains_byte slash rest then repositoryName rest else if bool_decide (c = slash) then rest else repository
  end.

Definition in_owner (owner repository : string) : bool :=
  bool_decide (repository = owner +:+ "/" +:+ repositoryName repository).

(** [slices.IsSorted]. *)
Fixpoint is_sorted (xs : list string) : bool :=
  match xs with
  | x :: (y :: _) as rest => String.leb x y && is_sorted rest
  | _ => true
  end.

(** No element equals the one before it. *)
Fixpoint no_repeat (xs : list string) : bool :=
  match xs with
  | x :: (y :: _) as rest => negb (bool_decide (x = y)) && no_repeat rest
  | _ => true
  end.

Definition contains (x : string) (xs : list string) : bool := bool_decide (x ∈ xs).

Definition Tenant_Validate (t : Tenant) : result unit :=
  fail_if (bool_decide (ID t = "") || bool_decide (Owner t = "") || bool_decide (AppSlug t = "") || bool_decide (CredentialName t = ""))
    (Errorf "tenant %q is missing a required field" [ID t]);;
  fail_if (negb (in_owner (Owner t) (Repository t))) (Errorf "tenant %q repository %q is outside its owner" [ID t; Repository t]);;
  fail_if (negb (bool_decide (HomepageURL t = "https://github.com/" +:+ Repository t)))
    (Errorf "tenant %q homepage does not name its repository" [ID t]);;
  fail_if (bool_decide (ManagedRepositories t = []) || negb (is_sorted (ManagedRepositories t)))
    (Errorf "tenant %q managed repositories must be non-empty and sorted" [ID t]);;
  fail_if (negb (forallb (in_owner (Owner t)) (ManagedRepositories t)) || negb (no_repeat (ManagedRepositories t)))
    (Errorf "tenant %q managed repository %q is outside its owner or duplicated" [ID t]);;
  fail_if (negb (forallb (λ sr, negb (bool_decide (sr.1 = "") || bool_decide (sr.2 = "")
                                      || negb (contains sr.2 (ManagedRepositories t)))) (map_to_list (ScaleSetRepositories t))))
    (Errorf "tenant %q scale set %q has unmanaged repository %q" [ID t]);;
  fail_if (negb (contains (Repository t) (ManagedRepositories t)))
    (Errorf "tenant %q primary repository is not managed" [ID t]).

Definition RepositoryForScaleSet (t : Tenant) (name : string) : option string := ScaleSetRepositories t !! name.

Definition set_Repository (repository : string) (t : Tenant) : Tenant := {|
  ID := ID t; Owner := Owner t; Repository := repository; ManagedRepositories := ManagedRepositories t; AppSlug := AppSlug t;
  CredentialName := CredentialName t; HomepageURL := HomepageURL t; ServesWholeAccount := ServesWholeAccount t;
  ScaleSetRepositories := ScaleSetRepositories t |}.

Definition WithRepository (selected : Tenant) (repository : string) : result Tenant :=
  if bool_decide (repository = "") || bool_decide (repository = Repository selected) then Ok selected
  else
    fail_if (negb (contains repository (ManagedRepositories selected)))
      (Errorf "repository %q is not a managed repository of tenant %q" [repository; ID selected]);;
    Ok (set_Repository repository selected).

(** ** The registry *)

(** The maps of the loop: owners and scale-set bindings seen so far, the previous
    id, and whether the default was found. *)
Record RegistryScan := {
  scan_owners : gmap string string;
  scan_bindings : gmap string string;
  scan_previous : option string;
  scan_default : bool;
}.

Definition bind_scale_set (bindings : gmap string string) (sr : string * string) : result (gmap string string) :=
  match bindings !! sr.1 with
  | Some previous => Err (Errorf "scale set %q is bound to both %q and %q" [sr.1; previous; sr.2])
  | None => Ok (<[sr.1 := sr.2]> bindings)
  end.

Definition scan_tenant (default_id : string) (s : RegistryScan) (t : Tenant) : result RegistryScan :=
  Tenant_Validate t;;
  fail_if (match scan_previous s with Some previous => String.leb (ID t) previous | None => false end)
    (Errorf "tenant registry rows must be strictly sorted by id" []);;
  fail_if (bool_decide (is_Some (scan_owners s !! Owner t))) (Errorf "owner %q is shared by tenants %q and %q" [Owner t; ID t]);;
  bindings ← foldM bind_scale_set (map_to_list (ScaleSetRepositories t)) (scan_bindings s);
  Ok {| scan_owners := <[Owner t := ID t]> (scan_owners s); scan_bindings := bindings; scan_previous := Some (ID t);
        scan_default := scan_default s || bool_decide (ID t = default_id) |}.

Definition scan_start : RegistryScan :=
  {| scan_owners := ∅; scan_bindings := ∅; scan_previous := None; scan_default := false |}.

Definition Registry_Validate (r : Registry) : result unit :=
  fail_if (negb (SchemaVersion r =? 1) || bool_decide (Registry_DefaultID r = "") || bool_decide (Tenants r = []))
    (Errorf "tenant registry identity is incomplete" []);;
  s ← foldM (scan_tenant (Registry_DefaultID r)) (Tenants r) scan_start;
  fail_if (negb (scan_default s) || negb (is_sorted (ID <$> Tenants r)))
    (Errorf "default tenant is absent or registry order is invalid" []).

Definition Registry_ByID (r : Registry) (id : string) : result Tenant :=
  let id := if bool_decide (id = "") then Registry_DefaultID r else id in
  match List.find (λ t, bool_decide (ID t = id)) (Tenants r) with
  | Some t => Ok t
  | None => Err (Errorf "unknown tenant %q" [id])
  end.

Definition Registry_IDs (r : Registry) : list string := sort_strings (ID <$> Tenants r).

(** ** The compiled example rows *)

Definition DefaultID : string := "example".

Definition tenants : gmap string Tenant := list_to_map [
  (DefaultID, {|
     ID := DefaultID; Owner := "example-org"; Repository := "example-org/example-actions";
     ManagedRepositories := ["example-org/example-actions"; "example-org/example-library"];
     AppSlug := "example-actions-fleet"; CredentialName := "example-actions-fleet";
     HomepageURL := "https://github.com/example-org/example-actions"; ServesWholeAccount := true;
     ScaleSetRepositories := list_to_map [
       ("nddev-priority-integration", "example-org/example-library");
       ("nddev-priority-standard", "example-org/example-library");
       ("nddev-priority-untrusted", "example-org/example-library")] |});
  ("example-guild", {|
     ID := "example-guild"; Owner := "example-guild"; Repository := "example-guild/example-project";
     ManagedRepositories := ["example-guild/example-project"];
     AppSlug := "example-guild-fleet"; CredentialName := "example-guild-fleet";
     HomepageURL := "https://github.com/example-guild/example-project"; ServesWholeAccount := true;
     ScaleSetRepositories := ∅ |});
  ("example-media", {|
     ID := "example-media"; Owner := "example-media"; Repository := "example-media/example-service";
     ManagedRepositories := ["example-media/example-service"];
     AppSlug := "example-media-fleet"; CredentialName := "example-media-fleet";
     HomepageURL := "https://github.com/example-media/example-service"; ServesWholeAccount := true;
     ScaleSetRepositories := ∅ |})].

Definition ByID (id : string) : result Tenant :=
  let id := if bool_decide (id = "") then DefaultID else id in
  match tenants !! id with Some t => Ok t | None => Err (Errorf "unknown tenant %q" [id]) end.

Definition IDs : list string := sorted_keys tenants.

Definition ExampleRegistry : Registry :=
  {| SchemaVersion := 1; Registry_DefaultID := DefaultID; Tenants := omap (λ id, tenants !! id) IDs |}.

Definition Resolve (registry : Registry) (id : string) : result (Tenant * Registry) :=
  let registry := if SchemaVersion registry =? 0 then ExampleRegistry else registry in
  Registry_Validate registry;;
  selected ← Registry_ByID registry id;
  Ok (selected, registry).

(** ** The provider's repository boundary *)

Definition github : string := "https://github.com/".

Definition RepositoryURLs (rows : list Tenant) : gset string :=
  list_to_set (rows ≫= λ t, (λ repository, github +:+ repository) <$> ManagedRepositories t).

Definition AccountURLPrefixes (rows : list Tenant) : gset string :=
  list_to_set ((λ t, github +:+ Owner t +:+ "/") <$> List.filter ServesWholeAccount rows).

(** [strings.CutPrefix]. *)
Definition CutPrefix (s pre : string) : option string :=
  if String.prefix pre s then Some (drop_bytes (String.length pre) s) else None.

(** [strings.TrimSuffix(s, "/")]. *)
Fixpoint TrimSlash (s : string) : string :=
  match s with
  | EmptyString => EmptyString
  | String c EmptyString => if bool_decide (c = slash) then EmptyString else s
  | String c rest => String c (TrimSlash rest)
  end.

(** The account itself, or one path segment below its prefix. *)
Definition within_account (pre repositoryURL : string) : bool :=
  bool_decide (repositoryURL = TrimSlash pre) ||
  match CutPrefix repositoryURL pre with
  | Some name => negb (bool_decide (name = "")) && negb (contains_byte slash name)
  | None => false
  end.

Definition isRegisteredRepositoryURL (rows : list Tenant) (repositoryURL : string) : bool :=
  bool_decide (repositoryURL ∈ RepositoryURLs rows) ||
  existsb (λ pre, within_account pre repositoryURL) (elements (AccountURLPrefixes rows)).

Definition repositoryWithinTenant (selected : Tenant) (repositoryURL : string) : bool :=
  bool_decide (repositoryURL = github +:+ Repository selected) ||
  (ServesWholeAccount selected && within_account (github +:+ Owner selected +:+ "/") repositoryURL).

(** * Facts *)

Lemma app_inv_tail (a b c : string) : a +:+ c = b +:+ c → a = b.
Proof.
  assert (∀ x y : string, String.length (x +:+ y) = (String.length x + String.length y)%nat) as Hlen.
  { intros x y. induction x as [|z x IH]; simpl; [done|]. by rewrite IH. }
  revert b. induction a as [|x a IH]; intros [|y b] H; simpl in *; [done| | |].
  - apply (f_equal String.length) in H. simpl in H. rewrite ?Hlen in H. simpl in H. lia.
  - apply (f_equal String.length) in H. simpl in H. rewrite ?Hlen in H. simpl in H. lia.
  - injection H as -> H. f_equal. by apply IH.
Qed.

Lemma in_owner_inj o1 o2 repository : in_owner o1 repository = true → in_owner o2 repository = true → o1 = o2.
Proof.
  unfold in_owner. intros H1%bool_decide_eq_true H2%bool_decide_eq_true. rewrite H1 in H2 at 1. by apply app_inv_tail in H2.
Qed.

Lemma repositoryName_segment repository : contains_byte slash (repositoryName repository) = false.
Proof.
  induction repository as [|c rest IH]; simpl; [done|]. destruct (contains_byte slash rest) eqn:Hr; [done|].
  case_bool_decide as Hc; [done|]. simpl. rewrite Hr. by rewrite bool_decide_eq_false_2.
Qed.

(** ** Validated rows *)

Record row_ok (t : Tenant) : Prop := {
  row_id : ID t ≠ "";
  row_owner : Owner t ≠ "";
  row_repository : in_owner (Owner t) (Repository t) = true;
  row_managed : ∀ repository, repository ∈ ManagedRepositories t → in_owner (Owner t) repository = true;
  row_primary : Repository t ∈ ManagedRepositories t;
  row_scale_sets : ∀ scaleSet repository, ScaleSetRepositories t !! scaleSet = Some repository → repository ∈ ManagedRepositories t;
}.

Lemma Tenant_Validate_ok t u : Tenant_Validate t = Ok u → row_ok t.
Proof.
  unfold Tenant_Validate. intros H. apply bind_Ok in H as ([] & H1 & H). apply bind_Ok in H as ([] & H2 & H).
  apply bind_Ok in H as ([] & _ & H). apply bind_Ok in H as ([] & _ & H). apply bind_Ok in H as ([] & H5 & H).
  apply bind_Ok in H as ([] & H6 & H7). apply fail_if_Ok in H1, H2, H5, H6, H7. unfold contains in *. bool_hyps.
  split; try done.
  - intros repository Hr. match goal with H : forallb (in_owner _) _ = true |- _ => rewrite forallb_forall in H; apply H end.
    by apply list_elem_of_In.
  - intros scaleSet repository Hs. match goal with H : forallb _ (map_to_list _) = true |- _ => rewrite forallb_forall in H; specialize (H (scaleSet, repository)) end.
    assert (List.In (scaleSet, repository) (map_to_list (ScaleSetRepositories t))) as Hin by (by apply list_elem_of_In, elem_of_map_to_list).
    match goal with H : List.In _ _ → _ |- _ => specialize (H Hin) end. simpl in *. bool_hyps. done.
Qed.

Lemma bind_scale_sets_spec xs m m' :
  foldM bind_scale_set xs m = Ok m' →
  (∀ k v, m !! k = Some v → m' !! k = Some v) ∧ (∀ k v, (k, v) ∈ xs → m !! k = None ∧ m' !! k = Some v).
Proof.
  revert m; induction xs as [|[k v] xs IH]; intros m; cbn [foldM].
  { intros [= <-]. split; [done|]. intros k v H. by apply not_elem_of_nil in H. }
  rewrite bind_Ok. intros (m1 & H1 & H). unfold bind_scale_set in H1. simpl in H1. destruct (m !! k) eqn:Hk; [done|].
  apply Ok_inj in H1 as <-. apply IH in H as [Hkeep Hnew]. split.
  - intros k' v' H. apply Hkeep. rewrite lookup_insert_ne; [done|]. intros ->. congruence.
  - intros k' v' [[= -> ->]|Hin]%elem_of_cons; [split; [done|]; apply Hkeep, lookup_insert_eq|].
    destruct (Hnew _ _ Hin) as [Hn ?]. split; [|done]. by apply lookup_insert_None in Hn as [? _].
Qed.

(** The scan of the rows: every later row differs from the earlier ones. *)
Definition apart (t1 t2 : Tenant) : Prop :=
  String.leb (ID t2) (ID t1) = false ∧ Owner t1 ≠ Owner t2 ∧
  ∀ scaleSet, is_Some (ScaleSetRepositories t1 !! scaleSet) → ScaleSetRepositories t2 !! scaleSet = None.

Lemma leb_false_trans x y z : String.leb y x = false → String.leb z y = false → String.leb z x = false.
Proof.
  intros H1 H2. destruct (String.leb z x) eqn:H3; [|done]. exfalso.
  assert (String.le x y) as Hxy by (destruct (total String.le x y) as [|Hc]; [done|]; unfold String.le in Hc; by rewrite H1 in Hc).
  assert (String.le z y) as Hzy by (trans x; [unfold String.le; by rewrite H3|done]).
  unfold String.le in Hzy. by rewrite H2 in Hzy.
Qed.

Lemma scan_tenants_spec d ts s s' :
  foldM (scan_tenant d) ts s = Ok s' →
  Forall row_ok ts ∧
  (∀ t, t ∈ ts → scan_owners s !! Owner t = None ∧ (∀ id, scan_previous s = Some id → String.leb (ID t) id = false) ∧
     ∀ ss, is_Some (scan_bindings s !! ss) → ScaleSetRepositories t !! ss = None) ∧
  ForallOrdPairs apart ts.
Proof.
  revert s; induction ts as [|t ts IH]; intros s; cbn [foldM].
  { intros _. split_and!; [constructor| |constructor]. intros t H. by apply not_elem_of_nil in H. }
  rewrite bind_Ok. intros (s1 & H1 & H2). unfold scan_tenant in H1.
  apply bind_Ok in H1 as ([] & Hv & H1). apply bind_Ok in H1 as ([] & Hp & H1). apply bind_Ok in H1 as ([] & Ho & H1).
  apply bind_Ok in H1 as (bindings & Hb & [= <-]). apply fail_if_Ok in Hp, Ho. apply bool_decide_eq_false, eq_None_not_Some in Ho.
  apply Tenant_Validate_ok in Hv. apply bind_scale_sets_spec in Hb as [Hkeep Hnew].
  apply IH in H2 as (Hall & Hrest & Hpairs). clear IH. simpl in Hrest.
  assert (∀ ss, is_Some (ScaleSetRepositories t !! ss) → is_Some (bindings !! ss)) as Hbound.
  { intros ss [v Hss]. destruct (Hnew ss v) as [_ ?]; [by apply elem_of_map_to_list|]. by eexists. }
  split_and!.
  - by constructor.
  - intros t' [->|Hin]%elem_of_cons.
    + split_and!; [done| |].
      * intros id Hid. by rewrite Hid in Hp.
      * intros ss [v Hss]. destruct (ScaleSetRepositories t !! ss) as [v'|] eqn:Ht; [|done].
        destruct (Hnew ss v') as [Hn _]; [by apply elem_of_map_to_list|]. congruence.
    + destruct (Hrest _ Hin) as (Hro & Hrp & Hrb). split_and!.
      * by apply lookup_insert_None in Hro as [? _].
      * intros id Hid. rewrite Hid in Hp. specialize (Hrp _ eq_refl).
        by eapply leb_false_trans.
      * intros ss [v Hss]. apply Hrb. eexists. by apply Hkeep.
  - constructor; [|done]. apply Forall_forall. intros t' Hin. destruct (Hrest _ Hin) as (Hro & Hrp & Hrb). split_and!.
    + by apply Hrp.
    + apply lookup_insert_None in Hro as [_ ?]. done.
    + intros ss Hss. by apply Hrb, Hbound.
Qed.

Lemma Registry_Validate_ok r u : Registry_Validate r = Ok u → Forall row_ok (Tenants r) ∧ ForallOrdPairs apart (Tenants r).
Proof.
  unfold Registry_Validate. intros H. apply bind_Ok in H as ([] & _ & H). apply bind_Ok in H as (s & H & _).
  by apply scan_tenants_spec in H as (? & _ & ?).
Qed.

(** Rows that are related by [R] in neither order are the same row. *)
Lemma ord_pairs_same {A} (R : A → A → Prop) (xs : list A) x y :
  ForallOrdPairs R xs → x ∈ xs → y ∈ xs → ¬ R x y → ¬ R y x → x = y.
Proof.
  intros H Hx Hy Hxy Hyx. destruct (ForallOrdPairs_In H x y) as [|[?|?]]; try done; by apply list_elem_of_In.
Qed.

(** ** URLs of one account *)

Lemma TrimSlash_app s : TrimSlash (s +:+ "/") = s.
Proof. induction s as [|c s IH]; [done|]. simpl. rewrite <-IH at 2. by destruct s. Qed.

Lemma drop_bytes_app a b : drop_bytes (String.length a) (a +:+ b) = b.
Proof. induction a as [|c a IH]; [done|]. apply IH. Qed.

Lemma prefix_split pre s : String.prefix pre s = true → s = pre +:+ drop_bytes (String.length pre) s.
Proof.
  revert s; induction pre as [|c pre IH]; intros [|d s]; simpl; try done.
  destruct (ascii_dec c d) as [<-|]; [|done]. intros H. trans (String c (pre +:+ drop_bytes (String.length pre) s)); [|done]. f_equal. by apply IH.
Qed.

(** What a URL within a tenant looks like: the account, or one name below it. *)
Lemma repositoryWithinTenant_shape t url :
  row_ok t → repositoryWithinTenant t url = true →
  url = github +:+ Owner t ∨ ∃ name, url = github +:+ Owner t +:+ "/" +:+ name ∧ contains_byte slash name = false.
Proof.
  intros Hrow. unfold repositoryWithinTenant. intros [H|H]%orb_true_iff.
  - apply bool_decide_eq_true in H. right. pose proof (row_repository _ Hrow) as Hr. apply bool_decide_eq_true in Hr.
    exists (repositoryName (Repository t)). split; [by rewrite H, Hr at 1|]. apply repositoryName_segment.
  - apply andb_true_iff in H as [_ H]. unfold within_account in H. apply orb_true_iff in H as [H|H].
    + left. apply bool_decide_eq_true in H. rewrite H. change (github +:+ Owner t +:+ "/") with ((github +:+ Owner t) +:+ "/").
      apply TrimSlash_app.
    + right. unfold CutPrefix in H. destruct (String.prefix _ url) eqn:Hp; [|done]. apply prefix_split in Hp.
      exists (drop_bytes (String.length (github +:+ Owner t +:+ "/")) url). split; [by rewrite Hp, !string_app_assoc at 1|]. by bool_hyps.
Qed.

(** ** Claims *)

(** The accounts of a validated registry are disjoint: two rows that share an id,
    an owner, a managed repository or a bound scale set are the same row, and every
    scale-set binding names a managed repository of its own tenant. *)
Theorem registry_accounts_disjoint (r : Registry) (t1 t2 : Tenant) :
  Registry_Validate r = Ok tt → t1 ∈ Tenants r → t2 ∈ Tenants r →
  (ID t1 = ID t2 ∨ Owner t1 = Owner t2 ∨
   (∃ repository, repository ∈ ManagedRepositories t1 ∧ repository ∈ ManagedRepositories t2) ∨
   (∃ scaleSet, is_Some (RepositoryForScaleSet t1 scaleSet) ∧ is_Some (RepositoryForScaleSet t2 scaleSet)) → t1 = t2) ∧
  (∀ scaleSet repository, RepositoryForScaleSet t1 scaleSet = Some repository → repository ∈ ManagedRepositories t1 ∧
     in_owner (Owner t1) repository = true).
Proof.
  intros Hv H1 H2. apply Registry_Validate_ok in Hv as [Hall Hpairs]. rewrite Forall_forall in Hall.
  pose proof (Hall _ H1) as Hr1. pose proof (Hall _ H2) as Hr2. split.
  - intros Hsame. assert (∀ a b, row_ok a → row_ok b →
      (ID a = ID b ∨ Owner a = Owner b ∨ (∃ repository, repository ∈ ManagedRepositories a ∧ repository ∈ ManagedRepositories b) ∨
       (∃ scaleSet, is_Some (RepositoryForScaleSet a scaleSet) ∧ is_Some (RepositoryForScaleSet b scaleSet))) → ¬ apart a b) as Hno.
    { intros a b Ha Hb H (Hid & Ho & Hs). destruct H as [H|[H|[(repo & Hra & Hrb)|(ss & Hsa & Hsb)]]]; [|done| |].
      - rewrite H in Hid. assert (String.le (ID b) (ID b)) as Hle by reflexivity. unfold String.le in Hle. by rewrite Hid in Hle.
      - apply Ho. eapply in_owner_inj; by eapply row_managed.
      - unfold RepositoryForScaleSet in *. rewrite (Hs _ Hsa) in Hsb. by destruct Hsb. }
    eapply ord_pairs_same; [done|done|done|by apply Hno|]. apply Hno; try done.
    destruct Hsame as [->|[->|[(? & ? & ?)|(? & ? & ?)]]]; eauto 10.
  - intros ss repo Hs. split; [by eapply row_scale_sets|]. apply Hr1. by eapply row_scale_sets.
Qed.

(** C12: No repository URL is within two tenants: in a validated registry whose owners
    are single path segments, the provider's boundary check admits a URL for at
    most one row, whatever the URL is; and a URL it admits for a row is one the
    registry-wide check admits too. *)
Theorem tenant_boundary_exclusive (r : Registry) (t1 t2 : Tenant) (url : string) :
  Registry_Validate r = Ok tt → (∀ t, t ∈ Tenants r → contains_byte slash (Owner t) = false) →
  t1 ∈ Tenants r → t2 ∈ Tenants r →
  repositoryWithinTenant t1 url = true → 
  (repositoryWithinTenant t2 url = true → t1 = t2) ∧ isRegisteredRepositoryURL (Tenants r) url = true.
Proof.
  intros Hv Hslash H1 H2 Hw1. apply Registry_Validate_ok in Hv as [Hall Hpairs]. rewrite Forall_forall in Hall. split.
  - intros Hw2.
    assert (Owner t1 = Owner t2) as Ho.
    { apply repositoryWithinTenant_shape in Hw1; [|by apply Hall]. apply repositoryWithinTenant_shape in Hw2; [|by apply Hall].
      pose proof (Hslash _ H1) as Hs1. pose proof (Hslash _ H2) as Hs2.
      destruct Hw1 as [->|(n1 & -> & Hn1)], Hw2 as [Hu|(n2 & Hu & Hn2)]; apply (inj (String.app _)) in Hu.
      - done.
      - rewrite Hu, contains_byte_app in Hs1. simpl in Hs1. by rewrite orb_true_r in Hs1.
      - rewrite <-Hu, contains_byte_app in Hs2. simpl in Hs2. by rewrite orb_true_r in Hs2.
      - by apply app_sep_inj in Hu as [? _]. }
    eapply ord_pairs_same; [done|done|done| |]; intros (_ & ? & _); congruence.
  - unfold isRegisteredRepositoryURL. apply orb_true_iff. unfold repositoryWithinTenant in Hw1. apply orb_true_iff in Hw1 as [Hw1|Hw1].
    + left. apply bool_decide_eq_true in Hw1 as ->. apply bool_decide_eq_true_2. unfold RepositoryURLs.
      apply elem_of_list_to_set, list_elem_of_bind. exists t1. split; [|done]. apply list_elem_of_fmap.
      exists (Repository t1). split; [done|]. apply Hall. done.
    + right. apply andb_true_iff in Hw1 as [Hwhole Hw1]. apply existsb_exists. eexists. split; [|exact Hw1].
      apply list_elem_of_In, elem_of_elements. unfold AccountURLPrefixes. apply elem_of_list_to_set, list_elem_of_fmap.
      exists t1. split; [done|]. apply list_elem_of_In, List.filter_In. split; [by apply list_elem_of_In|done].
Qed.

(** The compiled example rows pass the validation of a deployed registry. *)
Example ExampleRegistry_valid : Registry_Validate ExampleRegistry = Ok tt.
Proof. vm_compute. reflexivity. Qed.

Definition example_row (id : string) : Tenant :=
  match ByID id with Ok t => t | Err _ => {| ID := ""; Owner := ""; Repository := ""; ManagedRepositories := []; AppSlug := "";
    CredentialName := ""; HomepageURL := ""; ServesWholeAccount := false; ScaleSetRepositories := ∅ |} end.

Lemma example_rows : Tenants ExampleRegistry = [example_row "example"; example_row "example-guild"; example_row "example-media"].
Proof. vm_compute. reflexivity. Qed.

Lemma registry_accounts_disjoint_witness :
  let t := example_row "example" in
  (ID t = ID t ∨ Owner t = Owner t ∨
   (∃ repository, repository ∈ ManagedRepositories t ∧ repository ∈ ManagedRepositories t) ∨
   (∃ scaleSet, is_Some (RepositoryForScaleSet t scaleSet) ∧ is_Some (RepositoryForScaleSet t scaleSet)) → t = t) ∧
  (∀ scaleSet repository, RepositoryForScaleSet t scaleSet = Some repository → repository ∈ ManagedRepositories t ∧
     in_owner (Owner t) repository = true).
Proof.
  apply (registry_accounts_disjoint ExampleRegistry (example_row "example") (example_row "example"));
    [vm_compute; reflexivity|rewrite example_rows; apply list_elem_of_here..].
Defined.

Lemma tenant_boundary_exclusive_witness :
  let url := "https://github.com/example-guild/anything" in
  (repositoryWithinTenant (example_row "example-guild") url = true → example_row "example-guild" = example_row "example-guild") ∧
  isRegisteredRepositoryURL (Tenants ExampleRegistry) url = true.
Proof.
  apply (tenant_boundary_exclusive ExampleRegistry (example_row "example-guild") (example_row "example-guild"));
    [vm_compute; reflexivity| |rewrite example_rows; apply list_elem_of_further, list_elem_of_here..|vm_compute; reflexivity].
  rewrite example_rows. intros t [->|[->|[->|Ht]%elem_of_cons]%elem_of_cons]%elem_of_cons; try (vm_compute; reflexivity).
  by apply not_elem_of_nil in Ht.
Defined.
