(* ===== verification/QueueReader.v ===== *)
(** * Readers and side writers of the queue journal
    ([src/internal/queueintent])

    The provider, the observer and the cache broker read the journal GARM writes.
    The broker also binds a started runner to its intent and releases intents of
    runners without a lease, and an operator may remove one exact stale intent.
    The journal's records are those of [QueueIntent], decoded from the same JSON. *)

From S2P Require Import Prelude Tenant QueueIntent QueueOps.

Local Open Scope Z_scope.
Local Open Scope go_scope.

(** ** Validation *)

Definition SchemaVersion : Z := 6.
Definition LegacySchemaVersion : Z := 1.
Definition PreviousSchemaVersion : Z := 5.
Definition maxJournalBytes : Z := 4 * 1024 * 1024.

Definition validText (value : string) : bool :=
  negb (bool_decide (value = "")) && (String.length value <=? 1024)%nat && trimmed value &&
  negb (contains_any [carriage_return; line_feed; nul_byte] value).

Definition validRepository (repository : string) : bool :=
  match split_byte slash repository with
  | [owner; name] => validText owner && validText name
  | _ => false
  end.

Definition validAccountOrRepository (value : string) : bool :=
  if validRepository value then true else negb (contains_byte slash value) && validText value.

Definition intentKey (scaleSetID : Z) (jobID : string) : string :=
  "github-scale-set-job:v2:" +:+ pretty scaleSetID +:+ ":" +:+ jobID.

Definition intent_valid (key : string) (i : queueIntent) : bool :=
  negb (bool_decide (key = "") || negb (bool_decide (Key i = key)) || negb (bool_decide (Key i = intentKey (ScaleSetID i) (JobID i)))) &&
  negb ((ScaleSetID i <=? 0) || negb (validText (JobID i)) || (RunnerRequestID i <? 0) || (WorkflowRunID i <? 0)
        || (GitHubRunnerID i <? 0) || negb (validText (ScaleSetName i))
        || (negb (bool_decide (JobDisplayName i = "")) && negb (validText (JobDisplayName i)))
        || (negb (bool_decide (RunnerName i = "")) && negb (validText (RunnerName i)))
        || negb (validAccountOrRepository (Repository i)) || negb (validText (WorkflowRef i)) || negb (validText (EventName i))) &&
  negb (IsZero (QueueTime i) || IsZero (StateEnteredAt i) || IsZero (UpdatedAt i) || IsZero (ExpiresAt i)
        || After (StateEnteredAt i) (UpdatedAt i) || Before (ExpiresAt i) (UpdatedAt i)) &&
  negb ((Priority i <? 0) || (3 <? Priority i)) &&
  match State i with OtherQueueState _ => false | _ => true end.

Definition repository_valid (key : string) (s : queueRepositoryState) : bool :=
  negb (negb (validAccountOrRepository key) || negb (bool_decide (RepositoryState_Repository s = key))
        || (Weight s =? 0) || (100 <? Weight s)).

Definition terminal_valid (jobID : string) (expiry : Time) : bool := negb (negb (validText jobID) || IsZero expiry).

Definition Reader_Validate (j : queueIntentJournal) : result unit :=
  fail_if (negb (Journal_SchemaVersion j =? SchemaVersion)) (Errorf "queue-intent journal schema_version must be %d" []);;
  fail_if (negb (forallb (λ ki, intent_valid ki.1 ki.2) (map_to_list (Intents j)))) (Errorf "queue intent %q is invalid" []);;
  fail_if (negb (forallb (λ rs, repository_valid rs.1 rs.2) (map_to_list (Repositories j))))
    (Errorf "repository scheduler state %q is invalid" []);;
  fail_if (negb (forallb (λ te, terminal_valid te.1 te.2) (map_to_list (TerminalJobs j))))
    (Errorf "terminal queue job %q is invalid" []).

(** ** Reading *)

(** The document with the current schema version. *)
Definition upgraded (d : QueueDocument) (intents : option (gmap string queueIntent)) (terminal : option (gmap string Time)) : QueueDocument := {|
  Document_SchemaVersion := SchemaVersion; Document_Generation := Document_Generation d; Document_UpdatedAt := Document_UpdatedAt d;
  Document_Intents := intents; Document_Repositories := Document_Repositories d; Document_TerminalJobs := terminal |}.

Definition enter_at_update (i : queueIntent) : queueIntent := set_phase (State i) (UpdatedAt i) (UpdatedAt i) (ExpiresAt i) i.

Definition reader_upgrade (d : QueueDocument) : result QueueDocument :=
  let version := Document_SchemaVersion d in
  if (version =? LegacySchemaVersion) || (version =? 2)
  then Ok (upgraded d (fmap (M := gmap string) enter_at_update <$> Document_Intents d) (Some ∅))
  else if (version =? 3) || (version =? 4) then Ok (upgraded d (Document_Intents d) (Some ∅))
  else if version =? PreviousSchemaVersion then Ok (upgraded d (Document_Intents d) (Document_TerminalJobs d))
  else if version =? SchemaVersion then Ok d
  else Err (Errorf "queue-intent journal schema_version must be %d" []).

Definition decoded_journal (d : QueueDocument) : result queueIntentJournal :=
  match Document_Intents d, Document_Repositories d, Document_TerminalJobs d with
  | Some intents, Some repositories, Some terminal =>
      let j := {| Journal_SchemaVersion := Document_SchemaVersion d; Generation := Document_Generation d;
                  Journal_UpdatedAt := Document_UpdatedAt d; Intents := intents; Repositories := repositories;
                  TerminalJobs := terminal |} in
      Reader_Validate j;; Ok j
  | _, _, _ => Err (Errorf "queue-intent journal maps must not be null" [])
  end.

Definition empty_journal : queueIntentJournal := {|
  Journal_SchemaVersion := SchemaVersion; Generation := 0; Journal_UpdatedAt := zero_time;
  Intents := ∅; Repositories := ∅; TerminalJobs := ∅ |}.

(** The checks of the path are part of [content]; a file that grants anything to its
    group or to others is refused. *)
Definition readJournal (file : QueueFile) : result queueIntentJournal :=
  match file with
  | NoQueueFile => Ok empty_journal
  | QueueContent size perm content =>
      fail_if (grants perm 63) (Errorf "queue-intent journal must be a private regular file" []);;
      fail_if (maxJournalBytes <? size) (Errorf "queue-intent journal exceeds %d bytes" []);;
      d ← content; d ← reader_upgrade d; decoded_journal d
  end.

Record Snapshot := {
  Snapshot_Generation : Z;
  Stored : Z;
  Expired : Z;
  Snapshot_TerminalJobs : Z;
  TerminalNextExpirySeconds : Z;
  Snapshot_Active : list queueIntent;
}.

(** [int64(expiry.Sub(now).Seconds())], negative values raised to zero. *)
Definition remaining_seconds (now expiry : Time) : Z := Z.max 0 (Sub expiry now `quot` Second).

(** The loop over the terminal jobs, in the order the map is walked. *)
Definition next_expiry (now : Time) (walk : list (string * Time)) : Z :=
  fold_left (λ next te,
    let remaining := remaining_seconds now te.2 in
    if (next =? 0) || (remaining <? next) then remaining else next) walk 0.

Definition tombstoned_waiter (now : Time) (j : queueIntentJournal) (i : queueIntent) : bool :=
  match TerminalJobs j !! JobID i with
  | Some expiry => After expiry now && negb (bool_decide (State i = queueStateRunning))
  | None => false
  end.

Definition listed (now : Time) (j : queueIntentJournal) (i : queueIntent) : bool := After (ExpiresAt i) now && negb (tombstoned_waiter now j i).

Definition active_before (left right : queueIntent) : bool :=
  if negb (Priority left =? Priority right) then Priority left <? Priority right
  else if negb (QueueTime left =? QueueTime right) then Before (QueueTime left) (QueueTime right)
  else string_ltb (Key left) (Key right).

Section reader.
(** The order in which a map of terminal jobs is walked. *)
Context (walk : gmap string Time → list (string * Time)).

Definition snapshot_of (now : Time) (j : queueIntentJournal) : Snapshot :=
  let intents := snd <$> map_to_list (Intents j) in {|
  Snapshot_Generation := Generation j; Stored := Z.of_nat (length intents);
  Expired := Z.of_nat (length (List.filter (λ i, negb (After (ExpiresAt i) now)) intents));
  Snapshot_TerminalJobs := Z.of_nat (length (map_to_list (TerminalJobs j)));
  TerminalNextExpirySeconds := next_expiry now (walk (TerminalJobs j));
  Snapshot_Active := sort_slice active_before (List.filter (listed now j) intents) |}.

Definition ReadActive (ctx : result unit) (now : Time) (file : QueueFile) : result Snapshot :=
  wrap_err "read queue intents: %w" ctx;; j ← readJournal file; Ok (snapshot_of now j).

Definition HasActive (ctx : result unit) (now : Time) (file : QueueFile) : result bool :=
  s ← ReadActive ctx now file; Ok (negb (bool_decide (length (Snapshot_Active s) = 0%nat))).

(** ** Owners *)

(** [defaultOwner]: the account of the compiled default row. *)
Definition defaultOwner : string := match ByID DefaultID with Ok t => Tenant.Owner t | Err _ => "" end.

Definition OwnerAccount (i : queueIntent) : string := if bool_decide (Owner i = "") then defaultOwner else Owner i.

Definition serves (owner scaleSet : string) (i : queueIntent) : bool :=
  bool_decide (ScaleSetName i = scaleSet) && bool_decide (OwnerAccount i = owner) && negb (bool_decide (State i = queueStateQueued)).

Definition ActiveForScaleSet (ctx : result unit) (now : Time) (owner scaleSet : string) (file : QueueFile) : result bool :=
  fail_if (negb (validText scaleSet)) (Errorf "scale set must be exact and non-empty" []);;
  fail_if (negb (validText owner)) (Errorf "owner must be exact and non-empty" []);;
  s ← ReadActive ctx now file;
  Ok (existsb (serves owner scaleSet) (Snapshot_Active s)).

(** One intent of the loop that looks for the single repository. *)
Definition narrow (owner scaleSet repository : string) (i : queueIntent) : result string :=
  if negb (serves owner scaleSet i) || negb (HasPrefix (Repository i) (owner +:+ "/")) then Ok repository
  else
    fail_if (negb (bool_decide (repository = "")) && negb (bool_decide (repository = Repository i)))
      (Errorf "multiple repositories are active for account %q scale set %q" [owner; scaleSet]);;
    Ok (Repository i).

Definition RepositoryForScaleSet (ctx : result unit) (now : Time) (owner scaleSet : string) (file : QueueFile) : result string :=
  fail_if (negb (validText owner) || negb (validText scaleSet)) (Errorf "owner and scale set must be exact and non-empty" []);;
  s ← ReadActive ctx now file;
  repository ← foldM (narrow owner scaleSet) (Snapshot_Active s) "";
  fail_if (bool_decide (repository = "")) (Errorf "no concrete repository is active for account %q scale set %q" [owner; scaleSet]);;
  Ok repository.
End reader.

(** [WaitSince]. *)
Definition WaitSince (i : queueIntent) : Time := if negb (IsZero (FirstQueuedAt i)) then FirstQueuedAt i else QueueTime i.

(** ** Correlation of a started runner (correlation_linux.go) *)

Record RunningCorrelation := {
  Correlation_RunnerName : string;
  PoolName : string;
  Correlation_Repository : string;
  Correlation_WorkflowRunID : Z;
  Correlation_JobDisplayName : string;
  Correlation_WorkflowRef : string;
}.

Record CorrelationResult := {
  Result_Key : string;
  Result_Generation : Z;
  Changed : bool;
}.

Definition ErrRunningCorrelationNotReady : error := Errorf "exact running queue intent is not ready" [].

(** [errors.Is(err, ErrRunningCorrelationNotReady)]. *)
Fixpoint is_not_ready (e : error) : bool :=
  match e with
  | Errorf format _ => bool_decide (format = "exact running queue intent is not ready")
  | Wrapf _ _ inner => is_not_ready inner
  end.

Definition validateRunningCorrelation (c : RunningCorrelation) : result unit :=
  fail_if (negb (validText (Correlation_RunnerName c)) || negb (validText (PoolName c)) || negb (validRepository (Correlation_Repository c))
           || (Correlation_WorkflowRunID c <=? 0) || negb (validText (Correlation_JobDisplayName c))
           || negb (validText (Correlation_WorkflowRef c)))
    (Errorf "running correlation identity is incomplete" []).

(** [strings.SplitN(repository, "/", 2)[0]]. *)
Definition account (repository : string) : string := hd "" (split_byte slash repository).

Definition jobDisplayMatchesHook (displayName jobKey : string) : bool :=
  bool_decide (displayName = jobKey) || HasPrefix displayName (jobKey +:+ " / ").

Definition same_account (c : RunningCorrelation) (i : queueIntent) : bool :=
  let owner := account (Correlation_Repository c) in
  bool_decide (OwnerAccount i = owner) &&
  (bool_decide (Repository i = owner) || bool_decide (Repository i = Correlation_Repository c)).

Definition same_run (c : RunningCorrelation) (i : queueIntent) : bool :=
  (WorkflowRunID i =? 0) || (WorkflowRunID i =? Correlation_WorkflowRunID c).

Definition authorizes (c : RunningCorrelation) (now : Time) (i : queueIntent) : bool :=
  After (ExpiresAt i) now && bool_decide (ScaleSetName i = PoolName c) &&
  match State i with
  | queueStateAssigned | queueStateAcquiring | queueStateAcquired | queueStateRunning => true
  | _ => false
  end && same_account c i && same_run c i.

Definition authorizeOnce (ctx : result unit) (c : RunningCorrelation) (now : Time) (file : QueueFile) : result unit :=
  ctx;; j ← readJournal file;
  if existsb (λ ki, authorizes c now ki.2) (map_to_list (Intents j)) then Ok tt else Err ErrRunningCorrelationNotReady.

(** Runs [once] up to [attempts] times while it is not ready; [waits] says whether
    the context ends during the wait after an attempt. *)
Fixpoint retry {W A} (once : nat → W → W * result A) (waits : nat → result unit) (cancelled : string) (attempts n : nat) (w : W)
    : W * result A :=
  let '(w, r) := once n w in
  match r, attempts with
  | Err e, S attempts =>
      if is_not_ready e then
        match waits n with
        | Err stopped => (w, Err (Wrapf cancelled [] stopped))
        | Ok _ => retry once waits cancelled attempts (S n) w
        end
      else (w, r)
  | _, _ => (w, r)
  end.

(** The number of further attempts after the first; the default is 20 in all. *)
Definition further_attempts (attempts : Z) : nat := Z.to_nat (if attempts <=? 0 then 19 else attempts - 1).

(** [view n] is the clock and the file at the [n]-th attempt. *)
Definition AuthorizeRunning (attempts : Z) (ctx : nat → result unit) (waits : nat → result unit) (c : RunningCorrelation)
    (view : nat → Time * QueueFile) : result unit :=
  validateRunningCorrelation c;;
  (retry (λ n (_ : unit), (tt, authorizeOnce (ctx n) c (view n).1 (view n).2)) waits "authorize running correlation: %w"
    (further_attempts attempts) 0%nat tt).2.

(** The running intent of this runner, and the one that may become it. *)
Definition exact_running (c : RunningCorrelation) (now : Time) (i : queueIntent) : bool :=
  bool_decide (State i = queueStateRunning) && bool_decide (RunnerName i = Correlation_RunnerName c) &&
  After (ExpiresAt i) now && same_account c i.

Definition bindable (c : RunningCorrelation) (now : Time) (i : queueIntent) : bool :=
  bool_decide (ScaleSetName i = PoolName c) && After (ExpiresAt i) now &&
  match State i with queueStateAssigned | queueStateAcquiring | queueStateAcquired => true | _ => false end &&
  same_account c i && jobDisplayMatchesHook (JobDisplayName i) (Correlation_JobDisplayName c) && same_run c i.

Definition matching (select : queueIntent → bool) (j : queueIntentJournal) : list (string * queueIntent) :=
  List.filter (λ ki, select ki.2) (map_to_list (Intents j)).

(** The intent to bind and whether it already runs. *)
Definition find_intent (c : RunningCorrelation) (now : Time) (j : queueIntentJournal) : result (string * queueIntent * bool) :=
  match matching (exact_running c now) j with
  | [ki] => Ok (ki, true)
  | _ :: _ :: _ => Err (Errorf "runner identity maps to multiple running queue intents" [])
  | [] =>
      match matching (bindable c now) j with
      | [ki] => Ok (ki, false)
      | _ :: _ :: _ => Err (Errorf "pool, repository and job identity map to multiple active queue intents" [])
      | [] => Err ErrRunningCorrelationNotReady
      end
  end.

Definition placeholder_ref (ref : string) : bool := bool_decide (ref = "") || bool_decide (ref = "unavailable-before-job-available").

Definition bound_intent (c : RunningCorrelation) (now : Time) (exactRunning : bool) (i : queueIntent) : queueIntent :=
  let i := set_WorkflowRunID (Correlation_WorkflowRunID c) (set_Repository (Correlation_Repository c) i) in
  let i := if exactRunning then i
           else set_RunnerName (Correlation_RunnerName c) (set_phase queueStateRunning now (UpdatedAt i) (ExpiresAt i) i) in
  let i := if bool_decide (JobDisplayName i = "") then set_JobDisplayName (Correlation_JobDisplayName c) i else i in
  let i := if placeholder_ref (WorkflowRef i) then set_WorkflowRef (Correlation_WorkflowRef c) i else i in
  set_UpdatedAt now i.

Definition needs_binding (c : RunningCorrelation) (exactRunning : bool) (i : queueIntent) : bool :=
  negb exactRunning || (WorkflowRunID i =? 0) || negb (bool_decide (Repository i = Correlation_Repository c))
  || (bool_decide (JobDisplayName i = "") && negb (bool_decide (Correlation_JobDisplayName c = "")))
  || (placeholder_ref (WorkflowRef i) && negb (bool_decide (Correlation_WorkflowRef c = ""))).

(** The bound journal, or [None] when nothing changes. *)
Definition bind_journal (c : RunningCorrelation) (now : Time) (j : queueIntentJournal)
    : result (option queueIntentJournal * CorrelationResult) :=
  found ← find_intent c now j;
  let '(key, i, exactRunning) := (found : string * queueIntent * bool) in
  fail_if (negb (same_run c i)) (Errorf "running queue intent has conflicting workflow run identity" []);;
  if negb (needs_binding c exactRunning i)
  then Ok (None, {| Result_Key := key; Result_Generation := Generation j; Changed := false |})
  else
    let j := next_generation now (with_intents (<[key := bound_intent c now exactRunning i]> (Intents j)) j) in
    Reader_Validate j;;
    Ok (Some j, {| Result_Key := key; Result_Generation := Generation j; Changed := true |}).

(** One attempt under the lock; [queue_lock] holds the outcome of the context,
    path and lock checks. *)
Definition bindOnce (env : QueueEnv) (c : RunningCorrelation) (file : QueueFile) : QueueFile * result CorrelationResult :=
  match (queue_lock env;; j ← readJournal file; bind_journal c (queue_now env) j) with
  | Err e => (file, Err e)
  | Ok (None, r) => (file, Ok r)
  | Ok (Some j, r) =>
      let '(file', w) := writeQueueIntentJournal (queue_encoded_size env) (queue_write env) file j in (file', w;; Ok r)
  end.

(** Between two attempts the coordinator may replace the file: [between]. *)
Definition BindRunning (attempts : Z) (waits : nat → result unit) (env : nat → QueueEnv) (between : nat → QueueFile → QueueFile)
    (c : RunningCorrelation) (file : QueueFile) : QueueFile * result CorrelationResult :=
  match validateRunningCorrelation c with
  | Err e => (file, Err e)
  | Ok _ => retry (λ n f, bindOnce (env n) c (between n f)) waits "bind running correlation: %w" (further_attempts attempts) 0%nat file
  end.

(** ** Release of running intents without a lease *)

Definition uncovered (covered : gset string) (grace : Duration) (now : Time) (i : queueIntent) : bool :=
  bool_decide (State i = queueStateRunning) && negb (bool_decide (RunnerName i = ""))
  && negb (bool_decide (RunnerName i ∈ covered)) && negb (Sub now (StateEnteredAt i) <? grace).

Definition release_journal (covered : gset string) (grace : Duration) (now : Time) (j : queueIntentJournal)
    : result (option queueIntentJournal * list string) :=
  let released := sort_strings ((λ ki, RunnerName ki.2) <$> matching (uncovered covered grace now) j) in
  if bool_decide (released = []) then Ok (None, [])
  else
    let j := next_generation now (with_intents (filter (λ ki, uncovered covered grace now ki.2 = false) (Intents j)) j) in
    Reader_Validate j;; Ok (Some j, released).

Definition ReleaseUncoveredRunning (env : QueueEnv) (covered : gset string) (grace : Duration) (file : QueueFile)
    : QueueFile * result (list string) :=
  if grace <=? 0 then (file, Err (Errorf "release grace must be positive" []))
  else
    match (queue_lock env;; j ← readJournal file; release_journal covered grace (queue_now env) j) with
    | Err e => (file, Err e)
    | Ok (None, r) => (file, Ok r)
    | Ok (Some j, r) =>
        let '(file', w) := writeQueueIntentJournal (queue_encoded_size env) (queue_write env) file j in (file', w;; Ok r)
    end.

(** ** Removal of one exact stale intent (recovery_linux.go) *)

Inductive RecoveryKind := RecoverRunning | RecoverCanceled.

Record RecoveryResult := {
  Applied : bool;
  Recovery_Key : string;
  ExpectedUpdatedAt : Time;
  PreviousGeneration : Z;
  Recovery_Generation : Z;
  RecoveredAt : Time;
}.

Definition unbound (i : queueIntent) : bool :=
  (RunnerRequestID i =? 0) && bool_decide (Repository i = Owner i) &&
  bool_decide (WorkflowRef i = "unavailable-before-job-available") && bool_decide (EventName i = "unavailable-before-job-available").

Definition recoverable_state (kind : RecoveryKind) (i : queueIntent) : bool :=
  match kind with
  | RecoverRunning => bool_decide (State i = queueStateRunning)
  | RecoverCanceled => bool_decide (State i = queueStateQueued) || bool_decide (State i = queueStateAssigned)
  end.

Definition recover_journal (kind : RecoveryKind) (key : string) (expected : Time) (apply_ : bool) (now : Time) (j : queueIntentJournal)
    : result (option queueIntentJournal * RecoveryResult) :=
  match Intents j !! key with
  | None => Err (Errorf "exact queue intent is absent" [])
  | Some i =>
      fail_if (negb (unbound i) || negb (recoverable_state kind i))
        (Errorf "queue intent is not an unbound orphan or cancellation" []);;
      fail_if (negb (UpdatedAt i =? expected)) (Errorf "queue intent updated_at changed" []);;
      fail_if (Sub now (UpdatedAt i) <? Minute) (Errorf "queue intent is inside the recovery grace period" []);;
      let r generation applied := {| Applied := applied; Recovery_Key := key; ExpectedUpdatedAt := UpdatedAt i;
        PreviousGeneration := Generation j; Recovery_Generation := generation; RecoveredAt := now |} in
      if negb apply_ then Ok (None, r (Generation j) false)
      else
        let j' := next_generation now (with_intents (delete key (Intents j)) j) in
        Reader_Validate j';; Ok (Some j', r (Generation j') true)
  end.

Definition recoverExactUnbound (env : QueueEnv) (kind : RecoveryKind) (key : string) (expected : Time) (apply_ : bool) (file : QueueFile)
    : QueueFile * result RecoveryResult :=
  match (fail_if (negb (validText key) || IsZero expected) (Errorf "exact queue key and updated_at are required" []);;
         queue_lock env;;
         fail_if (negb (file_exists file)) (Errorf "stat queue journal: %w" []);;
         j ← readJournal file; recover_journal kind key expected apply_ (queue_now env) j) with
  | Err e => (file, Err e)
  | Ok (None, r) => (file, Ok r)
  | Ok (Some j, r) =>
      let '(file', w) := writeQueueIntentJournal (queue_encoded_size env) (queue_write env) file j in (file', w;; Ok r)
  end.

Definition RecoverUnboundRunning (env : QueueEnv) := recoverExactUnbound env RecoverRunning.
Definition RecoverCanceledUnbound (env : QueueEnv) := recoverExactUnbound env RecoverCanceled.
