(* ===== verification/QueueReaderFacts.v ===== *)
(** * Readers and side writers of the queue journal: their promises *)

From S2P Require Import Prelude Domain Tenant QueueIntent QueueOps QueueReader.

Local Open Scope Z_scope.
Local Open Scope go_scope.

(** ** The two validations *)

Lemma validText_same value : validText value = validQueueText value.
Proof. unfold validText, validQueueText, contains_any. simpl. by rewrite orb_false_r, orb_assoc. Qed.

Lemma validRepository_same repository : validRepository repository = QueueIntent.validRepository repository.
Proof.
  unfold validRepository, QueueIntent.validRepository. destruct (split_byte _ _) as [|? [|? [|]]]; try done. by rewrite !validText_same.
Qed.

Lemma validAccountOrRepository_same value : validAccountOrRepository value = validQueueAccountOrRepository value.
Proof.
  unfold validAccountOrRepository, validQueueAccountOrRepository. rewrite validRepository_same, validText_same, andb_comm.
  by destruct (QueueIntent.validRepository value).
Qed.

(** GARM also requires that an intent without a repository names its owner. *)
Definition named (i : queueIntent) : bool := queueIntentRepositoryBound i || bool_decide (Repository i = Owner i).

(** Splits conjunctions of refusals in the hypotheses and in the goal, keeping
    the tests as they are. *)
Ltac split_tests :=
  repeat match goal with
  | H : (_ && _) = true |- _ => apply andb_true_iff in H as [? ?]
  | H : negb (_ || _) = true |- _ => apply negb_true_iff in H
  | H : (_ || _) = false |- _ => apply orb_false_iff in H as [? ?]
  | |- (_ && _) = true => apply andb_true_iff; split
  | |- negb (_ || _) = true => apply negb_true_iff
  | |- (_ || _) = false => apply orb_false_iff; split
  end; try assumption.

Lemma intent_ok_valid key i : intent_ok key i = true → 0 ≤ UpdatedAt i → intent_valid key i = true ∧ named i = true.
Proof.
  unfold intent_ok, intent_valid, named. rewrite !validText_same, validAccountOrRepository_same. intros H Hu. split.
  - split_tests. unfold Before, IsZero, zero_time in *. bool_hyps. apply bool_decide_eq_false. lia.
  - apply andb_true_iff in H as [H _]. apply andb_true_iff in H as [_ H].
    by destruct (queueIntentRepositoryBound i), (bool_decide (Repository i = Owner i)).
Qed.

Lemma intent_valid_ok key i : intent_valid key i = true → named i = true → intent_ok key i = true.
Proof.
  unfold intent_ok, intent_valid, named. rewrite !validText_same, validAccountOrRepository_same. intros H Hn.
  assert (negb (negb (queueIntentRepositoryBound i) && negb (bool_decide (Repository i = Owner i))) = true) as Hn'
    by (by destruct (queueIntentRepositoryBound i), (bool_decide (Repository i = Owner i))).
  split_tests.
Qed.

Lemma repository_valid_same key s : repository_valid key s = repository_state_ok key s.
Proof. unfold repository_valid, repository_state_ok. by rewrite validAccountOrRepository_same. Qed.

Lemma terminal_valid_same jobID expiry : terminal_valid jobID expiry = terminal_ok jobID expiry.
Proof. unfold terminal_valid, terminal_ok. by rewrite validText_same. Qed.

Lemma forallb_map {V} (P : string → V → bool) (m : gmap string V) :
  forallb (λ kv, P kv.1 kv.2) (map_to_list m) = true ↔ ∀ k v, m !! k = Some v → P k v = true.
Proof.
  rewrite forallb_forall. split.
  - intros H k v Hk. apply (H (k, v)). by apply list_elem_of_In, elem_of_map_to_list.
  - intros H [k v] Hin. apply H. by apply elem_of_map_to_list, list_elem_of_In.
Qed.

Lemma if_Err_Ok (b : bool) (k : result unit) e : (if b then Err e else k) = Ok tt ↔ b = false ∧ k = Ok tt.
Proof. destruct b; naive_solver. Qed.

(** Both validations as facts about the entries. *)
Lemma Reader_Validate_iff j :
  Reader_Validate j = Ok tt ↔
  Journal_SchemaVersion j = 6 ∧ (∀ k i, Intents j !! k = Some i → intent_valid k i = true) ∧
  (∀ k s, Repositories j !! k = Some s → repository_state_ok k s = true) ∧
  (∀ k t, TerminalJobs j !! k = Some t → terminal_ok k t = true).
Proof.
  unfold Reader_Validate. rewrite !fail_if_Ok_bind, !if_Err_Ok, fail_if_Ok, !negb_false_iff, !forallb_map. unfold SchemaVersion. rewrite Z.eqb_eq.
  setoid_rewrite repository_valid_same. by setoid_rewrite terminal_valid_same.
Qed.

Lemma Journal_Validate_iff j :
  Journal_Validate j = Ok tt ↔
  Journal_SchemaVersion j = 6 ∧ (∀ k i, Intents j !! k = Some i → intent_ok k i = true) ∧
  (∀ k s, Repositories j !! k = Some s → repository_state_ok k s = true) ∧
  (∀ k t, TerminalJobs j !! k = Some t → terminal_ok k t = true).
Proof.
  unfold Journal_Validate. rewrite !fail_if_Ok_bind, !if_Err_Ok, fail_if_Ok, !negb_false_iff, !forallb_map.
  unfold queueIntentSchemaVersion. by rewrite Z.eqb_eq.
Qed.

(** Times after the zero time, as every clock gives them. *)
Definition dated (j : queueIntentJournal) : Prop := ∀ k i, Intents j !! k = Some i → 0 ≤ UpdatedAt i.
Definition all_named (j : queueIntentJournal) : Prop := ∀ k i, Intents j !! k = Some i → named i = true.

Lemma coordinator_valid_reader j : Journal_Validate j = Ok tt → dated j → Reader_Validate j = Ok tt ∧ all_named j.
Proof.
  rewrite Journal_Validate_iff, Reader_Validate_iff. intros (Hv & Hi & Hr & Ht) Hd. split; [split_and!; try done|].
  - intros k i Hk. by apply intent_ok_valid; [apply Hi|eapply Hd].
  - intros k i Hk. eapply intent_ok_valid; [by apply Hi|by eapply Hd].
Qed.

Lemma reader_valid_coordinator j : Reader_Validate j = Ok tt → all_named j → Journal_Validate j = Ok tt.
Proof.
  rewrite Journal_Validate_iff, Reader_Validate_iff. intros (Hv & Hi & Hr & Ht) Hn. split_and!; try done.
  intros k i Hk. apply intent_valid_ok; [by apply Hi|by eapply Hn].
Qed.

(** No permission bit is set for the group or for others. *)
Definition owner_only (file : QueueFile) : bool :=
  match file with
  | NoQueueFile => true
  | QueueContent _ perm _ => forallb (λ bit, negb (Z.testbit perm bit)) [0; 1; 2; 3; 4; 5]
  end.

Lemma owner_only_grants size perm content : owner_only (QueueContent size perm content) = negb (grants perm 63).
Proof.
  unfold owner_only, grants. rewrite negb_involutive. apply eq_bool_prop_intro. rewrite !Is_true_true, forallb_forall, Z.eqb_eq. split.
  - intros H. apply Z.bits_inj'. intros n Hn. rewrite Z.land_spec, Z.bits_0. change 63 with (Z.ones 6). rewrite Z.testbit_ones_nonneg by lia.
    destruct (n <? 6) eqn:Hlt; [|by rewrite andb_false_r]. rewrite andb_true_r. apply negb_true_iff, H.
    assert (n = 0 ∨ n = 1 ∨ n = 2 ∨ n = 3 ∨ n = 4 ∨ n = 5) as Hc by lia. simpl. intuition congruence.
  - intros H n Hn. apply negb_true_iff. apply (f_equal (λ z, Z.testbit z n)) in H. rewrite Z.land_spec, Z.bits_0 in H.
    assert (Z.testbit 63 n = true) as Hb by (simpl in Hn; intuition (subst; done)). by rewrite Hb, andb_true_r in H.
Qed.

(** The reader accepts what the coordinator reads, unless its mode lets the group in. *)
Lemma readJournal_coordinator file j :
  current_journal file = Ok j → dated j → owner_only file = true → readJournal file = Ok j.
Proof.
  destruct file as [|size perm content]; [done|]. rewrite owner_only_grants.
  unfold current_journal, readQueueIntentJournal, readJournal, queueIntentMaxBytes, maxJournalBytes.
  destruct (grants perm 23); [done|]. destruct (grants perm 63); [done|].
  destruct (_ <? size); [done|]. destruct content as [d|]; [|done]. cbn [fail_if mbind result_bind].
  change (reader_upgrade d) with (upgrade d). destruct (upgrade d) as [d'|]; [|done]. cbn [mbind result_bind]. unfold journal_of, decoded_journal.
  destruct (Document_Intents d'), (Document_Repositories d'), (Document_TerminalJobs d'); try done.
  intros H Hd _. apply bind_Ok in H as ([] & Hv & [= <-]). apply coordinator_valid_reader in Hv as [Hv _]; [|done]. by rewrite Hv.
Qed.

Lemma readJournal_shared file : owner_only file = false → ∃ e, readJournal file = Err e.
Proof.
  destruct file as [|size perm content]; [done|]. rewrite owner_only_grants. intros H%negb_false_iff. unfold readJournal. rewrite H. by eexists.
Qed.

Lemma readJournal_cases file j :
  current_journal file = Ok j → dated j → readJournal file = Ok j ∨ ∃ e, readJournal file = Err e.
Proof.
  intros Hj Hd. destruct (owner_only file) eqn:Ho; [left; by apply readJournal_coordinator|right; by apply readJournal_shared].
Qed.

Lemma current_journal_valid file j : current_journal file = Ok j → Journal_Validate j = Ok tt.
Proof.
  destruct file as [|size perm content]; [intros [= <-]; vm_compute; done|]. unfold current_journal, readQueueIntentJournal.
  rewrite !fail_if_Ok_bind. destruct (grants perm 23); [done|]. destruct (_ <? size); [done|]. intros H. apply bind_Ok in H as (d & _ & H). apply bind_Ok in H as (d' & _ & H).
  unfold journal_of in H. destruct (Document_Intents d'), (Document_Repositories d'), (Document_TerminalJobs d'); try done.
  by apply bind_Ok in H as ([] & Hv & [= <-]).
Qed.

(** ** Binding *)

Lemma elem_of_matching select j k i : (k, i) ∈ matching select j ↔ Intents j !! k = Some i ∧ select i = true.
Proof.
  unfold matching. rewrite list_elem_of_In, List.filter_In, <-list_elem_of_In, elem_of_map_to_list. done.
Qed.

Lemma NoDup_matching select j : NoDup (matching select j).
Proof. unfold matching. apply NoDup_ListNoDup, List.NoDup_filter, NoDup_ListNoDup, NoDup_map_to_list. Qed.

(** Exactly one intent is selected. *)
Lemma matching_unique select j k i :
  Intents j !! k = Some i → select i = true → (∀ k' i', Intents j !! k' = Some i' → select i' = true → k' = k) →
  matching select j = [(k, i)].
Proof.
  intros Hk Hs Hu. apply Permutation_singleton_r. symmetry. apply NoDup_Permutation; [apply NoDup_singleton|apply NoDup_matching|].
  intros [k' i']. rewrite list_elem_of_singleton, elem_of_matching. split; [by intros [= -> ->]|].
  intros [Hk' Hs']. pose proof (Hu _ _ Hk' Hs') as ->. congruence.
Qed.

Lemma matching_nil select j k i : matching select j = [] → Intents j !! k = Some i → select i = true → False.
Proof. intros Hm Hk Hs. assert ((k, i) ∈ matching select j) as H by (by apply elem_of_matching). rewrite Hm in H. by apply not_elem_of_nil in H. Qed.

Lemma matching_single select j k i k' i' :
  matching select j = [(k, i)] → Intents j !! k' = Some i' → select i' = true → k' = k.
Proof.
  intros Hm Hk Hs. assert ((k', i') ∈ matching select j) as H by (by apply elem_of_matching). rewrite Hm in H.
  apply list_elem_of_singleton in H. congruence.
Qed.

Lemma find_intent_spec c now j k i b :
  find_intent c now j = Ok (k, i, b) →
  Intents j !! k = Some i ∧ same_account c i = true ∧ After (ExpiresAt i) now = true ∧
  (b = true → State i = queueStateRunning ∧ RunnerName i = Correlation_RunnerName c) ∧
  (∀ k' i', Intents j !! k' = Some i' → exact_running c now i' = true → k' = k).
Proof.
  unfold find_intent. destruct (matching (exact_running c now) j) as [|[k1 i1] [|]] eqn:Hm; try done.
  - destruct (matching (bindable c now) j) as [|[k2 i2] [|]] eqn:Hb; try done. intros [= <- <- <-].
    assert ((k2, i2) ∈ matching (bindable c now) j) as Hin by (rewrite Hb; apply list_elem_of_here).
    apply elem_of_matching in Hin as [Hk Hs]. unfold bindable in Hs. bool_hyps. split_and!; try done.
    intros k' i' Hk' Hx. by destruct (matching_nil _ _ _ _ Hm Hk' Hx).
  - intros [= <- <- <-]. assert ((k1, i1) ∈ matching (exact_running c now) j) as Hin by (rewrite Hm; apply list_elem_of_here).
    apply elem_of_matching in Hin as [Hk Hs]. unfold exact_running in Hs. bool_hyps. split_and!; try done.
    intros k' i' Hk' Hx. eapply (matching_single (exact_running c now)); try done.
Qed.

Lemma split_byte_without c s : contains_byte c s = false → split_byte c s = [s].
Proof.
  induction s as [|a s IH]; simpl; [done|]. intros H. bool_hyps. rewrite bool_decide_eq_false_2 by done. by rewrite IH.
Qed.

Lemma validRepository_slash repository : validRepository repository = true → contains_byte slash repository = true.
Proof.
  unfold validRepository. intros H. destruct (contains_byte slash repository) eqn:Hc; [done|]. by rewrite split_byte_without in H.
Qed.

(** What binding keeps and what it sets. *)
Record binds (c : RunningCorrelation) (i i' : queueIntent) : Prop := {
  binds_identity : Key i' = Key i ∧ ScaleSetID i' = ScaleSetID i ∧ JobID i' = JobID i ∧ ScaleSetName i' = ScaleSetName i ∧
    Owner i' = Owner i ∧ RunnerRequestID i' = RunnerRequestID i ∧ GitHubRunnerID i' = GitHubRunnerID i ∧ EventName i' = EventName i;
  binds_schedule : Priority i' = Priority i ∧ QueueTime i' = QueueTime i ∧ FirstQueuedAt i' = FirstQueuedAt i ∧ ExpiresAt i' = ExpiresAt i;
  binds_run : State i' = queueStateRunning ∧ RunnerName i' = Correlation_RunnerName c ∧ Repository i' = Correlation_Repository c ∧
    WorkflowRunID i' = Correlation_WorkflowRunID c;
  binds_text : JobDisplayName i' = (if bool_decide (JobDisplayName i = "") then Correlation_JobDisplayName c else JobDisplayName i) ∧
    WorkflowRef i' = (if placeholder_ref (WorkflowRef i) then Correlation_WorkflowRef c else WorkflowRef i);
}.

Lemma bound_intent_binds c now b i :
  (b = true → State i = queueStateRunning ∧ RunnerName i = Correlation_RunnerName c) → binds c i (bound_intent c now b i).
Proof.
  intros Hb. unfold bound_intent.
  destruct b; simpl; destruct (bool_decide (JobDisplayName i = "")) eqn:?; simpl; destruct (placeholder_ref (WorkflowRef i)) eqn:?; simpl;
    split; simpl; split_and!; try done; try (by apply Hb).
  all: rewrite ?Heqb, ?Heqb0; done.
Qed.

(** The journal written by a successful binding. *)
Record bound_journal (c : RunningCorrelation) (now : Time) (j j' : queueIntentJournal) (key : string) : Prop := {
  bound_change : ∃ i i', Intents j !! key = Some i ∧ binds c i i' ∧ Intents j' = <[key := i']> (Intents j) ∧
    OwnerAccount i = account (Correlation_Repository c) ∧
    (Repository i = account (Correlation_Repository c) ∨ Repository i = Correlation_Repository c) ∧
    (WorkflowRunID i = 0 ∨ WorkflowRunID i = Correlation_WorkflowRunID c) ∧ After (ExpiresAt i) now = true;
  bound_rest : Repositories j' = Repositories j ∧ TerminalJobs j' = TerminalJobs j;
  bound_unique : ∀ k i, Intents j !! k = Some i → exact_running c now i = true → k = key;
  bound_valid : Reader_Validate j' = Ok tt;
}.

Lemma same_account_spec c i : same_account c i = true →
  OwnerAccount i = account (Correlation_Repository c) ∧
  (Repository i = account (Correlation_Repository c) ∨ Repository i = Correlation_Repository c).
Proof.
  unfold same_account. intros [H1 H2]%andb_true_iff. apply orb_true_iff in H2 as [H2|H2]; bool_hyps; auto.
Qed.

Lemma bind_journal_spec c now j oj r :
  bind_journal c now j = Ok (oj, r) →
  Changed r = bool_decide (is_Some oj) ∧
  ∀ j', oj = Some j' → bound_journal c now j j' (Result_Key r) ∧ Result_Generation r = Generation j'.
Proof.
  unfold bind_journal. intros H. apply bind_Ok in H as ([[key i] b] & Hf & H). apply find_intent_spec in Hf as (Hk & Ha & He & Hb & Hu).
  apply bind_Ok in H as ([] & Hrun & H). apply fail_if_Ok, negb_false_iff in Hrun.
  destruct (negb (needs_binding c b i)); [apply Ok_inj in H; simplify_eq; split; [done|by intros]|].
  apply bind_Ok in H as ([] & Hv & H). apply Ok_inj in H. simplify_eq. split; [done|]. intros j' [= <-]. split; [|done].
  apply same_account_spec in Ha as [Ho Hr]. split; try done. exists i, (bound_intent c now b i). split_and!; try done.
  - by apply bound_intent_binds.
  - unfold same_run in Hrun. apply orb_true_iff in Hrun as [?|?]; [left|right]; lia.
Qed.

Lemma all_named_insert j k i m : all_named j → Intents m = <[k := i]> (Intents j) → named i = true → all_named m.
Proof.
  intros Hn Hm Hi k' i'. rewrite Hm. destruct (decide (k = k')) as [<-|Hne].
  - rewrite lookup_insert_eq. by intros [= <-].
  - rewrite lookup_insert_ne by done. apply Hn.
Qed.

(** ** Readers and side writers of the queue journal: the claims *)

(** C10: Every journal the coordinator reads, in any schema version it can upgrade
    and with no intent last updated before the zero time, is read by the reader of
    the provider, the observer and the broker as the same journal when the file's
    mode grants nothing to the group and to others, and is refused by it otherwise;
    every journal the coordinator or a side writer stores has such a mode.
    Conversely the coordinator accepts every such journal the reader accepts once
    each intent without a repository names its owner. *)
Theorem reader_accepts_coordinator (file : QueueFile) (j : queueIntentJournal) :
  dated j →
  (current_journal file = Ok j →
     if owner_only file then readJournal file = Ok j else ∃ e, readJournal file = Err e) ∧
  (∀ encodedSize w, let file' := (writeQueueIntentJournal encodedSize w file j).1 in file' = file ∨ owner_only file' = true) ∧
  (Reader_Validate j = Ok tt ∧ all_named j ↔ Journal_Validate j = Ok tt).
Proof.
  intros Hd. split_and!.
  - intros Hj. destruct (owner_only file) eqn:Ho; [by apply readJournal_coordinator|by apply readJournal_shared].
  - intros encodedSize []; [by right|by left|by right].
  - split; [intros [? ?]; by apply reader_valid_coordinator|intros H; by apply coordinator_valid_reader].
Qed.

(** Binding a started runner is safe for the coordinator. From a file it can
    read, one attempt leaves the file alone or stores a journal it still accepts,
    in which one intent changed: the intent belongs to the same account as the
    correlation's repository, keeps its identity, its priority and its expiry, is
    now running on this runner and names the exact repository and run; every other
    intent, the repositories and the terminal jobs are untouched. *)
Theorem bindOnce_safe (env : QueueEnv) (c : RunningCorrelation) (file : QueueFile) (j : queueIntentJournal) :
  current_journal file = Ok j → dated j → validateRunningCorrelation c = Ok tt →
  let file' := (bindOnce env c file).1 in
  file' = file ∨
  ∃ j' key, file' = stored (queue_encoded_size env) j' ∧ bound_journal c (queue_now env) j j' key ∧ Journal_Validate j' = Ok tt.
Proof.
  intros Hj Hd Hc file'. subst file'. unfold bindOnce. destruct (queue_lock env) as [[]|]; [|by left].
  destruct (readJournal_cases _ _ Hj Hd) as [->|[e ->]]; [|by left]. cbn [mbind result_bind].
  destruct (bind_journal c (queue_now env) j) as [[[j'|] r]|] eqn:Hb; [|by left..].
  apply bind_journal_spec in Hb as [_ Hb]. destruct (Hb j' eq_refl) as [Hbound _].
  assert (Journal_Validate j' = Ok tt) as Hv.
  { apply reader_valid_coordinator; [by eapply bound_valid|].
    destruct (bound_change _ _ _ _ _ Hbound) as (i & i' & Hi & [_ _ (_ & _ & Hrepo & _) _] & Hins & _).
    apply current_journal_valid in Hj. apply coordinator_valid_reader in Hj as [_ Hn]; [|done].
    eapply all_named_insert; [done|exact Hins|]. unfold named, queueIntentRepositoryBound. rewrite Hrepo.
    apply fail_if_Ok in Hc. bool_hyps. apply orb_true_iff. left. by apply validRepository_slash. }
  destruct (queue_write env); [right|by left|right]; by exists j', (Result_Key r).
Qed.

(** Binding is idempotent: after an attempt that changed the journal, repeating it
    later, before the intent expires, finds the same intent under the same key and
    generation and changes nothing. *)
Theorem bindOnce_idempotent (env env' : QueueEnv) (c : RunningCorrelation) (file file' : QueueFile) (r : CorrelationResult)
    (j : queueIntentJournal) (i : queueIntent) :
  bindOnce env c file = (file', Ok r) → Changed r = true →
  validateRunningCorrelation c = Ok tt → placeholder_ref (Correlation_WorkflowRef c) = false →
  readJournal file' = Ok j → Intents j !! Result_Key r = Some i →
  queue_lock env' = Ok tt → queue_now env ≤ queue_now env' → After (ExpiresAt i) (queue_now env') = true →
  bindOnce env' c file' = (file', Ok {| Result_Key := Result_Key r; Result_Generation := Result_Generation r; Changed := false |}).
Proof.
  intros Hb Hch Hc Href Hj' Hi Hlock Hnow Hexp. unfold bindOnce in Hb.
  destruct (queue_lock env) as [[]|]; [|done]. cbn [mbind result_bind] in Hb.
  destruct (readJournal file) as [j0|] eqn:Hj0; [|done]. cbn [mbind result_bind] in Hb.
  destruct (bind_journal c (queue_now env) j0) as [[oj r0]|] eqn:Hbj; [|done]. apply bind_journal_spec in Hbj as [Hc0 Hbj].
  destruct oj as [j1|]; [|simplify_eq; by rewrite Hc0 in Hch]. destruct (Hbj j1 eq_refl) as [Hbound Hgen]. clear Hbj.
  assert (file' = stored (queue_encoded_size env) j1 ∧ r0 = r) as [-> ->] by (by destruct (queue_write env); simplify_eq/=).
  assert (j = j1) as ->.
  { unfold readJournal, stored in Hj'. rewrite !fail_if_Ok_bind in Hj'. change (grants 384 63) with false in Hj'.
    destruct (_ <? _); [done|]. cbn [mbind result_bind] in Hj'.
    pose proof (bound_valid _ _ _ _ _ Hbound) as Hv. unfold reader_upgrade, documentOf in Hj'.
    pose proof Hv as Hver. apply Reader_Validate_iff in Hver as [Hver _]. cbn [Document_SchemaVersion] in Hj'. rewrite Hver in Hj'.
    cbn in Hj'. unfold decoded_journal in Hj'. cbn in Hj'. apply bind_Ok in Hj' as ([] & _ & [= <-]). by destruct j1; simpl in *; subst. }
  destruct Hbound as [(i0 & i' & Hi0 & Hbinds & Hins & Ho & Hr & Hw & He) _ Hu Hv].
  rewrite Hins, lookup_insert_eq in Hi. simplify_eq.
  destruct Hbinds as [(_ & _ & _ & _ & Hown & _) (_ & _ & _ & Hex) (Hst & Hrn & Hrepo & Hrun) (Hdisp & Hwref)].
  assert (exact_running c (queue_now env') i = true) as Hexact.
  { unfold exact_running, same_account, OwnerAccount in *. rewrite Hst, Hrn, Hexp, Hrepo, Hown, Ho, !bool_decide_eq_true_2 by done.
    rewrite (bool_decide_eq_true_2 (Correlation_Repository c = Correlation_Repository c)) by done. simpl. apply orb_true_r. }
  unfold bindOnce. rewrite Hlock, Hj'. cbn [mbind result_bind]. unfold bind_journal, find_intent.
  rewrite (matching_unique _ _ (Result_Key r) i); [|by rewrite Hins, lookup_insert_eq|done|]; cycle 1.
  { intros k x Hk Hx. rewrite Hins in Hk. apply lookup_insert_Some in Hk as [[-> _]|[Hne Hk]]; [done|]. apply (Hu k x Hk).
    unfold exact_running, After in *. apply andb_true_iff in Hx as [Hx ->]. apply andb_true_iff in Hx as [-> Hx].
    apply andb_true_iff. split; [|done]. apply andb_true_iff. split; [done|]. apply Z.ltb_lt in Hx. apply Z.ltb_lt. lia. }
  cbn [mbind result_bind]. unfold same_run. rewrite Hrun, Z.eqb_refl, orb_true_r. cbn [negb fail_if mbind result_bind].
  apply fail_if_Ok in Hc. bool_hyps.
  assert (needs_binding c true i = false) as ->; [|by rewrite Hgen].
  unfold needs_binding. rewrite Hrun, Hrepo, Hdisp, Hwref, bool_decide_eq_true_2 by done. cbn [negb orb].
  assert (placeholder_ref (if placeholder_ref (WorkflowRef i0) then Correlation_WorkflowRef c else WorkflowRef i0) = false) as ->
    by (destruct (placeholder_ref (WorkflowRef i0)) eqn:?; done).
  assert (Correlation_JobDisplayName c ≠ "") as Hdn by (intros Hd; rewrite Hd in *; done).
  assert (bool_decide ((if bool_decide (JobDisplayName i0 = "") then Correlation_JobDisplayName c else JobDisplayName i0) = "") = false) as ->
    by (case_bool_decide; apply bool_decide_eq_false; done).
  simpl. rewrite !orb_false_r. lia.
Qed.

(** ** Release *)

Lemma lookup_filter_uncovered covered grace now (m : gmap string queueIntent) k i :
  filter (λ ki : string * queueIntent, uncovered covered grace now ki.2 = false) m !! k = Some i ↔
  m !! k = Some i ∧ uncovered covered grace now i = false.
Proof. by rewrite map_lookup_filter_Some. Qed.

(** Releasing uncovered running intents removes exactly those: from a file the
    coordinator can read, the file is unchanged or holds a journal it still
    accepts, with the intents that run on a named runner outside [covered] for at
    least the grace removed and nothing else changed. The names returned are those
    runners, in order; none of them is covered. *)
Theorem ReleaseUncoveredRunning_exact (env : QueueEnv) (covered : gset string) (grace : Duration) (file : QueueFile) (j : queueIntentJournal) :
  current_journal file = Ok j → dated j →
  let '(file', r) := ReleaseUncoveredRunning env covered grace file in
  (file' = file ∨
   ∃ j', file' = stored (queue_encoded_size env) j' ∧ Journal_Validate j' = Ok tt ∧
     Repositories j' = Repositories j ∧ TerminalJobs j' = TerminalJobs j ∧
     ∀ k i, Intents j' !! k = Some i ↔ Intents j !! k = Some i ∧ uncovered covered grace (queue_now env) i = false) ∧
  (∀ names, r = Ok names → 0 < grace ∧ names ≡ₚ (λ ki, RunnerName ki.2) <$> matching (uncovered covered grace (queue_now env)) j ∧
     ∀ name, name ∈ names → name ∉ covered).
Proof.
  intros Hj Hd. destruct (ReleaseUncoveredRunning env covered grace file) as [file' r] eqn:Hrel. unfold ReleaseUncoveredRunning in Hrel.
  destruct (grace <=? 0) eqn:Hg; [simplify_eq; split; [by left|done]|].
  destruct (queue_lock env) as [[]|]; cbn [mbind result_bind] in Hrel; [|simplify_eq; split; [by left|done]].
  destruct (readJournal_cases _ _ Hj Hd) as [Hread|[e Hread]]; rewrite Hread in Hrel; cbn [mbind result_bind] in Hrel;
    [|simplify_eq; split; [by left|done]].
  unfold release_journal in Hrel.
  set (names := (λ ki, RunnerName ki.2) <$> matching (uncovered covered grace (queue_now env)) j) in *.
  assert (∀ name, name ∈ names → name ∉ covered) as Hcov.
  { intros name ([k i] & -> & Hin)%list_elem_of_fmap. apply elem_of_matching in Hin as [_ Hin]. unfold uncovered in Hin. bool_hyps. done. }
  assert (sort_strings names ≡ₚ names) as Hperm by apply merge_sort_Permutation.
  case_bool_decide as Hnil.
  { simplify_eq. split; [by left|]. intros n [= <-]. split; [lia|]. rewrite Hnil in Hperm. split; [done|].
    intros name Hname. by apply not_elem_of_nil in Hname. }
  destruct (Reader_Validate _) as [[]|] eqn:Hv; cbn [mbind result_bind] in Hrel; [|simplify_eq; split; [by left|done]].
  set (j' := next_generation _ _) in *.
  assert (∀ k i, Intents j' !! k = Some i ↔ Intents j !! k = Some i ∧ uncovered covered grace (queue_now env) i = false) as Hiff
    by (intros k i; apply lookup_filter_uncovered).
  assert (Journal_Validate j' = Ok tt) as Hok.
  { apply reader_valid_coordinator; [done|]. intros k i Hk. apply Hiff in Hk as [Hk _].
    apply current_journal_valid in Hj. apply coordinator_valid_reader in Hj as [_ Hn]; [|done]. by eapply Hn. }
  split.
  - destruct (queue_write env); simplify_eq/=; [right|by left|right]; by exists j'.
  - intros n Hn. destruct (queue_write env); simplify_eq/=. split; [lia|]. split; [done|].
    intros name Hname. apply Hcov. by rewrite <-Hperm.
Qed.

(** ** The next expiry of a terminal job *)

(** The reported seconds until the next terminal job expires depend on the order
    in which the map is walked: with one job that has already expired and one that
    expires in ten seconds, one order reports ten and the other zero. *)
Theorem next_expiry_depends_on_order :
  let now := 100 * Second in
  let jobs : gmap string Time := {[ "job-1" := 100 * Second; "job-2" := 110 * Second ]} in
  ∃ walk walk', walk ≡ₚ map_to_list jobs ∧ walk' ≡ₚ map_to_list jobs ∧ next_expiry now walk = 10 ∧ next_expiry now walk' = 0.
Proof.
  intros now jobs. exists [("job-1", 100 * Second); ("job-2", 110 * Second)], [("job-2", 110 * Second); ("job-1", 100 * Second)].
  assert (map_to_list jobs ≡ₚ [("job-1", 100 * Second); ("job-2", 110 * Second)]) as Hl.
  { unfold jobs. rewrite map_to_list_insert by (by vm_compute). by rewrite map_to_list_singleton. }
  split_and!; [by rewrite Hl|rewrite Hl; apply Permutation_swap|vm_compute; reflexivity..].
Qed.

(** Removing a stale intent removes one exact intent or nothing: the file changes
    only when applied, and then the coordinator still accepts it and only the named
    intent is gone, which was an unbound orphan of the requested kind, last updated
    exactly at the expected time and at least a minute ago. *)
Theorem recoverExactUnbound_exact (env : QueueEnv) (kind : RecoveryKind) (key : string) (expected : Time) (apply_ : bool)
    (file : QueueFile) (j : queueIntentJournal) :
  current_journal file = Ok j → dated j →
  let file' := (recoverExactUnbound env kind key expected apply_ file).1 in
  file' = file ∨
  apply_ = true ∧ ∃ j' i, file' = stored (queue_encoded_size env) j' ∧ Journal_Validate j' = Ok tt ∧
    Intents j !! key = Some i ∧ unbound i = true ∧ recoverable_state kind i = true ∧ UpdatedAt i = expected ∧
    Minute ≤ Sub (queue_now env) expected ∧
    Intents j' = delete key (Intents j) ∧ Repositories j' = Repositories j ∧ TerminalJobs j' = TerminalJobs j.
Proof.
  intros Hj Hd file'. subst file'. unfold recoverExactUnbound.
  destruct (negb (validText key) || IsZero expected); [by left|]. destruct (queue_lock env) as [[]|]; [|by left].
  destruct (file_exists file); [|by left]. destruct (readJournal_cases _ _ Hj Hd) as [->|[e ->]]; [|by left]. cbn [negb fail_if mbind result_bind]. unfold recover_journal.
  destruct (Intents j !! key) as [i|] eqn:Hi; [|by left].
  destruct (negb (unbound i) || negb (recoverable_state kind i)) eqn:Hu; [by left|]. cbn [negb fail_if mbind result_bind].
  destruct (UpdatedAt i =? expected) eqn:He; [|by left]. cbn [negb fail_if mbind result_bind].
  destruct (Sub (queue_now env) (UpdatedAt i) <? Minute) eqn:Hg; [by left|]. cbn [fail_if mbind result_bind].
  destruct apply_; [|by left]. cbn [negb]. destruct (Reader_Validate _) as [[]|] eqn:Hv; [|by left]. cbn [mbind result_bind].
  set (j' := next_generation _ _) in *. bool_hyps. apply Z.eqb_eq in He. apply Z.ltb_ge in Hg. subst expected.
  assert (Journal_Validate j' = Ok tt) as Hok.
  { apply reader_valid_coordinator; [done|]. intros k x Hk. change (Intents j') with (delete key (Intents j)) in Hk. apply lookup_delete_Some in Hk as [_ Hk].
    apply current_journal_valid in Hj. apply coordinator_valid_reader in Hj as [_ Hn]; [|done]. by eapply Hn. }
  destruct (queue_write env); [right|by left|right]; (split; [done|]); by exists j', i.
Qed.

(** ** A concrete journal *)

Definition intent0 (state : queueIntentState) (runner : string) : queueIntent := {|
  Key := queueIntentKey 42 "job-1"; ScaleSetID := 42; JobID := "job-1"; RunnerRequestID := 99; WorkflowRunID := 0;
  JobDisplayName := "quality"; GitHubRunnerID := 0; ScaleSetName := "example-standard"; RunnerName := runner;
  Owner := "example-org"; Repository := "example-org"; WorkflowRef := "unavailable-before-job-available";
  EventName := "workflow_dispatch"; QueueTime := Hour; FirstQueuedAt := Hour; State := state; Priority := 1;
  StateEnteredAt := Hour; UpdatedAt := Hour; ExpiresAt := 3 * Hour |}.

Definition journal0 (i : queueIntent) : queueIntentJournal := {|
  Journal_SchemaVersion := 6; Generation := 7; Journal_UpdatedAt := Hour; Intents := {[ Key i := i ]};
  Repositories := ∅; TerminalJobs := ∅ |}.

Definition file0 (i : queueIntent) : QueueFile := stored (λ _, 900) (journal0 i).

Definition env0 (now : Time) : QueueEnv :=
  {| queue_encoded_size := λ _, 900; queue_lock := Ok tt; queue_now := now; queue_write := WriteDone |}.

Definition correlation0 : RunningCorrelation := {|
  Correlation_RunnerName := "runner-1"; PoolName := "example-standard"; Correlation_Repository := "example-org/example-repo";
  Correlation_WorkflowRunID := 1234; Correlation_JobDisplayName := "quality";
  Correlation_WorkflowRef := "example-org/example-repo/.github/workflows/ci.yml@refs/heads/main" |}.

Lemma dated_journal0 i : 0 ≤ UpdatedAt i → dated (journal0 i).
Proof. intros Hu k x. cbn [Intents journal0]. intros Hx. by apply lookup_singleton_Some in Hx as [_ <-]. Qed.

(** The same journal in a file of mode 0640. *)
Definition shared_file0 (i : queueIntent) : QueueFile := QueueContent 900 416 (Ok (documentOf (journal0 i))).

Lemma reader_accepts_coordinator_witness :
  let j := journal0 (intent0 queueStateAssigned "") in
  readJournal (file0 (intent0 queueStateAssigned "")) = Ok j ∧
  current_journal (shared_file0 (intent0 queueStateAssigned "")) = Ok j ∧
  ∃ e, readJournal (shared_file0 (intent0 queueStateAssigned "")) = Err e.
Proof.
  assert (dated (journal0 (intent0 queueStateAssigned ""))) as Hd by (apply dated_journal0; vm_compute; discriminate).
  split; [|split; [vm_compute; reflexivity|]].
  - apply (reader_accepts_coordinator (file0 (intent0 queueStateAssigned "")) _ Hd). vm_compute. reflexivity.
  - apply (reader_accepts_coordinator (shared_file0 (intent0 queueStateAssigned "")) _ Hd). vm_compute. reflexivity.
Defined.

Lemma bindOnce_safe_witness :
  let file := file0 (intent0 queueStateAssigned "") in
  let file' := (bindOnce (env0 (2 * Hour)) correlation0 file).1 in
  file' = file ∨
  ∃ j' key, file' = stored (queue_encoded_size (env0 (2 * Hour))) j' ∧
    bound_journal correlation0 (queue_now (env0 (2 * Hour))) (journal0 (intent0 queueStateAssigned "")) j' key ∧ Journal_Validate j' = Ok tt.
Proof.
  apply (bindOnce_safe (env0 (2 * Hour)) correlation0 (file0 (intent0 queueStateAssigned "")) (journal0 (intent0 queueStateAssigned "")));
    [vm_compute; reflexivity|apply dated_journal0; vm_compute; discriminate|vm_compute; reflexivity].
Defined.

(** The journal after the binding. *)
Definition bound_file : QueueFile := (bindOnce (env0 (2 * Hour)) correlation0 (file0 (intent0 queueStateAssigned ""))).1.

Lemma bindOnce_idempotent_witness :
  bindOnce (env0 (2 * Hour + Minute)) correlation0 bound_file =
    (bound_file, Ok {| Result_Key := queueIntentKey 42 "job-1"; Result_Generation := 8; Changed := false |}).
Proof.
  apply (bindOnce_idempotent (env0 (2 * Hour)) (env0 (2 * Hour + Minute)) correlation0 (file0 (intent0 queueStateAssigned "")) bound_file
    {| Result_Key := queueIntentKey 42 "job-1"; Result_Generation := 8; Changed := true |}
    (next_generation (2 * Hour) (journal0 (bound_intent correlation0 (2 * Hour) false (intent0 queueStateAssigned ""))))
    (bound_intent correlation0 (2 * Hour) false (intent0 queueStateAssigned "")));
    vm_compute; first [reflexivity|discriminate].
Defined.

Lemma ReleaseUncoveredRunning_exact_witness :
  let file := file0 (intent0 queueStateRunning "runner-1") in
  let j := journal0 (intent0 queueStateRunning "runner-1") in
  let '(file', r) := ReleaseUncoveredRunning (env0 (2 * Hour)) ∅ Minute file in
  (file' = file ∨
   ∃ j', file' = stored (queue_encoded_size (env0 (2 * Hour))) j' ∧ Journal_Validate j' = Ok tt ∧
     Repositories j' = Repositories j ∧ TerminalJobs j' = TerminalJobs j ∧
     ∀ k i, Intents j' !! k = Some i ↔ Intents j !! k = Some i ∧ uncovered ∅ Minute (queue_now (env0 (2 * Hour))) i = false) ∧
  (∀ names, r = Ok names → 0 < Minute ∧
     names ≡ₚ (λ ki, RunnerName ki.2) <$> matching (uncovered ∅ Minute (queue_now (env0 (2 * Hour)))) j ∧
     ∀ name, name ∈ names → name ∉ (∅ : gset string)).
Proof.
  apply (ReleaseUncoveredRunning_exact (env0 (2 * Hour)) ∅ Minute (file0 (intent0 queueStateRunning "runner-1"))
    (journal0 (intent0 queueStateRunning "runner-1"))); [vm_compute; reflexivity|apply dated_journal0; vm_compute; discriminate].
Defined.

Example release_example :
  (ReleaseUncoveredRunning (env0 (2 * Hour)) ∅ Minute (file0 (intent0 queueStateRunning "runner-1"))).2 = Ok ["runner-1"].
Proof. vm_compute. reflexivity. Qed.

Definition orphan0 : queueIntent := set_RunnerRequestID 0 (set_EventName "unavailable-before-job-available" (intent0 queueStateRunning "runner-1")).

Lemma recoverExactUnbound_exact_witness :
  let file := file0 orphan0 in
  let j := journal0 orphan0 in
  let file' := (recoverExactUnbound (env0 (2 * Hour)) RecoverRunning (Key orphan0) Hour true file).1 in
  file' = file ∨
  true = true ∧ ∃ j' i, file' = stored (queue_encoded_size (env0 (2 * Hour))) j' ∧ Journal_Validate j' = Ok tt ∧
    Intents j !! Key orphan0 = Some i ∧ unbound i = true ∧ recoverable_state RecoverRunning i = true ∧ UpdatedAt i = Hour ∧
    Minute ≤ Sub (queue_now (env0 (2 * Hour))) Hour ∧
    Intents j' = delete (Key orphan0) (Intents j) ∧ Repositories j' = Repositories j ∧ TerminalJobs j' = TerminalJobs j.
Proof.
  apply (recoverExactUnbound_exact (env0 (2 * Hour)) RecoverRunning (Key orphan0) Hour true (file0 orphan0) (journal0 orphan0));
    [vm_compute; reflexivity|apply dated_journal0; vm_compute; discriminate].
Defined.

Example recover_example :
  (recoverExactUnbound (env0 (2 * Hour)) RecoverRunning (Key orphan0) Hour true (file0 orphan0)).1 ≠ file0 orphan0.
Proof. vm_compute. discriminate. Qed.
