(* ===== verification/JobLifecycle.v ===== *)
(** * Job lifecycle records
    ([src/internal/joblifecycle/joblifecycle.go], and the export command of
    [src/cmd/gha-fleet/main.go])

    Snapshots of the queue journal become a stream of transitions: every sampled
    change of an intent's state is said once, and an intent that leaves the
    journal gets a closing record. [Watermarks] is what has been said. *)

From S2P Require Import QueueReaderFacts Prelude StateFile QueueIntent.

Local Open Scope Z_scope.
Local Open Scope go_scope.

(** ** Data *)

Record LifecycleRecord := {
  Record_Timestamp : Time;
  Record_Key : string;
  Record_State : string;
  Record_Repository : string;
  Record_WorkflowRunID : Z;
  Record_JobID : string;
  Record_JobDisplayName : string;
  Record_ScaleSet : string;
  Record_Owner : string;
  Record_RunnerName : string;
  Record_GitHubRunnerID : Z;
  Record_EventName : string;
  Record_WorkflowRef : string;
  Record_Priority : Z;
  Record_Waited : Duration;
}.

Record intentView := {
  View_Key : string;
  View_JobID : string;
  View_WorkflowRunID : Z;
  View_JobDisplayName : string;
  View_GitHubRunnerID : Z;
  View_ScaleSetName : string;
  View_RunnerName : string;
  View_Owner : string;
  View_Repository : string;
  View_WorkflowRef : string;
  View_EventName : string;
  View_QueueTime : Time;
  View_FirstQueuedAt : Time;
  View_State : string;
  View_Priority : Z;
  View_StateEnteredAt : Time;
}.

(** A null map reads as an empty one. *)
Record journalView := {
  View_SchemaVersion : Z;
  View_Generation : Z;
  View_Intents : gmap string intentView;
  View_TerminalJobs : gmap string Time;
}.

Record Watermarks := {
  Marks_SchemaVersion : Z;
  States : gmap string string;
  Closed : gmap string Time;
}.

Definition SchemaVersion : Z := 1.
Definition maximumJournalBytes : Z := 16 * 1024 * 1024.
Definition maximumWatermarkBytes : Z := 4 * 1024 * 1024.

Definition emptyWatermarks : Watermarks := {| Marks_SchemaVersion := SchemaVersion; States := ∅; Closed := ∅ |}.

(** ** Files *)

(** [size] is the length of the file and [decoded] what its JSON decodes to. *)
Definition ReadJournal (file : result (Z * result journalView)) : result journalView :=
  sized ← wrap_err "read queue journal: %w" file;
  fail_if ((sized.1 =? 0) || (maximumJournalBytes <? sized.1)) (Errorf "queue journal must contain 1..%d bytes" []);;
  journal ← wrap_err "decode queue journal: %w" sized.2;
  fail_if (View_SchemaVersion journal <? 1) (Errorf "queue journal schema_version is invalid" []);;
  Ok journal.

Definition ReadWatermarks (file : StateFile (Z * result Watermarks)) : result Watermarks :=
  match file with
  | Absent => Ok emptyWatermarks
  | Present content =>
      sized ← wrap_err "read lifecycle watermarks: %w" content;
      fail_if ((sized.1 =? 0) || (maximumWatermarkBytes <? sized.1)) (Errorf "lifecycle watermark size is invalid" []);;
      marks ← wrap_err "decode lifecycle watermarks: %w" sized.2;
      fail_if (negb (Marks_SchemaVersion marks =? SchemaVersion)) (Errorf "lifecycle watermark schema_version is unsupported" []);;
      Ok marks
  end.

Definition WriteWatermarks (encodedSize : Watermarks → Z) (w : Publication) (marks : Watermarks) (file : StateFile (Z * result Watermarks))
    : StateFile (Z * result Watermarks) * result unit :=
  let marks := {| Marks_SchemaVersion := SchemaVersion; States := States marks; Closed := Closed marks |} in
  publish w file (Present (Ok (encodedSize marks, Ok marks))).

(** ** The difference *)

(** The time an intent had waited; the source converts it to seconds. *)
Definition waited (i : intentView) (at_ : Time) : Duration :=
  let since := if IsZero (View_FirstQueuedAt i) then View_QueueTime i else View_FirstQueuedAt i in
  if negb (IsZero since) && After at_ since then Sub at_ since else 0.

Definition record (key : string) (i : intentView) (state : string) (at_ : Time) : LifecycleRecord := {|
  Record_Timestamp := at_; Record_Key := key; Record_State := state; Record_Repository := View_Repository i;
  Record_WorkflowRunID := View_WorkflowRunID i; Record_JobID := View_JobID i; Record_JobDisplayName := View_JobDisplayName i;
  Record_ScaleSet := View_ScaleSetName i; Record_Owner := View_Owner i; Record_RunnerName := View_RunnerName i;
  Record_GitHubRunnerID := View_GitHubRunnerID i; Record_EventName := View_EventName i; Record_WorkflowRef := View_WorkflowRef i;
  Record_Priority := View_Priority i; Record_Waited := waited i at_ |}.

Definition closing (key state : string) (now : Time) : LifecycleRecord := {|
  Record_Timestamp := now; Record_Key := key; Record_State := state; Record_Repository := ""; Record_WorkflowRunID := 0;
  Record_JobID := ""; Record_JobDisplayName := ""; Record_ScaleSet := ""; Record_Owner := ""; Record_RunnerName := "";
  Record_GitHubRunnerID := 0; Record_EventName := ""; Record_WorkflowRef := ""; Record_Priority := 0; Record_Waited := 0 |}.

(** The record of one live intent, if its state has not been said. *)
Definition live_record (marks : Watermarks) (now : Time) (ki : string * intentView) : option LifecycleRecord :=
  let '(key, i) := ki in
  if bool_decide (default "" (States marks !! key) = View_State i) then None
  else
    let at_ := if IsZero (View_StateEnteredAt i) then now else View_StateEnteredAt i in
    Some (record (if bool_decide (View_Key i = "") then key else View_Key i) i (View_State i) at_).

Definition live (journal : journalView) (key : string) : bool := bool_decide (is_Some (View_Intents journal !! key)).
Definition terminal (journal : journalView) (key : string) : bool := bool_decide (is_Some (View_TerminalJobs journal !! key)).

(** Closed keys the journal still knows. *)
Definition kept_closed (marks : Watermarks) (journal : journalView) : gmap string Time :=
  filter (λ kc, live journal kc.1 || terminal journal kc.1 = true) (Closed marks).

Definition closing_state (journal : journalView) (key lastState : string) : string :=
  if terminal journal key then "completed" else if bool_decide (lastState = "running") then "released" else "vanished".

(** Whether a key said before has left and has no closing record yet. *)
Definition closes (marks : Watermarks) (journal : journalView) (key : string) : bool :=
  negb (live journal key) && negb (bool_decide (is_Some (kept_closed marks journal !! key))).

Definition closing_record (marks : Watermarks) (journal : journalView) (now : Time) (kl : string * string) : option LifecycleRecord :=
  if closes marks journal kl.1 then Some (closing kl.1 (closing_state journal kl.1 kl.2) now) else None.

Definition earlier (left right : LifecycleRecord) : bool :=
  if Record_Timestamp left =? Record_Timestamp right then string_ltb (Record_Key left) (Record_Key right)
  else Before (Record_Timestamp left) (Record_Timestamp right).

Definition Diff (marks : Watermarks) (journal : journalView) (now : Time) : list LifecycleRecord * Watermarks :=
  let records := omap (live_record marks now) (map_to_list (View_Intents journal)) ++
                 omap (closing_record marks journal now) (map_to_list (States marks)) in
  let closed := filter (λ kl, closes marks journal kl.1 = true) (States marks) in
  (sort_slice earlier records, {|
    Marks_SchemaVersion := SchemaVersion;
    States := View_State <$> View_Intents journal;
    Closed := ((λ _, now) <$> closed) ∪ kept_closed marks journal |}).

(** One run of the export command with [--apply]: the watermarks are written
    only after the records were delivered. *)
Definition export_once (encodedSize : Watermarks → Z) (journal : result (Z * result journalView)) (now : Time)
    (apply_ : bool) (delivery : result unit) (w : Publication) (file : StateFile (Z * result Watermarks))
    : StateFile (Z * result Watermarks) * list LifecycleRecord * result unit :=
  match (journal ← ReadJournal journal; marks ← ReadWatermarks file; Ok (Diff marks journal now)) with
  | Err e => (file, [], Err e)
  | Ok (records, next) =>
      if negb apply_ then (file, [], Ok tt)
      else match delivery with
      | Err e => (file, [], Err e)
      | Ok _ => let '(file', r) := WriteWatermarks encodedSize w next file in (file', records, r)
      end
  end.

(** ** Job lifecycle records: what the stream says *)

(** ** The machine of one key

    The reference: what has been said about one key, and what is said next when
    its intent or its absence is sampled. *)

Record KeyMark := { mark_state : option string; mark_closed : option Time }.

Definition entered (i : intentView) (now : Time) : Time := if IsZero (View_StateEnteredAt i) then now else View_StateEnteredAt i.

Definition key_step (m : KeyMark) (i : option intentView) (completed : bool) (now : Time) : list (Time * string) * KeyMark :=
  match i with
  | Some i =>
      (if bool_decide (default "" (mark_state m) = View_State i) then [] else [(entered i now, View_State i)],
       {| mark_state := Some (View_State i); mark_closed := mark_closed m |})
  | None =>
      let kept := if completed then mark_closed m else None in
      match mark_state m, kept with
      | Some last, None =>
          ([(now, if completed then "completed" else if bool_decide (last = "running") then "released" else "vanished")],
           {| mark_state := None; mark_closed := Some now |})
      | _, _ => ([], {| mark_state := None; mark_closed := kept |})
      end
  end.

(** ** One difference, key by key *)

Definition said (k : string) (rs : list LifecycleRecord) : list (Time * string) :=
  (λ r, (Record_Timestamp r, Record_State r)) <$> filter (λ r, Record_Key r = k) rs.

Definition mark_of (marks : Watermarks) (k : string) : KeyMark :=
  {| mark_state := States marks !! k; mark_closed := Closed marks !! k |}.

(** An intent's own key is absent or the key it is stored under. *)
Definition well_keyed (journal : journalView) : Prop :=
  ∀ k i, View_Intents journal !! k = Some i → View_Key i = "" ∨ View_Key i = k.

Lemma filter_key_map {V} (m : gmap string V) k :
  filter (λ kv, kv.1 = k) (map_to_list m) = match m !! k with Some v => [(k, v)] | None => [] end.
Proof.
  destruct (m !! k) as [v|] eqn:Hk.
  - apply Permutation_singleton_r. symmetry. apply NoDup_Permutation; [apply NoDup_singleton|apply NoDup_filter, NoDup_map_to_list|].
    intros [k' v']. rewrite list_elem_of_singleton, list_elem_of_filter, elem_of_map_to_list. simpl. split; [by intros [= -> ->]|].
    intros [-> ?]. congruence.
  - destruct (filter _ _) as [|[k' v'] l] eqn:Hf; [done|]. exfalso.
    assert ((k', v') ∈ filter (λ kv : string * V, kv.1 = k) (map_to_list m)) as Hin by (rewrite Hf; apply list_elem_of_here). apply list_elem_of_filter in Hin as [Hk' Hin]. simpl in Hk'. subst k'. apply elem_of_map_to_list in Hin. congruence.
Qed.

Lemma omap_list_cons {A B} (f : A → option B) x l : omap f (x :: l) = match f x with Some y => y :: omap f l | None => omap f l end.
Proof. done. Qed.

(** Records made per key are the records of that key. *)
Lemma filter_omap_key {V} (f : string * V → option LifecycleRecord) (m : gmap string V) k :
  (∀ k' v r, m !! k' = Some v → f (k', v) = Some r → Record_Key r = k') →
  filter (λ r, Record_Key r = k) (omap f (map_to_list m)) = match m !! k with Some v => option_list (f (k, v)) | None => [] end.
Proof.
  intros Hf. trans (omap f (filter (λ kv, kv.1 = k) (map_to_list m))).
  - assert (∀ k' v, (k', v) ∈ map_to_list m → m !! k' = Some v) as Hin by (intros k' v; apply elem_of_map_to_list).
    revert Hin. generalize (map_to_list m). intros l. induction l as [|[k' v] l IH]; intros Hin; [done|].
    rewrite (filter_cons (λ kv, kv.1 = k)), omap_list_cons. cbn [fst]. pose proof (Hin k' v (list_elem_of_here _ _)) as Hk'.
    assert (∀ a b, (a, b) ∈ l → m !! a = Some b) as Hl by (intros a b Hab; apply Hin; by apply list_elem_of_further).
    specialize (IH Hl). destruct (f (k', v)) as [r|] eqn:Hr.
    + specialize (Hf _ _ _ Hk' Hr). rewrite filter_cons. case_decide as Hd; rewrite Hf in Hd.
      * rewrite decide_True by done. rewrite omap_list_cons, Hr. by rewrite IH.
      * rewrite decide_False by done. done.
    + case_decide; [by rewrite omap_list_cons, Hr|done].
  - rewrite filter_key_map. destruct (m !! k); [|done]. simpl. by destruct (f _).
Qed.

Lemma said_perm k rs rs' : rs ≡ₚ rs' → (length (said k rs') ≤ 1)%nat → said k rs = said k rs'.
Proof.
  intros Hp Hlen. assert (said k rs ≡ₚ said k rs') as Hs by (unfold said; by rewrite Hp).
  destruct (said k rs') as [|x [|]]; simpl in Hlen; [|by apply Permutation_singleton_r in Hs|lia].
  by apply Permutation_nil_r in Hs.
Qed.

Lemma kept_closed_lookup marks journal k :
  kept_closed marks journal !! k = if live journal k || terminal journal k then Closed marks !! k else None.
Proof.
  unfold kept_closed. destruct (live journal k || terminal journal k) eqn:Hk.
  - destruct (Closed marks !! k) eqn:Hc; [by apply map_lookup_filter_Some|]. apply map_lookup_filter_None. by left.
  - apply map_lookup_filter_None. right. intros x _. simpl. rewrite Hk. done.
Qed.

Lemma Diff_key marks journal now k :
  well_keyed journal →
  let '(rs, next) := Diff marks journal now in
  key_step (mark_of marks k) (View_Intents journal !! k) (terminal journal k) now = (said k rs, mark_of next k).
Proof.
  intros Hw. unfold Diff. cbv zeta.
  set (rs := omap (live_record marks now) (map_to_list (View_Intents journal)) ++
             omap (closing_record marks journal now) (map_to_list (States marks))).
  assert (said k rs = (key_step (mark_of marks k) (View_Intents journal !! k) (terminal journal k) now).1) as Hsaid.
  { unfold said, rs. rewrite filter_app, fmap_app.
    rewrite (filter_omap_key (live_record marks now)), (filter_omap_key (closing_record marks journal now)).
    - unfold key_step, mark_of, closing_record, closes, closing_state. cbn [fst snd mark_state mark_closed].
      rewrite kept_closed_lookup. unfold live. destruct (View_Intents journal !! k) as [i|] eqn:Hi.
      + rewrite (bool_decide_eq_true_2 (is_Some (Some i))) by done. simpl. case_bool_decide; by destruct (States marks !! k).
      + rewrite (bool_decide_eq_false_2 (is_Some None)) by (by intros []). simpl.
        destruct (States marks !! k); [|done]. by destruct (terminal journal k), (Closed marks !! k).
    - intros k' v r _. unfold closing_record. simpl. case_match; [by intros [= <-]|done].
    - intros k' i r Hk'. simpl. case_bool_decide; [done|]. intros [= <-]. simpl. case_bool_decide; [done|]. by destruct (Hw _ _ Hk'). }
  rewrite (said_perm k (sort_slice earlier rs) rs); [|apply sort_slice_perm|]; cycle 1.
  { rewrite Hsaid. unfold key_step. repeat case_match; simpl; lia. }
  rewrite Hsaid. rewrite (surjective_pairing (key_step _ _ _ _)) at 1. f_equal. unfold key_step, mark_of.
  cbn [mark_state mark_closed States Closed].
  rewrite lookup_fmap, lookup_union, lookup_fmap, kept_closed_lookup.
  assert (filter (λ kl, closes marks journal kl.1 = true) (States marks) !! k =
    if closes marks journal k then States marks !! k else None) as ->.
  { destruct (closes marks journal k) eqn:Hc.
    - destruct (States marks !! k) eqn:Hs; [by apply map_lookup_filter_Some|]. apply map_lookup_filter_None. by left.
    - apply map_lookup_filter_None. right. intros x _. simpl. by rewrite Hc. }
  unfold closes. rewrite kept_closed_lookup. unfold live. destruct (View_Intents journal !! k) as [i|] eqn:Hi.
  - rewrite (bool_decide_eq_true_2 (is_Some (Some i))) by done. simpl. by destruct (Closed marks !! k).
  - rewrite (bool_decide_eq_false_2 (is_Some None)) by (by intros []). simpl.
    by destruct (States marks !! k), (terminal journal k), (Closed marks !! k).
Qed.

(** ** Runs *)

(** The records of consecutive samples, each difference taken with the watermarks
    the previous one left. *)
Fixpoint diffs (marks : Watermarks) (samples : list (journalView * Time)) : list LifecycleRecord :=
  match samples with
  | [] => []
  | (journal, now) :: samples => let '(rs, next) := Diff marks journal now in rs ++ diffs next samples
  end.

Fixpoint key_run (k : string) (m : KeyMark) (samples : list (journalView * Time)) : list (Time * string) :=
  match samples with
  | [] => []
  | (journal, now) :: samples =>
      let '(out, m') := key_step m (View_Intents journal !! k) (terminal journal k) now in out ++ key_run k m' samples
  end.

(** The queue journal as the tolerant reader sees it. *)
Definition state_name (s : queueIntentState) : string :=
  match s with
  | queueStateQueued => "queued" | queueStateAcquiring => "acquiring" | queueStateAcquired => "acquired"
  | queueStateAssigned => "assigned" | queueStateRunning => "running" | OtherQueueState s => s
  end.

Definition view_intent (i : queueIntent) : intentView := {|
  View_Key := Key i; View_JobID := JobID i; View_WorkflowRunID := WorkflowRunID i; View_JobDisplayName := JobDisplayName i;
  View_GitHubRunnerID := GitHubRunnerID i; View_ScaleSetName := ScaleSetName i; View_RunnerName := RunnerName i;
  View_Owner := Owner i; View_Repository := Repository i; View_WorkflowRef := WorkflowRef i; View_EventName := EventName i;
  View_QueueTime := QueueTime i; View_FirstQueuedAt := FirstQueuedAt i; View_State := state_name (State i);
  View_Priority := Priority i; View_StateEnteredAt := StateEnteredAt i |}.

Definition view (j : queueIntentJournal) : journalView := {|
  View_SchemaVersion := Journal_SchemaVersion j; View_Generation := Generation j;
  View_Intents := view_intent <$> Intents j; View_TerminalJobs := TerminalJobs j |}.

Lemma valid_intent j k i : Journal_Validate j = Ok tt → Intents j !! k = Some i →
  Key i = k ∧ k = queueIntentKey (ScaleSetID i) (JobID i) ∧ known_queue_state (State i) = true.
Proof.
  intros Hv Hk. apply Journal_Validate_iff in Hv as (_ & Hi & _). specialize (Hi _ _ Hk). unfold intent_ok in Hi.
  bool_hyps. split_and!; [done|congruence|done].
Qed.

Lemma view_well_keyed j : Journal_Validate j = Ok tt → well_keyed (view j).
Proof.
  intros Hv k i. cbn [View_Intents view]. rewrite lookup_fmap. intros (x & Hx & ->)%fmap_Some. right. by apply (valid_intent _ _ _ Hv).
Qed.

Definition intent_prefix : string := "github-scale-set-job:v2:".

Lemma prefix_app a b : String.prefix a (a +:+ b) = true.
Proof. induction a as [|c a IH]; [by destruct b|]. simpl. by destruct (ascii_dec c c). Qed.

Lemma intent_key_prefix s j : HasPrefix (queueIntentKey s j) intent_prefix = true.
Proof. apply prefix_app. Qed.

(** Every key said before is an intent key. *)
Definition intent_keys (marks : Watermarks) : Prop := ∀ k, is_Some (States marks !! k) → HasPrefix k intent_prefix = true.

Lemma Diff_intent_keys marks j now : Journal_Validate j = Ok tt → intent_keys (Diff marks (view j) now).2.
Proof.
  intros Hv k. unfold Diff. cbn [snd States view View_Intents]. rewrite !lookup_fmap. destruct (Intents j !! k) as [i|] eqn:Hi; [|by intros []].
  intros _. destruct (valid_intent _ _ _ Hv Hi) as (_ & -> & _). apply intent_key_prefix.
Qed.

(** Terminal jobs are recorded under job ids, which do not look like intent keys. *)
Definition job_ids (j : queueIntentJournal) : Prop :=
  ∀ id, is_Some (TerminalJobs j !! id) → HasPrefix id intent_prefix = false.

Lemma Diff_not_completed marks j now r :
  Journal_Validate j = Ok tt → job_ids j → intent_keys marks → r ∈ (Diff marks (view j) now).1 → Record_State r ≠ "completed".
Proof.
  intros Hv Hids Hmarks Hr. unfold Diff in Hr. cbn [fst] in Hr. rewrite elem_of_sort_slice in Hr. apply elem_of_app in Hr as [Hr|Hr].
  - apply list_elem_of_omap in Hr as ([k i] & Hin & Hr). apply elem_of_map_to_list in Hin. cbn [view View_Intents] in Hin.
    rewrite lookup_fmap in Hin. apply fmap_Some in Hin as (x & Hx & ->). unfold live_record in Hr. case_bool_decide; [done|].
    injection Hr as <-. cbn [Record_State record view_intent View_State].
    destruct (valid_intent _ _ _ Hv Hx) as (_ & _ & Hk). by destruct (State x).
  - apply list_elem_of_omap in Hr as ([k last] & Hin & Hr). apply elem_of_map_to_list in Hin. unfold closing_record in Hr. cbn [fst snd] in Hr.
    destruct (closes marks (view j) k); [|done]. injection Hr as <-. cbn [Record_State closing]. unfold closing_state.
    assert (terminal (view j) k = false) as ->.
    { apply bool_decide_eq_false. intros Ht. apply Hids in Ht. rewrite (Hmarks k) in Ht; [done|by eexists]. }
    by case_bool_decide.
Qed.

(** ** Claims *)

(** The stream says each transition once. Over any sequence of samples and from
    any watermarks, the records about one key are exactly those of the machine of
    that key: a record when the sampled state differs from the last one said, one
    closing record when the intent has left (completed, released or vanished), and
    nothing else; the records of other keys never interfere. *)
Theorem diffs_per_key (marks : Watermarks) (samples : list (journalView * Time)) (k : string) :
  Forall (λ jn, well_keyed jn.1) samples → said k (diffs marks samples) = key_run k (mark_of marks k) samples.
Proof.
  intros Hall. revert marks. induction Hall as [|[journal now] samples Hw Hall IH]; intros marks; [done|]. cbn [diffs key_run].
  pose proof (Diff_key marks journal now k Hw) as Hd. destruct (Diff marks journal now) as [rs next]. rewrite Hd.
  rewrite <-IH. unfold said. by rewrite filter_app, fmap_app.
Qed.

(** A completed job is never reported as completed. For any samples of journals the
    coordinator accepts, whose terminal jobs are recorded under job ids as it
    records them, no record of the stream has the state completed: the closing
    record looks for the intent's key among the terminal job ids. *)
Theorem completed_never_said (samples : list (queueIntentJournal * Time)) (r : LifecycleRecord) :
  Forall (λ jn, Journal_Validate jn.1 = Ok tt ∧ job_ids jn.1) samples →
  r ∈ diffs emptyWatermarks ((λ jn, (view jn.1, jn.2)) <$> samples) → Record_State r ≠ "completed".
Proof.
  intros Hall. assert (intent_keys emptyWatermarks) as Hm.
  { intros k. cbn [States emptyWatermarks]. rewrite lookup_empty. by intros []. }
  revert Hm. generalize emptyWatermarks. induction Hall as [|[j now] samples [Hv Hids] Hall IH]; intros marks Hm Hr.
  { by apply not_elem_of_nil in Hr. }
  rewrite fmap_cons in Hr. cbn [diffs fst snd] in Hr. destruct (Diff marks (view j) now) as [rs next] eqn:Hd.
  apply elem_of_app in Hr as [Hr|Hr].
  - eapply (Diff_not_completed marks j now); try done. by rewrite Hd.
  - eapply (IH next); [|done]. replace next with (Diff marks (view j) now).2 by (by rewrite Hd). by apply Diff_intent_keys.
Qed.

(** ** A concrete job *)

Definition running0 : queueIntent := {|
  Key := queueIntentKey 42 "job-1"; ScaleSetID := 42; JobID := "job-1"; RunnerRequestID := 99; WorkflowRunID := 7;
  JobDisplayName := "quality"; GitHubRunnerID := 5; ScaleSetName := "standard"; RunnerName := "runner-1"; Owner := "example-org";
  Repository := "example-org/repo"; WorkflowRef := "ref"; EventName := "push"; QueueTime := Hour; FirstQueuedAt := Hour;
  State := queueStateRunning; Priority := 1; StateEnteredAt := Hour; UpdatedAt := Hour; ExpiresAt := 3 * Hour |}.

Definition before0 : queueIntentJournal := {|
  Journal_SchemaVersion := 6; Generation := 1; Journal_UpdatedAt := Hour; Intents := {[ Key running0 := running0 ]};
  Repositories := ∅; TerminalJobs := ∅ |}.

(** The coordinator completed the job: no intent, and a tombstone of the job id. *)
Definition after0 : queueIntentJournal := markTerminalJob "job-1" (5 * Hour) (with_intents ∅ before0).

Definition samples0 : list (queueIntentJournal * Time) := [(before0, Hour); (after0, 2 * Hour)].

Lemma samples0_valid : Forall (λ jn, Journal_Validate jn.1 = Ok tt ∧ job_ids jn.1) samples0.
Proof.
  apply Forall_cons; split; [split; [vm_compute; reflexivity|]|apply Forall_singleton; split; [vm_compute; reflexivity|]].
  - intros id. cbn [fst before0 TerminalJobs]. rewrite lookup_empty. by intros [].
  - intros id Hid. cbn [fst] in Hid. change (TerminalJobs after0) with ({[ "job-1" := 5 * Hour ]} : gmap string Time) in Hid.
    destruct Hid as [x Hx]. apply lookup_singleton_Some in Hx as [<- _]. vm_compute. reflexivity.
Qed.

Example samples0_released :
  said (Key running0) (diffs emptyWatermarks ((λ jn, (view jn.1, jn.2)) <$> samples0)) = [(Hour, "running"); (2 * Hour, "released")].
Proof. vm_compute. reflexivity. Qed.

Lemma diffs_per_key_witness :
  said (Key running0) (diffs emptyWatermarks ((λ jn, (view jn.1, jn.2)) <$> samples0)) =
  key_run (Key running0) (mark_of emptyWatermarks (Key running0)) ((λ jn, (view jn.1, jn.2)) <$> samples0).
Proof.
  apply (diffs_per_key emptyWatermarks ((λ jn, (view jn.1, jn.2)) <$> samples0) (Key running0)).
  apply Forall_fmap. eapply Forall_impl; [exact samples0_valid|]. intros [j now] [Hv _]. by apply view_well_keyed.
Defined.

Lemma completed_never_said_witness :
  Record_State (closing (Key running0) "released" (2 * Hour)) ≠ "completed".
Proof.
  apply (completed_never_said samples0 (closing (Key running0) "released" (2 * Hour)) samples0_valid).
  apply list_elem_of_In. vm_compute. right. left. reflexivity.
Defined.
