(* ===== verification/ProviderRetry.v ===== *)
(** * Provider-create retries
    ([src/internal/providerretry/recovery_linux.go])

    GARM keeps a journal of failed provider creates: a record per failure domain
    or concrete job, with its backoff and, after too many failures, a terminal
    circuit. The observer summarises the journal and an operator may remove one
    exact terminal circuit. *)

From S2P Require Import Prelude StateFile GoText QueueIntent QueueOps QueueReader.

Local Open Scope Z_scope.
Local Open Scope go_scope.

(** ** Data *)

Record retry_record := {
  Retry_JobID : string;
  Attempts : Z;
  LastErrorClass : string;
  Retry_UpdatedAt : Time;
  NextAllowedAt : Time;
  TerminalUntil : Time;
  ProbeOwner : string;
  WakeReason : string;
  Retry_ScaleSetName : string;
  Retry_Owner : string;
}.

Record reservation_entry := { RetryKey : string; Reservation_ScaleSetName : string; Reservation_UpdatedAt : Time }.

(** Absent JSON maps are [None]. *)
Record journal := {
  Retry_SchemaVersion : Z;
  Retry_Generation : Z;
  Retry_Journal_UpdatedAt : Time;
  Records : option (gmap string retry_record);
  Reservations : option (gmap string reservation_entry);
}.

Definition minimumTerminalRecoveryAge : Duration := Minute.
Definition maximumQueueJournalBytes : Z := 1024 * 1024.
Definition maximumRetryJournalBytes : Z := 1024 * 1024.

(** The length of the file and what it decodes to. *)
Definition readRetryJournal (file : StateFile (Z * journal)) : result (journal * gmap string retry_record) :=
  match file with
  | Absent => Err (Errorf "open retry journal" [])
  | Present content =>
      sized ← content;
      fail_if (maximumRetryJournalBytes <? sized.1) (Errorf "retry journal has invalid bounded content" []);;
      let j := sized.2 in
      match Records j with
      | Some records =>
          fail_if ((negb (Retry_SchemaVersion j =? 1) && negb (Retry_SchemaVersion j =? 2))
                   || ((Retry_SchemaVersion j =? 2) && bool_decide (Reservations j = None)))
            (Errorf "retry journal identity is invalid" []);;
          Ok (j, records)
      | None => Err (Errorf "retry journal identity is invalid" [])
      end
  end.

(** ** Keys *)

(** [strings.Cut] at the first separator. *)
Fixpoint Cut (sep s : string) : option (string * string) :=
  if String.prefix sep s then Some (EmptyString, drop_bytes (String.length sep) s)
  else match s with
       | EmptyString => None
       | String c rest => match Cut sep rest with Some (before, after) => Some (String c before, after) | None => None end
       end.

(** [strings.Contains(s, sub)]. *)
Definition Contains (s sub : string) : bool := bool_decide (is_Some (Cut sub s)).

(** The text before the first [marker], when something precedes it. *)
Definition before_marker (marker key : string) : option string :=
  match Cut marker key with
  | Some (before, _) => if bool_decide (before = "") then None else Some before
  | None => None
  end.

Definition retryDomainKey (key : string) : string :=
  match before_marker ":instance:" key with
  | Some domain => domain
  | None => match before_marker ":job:" key with Some domain => domain | None => key end
  end.

Definition digit (c : ascii) : option Z :=
  let n := Z.of_nat (nat_of_ascii c) in if (48 <=? n) && (n <=? 57) then Some (n - 48) else None.

Fixpoint parse_digits (s : string) (acc : Z) : option Z :=
  match s with
  | EmptyString => Some acc
  | String c rest => d ← digit c; parse_digits rest (10 * acc + d)
  end.

(** [strconv.ParseUint(s, 10, 32)]. *)
Definition ParseUint32 (s : string) : option Z :=
  if bool_decide (s = "") then None else n ← parse_digits s 0; if n <? 2 ^ 32 then Some n else None.

Definition parseScaleSetDomainKey (key : string) : result (string * Z) :=
  fail_if (bool_decide (key = "") || (256 <? Z.of_nat (String.length key))) (Errorf "scale-set retry key is invalid" []);;
  match split_byte ":" key with
  | ["scale-set"; entity; number] =>
      fail_if (blank entity) (Errorf "retry key is not an exact scale-set failure domain" []);;
      match ParseUint32 number with
      | Some n => fail_if (n =? 0) (Errorf "retry key has invalid scale-set identity" []);; Ok (entity, n)
      | None => Err (Errorf "retry key has invalid scale-set identity" [])
      end
  | _ => Err (Errorf "retry key is not an exact scale-set failure domain" [])
  end.

Definition parseExactJobKey (key : string) : result (string * string * Z) :=
  match Cut ":job:" key with
  | Some (domain, jobID) =>
      fail_if (bool_decide (jobID = "") || contains_byte ":" jobID) (Errorf "retry key is not an exact job key" []);;
      es ← parseScaleSetDomainKey domain;
      Ok (jobID, es.1, es.2)
  | None => Err (Errorf "retry key is not an exact job key" [])
  end.

(** ** Inspection *)

Record Snapshot := {
  Snapshot_Generation : Z;
  Snapshot_Records : Z;
  Snapshot_Reservations : Z;
  DeferredRecords : Z;
  TerminalCircuits : Z;
  ByErrorClass : gmap string Z;
  DeferredByErrorClass : gmap string Z;
  OldestTerminalAgeSeconds : Z;
  NextRetryDelaySeconds : Z;
  SharedCapacitySaturated : bool;
  SharedCapacityProbeOwned : bool;
  SharedCapacityProbeActive : bool;
  SharedCapacityWaiters : Z;
  SharedCapacityAgeSeconds : Z;
  SharedCapacityWakeReason : string;
}.

Definition retryClassCounts : gmap string Z :=
  list_to_map [("capacity", 0); ("identity", 0); ("intent", 0); ("provider", 0); ("timeout", 0); ("unknown", 0)].

Definition bump (class : string) (m : gmap string Z) : gmap string Z := <[class := default 0 (m !! class) ⊕ 1]> m.

Definition age_seconds (now updated : Time) : Z := Z.max 0 (Sub now updated ⊘ Second).

Definition measured_fleet : string := "capacity-domain:measured-fleet".

Definition holds_back (now : Time) (r : retry_record) : bool := After (NextAllowedAt r) now || After (TerminalUntil r) now.
Definition is_domain (key : string) : bool := bool_decide (retryDomainKey key = key).

(** The smallest delay so far, with zero for none. *)
Definition next_delay (now : Time) (current : Z) (r : retry_record) : Z :=
  let delay := Sub (NextAllowedAt r) now ⊘ Second in
  if (current =? 0) || (delay <? current) then delay else current.

Definition inspect_record (now : Time) (s : Snapshot) (kr : string * retry_record) : Snapshot :=
  let '(key, r) := kr in
  let shared := bool_decide (key = measured_fleet) in
  let class := if bool_decide (is_Some (ByErrorClass s !! LastErrorClass r)) then LastErrorClass r else "unknown" in
  let deferred := negb (blank (LastErrorClass r)) && holds_back now r in
  let circuit := After (TerminalUntil r) now && is_domain key in
  {| Snapshot_Generation := Snapshot_Generation s; Snapshot_Records := Snapshot_Records s; Snapshot_Reservations := Snapshot_Reservations s;
     DeferredRecords := if deferred then DeferredRecords s ⊕ 1 else DeferredRecords s;
     TerminalCircuits := if circuit then TerminalCircuits s ⊕ 1 else TerminalCircuits s;
     ByErrorClass := bump class (ByErrorClass s);
     DeferredByErrorClass := if deferred then bump class (DeferredByErrorClass s) else DeferredByErrorClass s;
     OldestTerminalAgeSeconds :=
       if circuit && (OldestTerminalAgeSeconds s <? age_seconds now (Retry_UpdatedAt r)) then age_seconds now (Retry_UpdatedAt r)
       else OldestTerminalAgeSeconds s;
     NextRetryDelaySeconds :=
       if deferred && After (NextAllowedAt r) now then next_delay now (NextRetryDelaySeconds s) r else NextRetryDelaySeconds s;
     SharedCapacitySaturated := if shared then holds_back now r else SharedCapacitySaturated s;
     SharedCapacityProbeOwned := if shared then negb (bool_decide (ProbeOwner r = "")) else SharedCapacityProbeOwned s;
     SharedCapacityProbeActive :=
       if shared then bool_decide (WakeReason r = "probe-leased") && After (NextAllowedAt r) now else SharedCapacityProbeActive s;
     SharedCapacityWaiters :=
       if negb shared && is_domain key && bool_decide (LastErrorClass r = "capacity") then SharedCapacityWaiters s ⊕ 1
       else SharedCapacityWaiters s;
     SharedCapacityAgeSeconds := if shared then age_seconds now (Retry_UpdatedAt r) else SharedCapacityAgeSeconds s;
     SharedCapacityWakeReason := if shared then WakeReason r else SharedCapacityWakeReason s |}.

Definition inspect_start (j : journal) (records : gmap string retry_record) : Snapshot := {|
  Snapshot_Generation := Retry_Generation j; Snapshot_Records := Z.of_nat (size records);
  Snapshot_Reservations := Z.of_nat (size (default ∅ (Reservations j)));
  DeferredRecords := 0; TerminalCircuits := 0; ByErrorClass := retryClassCounts; DeferredByErrorClass := retryClassCounts;
  OldestTerminalAgeSeconds := 0; NextRetryDelaySeconds := 0; SharedCapacitySaturated := false; SharedCapacityProbeOwned := false;
  SharedCapacityProbeActive := false; SharedCapacityWaiters := 0; SharedCapacityAgeSeconds := 0; SharedCapacityWakeReason := "" |}.

(** [walk] is the order in which the map of records is visited. *)
Definition Inspect (walk : gmap string retry_record → list (string * retry_record)) (now : Time) (file : StateFile (Z * journal))
    : result Snapshot :=
  jr ← readRetryJournal file;
  fail_if (IsZero now) (Errorf "retry observation time is required" []);;
  Ok (fold_left (inspect_record now) (walk jr.2) (inspect_start jr.1 jr.2)).

(** ** Recovery *)

Record RecoveryResult := {
  Applied : bool;
  Result_Key : string;
  EntityID : string;
  Result_ScaleSetID : Z;
  ErrorClass : string;
  ExpectedUpdatedAt : Time;
  PreviousGeneration : Z;
  Result_Generation : Z;
  RecoveredAt : Time;
}.

Record RecoveryEnv := {
  recovery_access : Access;
  recovery_now : Time;
  retry_encoded_size : journal → Z;
}.

Definition terminal_circuit (key : string) (attempts : Z) (errorClass : string) (r : retry_record) : bool :=
  bool_decide (Retry_JobID r = key) && (Attempts r =? attempts) && bool_decide (LastErrorClass r = errorClass)
  && negb (IsZero (TerminalUntil r)).

(** What a map tagged [omitempty] is read back as. *)
Definition omit_empty {V} (m : option (gmap string V)) : option (gmap string V) :=
  match m with Some entries => if bool_decide (size entries = 0%nat) then None else Some entries | None => None end.

Definition without (key : string) (now : Time) (j : journal) (records : gmap string retry_record) : journal := {|
  Retry_SchemaVersion := Retry_SchemaVersion j; Retry_Generation := (Retry_Generation j + 1) `mod` two64;
  Retry_Journal_UpdatedAt := now; Records := Some (delete key records); Reservations := omit_empty (Reservations j) |}.

Definition recoverTerminalRecord (env : RecoveryEnv) (key entityID : string) (scaleSetID : Z) (errorClass : string) (expected : Time)
    (attempts : Z) (prove : Time → result unit) (apply_ : bool) (file : StateFile (Z * journal))
    : StateFile (Z * journal) * result RecoveryResult :=
  let now := recovery_now env in
  match (access_lock (recovery_access env);;
         jr ← readRetryJournal file;
         let '(j, records) := (jr : journal * gmap string retry_record) in
         match records !! key with
         | Some r =>
             fail_if (negb (terminal_circuit key attempts errorClass r)) (Errorf "retry record is not the exact terminal circuit" []);;
             fail_if (negb (Retry_UpdatedAt r =? expected)) (Errorf "retry record updated_at changed" []);;
             fail_if (Sub now (Retry_UpdatedAt r) <? minimumTerminalRecoveryAge)
               (Errorf "retry circuit is inside the recovery grace period" []);;
             prove now;;
             Ok (j, records, r)
         | None => Err (Errorf "retry record is not the exact terminal circuit" [])
         end) with
  | Err e => (file, Err e)
  | Ok (j, records, r) =>
      let recovered applied generation := {|
        Applied := applied; Result_Key := key; EntityID := entityID; Result_ScaleSetID := scaleSetID; ErrorClass := errorClass;
        ExpectedUpdatedAt := Retry_UpdatedAt r; PreviousGeneration := Retry_Generation j; Result_Generation := generation;
        RecoveredAt := now |} in
      if negb apply_ then (file, Ok (recovered false (Retry_Generation j)))
      else
        let j' := without key now j records in
        let '(file', w) := publish (access_write (recovery_access env)) file (Present (Ok (retry_encoded_size env j', j'))) in
        (file', w;; Ok (recovered true (Retry_Generation j')))
  end.

Definition RecoverTerminal (env : RecoveryEnv) (key entityID : string) (scaleSetID : Z) (errorClass : string) (expected : Time)
    (apply_ : bool) (file : StateFile (Z * journal)) : StateFile (Z * journal) * result RecoveryResult :=
  let refused := (file, Err (Errorf "exact scale-set retry key, entity_id, scale_set_id, recoverable error class and updated_at are required" [])) in
  match parseScaleSetDomainKey key with
  | Ok (parsedEntity, parsedScaleSet) =>
      if negb (bool_decide (parsedEntity = entityID)) || negb (parsedScaleSet =? scaleSetID)
         || negb (bool_decide (errorClass ∈ ["provider"; "intent"; "identity"; "timeout"])) || IsZero expected
      then refused
      else recoverTerminalRecord env key entityID scaleSetID errorClass expected 8 (λ _, Ok tt) apply_ file
  | Err _ => refused
  end.

(** The queue proof: a bounded journal that holds an unexpired, unstarted intent
    of the job. *)
Definition requireActiveQueueJob (queue : QueueFile) (jobID : string) (now : Time) : result unit :=
  match queue with
  | NoQueueFile => Err (Errorf "queue journal must be a bounded private regular file" [])
  | QueueContent size perm content =>
      fail_if (grants perm 63 || (size <? 1) || (maximumQueueJournalBytes <? size)) (Errorf "queue journal must be a bounded private regular file" []);;
      match content with
      | Ok d =>
          match Document_Intents d with
          | Some intents =>
              fail_if (negb (Document_SchemaVersion d =? SchemaVersion)) (Errorf "queue journal identity is invalid" []);;
              fail_if (negb (existsb (λ ki, bool_decide (JobID ki.2 = jobID) && After (ExpiresAt ki.2) now &&
                         match State ki.2 with
                         | queueStateQueued | queueStateAcquiring | queueStateAcquired | queueStateAssigned => true
                         | _ => false
                         end) (map_to_list intents)))
                (Errorf "exact retry job is not active in the queue journal" [])
          | None => Err (Errorf "queue journal identity is invalid" [])
          end
      | Err _ => Err (Errorf "queue journal identity is invalid" [])
      end
  end.

Definition RecoverExactJobTerminal (env : RecoveryEnv) (queue : QueueFile) (key entityID : string) (scaleSetID : Z) (errorClass : string)
    (expected : Time) (apply_ : bool) (file : StateFile (Z * journal)) : StateFile (Z * journal) * result RecoveryResult :=
  let refused := (file, Err (Errorf "exact job retry key, entity_id, scale_set_id, recoverable error class and updated_at are required" [])) in
  match parseExactJobKey key with
  | Ok (jobID, parsedEntity, parsedScaleSet) =>
      if negb (bool_decide (parsedEntity = entityID)) || negb (parsedScaleSet =? scaleSetID)
         || negb (bool_decide (errorClass ∈ ["provider"; "identity"; "timeout"])) || IsZero expected
      then refused
      else recoverTerminalRecord env key entityID scaleSetID errorClass expected 3 (requireActiveQueueJob queue jobID) apply_ file
  | Err _ => refused
  end.
