(* ===== verification/ProviderRetryFacts.v ===== *)
(** * Provider-create retries: their promises *)

From S2P Require Import Prelude StateFile GoText Domain Tenant QueueIntent QueueOps QueueReader ProviderRetry.

Local Open Scope Z_scope.
Local Open Scope go_scope.

(** ** Keys *)

Lemma Cut_split sep s before after : Cut sep s = Some (before, after) → s = before +:+ sep +:+ after.
Proof.
  revert before; induction s as [|c s IH]; intros before; cbn [Cut].
  - destruct (String.prefix sep "") eqn:Hp; [|done]. intros [= <- <-]. by apply prefix_split in Hp.
  - destruct (String.prefix sep (String c s)) eqn:Hp; [intros [= <- <-]; by apply prefix_split in Hp|].
    destruct (Cut sep s) as [[b a]|]; [|done]. intros [= <- <-]. rewrite (IH b) at 1 by done. done.
Qed.

(** The key of a concrete job is longer than the key of its domain. *)
Lemma parseExactJobKey_spec key jobID entity n :
  parseExactJobKey key = Ok (jobID, entity, n) →
  ∃ domain, key = domain +:+ ":job:" +:+ jobID ∧ parseScaleSetDomainKey domain = Ok (entity, n) ∧ domain ≠ key.
Proof.
  unfold parseExactJobKey. destruct (Cut ":job:" key) as [[domain j]|] eqn:Hc; [|done]. apply Cut_split in Hc.
  intros H. apply bind_Ok in H as ([] & _ & H). apply bind_Ok in H as ([e m] & Hp & H). apply Ok_inj in H. simplify_eq/=.
  exists domain. split_and!; try done. intros Heq. apply (f_equal String.length) in Heq. rewrite !length_app_string in Heq. simpl in Heq. lia.
Qed.

Lemma parse_digits_pretty x s : parse_digits (pretty_N_go x s) 0 = parse_digits s (Z.of_N x).
Proof.
  revert s. induction (N.lt_wf_0 x) as [x _ IH]; intros s. destruct (decide (x = 0%N)) as [->|Hx]; [by rewrite pretty_N_go_0|].
  rewrite pretty_N_go_step by lia. rewrite IH by (apply N.div_lt; lia).
  assert (digit (pretty_N_char (x `mod` 10)) = Some (Z.of_N (x `mod` 10))) as Hd.
  { pose proof (N.mod_lt x 10 ltac:(lia)) as Hlt. revert Hlt. generalize (x `mod` 10)%N. intros d Hd.
    assert (d ∈ [0; 1; 2; 3; 4; 5; 6; 7; 8; 9]%N) as Hin by (rewrite !elem_of_cons; lia).
    repeat (apply elem_of_cons in Hin as [->|Hin]; [done|]). by apply not_elem_of_nil in Hin. }
  cbn [parse_digits]. rewrite Hd. cbn [mbind option_bind]. f_equal. rewrite N2Z.inj_div, N2Z.inj_mod. pose proof (Z.div_mod (Z.of_N x) 10). lia.
Qed.

Lemma pretty_nonempty (n : N) : pretty n ≠ "".
Proof.
  unfold pretty, pretty_N. case_decide as Hz; [done|]. intros H. pose proof (parse_digits_pretty n "") as Hp. rewrite H in Hp. simpl in Hp.
  injection Hp as Hp. lia.
Qed.

Lemma pretty_of_nat k : pretty (Z.of_nat k) = pretty (N.of_nat k).
Proof. by destruct k. Qed.

(** Printed numbers read back. *)
Lemma parse_pretty n : 0 ≤ n → parse_digits (pretty n) 0 = Some n.
Proof.
  intros Hn. destruct (Z_of_nat_complete n) as [k ->]; [lia|]. rewrite pretty_of_nat. unfold pretty, pretty_N.
  case_decide as Hk; [destruct k; [done|lia]|]. rewrite parse_digits_pretty. simpl. f_equal. lia.
Qed.

Lemma pretty_nonneg_nonempty n : 0 ≤ n → pretty n ≠ "".
Proof. intros Hn. destruct (Z_of_nat_complete n) as [k ->]; [lia|]. rewrite pretty_of_nat. apply pretty_nonempty. Qed.

Lemma ParseUint32_pretty n : 0 ≤ n < 2 ^ 32 → ParseUint32 (pretty n) = Some n.
Proof.
  intros Hn. unfold ParseUint32. rewrite bool_decide_eq_false_2 by (apply pretty_nonneg_nonempty; lia). rewrite parse_pretty by lia.
  cbn [mbind option_bind]. destruct (Z.ltb_spec n (2 ^ 32)); [done|lia].
Qed.

Lemma split_byte_app c a b : contains_byte c a = false → split_byte c (a +:+ String c b) = a :: split_byte c b.
Proof.
  induction a as [|x a IH]; intros H; [by simpl; rewrite bool_decide_eq_true_2|]. simpl in H. bool_hyps.
  change (String x a +:+ String c b) with (String x (a +:+ String c b)). cbn [split_byte].
  rewrite bool_decide_eq_false_2 by done. by rewrite IH.
Qed.

Lemma split_byte_last c a : contains_byte c a = false → split_byte c a = [a].
Proof. induction a as [|x a IH]; intros H; [done|]. simpl in *. bool_hyps. rewrite bool_decide_eq_false_2 by done. by rewrite IH. Qed.

(** The key the terminal failure domain of a scale set is stored under. *)
Definition domain_key (entity : string) (scaleSetID : Z) : string := "scale-set:" +:+ entity +:+ ":" +:+ pretty scaleSetID.

(** ** Recovery *)

Lemma recoverTerminalRecord_spec env key entityID scaleSetID errorClass expected attempts prove apply_ file file' res :
  recoverTerminalRecord env key entityID scaleSetID errorClass expected attempts prove apply_ file = (file', res) →
  file' = file ∨
  apply_ = true ∧ ∃ j records r, readRetryJournal file = Ok (j, records) ∧ records !! key = Some r ∧
    terminal_circuit key attempts errorClass r = true ∧ Retry_UpdatedAt r = expected ∧
    minimumTerminalRecoveryAge ≤ Sub (recovery_now env) expected ∧ prove (recovery_now env) = Ok tt ∧
    file' = Present (Ok (retry_encoded_size env (without key (recovery_now env) j records), without key (recovery_now env) j records)).
Proof.
  unfold recoverTerminalRecord. cbv zeta. destruct (access_lock _) as [[]|]; [|intros [= <- _]; by left]. cbn [mbind result_bind].
  destruct (readRetryJournal file) as [[j records]|]; [|intros [= <- _]; by left]. cbn [mbind result_bind].
  destruct (records !! key) as [r|] eqn:Hr; [|intros [= <- _]; by left].
  destruct (terminal_circuit key attempts errorClass r) eqn:Ht; [|intros [= <- _]; by left]. cbn [negb fail_if mbind result_bind].
  destruct (Retry_UpdatedAt r =? expected) eqn:Hu; [|intros [= <- _]; by left]. cbn [negb fail_if mbind result_bind].
  destruct (_ <? minimumTerminalRecoveryAge) eqn:Ha; [intros [= <- _]; by left|]. cbn [fail_if mbind result_bind].
  destruct (prove (recovery_now env)) as [[]|] eqn:Hp; [|intros [= <- _]; by left]. cbn [mbind result_bind].
  destruct apply_; cbn [negb]; [|intros [= <- _]; by left].
  destruct (publish _ _ _) as [f w] eqn:Hpub. intros [= <- _]. apply publish_cases in Hpub as [[->| ->] _]; [by left|right].
  split; [done|]. exists j, records, r. apply Z.eqb_eq in Hu. subst expected. split_and!; try done. lia.
Qed.

(** ** Claims *)

(** Recovering one job's terminal circuit removes exactly that record: the file is
    unchanged or, when applied, the record of the key is gone and every other record
    is as it was, in particular the circuit of the whole scale set; reservations are
    written as they were, with an empty map left out.
    The record was the terminal circuit of the requested class after three
    attempts, unchanged since the expected time and at least a minute old, and the
    queue journal held an unexpired intent of the job that had not started. *)
Theorem RecoverExactJobTerminal_exact (env : RecoveryEnv) (queue : QueueFile) (key entityID : string) (scaleSetID : Z) (errorClass : string)
    (expected : Time) (apply_ : bool) (file : StateFile (Z * journal)) (j : journal) (records : gmap string retry_record) :
  readRetryJournal file = Ok (j, records) →
  let file' := (RecoverExactJobTerminal env queue key entityID scaleSetID errorClass expected apply_ file).1 in
  file' = file ∨
  apply_ = true ∧ ∃ r jobID domain j',
    file' = Present (Ok (retry_encoded_size env j', j')) ∧ Records j' = Some (delete key records) ∧ Reservations j' = omit_empty (Reservations j) ∧
    records !! key = Some r ∧ terminal_circuit key 3 errorClass r = true ∧ Retry_UpdatedAt r = expected ∧
    Minute ≤ Sub (recovery_now env) expected ∧ requireActiveQueueJob queue jobID (recovery_now env) = Ok tt ∧
    key = domain +:+ ":job:" +:+ jobID ∧ parseScaleSetDomainKey domain = Ok (entityID, scaleSetID) ∧
    delete key records !! domain = records !! domain.
Proof.
  intros Hread file'. subst file'. unfold RecoverExactJobTerminal. cbv zeta.
  destruct (parseExactJobKey key) as [[[jobID entity] n]|] eqn:Hk; [|by left]. apply parseExactJobKey_spec in Hk as (domain & Hkey & Hp & Hne).
  destruct (_ || IsZero expected) eqn:Hg; [by left|].
  destruct (recoverTerminalRecord _ _ _ _ _ _ _ _ _ _) as [file' res] eqn:Hrec.
  apply recoverTerminalRecord_spec in Hrec as [->|(-> & j0 & records0 & r & Hread' & Hr & Ht & Hu & Ha & Hprove & ->)]; [by left|].
  right. rewrite Hread in Hread'. simplify_eq. bool_hyps. apply Z.eqb_eq in H2. subst.
  split; [done|]. exists r, jobID, domain. eexists. split_and!; try done. by rewrite lookup_delete_ne.
Qed.

(** Scale-set domain keys round trip: the key of any entity without a colon and any
    32-bit scale-set number parses back to them. *)
Theorem domain_key_roundtrip (entity : string) (scaleSetID : Z) :
  contains_byte ":" entity = false → blank entity = false → 0 < scaleSetID < 2 ^ 32 →
  Z.of_nat (String.length (domain_key entity scaleSetID)) ≤ 256 →
  parseScaleSetDomainKey (domain_key entity scaleSetID) = Ok (entity, scaleSetID).
Proof.
  intros Hc Hb Hn Hl. unfold parseScaleSetDomainKey. rewrite (bool_decide_eq_false_2 (_ = "")) by done.
  destruct (256 <? Z.of_nat (String.length (domain_key entity scaleSetID))) eqn:Hlen; [lia|]. cbn [orb fail_if mbind result_bind].
  assert (split_byte ":" (domain_key entity scaleSetID) = ["scale-set"; entity; pretty scaleSetID]) as ->.
  { unfold domain_key. change ("scale-set:" +:+ ?x) with ("scale-set" +:+ String ":" x). rewrite split_byte_app by done.
    change (":" +:+ ?x) with (String ":" x). rewrite split_byte_app by done. by rewrite split_byte_last by apply pretty_Z_no_colon. }
  rewrite Hb, ParseUint32_pretty by lia. cbn [fail_if mbind result_bind].
  destruct (scaleSetID =? 0) eqn:?; [lia|done].
Qed.

(** ** Defects *)

(** The next retry delay depends on the order in which the records are walked:
    a delay below a second counts as no delay yet. *)
Theorem next_delay_depends_on_order :
  let now := 100 * Second in
  let r at_ := {| Retry_JobID := ""; Attempts := 1; LastErrorClass := "timeout"; Retry_UpdatedAt := now; NextAllowedAt := at_;
                  TerminalUntil := zero_time; ProbeOwner := ""; WakeReason := ""; Retry_ScaleSetName := ""; Retry_Owner := "" |} in
  let j := {| Retry_SchemaVersion := 1; Retry_Generation := 0; Retry_Journal_UpdatedAt := now; Records := Some ∅; Reservations := None |} in
  let soon := ("scale-set:e:1", r (now + 500000000)) in
  let later := ("scale-set:e:2", r (now + 10 * Second)) in
  NextRetryDelaySeconds (fold_left (inspect_record now) [soon; later] (inspect_start j ∅)) = 10 ∧
  NextRetryDelaySeconds (fold_left (inspect_record now) [later; soon] (inspect_start j ∅)) = 0.
Proof. vm_compute. done. Qed.

(** A queue journal between one and four mebibytes, which the coordinator reads,
    never proves a job active, so its circuit cannot be recovered. *)
Theorem large_queue_journal_refused (size perm : Z) (content : result QueueDocument) (j : queueIntentJournal) (jobID : string) (now : Time) :
  maximumQueueJournalBytes < size ≤ queueIntentMaxBytes → current_journal (QueueContent size perm content) = Ok j →
  ∃ e, requireActiveQueueJob (QueueContent size perm content) jobID now = Err e.
Proof.
  intros Hs _. unfold requireActiveQueueJob. destruct (maximumQueueJournalBytes <? size) eqn:?; [|lia]. rewrite orb_true_r. by eexists.
Qed.

(** ** A concrete circuit *)

Definition job_key0 : string := "scale-set:e-1:7:job:job-1".

Definition circuit0 : retry_record := {|
  Retry_JobID := job_key0; Attempts := 3; LastErrorClass := "timeout"; Retry_UpdatedAt := Hour; NextAllowedAt := Hour;
  TerminalUntil := 3 * Hour; ProbeOwner := ""; WakeReason := ""; Retry_ScaleSetName := "standard"; Retry_Owner := "example-org" |}.

Definition retry_journal0 : journal := {|
  Retry_SchemaVersion := 2; Retry_Generation := 4; Retry_Journal_UpdatedAt := Hour; Records := Some {[ job_key0 := circuit0 ]};
  Reservations := Some ∅ |}.

Definition retry_file0 : StateFile (Z * journal) := Present (Ok (700, retry_journal0)).

Definition recovery_env0 : RecoveryEnv := {| recovery_access := fault_free; recovery_now := 2 * Hour; retry_encoded_size := λ _, 300 |}.

Definition queue0 : QueueFile := QueueContent 900 384 (Ok {|
  Document_SchemaVersion := 6; Document_Generation := 1; Document_UpdatedAt := Hour;
  Document_Intents := Some {[ queueIntentKey 7 "job-1" := {|
    Key := queueIntentKey 7 "job-1"; ScaleSetID := 7; JobID := "job-1"; RunnerRequestID := 0; WorkflowRunID := 0; JobDisplayName := "";
    GitHubRunnerID := 0; ScaleSetName := "standard"; RunnerName := ""; Owner := "example-org"; Repository := "example-org";
    WorkflowRef := "ref"; EventName := "push"; QueueTime := Hour; FirstQueuedAt := Hour; State := queueStateAssigned; Priority := 1;
    StateEnteredAt := Hour; UpdatedAt := Hour; ExpiresAt := 3 * Hour |} ]};
  Document_Repositories := Some ∅; Document_TerminalJobs := Some ∅ |}).

Example recovery_applies :
  is_Ok (RecoverExactJobTerminal recovery_env0 queue0 job_key0 "e-1" 7 "timeout" Hour true retry_file0).2 = true.
Proof. vm_compute. reflexivity. Qed.

Lemma RecoverExactJobTerminal_exact_witness :
  let records : gmap string retry_record := {[ job_key0 := circuit0 ]} in
  let file' := (RecoverExactJobTerminal recovery_env0 queue0 job_key0 "e-1" 7 "timeout" Hour true retry_file0).1 in
  file' = retry_file0 ∨
  true = true ∧ ∃ r jobID domain j',
    file' = Present (Ok (retry_encoded_size recovery_env0 j', j')) ∧ Records j' = Some (delete job_key0 records) ∧
    Reservations j' = omit_empty (Reservations retry_journal0) ∧
    records !! job_key0 = Some r ∧ terminal_circuit job_key0 3 "timeout" r = true ∧ Retry_UpdatedAt r = Hour ∧
    Minute ≤ Sub (recovery_now recovery_env0) Hour ∧ requireActiveQueueJob queue0 jobID (recovery_now recovery_env0) = Ok tt ∧
    job_key0 = domain +:+ ":job:" +:+ jobID ∧ parseScaleSetDomainKey domain = Ok ("e-1", 7) ∧
    delete job_key0 records !! domain = records !! domain.
Proof.
  apply (RecoverExactJobTerminal_exact recovery_env0 queue0 job_key0 "e-1" 7 "timeout" Hour true retry_file0 retry_journal0 {[ job_key0 := circuit0 ]}).
  vm_compute. reflexivity.
Defined.

Lemma domain_key_roundtrip_witness : parseScaleSetDomainKey (domain_key "e-1" 7) = Ok ("e-1", 7).
Proof. apply (domain_key_roundtrip "e-1" 7); vm_compute; first [reflexivity|done|split; done]. Defined.
