(* ===== verification/CacheNamespace.v ===== *)
(** * Cache namespaces
    ([src/internal/cachenamespace/namespace.go])

    Where a repository's cache objects live: one root per repository and trust
    class, and the keys below it. *)

From S2P Require Import Prelude GoText Domain Tenant ProviderRetryFacts.

Local Open Scope Z_scope.
Local Open Scope go_scope.

Inductive TrustClass := Trusted | Untrusted | Promoted | OtherClass (s : string).

#[export] Instance TrustClass_eq_dec : EqDecision TrustClass.
Proof. solve_decision. Defined.

Definition TrustClasses : list TrustClass := [Trusted; Untrusted; Promoted].

Definition class_name (c : TrustClass) : string :=
  match c with Trusted => "trusted" | Untrusted => "untrusted" | Promoted => "promoted" | OtherClass s => s end.

(** [TrustClass(s)]. *)
Definition class_of (s : string) : TrustClass :=
  if bool_decide (s = "trusted") then Trusted else if bool_decide (s = "untrusted") then Untrusted
  else if bool_decide (s = "promoted") then Promoted else OtherClass s.

Definition Valid (c : TrustClass) : bool := match c with OtherClass _ => false | _ => true end.

Definition backslash : ascii := ascii_of_nat 92.

Definition validSegment (value : string) : bool :=
  negb (bool_decide (value = "")) && negb (bool_decide (value = ".")) && negb (bool_decide (value = "..")) &&
  negb (contains_any [slash; backslash] value).

Definition trustSegment : string := "trust".
Definition actionsCacheSegment : string := "cache".

(** The two segments of a repository. *)
Definition repository_segments (repository : string) : result (string * string) :=
  match split_byte slash repository with
  | [organization; name] =>
      fail_if (negb (validSegment organization) || negb (validSegment name))
        (Errorf "cache repository %q must be organization/repository" [repository]);;
      Ok (organization, name)
  | _ => Err (Errorf "cache repository %q must be organization/repository" [repository])
  end.

Definition PrefixRootFor (repository : string) (class : TrustClass) : result string :=
  fail_if (negb (Valid class)) (Errorf "unknown cache trust class %q" [class_name class]);;
  parts ← repository_segments repository;
  Ok (Join "/" [parts.1; parts.2; trustSegment; class_name class]).

(** [strings.ToLower] on ASCII. *)
Definition lower (c : ascii) : ascii :=
  let n := nat_of_ascii c in if ((65 <=? n) && (n <=? 90))%nat then ascii_of_nat (n + 32) else c.
Fixpoint ToLower (s : string) : string := match s with EmptyString => EmptyString | String c rest => String (lower c) (ToLower rest) end.

Definition BuildcacheRepositoryFor (repository : string) (class : TrustClass) : result string :=
  fail_if (negb (Valid class)) (Errorf "unknown cache trust class %q" [class_name class]);;
  parts ← repository_segments repository;
  Ok (Join "/" ["buildcache"; ToLower parts.1; ToLower parts.2; class_name class]).

Definition ActionsCachePrefixFor (repository : string) : result string :=
  parts ← repository_segments repository;
  Ok (Join "/" [actionsCacheSegment; parts.1; parts.2]).

Definition ParsePrefixRoot (pre : string) : result (string * TrustClass) :=
  match split_byte slash pre with
  | [organization; name; trust; class] =>
      fail_if (negb (validSegment organization) || negb (validSegment name) || negb (bool_decide (trust = trustSegment)))
        (Errorf "cache prefix %q must be organization/repository/trust/class" [pre]);;
      fail_if (negb (Valid (class_of class))) (Errorf "cache prefix %q has unknown trust class" [pre]);;
      Ok (organization +:+ "/" +:+ name, class_of class)
  | _ => Err (Errorf "cache prefix %q must be organization/repository/trust/class" [pre])
  end.

Definition Organization : string := "example-org".
Definition ExampleRepository : string := "example-actions".

Definition PrefixRoot (class : TrustClass) : result string := PrefixRootFor (Organization +:+ "/" +:+ ExampleRepository) class.

Record Object := {
  Class : TrustClass;
  Platform : string;
  Arch : string;
  Toolchain : string;
  LockDigest : string;
  RefClass : string;
  Name : string;
}.

Definition check_segment (name value : string) : result unit :=
  fail_if (bool_decide (value = "")) (Errorf "cache key component %s is empty" [name]);;
  fail_if (contains_any [slash; backslash] value || bool_decide (value = ".") || bool_decide (value = ".."))
    (Errorf "cache key component %s (%q) must be one path segment" [name; value]).

(** [strings.Contains(s, "..")]. *)
Fixpoint contains_dots (s : string) : bool :=
  String.prefix ".." s || match s with EmptyString => false | String _ rest => contains_dots rest end.

Definition segments (o : Object) : list string := [Platform o; Arch o; Toolchain o; LockDigest o; RefClass o].

Definition Object_Key (o : Object) : result string :=
  root ← PrefixRoot (Class o);
  forM [("platform", Platform o); ("architecture", Arch o); ("toolchain", Toolchain o); ("lock_digest", LockDigest o);
        ("ref_class", RefClass o)] (λ nv, check_segment nv.1 nv.2);;
  fail_if (bool_decide (Name o = "") || HasPrefix (Name o) "/" || contains_dots (Name o))
    (Errorf "cache object name %q must be a relative in-namespace path" [Name o]);;
  Ok (Join "/" (root :: segments o) +:+ "/" +:+ Name o).

Definition Template : string :=
  Join "/" ["{organization}"; "{repository}"; trustSegment; "{trust}"; "{platform}"; "{architecture}"; "{toolchain}"; "{lock_digest}"; "{ref_class}"].

Definition Identifier (pre : string) : result string := rc ← ParsePrefixRoot pre; Ok (class_name rc.2).

Definition Counterpart (class : TrustClass) : result TrustClass :=
  match class with
  | Untrusted => Ok Trusted
  | Trusted | Promoted => Ok Untrusted
  | OtherClass s => Err (Errorf "unknown cache trust class %q" [s])
  end.

(** * Facts *)

Lemma split_byte_Join c s : Join (String c "") (split_byte c s) = s.
Proof.
  induction s as [|a s IH]; [done|]. cbn [split_byte]. case_bool_decide as Ha.
  - subst a. destruct (split_byte c s) as [|w ws] eqn:Hs; [by destruct s; simpl in Hs; repeat case_match|].
    change (Join (String c "") ("" :: w :: ws)) with ("" +:+ String c "" +:+ Join (String c "") (w :: ws)). by rewrite IH.
  - destruct (split_byte c s) as [|w ws] eqn:Hs; [by destruct s; simpl in Hs; repeat case_match|].
    destruct ws as [|w' ws]; [simpl in *; by rewrite <-IH|].
    change (Join (String c "") (String a w :: w' :: ws)) with (String a (w +:+ String c "" +:+ Join (String c "") (w' :: ws))).
    change (Join (String c "") (w :: w' :: ws)) with (w +:+ String c "" +:+ Join (String c "") (w' :: ws)) in IH. by rewrite IH.
Qed.

Lemma split_byte_segments c s x : x ∈ split_byte c s → contains_byte c x = false.
Proof.
  revert x; induction s as [|a s IH]; intros x; cbn [split_byte].
  { by intros ->%list_elem_of_singleton. }
  case_bool_decide as Ha.
  { intros [->|Hx]%elem_of_cons; [done|by apply IH]. }
  destruct (split_byte c s) as [|w ws].
  { intros ->%list_elem_of_singleton. simpl. by rewrite bool_decide_eq_false_2. }
  intros [->|Hx]%elem_of_cons; [|by apply IH, list_elem_of_further]. simpl.
  rewrite bool_decide_eq_false_2 by done. simpl. apply IH, list_elem_of_here.
Qed.

Lemma class_of_name c : Valid c = true → class_of (class_name c) = c.
Proof. by destruct c. Qed.
Lemma name_of_class s : Valid (class_of s) = true → class_name (class_of s) = s.
Proof. unfold class_of. repeat case_bool_decide; done. Qed.
Lemma class_segment c : Valid c = true → contains_byte slash (class_name c) = false.
Proof. by destruct c. Qed.

Lemma validSegment_slash v : validSegment v = true → contains_byte slash v = false.
Proof. unfold validSegment, contains_any. simpl. intros H. by bool_hyps. Qed.

Lemma repository_segments_spec repository o n :
  repository_segments repository = Ok (o, n) ↔ repository = o +:+ "/" +:+ n ∧ validSegment o = true ∧ validSegment n = true.
Proof.
  unfold repository_segments. split.
  - pose proof (split_byte_Join slash repository) as Hj. destruct (split_byte slash repository) as [|a [|b [|]]]; try done.
    rewrite fail_if_Ok_bind. case_match; [done|]. intros [= <- <-]. bool_hyps. split_and!; try done.
  - intros (-> & Ho & Hn). change ("/" +:+ n) with (String slash n).
    rewrite split_byte_app, split_byte_last by (by apply validSegment_slash). by rewrite Ho, Hn.
Qed.

(** A root spelled out. *)
Lemma PrefixRootFor_spec repository class root :
  PrefixRootFor repository class = Ok root ↔
  Valid class = true ∧ ∃ o n, repository = o +:+ "/" +:+ n ∧ validSegment o = true ∧ validSegment n = true ∧
    root = o +:+ String slash (n +:+ String slash ("trust" +:+ String slash (class_name class))).
Proof.
  unfold PrefixRootFor. rewrite fail_if_Ok_bind. destruct (Valid class); cbn [negb]; [|split; [done|by intros []]].
  rewrite bind_Ok. split.
  - intros ([o n] & Hs & [= <-]). apply repository_segments_spec in Hs as (? & ? & ?). split; [done|]. by exists o, n.
  - intros (_ & o & n & -> & Ho & Hn & ->). exists (o, n). split; [by apply repository_segments_spec|done].
Qed.

(** ** Claims *)

(** Roots and their parsing are inverse: a root parses to the repository and class it
    was built from, and every prefix that parses is the root of what it parses to. *)
Theorem prefix_root_roundtrip (repository : string) (class : TrustClass) (root : string) :
  PrefixRootFor repository class = Ok root ↔ ParsePrefixRoot root = Ok (repository, class).
Proof.
  rewrite PrefixRootFor_spec. split.
  - intros (Hc & o & n & -> & Ho & Hn & ->). unfold ParsePrefixRoot.
    rewrite split_byte_app, split_byte_app, split_byte_app, split_byte_last by (by auto using validSegment_slash, class_segment).
    rewrite Ho, Hn, class_of_name by done. cbn [negb orb]. rewrite bool_decide_eq_true_2, Hc by done. done.
  - unfold ParsePrefixRoot. pose proof (split_byte_Join slash root) as Hj.
    destruct (split_byte slash root) as [|o [|n [|t [|c [|]]]]]; try done. intros H.
    apply bind_Ok in H as ([] & H1 & H). apply bind_Ok in H as ([] & H2 & H). apply fail_if_Ok in H1, H2. bool_hyps.
    apply Ok_inj in H. simplify_eq. split; [done|]. exists o, n. split_and!; try done. by rewrite name_of_class.
Qed.

(** Cache roots are isolated: an object key below the roots of two repositories and
    trust classes belongs to one repository and one class, whatever follows the
    roots; so no credential scoped to one root reaches an object of another. *)
Theorem prefix_roots_isolated (r1 r2 : string) (c1 c2 : TrustClass) (p1 p2 rest1 rest2 : string) :
  PrefixRootFor r1 c1 = Ok p1 → PrefixRootFor r2 c2 = Ok p2 → p1 +:+ "/" +:+ rest1 = p2 +:+ "/" +:+ rest2 → r1 = r2 ∧ c1 = c2 ∧ rest1 = rest2.
Proof.
  intros (Hc1 & o1 & n1 & -> & Ho1 & Hn1 & ->)%PrefixRootFor_spec (Hc2 & o2 & n2 & -> & Ho2 & Hn2 & ->)%PrefixRootFor_spec H.
  rewrite !string_app_assoc in H. apply app_sep_inj in H as [-> H]; [|by apply validSegment_slash..].
  rewrite !string_app_assoc in H. apply app_sep_inj in H as [-> H]; [|by apply validSegment_slash..].
  rewrite !string_app_assoc in H. apply app_sep_inj in H as [_ H]; [|done..].
  apply app_sep_inj in H as [Hc ->]; [|by apply class_segment..].
  split_and!; try done. rewrite <-(class_of_name c1), <-(class_of_name c2) by done. by rewrite Hc.
Qed.

Lemma check_segment_slash name value : check_segment name value = Ok tt → contains_byte slash value = false.
Proof.
  unfold check_segment, contains_any. simpl. intros H. apply bind_Ok in H as ([] & _ & H). apply fail_if_Ok in H. by bool_hyps.
Qed.

(** A key spelled out. *)
Lemma Object_Key_spec o key :
  Object_Key o = Ok key →
  Valid (Class o) = true ∧ (∀ s, s ∈ segments o → contains_byte slash s = false) ∧
  key = "example-org/example-actions/trust/" +:+ (class_name (Class o) +:+ String slash (Platform o +:+ String slash (Arch o +:+
    String slash (Toolchain o +:+ String slash (LockDigest o +:+ String slash (RefClass o +:+ String slash (Name o))))))).
Proof.
  unfold Object_Key. intros H. apply bind_Ok in H as (root & Hr & H). apply bind_Ok in H as ([] & Hs & H).
  apply bind_Ok in H as ([] & _ & [= <-]). rewrite forM_Ok in Hs. split; [|split].
  - by apply PrefixRootFor_spec in Hr as [? _].
  - intros s Hin. unfold segments in Hin.
    assert (∀ name, (name, s) ∈ [("platform", Platform o); ("architecture", Arch o); ("toolchain", Toolchain o);
      ("lock_digest", LockDigest o); ("ref_class", RefClass o)] → contains_byte slash s = false) as Hone
      by (intros name Hname; eapply check_segment_slash, (Hs (name, s)), Hname).
    rewrite !elem_of_cons in Hin. destruct Hin as [->|[->|[->|[->|[->|Hin]]]]];
      [apply (Hone "platform")|apply (Hone "architecture")|apply (Hone "toolchain")|apply (Hone "lock_digest")
      |apply (Hone "ref_class")|by apply not_elem_of_nil in Hin]; set_solver.
  - unfold PrefixRoot, PrefixRootFor in Hr. rewrite fail_if_Ok_bind in Hr. case_match; [done|]. cbn in Hr. injection Hr as <-.
    unfold segments. simpl. rewrite !string_app_assoc. done.
Qed.

(** Keys do not collide: two objects with the same key are the same object, so a key
    determines its trust class, platform, toolchain, dependency digest, ref class
    and name. *)
Theorem Object_Key_inj (o1 o2 : Object) (key : string) : Object_Key o1 = Ok key → Object_Key o2 = Ok key → o1 = o2.
Proof.
  intros (Hc1 & Hs1 & H1)%Object_Key_spec (Hc2 & Hs2 & H2)%Object_Key_spec. rewrite H1 in H2. apply (inj (String.app _)) in H2.
  assert (∀ s, s ∈ segments o1 ++ segments o2 → contains_byte slash s = false) as Hs.
  { intros s [H|H]%elem_of_app; [by apply Hs1|by apply Hs2]. }
  apply app_sep_inj in H2 as [Hclass H2]; [|by apply class_segment..].
  do 5 (apply app_sep_inj in H2 as [? H2]; [|apply Hs; unfold segments; set_solver..]).
  assert (Class o1 = Class o2) as Hc by (rewrite <-(class_of_name (Class o1)), <-(class_of_name (Class o2)) by done; by rewrite Hclass).
  destruct o1, o2; simpl in *; congruence.
Qed.

(** The prefix of the actions cache is not always beside the trust roots: objects
    under the trusted root of a repository of an organization named [cache] lie below the
    actions-cache prefix of another repository. *)
Theorem actions_cache_overlap :
  ∃ repository other root actions rest,
    PrefixRootFor repository Trusted = Ok root ∧ ActionsCachePrefixFor other = Ok actions ∧
    repository ≠ other ∧ root = actions +:+ "/" +:+ rest.
Proof. exists "cache/tools", "tools/trust", "cache/tools/trust/trusted", "cache/tools/trust", "trusted". vm_compute. done. Qed.

(** Outside such an organization the two never meet. *)
Lemma actions_cache_apart repository class root other actions rest1 rest2 o n :
  PrefixRootFor repository class = Ok root → repository = o +:+ "/" +:+ n → contains_byte slash o = false → o ≠ "cache" →
  ActionsCachePrefixFor other = Ok actions → root +:+ rest1 ≠ actions +:+ rest2.
Proof.
  intros (_ & o' & n' & -> & Ho & Hn & ->)%PrefixRootFor_spec Hr Hslash Hne Ha H.
  apply app_sep_inj in Hr as [-> _]; [|by apply validSegment_slash|done]. apply bind_Ok in Ha as ([a b] & _ & [= <-]).
  rewrite string_app_assoc in H.
  apply (app_sep_inj slash o "cache" _ ((a +:+ "/" +:+ b) +:+ rest2)) in H as [-> _]; done.
Qed.

Definition object0 : Object := {|
  Class := Trusted; Platform := "linux"; Arch := "amd64"; Toolchain := "go1.25"; LockDigest := "abc"; RefClass := "branch"; Name := "a/b" |}.

Lemma Object_Key_inj_witness : object0 = object0.
Proof.
  apply (Object_Key_inj object0 object0 "example-org/example-actions/trust/trusted/linux/amd64/go1.25/abc/branch/a/b");
    vm_compute; reflexivity.
Defined.

Lemma prefix_roots_isolated_witness : "org/repo" = "org/repo" ∧ Trusted = Trusted ∧ "x" = "x".
Proof.
  apply (prefix_roots_isolated "org/repo" "org/repo" Trusted Trusted "org/repo/trust/trusted" "org/repo/trust/trusted" "x" "x");
    vm_compute; reflexivity.
Defined.
