(* ===== verification/NetIP.v ===== *)
(** * Addresses: the part of Go's [net/netip] the configuration uses

    Parsing of IPv4 and IPv6 addresses, of [address:port] pairs and of CIDR
    prefixes, and the predicates on addresses. An IPv4 address is its 32-bit
    value, an IPv6 address its 128-bit value with its zone. *)

From S2P Require Import Prelude ProviderRetry.

Local Open Scope Z_scope.
Local Open Scope go_scope.

Inductive Addr :=
  | IPv4 (value : Z)
  | IPv6 (value : Z) (zone : string).

#[export] Instance Addr_eq_dec : EqDecision Addr.
Proof. solve_decision. Defined.

Definition dot : ascii := ".".
Definition colon : ascii := ":".
Definition percent : ascii := "%".

(** ** IPv4 *)

(** One octet: one to three digits without a leading zero, at most 255. *)
Definition parse_octet (s : string) : option Z :=
  match s with
  | EmptyString => None
  | String _ rest =>
      if bool_decide (String.get 0 s = Some "0"%char) && negb (bool_decide (rest = "")) then None
      else match parse_digits s 0 with
           | Some n => if n <=? 255 then Some n else None
           | None => None
           end
  end.

Definition parseIPv4 (s : string) : option Z :=
  match parse_octet <$> split_byte dot s with
  | [Some a; Some b; Some c; Some d] => Some (((a * 256 + b) * 256 + c) * 256 + d)
  | _ => None
  end.

(** ** IPv6 *)

Definition hex_digit (c : ascii) : option Z :=
  let n := Z.of_nat (nat_of_ascii c) in
  if (48 <=? n) && (n <=? 57) then Some (n - 48)
  else if (97 <=? n) && (n <=? 102) then Some (n - 87)
  else if (65 <=? n) && (n <=? 70) then Some (n - 55)
  else None.

(** The leading hexadecimal digits of a string: their value, their number and
    the rest. *)
Fixpoint hex_run (s : string) (acc : Z) (count : nat) : Z * nat * string :=
  match s with
  | String c rest =>
      match hex_digit c with
      | Some d => hex_run rest (acc * 16 + d) (S count)
      | None => (acc, count, s)
      end
  | EmptyString => (acc, count, s)
  end.

(** The groups read so far, most recent first, and how many of them precede the
    ellipsis, if there is one. *)
Record Groups := { groups : list Z; ellipsis : option nat }.

Definition octets_as_groups (v : Z) : list Z := [v `mod` 65536; v / 65536].

(** The loop over groups; every turn consumes at least one digit, and stops
    after eight groups. *)
Fixpoint parse_groups (turns : nat) (s : string) (g : Groups) : option (string * Groups) :=
  match turns with
  | O => Some (s, g)
  | S turns =>
      let '(acc, count, rest) := hex_run s 0 0 in
      if (count =? 0)%nat || (4 <? count)%nat then None
      else match rest with
      | EmptyString => Some ("", {| groups := acc :: groups g; ellipsis := ellipsis g |})
      | String c more =>
          if bool_decide (c = dot) then
            if (bool_decide (ellipsis g = None) && negb (length (groups g) =? 6)%nat) || (6 <? length (groups g))%nat then None
            else match parseIPv4 s with
                 | Some v => Some ("", {| groups := octets_as_groups v ++ groups g; ellipsis := ellipsis g |})
                 | None => None
                 end
          else if negb (bool_decide (c = colon)) then None
          else
            let g := {| groups := acc :: groups g; ellipsis := ellipsis g |} in
            match more with
            | EmptyString => None
            | String c' more' =>
                if bool_decide (c' = colon) then
                  match ellipsis g with
                  | Some _ => None
                  | None =>
                      let g := {| groups := groups g; ellipsis := Some (length (groups g)) |} in
                      if bool_decide (more' = "") then Some ("", g) else parse_groups turns more' g
                  end
                else parse_groups turns more g
            end
      end
  end.

Definition value_of_groups (gs : list Z) : Z := foldl (λ acc g, acc * 65536 + g) 0 gs.

(** The end of [parseIPv6]: everything used, and the ellipsis stands for at
    least one group. *)
Definition finish_groups (r : string * Groups) : option Z :=
  let gs := rev (groups r.2) in
  if negb (bool_decide (r.1 = "")) then None
  else match ellipsis r.2 with
  | None => if (length gs =? 8)%nat then Some (value_of_groups gs) else None
  | Some k =>
      if (length gs <? 8)%nat
      then Some (value_of_groups (take k gs ++ repeat 0 (8 - length gs) ++ drop k gs))
      else None
  end.

Definition parse_hextets (s : string) : option Z :=
  if String.prefix "::" s then
    let rest := drop_bytes 2 s in
    if bool_decide (rest = "") then Some 0
    else parse_groups 8 rest {| groups := []; ellipsis := Some 0%nat |} ≫= finish_groups
  else parse_groups 8 s {| groups := []; ellipsis := None |} ≫= finish_groups.

Definition parseIPv6 (s : string) : option Addr :=
  match Cut "%" s with
  | Some (address, zone) =>
      if bool_decide (zone = "") then None else (λ v, IPv6 v zone) <$> parse_hextets address
  | None => (λ v, IPv6 v "") <$> parse_hextets s
  end.

(** ** Addresses, ports and prefixes *)

(** [ParseAddr]: the first dot, colon or percent sign decides. *)
Fixpoint address_kind (s : string) : option ascii :=
  match s with
  | EmptyString => None
  | String c s => if bool_decide (c = dot) || bool_decide (c = colon) || bool_decide (c = percent) then Some c else address_kind s
  end.

Definition ParseAddr (s : string) : option Addr :=
  match address_kind s with
  | Some c =>
      if bool_decide (c = dot) then IPv4 <$> parseIPv4 s
      else if bool_decide (c = colon) then parseIPv6 s
      else None
  | None => None
  end.

(** Everything before and after the last [c]. *)
Fixpoint cut_last (c : ascii) (s : string) : option (string * string) :=
  match s with
  | EmptyString => None
  | String a rest =>
      match cut_last c rest with
      | Some (before, after) => Some (String a before, after)
      | None => if bool_decide (a = c) then Some ("", rest) else None
      end
  end.

(** [strconv.ParseUint(s, 10, 16)]. *)
Definition ParseUint16 (s : string) : option Z :=
  match s with
  | EmptyString => None
  | _ => match parse_digits s 0 with Some n => if n <=? 65535 then Some n else None | None => None end
  end.

Definition Is4 (a : Addr) : bool := match a with IPv4 _ => true | IPv6 _ _ => false end.

(** The address between brackets, if it starts with one. *)
Definition bracketed (s : string) : option (bool * string) :=
  match s with
  | String c rest =>
      if bool_decide (c = "["%char) then
        match cut_last "]" rest with Some (inner, "") => Some (true, inner) | _ => None end
      else Some (false, s)
  | EmptyString => None
  end.

Definition ParseAddrPort (s : string) : option (Addr * Z) :=
  match cut_last colon s with
  | None => None
  | Some (ip, port) =>
      match bracketed ip with
      | None => None
      | Some (v6, ip) =>
          match ParseUint16 port, ParseAddr ip with
          | Some p, Some a => if bool_decide (v6 = Is4 a) then None else Some (a, p)
          | _, _ => None
          end
      end
  end.

Record Prefix := { Prefix_Addr : Addr; Prefix_Bits : Z }.

#[export] Instance Prefix_eq_dec : EqDecision Prefix.
Proof. solve_decision. Defined.

(** Digits without sign or leading zero, and not above the address length. *)
Definition parse_bits (max_bits : Z) (s : string) : option Z :=
  match s with
  | EmptyString => None
  | String c rest =>
      if negb (bool_decide (rest = "")) && bool_decide (c = "0"%char) then None
      else match parse_digits s 0 with Some n => if n <=? max_bits then Some n else None | None => None end
  end.

Definition ParsePrefix (s : string) : option Prefix :=
  match cut_last "/" s with
  | None => None
  | Some (ip, bits) =>
      match ParseAddr ip with
      | Some (IPv4 v) => (λ b, {| Prefix_Addr := IPv4 v; Prefix_Bits := b |}) <$> parse_bits 32 bits
      | Some (IPv6 v zone) =>
          if negb (bool_decide (zone = "")) then None
          else (λ b, {| Prefix_Addr := IPv6 v zone; Prefix_Bits := b |}) <$> parse_bits 128 bits
      | None => None
      end
  end.

(** ** Predicates *)

(** The IPv4 address of an IPv4-mapped IPv6 address. *)
Definition Unmap (a : Addr) : Addr :=
  match a with
  | IPv6 v zone => if v / 2 ^ 32 =? 65535 then IPv4 (v `mod` 2 ^ 32) else a
  | IPv4 _ => a
  end.

Definition within4 (base bits v : Z) : bool := v / 2 ^ (32 - bits) =? base / 2 ^ (32 - bits).

Definition ip4 (a b c d : Z) : Z := ((a * 256 + b) * 256 + c) * 256 + d.

Definition IsLoopback (a : Addr) : bool :=
  match Unmap a with
  | IPv4 v => within4 (ip4 127 0 0 0) 8 v
  | IPv6 v _ => v =? 1
  end.

Definition IsPrivate4 (v : Z) : bool :=
  within4 (ip4 10 0 0 0) 8 v || within4 (ip4 172 16 0 0) 12 v || within4 (ip4 192 168 0 0) 16 v.

(** Global unicast: neither unspecified, broadcast, loopback, multicast nor
    link-local. *)
Definition IsGlobalUnicast4 (v : Z) : bool :=
  negb ((v =? 0) || (v =? ip4 255 255 255 255) || within4 (ip4 127 0 0 0) 8 v
        || within4 (ip4 224 0 0 0) 4 v || within4 (ip4 169 254 0 0) 16 v).

(** [p.Masked()] for an IPv4 prefix. *)
Definition masked4 (v bits : Z) : Z := v / 2 ^ (32 - bits) * 2 ^ (32 - bits).

(** [p.Overlaps(q)] for IPv4 prefixes: equal on the shorter of the two lengths. *)
Definition overlaps4 (v1 bits1 v2 bits2 : Z) : bool :=
  let bits := Z.min bits1 bits2 in within4 v1 bits v2.

(** ** Examples *)

Example parse_v4 : ParseAddr "10.113.0.1" = Some (IPv4 (ip4 10 113 0 1)).
Proof. vm_compute. reflexivity. Qed.

Example parse_refused :
  (ParseAddr <$> ["10.0.0"; "10.0.0.256"; "10.0.0.01"; "1.2.3.4.5"; "::1::"; "1:2:3:4:5:6:7"; ":1"; "fe80::1%"; "12345::"; "1.2.3.4:"; "%"; "0:0:0:0:0:0:0:0::"]) = replicate 12 None.
Proof. vm_compute. reflexivity. Qed.

Example parse_v6 :
  (ParseAddr <$> ["::"; "::1"; "1::"; "fe80::1%eth0"; "::ffff:127.0.0.1"; "1:2:3:4:5:6:7:8"; "1:2:3:4:5:6:1.2.3.4"]) =
  [Some (IPv6 0 ""); Some (IPv6 1 ""); Some (IPv6 (2 ^ 112) ""); Some (IPv6 (65152 * 2 ^ 112 + 1) "eth0");
   Some (IPv6 (65535 * 2 ^ 32 + ip4 127 0 0 1) "");
   Some (IPv6 (value_of_groups [1; 2; 3; 4; 5; 6; 7; 8]) ""); Some (IPv6 (value_of_groups [1; 2; 3; 4; 5; 6; 258; 772]) "")].
Proof. vm_compute. reflexivity. Qed.

Example parse_ports :
  (ParseAddrPort <$> ["127.0.0.1:8443"; "[::1]:8443"; "::1:8443"; "[127.0.0.1]:8443"; "127.0.0.1"; "127.0.0.1:65536"; "[::1:80"; ":80"]) =
  [Some (IPv4 (ip4 127 0 0 1), 8443); Some (IPv6 1 "", 8443); None; None; None; None; None; None].
Proof. vm_compute. reflexivity. Qed.

Example parse_prefixes :
  (ParsePrefix <$> ["10.0.0.0/8"; "10.0.0.0/08"; "10.0.0.0/33"; "10.0.0.0/-1"; "::/0"; "10.0.0.0"]) =
  [Some {| Prefix_Addr := IPv4 (ip4 10 0 0 0); Prefix_Bits := 8 |}; None; None; None;
   Some {| Prefix_Addr := IPv6 0 ""; Prefix_Bits := 0 |}; None].
Proof. vm_compute. reflexivity. Qed.
