(* ===== verification/FleetConfig.v ===== *)
(** * The platform configuration ([src/internal/config])

    [types.go]: the records of the configuration and what is derived from them;
    [validate.go]: the validation, which collects every issue and reports them
    sorted by path and message. The [host capacity] derived from a configuration
    ([src/internal/hostcapacity/capacity.go]) is at the end. *)

From S2P Require Import Prelude Tenant PressureGate CacheNamespace ProviderRetry NetIP.

Local Open Scope Z_scope.
Local Open Scope go_scope.

(** ** Data (types.go) *)

Record BackendCapabilities := { Backend_Docker : bool; Backend_Warm : bool }.

Record Backend := {
  Backend_Name : string;
  Backend_Platform : string;
  Architecture : string;
  Implementation : string;
  FailureDomain : string;
  Backend_Capabilities : BackendCapabilities;
}.

Record Cluster := { Enabled : bool; MemberName : string; Cluster_APIAddress : string; Members : Z }.

Record Incus := {
  Incus_Version : string;
  APIAddress : string;
  Project : string;
  StoragePool : string;
  StorageDriver : string;
  StorageSizeGiB : Z;
  ProjectDiskLimitGiB : Z;
  ProjectHardDiskLimitGiB : Z;
  Network : string;
  NetworkCIDR : string;
  EgressACL : string;
  PublicHostAddress : string;
  EstatePublicHostAddresses : list string;
  ServicesHostAddress : string;
  ProjectMaxInstances : Z;
  ProjectMaxCPUUnits : Z;
  ProjectMaxMemoryMiB : Z;
  ProjectHardMemoryLimitMiB : Z;
  Incus_Cluster : Cluster;
  RegistryPort : Z;
  RustFSPort : Z;
  CacheGatewayPort : Z;
  GARMGatewayPort : Z;
}.

Record Platform := { Platform_Name : string; Platform_Host : string }.

Record ControlPlane := {
  Manager : string;
  ManagerVersion : string;
  SchedulingMode : string;
  Provider : string;
  ProviderVersion : string;
  ProviderInterface : string;
  WorkerKind : string;
  Runner : string;
  RunnerVersion : string;
  RunnerUpdatePolicy : string;
}.

Record Guardrails := {
  RequireEphemeral : bool;
  JobsPerWorker : Z;
  WarmInstancesUnregistered : bool;
  DenyHostDockerSocket : bool;
  DenyNestedVirtualization : bool;
  DenyPrivateNetworkByDefault : bool;
  CPUSchedulingMode : string;
  HardMemoryExcludesEmergencySwap : bool;
  EmergencySwapSchedulable : bool;
  AllowMemoryBallooning : bool;
}.

Record HostReserve := {
  Reserve_Mode : string;
  Reserve_CPUUnits : Z;
  Reserve_MemoryMiB : Z;
  Reserve_Percent : Z;
  Reserve_MaximumFleetCPUPercent : Z;
  Reserve_CPUAllowanceOvercommit : Z;
  Reserve_FreeDiskPercent : Z;
}.

Record ObjectStore := {
  Store_Implementation : string;
  EndpointEnv : string;
  AccessKeyEnv : string;
  SecretKeyEnv : string;
  Bucket : string;
}.

Record Cache := {
  Cache_ObjectStore : ObjectStore;
  NamespaceTemplate : string;
  UntrustedWriteScope : string;
  ReleaseWriteScope : string;
}.

Record Resources := { VCPU : Z; Resources_MemoryMiB : Z; DiskGiB : Z }.
Record Reservation := { Reservation_CPUUnits : Z; Reservation_MemoryMiB : Z }.
Record WarmPool := { TargetReady : Z; MaxReady : Z }.
Record EgressDestination := { Destination : string; Protocol : string; Ports : string; Purpose : string }.

Record Capabilities := {
  Docker : bool;
  Browser : bool;
  Credentials : string;
  NetworkPolicy : string;
  CacheWriteScope : string;
  EgressAllowlist : list EgressDestination;
}.

Record Pool := {
  Pool_Name : string;
  Pool_Backend : string;
  Pool_Tenant : string;
  Pool_ScaleSetName : string;
  Trust : string;
  Pool_Resources : Resources;
  Pool_Reservation : Reservation;
  MaxRunning : Z;
  Warm : WarmPool;
  Pool_Capabilities : Capabilities;
}.

Record Config := {
  Config_SchemaVersion : Z;
  Config_Platform : Platform;
  Config_ControlPlane : ControlPlane;
  Config_Incus : Incus;
  Config_Guardrails : Guardrails;
  Config_HostReserve : HostReserve;
  Pressure : PressureGate.Policy;
  Config_Cache : Cache;
  Backends : list Backend;
  Pools : list Pool;
}.

(** ** Derived values *)

Definition TenantID (p : Pool) : string := if bool_decide (Pool_Tenant p = "") then DefaultID else Pool_Tenant p.

Definition EffectiveReservation (p : Pool) : Reservation :=
  if (0 <? Reservation_CPUUnits (Pool_Reservation p)) && (0 <? Reservation_MemoryMiB (Pool_Reservation p)) then Pool_Reservation p
  else {| Reservation_CPUUnits := VCPU (Pool_Resources p); Reservation_MemoryMiB := Resources_MemoryMiB (Pool_Resources p) |}.

Definition find_pool (c : Config) (name : string) : option Pool :=
  List.find (λ p, bool_decide (Pool_Name p = name)) (Pools c).

Definition PoolByScaleSet (c : Config) (scaleSetName : string) : option Pool :=
  List.find (λ p, bool_decide (Pool_ScaleSetName p = scaleSetName)) (Pools c).

Definition find_backend (c : Config) (name : string) : option Backend :=
  List.find (λ b, bool_decide (Backend_Name b = name)) (Backends c).

Definition EffectiveAPIAddress (i : Incus) : string :=
  if Enabled (Incus_Cluster i) && negb (bool_decide (Cluster_APIAddress (Incus_Cluster i) = ""))
  then Cluster_APIAddress (Incus_Cluster i) else APIAddress i.

Definition ClusterMembers (i : Incus) : Z :=
  if Enabled (Incus_Cluster i) && (0 <? Members (Incus_Cluster i)) then Members (Incus_Cluster i) else 1.

Definition FleetMaxInstances (i : Incus) : Z := ProjectMaxInstances i ⊗ ClusterMembers i.
Definition FleetMaxCPUUnits (i : Incus) : Z := ProjectMaxCPUUnits i ⊗ ClusterMembers i.
Definition FleetMaxMemoryMiB (i : Incus) : Z := ProjectMaxMemoryMiB i ⊗ ClusterMembers i.
Definition FleetDiskLimitGiB (i : Incus) : Z := ProjectDiskLimitGiB i ⊗ ClusterMembers i.

Definition FleetHardMemoryLimitMiB (i : Incus) : Z :=
  (if ProjectHardMemoryLimitMiB i =? 0 then ProjectMaxMemoryMiB i else ProjectHardMemoryLimitMiB i) ⊗ ClusterMembers i.
Definition FleetHardDiskLimitGiB (i : Incus) : Z :=
  (if ProjectHardDiskLimitGiB i =? 0 then ProjectDiskLimitGiB i else ProjectHardDiskLimitGiB i) ⊗ ClusterMembers i.

Definition ReservedEgressDestinations : list string :=
  ["0.0.0.0/8"; "10.0.0.0/8"; "100.64.0.0/10"; "127.0.0.0/8"; "169.254.0.0/16"; "172.16.0.0/12"; "192.168.0.0/16";
   "198.18.0.0/15"; "224.0.0.0/4"; "240.0.0.0/4"].

(** ** Patterns (the regular expressions of validate.go) *)

Definition in_range (lo hi c : ascii) : bool :=
  (nat_of_ascii lo <=? nat_of_ascii c)%nat && (nat_of_ascii c <=? nat_of_ascii hi)%nat.
Definition is_lower (c : ascii) : bool := in_range "a" "z" c.
Definition is_upper (c : ascii) : bool := in_range "A" "Z" c.
Definition is_digit (c : ascii) : bool := in_range "0" "9" c.

Fixpoint all_bytes (f : ascii → bool) (s : string) : bool :=
  match s with EmptyString => true | String c s => f c && all_bytes f s end.

Definition name_byte (c : ascii) : bool := is_lower c || is_digit c || bool_decide (c = "-"%char).

(** [^[a-z][a-z0-9-]{2,62}$]. *)
Definition namePattern (s : string) : bool :=
  match s with
  | EmptyString => false
  | String c rest => is_lower c && all_bytes name_byte rest && (2 <=? String.length rest)%nat && (String.length rest <=? 62)%nat
  end.

(** [^[A-Z][A-Z0-9_]*$]. *)
Definition envPattern (s : string) : bool :=
  match s with
  | EmptyString => false
  | String c rest => is_upper c && all_bytes (λ c, is_upper c || is_digit c || bool_decide (c = "_"%char)) rest
  end.

Definition bucket_end (c : ascii) : bool := is_lower c || is_digit c.

(** [^[a-z0-9][a-z0-9.-]{1,61}[a-z0-9]$]. *)
Definition bucketPattern (s : string) : bool :=
  (3 <=? String.length s)%nat && (String.length s <=? 63)%nat &&
  all_bytes (λ c, bucket_end c || bool_decide (c = "."%char) || bool_decide (c = "-"%char)) s &&
  match s, rev_string s with String first _, String last _ => bucket_end first && bucket_end last | _, _ => false end.

(** The rest after a non-empty run of digits. *)
Fixpoint after_digits (s : string) : string :=
  match s with String c rest => if is_digit c then after_digits rest else s | EmptyString => s end.
Definition digits_then (s : string) (k : string → bool) : bool :=
  match s with String c rest => is_digit c && k (after_digits rest) | EmptyString => false end.
Definition byte_then (b : ascii) (s : string) (k : string → bool) : bool :=
  match s with String c rest => bool_decide (c = b) && k rest | EmptyString => false end.

Definition version_suffix (s : string) : bool :=
  match s with
  | EmptyString => true
  | String c rest =>
      (bool_decide (c = "-"%char) || bool_decide (c = "+"%char)) && negb (bool_decide (rest = "")) &&
      all_bytes (λ c, is_digit c || is_upper c || is_lower c || bool_decide (c = "."%char) || bool_decide (c = "-"%char)) rest
  end.

(** [^v[0-9]+\.[0-9]+\.[0-9]+(?:[-+][0-9A-Za-z.-]+)?$]. *)
Definition versionPattern (s : string) : bool :=
  byte_then "v" s (λ s, digits_then s (λ s, byte_then "." s (λ s, digits_then s (λ s, byte_then "." s (λ s, digits_then s version_suffix))))).

(** ** Issues *)

Record Issue := { Path : string; Message : string }.

#[export] Instance Issue_eq_dec : EqDecision Issue.
Proof. solve_decision. Defined.

(** [if bad { add(path, message) }]. *)
Definition check (bad : bool) (path message : string) : list Issue :=
  if bad then [{| Path := path; Message := message |}] else [].

Definition requireEqual (path actual expected : string) : list Issue :=
  check (negb (bool_decide (actual = expected))) path ("must be " +:+ expected).
Definition validateVersion (path value : string) : list Issue :=
  check (negb (versionPattern value)) path "must be an exact vMAJOR.MINOR.PATCH version".
Definition validateEnv (path value : string) : list Issue :=
  check (negb (envPattern value)) path "must name an environment variable, not contain a secret".
Definition validateServicePort (path : string) (port : Z) : list Issue :=
  check ((port <? 1024) || (65535 <? port)) path "must be an unprivileged TCP port".
Definition oneOf (value : string) (allowed : list string) : bool := bool_decide (value ∈ allowed).
Definition validateName (path value : string) : list Issue :=
  check (negb (namePattern value)) path "must be a lowercase DNS-style name".

(** The text of an error whose format has [%s] verbs only. *)
Fixpoint render (format : string) (args : list string) : string :=
  match format with
  | String "%" (String "s" rest) =>
      match args with a :: args => a +:+ render rest args | [] => "%!s(MISSING)" +:+ render rest [] end
  | String c rest => String c (render rest args)
  | EmptyString => ""
  end.
Definition error_text (e : error) : string := match e with Errorf f args => render f args | Wrapf f args _ => render f args end.

(** ** Incus *)

Definition validateCluster (c : Cluster) : list Issue :=
  if negb (Enabled c) then
    check (negb (bool_decide (MemberName c = "")) || negb (bool_decide (Cluster_APIAddress c = "")) || negb (Members c =? 0))
      "incus.cluster" "must be empty unless clustering is enabled"
  else
    check (bool_decide (MemberName c = "") || contains_any [" "%char; slash] (MemberName c))
      "incus.cluster.member_name" "must name this Incus cluster member" ++
    match ParseAddrPort (Cluster_APIAddress c) with
    | Some (a, port) =>
        if negb (port =? 8443) then check true "incus.cluster.api_address" "must be an address:8443 endpoint"
        else if IsLoopback a
        then check true "incus.cluster.api_address" "must not be loopback; a cluster member's peers have to reach it"
        else check (negb (match a with IPv4 v => IsPrivate4 v | IPv6 _ _ => false end))
               "incus.cluster.api_address" "must be a private IPv4 address on port 8443"
    | None => check true "incus.cluster.api_address" "must be an address:8443 endpoint"
    end ++
    check ((Members c <? 1) || (8 <? Members c)) "incus.cluster.members" "must be between 1 and 8".

Definition public_v4 (s : string) : bool :=
  match ParseAddr s with Some (IPv4 v) => IsGlobalUnicast4 v && negb (IsPrivate4 v) | _ => false end.
Definition private_v4 (s : string) : bool :=
  match ParseAddr s with Some (IPv4 v) => IsGlobalUnicast4 v && IsPrivate4 v | _ => false end.
Definition gateway_24 (s : string) : bool :=
  match ParsePrefix s with
  | Some {| Prefix_Addr := IPv4 v; Prefix_Bits := bits |} => (bits =? 24) && (v `mod` 256 =? 1)
  | _ => false
  end.

Definition indexed (path : string) (index : nat) : string := path +:+ "[" +:+ pretty index +:+ "]".

(** One turn of the loop over the estate's addresses, with the earlier ones. *)
Definition validateEstateAddress (seen : list string) (value : string) : list Issue :=
  check (negb (public_v4 value)) (indexed "incus.estate_public_host_addresses" (length seen)) "must be a public IPv4 address" ++
  check (bool_decide (value ∈ seen)) "incus.estate_public_host_addresses" "must be unique".

(** A loop whose turns see the earlier elements. *)
Fixpoint visit {A B} (f : list A → A → list B) (seen xs : list A) : list B :=
  match xs with [] => [] | x :: xs => f seen x ++ visit f (seen ++ [x]) xs end.

Definition validateEstate (i : Incus) : list Issue :=
  let addresses := EstatePublicHostAddresses i in
  let path := "incus.estate_public_host_addresses" in
  check (negb (Z.of_nat (length addresses) =? Members (Incus_Cluster i) ⊕ 1)) path "must contain every cluster member plus the queue host" ++
  check (negb (is_sorted addresses)) path "must be strictly sorted" ++
  visit validateEstateAddress [] addresses ++
  check (negb (bool_decide (PublicHostAddress i ∈ addresses))) path "must include this host public address".

(** The map of ports holds, for each port, the last service that named it. *)
Definition validatePort (seen : list (string * Z)) (service : string * Z) : list Issue :=
  match List.find (λ s, s.2 =? service.2) (rev seen) with
  | Some previous => check true service.1 ("must differ from " +:+ previous.1)
  | None => []
  end.

Definition services (i : Incus) : list (string * Z) :=
  [("incus.registry_port", RegistryPort i); ("incus.rustfs_port", RustFSPort i);
   ("incus.cache_gateway_port", CacheGatewayPort i); ("incus.garm_gateway_port", GARMGatewayPort i)].

Definition validateIncus (i : Incus) : list Issue :=
  validateVersion "incus.version" (Incus_Version i) ++
  check (negb (bool_decide (Incus_Version i = "v6.0.6"))) "incus.version" "must remain pinned to the fleet Incus 6.0.6 LTS baseline" ++
  check (negb (match ParseAddrPort (APIAddress i) with Some (a, port) => IsLoopback a && (port =? 8443) | None => false end))
    "incus.api_address" "must be the loopback TLS endpoint 127.0.0.1:8443" ++
  validateCluster (Incus_Cluster i) ++
  validateName "incus.project" (Project i) ++ validateName "incus.storage_pool" (StoragePool i) ++
  validateName "incus.network" (Network i) ++ validateName "incus.egress_acl" (EgressACL i) ++
  check (negb (bool_decide (StorageDriver i = "lvm"))) "incus.storage_driver" "must be lvm for the bounded loop-backed pilot pool" ++
  check ((StorageSizeGiB i <? 80) || (200 <? StorageSizeGiB i)) "incus.storage_size_gib" "must be between 80 and 200 GiB" ++
  check ((ProjectDiskLimitGiB i <? 40) || (StorageSizeGiB i <=? ProjectDiskLimitGiB i))
    "incus.project_disk_limit_gib" "must be at least 40 GiB and smaller than the storage pool" ++
  check (negb (gateway_24 (NetworkCIDR i))) "incus.network_cidr" "must be an isolated IPv4 /24 whose declared gateway is .1" ++
  check (negb (public_v4 (PublicHostAddress i))) "incus.public_host_address" "must be the host public IPv4 address" ++
  check (negb (private_v4 (ServicesHostAddress i)))
    "incus.services_host_address" "must be the private unicast IPv4 address of the queue/services host" ++
  (if Enabled (Incus_Cluster i) then validateEstate i else []) ++
  check ((ProjectMaxInstances i <? 1) || (8 <? ProjectMaxInstances i)) "incus.project_max_instances" "must be between one and eight" ++
  check ((ProjectMaxCPUUnits i <? 1) || (10 <? ProjectMaxCPUUnits i))
    "incus.project_max_cpu_units" "must be between one and ten logical scheduling units" ++
  check ((ProjectMaxMemoryMiB i <? 4096) || (15 * 1024 <? ProjectMaxMemoryMiB i))
    "incus.project_max_memory_mib" "must be between 4096 and 15360 MiB" ++
  (services i ≫= λ s, validateServicePort s.1 s.2) ++
  visit validatePort [] (services i).

(** ** Egress *)

(** [strconv.Atoi] of a port that prints back as the same text. *)
Definition exact_port (port : string) : bool :=
  match parse_digits port 0 with
  | Some n => bool_decide (pretty n = port) && (1 <=? n) && (n <=? 65535)
  | None => false
  end.

Definition validateEgressPorts (entry ports : string) : list Issue :=
  if bool_decide (ports = "") then check true (entry +:+ ".ports") "must name at least one port"
  else check (negb (forallb exact_port (split_byte "," ports))) (entry +:+ ".ports") "must be comma-separated exact ports in 1..65535".

(** The reserved table, parsed; [None] if an entry does not parse. *)
Definition reserved_prefixes : option (list (string * Prefix)) :=
  mapM (λ text, (λ p, (text, p)) <$> ParsePrefix text) ReservedEgressDestinations.

Definition blocks (v : Z) (b : string * Prefix) : bool :=
  match Prefix_Addr b.2 with IPv4 base => overlaps4 base (Prefix_Bits b.2) v 32 | IPv6 _ _ => false end.

(** The issues of one destination and the addresses seen after it. *)
Definition validateEgressDestination (reserved : list (string * Prefix)) (entry : string) (d : EgressDestination) (seen : list Z)
    : list Issue * list Z :=
  let before :=
    check (blank (Purpose d)) (entry +:+ ".purpose") "must state why this destination is reachable" ++
    check (negb (bool_decide (Protocol d = "tcp"))) (entry +:+ ".protocol") "must be tcp" in
  let refused message := (before ++ check true (entry +:+ ".destination") message, seen) in
  match ParsePrefix (Destination d) with
  | None => refused "must be one exact IPv4 address in CIDR form"
  | Some {| Prefix_Addr := IPv6 _ _ |} => refused "must be a single IPv4 /32"
  | Some {| Prefix_Addr := IPv4 v; Prefix_Bits := bits |} =>
      if negb (bits =? 32) then refused "must be a single IPv4 /32"
      else if negb (masked4 v bits =? v) then refused "must be the network address of its prefix"
      else match List.find (blocks v) reserved with
      | Some b => refused ("falls inside a range every pool is denied: " +:+ b.1)
      | None =>
          if bool_decide (v ∈ seen) then refused "is declared more than once"
          else (before ++ validateEgressPorts entry (Ports d), v :: seen)
      end
  end.

Fixpoint validateDestinations (reserved : list (string * Prefix)) (field : string) (index : nat) (ds : list EgressDestination) (seen : list Z)
    : list Issue :=
  match ds with
  | [] => []
  | d :: ds =>
      let '(issues, seen) := validateEgressDestination reserved (indexed field index) d seen in
      issues ++ validateDestinations reserved field (S index) ds seen
  end.

Definition validateEgressAllowlist (pre : string) (p : Pool) : list Issue :=
  let field := pre +:+ ".capabilities.egress_allowlist" in
  let allowlist := EgressAllowlist (Pool_Capabilities p) in
  if negb (bool_decide (NetworkPolicy (Pool_Capabilities p) = "release-allowlist")) then
    check (negb (length allowlist =? 0)%nat) field "only a release-allowlist pool may declare egress destinations"
  else if (length allowlist =? 0)%nat then []
  else match reserved_prefixes with
  | None => check true field "reserved destination table is unparseable"
  | Some reserved => validateDestinations reserved field 0 allowlist []
  end.

(** ** Pools and backends *)

Definition validatePool (pre : string) (p : Pool) : list Issue :=
  let caps := Pool_Capabilities p in
  let res := Pool_Resources p in
  let reservation := EffectiveReservation p in
  validateName (pre +:+ ".name") (Pool_Name p) ++
  check (negb (namePattern (Pool_Backend p))) (pre +:+ ".backend") "must be a lowercase DNS-style backend name" ++
  check (negb (namePattern (Pool_ScaleSetName p)) || negb (HasPrefix (Pool_ScaleSetName p) "nddev-"))
    (pre +:+ ".scale_set_name") "must be a unique nddev-* scale set name" ++
  (if bool_decide (Pool_Tenant p = "") then []
   else check (negb (is_Ok (ByID (Pool_Tenant p)))) (pre +:+ ".tenant") "must be a known tenant") ++
  check (VCPU res <? 1) (pre +:+ ".resources.vcpu") "must be positive" ++
  check ((Resources_MemoryMiB res <? 1024) || negb (Resources_MemoryMiB res `rem` 256 =? 0))
    (pre +:+ ".resources.memory_mib") "must be at least 1024 and divisible by 256" ++
  check ((DiskGiB res <? 10) || (100 <? DiskGiB res)) (pre +:+ ".resources.disk_gib") "must be between 10 and 100 GiB" ++
  check ((Reservation_CPUUnits reservation <? 1) || (VCPU res <? Reservation_CPUUnits reservation))
    (pre +:+ ".reservation.cpu_units") "must be positive and no greater than the hard vCPU limit" ++
  check ((Reservation_MemoryMiB reservation <? 256) || negb (Reservation_MemoryMiB reservation `rem` 256 =? 0)
         || (Resources_MemoryMiB res <? Reservation_MemoryMiB reservation))
    (pre +:+ ".reservation.memory_mib") "must be at least 256 MiB, divisible by 256 and no greater than the hard memory limit" ++
  check (MaxRunning p <? 1) (pre +:+ ".max_running") "must be positive" ++
  check ((TargetReady (Warm p) <? 0) || (MaxReady (Warm p) <? 0)) (pre +:+ ".warm") "values cannot be negative" ++
  check (MaxReady (Warm p) <? TargetReady (Warm p)) (pre +:+ ".warm.target_ready") "cannot exceed max_ready" ++
  check (MaxRunning p <? MaxReady (Warm p)) (pre +:+ ".warm.max_ready") "cannot exceed max_running" ++
  check (negb (oneOf (Trust p) ["trusted"; "untrusted"; "release"])) (pre +:+ ".trust") "must be trusted, untrusted, or release" ++
  check (negb (oneOf (Credentials caps) ["none"; "repository"; "oidc-only"]))
    (pre +:+ ".capabilities.credentials") "must be none, repository, or oidc-only" ++
  check (negb (oneOf (NetworkPolicy caps) ["github-cache-only"; "public-internet"; "release-allowlist"]))
    (pre +:+ ".capabilities.network_policy") "uses an unsupported network policy" ++
  check (negb (oneOf (CacheWriteScope caps) ["none"; "isolated"; "trusted"]))
    (pre +:+ ".capabilities.cache_write_scope") "must be none, isolated, or trusted" ++
  (if bool_decide (Trust p = "untrusted") then
     check (negb (bool_decide (Credentials caps = "none"))) (pre +:+ ".capabilities.credentials") "untrusted pools cannot receive credentials" ++
     check (negb (bool_decide (CacheWriteScope caps = "isolated")) && negb (bool_decide (CacheWriteScope caps = "none")))
       (pre +:+ ".capabilities.cache_write_scope") "untrusted pools need isolated or disabled writes" ++
     check (negb (bool_decide (NetworkPolicy caps = "public-internet")))
       (pre +:+ ".capabilities.network_policy") "untrusted pools require public-internet isolation"
   else []) ++
  (if bool_decide (Trust p = "release") then
     check (negb (bool_decide (Credentials caps = "oidc-only"))) (pre +:+ ".capabilities.credentials") "release pools require oidc-only credentials" ++
     check (negb (bool_decide (CacheWriteScope caps = "none"))) (pre +:+ ".capabilities.cache_write_scope") "release pools cannot write shared caches" ++
     check (negb (bool_decide (NetworkPolicy caps = "release-allowlist")))
       (pre +:+ ".capabilities.network_policy") "release pools require an explicit allowlist" ++
     check (negb (TargetReady (Warm p) =? 0) || negb (MaxReady (Warm p) =? 0)) (pre +:+ ".warm") "release pools must stay cold"
   else []) ++
  validateEgressAllowlist pre p.

Definition validateBackend (pre : string) (b : Backend) (host : string) : list Issue :=
  validateName (pre +:+ ".name") (Backend_Name b) ++
  check (negb (bool_decide (Backend_Platform b = "linux"))) (pre +:+ ".platform") "must be linux until another platform backend is approved" ++
  check (negb (bool_decide (Architecture b = "amd64"))) (pre +:+ ".architecture") "must be amd64 until another architecture backend is approved" ++
  check (negb (bool_decide (Implementation b = "incus-vm")) && negb (bool_decide (Implementation b = "incus-container")))
    (pre +:+ ".implementation") "must be incus-vm or incus-container for an approved Linux backend" ++
  (if negb (namePattern (FailureDomain b)) then validateName (pre +:+ ".failure_domain") (FailureDomain b)
   else check (negb (bool_decide (FailureDomain b = host))) (pre +:+ ".failure_domain") "must match platform.host for a single-host backend").

(** The identity of a backend: its parts joined with NUL bytes. *)
Definition NUL : string := bytes [0%nat].
Definition backend_identity (b : Backend) : string :=
  Backend_Platform b +:+ NUL +:+ Architecture b +:+ NUL +:+ Implementation b +:+ NUL +:+ FailureDomain b.
Definition scale_set_key (p : Pool) : string := TenantID p +:+ NUL +:+ Pool_ScaleSetName p.

Definition visit_backend (host : string) (seen : list Backend) (b : Backend) : list Issue :=
  let pre := indexed "backends" (length seen) in
  validateBackend pre b host ++
  check (bool_decide (Backend_Name b ∈ Backend_Name <$> seen)) (pre +:+ ".name") "must be unique" ++
  check (bool_decide (backend_identity b ∈ backend_identity <$> seen))
    pre "must not duplicate another platform, architecture, implementation and failure domain".

(** [backendByName[name]]: the last backend with the name. *)
Definition backend_by_name (backends : list Backend) (name : string) : option Backend :=
  List.find (λ b, bool_decide (Backend_Name b = name)) (rev backends).

Definition visit_pool (backends : list Backend) (seen : list Pool) (p : Pool) : list Issue :=
  let pre := indexed "pools" (length seen) in
  validatePool pre p ++
  match backend_by_name backends (Pool_Backend p) with
  | None => check true (pre +:+ ".backend") "must reference a declared execution backend"
  | Some b =>
      check (Docker (Pool_Capabilities p) && negb (Backend_Docker (Backend_Capabilities b)))
        (pre +:+ ".capabilities.docker") "requires Docker support from the selected execution backend" ++
      check (negb (MaxReady (Warm p) =? 0) && negb (Backend_Warm (Backend_Capabilities b)))
        (pre +:+ ".warm.max_ready") "warm capacity requires a backend that declares it"
  end ++
  check (bool_decide (Pool_Name p ∈ Pool_Name <$> seen)) (pre +:+ ".name") "must be unique" ++
  check (bool_decide (scale_set_key p ∈ scale_set_key <$> seen)) (pre +:+ ".scale_set_name") "must be unique for its tenant".

Definition max_over (f : Pool → Z) (pools : list Pool) : Z := foldl (λ m p, Z.max m (f p)) 0 pools.

(** ** The whole configuration *)

Definition validateControlPlane (cp : ControlPlane) : list Issue :=
  requireEqual "control_plane.manager" (Manager cp) "garm" ++
  validateVersion "control_plane.manager_version" (ManagerVersion cp) ++
  requireEqual "control_plane.scheduling_mode" (SchedulingMode cp) "scale-set" ++
  requireEqual "control_plane.provider" (Provider cp) "incus" ++
  validateVersion "control_plane.provider_version" (ProviderVersion cp) ++
  requireEqual "control_plane.provider_interface" (ProviderInterface cp) "v0.1.0" ++
  requireEqual "control_plane.worker_kind" (WorkerKind cp) "incus-container" ++
  requireEqual "control_plane.runner" (Runner cp) "actions/runner" ++
  validateVersion "control_plane.runner_version" (RunnerVersion cp) ++
  requireEqual "control_plane.runner_update_policy" (RunnerUpdatePolicy cp) "image-canary".

Definition validateGuardrails (g : Guardrails) : list Issue :=
  check (negb (RequireEphemeral g)) "guardrails.require_ephemeral" "must be true" ++
  check (negb (JobsPerWorker g =? 1)) "guardrails.jobs_per_worker" "must be exactly 1" ++
  check (negb (WarmInstancesUnregistered g)) "guardrails.warm_instances_unregistered" "must be true" ++
  check (negb (DenyHostDockerSocket g)) "guardrails.deny_host_docker_socket" "must be true" ++
  check (negb (DenyNestedVirtualization g)) "guardrails.deny_nested_virtualization" "must be true" ++
  check (negb (DenyPrivateNetworkByDefault g)) "guardrails.deny_private_network_by_default" "must be true" ++
  check (negb (bool_decide (CPUSchedulingMode g = "weighted-overcommit")))
    "guardrails.cpu_scheduling_mode" "must be weighted-overcommit because limits.cpu.allowance is a work-conserving share" ++
  check (negb (HardMemoryExcludesEmergencySwap g)) "guardrails.hard_memory_excludes_emergency_swap" "must be true" ++
  check (EmergencySwapSchedulable g) "guardrails.emergency_swap_schedulable" "must be false" ++
  check (AllowMemoryBallooning g) "guardrails.allow_memory_ballooning" "must remain false until benchmark approval".

Definition floors (mode : string) : Z * Z := if bool_decide (mode = "dedicated") then (2, 768) else (4, 16 * 1024).

Definition validateReserve (r : HostReserve) : list Issue :=
  let '(cpuFloor, memoryFloor) := floors (Reserve_Mode r) in
  let host := " for a " +:+ Reserve_Mode r +:+ " host" in
  check (negb (oneOf (Reserve_Mode r) ["retained-workloads"; "dedicated"])) "host_reserve.mode" "must be retained-workloads or dedicated" ++
  check (Reserve_CPUUnits r <? cpuFloor) "host_reserve.minimum_cpu_units" ("must be at least " +:+ pretty cpuFloor +:+ host) ++
  check (Reserve_MemoryMiB r <? memoryFloor) "host_reserve.minimum_memory_mib" ("must be at least " +:+ pretty memoryFloor +:+ host) ++
  check ((Reserve_Percent r <? 5) || (50 <? Reserve_Percent r)) "host_reserve.minimum_percent" "must be between 5 and 50" ++
  check ((Reserve_MaximumFleetCPUPercent r <? 80) || (98 <? Reserve_MaximumFleetCPUPercent r))
    "host_reserve.maximum_fleet_cpu_percent" "must be between 80 and 98 so the hard host-wide CPU ceiling leaves operating-system headroom" ++
  check ((Reserve_CPUAllowanceOvercommit r <? 0) || (4 <? Reserve_CPUAllowanceOvercommit r))
    "host_reserve.cpu_allowance_overcommit"
    "must be between 1 and 4, or absent for no overcommit, because the allowance is a work-conserving share and not a reservation" ++
  check ((Reserve_FreeDiskPercent r <? 20) || (80 <? Reserve_FreeDiskPercent r))
    "host_reserve.minimum_free_disk_percent" "must be between 20 and 80".

Definition validateCache (c : Cache) : list Issue :=
  let store := Cache_ObjectStore c in
  requireEqual "cache.object_store.implementation" (Store_Implementation store) "rustfs" ++
  validateEnv "cache.object_store.endpoint_env" (EndpointEnv store) ++
  validateEnv "cache.object_store.access_key_env" (AccessKeyEnv store) ++
  validateEnv "cache.object_store.secret_key_env" (SecretKeyEnv store) ++
  check (negb (bucketPattern (Bucket store))) "cache.object_store.bucket" "must be a valid S3 bucket name" ++
  check (negb (bool_decide (NamespaceTemplate c = Template))) "cache.namespace_template" ("must be " +:+ Template) ++
  check (negb (bool_decide (UntrustedWriteScope c = "isolated"))) "cache.untrusted_write_scope" "must be isolated" ++
  check (negb (bool_decide (ReleaseWriteScope c = "none"))) "cache.release_write_scope" "must be none".

(** The largest requests must fit the project, and the hard ceilings lie between
    the scheduling capacity and the envelope of all instances. *)
Definition validateCeilings (i : Incus) (pools : list Pool) : list Issue :=
  let cpu := max_over (λ p, VCPU (Pool_Resources p)) pools in
  let memory := max_over (λ p, Resources_MemoryMiB (Pool_Resources p)) pools in
  let disk := max_over (λ p, DiskGiB (Pool_Resources p)) pools in
  check (ProjectMaxCPUUnits i <? cpu) "incus.project_max_cpu_units" "must fit the largest pool CPU request" ++
  check (ProjectMaxMemoryMiB i <? memory) "incus.project_max_memory_mib" "must fit the largest pool memory request" ++
  check (ProjectDiskLimitGiB i <? disk) "incus.project_disk_limit_gib" "must fit the largest pool disk request" ++
  check (negb (ProjectHardMemoryLimitMiB i =? 0)
         && ((ProjectHardMemoryLimitMiB i <? ProjectMaxMemoryMiB i) || (ProjectMaxInstances i ⊗ memory <? ProjectHardMemoryLimitMiB i)))
    "incus.project_hard_memory_limit_mib" "must be between scheduling capacity and the absolute per-member instance envelope" ++
  check (negb (ProjectHardDiskLimitGiB i =? 0)
         && ((ProjectHardDiskLimitGiB i <? ProjectDiskLimitGiB i) || (ProjectMaxInstances i ⊗ disk <? ProjectHardDiskLimitGiB i)))
    "incus.project_hard_disk_limit_gib" "must be between scheduling capacity and the absolute per-member instance envelope".

Definition issues (c : Config) : list Issue :=
  check (negb (Config_SchemaVersion c =? 2)) "schema_version" "must be 2" ++
  validateName "platform.name" (Platform_Name (Config_Platform c)) ++
  validateName "platform.host" (Platform_Host (Config_Platform c)) ++
  validateControlPlane (Config_ControlPlane c) ++
  validateIncus (Config_Incus c) ++
  validateGuardrails (Config_Guardrails c) ++
  validateReserve (Config_HostReserve c) ++
  match Policy_Validate (Pressure c) with Ok _ => [] | Err e => check true "pressure_admission" (error_text e) end ++
  validateCache (Config_Cache c) ++
  check (length (Backends c) =? 0)%nat "backends" "must contain at least one execution backend" ++
  visit (visit_backend (Platform_Host (Config_Platform c))) [] (Backends c) ++
  check (length (Pools c) =? 0)%nat "pools" "must contain at least one pool" ++
  visit (visit_pool (Backends c)) [] (Pools c) ++
  validateCeilings (Config_Incus c) (Pools c).

Definition issue_before (left right : Issue) : bool :=
  if bool_decide (Path left = Path right) then string_ltb (Message left) (Message right) else string_ltb (Path left) (Path right).

(** [Ok] for [nil], and the sorted issues of the [ValidationError] otherwise. *)
Definition Validate (c : Config) : option (list Issue) :=
  match issues c with [] => None | xs => Some (sort_slice issue_before xs) end.

(** ** Host capacity (hostcapacity/capacity.go) *)

Record Limit := { Limit_Pool : string; Workers : Z; Binding : string }.

Definition BindingInstances : string := "incus.project_max_instances".
Definition BindingCPU : string := "incus.project_max_cpu_units".
Definition BindingMemory : string := "incus.project_max_memory_mib".

(** A tighter cap replaces the limit. *)
Definition tighten (workers : Z) (binding : string) (l : Limit) : Limit :=
  if workers <? Workers l then {| Limit_Pool := Limit_Pool l; Workers := workers; Binding := binding |} else l.

Definition ForPool (c : Config) (pool : string) : result Limit :=
  match find_pool c pool with
  | None => Err (Errorf "host declares no pool %q" [pool])
  | Some declared =>
      let res := Pool_Resources declared in
      fail_if ((VCPU res <=? 0) || (Resources_MemoryMiB res <=? 0)) (Errorf "pool %q declares no resources to divide the host caps by" [pool]);;
      let limit := {| Limit_Pool := pool; Workers := ProjectMaxInstances (Config_Incus c); Binding := BindingInstances |} in
      let limit := tighten (ProjectMaxCPUUnits (Config_Incus c) ⊘ VCPU res) BindingCPU limit in
      let limit := tighten (ProjectMaxMemoryMiB (Config_Incus c) ⊘ Resources_MemoryMiB res) BindingMemory limit in
      Ok {| Limit_Pool := Limit_Pool limit; Workers := Z.max 0 (Workers limit); Binding := Binding limit |}
  end.

Definition ForHost (c : Config) : result (list Limit) :=
  foldM (λ limits p, limit ← ForPool c (Pool_Name p); Ok (limits ++ [limit])) (Pools c) [].
