(* ===== verification/FleetConfigFacts.v ===== *)
(** * Facts about validated platform configurations

    What a configuration without issues guarantees: pools that keep to their
    trust class, egress destinations outside every reserved range, and a
    capacity that every pool can use. *)

From S2P Require Import Prelude Tenant PressureGate ProviderRetry NetIP FleetConfig.

Local Open Scope Z_scope.
Local Open Scope go_scope.

(** ** Reading an empty list of issues *)

Lemma check_nil bad path message : check bad path message = [] ↔ bad = false.
Proof. unfold check. by destruct bad. Qed.

Lemma visit_nil {A B} (f : list A → A → list B) seen xs :
  visit f seen xs = [] ↔ ∀ before x after, xs = before ++ x :: after → f (seen ++ before) x = [].
Proof.
  revert seen. induction xs as [|y xs IH]; intros seen; simpl.
  { split; [|done]. intros _ [|] x after H; discriminate. }
  rewrite app_nil, IH. split.
  - intros [Hy Hxs] [|z before] x after H; injection H as -> ->; [by rewrite app_nil_r|].
    specialize (Hxs before x after eq_refl). by rewrite <-app_assoc in Hxs.
  - intros H. split; [specialize (H [] y xs eq_refl); by rewrite app_nil_r in H|].
    intros before x after ->. rewrite <-app_assoc. by apply (H (y :: before) x after).
Qed.

Lemma Validate_None c : Validate c = None ↔ issues c = [].
Proof. unfold Validate. by destruct (issues c). Qed.

Ltac no_issues H :=
  repeat match type of H with
  | _ ++ _ = [] => let H' := fresh "Hcheck" in apply app_nil in H as [H' H]
  end.

Record validated (c : Config) : Prop := {
  validated_incus : validateIncus (Config_Incus c) = [];
  validated_reserve : validateReserve (Config_HostReserve c) = [];
  validated_pressure : Policy_Validate (Pressure c) = Ok tt;
  validated_pools_exist : Pools c ≠ [];
  validated_pools : ∀ before p after, Pools c = before ++ p :: after → visit_pool (Backends c) before p = [];
  validated_ceilings : validateCeilings (Config_Incus c) (Pools c) = [];
}.

Lemma Validate_validated c : Validate c = None → validated c.
Proof.
  intros H%Validate_None. unfold issues in H. no_issues H. split; try done.
  - by destruct (Policy_Validate (Pressure c)) as [[]|].
  - by destruct (Pools c).
  - by apply (visit_nil _ []).
Qed.

Lemma visit_pool_nil backends before p :
  visit_pool backends before p = [] →
  validatePool (indexed "pools" (length before)) p = [] ∧ (Pool_Name p ∉ Pool_Name <$> before) ∧ (scale_set_key p ∉ scale_set_key <$> before).
Proof.
  unfold visit_pool. intros H. no_issues H. rewrite !check_nil in *.
  rewrite !bool_decide_eq_false in *. done.
Qed.

(** The declared pools have different names, so a pool is found by its name. *)
Lemma find_pool_of c p : validated c → p ∈ Pools c → find_pool c (Pool_Name p) = Some p.
Proof.
  intros Hv Hp. apply list_elem_of_split in Hp as (before & after & Heq).
  destruct (visit_pool_nil _ _ _ (validated_pools c Hv _ _ _ Heq)) as (_ & Hnew & _).
  unfold find_pool. rewrite Heq. clear Heq. induction before as [|q before IH]; simpl.
  - by rewrite bool_decide_eq_true_2.
  - rewrite fmap_cons, not_elem_of_cons in Hnew. destruct Hnew as [Hne Hnew].
    rewrite bool_decide_eq_false_2 by done. by apply IH.
Qed.

Lemma validated_pool c p : validated c → p ∈ Pools c → ∃ pre, validatePool pre p = [].
Proof.
  intros Hv (before & after & Heq)%list_elem_of_split. exists (indexed "pools" (length before)).
  by apply (visit_pool_nil _ _ _ (validated_pools c Hv _ _ _ Heq)).
Qed.

(** ** Pools *)

Record pool_valid (p : Pool) : Prop := {
  pool_name : namePattern (Pool_Name p) = true;
  pool_scale_set : namePattern (Pool_ScaleSetName p) = true ∧ HasPrefix (Pool_ScaleSetName p) "nddev-" = true;
  pool_tenant : Pool_Tenant p = "" ∨ is_Ok (ByID (Pool_Tenant p)) = true;
  pool_cpu : 1 ≤ VCPU (Pool_Resources p);
  pool_memory : 1024 ≤ Resources_MemoryMiB (Pool_Resources p) ∧ Resources_MemoryMiB (Pool_Resources p) `rem` 256 = 0;
  pool_reserved_cpu : 1 ≤ Reservation_CPUUnits (EffectiveReservation p) ≤ VCPU (Pool_Resources p);
  pool_reserved_memory : 256 ≤ Reservation_MemoryMiB (EffectiveReservation p) ≤ Resources_MemoryMiB (Pool_Resources p)
    ∧ Reservation_MemoryMiB (EffectiveReservation p) `rem` 256 = 0;
  pool_warm : 0 ≤ TargetReady (Warm p) ≤ MaxReady (Warm p) ∧ MaxReady (Warm p) ≤ MaxRunning p;
  pool_untrusted : Trust p = "untrusted" →
    Credentials (Pool_Capabilities p) = "none" ∧ CacheWriteScope (Pool_Capabilities p) ≠ "trusted"
    ∧ NetworkPolicy (Pool_Capabilities p) = "public-internet";
  pool_release : Trust p = "release" →
    Credentials (Pool_Capabilities p) = "oidc-only" ∧ CacheWriteScope (Pool_Capabilities p) = "none"
    ∧ MaxReady (Warm p) = 0;
  pool_trust : Trust p = "trusted" ∨ Trust p = "untrusted" ∨ Trust p = "release";
  pool_egress : ∃ pre, validateEgressAllowlist pre p = [];
}.

Lemma validatePool_nil pre p : validatePool pre p = [] → pool_valid p.
Proof.
  unfold validatePool. intros H. no_issues H. unfold validateName in *. rewrite !check_nil in *.
  repeat match goal with
  | H : _ || _ = false |- _ => apply orb_false_iff in H as [? ?]
  | H : negb _ = false |- _ => apply negb_false_iff in H
  | H : (_ <? _) = false |- _ => apply Z.ltb_ge in H
  | H : (_ =? _) = true |- _ => apply Z.eqb_eq in H
  | H : oneOf _ _ = true |- _ => apply bool_decide_eq_true in H
  end.
  split; try done.
  - destruct (decide (Pool_Tenant p = "")) as [|Hne]; [by left|right].
    rewrite bool_decide_eq_false_2, check_nil in Hcheck2 by done. by apply negb_false_iff.
  - intros Htrust. rewrite bool_decide_eq_true_2 in Hcheck16 by done.
    apply app_nil in Hcheck16 as [Hcred [Hscope Hnet]%app_nil]. rewrite check_nil in Hcred, Hscope, Hnet. bool_hyps.
    split_and!; try done. intros Heq. rewrite Heq in Hscope. by vm_compute in Hscope.
  - intros Htrust. rewrite bool_decide_eq_true_2 in Hcheck17 by done.
    apply app_nil in Hcheck17 as [Hcred [Hscope [Hnet Hwarm]%app_nil]%app_nil].
    rewrite check_nil in Hcred, Hscope, Hnet, Hwarm. bool_hyps. split_and!; try done. by apply Z.eqb_eq.
  - match goal with H : Trust p ∈ _ |- _ => rewrite !elem_of_cons in H; destruct_or! H; [by left|by right; left|by right; right|by apply not_elem_of_nil in H] end.
  - by exists pre.
Qed.

(** ** Egress *)

Lemma not_blocked v reserved base bits text :
  List.find (blocks v) reserved = None → In (text, {| Prefix_Addr := IPv4 base; Prefix_Bits := bits |}) reserved → bits ≤ 32 →
  within4 base bits v = false.
Proof.
  intros Hfind Hin Hbits. apply (find_none _ _ Hfind) in Hin. unfold blocks, overlaps4 in Hin. simpl in Hin.
  by rewrite Z.min_l in Hin.
Qed.

(** An address that no reserved range blocks is a public unicast address. *)
Lemma unblocked_public v reserved :
  reserved_prefixes = Some reserved → List.find (blocks v) reserved = None → IsGlobalUnicast4 v = true ∧ IsPrivate4 v = false.
Proof.
  intros Hr Hfind. vm_compute in Hr. injection Hr as <-.
  assert (within4 (ip4 0 0 0 0) 8 v = false) as H0 by (apply (not_blocked _ _ _ _ "0.0.0.0/8" Hfind); [vm_compute; tauto|lia]).
  assert (within4 (ip4 240 0 0 0) 4 v = false) as H240 by (apply (not_blocked _ _ _ _ "240.0.0.0/4" Hfind); [vm_compute; tauto|lia]).
  unfold IsGlobalUnicast4, IsPrivate4. rewrite negb_true_iff, !orb_false_iff. split_and!.
  - apply Z.eqb_neq. by intros ->.
  - apply Z.eqb_neq. by intros ->.
  - apply (not_blocked _ _ _ _ "127.0.0.0/8" Hfind); [vm_compute; tauto|lia].
  - apply (not_blocked _ _ _ _ "224.0.0.0/4" Hfind); [vm_compute; tauto|lia].
  - apply (not_blocked _ _ _ _ "169.254.0.0/16" Hfind); [vm_compute; tauto|lia].
  - apply (not_blocked _ _ _ _ "10.0.0.0/8" Hfind); [vm_compute; tauto|lia].
  - apply (not_blocked _ _ _ _ "172.16.0.0/12" Hfind); [vm_compute; tauto|lia].
  - apply (not_blocked _ _ _ _ "192.168.0.0/16" Hfind); [vm_compute; tauto|lia].
Qed.

(** The ranges that are not part of the public internet, by their first and last
    addresses: this network, private, carrier-grade NAT, loopback, link-local,
    private, private, benchmarking, multicast and reserved. *)
Definition special_ranges : list (Z * Z) := [
  (ip4 0 0 0 0, ip4 0 255 255 255);
  (ip4 10 0 0 0, ip4 10 255 255 255);
  (ip4 100 64 0 0, ip4 100 127 255 255);
  (ip4 127 0 0 0, ip4 127 255 255 255);
  (ip4 169 254 0 0, ip4 169 254 255 255);
  (ip4 172 16 0 0, ip4 172 31 255 255);
  (ip4 192 168 0 0, ip4 192 168 255 255);
  (ip4 198 18 0 0, ip4 198 19 255 255);
  (ip4 224 0 0 0, ip4 239 255 255 255);
  (ip4 240 0 0 0, ip4 255 255 255 255)].

Definition outside (v : Z) (range : Z * Z) : Prop := v < range.1 ∨ range.2 < v.

Lemma not_within v base bits : 0 ≤ bits ≤ 32 → base `mod` 2 ^ (32 - bits) = 0 → within4 base bits v = false → outside v (base, base + 2 ^ (32 - bits) - 1).
Proof.
  unfold within4, outside. cbn [fst snd]. intros Hb Hbase Hw. apply Z.eqb_neq in Hw.
  pose proof (Z.pow_pos_nonneg 2 (32 - bits) ltac:(lia) ltac:(lia)) as Hpos. pose proof (Z.div_mod base (2 ^ (32 - bits)) ltac:(lia)) as Hd.
  destruct (Z.lt_ge_cases v base); [by left|]. right. destruct (Z.lt_ge_cases (base + 2 ^ (32 - bits) - 1) v); [done|]. exfalso. apply Hw.
  symmetry. apply (Z.div_unique_pos _ _ _ (v - base)); lia.
Qed.

Lemma not_blocked_outside v reserved base bits text :
  List.find (blocks v) reserved = None → In (text, {| Prefix_Addr := IPv4 base; Prefix_Bits := bits |}) reserved →
  0 ≤ bits ≤ 32 → base `mod` 2 ^ (32 - bits) = 0 → outside v (base, base + 2 ^ (32 - bits) - 1).
Proof. intros Hfind Hin Hb Hbase. apply not_within; [done..|]. eapply not_blocked; [exact Hfind|exact Hin|lia]. Qed.

Ltac by_entry Hfind base bits text :=
  apply (not_blocked_outside _ _ base bits text Hfind); [vm_compute; tauto|lia|done].

(** An address that no reserved range blocks is in none of the special ranges. *)
Lemma unblocked_outside v reserved :
  reserved_prefixes = Some reserved → List.find (blocks v) reserved = None → Forall (outside v) special_ranges.
Proof.
  intros Hr Hfind. vm_compute in Hr. injection Hr as <-.
  repeat apply Forall_cons_2; [..|by apply Forall_nil_2].
  - by_entry Hfind (ip4 0 0 0 0) 8 "0.0.0.0/8".
  - by_entry Hfind (ip4 10 0 0 0) 8 "10.0.0.0/8".
  - by_entry Hfind (ip4 100 64 0 0) 10 "100.64.0.0/10".
  - by_entry Hfind (ip4 127 0 0 0) 8 "127.0.0.0/8".
  - by_entry Hfind (ip4 169 254 0 0) 16 "169.254.0.0/16".
  - by_entry Hfind (ip4 172 16 0 0) 12 "172.16.0.0/12".
  - by_entry Hfind (ip4 192 168 0 0) 16 "192.168.0.0/16".
  - by_entry Hfind (ip4 198 18 0 0) 15 "198.18.0.0/15".
  - by_entry Hfind (ip4 224 0 0 0) 4 "224.0.0.0/4".
  - by_entry Hfind (ip4 240 0 0 0) 4 "240.0.0.0/4".
Qed.

(** One public address with a purpose and exact ports. *)
Definition destination_ok (d : EgressDestination) (v : Z) : Prop :=
  ParsePrefix (Destination d) = Some {| Prefix_Addr := IPv4 v; Prefix_Bits := 32 |} ∧
  IsGlobalUnicast4 v = true ∧ IsPrivate4 v = false ∧ Forall (outside v) special_ranges ∧ Protocol d = "tcp" ∧ blank (Purpose d) = false ∧
  Forall (λ port, ∃ n, 1 ≤ n ≤ 65535 ∧ port = pretty n) (split_byte "," (Ports d)).

Lemma exact_port_spec port : exact_port port = true → ∃ n, 1 ≤ n ≤ 65535 ∧ port = pretty n.
Proof.
  unfold exact_port. destruct (parse_digits port 0) as [n|]; [|done]. intros H. bool_hyps. exists n. split; [lia|done].
Qed.

Lemma validateEgressDestination_nil reserved entry d seen seen' :
  reserved_prefixes = Some reserved → validateEgressDestination reserved entry d seen = ([], seen') →
  ∃ v, destination_ok d v ∧ (v ∉ seen) ∧ seen' = v :: seen.
Proof.
  intros Hr. unfold validateEgressDestination.
  destruct (ParsePrefix (Destination d)) as [[[v|v z] bits]|] eqn:Hp;
    [|intros H; injection H as H _; by apply app_nil in H as [_ ?]..].
  destruct (negb (bits =? 32)) eqn:Hb; [intros H; injection H as H _; by apply app_nil in H as [_ ?]|].
  destruct (negb (masked4 _ _ =? _)); [intros H; injection H as H _; by apply app_nil in H as [_ ?]|].
  destruct (List.find (blocks v) reserved) eqn:Hf; [intros H; injection H as H _; by apply app_nil in H as [_ ?]|].
  case_bool_decide as Hseen; [intros H; injection H as H _; by apply app_nil in H as [_ ?]|].
  intros H. injection H as H <-. apply app_nil in H as [H Hports]. apply app_nil in H as [Hpurpose Hproto].
  rewrite check_nil in Hpurpose, Hproto. bool_hyps. apply Z.eqb_eq in Hb as ->.
  exists v. split; [|done]. destruct (unblocked_public v reserved Hr Hf) as [Hg Hpriv].
  pose proof (unblocked_outside v reserved Hr Hf) as Hout.
  split_and!; try done. unfold validateEgressPorts in Hports. case_bool_decide; [done|].
  rewrite check_nil, negb_false_iff, forallb_forall in Hports.
  apply Forall_forall. intros port Hport%list_elem_of_In. by apply exact_port_spec, Hports.
Qed.

Lemma validateDestinations_nil reserved field ds index seen :
  reserved_prefixes = Some reserved → validateDestinations reserved field index ds seen = [] →
  ∃ vs, Forall2 destination_ok ds vs ∧ NoDup vs ∧ ∀ v, v ∈ vs → v ∉ seen.
Proof.
  intros Hr. revert index seen. induction ds as [|d ds IH]; intros index seen; simpl.
  { intros _. exists []. split_and!; [by constructor..|]. intros v Hv. by apply not_elem_of_nil in Hv. }
  destruct (validateEgressDestination _ _ d seen) as [out seen'] eqn:Hd. intros [-> Hds]%app_nil.
  apply validateEgressDestination_nil in Hd as (v & Hok & Hnew & ->); [|done].
  apply IH in Hds as (vs & Hvs & Hnd & Hdisj). exists (v :: vs). split_and!.
  - by constructor.
  - constructor; [|done]. intros Hv. apply (Hdisj v Hv). apply elem_of_cons. by left.
  - intros w [->|Hw]%elem_of_cons; [done|]. intros Hs. apply (Hdisj w Hw). apply elem_of_cons. by right.
Qed.

Lemma declared_destinations (c : Config) (p : Pool) :
  Validate c = None → p ∈ Pools c →
  let ds := EgressAllowlist (Pool_Capabilities p) in
  (∃ vs, Forall2 destination_ok ds vs ∧ NoDup vs) ∧
  (ds ≠ [] → NetworkPolicy (Pool_Capabilities p) = "release-allowlist" ∧ (Trust p = "trusted" ∨ Trust p = "release")).
Proof.
  intros Hv Hp. apply Validate_validated in Hv. destruct (validated_pool c p Hv Hp) as [pre Hpool].
  apply validatePool_nil in Hpool. destruct (pool_egress p Hpool) as [pre' He]. unfold validateEgressAllowlist in He.
  set (ds := EgressAllowlist (Pool_Capabilities p)) in *.
  destruct (bool_decide (NetworkPolicy (Pool_Capabilities p) = "release-allowlist")) eqn:Hn; cbn [negb] in He.
  - apply bool_decide_eq_true in Hn. split.
    + destruct (length ds =? 0)%nat eqn:Hlen.
      { apply Nat.eqb_eq, length_zero_iff_nil in Hlen as ->. exists []. by split; constructor. }
      destruct reserved_prefixes as [reserved|] eqn:Hr; [|done].
      destruct (validateDestinations_nil reserved _ _ _ _ Hr He) as (vs & ? & ? & _). by exists vs.
    + intros _. split; [done|]. destruct (pool_trust p Hpool) as [?|[Ht|?]]; [by left| |by right].
      apply pool_untrusted in Ht as (_ & _ & Hnet); [|done]. by rewrite Hnet in Hn.
  - rewrite check_nil, negb_false_iff, Nat.eqb_eq in He. apply length_zero_iff_nil in He. rewrite He.
    split; [|done]. exists []. by split; constructor.
Qed.

(** C19: A configuration without issues opens egress only to reviewed public
    addresses: every destination any pool declares is one global unicast IPv4
    address outside this network, the private, carrier-grade NAT, loopback,
    link-local, benchmarking, multicast and reserved ranges, over TCP, with exact
    ports and a purpose; a pool's destinations are all different, and only pools of
    trust class trusted or release that use the release allowlist declare any. *)
Theorem egress_only_public (c : Config) (p : Pool) :
  Validate c = None → p ∈ Pools c →
  let ds := EgressAllowlist (Pool_Capabilities p) in
  (∃ vs, Forall2 destination_ok ds vs ∧ NoDup vs) ∧
  (ds ≠ [] → NetworkPolicy (Pool_Capabilities p) = "release-allowlist" ∧ (Trust p = "trusted" ∨ Trust p = "release")).
Proof. intros Hv Hp. split; by apply (declared_destinations c p Hv Hp). Qed.

(** ** Capacity *)

Lemma max_over_from (f : Pool → Z) pools m : m ≤ foldl (λ m p, Z.max m (f p)) m pools.
Proof. revert m. induction pools as [|q pools IH]; intros m; simpl; [lia|]. specialize (IH (Z.max m (f q))). lia. Qed.

Lemma max_over_ge (f : Pool → Z) pools p : p ∈ pools → f p ≤ max_over f pools.
Proof.
  unfold max_over. generalize 0. induction pools as [|q pools IH]; intros m; [by intros ?%not_elem_of_nil|].
  intros [->|Hp]%elem_of_cons; simpl; [|by apply IH].
  pose proof (max_over_from f pools (Z.max m (f q))). lia.
Qed.

Record incus_bounds (i : Incus) : Prop := {
  incus_instances : 1 ≤ ProjectMaxInstances i ≤ 8;
  incus_cpu : 1 ≤ ProjectMaxCPUUnits i ≤ 10;
  incus_memory : 4096 ≤ ProjectMaxMemoryMiB i ≤ 15360;
  incus_members : 1 ≤ ClusterMembers i ≤ 8;
}.

Lemma validateIncus_bounds i : validateIncus i = [] → incus_bounds i.
Proof.
  unfold validateIncus. intros H. no_issues H. rewrite check_nil in Hcheck14, Hcheck15, Hcheck16. bool_hyps.
  split; try lia. unfold ClusterMembers. unfold validateCluster in Hcheck2.
  destruct (Enabled (Incus_Cluster i)); simpl in *; [|lia]. no_issues Hcheck2. rewrite check_nil in Hcheck2. bool_hyps.
  destruct (0 <? Members _); lia.
Qed.

(** Each pool's request fits the caps of one member. *)
Lemma validated_fits c p : validated c → p ∈ Pools c →
  1 ≤ VCPU (Pool_Resources p) ≤ ProjectMaxCPUUnits (Config_Incus c) ∧
  1024 ≤ Resources_MemoryMiB (Pool_Resources p) ≤ ProjectMaxMemoryMiB (Config_Incus c).
Proof.
  intros Hv Hp. destruct (validated_pool c p Hv Hp) as [pre Hpool]. apply validatePool_nil in Hpool.
  pose proof (validated_ceilings c Hv) as Hc. unfold validateCeilings in Hc. no_issues Hc. rewrite check_nil in Hcheck, Hcheck0.
  pose proof (max_over_ge (λ p, VCPU (Pool_Resources p)) _ _ Hp). pose proof (max_over_ge (λ p, Resources_MemoryMiB (Pool_Resources p)) _ _ Hp).
  destruct Hpool. cbv beta in *. lia.
Qed.

(** The largest number of workers of [p] that the caps of one member allow. *)
Definition capacity_of (i : Incus) (p : Pool) (l : Limit) : Prop :=
  Limit_Pool l = Pool_Name p ∧ 1 ≤ Workers l ≤ ProjectMaxInstances i ∧
  Workers l * VCPU (Pool_Resources p) ≤ ProjectMaxCPUUnits i ∧
  Workers l * Resources_MemoryMiB (Pool_Resources p) ≤ ProjectMaxMemoryMiB i ∧
  (Binding l = BindingInstances ∧ Workers l = ProjectMaxInstances i ∨
   Binding l = BindingCPU ∧ ProjectMaxCPUUnits i < (Workers l + 1) * VCPU (Pool_Resources p) ∨
   Binding l = BindingMemory ∧ ProjectMaxMemoryMiB i < (Workers l + 1) * Resources_MemoryMiB (Pool_Resources p)).

Lemma int_div_exact a b : 0 ≤ a ≤ 2 ^ 32 → 1 ≤ b → a ⊘ b = a / b.
Proof.
  intros Ha Hb. unfold int_div. rewrite Z.quot_div_nonneg by lia. apply wrap64_small.
  unfold in_int64, min_int64, max_int64. pose proof (Z.div_pos a b). pose proof (Z.div_le_upper_bound a b a). nia.
Qed.

Lemma ForPool_capacity c p : validated c → p ∈ Pools c →
  ∃ l, ForPool c (Pool_Name p) = Ok l ∧ capacity_of (Config_Incus c) p l.
Proof.
  intros Hv Hp. unfold ForPool. rewrite (find_pool_of c p) by done.
  destruct (validateIncus_bounds _ (validated_incus c Hv)). destruct (validated_fits c p Hv Hp) as [Hcpu Hmem].
  unfold fail_if. replace ((VCPU _ <=? 0) || _) with false by lia. cbn [mbind result_bind].
  rewrite !int_div_exact by lia. eexists; split; [done|]. unfold capacity_of, tighten. cbn [Workers].
  set (i := Config_Incus c) in *. set (vcpu := VCPU (Pool_Resources p)) in *. set (mem := Resources_MemoryMiB (Pool_Resources p)) in *.
  pose proof (Z.div_mod (ProjectMaxCPUUnits i) vcpu). pose proof (Z.mod_pos_bound (ProjectMaxCPUUnits i) vcpu).
  pose proof (Z.div_mod (ProjectMaxMemoryMiB i) mem). pose proof (Z.mod_pos_bound (ProjectMaxMemoryMiB i) mem).
  set (byCPU := ProjectMaxCPUUnits i / vcpu) in *. set (byMemory := ProjectMaxMemoryMiB i / mem) in *.
  destruct (byCPU <? ProjectMaxInstances i) eqn:Hc1; cbn [Workers Limit_Pool Binding];
    [destruct (byMemory <? byCPU) eqn:Hc2|destruct (byMemory <? ProjectMaxInstances i) eqn:Hc2];
    cbn [Workers Limit_Pool Binding]; rewrite Z.max_r by nia; split_and!; try done; try nia.
  all: first [left; split; [done|nia]|right; left; split; [done|nia]|right; right; split; [done|nia]].
Qed.

(** C20: Every pool of a configuration without issues can run: deriving the host
    capacity succeeds, and gives each pool the largest number of workers that the
    instance, CPU and memory caps of one member allow, at least one, with the cap
    that one worker more would exceed. *)
Theorem validated_capacity (c : Config) :
  Validate c = None → ∃ limits, ForHost c = Ok limits ∧ Forall2 (capacity_of (Config_Incus c)) (Pools c) limits.
Proof.
  intros Hv. apply Validate_validated in Hv. unfold ForHost.
  assert (∀ ps acc, (∀ p, p ∈ ps → p ∈ Pools c) →
    ∃ limits, foldM (λ limits p, limit ← ForPool c (Pool_Name p); Ok (limits ++ [limit])) ps acc = Ok (acc ++ limits)
      ∧ Forall2 (capacity_of (Config_Incus c)) ps limits) as H.
  { intros ps. induction ps as [|p ps IH]; intros acc Hin; simpl.
    { exists []. rewrite app_nil_r. by split; constructor. }
    destruct (ForPool_capacity c p Hv) as (l & Hl & Hcap); [by apply Hin, list_elem_of_here|]. rewrite Hl. simpl.
    destruct (IH (acc ++ [l])) as (limits & Hf & Hall); [by intros q ?; apply Hin, list_elem_of_further|].
    exists (l :: limits). rewrite Hf, <-app_assoc. by split; [|constructor]. }
  by apply (H (Pools c) []).
Qed.

(** ** A concrete configuration *)

Definition pressure0 : PressureGate.Policy := {|
  Required := true; StaleAfterSeconds := 60; HeartbeatSeconds := 20; MinimumClosedSeconds := 60;
  CPUSomeClose := f_int 80; CPUSomeReopen := f_int 60; MemoryFullClose := f_int 10; MemoryFullReopen := f_int 5;
  IOFullClose := f_int 40; IOFullReopen := f_int 20; MaximumRecentOOMKills := 0 |}.

Definition incus0 : Incus := {|
  Incus_Version := "v6.0.6"; APIAddress := "127.0.0.1:8443"; Project := "gha-fleet"; StoragePool := "gha-pool"; StorageDriver := "lvm";
  StorageSizeGiB := 160; ProjectDiskLimitGiB := 120; ProjectHardDiskLimitGiB := 0; Network := "ghabr0"; NetworkCIDR := "10.113.0.1/24";
  EgressACL := "gha-egress"; PublicHostAddress := "203.0.113.10"; EstatePublicHostAddresses := ["203.0.113.10"; "203.0.113.11"; "203.0.113.9"];
  ServicesHostAddress := "10.20.0.5"; ProjectMaxInstances := 4; ProjectMaxCPUUnits := 8; ProjectMaxMemoryMiB := 12288;
  ProjectHardMemoryLimitMiB := 0;
  Incus_Cluster := {| Enabled := true; MemberName := "runner-1"; Cluster_APIAddress := "10.20.0.11:8443"; Members := 2 |};
  RegistryPort := 5000; RustFSPort := 9000; CacheGatewayPort := 9100; GARMGatewayPort := 9200 |}.

Definition caps (credentials network scope : string) (allowlist : list EgressDestination) : Capabilities := {|
  Docker := false; Browser := false; Credentials := credentials; NetworkPolicy := network; CacheWriteScope := scope; EgressAllowlist := allowlist |}.

Definition pool0 (name trust : string) (vcpu memory : Z) (warm : Z) (capabilities : Capabilities) : Pool := {|
  Pool_Name := name; Pool_Backend := "containers"; Pool_Tenant := ""; Pool_ScaleSetName := "nddev-" +:+ name; Trust := trust;
  Pool_Resources := {| VCPU := vcpu; Resources_MemoryMiB := memory; DiskGiB := 20 |};
  Pool_Reservation := {| Reservation_CPUUnits := 1; Reservation_MemoryMiB := 512 |}; MaxRunning := 3;
  Warm := {| TargetReady := warm; MaxReady := warm |}; Pool_Capabilities := capabilities |}.

Definition release_target : EgressDestination :=
  {| Destination := "140.82.112.3/32"; Protocol := "tcp"; Ports := "443,22"; Purpose := "publish releases" |}.

Definition release_pool : Pool := pool0 "release" "release" 2 4096 0 (caps "oidc-only" "release-allowlist" "none" [release_target]).
Definition standard_pool : Pool := pool0 "standard" "trusted" 3 4096 1 (caps "repository" "public-internet" "trusted" []).
Definition untrusted_pool : Pool := pool0 "untrusted" "untrusted" 1 4096 0 (caps "none" "public-internet" "isolated" []).

Definition config0 : Config := {|
  Config_SchemaVersion := 2; Config_Platform := {| Platform_Name := "fleet"; Platform_Host := "runner-1" |};
  Config_ControlPlane := {| Manager := "garm"; ManagerVersion := "v0.1.5"; SchedulingMode := "scale-set"; Provider := "incus";
    ProviderVersion := "v0.1.5-nddev.30"; ProviderInterface := "v0.1.0"; WorkerKind := "incus-container"; Runner := "actions/runner";
    RunnerVersion := "v2.320.0"; RunnerUpdatePolicy := "image-canary" |};
  Config_Incus := incus0;
  Config_Guardrails := {| RequireEphemeral := true; JobsPerWorker := 1; WarmInstancesUnregistered := true; DenyHostDockerSocket := true;
    DenyNestedVirtualization := true; DenyPrivateNetworkByDefault := true; CPUSchedulingMode := "weighted-overcommit";
    HardMemoryExcludesEmergencySwap := true; EmergencySwapSchedulable := false; AllowMemoryBallooning := false |};
  Config_HostReserve := {| Reserve_Mode := "dedicated"; Reserve_CPUUnits := 2; Reserve_MemoryMiB := 1024; Reserve_Percent := 5;
    Reserve_MaximumFleetCPUPercent := 95; Reserve_CPUAllowanceOvercommit := 2; Reserve_FreeDiskPercent := 20 |};
  Pressure := pressure0;
  Config_Cache := {| Cache_ObjectStore := {| Store_Implementation := "rustfs"; EndpointEnv := "CACHE_ENDPOINT"; AccessKeyEnv := "CACHE_KEY";
      SecretKeyEnv := "CACHE_SECRET"; Bucket := "gha-cache" |};
    NamespaceTemplate := "{organization}/{repository}/trust/{trust}/{platform}/{architecture}/{toolchain}/{lock_digest}/{ref_class}";
    UntrustedWriteScope := "isolated"; ReleaseWriteScope := "none" |};
  Backends := [{| Backend_Name := "containers"; Backend_Platform := "linux"; Architecture := "amd64"; Implementation := "incus-container";
    FailureDomain := "runner-1"; Backend_Capabilities := {| Backend_Docker := true; Backend_Warm := true |} |}];
  Pools := [standard_pool; untrusted_pool; release_pool] |}.

Example config0_valid : Validate config0 = None.
Proof. vm_compute. reflexivity. Qed.

(** Issues are reported sorted, whatever the order they were found in. *)
Example config0_broken :
  (λ xs : list Issue, Path <$> xs) <$> Validate {| Config_SchemaVersion := 3; Config_Platform := Config_Platform config0; Config_ControlPlane := Config_ControlPlane config0;
    Config_Incus := incus0; Config_Guardrails := Config_Guardrails config0; Config_HostReserve := Config_HostReserve config0;
    Pressure := pressure0; Config_Cache := Config_Cache config0; Backends := Backends config0; Pools := [standard_pool; standard_pool] |} =
  Some ["pools[1].name"; "pools[1].scale_set_name"; "schema_version"].
Proof. vm_compute. reflexivity. Qed.

Lemma egress_only_public_witness :
  let ds := EgressAllowlist (Pool_Capabilities release_pool) in
  (∃ vs, Forall2 destination_ok ds vs ∧ NoDup vs) ∧
  (ds ≠ [] → NetworkPolicy (Pool_Capabilities release_pool) = "release-allowlist" ∧ (Trust release_pool = "trusted" ∨ Trust release_pool = "release")).
Proof.
  apply (egress_only_public config0 release_pool); [vm_compute; reflexivity|].
  apply list_elem_of_further, list_elem_of_further, list_elem_of_here.
Defined.

Lemma validated_capacity_witness :
  ∃ limits, ForHost config0 = Ok limits ∧ Forall2 (capacity_of (Config_Incus config0)) (Pools config0) limits.
Proof. apply (validated_capacity config0). vm_compute. reflexivity. Defined.

Example capacity0 :
  ForHost config0 = Ok [{| Limit_Pool := "standard"; Workers := 2; Binding := BindingCPU |};
    {| Limit_Pool := "untrusted"; Workers := 3; Binding := BindingMemory |}; {| Limit_Pool := "release"; Workers := 3; Binding := BindingMemory |}].
Proof. vm_compute. reflexivity. Qed.
