(* ===== verification/QueueAdmission.v ===== *)
(** * Checking the queue's configuration
    ([src/internal/queueadmission/config.go])

    The fleet's own reader of the configuration file that GARM's coordinator
    loads: [Validate], and the comparison with the platform configuration. The
    decoded file is the coordinator's record, [QueueIntent.queueAdmissionConfig].
    The theorem composes the three validations. *)

From S2P Require Import Prelude QueueIntent FleetConfig FleetConfigFacts.

Local Open Scope Z_scope.
Local Open Scope go_scope.

#[export] Instance queueScaleSetResources_eq_dec : EqDecision queueScaleSetResources.
Proof. solve_decision. Defined.

Definition scale_set_valid (c : queueAdmissionConfig) (name : string) (r : queueScaleSetResources) : bool :=
  negb (bool_decide (name = "") || (QueueIntent.Resources_CPUUnits r <? 1) || (CPUUnits (Capacity c) <? QueueIntent.Resources_CPUUnits r)
        || (QueueIntent.Resources_MemoryMiB r <? 1) || (MemoryMiB (Capacity c) <? QueueIntent.Resources_MemoryMiB r)
        || (ReservationCPUUnits r <? 1) || (QueueIntent.Resources_CPUUnits r <? ReservationCPUUnits r)
        || (ReservationMemoryMiB r <? 256) || negb (ReservationMemoryMiB r `rem` 256 =? 0)
        || (QueueIntent.Resources_MemoryMiB r <? ReservationMemoryMiB r)
        || (Resources_Priority r <? 0) || (2 <? Resources_Priority r)).

Definition repository_valid (c : queueAdmissionConfig) (repository : string) (p : queueRepositoryPolicy) : bool :=
  negb (bool_decide (repository = "") || (Policy_Weight p <? 1) || (100 <? Policy_Weight p)
        || (Policy_MaxInFlight p <? 1) || (MaxInFlight c <? Policy_MaxInFlight p)).

Definition Validate (c : queueAdmissionConfig) : result unit :=
  fail_if (negb (QueueIntent.Config_SchemaVersion c =? 5) || (MaxInFlight c <? 1) || (64 <? MaxInFlight c)
           || (MaxBackgroundInFlight c <? 1) || (MaxInFlight c <? MaxBackgroundInFlight c)
           || (DefaultRepositoryLimit c <? 1) || (MaxInFlight c <? DefaultRepositoryLimit c)
           || (DefaultWeight c <? 1) || (100 <? DefaultWeight c))
    (Errorf "queue admission identity or count limits are invalid" []);;
  fail_if (negb (QueuedTTLSeconds c =? 600) || negb (AcquiringTTLSeconds c =? 120) || negb (AcquiredTTLSeconds c =? 600)
           || negb (ExecutionTTLSeconds c =? 86400) || negb (PriorityAgingSeconds c =? 300) || negb (MaxRepositorySharePercent c =? 75))
    (Errorf "queue admission TTL/aging policy is invalid" []);;
  match Config_Repositories c with
  | None => Err (Errorf "queue admission resource contract is incomplete" [])
  | Some repositories =>
      fail_if ((CPUUnits (Capacity c) <? 1) || (MemoryMiB (Capacity c) <? 1024) || bool_decide (ScaleSets c = ∅))
        (Errorf "queue admission resource contract is incomplete" []);;
      fail_if (negb (forallb (λ ns, scale_set_valid c ns.1 ns.2) (map_to_list (ScaleSets c))))
        (Errorf "queue admission scale-set resources %q are invalid" []);;
      fail_if (negb (forallb (λ rp, repository_valid c rp.1 rp.2) (map_to_list repositories)))
        (Errorf "queue admission repository policy %q is invalid" [])
  end.

(** What a scale set must declare for a pool, at the priority it declares. *)
Definition wanted (p : Pool) (priority : Z) : queueScaleSetResources := {|
  QueueIntent.Resources_CPUUnits := VCPU (Pool_Resources p);
  QueueIntent.Resources_MemoryMiB := FleetConfig.Resources_MemoryMiB (Pool_Resources p);
  ReservationCPUUnits := Reservation_CPUUnits (EffectiveReservation p);
  ReservationMemoryMiB := Reservation_MemoryMiB (EffectiveReservation p);
  Resources_Priority := priority |}.

Definition match_pool (c : queueAdmissionConfig) (seen : gmap string queueScaleSetResources) (p : Pool)
    : result (gmap string queueScaleSetResources) :=
  match ScaleSets c !! Pool_ScaleSetName p with
  | None => Err (Errorf "queue admission omits scale set %q" [Pool_ScaleSetName p])
  | Some declared =>
      let want := wanted p (Resources_Priority declared) in
      fail_if (negb (bool_decide (declared = want))) (Errorf "queue resources for %q are %#v, want %#v" [Pool_ScaleSetName p]);;
      fail_if (match seen !! Pool_ScaleSetName p with Some previous => negb (bool_decide (previous = want)) | None => false end)
        (Errorf "platform duplicates scale set %q with different resources" [Pool_ScaleSetName p]);;
      Ok (<[Pool_ScaleSetName p := want]> seen)
  end.

Definition ValidateAgainstPlatform (c : queueAdmissionConfig) (platform : Config) : result unit :=
  fail_if (negb (CPUUnits (Capacity c) =? FleetMaxCPUUnits (Config_Incus platform))
           || negb (MemoryMiB (Capacity c) =? FleetMaxMemoryMiB (Config_Incus platform)))
    (Errorf "queue capacity cpu=%d memory_mib=%d differs from platform cpu=%d memory_mib=%d" []);;
  seen ← foldM (match_pool c) (Pools platform) ∅;
  fail_if (negb (forallb (λ ns, bool_decide (is_Some (seen !! ns.1))) (map_to_list (ScaleSets c))))
    (Errorf "queue admission declares unknown scale set %q" []).

(** ** Facts *)

Lemma forallb_map_Ok {V} (f : string → V → bool) (m : gmap string V) :
  forallb (λ kv, f kv.1 kv.2) (map_to_list m) = true ↔ ∀ k v, m !! k = Some v → f k v = true.
Proof.
  rewrite forallb_forall. split.
  - intros H k v Hk. apply (H (k, v)). by apply list_elem_of_In, elem_of_map_to_list.
  - intros H [k v] Hin%list_elem_of_In. apply elem_of_map_to_list in Hin. by apply H.
Qed.

(** The platform's loop: every pool is declared as wanted, and what was seen are
    the scale sets of the pools. *)
Lemma match_pools c pools seen seen' :
  foldM (match_pool c) pools seen = Ok seen' →
  (∀ p, p ∈ pools → ∃ declared, ScaleSets c !! Pool_ScaleSetName p = Some declared ∧ declared = wanted p (Resources_Priority declared)) ∧
  (∀ name, is_Some (seen' !! name) ↔ is_Some (seen !! name) ∨ ∃ p, p ∈ pools ∧ Pool_ScaleSetName p = name).
Proof.
  revert seen. induction pools as [|p pools IH]; intros seen; cbn [foldM].
  { intros <-%Ok_inj. split; [by intros p ?%not_elem_of_nil|]. intros name. split; [by left|].
    intros [?|(p & ?%not_elem_of_nil & _)]; done. }
  intros (seen1 & Hp & Hps)%bind_Ok. destruct (IH _ Hps) as [Hall Hseen]. clear IH Hps.
  unfold match_pool in Hp. destruct (ScaleSets c !! Pool_ScaleSetName p) as [declared|] eqn:Hd; [|done].
  inv_ok. bool_hyps. split.
  - intros q [->|Hq]%elem_of_cons; [|by apply Hall]. by exists declared.
  - intros name. rewrite Hseen, lookup_insert_is_Some'. split.
    + intros [[<-|?]|(q & ? & ?)]; [|by left|]; right; [by exists p; split; [apply list_elem_of_here|]|].
      exists q. by split; [apply list_elem_of_further|].
    + intros [?|(q & [->|?]%elem_of_cons & ?)]; [by left; right|by left; left|right; by exists q].
Qed.

(** ** Names accepted by the platform are names accepted by the coordinator *)

Lemma all_bytes_app f s t : all_bytes f (s +:+ t) = all_bytes f s && all_bytes f t.
Proof. induction s as [|c s IH]; simpl; [done|]. by rewrite IH, andb_assoc. Qed.

Lemma all_bytes_rev_app f s acc : all_bytes f (rev_string_app s acc) = all_bytes f s && all_bytes f acc.
Proof.
  revert acc. induction s as [|c s IH]; intros acc; simpl; [done|]. rewrite IH. simpl.
  by destruct (f c), (all_bytes f s), (all_bytes f acc).
Qed.

Lemma name_byte_not_space c rest :
  name_byte c = true →
  existsb (λ r, String.prefix r (String c rest)) (space_runes ++ wide_space_runes) = false ∧
  existsb (λ r, String.prefix (rev_string r) (String c rest)) (space_runes ++ wide_space_runes) = false.
Proof.
  destruct c as [[] [] [] [] [] [] [] []]; intros H; vm_compute in H; try discriminate H; split; vm_compute; reflexivity.
Qed.

Lemma all_bytes_contains f b s : f b = false → all_bytes f s = true → contains_byte b s = false.
Proof.
  intros Hb. induction s as [|c s IH]; simpl; [done|]. intros [Hc Hs]%andb_true_iff. rewrite IH by done.
  rewrite orb_false_r. apply bool_decide_eq_false. intros ->. by rewrite Hb in Hc.
Qed.

Lemma name_valid_text s : namePattern s = true → validQueueText s = true.
Proof.
  intros H. assert (all_bytes name_byte s = true ∧ s ≠ "" ∧ (String.length s ≤ 63)%nat) as (Hall & Hne & Hlen).
  { destruct s as [|c rest]; [done|]. simpl in H. bool_hyps. simpl. unfold name_byte at 1. rewrite H. simpl.
    split_and!; [done|done|]. match goal with Hl : (_ <=? 62)%nat = true |- _ => apply Nat.leb_le in Hl end. lia. }
  unfold validQueueText. rewrite bool_decide_eq_false_2 by done. simpl.
  replace (String.length s <=? 1024)%nat with true by (symmetry; apply Nat.leb_le; lia). simpl.
  rewrite !(all_bytes_contains name_byte) by done. rewrite andb_true_r.
  assert (all_bytes name_byte (rev_string s) = true) as Hrev by (unfold rev_string; rewrite all_bytes_rev_app, Hall; done).
  unfold trimmed, starts_with_space, ends_with_space. destruct (rev_string s) as [|c' rest'] eqn:Hr.
  { destruct s as [|c rest]; [done|]. exfalso. apply (f_equal String.length) in Hr. revert Hr. clear.
    assert (∀ s acc, String.length (rev_string_app s acc) = (String.length s + String.length acc)%nat) as Hl.
    { intros s. induction s as [|a s IH]; intros acc; simpl; [done|]. rewrite IH. simpl. lia. }
    unfold rev_string. rewrite Hl. simpl. lia. }
  destruct s as [|c rest]; [done|]. simpl in Hall, Hrev. bool_hyps.
  destruct (name_byte_not_space c rest) as [-> _]; [done|]. destruct (name_byte_not_space c' rest') as [_ ->]; done.
Qed.

(** ** Composition *)

Lemma fleet_capacity i : incus_bounds i →
  FleetMaxCPUUnits i = ProjectMaxCPUUnits i * ClusterMembers i ∧ FleetMaxMemoryMiB i = ProjectMaxMemoryMiB i * ClusterMembers i.
Proof.
  intros []. unfold FleetMaxCPUUnits, FleetMaxMemoryMiB, int_mul.
  split; apply wrap64_small; unfold in_int64, min_int64, max_int64; nia.
Qed.

Lemma reservation_wanted p priority : pool_valid p →
  reservation (wanted p priority) =
    {| CPUUnits := Reservation_CPUUnits (EffectiveReservation p); MemoryMiB := Reservation_MemoryMiB (EffectiveReservation p) |}.
Proof.
  intros [_ _ _ _ _ Hcpu [Hmem _]]. unfold reservation. cbn [wanted ReservationCPUUnits ReservationMemoryMiB].
  replace (_ && _) with true by lia. done.
Qed.

(** A scale set that the fleet's check accepts and whose name a pool carries is
    accepted by the coordinator. *)
Lemma scale_set_accepted c p declared : pool_valid p →
  scale_set_valid c (Pool_ScaleSetName p) declared = true → declared = wanted p (Resources_Priority declared) →
  scale_set_ok c (Pool_ScaleSetName p) declared = true.
Proof.
  intros Hp Hv Heq. unfold scale_set_ok. rewrite name_valid_text by apply Hp.
  rewrite Heq, (reservation_wanted p _ Hp), <-Heq. cbn [CPUUnits MemoryMiB negb].
  unfold scale_set_valid in Hv. rewrite negb_true_iff in Hv. rewrite !orb_false_iff in Hv.
  destruct Hv as [[[[[[[[[[[_ ?] ?] ?] ?] ?] ?] ?] ?] ?] ?] ?].
  rewrite negb_true_iff, !orb_false_iff.
  replace (Reservation_CPUUnits (EffectiveReservation p)) with (ReservationCPUUnits declared) by (by rewrite Heq).
  replace (Reservation_MemoryMiB (EffectiveReservation p)) with (ReservationMemoryMiB declared) by (by rewrite Heq).
  by split_and!.
Qed.

(** The coordinator accepts what the fleet's check accepts, up to its stricter
    bounds on the capacity and its stricter names. *)
Lemma coordinator_accepts c :
  Validate c = Ok tt → CPUUnits (Capacity c) ≤ 1024 → MemoryMiB (Capacity c) ≤ 2 ^ 24 →
  (∀ name r, ScaleSets c !! name = Some r → scale_set_valid c name r = true → scale_set_ok c name r = true) →
  (∀ repositories r p, Config_Repositories c = Some repositories → repositories !! r = Some p → validRepository r = true) →
  Config_Validate c = Ok tt.
Proof.
  intros Hv Hcpu Hmem Hsets Hrepos. unfold Validate in Hv.
  apply bind_Ok in Hv as ([] & Hid%fail_if_Ok & Hv). apply bind_Ok in Hv as ([] & Httl%fail_if_Ok & Hv).
  unfold Config_Validate. destruct (Config_Repositories c) as [repositories|] eqn:Hrepo; [|done].
  apply bind_Ok in Hv as ([] & Hres%fail_if_Ok & Hv). apply bind_Ok in Hv as ([] & Hss%fail_if_Ok & Hreps%fail_if_Ok).
  apply negb_false_iff in Hss, Hreps.
  pose proof (proj1 (forallb_map_Ok (scale_set_valid c) _) Hss) as Hss'. pose proof (proj1 (forallb_map_Ok (repository_valid c) _) Hreps) as Hreps'.
  apply orb_false_iff in Hres as [Hres Hempty]. rewrite Httl.
  apply bool_decide_eq_false in Hempty. rewrite (bool_decide_eq_false_2 (ScaleSets c = ∅)) by done.
  assert (forallb (λ ns, scale_set_ok c ns.1 ns.2) (map_to_list (ScaleSets c)) = true) as ->.
  { apply (forallb_map_Ok (scale_set_ok c)). intros name r Hr. by apply Hsets, Hss'. }
  assert (forallb (λ rp, repository_policy_ok c rp.1 rp.2) (map_to_list repositories) = true) as ->.
  { apply (forallb_map_Ok (repository_policy_ok c)). intros r p Hr. specialize (Hreps' _ _ Hr). unfold repository_valid in Hreps'.
    unfold repository_policy_ok. rewrite (Hrepos _ _ _ eq_refl Hr). bool_hyps. lia. }
  unfold fail_if, queueAdmissionSchemaVersion, queueMaxInFlightCeiling.
  replace (_ || (100 <? DefaultWeight c)) with false by lia. cbn [mbind result_bind].
  replace (_ || (MaxInFlight c <? DefaultRepositoryLimit c)) with false by lia. cbn [mbind result_bind].
  replace (_ || (2 ^ 24 <? _)) with false by lia. done.
Qed.

(** C21: A queue configuration that passes the fleet's checks against a validated
    platform is one GARM's coordinator accepts, provided its repositories are of
    the form owner/name: the coordinator then knows exactly the scale sets of the
    platform's pools, budgets exactly the capacity of all members together, and
    charges a job the reservation the provider admits its pool's instances with. *)
Theorem platform_queue_accepted (platform : Config) (c : queueAdmissionConfig) :
  FleetConfig.Validate platform = None → Validate c = Ok tt → ValidateAgainstPlatform c platform = Ok tt →
  (∀ repositories r p, Config_Repositories c = Some repositories → repositories !! r = Some p → validRepository r = true) →
  Config_Validate c = Ok tt ∧
  (∀ name, is_Some (ScaleSets c !! name) ↔ ∃ p, p ∈ Pools platform ∧ Pool_ScaleSetName p = name) ∧
  (∀ p declared, p ∈ Pools platform → ScaleSets c !! Pool_ScaleSetName p = Some declared →
     reservation declared = {| CPUUnits := Reservation_CPUUnits (EffectiveReservation p);
                               MemoryMiB := Reservation_MemoryMiB (EffectiveReservation p) |}) ∧
  CPUUnits (Capacity c) = ProjectMaxCPUUnits (Config_Incus platform) * ClusterMembers (Config_Incus platform) ∧
  MemoryMiB (Capacity c) = ProjectMaxMemoryMiB (Config_Incus platform) * ClusterMembers (Config_Incus platform).
Proof.
  intros Hplat%Validate_validated Hv Hagainst Hrepos.
  pose proof (validateIncus_bounds _ (validated_incus _ Hplat)) as Hb. destruct (fleet_capacity _ Hb) as [HfleetC HfleetM].
  unfold ValidateAgainstPlatform in Hagainst. rewrite HfleetC, HfleetM in Hagainst.
  apply bind_Ok in Hagainst as ([] & Hcap%fail_if_Ok & Hagainst). apply bind_Ok in Hagainst as (seen & Hseen & Hknown%fail_if_Ok).
  apply orb_false_iff in Hcap as [Hc Hm]. apply negb_false_iff, Z.eqb_eq in Hc, Hm.
  apply match_pools in Hseen as [Hdeclared Hseen].
  apply negb_false_iff in Hknown. pose proof (proj1 (forallb_map_Ok (λ k _, bool_decide (is_Some (seen !! k))) _) Hknown) as Hall.
  assert (∀ name declared, ScaleSets c !! name = Some declared → ∃ p, p ∈ Pools platform ∧ Pool_ScaleSetName p = name) as Hof.
  { intros name declared Hn. apply Hall, bool_decide_eq_true, Hseen in Hn as [[? ?]|?]; [|done]. by rewrite lookup_empty in *. }
  assert (∀ p, p ∈ Pools platform → pool_valid p) as Hpools.
  { intros p Hp. destruct (validated_pool _ p Hplat Hp) as [pre ?]. by eapply validatePool_nil. }
  split_and!; try done.
  - destruct Hb as [_ ? ? ?]. apply coordinator_accepts; [done|nia|nia| |done]. intros name declared Hn Hset.
    destruct (Hof _ _ Hn) as (p & Hp & <-). destruct (Hdeclared p Hp) as (declared' & Hd & Heq). rewrite Hd in Hn. injection Hn as ->.
    by apply scale_set_accepted; [apply Hpools|..].
  - intros name. split; [intros [declared ?]; by eapply Hof|]. intros (p & Hp & <-). destruct (Hdeclared p Hp) as (d & -> & _). done.
  - intros p declared Hp Hd. destruct (Hdeclared p Hp) as (declared' & Hd' & Heq). rewrite Hd' in Hd. injection Hd as ->.
    rewrite Heq. by apply reservation_wanted, Hpools.
Qed.

(** ** A concrete queue configuration for [config0] *)

Definition queue0 (repositories : gmap string queueRepositoryPolicy) : queueAdmissionConfig := {|
  QueueIntent.Config_SchemaVersion := 5; MaxInFlight := 8; MaxBackgroundInFlight := 4; DefaultRepositoryLimit := 4; DefaultWeight := 1;
  QueuedTTLSeconds := 600; AcquiringTTLSeconds := 120; AcquiredTTLSeconds := 600; ExecutionTTLSeconds := 86400; PriorityAgingSeconds := 300;
  MaxRepositorySharePercent := 75; Capacity := {| CPUUnits := 16; MemoryMiB := 24576 |};
  ScaleSets := list_to_map ((λ p, (Pool_ScaleSetName p, wanted p 1)) <$> Pools config0);
  Config_Repositories := Some repositories |}.

Definition repositories0 : gmap string queueRepositoryPolicy :=
  {[ "example-org/example-actions" := {| Policy_Weight := 2; Policy_MaxInFlight := 4 |} ]}.

Lemma platform_queue_accepted_witness :
  Config_Validate (queue0 repositories0) = Ok tt ∧
  (∀ name, is_Some (ScaleSets (queue0 repositories0) !! name) ↔ ∃ p, p ∈ Pools config0 ∧ Pool_ScaleSetName p = name) ∧
  (∀ p declared, p ∈ Pools config0 → ScaleSets (queue0 repositories0) !! Pool_ScaleSetName p = Some declared →
     reservation declared = {| CPUUnits := Reservation_CPUUnits (EffectiveReservation p);
                               MemoryMiB := Reservation_MemoryMiB (EffectiveReservation p) |}) ∧
  CPUUnits (Capacity (queue0 repositories0)) = ProjectMaxCPUUnits (Config_Incus config0) * ClusterMembers (Config_Incus config0) ∧
  MemoryMiB (Capacity (queue0 repositories0)) = ProjectMaxMemoryMiB (Config_Incus config0) * ClusterMembers (Config_Incus config0).
Proof.
  apply (platform_queue_accepted config0 (queue0 repositories0)); [vm_compute; reflexivity..|].
  intros repositories r p [= <-] Hr. unfold repositories0 in Hr. apply lookup_singleton_Some in Hr as [<- _]. vm_compute. reflexivity.
Defined.

(** Without the condition on repositories the two validations differ: a policy for
    a name without an owner passes the fleet's check and stops the coordinator. *)
Lemma queue_config_divergence :
  let c := queue0 {[ "example-actions" := {| Policy_Weight := 2; Policy_MaxInFlight := 4 |} ]} in
  Validate c = Ok tt ∧ ValidateAgainstPlatform c config0 = Ok tt ∧ is_Ok (Config_Validate c) = false.
Proof. vm_compute. done. Qed.
