(* ===== verification/QueuePhase.v ===== *)
(** * Phases of queued jobs ([src/internal/queuephase/emitter.go])

    The emitter compares each snapshot of active intents with the last one and
    emits the phase an intent has left, when its state changed or it is gone. *)

From S2P Require Import Prelude QueueIntent QueueReader.

Local Open Scope Z_scope.

Record Phase := { Phase_Intent : queueIntent; Phase_Start : Time; Phase_End : Time }.

(** The completed phase carries the newer intent's fields with the old state. *)
Definition set_State (s : queueIntentState) (i : queueIntent) : queueIntent :=
  set_phase s (StateEnteredAt i) (UpdatedAt i) (ExpiresAt i) i.

(** The phase a changed intent leaves. *)
Definition left_phase (previous current : queueIntent) (now : Time) : list Phase :=
  if bool_decide (State previous = State current) then []
  else
    let end_ := StateEnteredAt current in
    let end_ := if Before end_ (StateEnteredAt previous) then now else end_ in
    [{| Phase_Intent := set_State (State previous) current; Phase_Start := StateEnteredAt previous; Phase_End := end_ |}].

Definition changed_phase (active : gmap string queueIntent) (now : Time) (current : queueIntent) : list Phase :=
  match active !! Key current with Some previous => left_phase previous current now | None => [] end.

Definition gone_phase (next : gmap string queueIntent) (now : Time) (kp : string * queueIntent) : list Phase :=
  if bool_decide (is_Some (next !! kp.1)) then []
  else [{| Phase_Intent := kp.2; Phase_Start := StateEnteredAt kp.2; Phase_End := now |}].

(** [next[current.Key] = current] for each intent: a later one replaces an
    earlier one of the same key. *)
Definition next_active (intents : list queueIntent) : gmap string queueIntent :=
  list_to_map ((λ i, (Key i, i)) <$> reverse intents).

(** The phases emitted and the remembered intents. *)
Definition Observe (active : gmap string queueIntent) (snapshot : Snapshot) (now : Time) : list Phase * gmap string queueIntent :=
  if IsZero now then ([], active)
  else
    let next := next_active (Snapshot_Active snapshot) in
    ((Snapshot_Active snapshot ≫= changed_phase active now) ++ (map_to_list active ≫= gone_phase next now), next).

(** [emitSpan] drops a phase without a start or one that ends before it starts. *)
Definition spans (p : Phase) : bool := negb (IsZero (Phase_Start p) || Before (Phase_End p) (Phase_Start p)).

(** ** Phases of one key *)

(** What one observation says about a key, from its own intents alone. *)
Definition key_phase (previous current : option queueIntent) (now : Time) : list Phase :=
  match previous, current with
  | Some p, Some c => left_phase p c now
  | Some p, None => [{| Phase_Intent := p; Phase_Start := StateEnteredAt p; Phase_End := now |}]
  | None, _ => []
  end.

Definition of_key (k : string) (ps : list Phase) : list Phase := filter (λ p, Key (Phase_Intent p) = k) ps.

Definition keyed (m : gmap string queueIntent) : Prop := ∀ k i, m !! k = Some i → Key i = k.

Fixpoint observe_all (active : gmap string queueIntent) (samples : list (Snapshot * Time)) : list Phase :=
  match samples with
  | [] => []
  | (snapshot, now) :: samples => let '(ps, next) := Observe active snapshot now in ps ++ observe_all next samples
  end.

Fixpoint key_phases (k : string) (previous : option queueIntent) (samples : list (Snapshot * Time)) : list Phase :=
  match samples with
  | [] => []
  | (snapshot, now) :: samples =>
      let current := next_active (Snapshot_Active snapshot) !! k in key_phase previous current now ++ key_phases k current samples
  end.

Lemma of_key_uniform k b ps :
  (∀ p, p ∈ ps → Key (Phase_Intent p) = b) → of_key k ps = if decide (b = k) then ps else [].
Proof.
  unfold of_key. induction ps as [|p ps IH]; intros H; [by destruct (decide _)|]. rewrite filter_cons, IH, (H p).
  - by destruct (decide (b = k)).
  - apply list_elem_of_here.
  - intros q Hq. by apply H, list_elem_of_further.
Qed.

(** Phases made element by element, each under the key of its element. *)
Lemma of_key_bind {A} k (f : A → list Phase) (key : A → string) (xs : list A) :
  (∀ x p, x ∈ xs → p ∈ f x → Key (Phase_Intent p) = key x) → of_key k (xs ≫= f) = filter (λ x, key x = k) xs ≫= f.
Proof.
  intros Hkey. induction xs as [|x xs IH]; [done|]. unfold of_key in *. cbn [mbind list_bind]. rewrite filter_app.
  rewrite IH by (intros; apply Hkey; [by apply list_elem_of_further|done]).
  rewrite filter_cons. pose proof (of_key_uniform k (key x) (f x)) as Hu. unfold of_key in Hu. rewrite Hu.
  - by destruct (decide (key x = k)).
  - intros p Hp. by apply Hkey; [apply list_elem_of_here|].
Qed.

Lemma left_phase_key previous current now p : p ∈ left_phase previous current now → Key (Phase_Intent p) = Key current.
Proof. unfold left_phase. case_bool_decide; [by intros ?%not_elem_of_nil|]. by intros ->%list_elem_of_singleton. Qed.

Lemma next_active_lookup intents k i :
  NoDup (Key <$> intents) → next_active intents !! k = Some i ↔ i ∈ intents ∧ Key i = k.
Proof.
  intros Hnd. unfold next_active. rewrite <-elem_of_list_to_map.
  - rewrite list_elem_of_fmap. split.
    + intros (j & Heq & Hj). rewrite elem_of_reverse in Hj. by injection Heq as -> ->.
    + intros [Hi <-]. exists i. split; [done|]. by apply elem_of_reverse.
  - rewrite <-list_fmap_compose. by rewrite reverse_Permutation.
Qed.

Lemma next_active_filter intents k :
  NoDup (Key <$> intents) → filter (λ i, Key i = k) intents = match next_active intents !! k with Some i => [i] | None => [] end.
Proof.
  intros Hnd. assert (NoDup intents) as Hndi by (by apply NoDup_fmap_1 in Hnd).
  destruct (next_active intents !! k) as [i|] eqn:Hk.
  - apply Permutation_singleton_r. symmetry. apply NoDup_Permutation; [apply NoDup_singleton|by apply NoDup_filter|].
    intros j. rewrite list_elem_of_singleton, list_elem_of_filter.
    pose proof (next_active_lookup intents k j Hnd) as Hj. split; [intros ->|intros [? ?]].
    + apply and_comm. by apply Hj.
    + rewrite Hk in Hj. assert (Some i = Some j) as Heq by (by apply Hj). by injection Heq.
  - destruct (filter _ intents) as [|j js] eqn:Hf; [done|].
    assert (j ∈ filter (λ i, Key i = k) intents) as [Hj Hin]%list_elem_of_filter by (rewrite Hf; apply list_elem_of_here).
    assert (next_active intents !! k = Some j) as Hs by (by apply next_active_lookup). by rewrite Hs in Hk.
Qed.

Lemma map_filter_key (m : gmap string queueIntent) k :
  filter (λ kp : string * queueIntent, kp.1 = k) (map_to_list m) = match m !! k with Some i => [(k, i)] | None => [] end.
Proof.
  destruct (m !! k) as [i|] eqn:Hk.
  - apply Permutation_singleton_r. symmetry. apply NoDup_Permutation; [apply NoDup_singleton|apply NoDup_filter, NoDup_map_to_list|].
    intros [k' i']. rewrite list_elem_of_singleton, list_elem_of_filter, elem_of_map_to_list. simpl. split; [by intros [= -> ->]|].
    intros [-> ?]. congruence.
  - destruct (filter _ _) as [|[k' i'] rest] eqn:Hf; [done|].
    assert ((k', i') ∈ filter (λ kp : string * queueIntent, kp.1 = k) (map_to_list m)) as Hin by (rewrite Hf; apply list_elem_of_here).
    apply list_elem_of_filter in Hin as [Heq Hin%elem_of_map_to_list]. simpl in Heq. subst. by rewrite Hk in Hin.
Qed.

Lemma Observe_key active snapshot now k :
  keyed active → NoDup (Key <$> Snapshot_Active snapshot) → now ≠ zero_time →
  of_key k (Observe active snapshot now).1 = key_phase (active !! k) (next_active (Snapshot_Active snapshot) !! k) now ∧
  (Observe active snapshot now).2 = next_active (Snapshot_Active snapshot) ∧ keyed (next_active (Snapshot_Active snapshot)).
Proof.
  intros Hkeyed Hnd Hnow. unfold Observe, IsZero. rewrite bool_decide_eq_false_2 by done. cbn [fst snd].
  split_and!; [|done|by intros k' i ?%next_active_lookup; [naive_solver|]].
  unfold of_key at 1. rewrite filter_app. fold (of_key k (Snapshot_Active snapshot ≫= changed_phase active now)).
  fold (of_key k (map_to_list active ≫= gone_phase (next_active (Snapshot_Active snapshot)) now)).
  rewrite (of_key_bind k _ Key), (of_key_bind k _ fst).
  - rewrite next_active_filter, map_filter_key by done. unfold key_phase.
    destruct (next_active _ !! k) as [c|] eqn:Hc, (active !! k) as [p|] eqn:Hp; cbn [mbind list_bind app]; rewrite ?app_nil_r.
    + unfold changed_phase, gone_phase. cbn [fst snd]. apply next_active_lookup in Hc as Hc'; [|done]. destruct Hc' as [_ ->].
      rewrite Hp, Hc, (bool_decide_eq_true_2 (is_Some _)) by done. by rewrite app_nil_r.
    + unfold changed_phase. apply next_active_lookup in Hc as [_ ->]; [|done]. by rewrite Hp.
    + unfold gone_phase. cbn [fst snd]. rewrite Hc, bool_decide_eq_false_2 by (by intros []). done.
    + done.
  - intros [k' p] q Hin%elem_of_map_to_list. unfold gone_phase. cbn [fst snd]. destruct (bool_decide _); [by intros ?%not_elem_of_nil|].
    intros ->%list_elem_of_singleton. by apply Hkeyed.
  - intros i p _. unfold changed_phase. destruct (active !! Key i); [apply left_phase_key|by intros ?%not_elem_of_nil].
Qed.

Definition sampled (sn : Snapshot * Time) : Prop := NoDup (Key <$> Snapshot_Active sn.1) ∧ sn.2 ≠ zero_time.

Lemma observe_all_key k active samples :
  keyed active → Forall sampled samples → of_key k (observe_all active samples) = key_phases k (active !! k) samples.
Proof.
  intros Hkeyed Hall. revert active Hkeyed. induction Hall as [|[snapshot now] samples [Hnd Hnow] _ IH]; intros active Hkeyed; [done|].
  cbn [observe_all key_phases]. destruct (Observe_key active snapshot now k Hkeyed Hnd Hnow) as (Hp & Hn & Hk).
  destruct (Observe active snapshot now) as [ps next]. simpl in Hp, Hn. subst next.
  unfold of_key in *. rewrite filter_app, Hp. f_equal. by apply IH.
Qed.

(** ** The life of an intent is covered *)

(** Phases that follow each other from one time to another without gap. *)
Inductive tiles : Time → list Phase → Time → Prop :=
  | tiles_nil t : tiles t [] t
  | tiles_cons p ps t : Phase_Start p ≤ Phase_End p → tiles (Phase_End p) ps t → tiles (Phase_Start p) (p :: ps) t.

(** An intent enters states one after the other, and its entry time changes only
    with its state. *)
Inductive steady : list queueIntent → Prop :=
  | steady_one i : steady [i]
  | steady_step i j is' : (State i = State j → StateEnteredAt i = StateEnteredAt j) → StateEnteredAt i ≤ StateEnteredAt j →
      steady (j :: is') → steady (i :: j :: is').

Definition shows (k : string) (sn : Snapshot * Time) (i : queueIntent) : Prop := i ∈ Snapshot_Active sn.1 ∧ Key i = k.

Lemma last_default (xs : list queueIntent) x d : List.last (x :: xs) d = List.last xs x.
Proof. revert x d. induction xs as [|y xs IH]; intros x d; [done|]. change (List.last (x :: y :: xs) d) with (List.last (y :: xs) d). by rewrite !IH. Qed.

Lemma key_phases_tile k first rest life gone now :
  Forall sampled life → NoDup (Key <$> Snapshot_Active gone) → (k ∉ Key <$> Snapshot_Active gone) →
  Forall2 (shows k) life rest → steady (first :: rest) → StateEnteredAt (List.last rest first) ≤ now →
  tiles (StateEnteredAt first) (key_phases k (Some first) (life ++ [(gone, now)])) now.
Proof.
  intros Hall Hnd Hgone Hshows. revert first Hall. induction Hshows as [|[snapshot t] i life rest [Hi Hk] _ IH]; intros first Hall Hsteady Hlast.
  - cbn [app key_phases]. destruct (next_active _ !! k) as [i|] eqn:Hn.
    { apply next_active_lookup in Hn as [Hin <-]; [|done]. exfalso. by apply Hgone, list_elem_of_fmap_2. }
    cbn [key_phase app]. simpl in Hlast.
    exact (tiles_cons {| Phase_Intent := first; Phase_Start := StateEnteredAt first; Phase_End := now |} [] now Hlast (tiles_nil now)).
  - apply Forall_cons in Hall as [[Hnd1 _] Hall]. cbn [app key_phases].
    cbn [fst] in Hnd1, Hi. rewrite (proj2 (next_active_lookup _ k i Hnd1)) by done. inversion Hsteady as [|? ? ? Hsame Hle Hrest]; subst.
    assert (tiles (StateEnteredAt i) (key_phases (Key i) (Some i) (life ++ [(gone, now)])) now) as Htail.
    { apply IH; [done..|]. by rewrite last_default in Hlast. }
    cbn [key_phase]. unfold left_phase. case_bool_decide as Heq; cbn [app]; [by rewrite (Hsame Heq)|].
    replace (Before (StateEnteredAt i) (StateEnteredAt first)) with false by (unfold Before; lia).
    exact (tiles_cons {| Phase_Intent := set_State (State first) i; Phase_Start := StateEnteredAt first; Phase_End := StateEnteredAt i |} _ now Hle Htail).
Qed.

(** The emitted phases cover the life of an intent without gap or overlap: when the
    samples show an intent from its first state on, in steady states, and then no
    longer, the phases of its key begin where it entered its first observed state,
    each ends where the next begins, and the last ends when it was missed. *)
Theorem phases_cover_life (k : string) (first : queueIntent) (rest : list queueIntent) (start gone : Snapshot * Time) (life : list (Snapshot * Time)) :
  Forall sampled (start :: life ++ [gone]) → Forall2 (shows k) (start :: life) (first :: rest) → (k ∉ Key <$> Snapshot_Active gone.1) →
  steady (first :: rest) → StateEnteredAt (List.last rest first) ≤ gone.2 →
  tiles (StateEnteredAt first) (of_key k (observe_all ∅ (start :: life ++ [gone]))) gone.2.
Proof.
  intros Hall Hshows Hgone Hsteady Hlast. rewrite observe_all_key; [|by intros k' i; rewrite lookup_empty|done].
  destruct start as [s0 t0], gone as [s1 t1]. apply Forall_cons in Hall as [[Hnd0 _] Hall]. apply Forall_app in Hall as [Hall Hg].
  apply Forall_singleton in Hg as [Hnd1 _]. apply Forall2_cons in Hshows as [[Hin Hk] Hshows].
  cbn [fst snd] in *. cbn [key_phases]. rewrite lookup_empty. cbn [key_phase app]. rewrite (proj2 (next_active_lookup _ k first Hnd0)) by done.
  by apply (key_phases_tile k first rest life s1 t1).
Qed.

(** ** A concrete life *)

Definition intent_at (s : queueIntentState) (entered : Time) : queueIntent := {|
  Key := "github-scale-set-job:v2:7:job-1"; ScaleSetID := 7; JobID := "job-1"; RunnerRequestID := 0; WorkflowRunID := 0; JobDisplayName := "";
  GitHubRunnerID := 0; ScaleSetName := "nddev-standard"; RunnerName := ""; Owner := "example-org"; Repository := "example-org/example-actions";
  WorkflowRef := "main"; EventName := "push"; QueueTime := 10; FirstQueuedAt := 10; State := s; Priority := 1; StateEnteredAt := entered;
  UpdatedAt := entered; ExpiresAt := 1000 |}.

Definition snapshot_with (intents : list queueIntent) : Snapshot := {|
  Snapshot_Generation := 1; Stored := 1; Expired := 0; Snapshot_TerminalJobs := 0; TerminalNextExpirySeconds := 0; Snapshot_Active := intents |}.

Definition life0 : list (Snapshot * Time) :=
  (λ it, (snapshot_with [it.1], it.2)) <$>
  [(intent_at queueStateQueued 10, 12); (intent_at queueStateQueued 10, 20); (intent_at queueStateAssigned 25, 30); (intent_at queueStateRunning 40, 44)].

Lemma phases_cover_life_witness :
  tiles 10 (of_key "github-scale-set-job:v2:7:job-1" (observe_all ∅ (life0 ++ [(snapshot_with [], 60)]))) 60 ∧
  (λ p, (Phase_Start p, Phase_End p)) <$> observe_all ∅ (life0 ++ [(snapshot_with [], 60)]) = [(10, 25); (25, 40); (40, 60)].
Proof.
  split; [|vm_compute; reflexivity].
  apply (phases_cover_life "github-scale-set-job:v2:7:job-1" (intent_at queueStateQueued 10)
    [intent_at queueStateQueued 10; intent_at queueStateAssigned 25; intent_at queueStateRunning 40]
    (snapshot_with [intent_at queueStateQueued 10], 12) (snapshot_with [], 60)
    [(snapshot_with [intent_at queueStateQueued 10], 20); (snapshot_with [intent_at queueStateAssigned 25], 30);
     (snapshot_with [intent_at queueStateRunning 40], 44)]).
  - repeat constructor; first [apply not_elem_of_nil|discriminate].
  - repeat constructor.
  - apply not_elem_of_nil.
  - repeat constructor; vm_compute; discriminate.
  - vm_compute. discriminate.
Defined.
