(* ===== verification/HostProbe.v ===== *)
(** * Host probes: is a machine fit to run workers
    ([src/internal/hostprobe/types.go], [evaluate.go])

    The observation of one host, the operator's gate ([EvaluateColdPilot],
    [EvaluateContainerImageBuild]) and the part of it that runtime admission keeps
    ([HealthyForRuntimeAdmission]). A message is its text without the observed
    numbers. *)

From S2P Require Import Prelude GoText CacheNamespace FleetConfig.

Local Open Scope Z_scope.
Local Open Scope go_scope.

(** ** The observation *)

Record OperatingSystem := {
  OS_ID : string; OS_VersionID : string; OS_PrettyName : string; OS_Kernel : string; OS_Architecture : string;
}.

Record CPU := {
  Logical : Z; PhysicalCores : Z; Sockets : Z; ThreadsPerCore : Z; NUMANodes : Z;
  Load1 : float64; Load5 : float64; Load15 : float64;
}.

Record Memory := {
  Memory_TotalMiB : Z; Memory_AvailableMiB : Z; SwapTotalMiB : Z; SwapFreeMiB : Z; Memory_OOMKillsTotal : Z;
}.

Record PressureWindow := { Avg10 : float64; Avg60 : float64; Avg300 : float64; TotalMicros : Z }.
Record PressureResource := { Some_ : PressureWindow; Full : PressureWindow }.
Record HostPressure := {
  Pressure_Available : bool; Pressure_CPU : PressureResource; Pressure_Memory : PressureResource; Pressure_IO : PressureResource;
}.

Record Filesystem := {
  FS_Source : string; FS_Type : string; FS_TotalMiB : Z; FS_AvailableMiB : Z; FreePercent : Z; FreeInodesPercent : Z;
  Rotational : bool; RotationalKnown : bool;
}.

Record KVM := { KVM_Present : bool; KVM_Accessible : bool; KVM_Nested : bool }.
Record Maintenance := { RebootRequired : bool; SystemState : string; FailedUnits : list string }.
Record SoftwareVersion := { Software_Present : bool; Software_Version : string }.
Record Software := { Software_Incus : SoftwareVersion; Software_Docker : SoftwareVersion }.
Record LegacyRunners := { Listeners : Z; Legacy_Workers : Z }.

Record HostObservation := {
  Host_SchemaVersion : Z; CapturedAt : string; Hostname : string; Host_OperatingSystem : OperatingSystem; Virtualization : string;
  Host_CPU : CPU; Host_Memory : Memory; Host_Pressure : HostPressure; RootFilesystem : Filesystem; Host_KVM : KVM;
  Host_Maintenance : Maintenance; Host_Software : Software; Host_LegacyRunners : LegacyRunners;
}.

(** ** Findings *)

Inductive Severity := SeverityInfo | SeverityWarning | SeverityBlocker.
#[export] Instance Severity_eq_dec : EqDecision Severity.
Proof. solve_decision. Defined.

Record HostFinding := { Code : string; Finding_Severity : Severity; Finding_Message : string }.

Record PilotDecision := {
  PilotReady : bool;
  Pilot_Pool : string;
  HostReserveMode : string;
  RequiredCPUUnits : Z;
  RequiredMemoryMiB : Z;
  RequiredFreeDiskPercent : Z;
  Findings : list HostFinding;
}.

Definition blocks_pilot (f : HostFinding) : bool := bool_decide (Finding_Severity f = SeverityBlocker).

Definition ceilingPercent (total value : Z) : Z := (total ⊗ value ⊕ 99) ⊘ 100.

Definition fleetServicePrefixes : list string := ["garm"; "gha-fleet-gateway"; "incus"; "lxcfs"].

(** [strings.TrimSuffix]. *)
Definition TrimSuffix (s suf : string) : string :=
  if String.prefix (rev_string suf) (rev_string s) then rev_string (drop_bytes (String.length suf) (rev_string s)) else s.

Definition fleet_unit (unit : string) : bool :=
  let name := TrimSuffix unit ".service" in
  existsb (λ pre, bool_decide (name = pre) || HasPrefix name (pre +:+ "-") || HasPrefix name (pre +:+ ".")) fleetServicePrefixes.

Definition requiredFailedUnits (units : list string) : list string := List.filter fleet_unit units.

(** [strings.EqualFold] against the two architectures, whose letters fold only
    within ASCII. *)
Definition equal_fold (value candidate : string) : bool := bool_decide (ToLower value = ToLower candidate).
Definition one_of_fold (value : string) (allowed : list string) : bool := existsb (equal_fold value) allowed.

(** [add] under a condition. *)
Definition add_if (cond : bool) (code : string) (severity : Severity) (message : string) : list HostFinding :=
  if cond then [{| Code := code; Finding_Severity := severity; Finding_Message := message |}] else [].

Definition cpuReserve (h : HostObservation) (r : HostReserve) : Z :=
  Z.max (Reserve_CPUUnits r) (ceilingPercent (PhysicalCores (Host_CPU h)) (Reserve_Percent r)).
Definition memoryReserve (h : HostObservation) (r : HostReserve) : Z :=
  Z.max (Reserve_MemoryMiB r) (ceilingPercent (Memory_TotalMiB (Host_Memory h)) (Reserve_Percent r)).

(** The platform and the resources. *)
Definition resource_findings (h : HostObservation) (r : HostReserve) (requiredCPU requiredMemory : Z) : list HostFinding :=
  let os := Host_OperatingSystem h in let fs := RootFilesystem h in
  add_if (negb (Host_SchemaVersion h =? 1)) "snapshot-schema" SeverityBlocker "host snapshot schema must be 1" ++
  add_if (negb (bool_decide (OS_ID os = "ubuntu")) || negb (bool_decide (OS_VersionID os = "24.04")))
    "unsupported-operating-system" SeverityBlocker "pilot requires Ubuntu 24.04" ++
  add_if (negb (one_of_fold (OS_Architecture os) ["x86_64"; "amd64"])) "unsupported-architecture" SeverityBlocker "pilot requires x86_64" ++
  add_if (PhysicalCores (Host_CPU h) <? requiredCPU) "insufficient-cpu" SeverityBlocker "need %d non-overcommitted CPU units, observed %d" ++
  add_if (f_int (cpuReserve h r) <f Load1 (Host_CPU h)) "host-cpu-pressure" SeverityBlocker
    "one-minute load %.2f exceeds the %d-unit coexistence reserve" ++
  add_if (Memory_TotalMiB (Host_Memory h) <? requiredMemory) "insufficient-memory" SeverityBlocker "need %d MiB total memory, observed %d MiB" ++
  add_if (Memory_AvailableMiB (Host_Memory h) <? requiredMemory) "insufficient-available-memory" SeverityBlocker
    "need %d MiB currently available for the %s and reserve, observed %d MiB" ++
  add_if (FreePercent fs <? Reserve_FreeDiskPercent r) "disk-pressure" SeverityBlocker "need at least %d percent free disk, observed %d" ++
  add_if (FreeInodesPercent fs <? Reserve_FreeDiskPercent r) "inode-pressure" SeverityBlocker "need at least %d percent free inodes, observed %d" ++
  add_if (RotationalKnown fs && Rotational fs) "rotational-storage" SeverityWarning
    "root storage is reported as rotational; image and cache latency must be benchmarked".

Definition kvm_findings (h : HostObservation) (requireKVM : bool) : list HostFinding :=
  if requireKVM then
    (if negb (KVM_Present (Host_KVM h)) then add_if true "kvm-missing" SeverityBlocker "/dev/kvm is missing"
     else add_if (negb (KVM_Accessible (Host_KVM h))) "kvm-inaccessible" SeverityBlocker
            "/dev/kvm is not accessible to the preflight process") ++
    add_if (negb (bool_decide (Virtualization h = "none")) && negb (KVM_Nested (Host_KVM h)))
      "nested-kvm-disabled" SeverityBlocker "nested KVM is required on a virtual host"
  else [].

(** The [switch] on the state of systemd. *)
Definition system_findings (m : Maintenance) : list HostFinding :=
  if bool_decide (SystemState m = "running") then []
  else if negb (bool_decide (SystemState m = "degraded")) then
    add_if true "system-unhealthy" SeverityBlocker "systemd state is %q, want running"
  else if bool_decide (FailedUnits m = []) then
    add_if true "system-unhealthy" SeverityBlocker "systemd is degraded and its failed units could not be enumerated"
  else if negb (bool_decide (requiredFailedUnits (FailedUnits m) = [])) then
    add_if true "required-service-failed" SeverityBlocker ("fleet dependency failed: " +:+ Join ", " (requiredFailedUnits (FailedUnits m)))
  else add_if true "host-degraded-unrelated" SeverityWarning
         ("systemd is degraded, but no fleet dependency failed: " +:+ Join ", " (FailedUnits m)).

Definition host_findings (h : HostObservation) (rebootBlocks : bool) : list HostFinding :=
  add_if (RebootRequired (Host_Maintenance h)) "reboot-required" (if rebootBlocks then SeverityBlocker else SeverityWarning)
    "complete the pending host reboot before the next host lifecycle operation" ++
  system_findings (Host_Maintenance h) ++
  add_if (negb (Software_Present (Software_Incus (Host_Software h)))) "incus-missing" SeverityBlocker "Incus must be installed and initialized" ++
  add_if (negb (bool_decide (Virtualization h = "none"))) "nested-virtualization" SeverityWarning
    "the CI host is itself virtualized; provider guarantees and p95 variance must be measured" ++
  add_if (0 <? Listeners (Host_LegacyRunners h)) "legacy-coexistence" SeverityInfo
    "preserving %d legacy listeners; %d workers were active at capture".

Definition evaluateBuildHost (h : HostObservation) (r : HostReserve) (p : Pool) (requireKVM rebootBlocks : bool) : PilotDecision :=
  let requiredCPU := cpuReserve h r ⊕ VCPU (Pool_Resources p) in
  let requiredMemory := memoryReserve h r ⊕ Resources_MemoryMiB (Pool_Resources p) in
  let findings := resource_findings h r requiredCPU requiredMemory ++ kvm_findings h requireKVM ++ host_findings h rebootBlocks in
  {| PilotReady := negb (existsb blocks_pilot findings); Pilot_Pool := Pool_Name p; HostReserveMode := Reserve_Mode r;
     RequiredCPUUnits := requiredCPU; RequiredMemoryMiB := requiredMemory;
     RequiredFreeDiskPercent := Reserve_FreeDiskPercent r; Findings := findings |}.

Definition EvaluateColdPilot (h : HostObservation) (r : HostReserve) (p : Pool) : PilotDecision := evaluateBuildHost h r p true true.
Definition EvaluateContainerImageBuild (h : HostObservation) (r : HostReserve) (p : Pool) : PilotDecision :=
  evaluateBuildHost h r p false false.

(** ** What runtime admission keeps of it *)

Definition delegated : list string :=
  ["insufficient-cpu"; "insufficient-memory"; "insufficient-available-memory"; "disk-pressure"; "inode-pressure"].

Definition tolerated (mode : string) (f : HostFinding) : bool :=
  if negb (blocks_pilot f) then true
  else if bool_decide (Code f ∈ delegated) then true
  else if bool_decide (Code f = "host-cpu-pressure") then bool_decide (mode = "dedicated")
  else false.

Definition HealthyForRuntimeAdmission (d : PilotDecision) : bool := forallb (tolerated (HostReserveMode d)) (Findings d).

(** ** Facts about host probes

    What the verdicts mean: the exact condition under which a host counts as
    healthy at run time, and that the operator's gate is the stronger one. *)

(** ** The findings of a list of checks *)

Lemma forallb_add_if f cond code severity message :
  forallb f (add_if cond code severity message)
  = negb cond || f {| Code := code; Finding_Severity := severity; Finding_Message := message |}.
Proof. unfold add_if. destruct cond; simpl; [by rewrite andb_true_r|done]. Qed.

Lemma existsb_forallb {A} (f : A → bool) xs : negb (existsb f xs) = forallb (λ x, negb (f x)) xs.
Proof. induction xs as [|x xs IH]; simpl; [done|]. by rewrite negb_orb, IH. Qed.

Lemma PilotReady_forallb h r p k b :
  PilotReady (evaluateBuildHost h r p k b) = forallb (λ f, negb (blocks_pilot f)) (Findings (evaluateBuildHost h r p k b)).
Proof. unfold evaluateBuildHost. cbn [PilotReady Findings]. apply existsb_forallb. Qed.

(** A failed unit that the fleet depends on. *)
Definition fleet_units_fine (m : Maintenance) : Prop :=
  SystemState m = "running" ∨
  SystemState m = "degraded" ∧ FailedUnits m ≠ [] ∧ ∀ unit, unit ∈ FailedUnits m → fleet_unit unit = false.

Lemma requiredFailedUnits_nil units : requiredFailedUnits units = [] ↔ ∀ unit, unit ∈ units → fleet_unit unit = false.
Proof.
  unfold requiredFailedUnits. induction units as [|u units IH]; simpl.
  { split; [|done]. by intros _ u ?%not_elem_of_nil. }
  destruct (fleet_unit u) eqn:Hu.
  - split; [done|]. intros H. rewrite (H u) in Hu by apply list_elem_of_here. done.
  - rewrite IH. split; [intros H v [->|?]%elem_of_cons; auto|]. intros H v Hv. by apply H, elem_of_cons; right.
Qed.

Lemma system_findings_fine f m :
  (∀ code message, code = "system-unhealthy" ∨ code = "required-service-failed" →
     f {| Code := code; Finding_Severity := SeverityBlocker; Finding_Message := message |} = false) →
  (∀ code message, f {| Code := code; Finding_Severity := SeverityWarning; Finding_Message := message |} = true) →
  forallb f (system_findings m) = true ↔ fleet_units_fine m.
Proof.
  intros Hblock Hwarn. unfold system_findings, fleet_units_fine. rewrite <-requiredFailedUnits_nil.
  repeat (case_bool_decide; cbn [negb]); rewrite ?forallb_add_if, ?Hwarn, ?Hblock by auto; simpl; naive_solver.
Qed.

(** ** Healthy at run time *)

Record runtime_fit (h : HostObservation) (r : HostReserve) : Prop := {
  fit_schema : Host_SchemaVersion h = 1;
  fit_os : OS_ID (Host_OperatingSystem h) = "ubuntu" ∧ OS_VersionID (Host_OperatingSystem h) = "24.04";
  fit_architecture : one_of_fold (OS_Architecture (Host_OperatingSystem h)) ["x86_64"; "amd64"] = true;
  fit_load : Reserve_Mode r = "dedicated" ∨ (f_int (cpuReserve h r) <f Load1 (Host_CPU h)) = false;
  fit_kvm : KVM_Present (Host_KVM h) = true ∧ KVM_Accessible (Host_KVM h) = true;
  fit_nested : Virtualization h = "none" ∨ KVM_Nested (Host_KVM h) = true;
  fit_reboot : RebootRequired (Host_Maintenance h) = false;
  fit_units : fleet_units_fine (Host_Maintenance h);
  fit_incus : Software_Present (Software_Incus (Host_Software h)) = true;
}.

(** Whether runtime admission takes a blocker for its own business. *)
Lemma tolerated_blocker mode code message :
  tolerated mode {| Code := code; Finding_Severity := SeverityBlocker; Finding_Message := message |}
  = bool_decide (code ∈ delegated) || bool_decide (code = "host-cpu-pressure") && bool_decide (mode = "dedicated").
Proof. unfold tolerated. cbn [Code blocks_pilot Finding_Severity]. by repeat case_bool_decide. Qed.

Lemma tolerated_warning mode code message :
  tolerated mode {| Code := code; Finding_Severity := SeverityWarning; Finding_Message := message |} = true.
Proof. done. Qed.

Lemma tolerated_info mode code message :
  tolerated mode {| Code := code; Finding_Severity := SeverityInfo; Finding_Message := message |} = true.
Proof. done. Qed.

Ltac decide_codes :=
  repeat match goal with
  | |- context [bool_decide (?c ∈ delegated)] =>
      let v := eval vm_compute in (bool_decide (c ∈ delegated)) in change (bool_decide (c ∈ delegated)) with v
  | |- context [bool_decide (?c = "host-cpu-pressure")] =>
      let v := eval vm_compute in (bool_decide (c = "host-cpu-pressure")) in change (bool_decide (c = "host-cpu-pressure")) with v
  end.

Lemma Healthy_iff_fit h r p : HealthyForRuntimeAdmission (EvaluateColdPilot h r p) = true ↔ runtime_fit h r.
Proof.
  unfold HealthyForRuntimeAdmission, EvaluateColdPilot, evaluateBuildHost. cbn [HostReserveMode Findings].
  unfold resource_findings, kvm_findings, host_findings. rewrite !forallb_app, !andb_true_iff.
  rewrite (system_findings_fine (tolerated _)); [|intros code m [-> | ->]; by rewrite tolerated_blocker|done].
  destruct (KVM_Present (Host_KVM h)) eqn:Hkvm; cbn [negb]; rewrite !forallb_add_if, !tolerated_blocker, ?tolerated_warning, ?tolerated_info;
    decide_codes; cbn [orb andb negb]; rewrite ?orb_true_r, ?orb_false_r.
  - rewrite ?negb_involutive, ?orb_true_iff, ?negb_true_iff, ?orb_false_iff, ?negb_false_iff, ?andb_false_iff, ?negb_false_iff,
      ?bool_decide_eq_true, ?Z.eqb_eq.
    split.
    + intros ((? & ? & ? & _ & ? & _) & (? & ?) & ? & ? & ? & _). split; try done; tauto.
    + intros []. destruct_and!. split_and!; try done; tauto.
  - split; [by intros (_ & (? & _) & _)|]. intros []. destruct_and!. congruence.
Qed.

(** ** The operator's gate *)

(** A host that passes the gate of a cold pilot also has the capacity the pool
    needs beside the reserves. *)
Record pilot_capacity (h : HostObservation) (r : HostReserve) (p : Pool) : Prop := {
  pilot_cpu : cpuReserve h r ⊕ VCPU (Pool_Resources p) ≤ PhysicalCores (Host_CPU h);
  pilot_memory : memoryReserve h r ⊕ Resources_MemoryMiB (Pool_Resources p) ≤ Memory_TotalMiB (Host_Memory h);
  pilot_available : memoryReserve h r ⊕ Resources_MemoryMiB (Pool_Resources p) ≤ Memory_AvailableMiB (Host_Memory h);
  pilot_disk : Reserve_FreeDiskPercent r ≤ FreePercent (RootFilesystem h);
  pilot_inodes : Reserve_FreeDiskPercent r ≤ FreeInodesPercent (RootFilesystem h);
}.

(** Blockers do not pass; what does not block is tolerated. *)
Lemma ready_healthy h r p :
  PilotReady (EvaluateColdPilot h r p) = true → HealthyForRuntimeAdmission (EvaluateColdPilot h r p) = true.
Proof.
  unfold EvaluateColdPilot. rewrite PilotReady_forallb. unfold HealthyForRuntimeAdmission. rewrite !forallb_forall.
  intros H f Hf. specialize (H f Hf). unfold tolerated. by rewrite H.
Qed.

Lemma blocks_blocker code message :
  blocks_pilot {| Code := code; Finding_Severity := SeverityBlocker; Finding_Message := message |} = true.
Proof. done. Qed.

Lemma ready_capacity h r p k b : PilotReady (evaluateBuildHost h r p k b) = true → pilot_capacity h r p.
Proof.
  rewrite PilotReady_forallb. unfold evaluateBuildHost. cbn [Findings]. rewrite forallb_app. intros [H _]%andb_true_iff. revert H.
  unfold resource_findings. rewrite !forallb_app, !forallb_add_if. cbn beta. rewrite !blocks_blocker. cbn [negb].
  rewrite !orb_false_r, !andb_true_iff, !negb_true_iff, !Z.ltb_ge.
  intros (_ & _ & _ & ? & _ & ? & ? & ? & ? & _). by split.
Qed.

(** A host ready for a cold pilot is ready to build container images. *)
Lemma pilot_ready_builds h r p :
  PilotReady (EvaluateColdPilot h r p) = true → PilotReady (EvaluateContainerImageBuild h r p) = true.
Proof.
  unfold EvaluateColdPilot, EvaluateContainerImageBuild. rewrite !PilotReady_forallb. unfold evaluateBuildHost. cbn [Findings].
  unfold host_findings. rewrite !forallb_app, !forallb_add_if. intros H. repeat (apply andb_true_iff in H as [? H]).
  rewrite !andb_true_iff; split_and!; try done; by apply orb_true_r.
Qed.
