(* ===== verification/ProviderHost.v ===== *)
(** * Room in the fleet, as the provider sees it
    ([src/internal/garmproviderincus/provider/cluster.go])

    The snapshot that admission decides on: of the local machine when Incus is
    not clustered, and the sum over the online members otherwise. The Incus client
    is a record of its answers; [uint64] values wrap at 64 bits. *)

From S2P Require Import FleetConfigFacts Prelude Admission PressureGate PressurePublish FleetConfig HostProbe.

Local Open Scope Z_scope.
Local Open Scope go_scope.

(** ** What Incus answers *)

Record StorageSpace := { Space_Total : Z; Space_Used : Z }.
Record MemberState := { TotalRAM : Z; FreeRAM : Z; BufferRAM : Z; StoragePools : gmap string StorageSpace }.
Record ClusterMember := { ServerName : string; Status : string; Member_Config : PressurePublish.Config }.

Record ClusterServer := {
  ServerClustered : result bool;
  GetClusterMembers : result (list ClusterMember);
  GetClusterMemberState : string → result MemberState;
}.

(** Unsigned 64-bit arithmetic, and [int(x)] of an unsigned value. *)
Definition u64 (z : Z) : Z := z mod two64.
Definition to_int (u : Z) : Z := wrap64 u.

(** The built-in [max] on floats. *)
Definition fmax (a b : float64) : float64 :=
  match a, b with NaN, _ => NaN | _, NaN => NaN | _, _ => if a <f b then b else a end.

Definition memberFreeDiskPercent (state : MemberState) (pool : string) : Z :=
  match StoragePools state !! pool with
  | None => 0
  | Some space =>
      if Space_Total space =? 0 then 0
      else let free := u64 (Space_Total space - Space_Used space) in to_int (u64 (free * 100) / Space_Total space)
  end.

Definition mib : Z := 1024 * 1024.

(** ** The loop over the members *)

Definition zero_snapshot : HostSnapshot := {|
  Healthy := false; TotalCPUUnits := 0; TotalMemoryMiB := 0; AvailableMemoryMiB := 0; AllocatedCPUUnits := 0;
  AllocatedCPUAllowanceUnits := 0; AllocatedMemoryMiB := 0; FreeDiskPercent := 0; PressureAvailable := false;
  CPUSomeAvg10 := f_int 0; MemoryFullAvg10 := f_int 0; IOFullAvg10 := f_int 0; RecentOOMKills := 0 |}.

Definition empty_ledger (pressure : bool) : HostSnapshot := {|
  Healthy := false; TotalCPUUnits := 0; TotalMemoryMiB := 0; AvailableMemoryMiB := 0; AllocatedCPUUnits := 0;
  AllocatedCPUAllowanceUnits := 0; AllocatedMemoryMiB := 0; FreeDiskPercent := 100; PressureAvailable := pressure;
  CPUSomeAvg10 := f_int 0; MemoryFullAvg10 := f_int 0; IOFullAvg10 := f_int 0; RecentOOMKills := 0 |}.

(** [+=] on the three totals. *)
Definition plus (cpu memory available : Z) (s : HostSnapshot) : HostSnapshot := {|
  Healthy := Healthy s; TotalCPUUnits := TotalCPUUnits s ⊕ cpu; TotalMemoryMiB := TotalMemoryMiB s ⊕ memory;
  AvailableMemoryMiB := AvailableMemoryMiB s ⊕ available; AllocatedCPUUnits := AllocatedCPUUnits s;
  AllocatedCPUAllowanceUnits := AllocatedCPUAllowanceUnits s; AllocatedMemoryMiB := AllocatedMemoryMiB s;
  FreeDiskPercent := FreeDiskPercent s; PressureAvailable := PressureAvailable s; CPUSomeAvg10 := CPUSomeAvg10 s;
  MemoryFullAvg10 := MemoryFullAvg10 s; IOFullAvg10 := IOFullAvg10 s; RecentOOMKills := RecentOOMKills s |}.

Definition at_most_free (disk : Z) (s : HostSnapshot) : HostSnapshot := {|
  Healthy := Healthy s; TotalCPUUnits := TotalCPUUnits s; TotalMemoryMiB := TotalMemoryMiB s;
  AvailableMemoryMiB := AvailableMemoryMiB s; AllocatedCPUUnits := AllocatedCPUUnits s;
  AllocatedCPUAllowanceUnits := AllocatedCPUAllowanceUnits s; AllocatedMemoryMiB := AllocatedMemoryMiB s;
  FreeDiskPercent := if disk <? FreeDiskPercent s then disk else FreeDiskPercent s;
  PressureAvailable := PressureAvailable s; CPUSomeAvg10 := CPUSomeAvg10 s;
  MemoryFullAvg10 := MemoryFullAvg10 s; IOFullAvg10 := IOFullAvg10 s; RecentOOMKills := RecentOOMKills s |}.

Definition worst_pressure (sample : Sample) (s : HostSnapshot) : HostSnapshot := {|
  Healthy := Healthy s; TotalCPUUnits := TotalCPUUnits s; TotalMemoryMiB := TotalMemoryMiB s;
  AvailableMemoryMiB := AvailableMemoryMiB s; AllocatedCPUUnits := AllocatedCPUUnits s;
  AllocatedCPUAllowanceUnits := AllocatedCPUAllowanceUnits s; AllocatedMemoryMiB := AllocatedMemoryMiB s;
  FreeDiskPercent := FreeDiskPercent s; PressureAvailable := PressureAvailable s;
  CPUSomeAvg10 := fmax (CPUSomeAvg10 s) (Sample_CPUSomeAvg10 sample);
  MemoryFullAvg10 := fmax (MemoryFullAvg10 s) (Sample_MemoryFullAvg10 sample);
  IOFullAvg10 := fmax (IOFullAvg10 s) (Sample_IOFullAvg10 sample); RecentOOMKills := RecentOOMKills s |}.

Definition with_health (healthy pressure : bool) (s : HostSnapshot) : HostSnapshot := {|
  Healthy := healthy; TotalCPUUnits := TotalCPUUnits s; TotalMemoryMiB := TotalMemoryMiB s;
  AvailableMemoryMiB := AvailableMemoryMiB s; AllocatedCPUUnits := AllocatedCPUUnits s;
  AllocatedCPUAllowanceUnits := AllocatedCPUAllowanceUnits s; AllocatedMemoryMiB := AllocatedMemoryMiB s;
  FreeDiskPercent := FreeDiskPercent s; PressureAvailable := pressure; CPUSomeAvg10 := CPUSomeAvg10 s;
  MemoryFullAvg10 := MemoryFullAvg10 s; IOFullAvg10 := IOFullAvg10 s; RecentOOMKills := RecentOOMKills s |}.

Record Scan := { scan_snapshot : HostSnapshot; scan_fallback : HostSnapshot; online : Z; eligible : Z; invalidPressure : bool }.

(** The gate of a member: an open state and an empty sample when no gate is
    required. *)
Definition zero_sample : Sample := {|
  Sample_ObservedAt := zero_time; Sample_CPUSomeAvg10 := f_int 0; Sample_MemoryFullAvg10 := f_int 0; Sample_IOFullAvg10 := f_int 0;
  Sample_OOMKillsTotal := 0 |}.

Definition member_gate (pressure : PressureGate.Policy) (now : Time) (member : ClusterMember) : result (GateState * Sample) :=
  if Required pressure then
    stateSample ← ParseMetadata (Member_Config member) pressure now; Ok (State_State stateSample.1, stateSample.2)
  else Ok (StateOpen, zero_sample).

(** One member that is online. *)
Definition unreadable (platform : FleetConfig.Incus) (s : Scan) : Scan :=
  let cpu := ProjectMaxCPUUnits platform in let memory := ProjectMaxMemoryMiB platform in
  {| scan_snapshot := plus cpu memory memory (scan_snapshot s); scan_fallback := plus cpu memory memory (scan_fallback s);
     online := online s ⊕ 1; eligible := eligible s; invalidPressure := invalidPressure s |}.

Definition readable (platform : FleetConfig.Incus) (gate : result (GateState * Sample)) (state : MemberState) (s : Scan) : Scan :=
  let cpu := ProjectMaxCPUUnits platform in
  let memory := to_int (TotalRAM state / mib) in
  let available := to_int (u64 (FreeRAM state + BufferRAM state) / mib) in
  let disk := memberFreeDiskPercent state (StoragePool platform) in
  let fallback := at_most_free disk (plus cpu memory available (scan_fallback s)) in
  let counted := plus cpu memory memory (scan_snapshot s) in
  match gate with
  | Ok (StateOpen, sample) =>
      {| scan_snapshot := worst_pressure sample (at_most_free disk counted); scan_fallback := fallback;
         online := online s ⊕ 1; eligible := eligible s ⊕ 1; invalidPressure := invalidPressure s |}
  | Ok _ =>
      {| scan_snapshot := counted; scan_fallback := fallback;
         online := online s ⊕ 1; eligible := eligible s; invalidPressure := invalidPressure s |}
  | Err _ =>
      {| scan_snapshot := counted; scan_fallback := fallback;
         online := online s ⊕ 1; eligible := eligible s; invalidPressure := true |}
  end.

Definition scan_member (cli : ClusterServer) (platform : FleetConfig.Incus) (pressure : PressureGate.Policy) (now : Time)
    (s : Scan) (member : ClusterMember) : Scan :=
  if negb (bool_decide (Status member = "Online")) then s
  else match GetClusterMemberState cli (ServerName member) with
       | Err _ => unreadable platform s
       | Ok state => readable platform (member_gate pressure now member) state s
       end.

Definition scan_start (pressure : PressureGate.Policy) : Scan := {|
  scan_snapshot := empty_ledger (Required pressure); scan_fallback := empty_ledger false;
  online := 0; eligible := 0; invalidPressure := false |}.

Definition clusterHostState (cli : ClusterServer) (platform : FleetConfig.Config) (pressure : PressureGate.Policy) (now : Time)
    : result HostSnapshot :=
  members ← wrap_err "list Incus cluster members: %w" (GetClusterMembers cli);
  let s := foldl (scan_member cli (Config_Incus platform) pressure now) (scan_start pressure) members in
  fail_if (online s =? 0) (Errorf "no Incus cluster member is online" []);;
  if Required pressure && (eligible s =? 0) then Ok (with_health false (negb (invalidPressure s)) (scan_fallback s))
  else Ok (with_health true (PressureAvailable (scan_snapshot s)) (scan_snapshot s)).

(** ** The local machine *)

Definition localHostState (platform : FleetConfig.Config) (pool : FleetConfig.Pool) (h : HostObservation) : HostSnapshot := {|
  Healthy := HealthyForRuntimeAdmission (EvaluateColdPilot h (Config_HostReserve platform) pool);
  TotalCPUUnits := PhysicalCores (Host_CPU h);
  TotalMemoryMiB := Memory_TotalMiB (Host_Memory h);
  AvailableMemoryMiB := Memory_AvailableMiB (Host_Memory h);
  AllocatedCPUUnits := 0; AllocatedCPUAllowanceUnits := 0; AllocatedMemoryMiB := 0;
  FreeDiskPercent := Z.min (FreePercent (RootFilesystem h)) (FreeInodesPercent (RootFilesystem h));
  PressureAvailable := Pressure_Available (Host_Pressure h);
  CPUSomeAvg10 := Avg10 (Some_ (Pressure_CPU (Host_Pressure h)));
  MemoryFullAvg10 := Avg10 (Full (Pressure_Memory (Host_Pressure h)));
  IOFullAvg10 := Avg10 (Full (Pressure_IO (Host_Pressure h)));
  RecentOOMKills := 0 |}.

(** [fleetHostState]; [collect] is what [hostprobe.Collect] returns. *)
Definition fleetHostState (cli : ClusterServer) (collect : result HostObservation) (platform : FleetConfig.Config) (pool : FleetConfig.Pool)
    (pressure : PressureGate.Policy) (now : Time) : result HostSnapshot :=
  clustered ← wrap_err "read Incus server state: %w" (ServerClustered cli);
  if (clustered : bool) then clusterHostState cli platform pressure now
  else h ← wrap_err "collect host state: %w" collect; Ok (localHostState platform pool h).

(** ** Facts about the provider's view of the fleet

    The cluster snapshot is the sum over the online members, it is healthy exactly
    when a member may take work, and its disk and pressure values bound those of
    every member that may. A standalone host that passes the operator's gate
    admits a first worker. *)

(** ** Members *)

Definition is_online (m : ClusterMember) : bool := bool_decide (Status m = "Online").

(** A member that may take new work: online, readable, with a valid open gate. *)
Definition open_member (cli : ClusterServer) (pressure : PressureGate.Policy) (now : Time) (m : ClusterMember)
    (state : MemberState) (sample : Sample) : Prop :=
  is_online m = true ∧ GetClusterMemberState cli (ServerName m) = Ok state ∧ member_gate pressure now m = Ok (StateOpen, sample).

(** The memory a member contributes to the ledger. *)
Definition share (cli : ClusterServer) (i : FleetConfig.Incus) (m : ClusterMember) : Z :=
  if is_online m then
    match GetClusterMemberState cli (ServerName m) with Ok state => TotalRAM state / mib | Err _ => ProjectMaxMemoryMiB i end
  else 0.

(** Answers Incus can give: unsigned 64-bit sizes. *)
Definition sized (cli : ClusterServer) : Prop :=
  ∀ name state, GetClusterMemberState cli name = Ok state → 0 ≤ TotalRAM state < two64.

(** ** The scan *)

Record scanned (cli : ClusterServer) (i : FleetConfig.Incus) (pressure : PressureGate.Policy) (now : Time)
    (members : list ClusterMember) (s : Scan) : Prop := {
  scanned_online : online s = Z.of_nat (length (List.filter is_online members));
  scanned_eligible : 0 ≤ eligible s ≤ online s;
  scanned_some : 0 < eligible s ↔ ∃ m state sample, m ∈ members ∧ open_member cli pressure now m state sample;
  scanned_cpu : TotalCPUUnits (scan_snapshot s) = ProjectMaxCPUUnits i * online s ∧ TotalCPUUnits (scan_fallback s) = ProjectMaxCPUUnits i * online s;
  scanned_memory : TotalMemoryMiB (scan_snapshot s) = sumZ (share cli i) members ∧ TotalMemoryMiB (scan_fallback s) = sumZ (share cli i) members;
  scanned_available : AvailableMemoryMiB (scan_snapshot s) = sumZ (share cli i) members;
  scanned_pressure : PressureAvailable (scan_snapshot s) = Required pressure;
  scanned_disk : ∀ m state sample, m ∈ members → open_member cli pressure now m state sample →
    FreeDiskPercent (scan_snapshot s) ≤ memberFreeDiskPercent state (StoragePool i);
}.

Lemma share_bound cli i m : incus_bounds i → sized cli → 0 ≤ share cli i m < 2 ^ 44.
Proof.
  intros Hi Hs. unfold share. destruct (is_online m); [|lia].
  destruct (GetClusterMemberState cli (ServerName m)) as [state|] eqn:Hg; [|destruct Hi; lia].
  apply Hs in Hg. unfold mib, two64 in *. split; [apply Z.div_pos; lia|]. apply Z.div_lt_upper_bound; lia.
Qed.

Lemma share_sum cli i members : incus_bounds i → sized cli → 0 ≤ sumZ (share cli i) members ≤ 2 ^ 44 * Z.of_nat (length members).
Proof.
  intros Hi Hs. induction members as [|m members IH]; [rewrite sumZ_nil; simpl; lia|].
  rewrite sumZ_cons. pose proof (share_bound cli i m Hi Hs). rewrite length_cons. lia.
Qed.

Lemma sumZ_snoc {A} (f : A → Z) xs x : sumZ f (xs ++ [x]) = sumZ f xs + f x.
Proof. rewrite sumZ_app, sumZ_cons, sumZ_nil. lia. Qed.

Lemma scanned_start cli i pressure now : scanned cli i pressure now [] (scan_start pressure).
Proof. split; simpl; try done; try lia;
  try (by intros ? ? ? ?%not_elem_of_nil). split; [lia|]. by intros (? & ? & ? & ?%not_elem_of_nil & _).
Qed.

Lemma add_exact a b : 0 ≤ a + b ≤ 2 ^ 62 → a ⊕ b = a + b.
Proof. intros H. apply wrap64_small. unfold in_int64, min_int64, max_int64. lia. Qed.

Lemma filter_snoc (f : ClusterMember → bool) members m :
  Z.of_nat (length (List.filter f (members ++ [m]))) = Z.of_nat (length (List.filter f members)) + (if f m then 1 else 0).
Proof. rewrite List.filter_app, length_app. simpl. destruct (f m); simpl; lia. Qed.

(** What one member more changes: nobody new may take work, or one member may. *)
Lemma nobody_snoc cli pressure now members m (P : Prop) :
  (P ↔ ∃ m' state sample, m' ∈ members ∧ open_member cli pressure now m' state sample) →
  (∀ state sample, ¬ open_member cli pressure now m state sample) →
  P ↔ ∃ m' state sample, m' ∈ members ++ [m] ∧ open_member cli pressure now m' state sample.
Proof.
  intros -> Hm. split; intros (m' & state & sample & Hin & Ho); exists m', state, sample.
  - split; [|done]. apply elem_of_app. by left.
  - apply elem_of_app in Hin as [Hin| ->%list_elem_of_singleton]; [done|]. by destruct (Hm state sample).
Qed.

Lemma disk_snoc cli pressure now members m (f : MemberState → Z) (a b : Z) :
  (∀ m' state sample, m' ∈ members → open_member cli pressure now m' state sample → a ≤ f state) → b ≤ a →
  (∀ state sample, open_member cli pressure now m state sample → b ≤ f state) →
  ∀ m' state sample, m' ∈ members ++ [m] → open_member cli pressure now m' state sample → b ≤ f state.
Proof.
  intros H Hle Hm m' state sample [Hin| ->%list_elem_of_singleton]%elem_of_app Ho; [|by apply (Hm state sample)].
  etrans; [exact Hle|]. by apply (H m' state sample).
Qed.

(** What an online member does to the scan: its shares are counted in both ledgers,
    and [new] says whether it may take work. *)
Record counted (cli : ClusterServer) (i : FleetConfig.Incus) (pressure : PressureGate.Policy) (now : Time) (m : ClusterMember)
    (new : bool) (s s' : Scan) : Prop := {
  counted_online : online s' = online s ⊕ 1;
  counted_eligible : eligible s' = if new then eligible s ⊕ 1 else eligible s;
  counted_new : if new then ∃ state sample, open_member cli pressure now m state sample
                else ∀ state sample, ¬ open_member cli pressure now m state sample;
  counted_cpu : TotalCPUUnits (scan_snapshot s') = TotalCPUUnits (scan_snapshot s) ⊕ ProjectMaxCPUUnits i
    ∧ TotalCPUUnits (scan_fallback s') = TotalCPUUnits (scan_fallback s) ⊕ ProjectMaxCPUUnits i;
  counted_memory : TotalMemoryMiB (scan_snapshot s') = TotalMemoryMiB (scan_snapshot s) ⊕ share cli i m
    ∧ TotalMemoryMiB (scan_fallback s') = TotalMemoryMiB (scan_fallback s) ⊕ share cli i m;
  counted_available : AvailableMemoryMiB (scan_snapshot s') = AvailableMemoryMiB (scan_snapshot s) ⊕ share cli i m;
  counted_pressure : PressureAvailable (scan_snapshot s') = PressureAvailable (scan_snapshot s);
  counted_disk : FreeDiskPercent (scan_snapshot s') ≤ FreeDiskPercent (scan_snapshot s);
  counted_own_disk : ∀ state sample, open_member cli pressure now m state sample →
    FreeDiskPercent (scan_snapshot s') ≤ memberFreeDiskPercent state (StoragePool i);
}.

Lemma scan_member_counted cli i pressure now s m :
  incus_bounds i → sized cli → is_online m = true →
  ∃ new, counted cli i pressure now m new s (scan_member cli i pressure now s m).
Proof.
  intros Hi Hs Honline. pose proof (share_bound cli i m Hi Hs) as Hshare. unfold scan_member.
  change (bool_decide (Status m = "Online")) with (is_online m). rewrite Honline. cbn [negb].
  destruct (GetClusterMemberState cli (ServerName m)) as [state|e] eqn:Hg.
  2:{ exists false. assert (share cli i m = ProjectMaxMemoryMiB i) as Hsh by (unfold share; by rewrite Honline, Hg).
      split; unfold unreadable; cbn; rewrite ?Hsh; try done; intros ? ? (_ & Hg' & _); congruence. }
  assert (share cli i m = to_int (TotalRAM state / mib)) as Hsh.
  { unfold share in *. rewrite Honline, Hg in *. symmetry. apply wrap64_small. unfold in_int64, min_int64, max_int64. lia. }
  assert (∀ a b, (if b <? a then b else a) ≤ a ∧ (if b <? a then b else a) ≤ b) as Hmin by (intros a b; destruct (Z.ltb_spec b a); lia).
  unfold readable. destruct (member_gate pressure now m) as [[[| |raw] sample]|e] eqn:Hgate.
  1:{ exists true. split; cbn; rewrite ?Hsh; try done; [by exists state, sample|apply Hmin|].
      intros state' sample' (_ & Hg' & _). rewrite Hg in Hg'. injection Hg' as <-. apply Hmin. }
  all: exists false; split; cbn; rewrite ?Hsh; try done; intros ? ? (_ & _ & Hgate'); congruence.
Qed.

Lemma scanned_snoc cli i pressure now members m s :
  incus_bounds i → sized cli → Z.of_nat (length (members ++ [m])) ≤ 2 ^ 16 →
  scanned cli i pressure now members s → scanned cli i pressure now (members ++ [m]) (scan_member cli i pressure now s m).
Proof.
  intros Hi Hs Hlen [Hon Hel Hsome [Hc1 Hc2] [Hm1 Hm2] Hav Hp Hd]. pose proof (share_bound cli i m Hi Hs) as Hshare.
  pose proof (share_sum cli i members Hi Hs) as Hsum. rewrite length_app in Hlen. simpl in Hlen.
  pose proof (List.filter_length_le is_online members).
  assert (0 ≤ ProjectMaxCPUUnits i ≤ 10) as Hcpu by (destruct Hi; lia).
  destruct (is_online m) eqn:Honline.
  2:{ unfold scan_member. change (bool_decide (Status m = "Online")) with (is_online m). rewrite Honline. cbn [negb].
      split; rewrite ?filter_snoc, ?sumZ_snoc; unfold share; rewrite ?Honline, ?Z.add_0_r; try done.
      - apply nobody_snoc; [done|]. intros ? ? [? _]. congruence.
      - eapply disk_snoc; [done..|]. intros ? ? [? _]. congruence. }
  destruct (scan_member_counted cli i pressure now s m Hi Hs Honline) as (new & Hs').
  destruct Hs' as [Ho He Hnew [Hc1' Hc2'] [Hm1' Hm2'] Hav' Hp' Hd' Hown].
  rewrite Hc1 in Hc1'. rewrite Hc2 in Hc2'. rewrite Hm1 in Hm1'. rewrite Hm2 in Hm2'. rewrite Hav in Hav'.
  rewrite add_exact in Ho, Hc1', Hc2', Hm1', Hm2', Hav' by nia.
  set (s' := scan_member cli i pressure now s m) in *.
  assert (eligible s' = eligible s + (if new then 1 else 0)) as He'.
  { rewrite He. destruct new; [rewrite add_exact|]; lia. }
  split; rewrite ?filter_snoc, ?sumZ_snoc, ?Honline; try lia; try done.
  - destruct new; lia.
  - destruct new; rewrite He'.
    + destruct Hnew as (state & sample & Hopen). split; [|lia]. intros _. exists m, state, sample. split; [|done].
      apply elem_of_app. right. by apply list_elem_of_singleton.
    + rewrite Z.add_0_r. by apply nobody_snoc.
  - congruence.
  - by eapply disk_snoc.
Qed.

Lemma scan_members cli i pressure now members :
  incus_bounds i → sized cli → Z.of_nat (length members) ≤ 2 ^ 16 →
  scanned cli i pressure now members (foldl (scan_member cli i pressure now) (scan_start pressure) members).
Proof.
  intros Hi Hs. induction members as [|m members IH] using rev_ind; intros Hlen; [apply scanned_start|].
  rewrite foldl_app. simpl. apply scanned_snoc; [done..|]. apply IH. rewrite length_app in Hlen. lia.
Qed.

(** ** The cluster snapshot *)

(** A healthy snapshot of a gated cluster has a member that may take the work. *)
Lemma cluster_healthy_open cli platform pressure now members s :
  validated platform → sized cli → GetClusterMembers cli = Ok members → Z.of_nat (length members) ≤ 2 ^ 16 →
  clusterHostState cli platform pressure now = Ok s → Healthy s = true → Required pressure = true →
  ∃ m state sample, m ∈ members ∧ open_member cli pressure now m state sample.
Proof.
  intros Hv Hs Hm Hlen H Hh Hreq. unfold clusterHostState in H. rewrite Hm in H. cbn [wrap_err mbind result_bind] in H.
  pose proof (scan_members cli _ pressure now members (validateIncus_bounds _ (validated_incus _ Hv)) Hs Hlen) as Hscan.
  apply bind_Ok in H as ([] & _ & H). rewrite Hreq in H. cbn [andb] in H. apply (scanned_some _ _ _ _ _ _ Hscan).
  destruct (Z.eqb_spec (eligible (foldl (scan_member cli (Config_Incus platform) pressure now) (scan_start pressure) members)) 0) as [Hz|Hz].
  - apply Ok_inj in H. subst s. done.
  - pose proof (scanned_eligible _ _ _ _ _ _ Hscan). lia.
Qed.

(** In a cluster of a valid platform the snapshot exists as soon as one member is
    online. It is healthy exactly when gates are not required or some online,
    readable member has a valid open gate; its CPU is the declared share of every
    online member and its memory the memory of every online member, whatever their
    gates; and a healthy snapshot is no more optimistic about disk than any member
    that may take the work. *)
Theorem cluster_snapshot_exact (cli : ClusterServer) (platform : FleetConfig.Config) (pressure : PressureGate.Policy) (now : Time)
    (members : list ClusterMember) :
  FleetConfig.Validate platform = None → sized cli → GetClusterMembers cli = Ok members →
  Z.of_nat (length members) ≤ 2 ^ 16 → (∃ m, m ∈ members ∧ is_online m = true) →
  let i := Config_Incus platform in
  ∃ s, clusterHostState cli platform pressure now = Ok s ∧
    (Healthy s = true ↔ Required pressure = false ∨ ∃ m state sample, m ∈ members ∧ open_member cli pressure now m state sample) ∧
    TotalCPUUnits s = ProjectMaxCPUUnits i * Z.of_nat (length (List.filter is_online members)) ∧
    TotalMemoryMiB s = sumZ (share cli i) members ∧
    (Healthy s = true → PressureAvailable s = Required pressure ∧ AvailableMemoryMiB s = TotalMemoryMiB s ∧
       ∀ m state sample, m ∈ members → open_member cli pressure now m state sample →
         FreeDiskPercent s ≤ memberFreeDiskPercent state (StoragePool i)).
Proof.
  intros Hv Hs Hm Hlen (m & Hin & Hon) i. apply Validate_validated in Hv.
  pose proof (validateIncus_bounds _ (validated_incus _ Hv)) as Hb. pose proof (scan_members cli i pressure now members Hb Hs Hlen) as Hscan.
  unfold clusterHostState. rewrite Hm. cbn [wrap_err mbind result_bind]. fold i.
  set (s := foldl _ _ members) in *. destruct Hscan as [Ho He Hsome [Hc1 Hc2] [Hm1 Hm2] Hav Hp Hd].
  assert (online s ≠ 0) as Hne.
  { rewrite Ho. intros H. assert (length (List.filter is_online members) = 0%nat) as H0 by lia. apply length_zero_iff_nil in H0.
    apply list_elem_of_In in Hin. assert (In m (List.filter is_online members)) as Hf by (by apply filter_In). by rewrite H0 in Hf. }
  replace (online s =? 0) with false by lia. cbn [fail_if].
  destruct (Required pressure && (eligible s =? 0)) eqn:Hf.
  - apply andb_true_iff in Hf as [Hreq Hz%Z.eqb_eq]. eexists. split; [done|]. cbn. rewrite Hc2, Hm2, Ho. split_and!; [|done..].
    split; [done|]. intros [|(m' & state & sample & Hin' & Hopen)]; [congruence|].
    assert (0 < eligible s) by (apply Hsome; by exists m', state, sample). lia.
  - eexists. split; [done|]. cbn. rewrite Hc1, Hm1, Ho, Hav. split_and!; [|done..|done].
    split; [|done]. intros _. destruct (Required pressure) eqn:Hreq; [right|by left]. simpl in Hf. apply Z.eqb_neq in Hf.
    apply Hsome. lia.
Qed.
