(* ===== verification/NDDevAdmission.v ===== *)
(** * The provider's admission front
    ([src/internal/garmproviderincus/provider/admission.go])

    What the provider does before and around the admission controller: it resolves
    the pool, asks the queue journal for an admitted intent, takes the inventory of
    Incus instances, reads the state of the fleet and passes a request built from
    the platform's policy to [ProviderAdmission]. The Incus client answers through
    records; the queue reader, the controller and the platform are the models of
    those components. *)

From S2P Require Import Prelude Admission ProviderJournal ProviderStore PressureGate QueueIntent QueueOps Tenant QueueReader ProviderRetry.
From S2P Require Import FleetConfig HostProbe ProviderHost ProviderAdmission.

Local Open Scope Z_scope.
Local Open Scope go_scope.

(** ** Provider configuration ([garmproviderincus/config/config.go]) *)

Inductive IncusImageType := IncusImageVirtualMachine | IncusImageContainer | OtherImageType (raw : string).
#[export] Instance IncusImageType_eq_dec : EqDecision IncusImageType.
Proof. solve_decision. Defined.

Record WorkerImage := {
  Image_Alias : string;
  Fingerprint : string;
  PreviousFingerprint : string;
  Variant : string;
  Image_InstanceType : IncusImageType;
  RunnerUID : Z;
  RunnerGID : Z;
}.

Record ProviderIdentity := { Identity_Version : string; Identity_Commit : string }.
#[export] Instance ProviderIdentity_eq_dec : EqDecision ProviderIdentity.
Proof. solve_decision. Defined.

Definition AllowsExistingFingerprint (w : WorkerImage) (actual : string) : bool :=
  bool_decide (actual = Fingerprint w) || negb (bool_decide (PreviousFingerprint w = "")) && bool_decide (actual = PreviousFingerprint w).

Definition AllowsProviderIdentity (previous : list ProviderIdentity) (actual current : ProviderIdentity) : bool :=
  bool_decide (actual = current) || existsb (λ identity, bool_decide (actual = identity)) previous.

(** ** Instance metadata ([incus.go]) *)

Definition controllerIDKeyName := "user.runner-controller-id".
Definition poolIDKey := "user.runner-pool-id".
Definition imageAliasKey := "user.nddev.image-alias".
Definition imageFingerprintKey := "user.nddev.image-fingerprint".
Definition providerVersionKey := "user.nddev.provider-version".
Definition providerCommitKey := "user.nddev.provider-commit".
Definition flavorKey := "user.nddev.flavor".
Definition lifecycleKey := "user.nddev.lifecycle".
Definition trustKey := "user.nddev.trust".
Definition scaleSetKey := "user.nddev.scale-set".
Definition repositoryKey := "user.nddev.repository".
Definition networkPolicyKey := "user.nddev.network-policy".
Definition cacheWriteScopeKey := "user.nddev.cache-write-scope".
Definition garmJobNameKey := "user.nddev.garm-job-name".
Definition warmReadyKey := "user.nddev.warm-ready".
Definition osTypeKeyName := "user.os-type".
Definition osArchKeyNAme := "user.os-arch".

Definition lifecycleEphemeralOneJob := "ephemeral-one-job".
Definition lifecycleWarmPreparing := "warm-preparing".
Definition lifecycleWarmUnregistered := "warm-unregistered".
Definition warmPoolIDPrefix := "warm/".

Record IncusInstance := {
  Instance_Name : string;
  Instance_Type : string;
  Instance_Status : string;
  Profiles : list string;
  ExpandedConfig : gmap string string;
  Location : string;
}.

Definition config_of (instance : IncusInstance) (key : string) : string := default "" (ExpandedConfig instance !! key).

Definition DisableNestedVirtualizationRawQEMU := "-cpu host,-vmx,-svm".

Definition managedSecurityContract (image : WorkerImage) : string * list (string * string) :=
  let checks := [(imageAliasKey, Image_Alias image)] in
  if bool_decide (Image_InstanceType image = IncusImageContainer) then
    let nesting := if bool_decide (Variant image = "integration") then "true" else "false" in
    ("container", checks ++ [("security.nesting", nesting); ("security.privileged", "false");
       ("security.syscalls.intercept.mknod", "false"); ("security.syscalls.intercept.setxattr", "false"); ("raw.lxc", "")])
  else
    ("virtual-machine", checks ++ [("security.nesting", "false"); ("security.secureboot", "true");
       ("raw.qemu", DisableNestedVirtualizationRawQEMU)]).

(** ** The front's own state *)

Record BootstrapInstance := { Bootstrap_Name : string; RepoURL : string; Flavor : string; Bootstrap_PoolID : string }.

Record nddevAdmission := {
  platform : FleetConfig.Config;
  front_controllerID : string;
  workerImages : gmap string WorkerImage;
  PreviousProviderIdentities : list ProviderIdentity;
  build : ProviderIdentity;                           (* Version and Commit of the binary *)
  pressurePolicy : PressureGate.Policy;
  controller : Controller;
  diagnosticsMaxBytes : Z;
}.

(** The policy that [newNDDevAdmission] hands to the controller. *)
Definition reservePolicy (p : FleetConfig.Config) : ReservePolicy :=
  let r := Config_HostReserve p in {|
  MinimumCPUUnits := Reserve_CPUUnits r; MaximumFleetCPUPercent := Reserve_MaximumFleetCPUPercent r;
  CPUAllowanceOvercommit := Reserve_CPUAllowanceOvercommit r; MinimumMemoryMiB := Reserve_MemoryMiB r;
  MinimumPercent := Reserve_Percent r; MinimumFreeDiskPercent := Reserve_FreeDiskPercent r;
  RequirePressure := Required (Pressure p); MaxCPUSomeAvg10 := CPUSomeClose (Pressure p);
  MaxMemoryFullAvg10 := MemoryFullClose (Pressure p); MaxIOFullAvg10 := IOFullClose (Pressure p);
  MaxRecentOOMKills := to_int (MaximumRecentOOMKills (Pressure p)) |}.

Definition platformHostMatches (declared observed : string) : bool :=
  negb (bool_decide (declared = "")) && bool_decide (declared = observed).

Definition expected_variant (pool : FleetConfig.Pool) : string :=
  if Docker (Pool_Capabilities pool) then "integration" else "standard".

Definition validateWorkerImageMapping (p : FleetConfig.Config) (fi : string * WorkerImage) : result unit :=
  match find_pool p fi.1 with
  | None => Err (Errorf "worker image mapping targets unknown pool %q" [fi.1])
  | Some pool =>
      fail_if (negb (bool_decide (Variant fi.2 = expected_variant pool)))
        (Errorf "worker image mapping for pool %q has variant %q, expected %q" [fi.1; Variant fi.2; expected_variant pool])
  end.

Definition validateWorkerImageMappings (p : FleetConfig.Config) (images : gmap string WorkerImage) : result unit :=
  forM (map_to_list images) (validateWorkerImageMapping p).

(** [newNDDevAdmission] after the policy is loaded: [hostname] is what the system
    answers, [release] whether the binary's version is a stamped release. *)
Definition newNDDevAdmission (p : FleetConfig.Config) (hostname : result string) (release : string → bool)
    (images : gmap string WorkerImage) (previous : list ProviderIdentity) (current : ProviderIdentity) (controllerID : string)
    (admissionLeaseSeconds diagnosticsMaxTotalBytes : Z) : result nddevAdmission :=
  host ← wrap_err "resolve runtime hostname: %w" hostname;
  fail_if (blank host) (Errorf "resolve runtime hostname: %w" []);;
  fail_if (negb (platformHostMatches (Platform_Host (Config_Platform p)) host))
    (Errorf "platform policy targets host %q but provider runs on %q" [Platform_Host (Config_Platform p); host]);;
  fail_if (negb (release (Identity_Version current)))
    (Errorf "provider reports %q, which is not a stamped release; a development build must not admit a platform policy" [Identity_Version current]);;
  fail_if (negb (bool_decide (ProviderVersion (Config_ControlPlane p) = Identity_Version current)))
    (Errorf "platform policy pins provider %q but this binary is %q" [ProviderVersion (Config_ControlPlane p); Identity_Version current]);;
  validateWorkerImageMappings p images;;
  Ok {| platform := p; front_controllerID := controllerID; workerImages := images; PreviousProviderIdentities := previous;
        build := current; pressurePolicy := Pressure p;
        controller := {| ControllerID := controllerID; Policy := reservePolicy p; LeaseTTL := seconds admissionLeaseSeconds |};
        diagnosticsMaxBytes := diagnosticsMaxTotalBytes |}.

(** The account of the repository GARM asked for. *)
Definition bootstrapOwner (b : BootstrapInstance) : string :=
  let trimmed := default (RepoURL b) (CutPrefix (RepoURL b) github) in
  match Cut "/" trimmed with Some (owner, _) => owner | None => trimmed end.

(** [Inspect] answers the bytes of the spool, or fails. *)
Definition DurableWALHighWatermarkPercent : Z := 80.
Definition AtDurableWALHighWatermark (spool maximumBytes : Z) : bool :=
  (maximumBytes <=? 0) || (maximumBytes ⊗ DurableWALHighWatermarkPercent ⊘ 100 <=? spool).
Definition diagnosticsBlocked (n : nddevAdmission) (spool : result Z) : result bool :=
  stats ← wrap_err "inspect diagnostic durable WAL: %w" spool; Ok (AtDurableWALHighWatermark stats (diagnosticsMaxBytes n)).

(** ** Inventory *)

(** The answers of one inventory: two attempts at most, and what each read of the
    journal finds on disk. *)
Record Inventory := {
  alive : nat → result unit;
  GetInstances : nat → result (list IncusInstance);
  journal_path : result unit;
  disk_at : nat → string → Disk;
}.

Definition errIncompleteInventory : error := Errorf "incomplete instance metadata" [].
Fixpoint is_incomplete (e : error) : bool :=
  match e with
  | Errorf format _ => bool_decide (format = "incomplete instance metadata")
  | Wrapf _ _ inner => is_incomplete inner
  end.

Definition maintenance_name (name : string) : bool := HasPrefix name "gha-image-builder-" || HasPrefix name "gha-image-smoke-".

(** An allocation of an instance of a pool, at the pool's reservation. *)
Definition pool_allocation (name controllerID poolID : string) (pool : FleetConfig.Pool) (poolName fingerprint : string)
    (state : LeaseState) (job location : string) : Allocation := {|
  Alloc_InstanceName := name; Alloc_ControllerID := controllerID; Alloc_PoolID := poolID; Alloc_PoolName := poolName;
  Alloc_VCPU := Reservation_CPUUnits (EffectiveReservation pool); Alloc_CPUAllowanceUnits := FleetConfig.VCPU (Pool_Resources pool);
  Alloc_MemoryMiB := Reservation_MemoryMiB (EffectiveReservation pool); Alloc_ImageFingerprint := fingerprint;
  Alloc_State := state; Alloc_JobName := job; Alloc_Location := location |}.

Definition observe_maintenance (n : nddevAdmission) (instance : IncusInstance) : result Allocation :=
  let name := Instance_Name instance in
  match Profiles instance with
  | [profile] =>
      match find_pool (platform n) profile with
      | None => Err (Errorf "image maintenance instance %q uses unknown profile %q" [name; profile])
      | Some pool =>
          match workerImages n !! Pool_Name pool with
          | None => Err (Errorf "image maintenance profile %q has no worker image policy" [Pool_Name pool])
          | Some image =>
              Ok (pool_allocation name (front_controllerID n) ("image-maintenance/" +:+ Pool_Name pool) pool (Pool_Name pool)
                    (Fingerprint image) StateCreated "" (Location instance))
          end
      end
  | _ => Err (Errorf "image maintenance instance %q has ambiguous profiles" [name])
  end.

Definition active_lease (s : LeaseState) : bool := match s with StateAdmitted | StateCreated | StateDeleting => true | _ => false end.

Definition lease_allocation (l : Lease) (job location : string) : Allocation := {|
  Alloc_InstanceName := Lease_InstanceName l; Alloc_ControllerID := Lease_ControllerID l; Alloc_PoolID := Lease_PoolID l;
  Alloc_PoolName := Lease_PoolName l; Alloc_VCPU := Lease_VCPU l; Alloc_CPUAllowanceUnits := Lease_CPUAllowanceUnits l;
  Alloc_MemoryMiB := Lease_MemoryMiB l; Alloc_ImageFingerprint := Lease_ImageFingerprint l; Alloc_State := Lease_State l;
  Alloc_JobName := job; Alloc_Location := location |}.

(** An instance without metadata is accounted by its lease. *)
Definition observe_incomplete (inv : Inventory) (attempt : nat) (instance : IncusInstance) : result Allocation :=
  let name := Instance_Name instance in
  state ← wrap_err "read provider journal for incomplete instance %q: %w" (ReadOnly (journal_path inv) (disk_at inv attempt name));
  match Leases state !! name with
  | Some lease =>
      if active_lease (Lease_State lease) then Ok (lease_allocation lease name (Location instance))
      else Err (Wrapf "%w: instance %q has no flavor and no active provider lease" [name] errIncompleteInventory)
  | None => Err (Wrapf "%w: instance %q has no flavor and no active provider lease" [name] errIncompleteInventory)
  end.

Definition check_config (instance : IncusInstance) (ke : string * string) : result unit :=
  let actual := config_of instance ke.1 in
  fail_if (negb (bool_decide (actual = ke.2))) (Errorf "instance %q has %s=%q, expected %q" [Instance_Name instance; ke.1; actual; ke.2]).

Definition check_capability (instance : IncusInstance) (ka : string * list string) : result unit :=
  let actual := config_of instance ka.1 in
  fail_if (negb (bool_decide (actual ∈ ka.2))) (Errorf "instance %q has %s=%q, which no pool declares" [Instance_Name instance; ka.1; actual]).

Definition known_lifecycle (l : string) : bool :=
  bool_decide (l = lifecycleEphemeralOneJob) || bool_decide (l = lifecycleWarmPreparing) || bool_decide (l = lifecycleWarmUnregistered).

Definition fingerprint_allowed (image : WorkerImage) (lifecycle actual : string) : bool :=
  if bool_decide (lifecycle = lifecycleEphemeralOneJob) then AllowsExistingFingerprint image actual
  else bool_decide (actual = Fingerprint image).

Definition identity_of (instance : IncusInstance) : ProviderIdentity :=
  {| Identity_Version := config_of instance providerVersionKey; Identity_Commit := config_of instance providerCommitKey |}.

(** No job has touched a warm instance. *)
Definition unowned (instance : IncusInstance) (flavor : string) : bool :=
  bool_decide (config_of instance poolIDKey = warmPoolIDPrefix +:+ flavor) && bool_decide (config_of instance repositoryKey = "")
  && bool_decide (config_of instance garmJobNameKey = "").

Definition warm_checks (instance : IncusInstance) (flavor lifecycle : string) : result LeaseState :=
  let name := Instance_Name instance in
  let ready := bool_decide (config_of instance warmReadyKey = "true") in
  if bool_decide (lifecycle = lifecycleWarmUnregistered) then
    fail_if (negb ready) (Errorf "warm instance %q is unregistered but not marked ready" [name]);;
    fail_if (negb (unowned instance flavor)) (Errorf "warm instance %q contains job ownership metadata" [name]);;
    Ok StateWarmReady
  else if bool_decide (lifecycle = lifecycleWarmPreparing) then
    fail_if (negb (unowned instance flavor) || ready)
      (Errorf "preparing warm instance %q has invalid readiness or ownership metadata" [name]);;
    Ok StateCreated
  else Ok StateCreated.

Definition observe_managed (n : nddevAdmission) (instance : IncusInstance) (flavor : string) : result Allocation :=
  let name := Instance_Name instance in
  match find_pool (platform n) flavor with
  | None => Err (Errorf "instance %q has unknown flavor %q" [name; flavor])
  | Some pool =>
      match workerImages n !! flavor with
      | None => Err (Errorf "instance %q flavor %q has no pinned worker image" [name; flavor])
      | Some image =>
          let '(wantedType, securityChecks) := managedSecurityContract image in
          fail_if (negb (bool_decide (Instance_Type instance = wantedType)))
            (Errorf "instance %q has type %q, expected %q" [name; Instance_Type instance; wantedType]);;
          let lifecycle := config_of instance lifecycleKey in
          fail_if (negb (known_lifecycle lifecycle)) (Errorf "instance %q has unsupported lifecycle %q" [name; lifecycle]);;
          let actualFingerprint := config_of instance imageFingerprintKey in
          fail_if (negb (fingerprint_allowed image lifecycle actualFingerprint))
            (Errorf "instance %q has %s=%q, expected exact current fingerprint for lifecycle %q or declared N-1 for an executing one-job worker"
               [name; imageFingerprintKey; actualFingerprint; lifecycle]);;
          fail_if (bool_decide (lifecycle = lifecycleEphemeralOneJob)
                   && negb (AllowsProviderIdentity (PreviousProviderIdentities n) (identity_of instance) (build n)))
            (Errorf "instance %q has unsupported provider identity %q@%q, current is %q@%q" [name]);;
          forM ([(controllerIDKeyName, front_controllerID n); (imageAliasKey, Image_Alias image); (osTypeKeyName, "linux");
                 (osArchKeyNAme, "amd64")] ++ drop 1 securityChecks) (check_config instance);;
          forM [(trustKey, Trust pool); (scaleSetKey, Pool_ScaleSetName pool)] (check_config instance);;
          forM [(networkPolicyKey, ["github-cache-only"; "public-internet"; "release-allowlist"]);
                (cacheWriteScopeKey, ["none"; "isolated"; "trusted"])] (check_capability instance);;
          state ← warm_checks instance flavor lifecycle;
          Ok (pool_allocation name (config_of instance controllerIDKeyName) (config_of instance poolIDKey) pool flavor actualFingerprint
                state (config_of instance garmJobNameKey) (Location instance))
      end
  end.

(** One turn of the loop: [None] for an instance that is not counted. *)
Definition observe_instance (n : nddevAdmission) (inv : Inventory) (attempt : nat) (instance : IncusInstance) : result (option Allocation) :=
  let flavor := config_of instance flavorKey in
  if bool_decide (flavor = "") then
    if maintenance_name (Instance_Name instance) then a ← observe_maintenance n instance; Ok (Some a)
    else if bool_decide (Instance_Status instance = "Stopped") then Ok None
    else a ← observe_incomplete inv attempt instance; Ok (Some a)
  else a ← observe_managed n instance flavor; Ok (Some a).

Definition observeAllocationsOnce (n : nddevAdmission) (inv : Inventory) (attempt : nat) : result (list Allocation) :=
  instances ← wrap_err "observe Incus allocations: %w" (GetInstances inv attempt);
  foldM (λ acc instance, oa ← observe_instance n inv attempt instance; Ok (acc ++ option_list oa)) instances [].

(** Two attempts; only an incomplete inventory is taken again. *)
Definition observedAllocations (n : nddevAdmission) (inv : Inventory) : result (list Allocation) :=
  alive inv 0;;
  match observeAllocationsOnce n inv 0 with
  | Ok allocations => Ok allocations
  | Err e => if is_incomplete e then alive inv 1;; observeAllocationsOnce n inv 1 else Err e
  end.

(** ** Operations *)

(** What the world answers during one call. *)
Record Call := {
  call_spool : result Z;                  (* bytes of diagnostics held back *)
  call_ctx : result unit;
  call_queue : QueueFile;
  call_queue_now : Time;
  call_inventory : Inventory;
  call_cluster : ClusterServer;
  call_collect : result HostObservation;
  call_host_now : Time;
  call_store : Env;
  call_now : Time;
}.

Section operations.
Context (encoded_size : Journal → Z) (walk : gmap string Time → list (string * Time)).

Definition ResolveRepository (n : nddevAdmission) (call : Call) (b : BootstrapInstance) : result string :=
  match find_pool (platform n) (Flavor b) with
  | None => Err (Errorf "pool policy %q does not exist" [Flavor b])
  | Some pool =>
      QueueReader.RepositoryForScaleSet walk (call_ctx call) (call_queue_now call) (bootstrapOwner b) (Pool_ScaleSetName pool) (call_queue call)
  end.

(** An intent that still waits for capacity. *)
Definition waiting (s : queueIntentState) : bool :=
  match s with queueStateQueued | queueStateAcquiring | queueStateAcquired | queueStateAssigned => true | _ => false end.

Definition yields_to (n : nddevAdmission) (poolName : string) (memoryMiB : Z) (i : queueIntent) : bool :=
  waiting (QueueIntent.State i) &&
  match PoolByScaleSet (platform n) (ScaleSetName i) with
  | None => false
  | Some other =>
      let memory := Resources_MemoryMiB (Pool_Resources other) in
      (memoryMiB <? memory) || (memory =? memoryMiB) && negb (bool_decide (Pool_Name other = poolName))
  end.

Definition WarmYieldsToJobs (n : nddevAdmission) (call : Call) (poolName : string) (memoryMiB : Z) : result bool :=
  match find_pool (platform n) poolName with
  | None => Err (Errorf "pool policy %q does not exist" [poolName])
  | Some _ =>
      snapshot ← wrap_err "read queue intents for warm yield: %w" (ReadActive walk (call_ctx call) (call_queue_now call) (call_queue call));
      Ok (existsb (yields_to n poolName memoryMiB) (Snapshot_Active snapshot))
  end.

(** [pool, exists := ...] and the queue's authorization of the create. *)
Definition authorized_pool (n : nddevAdmission) (call : Call) (b : BootstrapInstance) : result FleetConfig.Pool :=
  match find_pool (platform n) (Flavor b) with
  | None => Err (Errorf "pool policy %q does not exist" [Flavor b])
  | Some pool =>
      queueAuthorized ← wrap_err "read pre-AcquireJobs queue intent: %w"
        (ActiveForScaleSet walk (call_ctx call) (call_queue_now call) (bootstrapOwner b) (Pool_ScaleSetName pool) (call_queue call));
      fail_if (negb queueAuthorized)
        (Errorf "pool %q has no active pre-AcquireJobs queue intent for scale set %q of account %q"
           [Flavor b; Pool_ScaleSetName pool; bootstrapOwner b]);;
      Ok pool
  end.

Definition coldRequest (n : nddevAdmission) (b : BootstrapInstance) : result AdmitRequest :=
  match find_pool (platform n) (Flavor b) with
  | None => Err (Errorf "pool policy %q does not exist" [Flavor b])
  | Some pool =>
      match workerImages n !! Flavor b with
      | None => Err (Errorf "pool %q has no pinned worker image" [Flavor b])
      | Some image =>
          Ok {| Req_Allocation := pool_allocation (Bootstrap_Name b) (front_controllerID n) (Bootstrap_PoolID b) pool (Flavor b)
                                    (Fingerprint image) (OtherLeaseState "") "" "";
                QueueIntentAuthorized := true |}
      end
  end.

Definition fleet_state (n : nddevAdmission) (call : Call) (pool : FleetConfig.Pool) : result HostSnapshot :=
  fleetHostState (call_cluster call) (call_collect call) (platform n) pool (pressurePolicy n) (call_host_now call).

(** Everything [Admit] finds out before it asks the controller. *)
Definition admit_inputs (n : nddevAdmission) (call : Call) (b : BootstrapInstance)
    : result (HostSnapshot * list Allocation * AdmitRequest) :=
  pool ← authorized_pool n call b;
  fail_if ((FleetConfig.VCPU (Pool_Resources pool) <=? 0) || (Resources_MemoryMiB (Pool_Resources pool) <=? 0) || (MaxRunning pool <=? 0))
    (Errorf "pool policy %q has invalid resources" [Flavor b]);;
  observed ← observedAllocations n (call_inventory call);
  host ← fleet_state n call pool;
  request ← coldRequest n b;
  Ok (host, observed, request).

Definition wal_refusal (pool : string) : Decision := {|
  Decision_Admitted := false; DecisionReason := ReasonDiagnosticWAL; Admission.Pool := pool; RequiredCPUReserve := 0; RequiredMemoryReserve := 0;
  RemainingCPUUnits := 0; RemainingCPUAllowanceUnits := 0; RemainingMemoryMiB := 0; RemainingAvailableMiB := 0 |}.

Definition Admit (n : nddevAdmission) (call : Call) (b : BootstrapInstance) (disk : Disk) : Disk * result AdmissionResult :=
  match diagnosticsBlocked n (call_spool call) with
  | Err e => (disk, Err e)
  | Ok true => (disk, Ok {| Result_Decision := wal_refusal (Flavor b); PreemptedWarmWorkers := [] |})
  | Ok false =>
      match admit_inputs n call b with
      | Err e => (disk, Err e)
      | Ok (host, observed, request) =>
          AdmitPreemptible encoded_size (controller n) (call_store call) host observed request (call_now call) disk
      end
  end.

Definition PreemptForPlacement (n : nddevAdmission) (call : Call) (b : BootstrapInstance) (disk : Disk) : Disk * result AdmissionResult :=
  match find_pool (platform n) (Flavor b) with
  | None => (disk, Err (Errorf "pool policy %q does not exist" [Flavor b]))
  | Some pool =>
      match (observed ← observedAllocations n (call_inventory call);
             host ← fleet_state n call pool;
             request ← coldRequest n b;
             Ok (host, observed, request)) with
      | Err e => (disk, Err e)
      | Ok (host, observed, request) =>
          ProviderAdmission.PreemptForPlacement encoded_size (controller n) (call_store call) host observed request (call_now call) disk
      end
  end.

Definition AdmitWarm (n : nddevAdmission) (call : Call) (flavor instanceName : string) (disk : Disk) : Disk * result Decision :=
  match diagnosticsBlocked n (call_spool call) with
  | Err e => (disk, Err e)
  | Ok true => (disk, Ok (wal_refusal flavor))
  | Ok false =>
      match find_pool (platform n) flavor with
      | None => (disk, Err (Errorf "pool policy %q does not exist" [flavor]))
      | Some pool =>
          match workerImages n !! flavor with
          | None => (disk, Err (Errorf "pool %q has no pinned worker image" [flavor]))
          | Some image =>
              match (observed ← observedAllocations n (call_inventory call); host ← fleet_state n call pool; Ok (host, observed)) with
              | Err e => (disk, Err e)
              | Ok (host, observed) =>
                  ProviderAdmission.Admit encoded_size (controller n) (call_store call) host observed
                    {| Req_Allocation := pool_allocation instanceName (front_controllerID n) (warmPoolIDPrefix +:+ flavor) pool flavor
                                           (Fingerprint image) (OtherLeaseState "") "" "";
                       QueueIntentAuthorized := false |} (call_now call) disk
              end
          end
      end
  end.

Definition ClaimWarm (n : nddevAdmission) (call : Call) (b : BootstrapInstance) (disk : Disk) : Disk * result WarmClaimResult :=
  match (pool ← authorized_pool n call b;
         observed ← observedAllocations n (call_inventory call);
         match workerImages n !! Flavor b with
         | None => Err (Errorf "pool %q has no pinned worker image" [Flavor b])
         | Some image => Ok (observed, image)
         end) with
  | Err e => (disk, Err e)
  | Ok (observed, image) =>
      ProviderAdmission.ClaimWarm encoded_size (controller n) (call_store call) observed
        {| WCR_JobName := Bootstrap_Name b; WCR_ControllerID := front_controllerID n; WCR_PoolID := Bootstrap_PoolID b;
           WCR_PoolName := Flavor b; WCR_ImageFingerprint := Fingerprint image |} (call_now call) disk
  end.

Definition Reconcile (n : nddevAdmission) (call : Call) (disk : Disk) : Disk * result unit :=
  match observedAllocations n (call_inventory call) with
  | Err e => (disk, Err e)
  | Ok observed => ProviderAdmission.Reconcile encoded_size (controller n) (call_store call) observed (call_now call) disk
  end.

(** Passed on to the controller as they are. *)
Definition AuthorizeWarmDrain (n : nddevAdmission) (call : Call) (instanceName : string) (disk : Disk) : Disk * result unit :=
  ProviderAdmission.AuthorizeWarmDrain encoded_size (controller n) (call_store call) instanceName disk.
Definition MarkWarmInjected (n : nddevAdmission) (call : Call) (jobName instanceName : string) (disk : Disk) : Disk * result unit :=
  ProviderAdmission.MarkWarmInjected encoded_size (controller n) (call_store call) jobName instanceName (call_now call) disk.
Definition Resolve (n : nddevAdmission) (call : Call) (identifier : string) (disk : Disk) : result string :=
  ProviderAdmission.Resolve (controller n) (call_store call) identifier disk.
Definition MarkCreated (n : nddevAdmission) (call : Call) (instanceName : string) (disk : Disk) : Disk * result unit :=
  ProviderAdmission.MarkCreated encoded_size (controller n) (call_store call) instanceName (call_now call) disk.
Definition MarkDeleting (n : nddevAdmission) (call : Call) (instanceName : string) (disk : Disk) : Disk * result unit :=
  ProviderAdmission.MarkDeleting encoded_size (controller n) (call_store call) instanceName (call_now call) disk.
Definition Release (n : nddevAdmission) (call : Call) (clock : string → Time) (instanceName : string) (disk : Disk) : Disk * result unit :=
  ProviderAdmission.Release encoded_size (controller n) (call_store call) clock instanceName disk.

End operations.
