(* ===== verification/NDDevAdmissionFacts.v ===== *)
(** * Facts about the provider's admission front

    An admission granted through the front has an admitted queue intent of the
    account that asked, a member that may take the work, and a lease at the pool's
    reservation that every later read of the journal shows. *)

From S2P Require Import Prelude Admission ProviderJournal ProviderStore PressureGate PressurePublish QueueIntent QueueOps Tenant QueueReader FleetConfig FleetConfigFacts.
From S2P Require Import HostProbe ProviderHost ProviderAdmission ProviderAdmissionFacts NDDevAdmission.

Local Open Scope Z_scope.
Local Open Scope go_scope.

(** ** A grant of the controller *)

(** A successful transaction is what every later read sees. *)
Lemma Update_Ok_seen {R} size env disk (mutate : Journal → result (Journal * R)) disk' j r :
  Update size env disk mutate = (disk', Ok (j, r)) →
  ∃ before j0, readUnlocked disk = Ok before ∧ mutate before = Ok (j0, r) ∧
    ∀ after, readUnlocked disk' = Ok after → Leases after = Leases j0 ∧ Claims after = Claims j0.
Proof.
  intros H. apply Update_cases in H as [[-> [e He]]|(before & j0 & r0 & Hb & Hm & Hw & [(HE & -> & Hr)|(HE & HW & Hres)])]; [done|..];
    exists before, j0.
  - injection Hr as <- <-. split_and!; [done..|]. intros after Hread. rewrite Hb in Hread. injection Hread as <-.
    by apply journalsEqual_spec in HE as (_ & _ & Hl & Hc).
  - specialize (Hres _ eq_refl). injection Hres as -> ->. split_and!; [done..|]. intros after Hread.
    apply writeUnlocked_atomic in HW as [[-> [e He]]| -> ]; [done|].
    by apply readUnlocked_encode_inv in Hread as ->; [|apply stamp_wf].
Qed.

Lemma Evaluate_admitted_healthy s p r d : Admission.Evaluate s p r = Ok d → Decision_Admitted d = true → Healthy s = true.
Proof.
  unfold Admission.Evaluate. intros H. apply bind_Ok in H as ([] & _ & H). injection H as <-. cbn [Decision_Admitted].
  rewrite bool_decide_eq_true. unfold decide_reason. by destruct (Healthy s).
Qed.

Lemma leaseMatches_renew c now l a : leaseMatches (renew c now l) a = leaseMatches l a.
Proof. done. Qed.

Lemma leaseMatches_new a state now ttl : leaseMatches (new_lease a state now ttl) a = Ok tt.
Proof. unfold leaseMatches. cbn. by rewrite !bool_decide_eq_true_2. Qed.

Lemma leaseMatches_preempted target l a : leaseMatches (lease_set_preempted target l) a = leaseMatches l a.
Proof. done. Qed.

(** Whether the instance is new or known, a grant means a healthy host and a lease
    that matches the request. *)
Lemma admit_mutation_granted c host obs request allow now j j' res :
  admit_mutation c host obs request allow now j = Ok (j', res) → Decision_Admitted (Result_Decision res) = true →
  Healthy host = true ∧
  ∃ l, Leases j' !! Alloc_InstanceName (Req_Allocation request) = Some l ∧ leaseMatches l (Req_Allocation request) = Ok tt.
Proof.
  intros H Hadm. pose proof H as H0. unfold admit_mutation in H0. apply bind_Ok in H0 as (jr & Hr & H0).
  destruct (Leases jr !! Alloc_InstanceName (Req_Allocation request)) as [existing|] eqn:Hl.
  - apply bind_Ok in H0 as ([] & Hmatch & H0). apply bind_Ok in H0 as (d & HE & H0). revert H0.
    destruct (negb _ && _) eqn:Hneg; intros H0%Ok_inj; injection H0 as <- <-; cbn in Hadm.
    + rewrite Hadm in Hneg. done.
    + split; [by apply (Evaluate_admitted_healthy _ _ _ _ HE)|]. cbn [Leases with_leases].
      rewrite lookup_update_leases by (intros; apply renew_idem). rewrite lookup_insert_eq.
      case_decide; eexists; (split; [done|]); by rewrite ?leaseMatches_renew.
  - destruct (admit_new_cases _ _ _ _ _ _ _ _ _ _ Hr Hl H) as [[Hno _]|(_ & _ & [av HE] & _ & Hls)]; [congruence|].
    split; [by apply (Evaluate_admitted_healthy _ _ _ _ HE)|]. rewrite Hls, lookup_marked, lookup_insert_eq.
    case_decide; eexists; (split; [done|]); rewrite ?leaseMatches_renew, ?leaseMatches_preempted; apply leaseMatches_new.
Qed.

Record lease_for (n : nddevAdmission) (b : BootstrapInstance) (pool : FleetConfig.Pool) (image : WorkerImage) (l : Lease) : Prop := {
  lease_for_name : Lease_InstanceName l = Bootstrap_Name b;
  lease_for_controller : Lease_ControllerID l = front_controllerID n;
  lease_for_pool : Lease_PoolID l = Bootstrap_PoolID b ∧ Lease_PoolName l = Flavor b;
  lease_for_cpu : Lease_VCPU l = Reservation_CPUUnits (EffectiveReservation pool);
  lease_for_memory : Lease_MemoryMiB l = Reservation_MemoryMiB (EffectiveReservation pool);
  lease_for_image : Lease_ImageFingerprint l = Fingerprint image;
}.

Lemma leaseMatches_fields l n b pool image :
  leaseMatches l (pool_allocation (Bootstrap_Name b) (front_controllerID n) (Bootstrap_PoolID b) pool (Flavor b) (Fingerprint image) (OtherLeaseState "") "" "") = Ok tt →
  lease_for n b pool image l.
Proof. unfold leaseMatches. intros H. inv_ok. bool_hyps. split; try done. Qed.

(** The intent that authorized a create. *)
Definition authorizes_create (walk : gmap string Time → list (string * Time)) (call : Call) (b : BootstrapInstance) (pool : FleetConfig.Pool) (i : queueIntent) : Prop :=
  ∃ j, readJournal (call_queue call) = Ok j ∧ i ∈ Snapshot_Active (snapshot_of walk (call_queue_now call) j) ∧
    ScaleSetName i = Pool_ScaleSetName pool ∧ OwnerAccount i = bootstrapOwner b ∧ QueueIntent.State i ≠ queueStateQueued.

Lemma authorized_pool_Ok walk n call b pool :
  authorized_pool walk n call b = Ok pool → find_pool (platform n) (Flavor b) = Some pool ∧ ∃ i, authorizes_create walk call b pool i.
Proof.
  unfold authorized_pool. destruct (find_pool (platform n) (Flavor b)) as [pool0|] eqn:Hp; [|done]. intros H.
  apply bind_Ok in H as (yes & Hact%wrap_err_Ok & H). apply bind_Ok in H as ([] & Hyes%fail_if_Ok & H). apply Ok_inj in H as ->.
  apply negb_false_iff in Hyes as ->. split; [done|]. unfold ActiveForScaleSet in Hact.
  apply bind_Ok in Hact as ([] & _ & Hact). apply bind_Ok in Hact as ([] & _ & Hact). apply bind_Ok in Hact as (s & Hs & Hact%Ok_inj).
  unfold ReadActive in Hs. apply bind_Ok in Hs as ([] & _ & Hs). apply bind_Ok in Hs as (j & Hj & <-%Ok_inj).
  apply existsb_exists in Hact as (i & Hin%list_elem_of_In & Hserves). unfold serves in Hserves. bool_hyps. exists i, j. done.
Qed.

(** What a grant rests on, beside the lease: some member of a gated cluster may
    take the work. *)
Definition may_place (n : nddevAdmission) (call : Call) : Prop :=
  ∀ members, ServerClustered (call_cluster call) = Ok true → Required (pressurePolicy n) = true →
    sized (call_cluster call) → GetClusterMembers (call_cluster call) = Ok members → Z.of_nat (length members) ≤ 2 ^ 16 →
    ∃ m state sample, m ∈ members ∧ open_member (call_cluster call) (pressurePolicy n) (call_host_now call) m state sample.

Lemma healthy_may_place n call pool host :
  validated (platform n) → fleet_state n call pool = Ok host → Healthy host = true → may_place n call.
Proof.
  intros Hv Hf Hh members Hcl Hreq Hs Hm Hlen. unfold fleet_state, fleetHostState in Hf. rewrite Hcl in Hf. cbn [wrap_err mbind result_bind] in Hf.
  by apply (cluster_healthy_open _ (platform n) _ _ members host).
Qed.

(** C4: An admission that the provider grants is justified. The queue journal holds an
    intent of the account whose repository GARM asked for, past central admission,
    for the scale set of the pool; the inventory of Incus could be accounted for;
    in a gated cluster some online member has a valid open gate; and every later
    read of the provider's journal shows a lease of the instance for this
    controller at the pool's reservation and the image pinned for the pool. *)
Theorem provider_admission_justified size walk (n : nddevAdmission) (call : Call) (b : BootstrapInstance) (disk disk' : Disk) (r : AdmissionResult) :
  FleetConfig.Validate (platform n) = None →
  NDDevAdmission.Admit size walk n call b disk = (disk', Ok r) → Decision_Admitted (Result_Decision r) = true →
  ∃ pool image, find_pool (platform n) (Flavor b) = Some pool ∧ workerImages n !! Flavor b = Some image ∧
    (∃ i, authorizes_create walk call b pool i) ∧
    is_Ok (observedAllocations n (call_inventory call)) = true ∧
    may_place n call ∧
    ∀ after, readUnlocked disk' = Ok after → ∃ l, Leases after !! Bootstrap_Name b = Some l ∧ lease_for n b pool image l.
Proof.
  intros Hv%Validate_validated H Hadm. unfold NDDevAdmission.Admit in H.
  destruct (diagnosticsBlocked n (call_spool call)) as [[]|]; [injection H as <- <-; done| |done].
  destruct (admit_inputs walk n call b) as [[[host observed] request]|] eqn:Hin; [|done].
  unfold admit_inputs in Hin. apply bind_Ok in Hin as (pool & Hpool & Hin). apply authorized_pool_Ok in Hpool as [Hp Hi].
  apply bind_Ok in Hin as ([] & _ & Hin). apply bind_Ok in Hin as (obs & Hobs & Hin). apply bind_Ok in Hin as (host0 & Hhost & Hin).
  apply bind_Ok in Hin as (req & Hreq & Hin%Ok_inj). injection Hin as -> -> ->.
  unfold coldRequest in Hreq. rewrite Hp in Hreq. destruct (workerImages n !! Flavor b) as [image|] eqn:Himg; [|done].
  apply Ok_inj in Hreq. unfold AdmitPreemptible, admit_with, locked in H.
  destruct (request_checks _ _ _ _) as [seen|]; [|done].
  destruct (Update size _ disk _) as [d [[j0 r0]|e]] eqn:HU; [|done]. injection H as <- <-.
  apply Update_Ok_seen in HU as (before & j & _ & Hmut & Hafter). apply admit_mutation_granted in Hmut as (Hhealthy & l & Hl & Hmatch); [|done].
  exists pool, image. split_and!; [done..|by rewrite Hobs| |].
  - by apply (healthy_may_place n call pool host).
  - intros after [Hls _]%Hafter. subst request. exists l. rewrite Hls. split; [done|]. by apply leaseMatches_fields.
Qed.

(** ** The inventory *)

(** Only a stopped instance without metadata is left out. *)
Definition counts (instance : IncusInstance) : bool :=
  negb (bool_decide (config_of instance flavorKey = "") && negb (maintenance_name (Instance_Name instance))
        && bool_decide (Instance_Status instance = "Stopped")).

(** A warm instance ready for a job: the current image and security settings of
    its pool, and no trace of a job. *)
Record pristine (n : nddevAdmission) (instance : IncusInstance) (a : Allocation) : Prop := {
  pristine_image : ∃ image, workerImages n !! Alloc_PoolName a = Some image ∧ Alloc_ImageFingerprint a = Fingerprint image ∧
    Instance_Type instance = (managedSecurityContract image).1 ∧
    ∀ key expected, (key, expected) ∈ (managedSecurityContract image).2 → config_of instance key = expected;
  pristine_owner : Alloc_PoolID a = warmPoolIDPrefix +:+ Alloc_PoolName a ∧ Alloc_JobName a = "" ∧ config_of instance repositoryKey = "";
  pristine_ready : config_of instance warmReadyKey = "true";
}.

(** How an instance is charged: at the reservation of its pool, or by its lease. *)
Definition charged_as (n : nddevAdmission) (inv : Inventory) (attempt : nat) (instance : IncusInstance) (a : Allocation) : Prop :=
  (∃ pool, pool ∈ Pools (platform n) ∧ Alloc_PoolName a = Pool_Name pool ∧
     Alloc_VCPU a = Reservation_CPUUnits (EffectiveReservation pool) ∧ Alloc_CPUAllowanceUnits a = FleetConfig.VCPU (Pool_Resources pool) ∧
     Alloc_MemoryMiB a = Reservation_MemoryMiB (EffectiveReservation pool)) ∨
  (∃ j lease, readUnlocked (disk_at inv attempt (Instance_Name instance)) = Ok j ∧ Leases j !! Instance_Name instance = Some lease ∧
     active_lease (Lease_State lease) = true ∧ a = lease_allocation lease (Instance_Name instance) (Location instance)).

Record accounted (n : nddevAdmission) (inv : Inventory) (attempt : nat) (instance : IncusInstance) (a : Allocation) : Prop := {
  accounted_name : Alloc_InstanceName a = Instance_Name instance;
  accounted_location : Alloc_Location a = Location instance;
  accounted_charge : charged_as n inv attempt instance a;
  accounted_warm : Alloc_State a = StateWarmReady → pristine n instance a;
}.

Lemma find_pool_Some c name p : find_pool c name = Some p → p ∈ Pools c ∧ Pool_Name p = name.
Proof. unfold find_pool. intros [Hin Hn]%find_some. split; [by apply list_elem_of_In|by apply bool_decide_eq_true in Hn]. Qed.

Lemma observe_maintenance_accounted n inv attempt instance a :
  observe_maintenance n instance = Ok a → accounted n inv attempt instance a.
Proof.
  unfold observe_maintenance. destruct (Profiles instance) as [|profile [|]]; [done| |done].
  destruct (find_pool (platform n) profile) as [pool|] eqn:Hp; [|done]. destruct (workerImages n !! Pool_Name pool) as [image|]; [|done].
  intros <-%Ok_inj. apply find_pool_Some in Hp as [Hin Hname]. split; [done|done| |done]. left. exists pool. done.
Qed.

Lemma observe_incomplete_accounted n inv attempt instance a :
  observe_incomplete inv attempt instance = Ok a → accounted n inv attempt instance a.
Proof.
  unfold observe_incomplete. intros H. apply bind_Ok in H as (j & Hj%wrap_err_Ok & H). unfold ReadOnly in Hj. apply bind_Ok in Hj as ([] & _ & Hj).
  destruct (Leases j !! Instance_Name instance) as [lease|] eqn:Hl; [|done].
  destruct (active_lease (Lease_State lease)) eqn:Hact; [|done]. apply Ok_inj in H. subst a. pose proof (readUnlocked_wf _ _ Hj) as Hwf. split.
  - by apply (jw_leases _ Hwf).
  - done.
  - right. eauto 10.
  - cbn. intros Hs. rewrite Hs in Hact. done.
Qed.

Lemma check_config_all instance checks u :
  forM checks (check_config instance) = Ok u → ∀ key expected, (key, expected) ∈ checks → config_of instance key = expected.
Proof.
  intros H key expected Hin. rewrite forM_Ok in H. specialize (H _ Hin). apply fail_if_Ok in H. by bool_hyps.
Qed.

(** The alias is the first of the security checks, and it is checked with the identity. *)
Lemma security_checks image controllerID instance u :
  forM ([(controllerIDKeyName, controllerID); (imageAliasKey, Image_Alias image); (osTypeKeyName, "linux"); (osArchKeyNAme, "amd64")]
        ++ drop 1 (managedSecurityContract image).2) (check_config instance) = Ok u →
  ∀ key expected, (key, expected) ∈ (managedSecurityContract image).2 → config_of instance key = expected.
Proof.
  intros H key expected Hin. apply (check_config_all _ _ _ H). apply elem_of_app.
  assert ((managedSecurityContract image).2 = (imageAliasKey, Image_Alias image) :: drop 1 (managedSecurityContract image).2) as Heq
    by (unfold managedSecurityContract; by destruct (bool_decide _)).
  rewrite Heq in Hin. apply elem_of_cons in Hin as [->|Hin]; [left|by right]. apply elem_of_cons. right. apply list_elem_of_here.
Qed.

Lemma warm_checks_ready instance flavor lifecycle state :
  warm_checks instance flavor lifecycle = Ok state → state = StateWarmReady →
  lifecycle = lifecycleWarmUnregistered ∧ config_of instance warmReadyKey = "true" ∧ unowned instance flavor = true.
Proof.
  unfold warm_checks. destruct (bool_decide (lifecycle = lifecycleWarmUnregistered)) eqn:Hl.
  - intros H _. inv_ok. bool_hyps. done.
  - destruct (bool_decide (lifecycle = lifecycleWarmPreparing)); intros H ->; [|done]. inv_ok. done.
Qed.

Lemma observe_managed_accounted n inv attempt instance a :
  observe_managed n instance (config_of instance flavorKey) = Ok a → accounted n inv attempt instance a.
Proof.
  unfold observe_managed. set (flavor := config_of instance flavorKey).
  destruct (find_pool (platform n) flavor) as [pool|] eqn:Hp; [|done]. destruct (workerImages n !! flavor) as [image|] eqn:Himg; [|done].
  destruct (managedSecurityContract image) as [wantedType checks] eqn:Hc. intros H.
  apply bind_Ok in H as ([] & Htype%fail_if_Ok & H). apply bind_Ok in H as ([] & _ & H). apply bind_Ok in H as ([] & Hfp%fail_if_Ok & H).
  apply bind_Ok in H as ([] & _ & H). apply bind_Ok in H as ([] & Hsec & H). apply bind_Ok in H as ([] & _ & H). apply bind_Ok in H as ([] & _ & H).
  apply bind_Ok in H as (state & Hwarm & <-%Ok_inj). apply find_pool_Some in Hp as [Hin Hname].
  split; [done|done| |].
  - left. exists pool. cbn. split_and!; done.
  - cbn. intros Hready. apply warm_checks_ready in Hwarm as (Hl & Hr & Hun); [|done]. unfold unowned in Hun. bool_hyps. split; cbn; [|done|done].
    exists image. rewrite Hc. split_and!; [done| |done|].
    + unfold fingerprint_allowed in Hfp. rewrite Hl in Hfp. rewrite (bool_decide_eq_false_2 (lifecycleWarmUnregistered = _)) in Hfp by done.
      by bool_hyps.
    + replace checks with (managedSecurityContract image).2 in Hsec |- * by (by rewrite Hc). by apply (security_checks image _ instance tt Hsec).
Qed.

Lemma observe_instance_accounted n inv attempt instance oa :
  observe_instance n inv attempt instance = Ok oa →
  match oa with Some a => counts instance = true ∧ accounted n inv attempt instance a | None => counts instance = false end.
Proof.
  unfold observe_instance, counts. destruct (bool_decide (config_of instance flavorKey = "")) eqn:Hf; cbn [andb].
  2:{ intros (a & Ha & <-%Ok_inj)%bind_Ok. split; [done|]. by apply observe_managed_accounted. }
  destruct (maintenance_name (Instance_Name instance)) eqn:Hm; cbn [andb negb].
  { intros (a & Ha & <-%Ok_inj)%bind_Ok. split; [done|]. by apply observe_maintenance_accounted. }
  destruct (bool_decide (Instance_Status instance = "Stopped")) eqn:Hs; [by intros <-%Ok_inj|].
  intros (a & Ha & <-%Ok_inj)%bind_Ok. split; [done|]. by apply observe_incomplete_accounted.
Qed.

Lemma observe_loop n inv attempt instances acc res :
  foldM (λ acc instance, oa ← observe_instance n inv attempt instance; Ok (acc ++ option_list oa)) instances acc = Ok res →
  ∃ allocations, res = acc ++ allocations ∧ Forall2 (accounted n inv attempt) (List.filter counts instances) allocations.
Proof.
  revert acc. induction instances as [|instance instances IH]; intros acc H; cbn [foldM] in H.
  { apply Ok_inj in H as ->. exists []. by rewrite app_nil_r. }
  apply bind_Ok in H as (acc' & Hi & H). apply bind_Ok in Hi as (oa & Hoa & <-%Ok_inj). apply observe_instance_accounted in Hoa.
  apply IH in H as (allocations & -> & Hall). cbn [List.filter]. destruct oa as [a|].
  - destruct Hoa as [-> Ha]. exists (a :: allocations). rewrite <-app_assoc. by split; [|constructor].
  - rewrite Hoa. exists allocations. by rewrite app_nil_r.
Qed.

(** The inventory loses nothing. When it succeeds, it is that of one listing of
    Incus, the first or, if that was incomplete, the second: every instance of it
    but the stopped ones without metadata is accounted for exactly once, in order,
    under its own name and location, at the reservation of a declared pool or by
    its active lease; and what is reported as ready warm capacity runs the current
    image with its security settings and has never belonged to a job. *)
Theorem inventory_accounts_all (n : nddevAdmission) (inv : Inventory) (allocations : list Allocation) :
  observedAllocations n inv = Ok allocations →
  ∃ attempt instances, (attempt = 0 ∨ attempt = 1)%nat ∧ GetInstances inv attempt = Ok instances ∧
    Forall2 (accounted n inv attempt) (List.filter counts instances) allocations.
Proof.
  assert (∀ attempt, observeAllocationsOnce n inv attempt = Ok allocations → (attempt = 0 ∨ attempt = 1)%nat →
    ∃ attempt instances, (attempt = 0 ∨ attempt = 1)%nat ∧ GetInstances inv attempt = Ok instances ∧
      Forall2 (accounted n inv attempt) (List.filter counts instances) allocations) as Honce.
  { intros attempt H Ha. unfold observeAllocationsOnce in H. apply bind_Ok in H as (instances & Hi%wrap_err_Ok & H).
    apply observe_loop in H as (allocs & -> & Hall). by exists attempt, instances. }
  unfold observedAllocations. intros H. apply bind_Ok in H as ([] & _ & H).
  destruct (observeAllocationsOnce n inv 0) as [allocs|e] eqn:H0; [apply Ok_inj in H as ->; apply (Honce 0%nat); auto|].
  destruct (is_incomplete e); [|done]. apply bind_Ok in H as ([] & _ & H). apply (Honce 1%nat); auto.
Qed.

(** ** A concrete fleet behind the provider's front

    A cluster of three members, one open, one closed and one offline, with two
    instances, an intent of the example account and an empty journal: the theorems
    on the front applied to it. *)

(** ** The cluster *)

Definition time0 : Time := 2 * Hour.

Definition gate0 (state : GateState) (reason : string) : PressureGate.State := {|
  State_SchemaVersion := 1; State_State := state; State_Reason := reason; State_StateSince := time0 - Minute;
  State_ObservedAt := time0 - 10 * Second; State_OOMKillsTotal := 0 |}.

Definition sample0 : Sample := {|
  Sample_ObservedAt := time0 - 10 * Second; Sample_CPUSomeAvg10 := f_int 5; Sample_MemoryFullAvg10 := f_int 0; Sample_IOFullAvg10 := f_int 1;
  Sample_OOMKillsTotal := 0 |}.

Definition member0 (name status : string) (state : GateState) (reason : string) : ClusterMember := {|
  ServerName := name; Status := status; Member_Config := published "all" (Metadata (gate0 state reason) sample0) ∅ |}.

Definition members0 : list ClusterMember :=
  [member0 "runner-1" "Online" StateClosed "cpu-pressure"; member0 "runner-2" "Online" StateOpen "healthy"; member0 "runner-3" "Offline" StateOpen "healthy"].

Definition state0 : MemberState := {|
  TotalRAM := 16384 * mib; FreeRAM := 9000 * mib; BufferRAM := 500 * mib;
  StoragePools := {[ "gha-pool" := {| Space_Total := 160 * 1024 * mib; Space_Used := 40 * 1024 * mib |} ]} |}.

Definition cluster0 : ClusterServer := {|
  ServerClustered := Ok true; GetClusterMembers := Ok members0; GetClusterMemberState := λ _, Ok state0 |}.

Lemma sized0 : sized cluster0.
Proof. intros name state [= <-]. vm_compute. split; [discriminate|reflexivity]. Defined.

Lemma cluster_snapshot_exact_witness :
  ∃ s, clusterHostState cluster0 config0 pressure0 time0 = Ok s ∧ TotalCPUUnits s = 16 ∧ TotalMemoryMiB s = 32768.
Proof.
  destruct (cluster_snapshot_exact cluster0 config0 pressure0 time0 members0) as (s & Hs & _ & Hc & Hm & _).
  - vm_compute. reflexivity.
  - exact sized0.
  - reflexivity.
  - vm_compute. discriminate.
  - exists (member0 "runner-1" "Online" StateClosed "cpu-pressure"). split; [apply list_elem_of_here|reflexivity].
  - exists s. split; [exact Hs|]. rewrite Hc, Hm. split; vm_compute; reflexivity.
Defined.

Example cluster0_snapshot :
  (λ s, (Healthy s, FreeDiskPercent s, PressureAvailable s)) <$>
    (match clusterHostState cluster0 config0 pressure0 time0 with Ok s => Some s | Err _ => None end) = Some (true, 75, true).
Proof. vm_compute. reflexivity. Qed.

(** ** The front *)

Definition image0 : WorkerImage := {|
  Image_Alias := "gha-standard"; Fingerprint := "f2"; PreviousFingerprint := "f1"; Variant := "standard";
  Image_InstanceType := IncusImageContainer; RunnerUID := 1001; RunnerGID := 1001 |}.

Definition release0 : ProviderIdentity := {| Identity_Version := "v0.1.5-nddev.30"; Identity_Commit := "0123456789abcdef0123456789abcdef01234567" |}.

Definition front0 : nddevAdmission := {|
  platform := config0; front_controllerID := "ctl"; workerImages := {[ "standard" := image0 ]}; PreviousProviderIdentities := [];
  build := release0; pressurePolicy := pressure0;
  controller := {| ControllerID := "ctl"; Policy := reservePolicy config0; LeaseTTL := 5 * Minute |}; diagnosticsMaxBytes := 1000 |}.

Example front0_built :
  newNDDevAdmission config0 (Ok "runner-1") (λ _, true) {[ "standard" := image0 ]} [] release0 "ctl" 300 1000 = Ok front0.
Proof. vm_compute. reflexivity. Qed.

Definition contract0 (lifecycle fingerprint : string) : gmap string string := list_to_map [
  (flavorKey, "standard"); (lifecycleKey, lifecycle); (imageFingerprintKey, fingerprint); (providerVersionKey, Identity_Version release0);
  (providerCommitKey, Identity_Commit release0); (controllerIDKeyName, "ctl"); (imageAliasKey, "gha-standard"); (osTypeKeyName, "linux");
  (osArchKeyNAme, "amd64"); ("security.nesting", "false"); ("security.privileged", "false"); ("security.syscalls.intercept.mknod", "false");
  ("security.syscalls.intercept.setxattr", "false"); (trustKey, "trusted"); (scaleSetKey, "nddev-standard");
  (networkPolicyKey, "public-internet"); (cacheWriteScopeKey, "trusted")].

Definition running0 : IncusInstance := {|
  Instance_Name := "garm-1"; Instance_Type := "container"; Instance_Status := "Running"; Profiles := ["standard"];
  ExpandedConfig := <[poolIDKey := "12"]> (<[garmJobNameKey := "garm-1"]> (contract0 lifecycleEphemeralOneJob "f1")); Location := "runner-1" |}.
Definition warm0 : IncusInstance := {|
  Instance_Name := "warm-1"; Instance_Type := "container"; Instance_Status := "Running"; Profiles := ["standard"];
  ExpandedConfig := <[poolIDKey := "warm/standard"]> (<[warmReadyKey := "true"]> (contract0 lifecycleWarmUnregistered "f2")); Location := "runner-2" |}.
Definition gone0 : IncusInstance := {|
  Instance_Name := "garm-0"; Instance_Type := "container"; Instance_Status := "Stopped"; Profiles := []; ExpandedConfig := ∅; Location := "runner-2" |}.

Definition inventory0 : Inventory := {|
  alive := λ _, Ok tt; GetInstances := λ _, Ok [running0; gone0; warm0]; journal_path := Ok tt; disk_at := λ _ _, NotExist |}.

Definition observed0 : list Allocation :=
  [pool_allocation "garm-1" "ctl" "12" standard_pool "standard" "f1" StateCreated "garm-1" "runner-1";
   pool_allocation "warm-1" "ctl" "warm/standard" standard_pool "standard" "f2" StateWarmReady "" "runner-2"].

Lemma inventory_accounts_all_witness :
  observedAllocations front0 inventory0 = Ok observed0 ∧
  ∃ attempt instances, (attempt = 0 ∨ attempt = 1)%nat ∧ GetInstances inventory0 attempt = Ok instances ∧
    Forall2 (accounted front0 inventory0 attempt) (List.filter counts instances) observed0.
Proof.
  split; [vm_compute; reflexivity|]. apply (inventory_accounts_all front0 inventory0 observed0). vm_compute. reflexivity.
Defined.

(** ** One admission *)

Definition assigned0 : queueIntent := {|
  Key := queueIntentKey 42 "job-1"; ScaleSetID := 42; JobID := "job-1"; RunnerRequestID := 99; WorkflowRunID := 0;
  JobDisplayName := "quality"; GitHubRunnerID := 0; ScaleSetName := "nddev-standard"; RunnerName := "";
  QueueIntent.Owner := "example-org"; QueueIntent.Repository := "example-org"; WorkflowRef := "unavailable-before-job-available";
  EventName := "workflow_dispatch"; QueueTime := Hour; FirstQueuedAt := Hour; QueueIntent.State := queueStateAssigned; Priority := 1;
  StateEnteredAt := Hour; UpdatedAt := Hour; ExpiresAt := 3 * Hour |}.

Definition call0 : Call := {|
  call_spool := Ok 100; call_ctx := Ok tt;
  call_queue := stored (λ _, 900) {| QueueIntent.Journal_SchemaVersion := 6; QueueIntent.Generation := 7; QueueIntent.Journal_UpdatedAt := Hour;
    Intents := {[ Key assigned0 := assigned0 ]}; QueueIntent.Repositories := ∅; TerminalJobs := ∅ |};
  call_queue_now := time0; call_inventory := inventory0; call_cluster := cluster0; call_collect := Err (Errorf "not probed" []);
  call_host_now := time0; call_store := {| env_lock := Ok tt; env_now := time0; env_fault := None |}; call_now := time0 |}.

Definition bootstrap0 : BootstrapInstance := {|
  Bootstrap_Name := "garm-2"; RepoURL := "https://github.com/example-org/example-actions"; Flavor := "standard"; Bootstrap_PoolID := "12" |}.

Definition granted0 : Disk * result AdmissionResult := NDDevAdmission.Admit (λ _, 900) map_to_list front0 call0 bootstrap0 NotExist.

Lemma provider_admission_justified_witness :
  ∃ r, granted0.2 = Ok r ∧ Decision_Admitted (Result_Decision r) = true ∧
  ∃ pool image, find_pool (platform front0) (Flavor bootstrap0) = Some pool ∧ workerImages front0 !! Flavor bootstrap0 = Some image ∧
    (∃ i, authorizes_create map_to_list call0 bootstrap0 pool i) ∧
    is_Ok (observedAllocations front0 (call_inventory call0)) = true ∧ may_place front0 call0 ∧
    ∀ after, readUnlocked granted0.1 = Ok after → ∃ l, Leases after !! Bootstrap_Name bootstrap0 = Some l ∧ lease_for front0 bootstrap0 pool image l.
Proof.
  assert (∃ r, granted0.2 = Ok r ∧ Decision_Admitted (Result_Decision r) = true) as (r & Hr & Hadm).
  { eexists. split; vm_compute; reflexivity. }
  exists r. split; [exact Hr|]. split; [exact Hadm|].
  apply (provider_admission_justified (λ _, 900) map_to_list front0 call0 bootstrap0 NotExist granted0.1 r).
  - vm_compute. reflexivity.
  - rewrite <-Hr. apply surjective_pairing.
  - exact Hadm.
Defined.
