(* ===== verification/PilotFacts.v ===== *)
(** * The operator's gate and runtime admission

    [EvaluateColdPilot] is meant to be the same policy that runtime admission
    applies. On an empty standalone host it implies the first admission of the
    pool, except for one condition it does not look at: the aggregate CPU
    allowance. *)

From S2P Require Import Prelude Admission ProviderJournal PressureGate FleetConfig FleetConfigFacts HostProbe ProviderHost.
From S2P Require Import ProviderAdmission NDDevAdmission.

Local Open Scope Z_scope.
Local Open Scope go_scope.

(** Observations of a real machine, and reserves that fit one. *)
Record real_host (r : HostReserve) (h : HostObservation) : Prop := {
  real_cores : 0 < PhysicalCores (Host_CPU h) ≤ 2 ^ 40;
  real_memory : 0 < Memory_AvailableMiB (Host_Memory h) ≤ Memory_TotalMiB (Host_Memory h) ∧ Memory_TotalMiB (Host_Memory h) ≤ 2 ^ 40;
  real_disk : FreePercent (RootFilesystem h) ≤ 100 ∧ FreeInodesPercent (RootFilesystem h) ≤ 100;
  real_reserves : Reserve_CPUUnits r ≤ 2 ^ 40 ∧ Reserve_MemoryMiB r ≤ 2 ^ 40;
}.

Definition percentage (v : float64) : Prop := (v <f f_int 0) = false ∧ (f_int 100 <f v) = false.

(** No pressure: the thresholds and the observed averages are percentages, and
    where gates are required none is exceeded. *)
Record calm (p : PressureGate.Policy) (h : HostObservation) : Prop := {
  calm_thresholds : percentage (CPUSomeClose p) ∧ percentage (MemoryFullClose p) ∧ percentage (IOFullClose p);
  calm_oom : 0 ≤ MaximumRecentOOMKills p ≤ max_int64;
  calm_cpu : percentage (Avg10 (Some_ (Pressure_CPU (Host_Pressure h))));
  calm_memory : percentage (Avg10 (Full (Pressure_Memory (Host_Pressure h))));
  calm_io : percentage (Avg10 (Full (Pressure_IO (Host_Pressure h))));
  calm_below : Required p = true → Pressure_Available (Host_Pressure h) = true ∧
    (CPUSomeClose p <f Avg10 (Some_ (Pressure_CPU (Host_Pressure h)))) = false ∧
    (MemoryFullClose p <f Avg10 (Full (Pressure_Memory (Host_Pressure h)))) = false ∧
    (IOFullClose p <f Avg10 (Full (Pressure_IO (Host_Pressure h)))) = false;
}.

Record reserve_bounds (r : HostReserve) : Prop := {
  reserve_cpu : 2 ≤ Reserve_CPUUnits r;
  reserve_memory : 768 ≤ Reserve_MemoryMiB r;
  reserve_percent : 5 ≤ Reserve_Percent r ≤ 50;
  reserve_fleet : 80 ≤ Reserve_MaximumFleetCPUPercent r ≤ 98;
  reserve_overcommit : 0 ≤ Reserve_CPUAllowanceOvercommit r ≤ 4;
  reserve_disk : 20 ≤ Reserve_FreeDiskPercent r ≤ 80;
}.

Lemma validateReserve_bounds r : validateReserve r = [] → reserve_bounds r.
Proof.
  unfold validateReserve, floors. intros H. destruct (bool_decide (Reserve_Mode r = "dedicated")); no_issues H; rewrite !check_nil in *;
    bool_hyps; split; lia.
Qed.

Lemma ceilingPercent_bound total percent : 0 ≤ total ≤ 2 ^ 40 → 0 ≤ percent ≤ 100 →
  ceilingPercent total percent = ceil_percent total percent ∧ 0 ≤ ceil_percent total percent ≤ 2 ^ 41.
Proof.
  intros Ht Hp. split; [apply percentCeiling_exact; unfold size_bound; lia|]. unfold ceil_percent.
  split; [apply Z.div_pos; nia|]. apply Z.div_le_upper_bound; nia.
Qed.

(** What the gate's capacity findings say in unbounded arithmetic. *)
Lemma pilot_capacity_exact platform pool h :
  validated platform → pool ∈ Pools platform → real_host (Config_HostReserve platform) h →
  pilot_capacity h (Config_HostReserve platform) pool →
  let s := localHostState platform pool h in let p := reservePolicy platform in
  FleetConfig.VCPU (Pool_Resources pool) ≤ TotalCPUUnits s ∧
  Resources_MemoryMiB (Pool_Resources pool) + spec_memory_reserve s p ≤ TotalMemoryMiB s ∧
  Resources_MemoryMiB (Pool_Resources pool) + spec_memory_reserve s p ≤ AvailableMemoryMiB s.
Proof.
  intros Hv Hin [Hcores [Hav Htot] _ [HrC HrM]] [Hcpu Hmem Havail _ _]. cbn zeta.
  destruct (validateReserve_bounds _ (validated_reserve _ Hv)). destruct (validated_fits _ _ Hv Hin) as [HvCPU HvMem].
  pose proof (validateIncus_bounds _ (validated_incus _ Hv)) as [_ HiC HiM _].
  set (r := Config_HostReserve platform) in *.
  destruct (ceilingPercent_bound (PhysicalCores (Host_CPU h)) (Reserve_Percent r)) as [HcC HcC']; [lia..|].
  destruct (ceilingPercent_bound (Memory_TotalMiB (Host_Memory h)) (Reserve_Percent r)) as [HcM HcM']; [lia..|].
  unfold HostProbe.cpuReserve in Hcpu. unfold HostProbe.memoryReserve in Hmem, Havail. rewrite HcC in Hcpu. rewrite HcM in Hmem, Havail.
  unfold int_add in *. rewrite !wrap64_small in Hcpu, Hmem, Havail by (unfold in_int64, min_int64, max_int64; lia).
  unfold spec_memory_reserve. cbn. fold r. lia.
Qed.

(** The converse of [validate_Ok], given that the pressure values are percentages. *)
Lemma validate_accepts s p r :
  valid_input s p r → 0 ≤ MaxRecentOOMKills p →
  percentage (CPUSomeAvg10 s) → percentage (MemoryFullAvg10 s) → percentage (IOFullAvg10 s) →
  percentage (MaxCPUSomeAvg10 p) → percentage (MaxMemoryFullAvg10 p) → percentage (MaxIOFullAvg10 p) → validate s p r = Ok tt.
Proof.
  intros [] Hoom [Hc1 Hc2] [Hm1 Hm2] [Hi1 Hi2] [HC1 HC2] [HM1 HM2] [HI1 HI2]. unfold validate.
  rewrite Hc1, Hc2, Hm1, Hm2, Hi1, Hi2, HC1, HC2, HM1, HM2, HI1, HI2, (bool_decide_eq_false_2 (PoolName r = "")) by done.
  unfold fail_if. repeat (match goal with |- context [if ?b then _ else _] => replace b with false by lia; cbn [mbind result_bind] end). done.
Qed.

Section first_worker.
Context (platform : FleetConfig.Config) (pool : FleetConfig.Pool) (h : HostObservation).
Context (name controllerID poolID fingerprint : string).
Abbreviation host := (localHostState platform pool h).
Abbreviation policy := (reservePolicy platform).
Abbreviation request := (admission_request (pool_allocation name controllerID poolID pool (Pool_Name pool) fingerprint (OtherLeaseState "") "" "")).

Lemma first_worker_input :
  validated platform → pool ∈ Pools platform → real_host (Config_HostReserve platform) h →
  pilot_capacity h (Config_HostReserve platform) pool → valid_input host policy request ∧ sane host policy request.
Proof.
  intros Hv Hin Hreal Hcap. pose proof (pilot_capacity_exact _ _ _ Hv Hin Hreal Hcap) as (HfC & HfM & HfA).
  destruct (validateReserve_bounds _ (validated_reserve _ Hv)). destruct (validated_fits _ _ Hv Hin) as [HvCPU HvMem].
  pose proof (validateIncus_bounds _ (validated_incus _ Hv)) as [_ HiC HiM _].
  destruct (validated_pool _ _ Hv Hin) as [pre Hp%validatePool_nil]. destruct Hreal as [? [? ?] [? ?] [? ?]], Hcap as [_ _ _ Hd Hi].
  pose proof (pool_name _ Hp) as Hname. pose proof (pool_reserved_cpu _ Hp). pose proof (pool_reserved_memory _ Hp).
  split; split; unfold size_bound; cbn in *; try lia. intros He. by rewrite He in Hname.
Qed.

(** A standalone host that an operator's cold-pilot check calls ready for a pool,
    under no pressure and without any allocation, admits the first worker of the
    pool at run time, provided the pool's CPU request fits the aggregate
    allowance of the host. *)
Theorem pilot_admits_first_worker :
  FleetConfig.Validate platform = None → pool ∈ Pools platform → real_host (Config_HostReserve platform) h → calm (Pressure platform) h →
  PilotReady (EvaluateColdPilot h (Config_HostReserve platform) pool) = true →
  FleetConfig.VCPU (Pool_Resources pool) ≤ spec_allowance_limit host policy →
  ∃ d, Admission.Evaluate host policy request = Ok d ∧ Decision_Admitted d = true.
Proof.
  intros Hv%Validate_validated Hin Hreal Hcalm Hready Hallow. pose proof (ready_healthy _ _ _ Hready) as Hhealthy.
  apply ready_capacity in Hready as Hcap. destruct (first_worker_input Hv Hin Hreal Hcap) as [Hvalid Hsane].
  pose proof (pilot_capacity_exact _ _ _ Hv Hin Hreal Hcap) as (HfC & HfM & HfA). cbn zeta in *.
  destruct Hcalm as [(HtC & HtM & HtI) Hoom Hc Hm Hio Hbelow]. destruct (validated_pool _ _ Hv Hin) as [pre Hp%validatePool_nil].
  pose proof (pool_reserved_cpu _ Hp). pose proof (pool_reserved_memory _ Hp).
  assert (MaxRecentOOMKills policy = MaximumRecentOOMKills (Pressure platform)) as Hmax
    by (apply wrap64_small; unfold in_int64, min_int64 in *; lia).
  assert (validate host policy request = Ok tt) as Hok by (apply validate_accepts; try done; rewrite Hmax; lia).
  eexists. unfold Admission.Evaluate. rewrite Hok. split; [done|]. cbn [Decision_Admitted]. apply bool_decide_eq_true, decide_reason_spec; [done..|].
  destruct Hcap as [_ _ _ Hd Hi]. split; [done|cbn; lia| | | |cbn in *; lia|cbn in *; lia].
  - intros Hreq. destruct (Hbelow Hreq) as (? & ? & ? & ?). split_and!; try done. rewrite Hmax. cbn. lia.
  - unfold spec_cpu_reserve. rewrite decide_True; [cbn in *; lia|]. destruct (validateReserve_bounds _ (validated_reserve _ Hv)). cbn. lia.
  - change (allocatedAllowance host) with 0. unfold requestedAllowance.
    change (CPUAllowanceUnits request) with (FleetConfig.VCPU (Pool_Resources pool)). rewrite bool_decide_eq_false_2 by lia. lia.
Qed.

End first_worker.

(** ** A concrete host *)

Definition window (v : Z) : PressureWindow := {| Avg10 := f_int v; Avg60 := f_int 0; Avg300 := f_int 0; TotalMicros := 0 |}.
Definition quiet (v : Z) : PressureResource := {| Some_ := window v; Full := window v |}.

Definition host0 (cores : Z) : HostObservation := {|
  Host_SchemaVersion := 1; CapturedAt := "2026-09-01T12:00:00Z"; Hostname := "runner-1";
  Host_OperatingSystem := {| OS_ID := "ubuntu"; OS_VersionID := "24.04"; OS_PrettyName := "Ubuntu 24.04 LTS"; OS_Kernel := "6.8.0"; OS_Architecture := "AMD64" |};
  Virtualization := "none";
  Host_CPU := {| Logical := 2 * cores; PhysicalCores := cores; Sockets := 1; ThreadsPerCore := 2; NUMANodes := 1;
                 Load1 := f_int 1; Load5 := f_int 1; Load15 := f_int 1 |};
  Host_Memory := {| Memory_TotalMiB := 16384; Memory_AvailableMiB := 15000; SwapTotalMiB := 0; SwapFreeMiB := 0; Memory_OOMKillsTotal := 0 |};
  Host_Pressure := {| Pressure_Available := true; Pressure_CPU := quiet 5; Pressure_Memory := quiet 0; Pressure_IO := quiet 1 |};
  RootFilesystem := {| FS_Source := "/dev/vda1"; FS_Type := "ext4"; FS_TotalMiB := 200000; FS_AvailableMiB := 120000; FreePercent := 60;
                       FreeInodesPercent := 90; Rotational := false; RotationalKnown := true |};
  Host_KVM := {| KVM_Present := true; KVM_Accessible := true; KVM_Nested := false |};
  Host_Maintenance := {| RebootRequired := false; SystemState := "degraded"; FailedUnits := ["gha-zot.service"] |};
  Host_Software := {| Software_Incus := {| Software_Present := true; Software_Version := "6.0.6" |};
                      Software_Docker := {| Software_Present := false; Software_Version := "" |} |};
  Host_LegacyRunners := {| Listeners := 0; Legacy_Workers := 0 |} |}.

Lemma pilot_admits_first_worker_witness :
  ∃ d, Admission.Evaluate (localHostState config0 standard_pool (host0 8)) (reservePolicy config0)
         (admission_request (pool_allocation "w1" "c1" "p1" standard_pool (Pool_Name standard_pool) "f1" (OtherLeaseState "") "" "")) = Ok d
       ∧ Decision_Admitted d = true.
Proof.
  apply (pilot_admits_first_worker config0 standard_pool (host0 8) "w1" "c1" "p1" "f1").
  - vm_compute. reflexivity.
  - apply list_elem_of_here.
  - split; cbn; lia.
  - split; by vm_compute.
  - vm_compute. reflexivity.
  - vm_compute. discriminate.
Defined.

(** A failed unit of the fleet closes the host, whatever its suffix. *)
Example fleet_unit_prefix : fleet_unit <$> ["incus.service"; "incus-lxcfs.service"; "incusbridge.service"; "gha-zot.service"; "garm"] = [true; true; false; false; true].
Proof. vm_compute. reflexivity. Qed.

(** ** The condition the gate does not see *)

Definition with_reserve_and_pool (overcommit percent : Z) (vcpu : Z) : FleetConfig.Config := {|
  Config_SchemaVersion := 2; Config_Platform := Config_Platform config0; Config_ControlPlane := Config_ControlPlane config0;
  Config_Incus := {|
    Incus_Version := Incus_Version incus0; APIAddress := APIAddress incus0; Project := Project incus0; StoragePool := StoragePool incus0;
    StorageDriver := StorageDriver incus0; StorageSizeGiB := StorageSizeGiB incus0; ProjectDiskLimitGiB := ProjectDiskLimitGiB incus0;
    ProjectHardDiskLimitGiB := 0; Network := Network incus0; NetworkCIDR := NetworkCIDR incus0; EgressACL := EgressACL incus0;
    PublicHostAddress := PublicHostAddress incus0; EstatePublicHostAddresses := EstatePublicHostAddresses incus0;
    ServicesHostAddress := ServicesHostAddress incus0; ProjectMaxInstances := 4; ProjectMaxCPUUnits := 10; ProjectMaxMemoryMiB := 12288;
    ProjectHardMemoryLimitMiB := 0; Incus_Cluster := Incus_Cluster incus0; RegistryPort := 5000; RustFSPort := 9000; CacheGatewayPort := 9100;
    GARMGatewayPort := 9200 |};
  Config_Guardrails := Config_Guardrails config0;
  Config_HostReserve := {| Reserve_Mode := "dedicated"; Reserve_CPUUnits := 2; Reserve_MemoryMiB := 1024; Reserve_Percent := 5;
    Reserve_MaximumFleetCPUPercent := percent; Reserve_CPUAllowanceOvercommit := overcommit; Reserve_FreeDiskPercent := 20 |};
  Pressure := Pressure config0; Config_Cache := Config_Cache config0; Backends := Backends config0;
  Pools := [pool0 "large" "trusted" vcpu 4096 1 (caps "repository" "public-internet" "trusted" [])] |}.

(** On a host of twelve cores with an 80 percent ceiling and no overcommit a pool of
    ten CPUs passes the configuration check and the cold-pilot gate, and every
    worker of it is refused at run time, on the empty host as well. *)
Lemma pilot_ready_never_admitted :
  let platform := with_reserve_and_pool 1 80 10 in
  FleetConfig.Validate platform = None ∧
  ∀ pool, pool ∈ Pools platform →
    PilotReady (EvaluateColdPilot (host0 12) (Config_HostReserve platform) pool) = true ∧
    DecisionReason <$> (match Admission.Evaluate (localHostState platform pool (host0 12)) (reservePolicy platform)
      (admission_request (pool_allocation "w1" "c1" "p1" pool (Pool_Name pool) "f1" (OtherLeaseState "") "" "")) with Ok d => Some d | Err _ => None end)
    = Some ReasonCPUAllowance.
Proof.
  split; [vm_compute; reflexivity|]. intros pool [->|?%not_elem_of_nil]%elem_of_cons; [|done]. split; vm_compute; reflexivity.
Qed.
