(* ===== verification/IncusProvider.v ===== *)
(** * Instances: creating, promoting and deleting them
    ([src/internal/garmproviderincus/provider/incus.go], [warm.go])

    The provider's programs over Incus and the journal. A program is a function of
    the history of its calls: every call is an event, and the answer to it is an
    arbitrary function of the events before it, so that whatever other processes
    do between two calls is covered. Errors of the client are classified by what
    the provider looks at: whether they say not found, and what their text
    mentions. *)

From S2P Require Import Prelude Admission FleetConfig Tenant ProviderHost NDDevAdmission.

Local Open Scope Z_scope.
Local Open Scope go_scope.

(** ** Calls *)

Record InstancesPost := {
  Post_Name : string;
  Post_Architecture : string;
  Post_Type : string;
  Post_Profiles : list string;
  Post_Config : gmap string string;
  Post_Fingerprint : string;
}.

Record InstanceFull := {
  Full_Instance : IncusInstance;
  Full_Architecture : string;
  Full_Config : gmap string string;      (* the instance's own keys, without its profiles *)
  Full_Status : option string;           (* the status of the runtime state, if there is one *)
}.

(** A file written into a guest. A script that starts a job's runner is kept as what
    its text is rendered from: the arguments of the template, and the cache claim
    whose setup is inserted into it. *)
Inductive FileBody :=
  | DirectJITAssignment (encodedJIT : string) (cache : option string)
  | MetadataAssignment (metadataURL instanceToken caBundle : string) (cache : option string)
  | Plain (data : string).

Inductive Event :=
  | GetCLI
  | ResolveIdentity (identifier : string)
  | GetInstance (name : string)
  | CaptureDiagnostics (name : string)
  | MarkDeletingLease (name : string)
  | SetState (name action : string)
  | WaitState (name action : string)
  | DeleteCall (name : string)
  | WaitDelete (name : string)
  | ReleaseLease (name : string)
  | ReconcileJournal
  | ListInstances
  | AskYield (pool : string) (memoryMiB : Z)
  | ReadEvidence (name : string)
  | PromoteCall (name : string) (config : gmap string string)
  | WaitPromote (name : string)
  | NewSuffix
  | AdmitWarmCall (flavor name : string)
  | GetProfileNames
  | ResolveImage (alias : string)
  | LockPlacement
  | CreateCall (args : InstancesPost)
  | UnlockPlacement
  | WaitCreate (name : string)
  | MarkCreatedLease (name : string)
  | WaitAddress (name : string)
  | AuthorizeDrain (name : string)
  | PreemptCall (name : string)
  | ResolveRepositoryCall (job : string)
  | ClaimWarmCall (job : string)
  | AdmitCall (job : string)
  | BindCall (name : string) (config : gmap string string)
  | WaitBind (name : string)
  | MarkInjectedLease (job name : string)
  | LoadClaimContract
  | RandomToken
  | AddClaim (name pool role token : string)
  | RemoveClaim (name : string)
  | VerifyClaim (name token : string)
  | WriteFile (name path : string) (body : FileBody) (mode : Z)
  | ReadFile (name path : string).

(** The file a warm guest publishes, as Incus returns it; reading its body may fail. *)
Record Evidence := {
  Evidence_Data : result string; Evidence_UID : Z; Evidence_GID : Z; Evidence_Mode : Z; Evidence_Type : string;
}.

Record Image := { Image_Fingerprint : string; Image_Variant : string }.

Record Answers := {
  says : list Event → Event → result unit;              (* calls that succeed or fail *)
  names_ : list Event → Event → result string;          (* [ResolveIdentity], [NewSuffix] *)
  finds : list Event → string → result InstanceFull;
  lists : list Event → result (list InstanceFull);
  yields : list Event → result bool;
  decides : list Event → string → result Decision;
  profile_names : list Event → result (list string);
  resolves : list Event → string → result (option Image);
  evidence : list Event → string → result Evidence;
  polls : list Event → nat;                             (* polls until the readiness deadline *)
  preempts : list Event → string → result (list string);
}.

(** ** Programs *)

Definition Prog (A : Type) : Type := list Event → list Event * result A.

#[export] Instance Prog_ret : MRet Prog := λ A a h, (h, Ok a).
#[export] Instance Prog_bind : MBind Prog := λ A B f m h,
  let '(h', r) := m h in match r with Ok a => f a h' | Err e => (h', Err e) end.

Definition lift {A} (r : result A) : Prog A := λ h, (h, r).
(** The outcome of a program as a value. *)
Definition attempt {A} (m : Prog A) : Prog (result A) := λ h, let '(h', r) := m h in (h', Ok r).
Definition wrapping {A} (format : string) (m : Prog A) : Prog A := λ h, let '(h', r) := m h in (h', wrap_err format r).
(** A call: the event joins the history, newest first. *)
Definition call {A} (e : Event) (answer : list Event → result A) : Prog A := λ h, (e :: h, answer h).

Fixpoint each {A S} (body : S → A → Prog S) (xs : list A) (s : S) : Prog S :=
  match xs with
  | [] => mret s
  | x :: xs => s' ← body s x; each body xs s'
  end.

(** ** Classifying errors *)

Definition ErrNotFound : error := Errorf "not found" [].
Definition ErrTimeout : error := Errorf "timed out" [].
Definition errWarmOutdated : error := Errorf "warm instance is outdated" [].
Definition errInstanceIsStopped : string := "The instance is already stopped".

Fixpoint errors_is (format : string) (e : error) : bool :=
  match e with Errorf f _ => bool_decide (f = format) | Wrapf _ _ inner => errors_is format inner end.

Record Incus_Provider := {
  front : nddevAdmission;
  SecureBoot : bool;
  IncludeDefaultProfile : bool;
  placementLocked : bool;                (* a placement lock path is configured *)
}.

Section provider.

(** [api_not_found] and [api_mentions] read an error of the Incus client: its
    status, and whether its text contains some words. *)
Context (api_not_found : error → bool) (api_mentions : string → error → bool) (w : Answers) (l : Incus_Provider).

Fixpoint isNotFoundError (e : error) : bool :=
  errors_is "not found" e || api_not_found e || match e with Errorf _ _ => false | Wrapf _ _ inner => isNotFoundError inner end.

Fixpoint mentions (text : string) (e : error) : bool :=
  match e with Errorf _ _ => api_mentions text e | Wrapf _ _ inner => mentions text inner end.

(** [errors.Cause(err).Error() == text]. *)
Fixpoint cause_is (text : string) (e : error) : bool :=
  match e with Errorf f _ => bool_decide (f = text) | Wrapf _ _ inner => cause_is text inner end.

Definition warmInstanceRetiredDuringCreate (e : error) : bool :=
  isNotFoundError e || mentions "Instance not found" e || mentions "Instance storage pool not found" e.

Definition isPlacementRefusal (e : error) : bool :=
  mentions "Failed instance placement scriptlet" e || mentions "no fleet member has room" e.

(** ** Policy *)

Definition workerImagePolicy (flavor : string) : result WorkerImage :=
  match find_pool (platform (front l)) flavor with
  | None => Err (Errorf "pool policy %q does not exist" [flavor])
  | Some pool =>
      match workerImages (front l) !! flavor with
      | None => Err (Errorf "pool %q has no pinned worker image" [flavor])
      | Some image =>
          match find_backend (platform (front l)) (Pool_Backend pool) with
          | None => Err (Errorf "pool %q backend %q does not exist" [flavor; Pool_Backend pool])
          | Some backend =>
              let wanted := if bool_decide (Implementation backend = "incus-container") then IncusImageContainer else IncusImageVirtualMachine in
              fail_if (negb (bool_decide (Image_InstanceType image = wanted)))
                (Errorf "pool %q backend %q requires image type %q, configured %q" [flavor; Implementation backend]);;
              Ok image
          end
      end
  end.

Definition validateResolvedWorkerImage (image : option Image) (policy : WorkerImage) : result unit :=
  match image with
  | None => Err (Errorf "image alias %q resolved without image metadata" [Image_Alias policy])
  | Some i =>
      fail_if (negb (bool_decide (Image_Fingerprint i = Fingerprint policy)))
        (Errorf "image alias %q resolves to %q, expected %q" [Image_Alias policy; Image_Fingerprint i; Fingerprint policy]);;
      fail_if (negb (bool_decide (Image_Variant i = Variant policy)))
        (Errorf "image alias %q has variant %q, expected %q" [Image_Alias policy; Image_Variant i; Variant policy])
  end.

Definition key_of (f : InstanceFull) (key : string) : string := config_of (Full_Instance f) key.
Definition name_of (f : InstanceFull) : string := Instance_Name (Full_Instance f).

Definition check_key (format : string) (f : InstanceFull) (ke : string * string) : result unit :=
  let actual := key_of f ke.1 in
  fail_if (negb (bool_decide (actual = ke.2))) (Errorf format [name_of f; ke.1; actual; ke.2]).

(** The security checks without the alias, which is checked on its own. *)
Definition isolation (image : WorkerImage) : list (string * string) :=
  List.filter (λ ke, negb (bool_decide (ke.1 = imageAliasKey))) (managedSecurityContract image).2.

Definition exact_profile (f : InstanceFull) (flavor : string) : bool :=
  bool_decide (Full_Architecture f = "x86_64") && bool_decide (Profiles (Full_Instance f) = [flavor]).

Definition validateManagedSecurity (f : InstanceFull) : result unit :=
  image ← wrap_err "managed instance %q image policy: %s" (workerImagePolicy (key_of f flavorKey));
  let '(wantedType, checks) := managedSecurityContract image in
  fail_if (negb (bool_decide (Instance_Type (Full_Instance f) = wantedType)))
    (Errorf "managed instance %q has type %q, expected %q" [name_of f; wantedType]);;
  fail_if (negb (fingerprint_allowed image (key_of f lifecycleKey) (key_of f imageFingerprintKey)))
    (Errorf "managed instance %q has %s=%q, expected exact current fingerprint for lifecycle %q or declared N-1 for an executing one-job worker"
       [name_of f; imageFingerprintKey]);;
  forM (checks ++ [(lifecycleKey, lifecycleEphemeralOneJob)]) (check_key "managed instance %q has %s=%q, expected %q" f).

(** The keys that move with releases, images and pools, and the hard contract. *)
Definition currency_keys (pool : Pool) (image : WorkerImage) : list (string * string) :=
  [(providerVersionKey, Identity_Version (build (front l))); (providerCommitKey, Identity_Commit (build (front l)));
   (imageAliasKey, Image_Alias image); (imageFingerprintKey, Fingerprint image);
   (networkPolicyKey, NetworkPolicy (Pool_Capabilities pool)); (cacheWriteScopeKey, CacheWriteScope (Pool_Capabilities pool))].

Definition check_currency (f : InstanceFull) (ke : string * string) : result unit :=
  let actual := key_of f ke.1 in
  fail_if (negb (bool_decide (actual = ke.2)))
    (Wrapf "%w: warm instance %q has %s=%q, current is %q" [name_of f; ke.1; actual; ke.2] errWarmOutdated).

Definition warm_keys (pool : Pool) (flavor : string) : list (string * string) :=
  [(controllerIDKeyName, front_controllerID (front l)); (poolIDKey, warmPoolIDPrefix +:+ flavor); (flavorKey, flavor);
   (lifecycleKey, lifecycleWarmUnregistered); (warmReadyKey, "true"); (trustKey, Trust pool); (scaleSetKey, Pool_ScaleSetName pool);
   (repositoryKey, ""); (garmJobNameKey, ""); (osTypeKeyName, "linux"); (osArchKeyNAme, "amd64"); ("boot.autostart", "true")].

Definition validateWarmReadyMetadata (f : InstanceFull) (flavor : string) : result unit :=
  match find_pool (platform (front l)) flavor with
  | None => Err (Errorf "pool policy %q does not exist" [flavor])
  | Some pool =>
      image ← workerImagePolicy flavor;
      forM (currency_keys pool image) (check_currency f);;
      forM (warm_keys pool flavor ++ isolation image) (check_key "warm instance %q has %s=%q, expected %q" f);;
      fail_if (negb (bool_decide (Instance_Type (Full_Instance f) = (managedSecurityContract image).1)))
        (Errorf "warm instance %q is a %s, expected %s" [name_of f; Instance_Type (Full_Instance f)]);;
      fail_if (negb (exact_profile f flavor) || negb (bool_decide (Full_Status f = Some "Running")))
        (Errorf "warm instance %q is not a running exact-profile amd64 worker" [name_of f])
  end.

(** ** Single instances *)

Definition getCLI : Prog unit := call GetCLI (λ h, says w h GetCLI).

Definition getManagedInstance (name : string) : Prog InstanceFull :=
  wrapping "fetching client" getCLI;;
  got ← attempt (call (GetInstance name) (λ h, finds w h name));
  match got with
  | Err e =>
      if isNotFoundError e then lift (Err (Wrapf "fetching instance: %q" [] ErrNotFound))
      else lift (Err (Wrapf "fetching instance" [] e))
  | Ok f =>
      lift (fail_if (negb (bool_decide (key_of f controllerIDKeyName = front_controllerID (front l))))
              (Errorf "instance %q is not owned by controller %q" [name; front_controllerID (front l)]));;
      mret f
  end.

Definition setState (name action : string) : Prog unit :=
  wrapping "fetching client" getCLI;;
  f ← wrapping "authorizing instance state transition to %s" (getManagedInstance name);
  (if bool_decide (action = "start")
   then wrapping "validating managed instance security policy" (lift (validateManagedSecurity f)) else mret tt);;
  wrapping "setting state to %s" (call (SetState name action) (λ h, says w h (SetState name action)));;
  wrapping "waiting for instance to transition to state %s" (call (WaitState name action) (λ h, says w h (WaitState name action))).

Definition Stop (name : string) : Prog unit := setState name "stop".
Definition Start (name : string) : Prog unit := setState name "start".

Definition release (name : string) : Prog unit := call (ReleaseLease name) (λ h, says w h (ReleaseLease name)).
Definition reconcile : Prog unit := call ReconcileJournal (λ h, says w h ReconcileJournal).

(** A missing instance gives its lease back; any other failure is reported. *)
Definition gone_or (format : string) (name : string) (outcome : result unit) (next : Prog unit) : Prog unit :=
  match outcome with
  | Ok _ => next
  | Err e => if isNotFoundError e then release name else lift (Err (Wrapf format [] e))
  end.

(** Deleting the instance that is stopped: the call, its completion, and the
    reconciliation of the journal with what Incus lists afterwards. The timer and
    the cancelled context are failures of the call. *)
Definition delete_stopped (name : string) : Prog unit :=
  called ← attempt (call (DeleteCall name) (λ h, says w h (DeleteCall name)));
  gone_or "removing instance" name called
    (waited ← attempt (call (WaitDelete name) (λ h, says w h (WaitDelete name)));
     gone_or "waiting for instance deletion" name waited
       (wrapping "reconciling deleted instance visibility" reconcile)).

Definition DeleteInstance (identifier : string) : Prog unit :=
  name ← wrapping "resolving instance identity" (call (ResolveIdentity identifier) (λ h, names_ w h (ResolveIdentity identifier)));
  wrapping "fetching client" getCLI;;
  managed ← attempt (getManagedInstance name);
  match managed with
  | Err e => if isNotFoundError e then release name else lift (Err (Wrapf "authorizing instance deletion" [] e))
  | Ok _ =>
      attempt (call (CaptureDiagnostics name) (λ h, says w h (CaptureDiagnostics name)));;
      wrapping "recording deleting instance" (call (MarkDeletingLease name) (λ h, says w h (MarkDeletingLease name)));;
      stopped ← attempt (setState name "stop");
      match stopped with
      | Ok _ => delete_stopped name
      | Err e =>
          if isNotFoundError e then release name
          else if cause_is errInstanceIsStopped e then delete_stopped name
          else lift (Err (Wrapf "stopping instance" [] e))
      end
  end.

(** ** Launching *)

(** The placement lock is released as soon as Incus has answered. *)
Definition launchInstance (args : InstancesPost) : Prog unit :=
  wrapping "fetching client" getCLI;;
  (if placementLocked l then wrapping "serializing Incus placement request" (call LockPlacement (λ h, says w h LockPlacement)) else mret tt);;
  created ← attempt (call (CreateCall args) (λ h, says w h (CreateCall args)));
  unlocked ← attempt (if placementLocked l then call UnlockPlacement (λ h, says w h UnlockPlacement) else mret tt);
  match created with
  | Ok _ => wrapping "releasing Incus placement request" (lift unlocked)
  | Err e => lift (Err (Wrapf "creating instance" [] e))
  end;;
  wrapping "waiting for instance creation" (call (WaitCreate (Post_Name args)) (λ h, says w h (WaitCreate (Post_Name args))));;
  wrapping "starting instance" (call (SetState (Post_Name args) "start") (λ h, says w h (SetState (Post_Name args) "start")));;
  wrapping "waiting for instance to start" (call (WaitState (Post_Name args) "start") (λ h, says w h (WaitState (Post_Name args) "start"))).

Definition deletePreemptedWarmWorkers (names : list string) : Prog unit :=
  each (λ _ name, wrapping "preempting warm instance %q: insufficient-memory" (DeleteInstance name)) names tt.

Definition noRoom (flavor : string) : error :=
  Errorf "provider admission rejected pool %q: insufficient-memory: no fleet member has room for this worker" [flavor].

(** The reservation of a refused placement goes back. *)
Definition refuse_placement (name flavor format : string) : Prog unit :=
  wrapping format (release name);; lift (Err (noRoom flavor)).

Definition launchColdInstance (args : InstancesPost) (bootstrap : BootstrapInstance) : Prog unit :=
  launched ← attempt (launchInstance args);
  match launched with
  | Ok _ => mret tt
  | Err e =>
      if negb (isPlacementRefusal e) then lift (Err (Wrapf "creating instance" [] e))
      else
        preempted ← wrapping "planning placement preemption"
          (call (PreemptCall (Bootstrap_Name bootstrap)) (λ h, preempts w h (Bootstrap_Name bootstrap)));
        if bool_decide (preempted = []) then
          refuse_placement (Bootstrap_Name bootstrap) (Flavor bootstrap) "placement refused pool %q and reservation cleanup failed"
        else
          deletePreemptedWarmWorkers preempted;;
          again ← attempt (launchInstance args);
          match again with
          | Ok _ => mret tt
          | Err e' =>
              if isPlacementRefusal e' then
                refuse_placement (Bootstrap_Name bootstrap) (Flavor bootstrap)
                  "placement still refused pool %q after warm preemption and reservation cleanup failed"
              else lift (Err (Wrapf "creating instance" [] e'))
          end
  end.

(** ** Warm instances *)

Definition warmReadyEvidence : string := "ready-unregistered-v1" +:+ bytes [10]%nat.

Definition valid_evidence (e : Evidence) (data : string) : bool :=
  (String.length data <=? 128)%nat && bool_decide (data = warmReadyEvidence) && (Evidence_UID e =? 0)
  && (Evidence_GID e =? 0) && (Evidence_Mode e =? 420) && bool_decide (Evidence_Type e = "file").

(** The instance's own keys with the two that promotion writes. *)
Definition promoted_config (f : InstanceFull) : gmap string string :=
  <[warmReadyKey := "true"]> (<[lifecycleKey := lifecycleWarmUnregistered]> (Full_Config f)).

(** One bounded retry of the read. *)
Definition fetch_twice (name : string) : Prog InstanceFull :=
  got ← attempt (call (GetInstance name) (λ h, finds w h name));
  match got with
  | Ok f => mret f
  | Err e => if isNotFoundError e then lift (Err e) else call (GetInstance name) (λ h, finds w h name)
  end.

Definition promoteWarmReady (name flavor : string) : Prog bool :=
  f ← wrapping "fetching preparing warm instance" (fetch_twice name);
  if bool_decide (key_of f lifecycleKey = lifecycleWarmUnregistered) then lift (validateWarmReadyMetadata f flavor);; mret true
  else if negb (bool_decide (key_of f lifecycleKey = lifecycleWarmPreparing)) then lift (Err (Errorf "instance %q is not warm-preparing" [name]))
  else
    read ← attempt (call (ReadEvidence name) (λ h, evidence w h name));
    match read with
    | Err e => if isNotFoundError e then mret false else lift (Err (Wrapf "reading warm readiness evidence" [] e))
    | Ok response =>
        data ← wrapping "reading warm readiness evidence" (lift (Evidence_Data response));
        lift (fail_if (negb (valid_evidence response data)) (Errorf "instance %q published invalid warm readiness evidence" [name]));;
        wrapping "promoting warm readiness metadata"
          (call (PromoteCall name (promoted_config f)) (λ h, says w h (PromoteCall name (promoted_config f))));;
        wrapping "waiting for warm readiness promotion" (call (WaitPromote name) (λ h, says w h (WaitPromote name)));;
        mret true
    end.

(** The readiness loop: the deadline leaves room for some number of polls. *)
Fixpoint await_ready (remaining : nat) (name flavor : string) : Prog unit :=
  promoted ← promoteWarmReady name flavor;
  if (promoted : bool) then mret tt
  else match remaining with
       | O => lift (Err (Wrapf "warm instance %q did not publish readiness evidence" [name] ErrTimeout))
       | S remaining => await_ready remaining name flavor
       end.

Definition waitWarmReady (name flavor : string) : Prog unit := λ h, await_ready (polls w h) name flavor h.

Definition getProfiles (flavor : string) : Prog (list string) :=
  wrapping "fetching client" getCLI;;
  profiles ← wrapping "fetching profile names" (call GetProfileNames (λ h, profile_names w h));
  lift (fail_if (negb (bool_decide (flavor ∈ profiles))) (Wrapf "looking for profile %s" [flavor] ErrNotFound));;
  mret ((if IncludeDefaultProfile l then ["default"] else []) ++ [flavor]).

Definition image_type (t : IncusImageType) : string :=
  match t with IncusImageVirtualMachine => "virtual-machine" | IncusImageContainer => "container" | OtherImageType raw => raw end.

(** The keys of a new warm instance. *)
Definition warm_metadata (pool : Pool) (image : WorkerImage) (flavor : string) : gmap string string := list_to_map [
  (osTypeKeyName, "linux"); (osArchKeyNAme, "amd64"); (controllerIDKeyName, front_controllerID (front l));
  (poolIDKey, warmPoolIDPrefix +:+ flavor); (imageAliasKey, Image_Alias image); (imageFingerprintKey, Fingerprint image);
  (providerVersionKey, Identity_Version (build (front l))); (providerCommitKey, Identity_Commit (build (front l)));
  (flavorKey, flavor); (lifecycleKey, lifecycleWarmPreparing); (warmReadyKey, "false"); (trustKey, Trust pool);
  (scaleSetKey, Pool_ScaleSetName pool); (repositoryKey, ""); (garmJobNameKey, "");
  (networkPolicyKey, NetworkPolicy (Pool_Capabilities pool)); (cacheWriteScopeKey, CacheWriteScope (Pool_Capabilities pool));
  ("boot.autostart", "true")].

Definition secureBootEnabled : string := if SecureBoot l then "true" else "false".

Definition isolation_config (pool : Pool) (image : WorkerImage) : gmap string string :=
  if bool_decide (Image_InstanceType image = IncusImageVirtualMachine) then
    list_to_map [("security.secureboot", secureBootEnabled); ("raw.qemu", DisableNestedVirtualizationRawQEMU)]
  else list_to_map [("security.privileged", "false"); ("security.nesting", if Docker (Pool_Capabilities pool) then "true" else "false");
         ("security.syscalls.intercept.mknod", "false"); ("security.syscalls.intercept.setxattr", "false")].

Definition getWarmCreateArgs (flavor name : string) : Prog InstancesPost :=
  match find_pool (platform (front l)) flavor with
  | None => lift (Err (Errorf "pool policy %q does not exist" [flavor]))
  | Some pool =>
      image ← lift (workerImagePolicy flavor);
      profiles ← getProfiles flavor;
      resolved ← wrapping "resolving warm image" (call (ResolveImage (Image_Alias image)) (λ h, resolves w h (Image_Alias image)));
      lift (validateResolvedWorkerImage resolved image);;
      mret {| Post_Name := name; Post_Architecture := "x86_64"; Post_Type := image_type (Image_InstanceType image); Post_Profiles := profiles;
              Post_Config := isolation_config pool image ∪ warm_metadata pool image flavor;
              Post_Fingerprint := from_option Image_Fingerprint "" resolved |}
  end.

Inductive WarmOutcome :=
  | WarmCreated (name : string)
  | WarmConsumed (name : string)
  | WarmDeferred (decision : Decision)
  | WarmAbandoned (name : string).

(** The deferred function of [createWarm]: what was reserved is removed, and its
    failure joins the error. *)
Definition cleaning (created : bool) (name : string) (e : error) : Prog WarmOutcome :=
  cleaned ← attempt (if created then DeleteInstance name else release name);
  lift (Err (match cleaned with Ok _ => e | Err _ => Wrapf "cleaning failed warm instance %q" [name] e end)).

Definition placement_refusal (flavor : string) : Decision := {|
  Decision_Admitted := false; DecisionReason := ReasonPlacementRefused; Admission.Pool := flavor; RequiredCPUReserve := 0;
  RequiredMemoryReserve := 0; RemainingCPUUnits := 0; RemainingCPUAllowanceUnits := 0; RemainingMemoryMiB := 0; RemainingAvailableMiB := 0 |}.

(** After the launch: an instance that vanished while it was awaited served a job. *)
Definition await_warm (name flavor : string) : Prog WarmOutcome :=
  marked ← attempt (call (MarkCreatedLease name) (λ h, says w h (MarkCreatedLease name)));
  match marked with
  | Err e => cleaning true name (Wrapf "recording warm instance creation" [] e)
  | Ok _ =>
      addressed ← attempt (call (WaitAddress name) (λ h, says w h (WaitAddress name)));
      match addressed with
      | Err e =>
          if warmInstanceRetiredDuringCreate e then mret (WarmConsumed name)
          else cleaning true name (Wrapf "waiting for warm instance network" [] e)
      | Ok _ =>
          awaited ← attempt (waitWarmReady name flavor);
          match awaited with
          | Ok _ => mret (WarmCreated name)
          | Err e =>
              if errors_is "timed out" e then
                deleted ← attempt (DeleteInstance name);
                match deleted with
                | Err e' => cleaning true name (Wrapf "deleting warm instance %q that never became ready" [name] e')
                | Ok _ => attempt (DeleteInstance name);; mret (WarmAbandoned name)
                end
              else if warmInstanceRetiredDuringCreate e then mret (WarmConsumed name)
              else cleaning true name e
          end
      end
  end.

Definition warm_name (flavor suffix : string) : string :=
  "warm-" +:+ default flavor (CutPrefix flavor "nddev-linux-") +:+ "-" +:+ suffix.

Definition createWarm (flavor : string) : Prog WarmOutcome :=
  suffix ← wrapping "generate warm instance identity: %w" (call NewSuffix (λ h, names_ w h NewSuffix));
  let name := warm_name flavor suffix in
  decision ← wrapping "evaluating warm capacity" (call (AdmitWarmCall flavor name) (λ h, decides w h name));
  if negb (Decision_Admitted decision) then mret (WarmDeferred decision)
  else
    args ← attempt (getWarmCreateArgs flavor name);
    match args with
    | Err e => cleaning false name e
    | Ok post =>
        launched ← attempt (launchInstance post);
        match launched with
        | Ok _ => await_warm name flavor
        | Err e =>
            if isPlacementRefusal e then
              wrapping "cleaning failed warm instance %q" (release name);; mret (WarmDeferred (placement_refusal flavor))
            else lift (Err (Wrapf "launching warm instance" [] e))
        end
    end.

(** ** Reconciling one warm pool *)

Record WarmPoolResult := {
  Applied : bool;
  Result_Pool : string;
  Result_TargetReady : Z;
  ReadyBefore : Z;
  ReadyAfter : Z;
  Preparing : Z;
  Claimed : Z;
  Deferred : bool;
  DeferralReason : option Reason;
  RecycledStale : list string;
  AdmissionDecision : option Decision;
  Created : list string;
  Consumed : list string;
  Abandoned : list string;
  Promoted : list string;
  DeletedExcess : list string;
  Yielded : bool;
}.

(** The first loop: what the listing holds of this pool. Outdated instances are
    recycled as they are met. *)
Record Sorted_Inventory := { preparing : list string; ready : list string; claimed : Z; recycled : list string }.

Definition ours (flavor : string) (f : InstanceFull) : bool :=
  bool_decide (key_of f controllerIDKeyName = front_controllerID (front l)) && bool_decide (key_of f flavorKey = flavor).

Definition sort_instance (flavor : string) (apply : bool) (s : Sorted_Inventory) (f : InstanceFull) : Prog Sorted_Inventory :=
  let lifecycle := key_of f lifecycleKey in
  if negb (ours flavor f) then mret s
  else if bool_decide (lifecycle = lifecycleWarmPreparing) then
    mret {| preparing := preparing s ++ [name_of f]; ready := ready s; claimed := claimed s; recycled := recycled s |}
  else if bool_decide (lifecycle = lifecycleWarmUnregistered) then
    match validateWarmReadyMetadata f flavor with
    | Ok _ => mret {| preparing := preparing s; ready := ready s ++ [name_of f]; claimed := claimed s; recycled := recycled s |}
    | Err e =>
        if errors_is "warm instance is outdated" e then
          (if (apply : bool) then wrapping "recycling outdated warm instance" (DeleteInstance (name_of f)) else mret tt);;
          mret {| preparing := preparing s; ready := ready s; claimed := claimed s; recycled := recycled s ++ [name_of f] |}
        else lift (Err (Wrapf "validating warm-ready inventory" [] e))
    end
  else if bool_decide (lifecycle = lifecycleEphemeralOneJob) then
    mret {| preparing := preparing s; ready := ready s; claimed := claimed s ⊕ 1; recycled := recycled s |}
  else mret s.

(** Promotion of what is preparing; an instance retired meanwhile is passed over. *)
Definition promote_one (flavor : string) (promoted : list string) (name : string) : Prog (list string) :=
  outcome ← attempt (promoteWarmReady name flavor);
  match outcome with
  | Ok true => mret (promoted ++ [name])
  | Ok false => mret promoted
  | Err e => if warmInstanceRetiredDuringCreate e then mret promoted else lift (Err e)
  end.

Definition delete_all (format : string) (names deleted : list string) : Prog (list string) :=
  each (λ deleted name, wrapping format (DeleteInstance name);; mret (deleted ++ [name])) names deleted.

(** The excess is taken from the end of the sorted list. *)
Definition excess (target : Z) (ready : list string) : list string :=
  reverse (drop (Z.to_nat (Z.max 0 target)) ready).
Definition kept (target : Z) (ready : list string) : list string := take (Z.to_nat (Z.max 0 target)) ready.

Record Creation := { made : list string; used : list string; dropped : list string; stopped : option Decision }.

(** [deficit] turns of creation; a deferral ends the loop. *)
Fixpoint create_loop (deficit : nat) (flavor : string) (c : Creation) : Prog Creation :=
  match deficit with
  | O => mret c
  | S deficit =>
      outcome ← createWarm flavor;
      match outcome with
      | WarmCreated name =>
          create_loop deficit flavor {| made := made c ++ [name]; used := used c; dropped := dropped c; stopped := stopped c |}
      | WarmConsumed name =>
          create_loop deficit flavor {| made := made c; used := used c ++ [name]; dropped := dropped c; stopped := stopped c |}
      | WarmAbandoned name =>
          create_loop deficit flavor {| made := made c; used := used c; dropped := dropped c ++ [name]; stopped := stopped c |}
      | WarmDeferred decision => mret {| made := made c; used := used c; dropped := dropped c; stopped := Some decision |}
      end
  end.

Definition effective_target (pool : Pool) (yield : bool) : Z := if yield then 0 else TargetReady (Warm pool).

(** [effectiveTarget - len(ready) - (len(preparing) - len(result.Promoted))], where
    a yielding pass has set [preparing] to nil. *)
Definition deficit_of (target : Z) (ready : list string) (npreparing npromoted : nat) : Z :=
  target ⊖ Z.of_nat (length ready) ⊖ (Z.of_nat npreparing ⊖ Z.of_nat npromoted).

Definition ReconcileWarm (flavor : string) (apply : bool) : Prog WarmPoolResult :=
  match find_pool (platform (front l)) flavor with
  | None => lift (Err (Errorf "pool policy %q does not exist" [flavor]))
  | Some pool =>
      wrapping "fetching client" getCLI;;
      wrapping "reconciling provider inventory" reconcile;;
      instances ← wrapping "listing warm inventory" (call ListInstances (λ h, lists w h));
      inv ← each (sort_instance flavor apply) instances {| preparing := []; ready := []; claimed := 0; recycled := [] |};
      let waiting := sort_strings (preparing inv) in
      let ready0 := sort_strings (ready inv) in
      yield ← wrapping "evaluating warm yield"
        (call (AskYield flavor (Resources_MemoryMiB (Pool_Resources pool))) (λ h, yields w h));
      let target := effective_target pool yield in
      promoted ← (if (apply : bool) then each (promote_one flavor) waiting [] else mret []);
      let ready1 := if apply then sort_strings (ready0 ++ promoted) else ready0 in
      let yielding := yield && apply in
      deleted ← (if yielding then delete_all "deleting yielded preparing warm instance" (List.filter (λ n, negb (bool_decide (n ∈ promoted))) waiting) []
                 else mret []);
      let npreparing := if yielding then 0%nat else length waiting in
      deleted ← (if (apply : bool) then delete_all "deleting excess warm instance" (excess target ready1) deleted
                 else mret (deleted ++ excess target ready1));
      let ready2 := kept target ready1 in
      let deficit := deficit_of target ready2 npreparing (length promoted) in
      created ← (if (apply : bool) then create_loop (Z.to_nat (Z.max 0 deficit)) flavor {| made := []; used := []; dropped := []; stopped := None |}
                 else mret {| made := []; used := []; dropped := []; stopped := None |});
      (if (apply : bool) then wrapping "recording reconciled warm inventory" reconcile else mret tt);;
      mret {| Applied := apply; Result_Pool := flavor; Result_TargetReady := TargetReady (Warm pool);
              ReadyBefore := Z.of_nat (length ready0); ReadyAfter := Z.of_nat (length (ready2 ++ made created));
              Preparing := Z.of_nat npreparing; Claimed := claimed inv;
              Deferred := yield || bool_decide (is_Some (stopped created));
              DeferralReason := match stopped created with
                                | Some d => Some (DecisionReason d)
                                | None => if yield then Some ReasonLargerClassWaiting else None
                                end;
              RecycledStale := recycled inv; AdmissionDecision := stopped created; Created := made created; Consumed := used created; Abandoned := dropped created;
              Promoted := promoted; DeletedExcess := deleted; Yielded := yield |}
  end.

(** ** Draining one warm instance *)

Definition drain_keys (pool : Pool) (image : WorkerImage) (flavor : string) : list (string * string) :=
  [(poolIDKey, warmPoolIDPrefix +:+ flavor); (imageAliasKey, Image_Alias image); (imageFingerprintKey, Fingerprint image); (flavorKey, flavor);
   (trustKey, Trust pool); (scaleSetKey, Pool_ScaleSetName pool); (repositoryKey, ""); (garmJobNameKey, ""); (osTypeKeyName, "linux");
   (osArchKeyNAme, "amd64")].

(** Returns whether the instance was deleted. *)
Definition DrainWarm (flavor name : string) (apply : bool) : Prog bool :=
  wrapping "authorizing zero-claim warm drain" (call (AuthorizeDrain name) (λ h, says w h (AuthorizeDrain name)));;
  match find_pool (platform (front l)) flavor with
  | None => lift (Err (Errorf "pool policy %q does not exist" [flavor]))
  | Some pool =>
      image ← lift (workerImagePolicy flavor);
      f ← wrapping "authorizing warm drain" (getManagedInstance name);
      lift (forM (drain_keys pool image flavor ++ isolation image) (check_key "warm drain instance %q has %s=%q, expected %q" f));;
      let lifecycle := key_of f lifecycleKey in
      lift (fail_if (negb (bool_decide (lifecycle = lifecycleWarmPreparing)) && negb (bool_decide (lifecycle = lifecycleWarmUnregistered)))
              (Errorf "warm drain instance %q has lifecycle %q" [name; lifecycle]));;
      lift (fail_if (negb (bool_decide (Instance_Type (Full_Instance f) = (managedSecurityContract image).1)) || negb (exact_profile f flavor))
              (Errorf "warm drain instance %q is not an exact-profile amd64 %s" [name]));;
      if negb apply then mret false
      else wrapping "deleting drained warm instance" (DeleteInstance name);; mret true
  end.

End provider.
