(* ===== verification/IncusProviderFacts.v ===== *)
(** * Facts about the provider's programs

    Programs are related to the events they add to the history: [emits] says that
    every new event satisfies a predicate, whatever the world answers, and
    composes along the structure of a program. *)

From S2P Require Import Prelude Admission FleetConfig Tenant ProviderHost NDDevAdmission IncusProvider.

Local Open Scope Z_scope.
Local Open Scope go_scope.

Lemma sort_strings_length xs : length (sort_strings xs) = length xs.
Proof. apply Permutation_length, merge_sort_Permutation. Qed.

(** ** Running programs *)

Lemma Prog_bind_Ok {A B} (m : Prog A) (f : A → Prog B) h h' b :
  (m ≫= f) h = (h', Ok b) → ∃ h1 a, m h = (h1, Ok a) ∧ f a h1 = (h', Ok b).
Proof. unfold mbind, Prog_bind. destruct (m h) as [h1 [a|e]]; [|done]. eauto. Qed.

Lemma lift_Ok {A} (r : result A) h h' a : lift r h = (h', Ok a) → h' = h ∧ r = Ok a.
Proof. unfold lift. by intros [= <- ->]. Qed.

Lemma wrapping_Ok {A} format (m : Prog A) h h' a : wrapping format m h = (h', Ok a) → m h = (h', Ok a).
Proof. unfold wrapping. destruct (m h) as [h1 r]. intros [= <- H]. apply wrap_err_Ok in H. by subst. Qed.

Lemma attempt_Ok {A} (m : Prog A) h h' r : attempt m h = (h', Ok r) → m h = (h', r).
Proof. unfold attempt. destruct (m h) as [h1 r1]. by intros [= <- ->]. Qed.

Lemma mret_Ok {A} (a b : A) h h' : (mret a : Prog A) h = (h', Ok b) → h' = h ∧ a = b.
Proof. unfold mret, Prog_ret. by intros [= <- ->]. Qed.

(** Splits a successful run in a hypothesis into its steps. *)
Ltac inv_prog :=
  repeat match goal with
  | H : (_ ≫= _) _ = (_, Ok _) |- _ => apply Prog_bind_Ok in H as (? & ? & ? & H)
  | H : wrapping _ _ _ = (_, Ok _) |- _ => apply wrapping_Ok in H
  | H : lift _ _ = (_, Ok _) |- _ => apply lift_Ok in H as [-> H]
  | H : attempt _ _ = (_, Ok _) |- _ => apply attempt_Ok in H
  | H : mret _ _ = (_, Ok _) |- _ => apply mret_Ok in H as [-> H]
  end.

(** ** What programs emit *)

Definition emits {A} (Q : Event → Prop) (m : Prog A) : Prop := ∀ h, ∃ new, (m h).1 = new ++ h ∧ Forall Q new.

Create HintDb emits.

Lemma emits_ret {A} Q (a : A) : emits Q (mret a).
Proof. intros h. by exists []. Qed.

Lemma emits_lift {A} Q (r : result A) : emits Q (lift r).
Proof. intros h. by exists []. Qed.

Lemma emits_call {A} (Q : Event → Prop) e (answer : list Event → result A) : Q e → emits Q (call e answer).
Proof. intros He h. exists [e]. by split; [|constructor]. Qed.

(** What follows may rely on the value some run of the first program returned. *)
Lemma emits_bind_value {A B} Q (m : Prog A) (f : A → Prog B) :
  emits Q m → (∀ a h h', m h = (h', Ok a) → emits Q (f a)) → emits Q (m ≫= f).
Proof.
  intros Hm Hf h. unfold mbind, Prog_bind. specialize (Hm h). destruct (m h) as [h1 [a|e]] eqn:Hr; simpl in Hm; [|done].
  destruct Hm as (new & -> & Hnew). destruct (Hf a _ _ Hr (new ++ h)) as (new' & -> & Hnew'). exists (new' ++ new).
  rewrite app_assoc. split; [done|]. by apply Forall_app.
Qed.

Lemma emits_bind {A B} Q (m : Prog A) (f : A → Prog B) : emits Q m → (∀ a, emits Q (f a)) → emits Q (m ≫= f).
Proof. intros Hm Hf. apply emits_bind_value; [done|]. intros a _ _ _. apply Hf. Qed.

Lemma emits_wrapping {A} Q format (m : Prog A) : emits Q m → emits Q (wrapping format m).
Proof. intros Hm h. specialize (Hm h). unfold wrapping. by destruct (m h). Qed.

Lemma emits_attempt {A} Q (m : Prog A) : emits Q m → emits Q (attempt m).
Proof. intros Hm h. specialize (Hm h). unfold attempt. by destruct (m h). Qed.

Lemma emits_each {A S} Q (body : S → A → Prog S) xs s : (∀ s x, x ∈ xs → emits Q (body s x)) → emits Q (each body xs s).
Proof.
  revert s. induction xs as [|x xs IH]; intros s H; simpl; [apply emits_ret|].
  apply emits_bind; [apply H, list_elem_of_here|]. intros s'. apply IH. intros. by apply H, list_elem_of_further.
Qed.

Lemma emits_weaken {A} (P Q : Event → Prop) (m : Prog A) : (∀ e, P e → Q e) → emits P m → emits Q m.
Proof. intros HPQ Hm h. destruct (Hm h) as (new & ? & Hnew). exists new. split; [done|]. by eapply Forall_impl. Qed.

#[export] Hint Resolve emits_ret emits_lift emits_bind emits_wrapping emits_attempt : emits.
#[export] Hint Extern 1 (emits _ (call _ _)) => apply emits_call : emits.

(** Walks through a program, leaving the predicates of its calls. *)
Ltac emit :=
  repeat first
    [ progress intros
    | apply emits_ret | apply emits_lift | apply emits_bind | apply emits_wrapping | apply emits_attempt
    | apply emits_call
    | match goal with |- emits _ (if ?b then _ else _) => destruct b end
    | match goal with |- emits _ (match ?x with _ => _ end) => destruct x end ].

(** ** Specifications of runs

    [runs m h Q]: the run of [m] after [h] adds events and ends in a result that
    [Q] relates. *)

Definition runs {A} (m : Prog A) (h : list Event) (Q : list Event → result A → Prop) : Prop :=
  ∃ new r, m h = (new ++ h, r) ∧ Q new r.

Lemma runs_ret {A} (a : A) h Q : Q [] (Ok a) → runs (mret a) h Q.
Proof. intros HQ. by exists [], (Ok a). Qed.

Lemma runs_lift {A} (r : result A) h (Q : list Event → result A → Prop) : Q [] r → runs (lift r) h Q.
Proof. intros HQ. by exists [], r. Qed.

Lemma runs_call {A} e (answer : list Event → result A) h (Q : list Event → result A → Prop) : Q [e] (answer h) → runs (call e answer) h Q.
Proof. intros HQ. by exists [e], (answer h). Qed.

Lemma runs_bind {A B} (m : Prog A) (f : A → Prog B) h (Q : list Event → result B → Prop) :
  runs m h (λ new r, match r with Ok a => runs (f a) (new ++ h) (λ new' r', Q (new' ++ new) r') | Err e => Q new (Err e) end) →
  runs (m ≫= f) h Q.
Proof.
  intros (new & r & Hm & HQ). unfold runs, mbind, Prog_bind. rewrite Hm. destruct r as [a|e].
  - destruct HQ as (new' & r' & -> & HQ). exists (new' ++ new), r'. by rewrite app_assoc.
  - by exists new, (Err e).
Qed.

Lemma runs_wrapping {A} format (m : Prog A) h (Q : list Event → result A → Prop) :
  runs m h (λ new r, Q new (wrap_err format r)) → runs (wrapping format m) h Q.
Proof. intros (new & r & Hm & HQ). unfold runs, wrapping. rewrite Hm. eauto. Qed.

Lemma runs_attempt {A} (m : Prog A) h (Q : list Event → result (result A) → Prop) :
  runs m h (λ new r, Q new (Ok r)) → runs (attempt m) h Q.
Proof. intros (new & r & Hm & HQ). unfold runs, attempt. rewrite Hm. eauto. Qed.

Lemma runs_emits {A} (P : Event → Prop) (m : Prog A) h (Q : list Event → result A → Prop) :
  emits P m → (∀ new r, m h = (new ++ h, r) → Forall P new → Q new r) → runs m h Q.
Proof. intros Hm HQ. destruct (Hm h) as (new & Hnew & Hall). destruct (m h) as [h' r] eqn:Hr. simpl in Hnew. subst h'. exists new, r. eauto. Qed.

Lemma runs_conseq {A} (m : Prog A) h (P Q : list Event → result A → Prop) : runs m h P → (∀ new r, P new r → Q new r) → runs m h Q.
Proof. intros (new & r & Hm & HP) H. exists new, r. eauto. Qed.

(** Evaluates a program up to its next call. *)
Ltac step :=
  repeat first
    [ apply runs_ret | apply runs_lift | apply runs_bind | apply runs_wrapping | apply runs_attempt | apply runs_call ];
  cbn [wrap_err app].

(** ** Guarded runs

    A weakest precondition over programs: every event satisfies a guard that may look
    at the history before it, and the outcome a condition on the history after it. *)

Fixpoint guarded (G : list Event → Event → Prop) (h new : list Event) : Prop :=
  match new with
  | [] => True
  | e :: before => G (before ++ h) e ∧ guarded G h before
  end.

Definition wp {A} (G : list Event → Event → Prop) (m : Prog A) (Φ : list Event → result A → Prop) (h : list Event) : Prop :=
  ∃ new r, m h = (new ++ h, r) ∧ guarded G h new ∧ Φ (new ++ h) r.

Lemma guarded_app G h old new : guarded G h old → guarded G (old ++ h) new → guarded G h (new ++ old).
Proof. intros Hold. induction new as [|e new IH]; simpl; [done|]. rewrite <-app_assoc. by intros [? ?%IH]. Qed.

Lemma guarded_weaken (G G' : list Event → Event → Prop) h new : guarded G h new → (∀ before e, G (before ++ h) e → G' (before ++ h) e) → guarded G' h new.
Proof. intros Hg HG. induction new as [|e new IH]; simpl in *; [done|]. destruct Hg. auto. Qed.

Lemma guarded_at G h new after e before : guarded G h new → new = after ++ e :: before → G (before ++ h) e.
Proof. intros Hg ->. induction after as [|e' after IH]; simpl in Hg; [by destruct Hg|]. by apply IH, Hg. Qed.

Lemma wp_ret {A} G (a : A) Φ h : Φ h (Ok a) → wp G (mret a) Φ h.
Proof. intros. by exists [], (Ok a). Qed.

Lemma wp_lift {A} G (r : result A) Φ h : Φ h r → wp G (lift r) Φ h.
Proof. intros. by exists [], r. Qed.

Lemma wp_call {A} (G : list Event → Event → Prop) e (answer : list Event → result A) Φ h : G h e → Φ (e :: h) (answer h) → wp G (call e answer) Φ h.
Proof. intros. by exists [e], (answer h). Qed.

Lemma wp_bind {A B} G (m : Prog A) (f : A → Prog B) Φ h :
  wp G m (λ h' r, match r with Ok a => wp G (f a) Φ h' | Err e => Φ h' (Err e) end) h → wp G (m ≫= f) Φ h.
Proof.
  intros (new & r & Hm & Hg & Hr). unfold wp, mbind, Prog_bind. rewrite Hm. destruct r as [a|e].
  - destruct Hr as (new' & r' & -> & Hg' & Hr'). exists (new' ++ new), r'. rewrite <-app_assoc. split_and!; [done| |done]. by apply guarded_app.
  - by exists new, (Err e).
Qed.

Lemma wp_wrapping {A} G format (m : Prog A) Φ h : wp G m (λ h' r, Φ h' (wrap_err format r)) h → wp G (wrapping format m) Φ h.
Proof. intros (new & r & Hm & Hg & Hr). unfold wp, wrapping. rewrite Hm. eauto. Qed.

Lemma wp_attempt {A} G (m : Prog A) Φ h : wp G m (λ h' r, Φ h' (Ok r)) h → wp G (attempt m) Φ h.
Proof. intros (new & r & Hm & Hg & Hr). unfold wp, attempt. rewrite Hm. exists new, (Ok r). eauto. Qed.

Lemma wp_conseq {A} G (m : Prog A) (Φ Ψ : list Event → result A → Prop) h : wp G m Φ h → (∀ h' r, Φ h' r → Ψ h' r) → wp G m Ψ h.
Proof. intros (new & r & Hm & Hg & Hr) H. exists new, r. eauto. Qed.

(** A program whose events all satisfy [P], which is enough for the guard here. *)
Lemma wp_emits {A} (P : Event → Prop) G (m : Prog A) (Φ : list Event → result A → Prop) h :
  emits P m → (∀ before e, P e → G (before ++ h) e) → (∀ new r, m h = (new ++ h, r) → Forall P new → Φ (new ++ h) r) → wp G m Φ h.
Proof.
  intros Hm HG HΦ. destruct (Hm h) as (new & Hnew & Hall). destruct (m h) as [h' r] eqn:Hr. simpl in Hnew. subst h'. exists new, r.
  split_and!; [done| |by apply HΦ]. clear Hr HΦ. induction Hall; simpl; auto.
Qed.

(** Evaluates a program up to its next call or program. *)
Ltac walk :=
  repeat first
    [ apply wp_bind | apply wp_wrapping | apply wp_attempt | apply wp_ret | apply wp_lift
    | apply wp_call; [try done|] ];
  cbn [wrap_err].

(** What a guarded run says of the run itself. *)
Lemma wp_run {A} G (m : Prog A) Φ h h' r : wp G m Φ h → m h = (h', r) → h `suffix_of` h' ∧ Φ h' r.
Proof. intros (new & r' & Hm & _ & HΦ) Hr. rewrite Hm in Hr. injection Hr as <- <-. split; [by exists new|done]. Qed.

(** The guard may be weakened along the histories of the run, and the condition
    may use that the run only adds events. *)
Lemma wp_weaken {A} (G G' : list Event → Event → Prop) (m : Prog A) (Φ Ψ : list Event → result A → Prop) h :
  wp G m Φ h → (∀ h' e, h `suffix_of` h' → G h' e → G' h' e) → (∀ h' r, h `suffix_of` h' → Φ h' r → Ψ h' r) → wp G' m Ψ h.
Proof.
  intros (new & r & Hm & Hg & Hr) HG HΦ. exists new, r. split_and!; [done| |apply HΦ; [by exists new|done]].
  eapply guarded_weaken; [exact Hg|]. intros before e. apply HG. by exists before.
Qed.

Lemma wp_guard {A} (G G' : list Event → Event → Prop) (m : Prog A) Φ h :
  (∀ h' e, h `suffix_of` h' → G h' e → G' h' e) → wp G m Φ h → wp G' m Φ h.
Proof. intros HG Hm. by apply (wp_weaken G _ _ Φ). Qed.

(** The call [e] was made after [h0], when the history was [earlier], and before [h]. *)
Definition asked (h0 h : list Event) (e : Event) (earlier : list Event) : Prop := (e :: earlier) `suffix_of` h ∧ h0 `suffix_of` earlier.

Lemma asked_here h0 h e : h0 `suffix_of` h → asked h0 (e :: h) e h.
Proof. by split. Qed.

Lemma asked_within h0 h1 h h' e earlier : asked h1 h e earlier → h0 `suffix_of` h1 → h `suffix_of` h' → asked h0 h' e earlier.
Proof. intros [H1 H2] H3 H4. split; by etrans. Qed.

Lemma asked_later h0 h h' e earlier : asked h0 h e earlier → h `suffix_of` h' → asked h0 h' e earlier.
Proof. intros H Hs. by eapply asked_within. Qed.

(** The instance an event changes in Incus, if any. *)
Definition touches (e : Event) : option string :=
  match e with
  | SetState name _ | DeleteCall name | PromoteCall name _ | BindCall name _ | WriteFile name _ _ _ => Some name
  | CreateCall args => Some (Post_Name args)
  | _ => None
  end.
Definition harmless (e : Event) : Prop := touches e = None.
Definition about (name : string) (e : Event) : Prop := touches e = None ∨ touches e = Some name.

Lemma harmless_about name e : harmless e → about name e.
Proof. by left. Qed.

Section programs.
Context (api_not_found : error → bool) (api_mentions : string → error → bool) (w : Answers) (l : Incus_Provider).

Abbreviation DeleteInstance := (DeleteInstance api_not_found w l).
Abbreviation getManagedInstance := (getManagedInstance api_not_found w l).
Abbreviation owned f := (key_of f controllerIDKeyName = front_controllerID (front l)).

Lemma getManagedInstance_emits name : emits harmless (getManagedInstance name).
Proof. unfold IncusProvider.getManagedInstance, getCLI. emit; done. Qed.

Lemma getManagedInstance_owned name h h' f :
  getManagedInstance name h = (h', Ok f) → owned f ∧ ∃ h1, finds w h1 name = Ok f.
Proof.
  unfold IncusProvider.getManagedInstance. intros H. apply Prog_bind_Ok in H as (h1 & [] & _ & H).
  apply Prog_bind_Ok in H as (h2 & got & Hgot%attempt_Ok & H). unfold call in Hgot. injection Hgot as <- Hgot. destruct got as [f'|e].
  - apply Prog_bind_Ok in H as (h3 & [] & [-> Hown]%lift_Ok & [-> ->]%mret_Ok). apply fail_if_Ok in Hown. bool_hyps. eauto.
  - destruct (isNotFoundError api_not_found e); by apply lift_Ok in H as [_ H].
Qed.

Lemma setState_emits name action : emits (about name) (setState api_not_found w l name action).
Proof.
  unfold setState, getCLI. emit; try (by left); by right.
Qed.

Lemma delete_stopped_emits name : emits (about name) (delete_stopped api_not_found w name).
Proof. unfold delete_stopped, gone_or, release, reconcile. emit; try (by left); by right. Qed.

(** What one call of [DeleteInstance] does to Incus: nothing, or only to the
    instance its identifier resolves to, which it has read as its own controller's,
    after the lease of it was recorded as deleting. *)
Definition deletes (identifier : string) (h new : list Event) : Prop :=
  Forall harmless new ∨
  ∃ name f h1 before after, names_ w h (ResolveIdentity identifier) = Ok name ∧ finds w h1 name = Ok f ∧ owned f ∧
    new = after ++ MarkDeletingLease name :: before ∧ says w (before ++ h) (MarkDeletingLease name) = Ok tt ∧
    Forall harmless before ∧ Forall (about name) after.

Ltac quiet := left; repeat (constructor; [done|]); rewrite ?Forall_app; repeat split; by repeat constructor.

Lemma DeleteInstance_runs identifier h : runs (DeleteInstance identifier) h (λ new _, deletes identifier h new).
Proof.
  unfold IncusProvider.DeleteInstance. step. destruct (names_ w h (ResolveIdentity identifier)) as [name|e] eqn:Hname; cbn [wrap_err]; [|quiet].
  step. destruct (says w _ GetCLI) as [[]|e]; cbn [wrap_err]; [|quiet].
  apply runs_bind, runs_attempt. apply (runs_emits harmless); [apply getManagedInstance_emits|]. intros new managed Hman Hnew.
  destruct managed as [f|e].
  2:{ destruct (isNotFoundError api_not_found e); unfold release; step; quiet. }
  apply getManagedInstance_owned in Hman as [Hown [h1 Hf]]. step.
  set (before := CaptureDiagnostics name :: new ++ [GetCLI; ResolveIdentity identifier]).
  destruct (says w _ (MarkDeletingLease name)) as [[]|e] eqn:Hmark; cbn [wrap_err]; [|quiet].
  assert (∀ after, Forall (about name) after → deletes identifier h (after ++ MarkDeletingLease name :: before)) as Hdel.
  { intros after Hafter. right. exists name, f, h1, before, after. split_and!; try done.
    - unfold before. simpl. rewrite <-Hmark. by rewrite <-!app_assoc.
    - unfold before. constructor; [done|]. apply Forall_app. by split; [|repeat constructor]. }
  apply runs_bind, runs_attempt. apply (runs_emits (about name)); [apply setState_emits|]. intros stopping stopped _ Hstop.
  assert (∀ after, Forall (about name) after → deletes identifier h (after ++ stopping ++ MarkDeletingLease name :: before)) as Hdel'.
  { intros after Hafter. rewrite app_assoc. apply Hdel, Forall_app. done. }
  apply (runs_emits (about name)).
  - destruct stopped as [u|e]; [apply delete_stopped_emits|]. destruct (isNotFoundError api_not_found e); [unfold release; emit; by left|].
    destruct (cause_is errInstanceIsStopped e); [apply delete_stopped_emits|apply emits_lift].
  - intros new' r _ Hnew'. rewrite <-!app_assoc. by apply Hdel'.
Qed.

(** ** What single operations do, call by call *)

Abbreviation said h0 h e := (∃ earlier, asked h0 h e earlier ∧ says w earlier e = Ok tt).

(** A deletion acts on the instance its identifier resolves to, after it was read as
    the controller's own and the journal confirmed that its lease is being deleted. *)
Definition resolved (h0 h : list Event) (identifier n : string) : Prop :=
  (∃ earlier, asked h0 h (ResolveIdentity identifier) earlier ∧ names_ w earlier (ResolveIdentity identifier) = Ok n) ∧
  (∃ earlier f, asked h0 h (GetInstance n) earlier ∧ finds w earlier n = Ok f ∧ owned f) ∧
  said h0 h (MarkDeletingLease n).

(** Reading the instance, stopping it, or deleting it failed as not found. *)
Definition missing (h0 h : list Event) (n : string) : Prop :=
  ∃ earlier later e, h0 `suffix_of` earlier ∧ later `suffix_of` h ∧ isNotFoundError api_not_found e = true ∧
    (getManagedInstance n earlier = (later, Err e) ∨ setState api_not_found w l n "stop" earlier = (later, Err e) ∨
     (later = DeleteCall n :: earlier ∧ says w earlier (DeleteCall n) = Err e) ∨ (later = WaitDelete n :: earlier ∧ says w earlier (WaitDelete n) = Err e)).

(** What the identifier resolves to is deleted in Incus, or missing there and its
    lease given back. *)
Definition removed (h0 h : list Event) (identifier : string) : Prop :=
  ∃ n earlier, asked h0 h (ResolveIdentity identifier) earlier ∧ names_ w earlier (ResolveIdentity identifier) = Ok n ∧
    (said h0 h (DeleteCall n) ∧ said h0 h (WaitDelete n) ∨ missing h0 h n ∧ said h0 h (ReleaseLease n)).

Lemma said_within h0 h1 h h' e : said h1 h e → h0 `suffix_of` h1 → h `suffix_of` h' → said h0 h' e.
Proof. intros (earlier & Ha & ?) ? ?. exists earlier. split; [by eapply asked_within|done]. Qed.

Lemma resolved_within h0 h1 h h' identifier n : resolved h1 h identifier n → h0 `suffix_of` h1 → h `suffix_of` h' → resolved h0 h' identifier n.
Proof.
  intros ((x & Hx & ?) & (y & f & Hy & ?) & Hm) H1 H2. split_and!; [exists x|exists y, f|by eapply said_within]; (split; [by eapply asked_within|done]).
Qed.

Lemma missing_within h0 h1 h h' n : missing h1 h n → h0 `suffix_of` h1 → h `suffix_of` h' → missing h0 h' n.
Proof. intros (x & y & e & Hx & Hy & Hrest) Hs Hs'. exists x, y, e. split_and!; [by etrans|by etrans|apply Hrest..]. Qed.

Lemma removed_within h0 h1 h h' identifier : removed h1 h identifier → h0 `suffix_of` h1 → h `suffix_of` h' → removed h0 h' identifier.
Proof.
  intros (n & x & Hx & ? & Hr) H1 H2. exists n, x. split_and!; [by eapply asked_within|done|].
  destruct Hr as [[? ?]|[? ?]]; [left|right]; (split; [first [by eapply said_within|by eapply missing_within]|by eapply said_within]).
Qed.

(** What getting the instance gives, with the place of the read. *)
Lemma getManagedInstance_wp name h :
  wp (λ _, harmless) (getManagedInstance name)
    (λ h' r, ∀ f, r = Ok f → ∃ earlier, asked h h' (GetInstance name) earlier ∧ finds w earlier name = Ok f ∧ owned f) h.
Proof.
  unfold IncusProvider.getManagedInstance, getCLI. walk. destruct (says w h GetCLI) as [[]|e]; cbn [wrap_err]; [|done]. walk.
  destruct (finds w (GetCLI :: h) name) as [f|e] eqn:Hf; walk.
  - destruct (bool_decide _) eqn:Ho; cbn [negb fail_if]; walk; [|done]. bool_hyps. intros ? [= <-]. exists (GetCLI :: h).
    split_and!; [|done|done]. apply asked_here. by exists [GetCLI].
  - destruct (isNotFoundError api_not_found e); walk; done.
Qed.

Lemma setState_wp name action h :
  wp (λ _ e, ∀ n, touches e = Some n → e = SetState name action) (setState api_not_found w l name action) (λ _ _, True) h.
Proof.
  apply (wp_emits (λ e, ∀ n, touches e = Some n → e = SetState name action)); [|done|done].
  unfold setState, IncusProvider.getManagedInstance, getCLI. emit; done.
Qed.

Lemma gone_or_wp format name outcome next h0 h Φ :
  h0 `suffix_of` h → (outcome = Ok tt → wp (λ _, harmless) next Φ h) →
  (∀ e, outcome = Err e → isNotFoundError api_not_found e = true → Φ (ReleaseLease name :: h) (says w h (ReleaseLease name))) →
  (∀ e, Φ h (Err e)) → wp (λ _, harmless) (gone_or api_not_found w format name outcome next) Φ h.
Proof.
  intros Hs Hok Hgone Herr. unfold gone_or, release. destruct outcome as [[]|e]; [by apply Hok|].
  destruct (isNotFoundError api_not_found e) eqn:He; walk; [by eapply Hgone|apply Herr].
Qed.

(** Deleting the stopped instance. *)
Lemma delete_stopped_wp name h :
  wp (λ _ e, ∀ n, touches e = Some n → e = DeleteCall name) (delete_stopped api_not_found w name)
    (λ h' r, r = Ok tt → said h h' (DeleteCall name) ∧ said h h' (WaitDelete name) ∨ missing h h' name ∧ said h h' (ReleaseLease name)) h.
Proof.
  unfold delete_stopped. walk.
  set (h1 := DeleteCall name :: h). assert (h `suffix_of` h1) as H1 by (by exists [DeleteCall name]).
  apply (wp_guard (λ _, harmless)); [intros h' e _ Hq n; unfold harmless in Hq; congruence|].
  apply (gone_or_wp _ _ _ _ h h1); [done|..].
  - intros Hd. walk. set (h2 := WaitDelete name :: h1). assert (h `suffix_of` h2) as H2 by (by exists [WaitDelete name; DeleteCall name]).
    apply (gone_or_wp _ _ _ _ h h2); [done|..].
    + intros Hwait. unfold reconcile. walk. intros _. left. split; [exists h|exists h1]; (split; [|done]).
      * eapply asked_later; [by apply asked_here|by exists [ReconcileJournal; WaitDelete name]].
      * eapply asked_later; [by apply asked_here|by exists [ReconcileJournal]].
    + intros e He Hnf Hrel. right. split; [|exists h2; split; [by apply asked_here|done]].
      exists h1, h2, e. split_and!; [done|by exists [ReleaseLease name]|done|]. do 3 right. done.
    + done.
  - intros e He Hnf Hrel. right. split; [|exists h1; split; [by apply asked_here|done]].
    exists h, h1, e. split_and!; [done|by exists [ReleaseLease name]|done|]. do 2 right. by left.
  - done.
Qed.

Definition deleting (h0 : list Event) (identifier : string) (h : list Event) (e : Event) : Prop :=
  ∀ n, touches e = Some n → (e = SetState n "stop" ∨ e = DeleteCall n) ∧ resolved h0 h identifier n.

Lemma harmless_deleting h0 identifier h e : harmless e → deleting h0 identifier h e.
Proof. unfold harmless. intros He n Hn. congruence. Qed.

Lemma DeleteInstance_wp identifier h :
  wp (deleting h identifier) (DeleteInstance identifier) (λ h' r, r = Ok tt → removed h h' identifier) h.
Proof.
  unfold IncusProvider.DeleteInstance, getCLI. apply wp_bind, wp_wrapping, wp_call; [by apply harmless_deleting|].
  destruct (names_ w h (ResolveIdentity identifier)) as [name|e] eqn:Hname; cbn [wrap_err]; [|done].
  set (h1 := ResolveIdentity identifier :: h). assert (asked h h1 (ResolveIdentity identifier) h) as Hres by by apply asked_here.
  apply wp_bind, wp_wrapping, wp_call; [by apply harmless_deleting|]. destruct (says w h1 GetCLI) as [[]|e]; cbn [wrap_err]; [|done].
  set (h2 := GetCLI :: h1).
  assert (h `suffix_of` h2) as Hs2 by (by exists [GetCLI; ResolveIdentity identifier]).
  assert (∀ h', h1 `suffix_of` h' → asked h h' (ResolveIdentity identifier) h) as Hasked by (intros; by eapply asked_later).
  apply wp_bind, wp_attempt. destruct (getManagedInstance_wp name h2) as (new & managed & Hget & Hq & Hman). exists new, managed. split; [done|]. split.
  { eapply guarded_weaken; [exact Hq|]. intros before e. by apply harmless_deleting. }
  set (h3 := new ++ h2) in *. assert (h2 `suffix_of` h3) as Hs3 by by exists new. assert (h1 `suffix_of` h2) as Hs12 by by exists [GetCLI].
  assert (h `suffix_of` h3) as Hs03 by by transitivity h2. assert (h1 `suffix_of` h3) as Hs13 by by transitivity h2.
  destruct managed as [f|e].
  2:{ destruct (isNotFoundError api_not_found e) eqn:Hnf; [|walk; done]. unfold release. walk. intros Hrel. exists name, h.
      split_and!; [by apply Hasked, suffix_cons_r|done|]. right. split.
      - exists h2, h3, e. split_and!; [done|by exists [ReleaseLease name]|done|by left].
      - exists h3. split; [by apply asked_here|done]. }
  destruct (Hman f eq_refl) as (read & Hread & Hfound & Hown). clear Hman.
  apply wp_bind, wp_attempt, wp_call; [by apply harmless_deleting|]. set (h4 := CaptureDiagnostics name :: h3).
  apply wp_bind, wp_wrapping, wp_call; [by apply harmless_deleting|]. set (h5 := MarkDeletingLease name :: h4).
  destruct (says w h4 (MarkDeletingLease name)) as [[]|e] eqn:Hmark; cbn [wrap_err]; [|done].
  assert (h3 `suffix_of` h5) as Hs5 by (by exists [MarkDeletingLease name; CaptureDiagnostics name]).
  assert (h1 `suffix_of` h5) as Hs15 by by transitivity h3. assert (h `suffix_of` h5) as Hs05 by by transitivity h3.
  assert (resolved h h5 identifier name) as Hresolved.
  { split_and!.
    - exists h. split; [by apply Hasked|done].
    - exists read, f. split_and!; [|done|done]. by eapply asked_within.
    - exists h4. split; [|done]. apply asked_here. by apply suffix_cons_r. }
  assert (∀ h' e, h5 `suffix_of` h' → (∀ n, touches e = Some n → e = SetState name "stop" ∨ e = DeleteCall name) → deleting h identifier h' e) as Hdel.
  { intros h' e Hs He n Hn. assert (n = name) as -> by (destruct (He n Hn); subst e; by injection Hn).
    split; [by eapply He|by eapply resolved_within]. }
  apply wp_bind, wp_attempt. destruct (setState_wp name "stop" h5) as (new' & stopped & Hstop & Hq' & _). exists new', stopped. split; [done|]. split.
  { eapply (guarded_weaken _ _ _ _ Hq'). intros before e He. apply Hdel; [by exists before|]. intros n Hn. left. by eapply He. }
  set (h6 := new' ++ h5) in *. assert (h5 `suffix_of` h6) as Hs6 by by exists new'. assert (h `suffix_of` h6) as Hs06 by by transitivity h5. assert (h1 `suffix_of` h6) as Hs16 by by transitivity h5.
  assert (wp (deleting h identifier) (delete_stopped api_not_found w name) (λ h' r, r = Ok tt → removed h h' identifier) h6) as Hdelete.
  { eapply wp_weaken; [apply delete_stopped_wp| |].
    - intros h' e Hs He. apply Hdel; [by transitivity h6|]. intros n Hn. right. by eapply He.
    - intros h' r Hs Hr Hok. exists name, h. split_and!; [apply Hasked; by transitivity h6|done|].
      destruct (Hr Hok) as [[? ?]|[? ?]]; [left|right]; (split; [first [by eapply said_within|by eapply missing_within]|by eapply said_within]). }
  destruct stopped as [u|e]; [done|]. destruct (isNotFoundError api_not_found e) eqn:Hnf; [|by destruct (cause_is errInstanceIsStopped e); [|walk]].
  unfold release. walk. intros Hrel. exists name, h. split_and!; [by apply Hasked, suffix_cons_r|done|].
  right. split; [|exists h6; split; [by apply asked_here|done]].
  exists h5, h6, e. split_and!; [done|by exists [ReleaseLease name]|done|]. right. by left.
Qed.

(** ** One pass over a warm pool *)

Abbreviation ReconcileWarm := (ReconcileWarm api_not_found api_mentions w l).
Abbreviation createWarm := (createWarm api_not_found api_mentions w l).
Abbreviation create_loop := (create_loop api_not_found api_mentions w l).
Abbreviation promote_one := (promote_one api_not_found api_mentions w l).
Abbreviation sort_instance := (sort_instance api_not_found w l).

Definition attempts (c : Creation) : nat := (length (made c) + length (used c) + length (dropped c))%nat.

(** The loop makes its number of attempts, unless capacity defers it. *)
Lemma create_loop_attempts n flavor c h h' c' :
  create_loop n flavor c h = (h', Ok c') → stopped c = None →
  (attempts c' = attempts c + n ∧ stopped c' = None ∨ attempts c' < attempts c + n ∧ is_Some (stopped c'))%nat ∧
  (length (made c') ≤ length (made c) + n)%nat.
Proof.
  revert c h. induction n as [|n IH]; intros c h H Hs.
  { cbn [IncusProvider.create_loop] in H. apply mret_Ok in H as [_ <-]. split; [left; split; [lia|done]|lia]. }
  cbn [IncusProvider.create_loop] in H. apply Prog_bind_Ok in H as (h1 & outcome & _ & H). destruct outcome.
  1,2,4: apply IH in H as [Ha Hm]; [|done]; unfold attempts in *; cbn [made used dropped stopped] in *; rewrite ?length_app in *; simpl in *;
    split; [|lia]; destruct Ha as [[? ?]|[? ?]]; [left|right]; (split; [lia|done]).
  apply mret_Ok in H as [_ <-]. unfold attempts. cbn. split; [|lia]. right. split; [lia|by eexists].
Qed.

Abbreviation no_creation := {| made := []; used := []; dropped := []; stopped := None |}.

Lemma getWarmCreateArgs_emits flavor name : emits harmless (getWarmCreateArgs w l flavor name).
Proof. unfold getWarmCreateArgs, getProfiles, getCLI. emit; done. Qed.

(** What the arguments of a warm instance are. *)
Lemma getWarmCreateArgs_Ok flavor name h h' post :
  getWarmCreateArgs w l flavor name h = (h', Ok post) →
  ∃ pool image, find_pool (platform (front l)) flavor = Some pool ∧ workerImagePolicy l flavor = Ok image ∧
    Post_Name post = name ∧ Post_Type post = image_type (Image_InstanceType image) ∧
    Post_Profiles post = (if IncludeDefaultProfile l then ["default"] else []) ++ [flavor] ∧
    Post_Config post = isolation_config l pool image ∪ warm_metadata l pool image flavor ∧ Post_Fingerprint post = Fingerprint image ∧
    Post_Architecture post = "x86_64".
Proof.
  unfold getWarmCreateArgs, getProfiles. destruct (find_pool _ flavor) as [pool|] eqn:Hp; [|by intros [_ ?]%lift_Ok].
  intros H. apply Prog_bind_Ok in H as (h1 & image & [-> Himg]%lift_Ok & H). apply Prog_bind_Ok in H as (h2 & profiles & Hpr & H).
  apply Prog_bind_Ok in H as (h3 & resolved & _ & H). apply Prog_bind_Ok in H as (h4 & [] & [-> Hval]%lift_Ok & [_ <-]%mret_Ok).
  apply Prog_bind_Ok in Hpr as (h5 & [] & _ & Hpr). apply Prog_bind_Ok in Hpr as (h6 & names & _ & Hpr).
  apply Prog_bind_Ok in Hpr as (h7 & [] & _ & [_ <-]%mret_Ok). exists pool, image. cbn. split_and!; try done.
  unfold validateResolvedWorkerImage in Hval. destruct resolved as [i|]; [|done]. apply bind_Ok in Hval as ([] & Hfp%fail_if_Ok & _).
  cbn. by bool_hyps.
Qed.

(** ** Which instances a pass may change *)

(** An instance this pass listed as its controller's warm capacity of the pool. *)
Definition listed_as (lifecycle : string) (h0 h : list Event) (flavor n : string) : Prop :=
  ∃ earlier fs f, asked h0 h ListInstances earlier ∧ lists w earlier = Ok fs ∧ f ∈ fs ∧ owned f ∧ key_of f flavorKey = flavor ∧
    key_of f lifecycleKey = lifecycle ∧ n = name_of f.

(** A name this pass made up with a fresh suffix, for which capacity was granted. *)
Definition named (h0 h : list Event) (flavor n : string) : Prop :=
  ∃ earlier suffix decision, asked h0 h (AdmitWarmCall flavor n) (NewSuffix :: earlier) ∧ h0 `suffix_of` earlier ∧
    names_ w earlier NewSuffix = Ok suffix ∧ n = warm_name flavor suffix ∧
    decides w (NewSuffix :: earlier) n = Ok decision ∧ Decision_Admitted decision = true.

Definition candidate (h0 h : list Event) (flavor n : string) : Prop :=
  listed_as lifecycleWarmPreparing h0 h flavor n ∨ listed_as lifecycleWarmUnregistered h0 h flavor n ∨ named h0 h flavor n.

Lemma listed_later lifecycle h0 h h' flavor n : listed_as lifecycle h0 h flavor n → h `suffix_of` h' → listed_as lifecycle h0 h' flavor n.
Proof. intros (x & fs & f & Hx & Hrest) Hs. exists x, fs, f. split; [by eapply asked_later|done]. Qed.

Lemma named_within h0 h1 h h' flavor n : named h1 h flavor n → h0 `suffix_of` h1 → h `suffix_of` h' → named h0 h' flavor n.
Proof. intros (x & suffix & d & Hx & Hs1 & Hrest) Hs Hs'. exists x, suffix, d. split_and!; [by eapply asked_within|by etrans|apply Hrest..]. Qed.

Lemma named_later h0 h h' flavor n : named h0 h flavor n → h `suffix_of` h' → named h0 h' flavor n.
Proof. intros Hn Hs. by eapply named_within. Qed.

Lemma candidate_later h0 h h' flavor n : candidate h0 h flavor n → h `suffix_of` h' → candidate h0 h' flavor n.
Proof. intros [?|[?|?]] Hs; [left|right; left|right; right]; first [by eapply listed_later|by eapply named_later]. Qed.

(** What a pass may do after [h]: launch a name it made up, promote that or what it
    listed as preparing, and stop and delete what a candidate resolves to. *)
Definition entitled (h0 : list Event) (flavor : string) (h : list Event) (e : Event) : Prop :=
  match e with
  | CreateCall post => named h0 h flavor (Post_Name post)
  | PromoteCall n _ => named h0 h flavor n ∨ listed_as lifecycleWarmPreparing h0 h flavor n
  | SetState n action =>
      action = "start" ∧ named h0 h flavor n ∨
      action = "stop" ∧ ∃ identifier, candidate h0 h flavor identifier ∧ resolved h0 h identifier n
  | DeleteCall n => ∃ identifier, candidate h0 h flavor identifier ∧ resolved h0 h identifier n
  | BindCall _ _ | WriteFile _ _ _ _ => False
  | _ => True
  end.

Lemma harmless_entitled h0 flavor h e : harmless e → entitled h0 flavor h e.
Proof. by destruct e. Qed.

Section entitled.
Context (h0 : list Event) (flavor : string).
Abbreviation G := (entitled h0 flavor).

Lemma wp_quiet {A} (m : Prog A) (Φ : list Event → result A → Prop) h :
  emits harmless m → (∀ h' r, m h = (h', r) → h `suffix_of` h' → Φ h' r) → wp G m Φ h.
Proof.
  intros Hm HΦ. apply (wp_emits harmless); [done|intros; by apply harmless_entitled|]. intros new r Hr _. apply HΦ; [done|by exists new].
Qed.

Lemma wp_ask {A} e (answer : list Event → result A) (Φ : list Event → result A → Prop) h :
  harmless e → Φ (e :: h) (answer h) → wp G (call e answer) Φ h.
Proof. intros He HΦ. apply wp_call; [by apply harmless_entitled|done]. Qed.

Lemma delete_wp identifier h :
  h0 `suffix_of` h → candidate h0 h flavor identifier →
  wp G (DeleteInstance identifier) (λ h' r, h `suffix_of` h' ∧ (r = Ok tt → removed h0 h' identifier)) h.
Proof.
  intros Hs Hc. eapply wp_weaken; [apply DeleteInstance_wp| |].
  - intros h' e Hs' He. destruct (touches e) as [n|] eqn:Hn; [|by apply harmless_entitled].
    destruct (He n Hn) as [[-> | ->] Hr]; simpl; [right; split; [done|]|]; exists identifier; (split; [by eapply candidate_later|by eapply resolved_within]).
  - intros h' r Hs' Hr. split; [done|]. intros Hok. by eapply removed_within; [apply Hr|..].
Qed.

(** ** Promotion *)

(** The instance was read as ready, or its evidence was read and it was promoted. *)
Definition proved_ready (h0 h : list Event) (n : string) : Prop :=
  (∃ earlier f, asked h0 h (GetInstance n) earlier ∧ finds w earlier n = Ok f ∧ key_of f lifecycleKey = lifecycleWarmUnregistered ∧
     validateWarmReadyMetadata l f flavor = Ok tt) ∨
  (∃ earlier response config, asked h0 h (ReadEvidence n) earlier ∧ evidence w earlier n = Ok response ∧ Evidence_Data response = Ok warmReadyEvidence ∧
     config !! lifecycleKey = Some lifecycleWarmUnregistered ∧ config !! warmReadyKey = Some "true" ∧
     said h0 h (PromoteCall n config) ∧ said h0 h (WaitPromote n)).

Lemma proved_within h1 h h' n : proved_ready h1 h n → h0 `suffix_of` h1 → h `suffix_of` h' → proved_ready h0 h' n.
Proof.
  intros [(x & f & Hx & Hrest)|(x & r & c & Hx & He & Hd & Hl & Hr & Hp & Hw)] Hs Hs'; [left; exists x, f|right; exists x, r, c].
  - split; [by eapply asked_within|done].
  - split_and!; [by eapply asked_within|done..|by eapply said_within|by eapply said_within].
Qed.

Lemma fetch_twice_wp name h (Φ : list Event → result InstanceFull → Prop) :
  (∀ h' f earlier, h `suffix_of` h' → asked h h' (GetInstance name) earlier → finds w earlier name = Ok f → Φ h' (Ok f)) →
  (∀ h' e, h `suffix_of` h' → Φ h' (Err e)) → wp G (fetch_twice api_not_found w name) Φ h.
Proof.
  intros Hok Herr. unfold fetch_twice. apply wp_bind, wp_attempt, wp_ask; [done|]. cbn.
  assert (h `suffix_of` GetInstance name :: h) as H1 by (by apply suffix_cons_r).
  destruct (finds w h name) as [f|e] eqn:Hf; [apply wp_ret; by apply (Hok _ f h); [..|apply asked_here|]|].
  destruct (isNotFoundError api_not_found e); [apply wp_lift; by apply Herr|]. apply wp_ask; [done|].
  destruct (finds w (GetInstance name :: h) name) as [f|e'] eqn:Hf'; [|by apply Herr, suffix_cons_r].
  by apply (Hok _ f (GetInstance name :: h)); [apply suffix_cons_r|apply asked_here|].
Qed.

Lemma promote_wp name h :
  (∀ h', h `suffix_of` h' → named h0 h' flavor name ∨ listed_as lifecycleWarmPreparing h0 h' flavor name) →
  wp G (promoteWarmReady api_not_found w l name flavor) (λ h' r, h `suffix_of` h' ∧ (r = Ok true → proved_ready h h' name)) h.
Proof.
  intros Hn. unfold promoteWarmReady. apply wp_bind, wp_wrapping, fetch_twice_wp; [|done]. intros h1 f earlier Hs1 Hasked Hf. cbn [wrap_err].
  destruct (bool_decide (key_of f lifecycleKey = lifecycleWarmUnregistered)) eqn:Hu.
  { apply wp_bind, wp_lift. destruct (validateWarmReadyMetadata l f flavor) as [[]|e] eqn:Hv; [|done]. apply wp_ret. split; [done|]. intros _.
    left. exists earlier, f. split_and!; try done. by apply bool_decide_eq_true in Hu. }
  destruct (negb (bool_decide (key_of f lifecycleKey = lifecycleWarmPreparing))); [by apply wp_lift|].
  apply wp_bind, wp_attempt, wp_ask; [done|]. set (h2 := ReadEvidence name :: h1). assert (h `suffix_of` h2) as Hs2 by by apply suffix_cons_r.
  destruct (evidence w h1 name) as [response|e] eqn:He; [|destruct (isNotFoundError api_not_found e); [by apply wp_ret|by apply wp_lift]].
  apply wp_bind, wp_wrapping, wp_lift. destruct (Evidence_Data response) as [data|e] eqn:Hd; [|done]. cbn [wrap_err].
  apply wp_bind, wp_lift. destruct (valid_evidence response data) eqn:Hval; [|done]. cbn [negb fail_if].
  apply wp_bind, wp_wrapping, wp_call; [by apply Hn|]. set (h3 := PromoteCall name (promoted_config f) :: h2).
  assert (h `suffix_of` h3) as Hs3 by by apply suffix_cons_r.
  destruct (says w h2 (PromoteCall name (promoted_config f))) as [[]|e] eqn:Hp; [|done]. cbn [wrap_err].
  apply wp_bind, wp_wrapping, wp_ask; [done|]. assert (h `suffix_of` WaitPromote name :: h3) as Hs4 by by apply suffix_cons_r.
  destruct (says w h3 (WaitPromote name)) as [[]|e] eqn:Hw; [|done]. cbn [wrap_err]. apply wp_ret. split; [done|]. intros _.
  right. exists h1, response, (promoted_config f).
  assert (asked h (WaitPromote name :: h3) (ReadEvidence name) h1) as Hread.
  { eapply asked_later; [by apply asked_here|]. by exists [WaitPromote name; PromoteCall name (promoted_config f)]. }
  unfold valid_evidence in Hval. rewrite !andb_true_iff, bool_decide_eq_true in Hval. destruct Hval as (((((_ & ->) & _) & _) & _) & _).
  split_and!; try done.
  - unfold promoted_config. rewrite lookup_insert_ne by done. apply lookup_insert_eq.
  - apply lookup_insert_eq.
  - exists h2. split; [|done]. eapply asked_later; [by apply asked_here|]. by exists [WaitPromote name].
  - exists h3. split; [by apply asked_here|done].
Qed.

(** ** Creation *)

Definition launched (h : list Event) (n : string) : Prop :=
  ∃ post, Post_Name post = n ∧ said h0 h (CreateCall post) ∧ said h0 h (SetState n "start").

(** What the outcome of one creation stands for. *)
Definition carried_out (h : list Event) (outcome : WarmOutcome) : Prop :=
  match outcome with
  | WarmCreated n => named h0 h flavor n ∧ launched h n ∧ proved_ready h0 h n
  | WarmConsumed n => named h0 h flavor n ∧ launched h n
  | WarmAbandoned n => named h0 h flavor n ∧ removed h0 h n
  | WarmDeferred _ => True
  end.

Lemma launched_later h h' n : launched h n → h `suffix_of` h' → launched h' n.
Proof. intros (post & Hn & Hc & Hs) Hsuf. exists post. split_and!; [done|by eapply said_within..]. Qed.

Lemma carried_later h h' o : carried_out h o → h `suffix_of` h' → carried_out h' o.
Proof.
  intros Ho Hs. destruct o; simpl in *; [destruct Ho as (? & ? & ?)|destruct Ho as (? & ?)|done|destruct Ho as (? & ?)]; split_and!;
    first [by eapply named_later|by eapply launched_later|by eapply proved_within|by eapply removed_within].
Qed.

Lemma await_ready_wp n name h :
  h0 `suffix_of` h → named h0 h flavor name →
  wp G (await_ready api_not_found w l n name flavor) (λ h' r, h `suffix_of` h' ∧ (r = Ok tt → proved_ready h0 h' name)) h.
Proof.
  revert h. induction n as [|n IH]; intros h Hs Hn; cbn [await_ready];
    (apply wp_bind; eapply wp_conseq; [apply promote_wp; intros h' Hs'; left; by eapply named_later|]; intros h1 [[]|e] [Hs1 Hr]; [|..|done]).
  1,3: apply wp_ret; split; [done|]; intros _; by eapply proved_within; [apply Hr|..].
  - by apply wp_lift.
  - eapply wp_conseq; [apply IH; [by etrans|by eapply named_later]|]. intros h2 r [Hs2 Hr2]. split; [by etrans|done].
Qed.

Lemma launch_wp post h :
  h0 `suffix_of` h → named h0 h flavor (Post_Name post) →
  wp G (launchInstance w l post) (λ h' r, h `suffix_of` h' ∧ (r = Ok tt → launched h' (Post_Name post))) h.
Proof.
  intros Hs Hn. unfold launchInstance, getCLI. apply wp_bind, wp_wrapping, wp_ask; [done|].
  assert (h `suffix_of` GetCLI :: h) as H1 by by apply suffix_cons_r. destruct (says w h GetCLI) as [[]|e]; cbn [wrap_err]; [|done].
  apply wp_bind. apply wp_quiet; [destruct (placementLocked l); emit; done|]. intros h2 r2 _ Hs2. destruct r2 as [[]|e]; [|split; [by etrans|done]].
  assert (h `suffix_of` h2) as Hs02 by by etrans.
  apply wp_bind, wp_attempt, wp_call; [by eapply named_later|]. set (h3 := CreateCall post :: h2). assert (h `suffix_of` h3) as Hs03 by by apply suffix_cons_r.
  apply wp_bind, wp_attempt, wp_quiet; [destruct (placementLocked l); emit; done|]. intros h4 unlocked _ Hs4. assert (h `suffix_of` h4) as Hs04 by by transitivity h3.
  apply wp_bind. destruct (says w h2 (CreateCall post)) as [[]|e] eqn:Hcreate; [|by apply wp_lift]. apply wp_wrapping, wp_lift.
  destruct unlocked as [[]|e]; cbn [wrap_err]; [|done].
  apply wp_bind, wp_wrapping, wp_ask; [done|]. set (h5 := WaitCreate (Post_Name post) :: h4). assert (h `suffix_of` h5) as Hs05 by by apply suffix_cons_r.
  destruct (says w h4 _) as [[]|e]; cbn [wrap_err]; [|done].
  apply wp_bind, wp_wrapping, wp_call; [left; split; [done|by eapply named_later]|].
  set (h6 := SetState (Post_Name post) "start" :: h5). assert (h `suffix_of` h6) as Hs06 by by apply suffix_cons_r.
  destruct (says w h5 _) as [[]|e] eqn:Hstart; cbn [wrap_err]; [|done].
  apply wp_wrapping, wp_ask; [done|]. split; [by apply suffix_cons_r|]. intros _. exists post. split_and!; [done|..].
  - exists h2. split; [|done]. eapply asked_later; [apply asked_here; by etrans|]. fold h3. apply suffix_cons_r, suffix_cons_r, suffix_cons_r. done.
  - exists h5. split; [|done]. eapply asked_later; [apply asked_here; by etrans|]. by apply suffix_cons_r.
Qed.

Lemma cleaning_wp created name e h :
  h0 `suffix_of` h → candidate h0 h flavor name →
  wp G (cleaning api_not_found w l created name e) (λ h' r, h `suffix_of` h' ∧ ∀ o, r = Ok o → carried_out h' o) h.
Proof.
  intros Hs Hc. unfold cleaning, release. apply wp_bind, wp_attempt. destruct created.
  - eapply wp_conseq; [by apply delete_wp|]. intros h1 r [Hs1 _]. by apply wp_lift.
  - apply wp_ask; [done|]. apply wp_lift. split; [by apply suffix_cons_r|done].
Qed.

Lemma await_wp name h :
  h0 `suffix_of` h → named h0 h flavor name → launched h name →
  wp G (await_warm api_not_found api_mentions w l name flavor) (λ h' r, h `suffix_of` h' ∧ ∀ o, r = Ok o → carried_out h' o) h.
Proof.
  intros Hs Hn Hl. assert (∀ h', h `suffix_of` h' → h0 `suffix_of` h' ∧ named h0 h' flavor name ∧ launched h' name) as Hkeep.
  { intros h' Hs'. split_and!; [by etrans|by eapply named_later|by eapply launched_later]. }
  assert (∀ e h', h `suffix_of` h' →
    wp G (cleaning api_not_found w l true name e) (λ h' r, h `suffix_of` h' ∧ ∀ o, r = Ok o → carried_out h' o) h') as Hclean.
  { intros e h' Hs'. destruct (Hkeep h' Hs') as (? & ? & _). eapply wp_conseq; [apply cleaning_wp; [done|by right; right]|].
    intros h'' r [? ?]. split; [by etrans|done]. }
  assert (∀ h', h `suffix_of` h' → h `suffix_of` h' ∧ ∀ o, Ok (WarmConsumed name) = Ok o → carried_out h' o) as Hconsumed.
  { intros h' Hs'. split; [done|]. intros o [= <-]. simpl. by apply Hkeep. }
  unfold await_warm. apply wp_bind, wp_attempt, wp_ask; [done|]. set (h1 := MarkCreatedLease name :: h).
  assert (h `suffix_of` h1) as Hs1 by by apply suffix_cons_r. destruct (says w h _) as [[]|e1]; [|by apply Hclean].
  apply wp_bind, wp_attempt, wp_ask; [done|]. set (h2 := WaitAddress name :: h1). assert (h `suffix_of` h2) as Hs2 by by apply suffix_cons_r.
  destruct (says w h1 _) as [[]|e2]; [|destruct (warmInstanceRetiredDuringCreate _ _ e2); [apply wp_ret; by apply Hconsumed|by apply Hclean]].
  apply wp_bind, wp_attempt. destruct (Hkeep h2 Hs2) as (Hs02 & Hn2 & _).
  eapply wp_conseq; [unfold waitWarmReady; by apply (await_ready_wp (polls w h2))|]. intros h3 [[]|e3] [Hs3 Hr3];
    (assert (h `suffix_of` h3) as Hs03 by by transitivity h2); destruct (Hkeep h3 Hs03) as (Hs' & Hn3 & Hl3).
  { apply wp_ret. split; [done|]. intros o [= <-]. simpl. auto. }
  destruct (errors_is "timed out" e3); [|destruct (warmInstanceRetiredDuringCreate _ _ e3); [apply wp_ret; by apply Hconsumed|by apply Hclean]].
  apply wp_bind, wp_attempt. eapply wp_conseq; [apply delete_wp; [done|by right; right]|]. intros h4 [[]|e4] [Hs4 Hr4]; [|apply Hclean; by etrans].
  assert (h `suffix_of` h4) as Hs04 by by transitivity h3. destruct (Hkeep h4 Hs04) as (Hs0 & Hn4 & _).
  apply wp_bind, wp_attempt. eapply wp_conseq; [apply delete_wp; [done|by right; right]|]. intros h5 r5 [Hs5 _]. apply wp_ret.
  assert (h `suffix_of` h5) as Hs05 by by transitivity h4. split; [done|]. intros o [= <-]. simpl.
  split; [by eapply named_later|]. by eapply removed_within; [apply Hr4|..].
Qed.

Lemma create_wp h :
  h0 `suffix_of` h → wp G (createWarm flavor) (λ h' r, h `suffix_of` h' ∧ ∀ o, r = Ok o → carried_out h' o) h.
Proof.
  intros Hs. unfold IncusProvider.createWarm. apply wp_bind, wp_wrapping, wp_ask; [done|]. set (h1 := NewSuffix :: h).
  assert (h `suffix_of` h1) as Hs1 by by apply suffix_cons_r. destruct (names_ w h NewSuffix) as [suffix|e] eqn:Hsuffix; cbn [wrap_err]; [|done].
  set (name := warm_name flavor suffix). apply wp_bind, wp_wrapping, wp_ask; [done|]. set (h2 := AdmitWarmCall flavor name :: h1).
  assert (h `suffix_of` h2) as Hs2 by by apply suffix_cons_r. destruct (decides w h1 name) as [decision|e] eqn:Hdec; cbn [wrap_err]; [|done].
  destruct (Decision_Admitted decision) eqn:Hadm; cbn [negb]; [|apply wp_ret; split; [done|by intros o [= <-]]].
  assert (named h0 h2 flavor name) as Hnamed.
  { exists h, suffix, decision. split_and!; try done. apply asked_here. by apply suffix_cons_r. }
  apply wp_bind, wp_attempt, wp_quiet; [apply getWarmCreateArgs_emits|]. intros h3 args Hargs Hs3. assert (h `suffix_of` h3) as Hs03 by by transitivity h2.
  assert (h0 `suffix_of` h3) as Hs'3 by by transitivity h. assert (named h0 h3 flavor name) as Hn3 by by eapply named_later.
  destruct args as [post|e]; [|eapply wp_conseq; [apply cleaning_wp; [done|by right; right]|]; intros h' r [? ?]; split; [by etrans|done]].
  apply getWarmCreateArgs_Ok in Hargs as (_ & _ & _ & _ & Hname & _).
  apply wp_bind, wp_attempt. eapply wp_conseq; [apply launch_wp; [done|by rewrite Hname]|]. rewrite Hname. intros h4 [[]|e] [Hs4 Hl4];
    (assert (h `suffix_of` h4) as Hs04 by by transitivity h3); (assert (h0 `suffix_of` h4) as Hs'4 by by transitivity h).
  - eapply wp_conseq; [apply await_wp; [done|by eapply named_later|by apply Hl4]|]. intros h5 r [? ?]. split; [by transitivity h4|done].
  - destruct (isPlacementRefusal api_mentions e); [|by apply wp_lift]. unfold release. apply wp_bind, wp_wrapping, wp_ask; [done|].
    assert (h `suffix_of` ReleaseLease name :: h4) as Hs5 by by apply suffix_cons_r.
    destruct (says w h4 _) as [[]|e']; cbn [wrap_err]; [|done]. apply wp_ret. split; [done|by intros o [= <-]].
Qed.

(** Everything the loop reports. *)
Definition outcomes (c : Creation) : list WarmOutcome := (WarmCreated <$> made c) ++ (WarmConsumed <$> used c) ++ (WarmAbandoned <$> dropped c).

Lemma create_loop_wp n c h :
  h0 `suffix_of` h → Forall (carried_out h) (outcomes c) →
  wp G (create_loop n flavor c) (λ h' r, h `suffix_of` h' ∧ ∀ c', r = Ok c' → Forall (carried_out h') (outcomes c')) h.
Proof.
  revert c h. induction n as [|n IH]; intros c h Hs Hc; cbn [IncusProvider.create_loop]; [apply wp_ret; split; [done|by intros c' [= <-]]|].
  apply wp_bind. eapply wp_conseq; [by apply create_wp|]. intros h1 [o|e] [Hs1 Ho]; [|done]. specialize (Ho o eq_refl).
  assert (Forall (carried_out h1) (outcomes c)) as Hc1 by (eapply Forall_impl; [exact Hc|]; intros; by eapply carried_later).
  assert (h0 `suffix_of` h1) as Hs01 by by transitivity h.
  assert (∀ c', Forall (carried_out h1) (outcomes c') → wp G (create_loop n flavor c')
    (λ h' r, h `suffix_of` h' ∧ ∀ c', r = Ok c' → Forall (carried_out h') (outcomes c')) h1) as Hnext.
  { intros c' Hc'. eapply wp_conseq; [by apply IH|]. intros h2 r [? ?]. split; [by transitivity h1|done]. }
  unfold outcomes in Hc1. rewrite !Forall_app in Hc1.
  destruct o; [apply Hnext|apply Hnext|apply wp_ret; split; [done|]; intros c' [= <-]|apply Hnext];
    unfold outcomes; cbn [made used dropped]; rewrite ?fmap_app, !Forall_app, ?list_fmap_singleton, ?Forall_singleton; tauto.
Qed.

End entitled.

(** ** What a pass does, step by step *)

(** A loop keeps an invariant on what it has gone through. *)
Lemma wp_each {A S} (G : list Event → Event → Prop) (body : S → A → Prog S) (I : list A → list Event → S → Prop) xs s h :
  I [] h s →
  (∀ before x after h' s, xs = before ++ x :: after → h `suffix_of` h' → I before h' s →
     wp G (body s x) (λ h'' r, h' `suffix_of` h'' ∧ ∀ s', r = Ok s' → I (before ++ [x]) h'' s') h') →
  wp G (each body xs s) (λ h' r, h `suffix_of` h' ∧ ∀ s', r = Ok s' → I xs h' s') h.
Proof.
  intros HI Hbody. enough (∀ before rest h1 s, xs = before ++ rest → h `suffix_of` h1 → I before h1 s →
    wp G (each body rest s) (λ h' r, h1 `suffix_of` h' ∧ ∀ s', r = Ok s' → I xs h' s') h1) as H by by apply (H [] xs).
  clear HI s. intros before rest. revert before. induction rest as [|x rest IH]; intros before h1 s Hxs Hs HI; cbn [each].
  { rewrite app_nil_r in Hxs. subst. apply wp_ret. split; [done|]. by intros s' [= <-]. }
  apply wp_bind. eapply wp_conseq; [by apply (Hbody before x rest h1 s)|]. intros h2 [s'|e] [Hs2 Hs']; [|done].
  eapply wp_conseq; [apply (IH (before ++ [x])); [by rewrite <-app_assoc|by transitivity h1|by apply Hs']|].
  intros h3 r [? ?]. split; [by transitivity h2|done].
Qed.

Lemma wp_equation {A} G (m : Prog A) Φ h : wp G m Φ h → wp G m (λ h' r, m h = (h', r) ∧ Φ h' r) h.
Proof. intros (new & r & Hm & Hg & HΦ). exists new, r. done. Qed.

(** The names of the controller's instances of the pool in one lifecycle. *)
Definition pool_names (flavor lifecycle : string) (fs : list InstanceFull) : list string :=
  name_of <$> filter (λ f, owned f ∧ key_of f flavorKey = flavor ∧ key_of f lifecycleKey = lifecycle) fs.

Lemma pool_names_app flavor lifecycle fs f :
  pool_names flavor lifecycle (fs ++ [f]) =
  pool_names flavor lifecycle fs ++
    (if decide (owned f ∧ key_of f flavorKey = flavor ∧ key_of f lifecycleKey = lifecycle) then [name_of f] else []).
Proof. unfold pool_names. rewrite filter_app, fmap_app. f_equal. by case_decide; [rewrite filter_cons_True|rewrite filter_cons_False]. Qed.

Lemma pool_names_length flavor lifecycle fs : (length (pool_names flavor lifecycle fs) ≤ length fs)%nat.
Proof. unfold pool_names. rewrite length_fmap. apply length_filter. Qed.

Lemma pool_names_listed h0 h flavor lifecycle fs n earlier :
  asked h0 h ListInstances earlier → lists w earlier = Ok fs → n ∈ pool_names flavor lifecycle fs → listed_as lifecycle h0 h flavor n.
Proof.
  intros Ha Hfs (f & -> & [(Ho & Hf & Hl) Hin]%list_elem_of_filter)%list_elem_of_fmap. exists earlier, fs, f. done.
Qed.

(** After going through [before]: what is filed where, and that what is outdated is
    gone when the pass is applied. *)
Record filed (h0 : list Event) (flavor : string) (apply : bool) (before : list InstanceFull) (h : list Event) (s : Sorted_Inventory) : Prop := {
  filed_preparing : preparing s = pool_names flavor lifecycleWarmPreparing before;
  filed_ready : ready s ++ recycled s ≡ₚ pool_names flavor lifecycleWarmUnregistered before;
  filed_recycled : apply = true → ∀ n, n ∈ recycled s → removed h0 h n;
}.

Lemma filed_later h0 flavor apply before h h' s : filed h0 flavor apply before h s → h `suffix_of` h' → filed h0 flavor apply before h' s.
Proof. intros [Hp Hr Hrec] Hs. split; [done|done|]. intros Ha n Hn. by eapply removed_within; [apply Hrec|..]. Qed.

Lemma sort_instance_wp h0 flavor apply earlier fs before f s h :
  asked h0 h ListInstances earlier → lists w earlier = Ok fs → f ∈ fs → h0 `suffix_of` h → filed h0 flavor apply before h s →
  wp (entitled h0 flavor) (sort_instance flavor apply s f)
    (λ h' r, h `suffix_of` h' ∧ ∀ s', r = Ok s' → filed h0 flavor apply (before ++ [f]) h' s') h.
Proof.
  intros Ha Hfs Hin Hs0 Hfiled. pose proof Hfiled as [Hp Hr Hrec]. unfold IncusProvider.sort_instance. cbv zeta. unfold ours.
  assert (lifecycleWarmPreparing ≠ lifecycleWarmUnregistered) as Hne by done.
  assert (∀ lifecycle, ¬ (owned f ∧ key_of f flavorKey = flavor ∧ key_of f lifecycleKey = lifecycle) →
    pool_names flavor lifecycle (before ++ [f]) = pool_names flavor lifecycle before) as Hskip.
  { intros lifecycle Hn. rewrite pool_names_app, decide_False by done. apply app_nil_r. }
  assert (∀ lifecycle, owned f → key_of f flavorKey = flavor → key_of f lifecycleKey = lifecycle →
    pool_names flavor lifecycle (before ++ [f]) = pool_names flavor lifecycle before ++ [name_of f]) as Hadd.
  { intros lifecycle ? ? ?. by rewrite pool_names_app, decide_True. }
  destruct (bool_decide _ && bool_decide (key_of f flavorKey = flavor)) eqn:Hours; cbn [negb].
  2:{ assert (¬ (owned f ∧ key_of f flavorKey = flavor)) as Hn by (intros [? ?]; by rewrite !bool_decide_eq_true_2 in Hours).
      apply wp_ret. split; [done|]. intros s' [= <-]. split; rewrite ?Hskip by tauto; done. }
  apply andb_true_iff in Hours as [Hown%bool_decide_eq_true Hfl%bool_decide_eq_true].
  destruct (bool_decide (key_of f lifecycleKey = lifecycleWarmPreparing)) eqn:Hlp; [apply bool_decide_eq_true in Hlp|apply bool_decide_eq_false in Hlp].
  { apply wp_ret. split; [done|]. intros s' [= <-]. split; cbn [preparing ready recycled]; [by rewrite Hadd, Hp|by rewrite Hskip; [|intros (_ & _ & ?); congruence]|done]. }
  destruct (bool_decide (key_of f lifecycleKey = lifecycleWarmUnregistered)) eqn:Hlu; [apply bool_decide_eq_true in Hlu|apply bool_decide_eq_false in Hlu].
  2:{ destruct (bool_decide (key_of f lifecycleKey = lifecycleEphemeralOneJob)); apply wp_ret; (split; [done|]); intros s' [= <-];
        split; cbn [preparing ready recycled]; rewrite ?Hskip by tauto; done. }
  destruct (validateWarmReadyMetadata l f flavor) as [u|e].
  { apply wp_ret. split; [done|]. intros s' [= <-]. split; cbn [preparing ready recycled]; [by rewrite Hskip by tauto|rewrite Hadd by done; rewrite <-Hr; solve_Permutation|done]. }
  destruct (errors_is "warm instance is outdated" e); [|by apply wp_lift].
  assert (∀ h', h `suffix_of` h' → (apply = true → removed h0 h' (name_of f)) → filed h0 flavor apply (before ++ [f]) h'
    {| preparing := preparing s; ready := ready s; claimed := claimed s; recycled := recycled s ++ [name_of f] |}) as Hdone.
  { intros h' Hs Hrem. split; cbn [preparing ready recycled]; [by rewrite Hskip by tauto|rewrite Hadd by done; rewrite <-Hr; by rewrite app_assoc|].
    intros Happ n [Hn|Hn%list_elem_of_singleton]%elem_of_app; [by eapply removed_within; [apply Hrec|..]|subst n; by apply Hrem]. }
  apply wp_bind. destruct apply.
  - apply wp_wrapping. eapply wp_conseq; [apply delete_wp; [done|right; left; by exists earlier, fs, f]|]. intros h1 [[]|e'] [Hs1 Hr1]; [|done]. cbn [wrap_err].
    apply wp_ret. split; [done|]. intros s' [= <-]. apply Hdone; auto.
  - apply wp_ret, wp_ret. split; [done|]. intros s' [= <-]. by apply Hdone.
Qed.

Lemma promote_one_wp h0 flavor promoted name before h :
  h0 `suffix_of` h → listed_as lifecycleWarmPreparing h0 h flavor name → sublist promoted before → (∀ n, n ∈ promoted → proved_ready flavor h0 h n) →
  wp (entitled h0 flavor) (promote_one flavor promoted name)
    (λ h' r, h `suffix_of` h' ∧ ∀ promoted', r = Ok promoted' → sublist promoted' (before ++ [name]) ∧ ∀ n, n ∈ promoted' → proved_ready flavor h0 h' n) h.
Proof.
  intros Hs Hl Hsub Hp. unfold IncusProvider.promote_one. apply wp_bind, wp_attempt.
  eapply wp_conseq; [apply promote_wp; intros h' Hs'; right; by eapply listed_later|]. intros h1 r [Hs1 Hr1].
  assert (h1 `suffix_of` h1) as H1 by done.
  assert (h `suffix_of` h1 ∧ ∀ p', Ok promoted = Ok p' → sublist p' (before ++ [name]) ∧ ∀ n, n ∈ p' → proved_ready flavor h0 h1 n) as Hkeep.
  { split; [done|]. intros p' [= <-]. split; [by apply sublist_inserts_r|]. intros n Hn. by eapply proved_within; [apply Hp|..]. }
  destruct r as [[]|e]; [|by apply wp_ret|destruct (warmInstanceRetiredDuringCreate _ _ e); [by apply wp_ret|by apply wp_lift]].
  apply wp_ret. split; [done|]. intros p' [= <-]. split; [by apply sublist_app|].
  intros n [Hn|Hn%list_elem_of_singleton]%elem_of_app; [by apply (proj2 Hkeep promoted)|subst n]. by eapply proved_within; [apply Hr1|..].
Qed.

Lemma delete_all_wp h0 flavor format names deleted h :
  h0 `suffix_of` h → (∀ n, n ∈ names → candidate h0 h flavor n) →
  wp (entitled h0 flavor) (delete_all api_not_found w l format names deleted)
    (λ h' r, h `suffix_of` h' ∧ ∀ d, r = Ok d → d = deleted ++ names ∧ ∀ n, n ∈ names → removed h0 h' n) h.
Proof.
  intros Hs Hn. unfold delete_all.
  apply (wp_each _ _ (λ before h' d, d = deleted ++ before ∧ ∀ n, n ∈ before → removed h0 h' n)).
  { rewrite app_nil_r. split; [done|]. by intros n ?%elem_of_nil. }
  intros before x after h1 d Hxs Hs1 [-> Hrem]. apply wp_bind, wp_wrapping. eapply wp_conseq; [apply delete_wp; [by transitivity h|]|].
  { eapply candidate_later; [apply Hn; rewrite Hxs; set_solver|done]. }
  intros h2 [[]|e] [Hs2 Hr2]; [|done]. cbn [wrap_err]. apply wp_ret. split; [done|]. intros d' [= <-]. split; [by rewrite app_assoc|].
  intros n [Hin|Hin%list_elem_of_singleton]%elem_of_app; [by eapply removed_within; [apply Hrem|..]|subst; auto].
Qed.

Lemma elem_of_excess target ready n : n ∈ excess target ready → n ∈ ready.
Proof.
  unfold excess. rewrite elem_of_reverse. intros Hn. rewrite <-(take_drop (Z.to_nat (Z.max 0 target)) ready). apply elem_of_app. by right.
Qed.


(** The ready instances a pass keeps or gives up. *)
Definition held (apply : bool) (inv : Sorted_Inventory) (promoted : list string) : list string :=
  if apply then sort_strings (sort_strings (ready inv) ++ promoted) else sort_strings (ready inv).

Record pass (h0 h : list Event) (flavor : string) (apply : bool) (res : WarmPoolResult) (pool : Pool) (fs : list InstanceFull)
    (inv : Sorted_Inventory) (promoted : list string) (created : Creation) : Prop := {
  pass_pool : find_pool (platform (front l)) flavor = Some pool;
  pass_listed : ∃ earlier, asked h0 h ListInstances earlier ∧ lists w earlier = Ok fs;
  pass_filed : filed h0 flavor apply fs h inv;
  pass_promoted : sublist promoted (sort_strings (preparing inv)) ∧ (apply = false → promoted = []) ∧ ∀ n, n ∈ promoted → proved_ready flavor h0 h n;
  pass_deleted : (apply = true → ∀ n, n ∈ DeletedExcess res → removed h0 h n) ∧
    (Yielded res && apply = false → DeletedExcess res = excess (effective_target pool (Yielded res)) (held apply inv promoted));
  pass_kept : ReadyAfter res =
    Z.of_nat (length (kept (effective_target pool (Yielded res)) (held apply inv promoted)) + length (made created));
  pass_created :
    let deficit := deficit_of (effective_target pool (Yielded res)) (kept (effective_target pool (Yielded res)) (held apply inv promoted))
      (if Yielded res && apply then 0 else length (preparing inv))%nat (length promoted) in
    if apply then
      (attempts created = Z.to_nat (Z.max 0 deficit) ∧ stopped created = None
       ∨ attempts created < Z.to_nat (Z.max 0 deficit) ∧ is_Some (stopped created))%nat ∧ (length (made created) ≤ Z.to_nat (Z.max 0 deficit))%nat
    else created = no_creation;
  pass_carried_out : Forall (carried_out h0 flavor h) (outcomes created);
  pass_reported : Applied res = apply ∧ Result_TargetReady res = TargetReady (Warm pool) ∧ Promoted res = promoted ∧
    Preparing res = Z.of_nat (if Yielded res && apply then 0 else length (preparing inv))%nat ∧ RecycledStale res = recycled inv ∧
    Created res = made created ∧ Consumed res = used created ∧ Abandoned res = dropped created ∧ AdmissionDecision res = stopped created ∧
    Deferred res = Yielded res || bool_decide (is_Some (stopped created));
}.

Lemma elem_of_held apply inv promoted n : n ∈ held apply inv promoted → n ∈ ready inv ∨ n ∈ promoted.
Proof. unfold held. destruct apply; rewrite ?elem_of_sort_strings, ?elem_of_app, ?elem_of_sort_strings; tauto. Qed.

(** What the part of a pass after the listing and the sorting relies on. *)
Lemma filed_candidates h0 h flavor apply fs inv earlier n :
  asked h0 h ListInstances earlier → lists w earlier = Ok fs → filed h0 flavor apply fs h inv →
  (n ∈ preparing inv → listed_as lifecycleWarmPreparing h0 h flavor n) ∧ (n ∈ ready inv → listed_as lifecycleWarmUnregistered h0 h flavor n).
Proof.
  intros Ha Hfs [Hp Hr _]. split; intros Hn; (eapply pool_names_listed; [done..|]); [by rewrite <-Hp|]. rewrite <-Hr. apply elem_of_app. by left.
Qed.

Lemma promote_all_wp h0 flavor (apply : bool) names h :
  h0 `suffix_of` h → (∀ n, n ∈ names → listed_as lifecycleWarmPreparing h0 h flavor n) →
  wp (entitled h0 flavor) (if apply then each (promote_one flavor) names [] else mret [])
    (λ h' r, h `suffix_of` h' ∧ ∀ promoted, r = Ok promoted →
       sublist promoted names ∧ (apply = false → promoted = []) ∧ ∀ n, n ∈ promoted → proved_ready flavor h0 h' n) h.
Proof.
  intros Hs Hn. destruct apply.
  2:{ apply wp_ret. split; [done|]. intros p [= <-]. split_and!; [apply sublist_nil_l|done|by intros n ?%elem_of_nil]. }
  eapply wp_conseq; [apply (wp_each _ _ (λ before h' p, sublist p before ∧ ∀ n, n ∈ p → proved_ready flavor h0 h' n))|].
  - split; [constructor|by intros n ?%elem_of_nil].
  - intros before x after h1 p Hxs Hs1 [Hsub Hp]. apply promote_one_wp; [by transitivity h| |done|done].
    eapply listed_later; [apply Hn; rewrite Hxs; set_solver|done].
  - intros h1 r [Hs1 Hr]. split; [done|]. intros p Hok. destruct (Hr p Hok). done.
Qed.

Lemma yielded_wp h0 flavor (yielding : bool) names h :
  h0 `suffix_of` h → (∀ n, n ∈ names → candidate h0 h flavor n) →
  wp (entitled h0 flavor) (if yielding then delete_all api_not_found w l "deleting yielded preparing warm instance" names [] else mret [])
    (λ h' r, h `suffix_of` h' ∧ ∀ d, r = Ok d → (yielding = false → d = []) ∧ ∀ n, n ∈ d → removed h0 h' n) h.
Proof.
  intros Hs Hc. destruct yielding; [|apply wp_ret; split; [done|]; intros d [= <-]; split; [done|by intros n ?%elem_of_nil]].
  eapply wp_conseq; [by apply delete_all_wp|]. intros h' r [Hs' Hr]. split; [done|]. intros d Hd. destruct (Hr d Hd) as [-> Hrem]. by split.
Qed.

Lemma excess_wp h0 flavor (apply : bool) names deleted h :
  h0 `suffix_of` h → (∀ n, n ∈ names → candidate h0 h flavor n) → (∀ n, n ∈ deleted → removed h0 h n) →
  wp (entitled h0 flavor) (if apply then delete_all api_not_found w l "deleting excess warm instance" names deleted else mret (deleted ++ names))
    (λ h' r, h `suffix_of` h' ∧ ∀ d, r = Ok d → d = deleted ++ names ∧ (apply = true → ∀ n, n ∈ d → removed h0 h' n)) h.
Proof.
  intros Hs Hc Hdel. destruct apply; [|apply wp_ret; split; [done|]; by intros d [= <-]].
  eapply wp_conseq; [by apply delete_all_wp|]. intros h' r [Hs' Hr]. split; [done|]. intros d Hd. destruct (Hr d Hd) as [-> Hrem]. split; [done|].
  intros _ n [Hn|Hn]%elem_of_app; [by eapply removed_within; [apply Hdel|..]|by apply Hrem].
Qed.

Lemma creation_wp h0 flavor (apply : bool) n h :
  h0 `suffix_of` h →
  wp (entitled h0 flavor) (if apply then create_loop n flavor no_creation else mret no_creation)
    (λ h' r, h `suffix_of` h' ∧ ∀ c, r = Ok c → Forall (carried_out h0 flavor h') (outcomes c) ∧
       if apply then (attempts c = n ∧ stopped c = None ∨ attempts c < n ∧ is_Some (stopped c))%nat ∧ (length (made c) ≤ n)%nat else c = no_creation) h.
Proof.
  intros Hs. destruct apply; [|apply wp_ret; split; [done|]; intros c [= <-]; split; [constructor|done]].
  eapply wp_conseq; [apply wp_equation, create_loop_wp; [done|constructor]|]. intros h' r (Hrun & Hs' & Hr). split; [done|]. intros c ->.
  split; [by apply Hr|]. by apply create_loop_attempts in Hrun.
Qed.

Lemma ReconcileWarm_wp flavor apply h0 :
  wp (entitled h0 flavor) (ReconcileWarm flavor apply)
    (λ h r, ∀ res, r = Ok res → ∃ pool fs inv promoted created, pass h0 h flavor apply res pool fs inv promoted created) h0.
Proof.
  unfold IncusProvider.ReconcileWarm, getCLI, reconcile. destruct (find_pool _ flavor) as [pool|] eqn:Hpool; [|by apply wp_lift].
  apply wp_bind, wp_wrapping, wp_ask; [done|]. set (h1 := GetCLI :: h0). destruct (says w h0 GetCLI) as [[]|e]; cbn [wrap_err]; [|done].
  apply wp_bind, wp_wrapping, wp_ask; [done|]. set (h2 := ReconcileJournal :: h1). destruct (says w h1 ReconcileJournal) as [[]|e]; cbn [wrap_err]; [|done].
  apply wp_bind, wp_wrapping, wp_ask; [done|]. set (h3 := ListInstances :: h2). destruct (lists w h2) as [fs|e] eqn:Hfs; cbn [wrap_err]; [|done].
  assert (h0 `suffix_of` h2) as Hs2 by (by exists [ReconcileJournal; GetCLI]). assert (asked h0 h3 ListInstances h2) as Hlist by by apply asked_here.
  assert (h0 `suffix_of` h3) as Hs3 by by apply suffix_cons_r.
  apply wp_bind. eapply wp_conseq; [apply (wp_each _ _ (λ before h' s, filed h0 flavor apply before h' s))|].
  { split; cbn; [done..|]. by intros _ n ?%elem_of_nil. }
  { intros before f after h' s Hxs Hs Hf. eapply (sort_instance_wp _ _ _ h2 fs); [by eapply asked_later|done|rewrite Hxs; set_solver|by transitivity h3|done]. }
  intros h4 [inv|e] [Hs4 Hinv]; [|done]. specialize (Hinv inv eq_refl). cbv zeta.
  assert (h0 `suffix_of` h4) as Hs04 by by transitivity h3.
  apply wp_bind, wp_wrapping, wp_ask; [done|]. set (h5 := AskYield _ _ :: h4). assert (h4 `suffix_of` h5) as Hs5 by by apply suffix_cons_r.
  destruct (yields w h4) as [yield|e]; cbn [wrap_err]; [|done]. set (target := effective_target pool yield).
  assert (h0 `suffix_of` h5) as Hs05 by by transitivity h4. assert (asked h0 h5 ListInstances h2) as Hlist5 by (eapply asked_later; [done|by transitivity h4]).
  pose proof (filed_later _ _ _ _ _ _ _ Hinv Hs5) as Hinv5.
  pose proof (λ n, filed_candidates _ _ _ _ _ _ _ n Hlist5 Hfs Hinv5) as Hcand.
  apply wp_bind. eapply wp_conseq; [apply promote_all_wp; [done|]; intros n Hn; by apply Hcand, elem_of_sort_strings|].
  intros h6 [promoted|e] [Hs6 Hpro]; [|done]. destruct (Hpro promoted eq_refl) as (Hsub & Hdry & Hprom).
  fold (held apply inv promoted). assert (h0 `suffix_of` h6) as Hs06 by by transitivity h5.
  assert (∀ n, n ∈ preparing inv ∨ n ∈ held apply inv promoted → candidate h0 h6 flavor n) as Hc6.
  { assert (∀ n, n ∈ preparing inv → candidate h0 h6 flavor n) as Hp.
    { intros n Hn. left. eapply listed_later; [by apply Hcand|done]. }
    intros n [Hn|[Hn|Hn]%elem_of_held]; [by apply Hp|right; left; eapply listed_later; [by apply Hcand|done]|].
    apply Hp, elem_of_sort_strings. by eapply elem_of_submseteq, sublist_submseteq. }
  apply wp_bind. eapply wp_conseq; [apply yielded_wp; [done|]|].
  { intros n [Hn _]%list_elem_of_In%filter_In. apply Hc6. left. by apply elem_of_sort_strings, list_elem_of_In. }
  intros h7 [deleted0|e] [Hs7 Hd7]; [|done]. destruct (Hd7 deleted0 eq_refl) as [Hnone Hrem0]. assert (h0 `suffix_of` h7) as Hs07 by by transitivity h6.
  apply wp_bind. eapply wp_conseq; [apply excess_wp; [done| |exact Hrem0]|].
  { intros n Hn%elem_of_excess. eapply candidate_later; [by apply Hc6; right|done]. }
  intros h8 [deleted|e] [Hs8 Hd8]; [|done]. destruct (Hd8 deleted eq_refl) as [-> Hrem]. assert (h0 `suffix_of` h8) as Hs08 by by transitivity h7.
  apply wp_bind. eapply wp_conseq; [by apply creation_wp|]. intros h9 [created|e] [Hs9 Hcre]; [|done].
  destruct (Hcre created eq_refl) as [Hout Hcount]. rewrite sort_strings_length in Hcount.
  apply wp_bind, wp_quiet; [destruct apply; emit; done|]. intros h10 [[]|e] _ Hs10; [|done]. apply wp_ret. intros res [= <-].
  assert (h8 `suffix_of` h10) as Hs810 by by transitivity h9. assert (h7 `suffix_of` h10) as Hs710 by by transitivity h8.
  assert (h6 `suffix_of` h10) as Hs610 by by transitivity h7. assert (h5 `suffix_of` h10) as Hs510 by by transitivity h6.
  exists pool, fs, inv, promoted, created. split; cbn; try done.
  - exists h2. split; [by eapply asked_later|done].
  - by eapply filed_later.
  - split_and!; [done..|]. intros n Hn. by eapply proved_within; [apply Hprom|..].
  - split; [intros Ha n Hn; by eapply removed_within; [apply Hrem|..]|]. intros Hy. by rewrite (Hnone Hy).
  - by rewrite length_app.
  - eapply Forall_impl; [exact Hout|]. intros o Ho. by eapply carried_later.
  - by rewrite sort_strings_length.
Qed.

Lemma kept_length target ready : 0 ≤ target → Z.of_nat (length (kept target ready)) = Z.min target (Z.of_nat (length ready)).
Proof. intros Ht. unfold kept. rewrite length_take. lia. Qed.

(** The deficit does not overflow: a pool's listing is far below the width. *)
Lemma deficit_exact target ready p q :
  0 ≤ target ≤ max_int64 → Z.of_nat (length ready) ≤ target → (q ≤ p)%nat ∨ target = 0 → Z.of_nat p ≤ 4294967296 → Z.of_nat q ≤ 4294967296 →
  deficit_of target ready p q = (target - Z.of_nat (length ready) - (Z.of_nat p - Z.of_nat q))%Z.
Proof.
  intros Ht Hr Hpq Hp Hq. unfold deficit_of, int_sub, max_int64 in *.
  rewrite (wrap64_small (Z.of_nat p - Z.of_nat q)) by (unfold in_int64, min_int64, max_int64; lia).
  rewrite (wrap64_small (target - Z.of_nat (length ready))) by (unfold in_int64, min_int64, max_int64; lia).
  apply wrap64_small. unfold in_int64, min_int64, max_int64. lia.
Qed.

Lemma pass_bounds h0 h flavor apply res pool fs inv promoted created :
  pass h0 h flavor apply res pool fs inv promoted created → (length promoted ≤ length (preparing inv) ≤ length fs)%nat.
Proof.
  intros P. destruct (pass_promoted _ _ _ _ _ _ _ _ _ _ P) as [Hsub%sublist_length _]. rewrite sort_strings_length in Hsub.
  rewrite (filed_preparing _ _ _ _ _ _ (pass_filed _ _ _ _ _ _ _ _ _ _ P)) in *. pose proof (pool_names_length flavor lifecycleWarmPreparing fs). lia.
Qed.

(** The ready instances are split between what is kept and what is given up. *)
Lemma kept_excess target ready : ready ≡ₚ kept target ready ++ excess target ready.
Proof. unfold kept, excess. rewrite <-(take_drop (Z.to_nat (Z.max 0 target)) ready) at 1. by rewrite reverse_Permutation. Qed.

(** A dry run asks four kinds of question. *)
Definition reads (e : Event) : bool :=
  match e with GetCLI | ReconcileJournal | ListInstances | AskYield _ _ => true | _ => false end.

Lemma ReconcileWarm_dry flavor : emits reads (ReconcileWarm flavor false).
Proof.
  unfold IncusProvider.ReconcileWarm, getCLI, reconcile. destruct (find_pool _ flavor) as [pool|]; [|apply emits_lift].
  do 2 (apply emits_bind; [by apply emits_wrapping, emits_call|intros []]). apply emits_bind; [by apply emits_wrapping, emits_call|]. intros fs.
  apply emits_bind; [apply emits_each; intros s f _; unfold IncusProvider.sort_instance; emit|]. intros inv. cbn zeta.
  apply emits_bind; [by apply emits_wrapping, emits_call|]. intros yield. rewrite andb_false_r.
  repeat (apply emits_bind; [apply emits_ret|intros]). apply emits_ret.
Qed.

End programs.
