(* ===== verification/IncusProviderClaims.v ===== *)
(** * What the provider's programs guarantee

    The claims on deletion and on the warm pools, proved from the facts about the
    programs, and a concrete pool they are applied to. *)

From S2P Require Import Prelude Admission ProviderJournal ProviderStore ProviderAdmission QueueIntent QueueReader FleetConfig FleetConfigFacts.
From S2P Require Import Tenant ProviderHost NDDevAdmission NDDevAdmissionFacts IncusProvider IncusProviderFacts.

Local Open Scope Z_scope.
Local Open Scope go_scope.

(** ** Deletion *)

(** C22: Whatever Incus and the journal answer, [DeleteInstance] changes only the
    instance its identifier resolves to: it has read that instance as one of its
    own controller, and the journal has confirmed that its lease is being deleted,
    before the first change. *)
Theorem delete_only_own nf w l identifier h new r after e before n :
  DeleteInstance nf w l identifier h = (new ++ h, r) → new = after ++ e :: before → touches e = Some n →
  names_ w h (ResolveIdentity identifier) = Ok n ∧
  (∃ h1 f, finds w h1 n = Ok f ∧ key_of f controllerIDKeyName = front_controllerID (front l)) ∧
  ∃ since earlier, before = since ++ MarkDeletingLease n :: earlier ∧ says w (earlier ++ h) (MarkDeletingLease n) = Ok tt.
Proof.
  intros Hrun -> Hn. destruct (DeleteInstance_runs nf w l identifier h) as (new & r' & Hrun' & Hdel). rewrite Hrun in Hrun'.
  injection Hrun' as Heq _. apply (inj (.++ h)) in Heq. destruct Hdel as [Hq|(name & f & h1 & b & a & Hres & Hf & Hown & -> & Hmark & Hb & Ha)].
  - subst new. apply Forall_app in Hq as [_ [Hq _]%Forall_cons]. unfold harmless in Hq. congruence.
  - assert (∃ since, before = since ++ MarkDeletingLease name :: b ∧ e ∈ a) as (since & -> & He).
    { apply app_eq_app in Heq as (k & [[-> Hk]|[-> Hk]]); destruct k as [|x k]; simplify_eq/=.
      - apply Forall_app in Hb as [_ [Hb _]%Forall_cons]. unfold harmless in Hb. congruence.
      - exists k. split; [done|]. apply elem_of_app. right. apply list_elem_of_here. }
    rewrite Forall_forall in Ha. assert (name = n) as <- by (destruct (Ha e He); congruence). split_and!; [done|by exists h1, f|by exists since, b].
Qed.

(** ** One pass over a warm pool *)


Lemma validated_target c flavor pool : FleetConfig.Validate c = None → find_pool c flavor = Some pool → 0 ≤ TargetReady (Warm pool).
Proof.
  intros Hv [Hin _]%find_pool_Some. apply Validate_validated in Hv. destruct (validated_pool c pool Hv Hin) as [pre Hp].
  apply validatePool_nil, pool_warm in Hp. lia.
Qed.

Lemma ReconcileWarm_pass nf mentioned w l flavor apply h h' res :
  ReconcileWarm nf mentioned w l flavor apply h = (h', Ok res) →
  ∃ pool fs inv promoted created, pass nf w l h h' flavor apply res pool fs inv promoted created.
Proof. intros Hrun. destruct (wp_run _ _ _ _ _ _ (ReconcileWarm_wp nf mentioned w l flavor apply h) Hrun) as [_ H]. by apply H. Qed.

(** What one applied pass has done, in terms of its calls: what it reports as
    recycled, in excess or abandoned is gone, what it reports as promoted or
    created has proved ready, and what it reports as created or consumed was
    launched under a name of its own. *)
Record performed nf (w : Answers) (l : Incus_Provider) (h h' : list Event) (flavor : string) (res : WarmPoolResult) : Prop := {
  performed_recycled n : n ∈ RecycledStale res → removed nf w l h h' n;
  performed_excess n : n ∈ DeletedExcess res → removed nf w l h h' n;
  performed_abandoned n : n ∈ Abandoned res → named w h h' flavor n ∧ removed nf w l h h' n;
  performed_promoted n : n ∈ Promoted res → proved_ready w l flavor h h' n;
  performed_created n : n ∈ Created res → named w h h' flavor n ∧ launched w h h' n ∧ proved_ready w l flavor h h' n;
  performed_consumed n : n ∈ Consumed res → named w h h' flavor n ∧ launched w h h' n;
}.

Lemma pass_performed nf w l h h' flavor res pool fs inv promoted created :
  pass nf w l h h' flavor true res pool fs inv promoted created → performed nf w l h h' flavor res.
Proof.
  intros [_ _ [_ _ Hrec] (_ & _ & Hpro) [Hdel _] _ _ Hout Hrep]. destruct Hrep as (_ & _ & Hp & _ & Hr & Hm & Hu & Hd & _).
  unfold outcomes in Hout. rewrite !Forall_app, !Forall_fmap, !Forall_forall in Hout. destruct Hout as (Hmade & Hused & Hdropped).
  split; intros n Hn; rewrite ?Hp, ?Hr, ?Hm, ?Hu, ?Hd in Hn; auto; [by apply (Hdropped n Hn)|by apply (Hmade n Hn)|by apply (Hused n Hn)].
Qed.


(** A pass that gives its capacity up because a larger class waits deletes what it
    holds and then, unless capacity defers it, creates as many new instances as it
    had promoted in the same pass: the subtraction of the promoted ones assumes
    that they were counted as preparing, which this branch has reset. *)
Theorem yielding_pass_recreates nf mentioned w l flavor h h' res :
  (∀ h fs, lists w h = Ok fs → Z.of_nat (length fs) ≤ 4294967296) →
  ReconcileWarm nf mentioned w l flavor true h = (h', Ok res) → Yielded res = true → AdmissionDecision res = None →
  ReadyAfter res = Z.of_nat (length (Created res)) ∧
  (length (Created res) + length (Consumed res) + length (Abandoned res) = length (Promoted res))%nat.
Proof.
  intros Hsmall Hrun Hy Hnone. apply ReconcileWarm_pass in Hrun as (pool & fs & inv & promoted & created & P).
  pose proof (pass_bounds _ _ _ _ _ _ _ _ _ _ _ _ _ P) as Hb. destruct P as [Hpool (h0 & _ & Hfs) _ _ _ Hkept Hcre _ Hrep].
  destruct Hrep as (_ & _ & -> & _ & _ & -> & -> & -> & Hstop & _). rewrite Hkept, Hy in *. cbn [effective_target orb andb] in *. cbv zeta in Hcre.
  specialize (Hsmall _ _ Hfs). set (ready1 := held _ _ _) in *.
  assert (kept 0 ready1 = []) as Hk by done. rewrite Hk in *.
  rewrite deficit_exact in Hcre by (unfold max_int64; simpl; lia). rewrite Hstop in Hnone. rewrite Hnone in Hcre.
  destruct Hcre as [Hatt _]. split; [done|]. destruct Hatt as [[Hatt _]|[_ [? ?]]]; [|done]. unfold attempts in Hatt. simpl in Hatt. lia.
Qed.

(** ** A new image *)

Lemma observe_loop_Err n inv attempt instances acc instance e :
  instance ∈ instances → observe_instance n inv attempt instance = Err e →
  is_Ok (foldM (λ acc instance, oa ← observe_instance n inv attempt instance; Ok (acc ++ option_list oa)) instances acc) = false.
Proof.
  intros Hin He. revert acc. induction instances as [|i instances IH]; intros acc; [by apply elem_of_nil in Hin|]. simpl.
  apply elem_of_cons in Hin as [<-|Hin]; [by rewrite He|]. destruct (observe_instance n inv attempt i); simpl; [|done]. by apply IH.
Qed.

(** A warm instance of an image that is no longer the current one. *)
Definition stale_image (n : nddevAdmission) (instance : IncusInstance) (flavor : string) : Prop :=
  config_of instance flavorKey = flavor ∧ flavor ≠ "" ∧ config_of instance lifecycleKey = lifecycleWarmUnregistered ∧
  ∃ pool image, find_pool (platform n) flavor = Some pool ∧ workerImages n !! flavor = Some image ∧
    config_of instance imageFingerprintKey ≠ Fingerprint image.

Lemma stale_image_refused n inv attempt instance flavor :
  stale_image n instance flavor → is_Ok (observe_instance n inv attempt instance) = false.
Proof.
  intros (Hf & Hne & Hl & pool & image & Hp & Hi & Hfp). unfold observe_instance. rewrite Hf, bool_decide_eq_false_2 by done.
  unfold observe_managed. rewrite Hp, Hi. destruct (managedSecurityContract image) as [wanted checks]. unfold fail_if, fingerprint_allowed. rewrite Hl.
  destruct (negb (bool_decide (Instance_Type instance = wanted))); [done|]. simpl.
  by rewrite (bool_decide_eq_false_2 (config_of instance imageFingerprintKey = _)).
Qed.

Lemma stale_inventory n inv instance flavor :
  stale_image n instance flavor → (∀ attempt instances, GetInstances inv attempt = Ok instances → instance ∈ instances) →
  is_Ok (observedAllocations n inv) = false.
Proof.
  intros Hst Hin. assert (∀ attempt, is_Ok (observeAllocationsOnce n inv attempt) = false) as Honce.
  { intros attempt. unfold observeAllocationsOnce. destruct (GetInstances inv attempt) as [instances|e] eqn:Hget; [|done]. simpl.
    pose proof (stale_image_refused n inv attempt instance flavor Hst) as Hr. destruct (observe_instance n inv attempt instance) eqn:He; [done|].
    eapply observe_loop_Err; [by eapply Hin|done]. }
  unfold observedAllocations. destruct (alive inv 0) as [[]|e0]; [|done]. simpl. pose proof (Honce 0%nat) as H0.
  destruct (observeAllocationsOnce n inv 0) as [|e]; [done|]. destruct (is_incomplete e); [|done]. destruct (alive inv 1) as [[]|e1]; [|done].
  simpl. apply Honce.
Qed.

(** The journal answers of a provider's world come from its admission front. *)
Definition journal_of (size : Journal → Z) (w : Answers) (l : Incus_Provider) (calls : list Event → Call) (disks : list Event → Disk) : Prop :=
  ∀ h, says w h ReconcileJournal = (Reconcile size (front l) (calls h) (disks h)).2.

Lemma workerImagePolicy_Ok l flavor image : workerImagePolicy l flavor = Ok image →
  workerImages (front l) !! flavor = Some image ∧ (Image_InstanceType image = IncusImageContainer ∨ Image_InstanceType image = IncusImageVirtualMachine).
Proof.
  unfold workerImagePolicy. destruct (find_pool _ _) as [pool|]; [|done]. destruct (workerImages _ !! _) as [i|]; [|done].
  destruct (find_backend _ _) as [b|]; [|done]. intros H. apply bind_Ok in H as ([] & Ht%fail_if_Ok & <-%Ok_inj). bool_hyps.
  split; [done|]. destruct (bool_decide (Implementation b = "incus-container")); eauto.
Qed.

Lemma stale_pass nf mentioned w l flavor apply h :
  (∀ h, is_Ok (says w h ReconcileJournal) = false) →
  runs (ReconcileWarm nf mentioned w l flavor apply) h (λ new r, is_Ok r = false ∧ (ListInstances ∉ new) ∧ Forall reads new).
Proof.
  intros Hw. assert (∀ new, Forall (λ e, e = GetCLI ∨ e = ReconcileJournal) new → (ListInstances ∉ new) ∧ Forall reads new) as Hquiet.
  { intros new Hnew. split; [|eapply Forall_impl; [done|]; by intros e [->| ->]]. intros Hin. rewrite Forall_forall in Hnew.
    by destruct (Hnew _ Hin). }
  unfold ReconcileWarm, getCLI, reconcile. destruct (find_pool _ flavor) as [pool|]; step; [|split; [done|apply Hquiet; constructor]].
  destruct (says w h GetCLI) as [[]|e]; cbn [wrap_err]; [|split; [done|apply Hquiet; by repeat constructor]].
  step. specialize (Hw ([GetCLI] ++ h)). destruct (says w _ ReconcileJournal) as [[]|e]; [done|]. cbn [wrap_err].
  split; [done|]. apply Hquiet. repeat constructor; by (left + right).
Qed.

Ltac calm := split; [done|]; repeat (apply Forall_app; split); by repeat constructor.

Lemma stale_drain nf w l flavor name apply instance h :
  stale_image (front l) instance flavor → (∀ h f, finds w h name = Ok f → Full_Instance f = instance) →
  runs (DrainWarm nf w l flavor name apply) h (λ new r, is_Ok r = false ∧ Forall harmless new).
Proof.
  intros (_ & _ & _ & pool & image & Hp & Hi & Hfp) Hf. unfold DrainWarm. step.
  destruct (says w h (AuthorizeDrain name)) as [[]|e]; cbn [wrap_err]; [|calm]. rewrite Hp. step.
  destruct (workerImagePolicy l flavor) as [image'|e] eqn:Himg; [|calm].
  apply workerImagePolicy_Ok in Himg as [Himg _]. assert (image' = image) as -> by congruence.
  apply runs_bind, runs_wrapping. apply (runs_emits harmless); [apply getManagedInstance_emits|]. intros new managed Hman Hnew.
  destruct managed as [f|e]; cbn [wrap_err]; [|calm].
  apply getManagedInstance_owned in Hman as [_ [h1 Hfound%Hf]]. step.
  destruct (forM _ _) as [[]|e] eqn:Hchecks; [exfalso|calm].
  rewrite forM_Ok in Hchecks. assert ((imageFingerprintKey, Fingerprint image) ∈ drain_keys pool image flavor ++ isolation image) as Hk.
  { apply elem_of_app. left. unfold drain_keys. do 2 apply list_elem_of_further. apply list_elem_of_here. }
  specialize (Hchecks _ Hk). unfold check_key, key_of in Hchecks. rewrite Hfound in Hchecks. apply fail_if_Ok in Hchecks. by bool_hyps.
Qed.

(** While one warm instance of an outdated image is listed, no pass of any pool
    gets as far as listing its instances, so nothing is recycled, and an explicit
    drain of that instance is refused as well: the journal keeps what it had. *)
Theorem image_wave_stalls size nf mentioned w l calls disks instance flavor other apply h :
  journal_of size w l calls disks → stale_image (front l) instance flavor →
  (∀ h attempt instances, GetInstances (call_inventory (calls h)) attempt = Ok instances → instance ∈ instances) →
  (∀ h, (Reconcile size (front l) (calls h) (disks h)).1 = disks h) ∧
  (∃ new e, ReconcileWarm nf mentioned w l other apply h = (new ++ h, Err e) ∧ (ListInstances ∉ new) ∧ Forall reads new) ∧
  ∀ name, (∀ h f, finds w h name = Ok f → Full_Instance f = instance) →
    ∃ new e, DrainWarm nf w l flavor name apply h = (new ++ h, Err e) ∧ Forall harmless new.
Proof.
  intros Hj Hst Hin. assert (∀ h, ∃ e, Reconcile size (front l) (calls h) (disks h) = (disks h, Err e)) as Hrec.
  { intros h'. unfold Reconcile. pose proof (stale_inventory _ _ _ _ Hst (Hin h')) as Ho.
    destruct (observedAllocations (front l) (call_inventory (calls h'))) as [|e]; [done|]. by exists e. }
  split_and!.
  - intros h'. destruct (Hrec h') as [e He]. by rewrite He.
  - destruct (stale_pass nf mentioned w l other apply h) as (new & r & Hr & Hbad & Hq).
    { intros h'. rewrite (Hj h'). destruct (Hrec h') as [e He]. by rewrite He. }
    destruct r as [|e]; [done|]. by exists new, e.
  - intros name Hname. destruct (stale_drain nf w l flavor name apply instance h Hst Hname) as (new & r & Hr & Hbad & Hq).
    destruct r as [|e]; [done|]. by exists new, e.
Qed.
