(* ===== verification/WarmRoundtrip.v ===== *)
(** * A warm instance is recognized as what it was created as
    ([src/internal/garmproviderincus/provider/warm.go], [admission.go])

    The provider writes the identity of a warm instance into its configuration
    when it creates it and when it promotes it, and reads it back in two places:
    the reconciliation of the warm pool and the inventory of the admission front.
    Incus expands an instance's own keys over those of its profiles. *)

From S2P Require Import Prelude Admission ProviderJournal ProviderAdmission FleetConfig FleetConfigFacts Tenant ProviderHost.
From S2P Require Import NDDevAdmission NDDevAdmissionFacts IncusProvider IncusProviderFacts IncusProviderClaims.

Local Open Scope Z_scope.
Local Open Scope go_scope.

(** What Incus shows of a running instance with these keys, under profiles that add
    the keys of [profile]. *)
Definition shown (post : InstancesPost) (config profile : gmap string string) (location : string) : InstanceFull := {|
  Full_Instance := {| Instance_Name := Post_Name post; Instance_Type := Post_Type post; Instance_Status := "Running";
    Profiles := Post_Profiles post; ExpandedConfig := config ∪ profile; Location := location |};
  Full_Architecture := Post_Architecture post; Full_Config := config; Full_Status := Some "Running" |}.

(** The keys the profile may decide. *)
Definition profile_fits (l : Incus_Provider) (image : WorkerImage) (profile : gmap string string) : Prop :=
  if bool_decide (Image_InstanceType image = IncusImageContainer) then profile !! "raw.lxc" = None
  else profile !! "security.nesting" = Some "false" ∧ SecureBoot l = true.

Lemma own_key post config profile location key v : config !! key = Some v → key_of (shown post config profile location) key = v.
Proof. intros H. unfold key_of, config_of. simpl. by rewrite (lookup_union_Some_l _ _ _ _ H). Qed.

Lemma profile_key post config profile location key : config !! key = None → key_of (shown post config profile location) key = default "" (profile !! key).
Proof. intros H. unfold key_of, config_of. simpl. by rewrite lookup_union_r. Qed.

Lemma validated_scopes c pool : FleetConfig.Validate c = None → pool ∈ Pools c →
  NetworkPolicy (Pool_Capabilities pool) ∈ ["github-cache-only"; "public-internet"; "release-allowlist"] ∧
  CacheWriteScope (Pool_Capabilities pool) ∈ ["none"; "isolated"; "trusted"].
Proof.
  intros Hv Hin. apply Validate_validated in Hv. destruct (validated_pool c pool Hv Hin) as [pre H]. unfold validatePool in H. no_issues H.
  rewrite !check_nil in *.
  repeat match goal with H : negb (oneOf _ _) = false |- _ => apply negb_false_iff, bool_decide_eq_true in H end. done.
Qed.

Lemma mapped_variant p images flavor pool image :
  validateWorkerImageMappings p images = Ok tt → images !! flavor = Some image → find_pool p flavor = Some pool →
  Variant image = expected_variant pool.
Proof.
  intros H Hi Hp. unfold validateWorkerImageMappings in H. rewrite forM_Ok in H. apply elem_of_map_to_list in Hi. specialize (H _ Hi).
  unfold validateWorkerImageMapping in H. simpl in H. rewrite Hp in H. apply fail_if_Ok in H. by bool_hyps.
Qed.

(** The keys of a warm instance in both of its states. *)
Definition warm_config (l : Incus_Provider) (pool : Pool) (image : WorkerImage) (flavor lifecycle marker : string) : gmap string string :=
  <[warmReadyKey := marker]> (<[lifecycleKey := lifecycle]> (isolation_config l pool image ∪ warm_metadata l pool image flavor)).

Lemma warm_config_key l pool image flavor lifecycle marker key v :
  key ≠ warmReadyKey → key ≠ lifecycleKey → (key, v) ∈ map_to_list (isolation_config l pool image ∪ warm_metadata l pool image flavor) →
  warm_config l pool image flavor lifecycle marker !! key = Some v.
Proof. intros ?? ?%elem_of_map_to_list. unfold warm_config. by rewrite !lookup_insert_ne by done. Qed.

Lemma isolation_container image : Image_InstanceType image = IncusImageContainer →
  isolation image = [("security.nesting", if bool_decide (Variant image = "integration") then "true" else "false"); ("security.privileged", "false");
    ("security.syscalls.intercept.mknod", "false"); ("security.syscalls.intercept.setxattr", "false"); ("raw.lxc", "")].
Proof. intros H. unfold isolation, managedSecurityContract. rewrite H. reflexivity. Qed.

Lemma isolation_vm image : Image_InstanceType image = IncusImageVirtualMachine →
  isolation image = [("security.nesting", "false"); ("security.secureboot", "true"); ("raw.qemu", DisableNestedVirtualizationRawQEMU)].
Proof. intros H. unfold isolation, managedSecurityContract. rewrite H. reflexivity. Qed.

Lemma isolation_drop image : Image_InstanceType image = IncusImageContainer ∨ Image_InstanceType image = IncusImageVirtualMachine →
  drop 1 (managedSecurityContract image).2 = isolation image.
Proof. intros [H|H]; [rewrite (isolation_container _ H)|rewrite (isolation_vm _ H)]; unfold managedSecurityContract; rewrite H; reflexivity. Qed.

(** The isolation keys are shown as the image demands, when the instance's own keys
    include those of its kind and leave the profile its own. *)
Lemma isolation_shown l pool image post config profile location key expected :
  Image_InstanceType image = IncusImageContainer ∨ Image_InstanceType image = IncusImageVirtualMachine →
  Variant image = expected_variant pool → profile_fits l image profile →
  (∀ k v, isolation_config l pool image !! k = Some v → config !! k = Some v) → config !! "raw.lxc" = None →
  (Image_InstanceType image = IncusImageVirtualMachine → config !! "security.nesting" = None) →
  (key, expected) ∈ isolation image → key_of (shown post config profile location) key = expected.
Proof.
  intros Htype Hvariant Hfit Hown Hlxc Hnesting. unfold profile_fits in Hfit. unfold isolation_config in Hown. destruct Htype as [Ht|Ht]; rewrite Ht in Hfit, Hown.
  - rewrite (isolation_container _ Ht). change (profile !! "raw.lxc" = None) in Hfit.
    assert ((if bool_decide (Variant image = "integration") then "true" else "false") = if Docker (Pool_Capabilities pool) then "true" else "false") as ->
      by (rewrite Hvariant; unfold expected_variant; by destruct (Docker _)).
    rewrite !elem_of_cons. intros [Heq|[Heq|[Heq|[Heq|[Heq|[]%elem_of_nil]]]]]; injection Heq as -> ->.
    1-4: apply own_key, Hown; reflexivity.
    rewrite profile_key by done. by rewrite Hfit.
  - rewrite (isolation_vm _ Ht). destruct Hfit as [Hnest Hboot]. rewrite !elem_of_cons.
    intros [Heq|[Heq|[Heq|[]%elem_of_nil]]]; injection Heq as -> ->.
    + rewrite profile_key by auto. by rewrite Hnest.
    + apply own_key, Hown. unfold secureBootEnabled. rewrite Hboot. reflexivity.
    + apply own_key, Hown. reflexivity.
Qed.

Section recognized.
Context (l : Incus_Provider) (pool : Pool) (image : WorkerImage) (flavor lifecycle marker : string) (post : InstancesPost)
  (profile : gmap string string) (location : string).
Context (Hpool : find_pool (platform (front l)) flavor = Some pool) (Himage : workerImages (front l) !! flavor = Some image).
Context (Htype : Image_InstanceType image = IncusImageContainer ∨ Image_InstanceType image = IncusImageVirtualMachine).
Context (Hvariant : Variant image = expected_variant pool) (Hprofile : profile_fits l image profile).
Let f := shown post (warm_config l pool image flavor lifecycle marker) profile location.

Lemma metadata_keys : 
  key_of f osTypeKeyName = "linux" ∧ key_of f osArchKeyNAme = "amd64" ∧ key_of f controllerIDKeyName = front_controllerID (front l) ∧
  key_of f poolIDKey = warmPoolIDPrefix +:+ flavor ∧ key_of f imageAliasKey = Image_Alias image ∧ key_of f imageFingerprintKey = Fingerprint image ∧
  key_of f providerVersionKey = Identity_Version (build (front l)) ∧ key_of f providerCommitKey = Identity_Commit (build (front l)) ∧
  key_of f flavorKey = flavor ∧ key_of f trustKey = Trust pool ∧ key_of f scaleSetKey = Pool_ScaleSetName pool ∧
  key_of f repositoryKey = "" ∧ key_of f garmJobNameKey = "" ∧ key_of f networkPolicyKey = NetworkPolicy (Pool_Capabilities pool) ∧
  key_of f cacheWriteScopeKey = CacheWriteScope (Pool_Capabilities pool) ∧ key_of f "boot.autostart" = "true" ∧
  key_of f lifecycleKey = lifecycle ∧ key_of f warmReadyKey = marker.
Proof.
  split_and!; apply own_key; unfold warm_config, isolation_config, warm_metadata; (destruct (bool_decide (Image_InstanceType image = _)); reflexivity).
Qed.

Lemma isolation_keys key expected : (key, expected) ∈ isolation image → key_of f key = expected.
Proof.
  apply (isolation_shown l pool image); try done; unfold warm_config, isolation_config; [|by destruct (bool_decide _)|by intros ->].
  intros k v Hk. rewrite !lookup_insert_ne; [by apply lookup_union_Some_l| |]; intros <-; by destruct (bool_decide _).
Qed.

(** Checks that read one key after another hold when the keys are as listed. *)
Lemma check_keys format checks : (∀ key expected, (key, expected) ∈ checks → key_of f key = expected) → forM checks (check_key format f) = Ok tt.
Proof. intros H. apply forM_Ok. intros [key v] Hin. unfold check_key. simpl. rewrite (H _ _ Hin). by rewrite bool_decide_eq_true_2. Qed.

Lemma check_configs checks : (∀ key expected, (key, expected) ∈ checks → key_of f key = expected) → forM checks (check_config (Full_Instance f)) = Ok tt.
Proof. intros H. apply forM_Ok. intros [key v] Hin. unfold check_config. cbn [fst snd]. specialize (H _ _ Hin). unfold key_of in H. rewrite H. by rewrite bool_decide_eq_true_2. Qed.

Lemma check_currencies checks : (∀ key expected, (key, expected) ∈ checks → key_of f key = expected) → forM checks (check_currency f) = Ok tt.
Proof. intros H. apply forM_Ok. intros [key v] Hin. unfold check_currency. simpl. rewrite (H _ _ Hin). by rewrite bool_decide_eq_true_2. Qed.

Lemma shown_type : Post_Type post = image_type (Image_InstanceType image) → Instance_Type (Full_Instance f) = (managedSecurityContract image).1.
Proof. simpl. intros ->. unfold managedSecurityContract. by destruct Htype as [-> | ->]. Qed.

Lemma warm_metadata_valid :
  lifecycle = lifecycleWarmUnregistered → marker = "true" → workerImagePolicy l flavor = Ok image →
  Post_Type post = image_type (Image_InstanceType image) → Post_Profiles post = [flavor] → Post_Architecture post = "x86_64" → validateWarmReadyMetadata l f flavor = Ok tt.
Proof.
  intros Hl Hm Hpol Hty Hprof Harch. unfold validateWarmReadyMetadata. rewrite Hpool, Hpol. cbn [mbind result_bind].
  destruct metadata_keys as (? & ? & ? & ? & ? & ? & ? & ? & ? & ? & ? & ? & ? & ? & ? & ? & ? & ?).
  rewrite check_currencies; cbn [mbind result_bind].
  2:{ intros key v. unfold currency_keys. rewrite !elem_of_cons, elem_of_nil. by intros [[= -> ->]|[[= -> ->]|[[= -> ->]|[[= -> ->]|[[= -> ->]|[[= -> ->]|[]]]]]]]. }
  rewrite check_keys; cbn [mbind result_bind].
  2:{ intros key v. rewrite elem_of_app. intros [Hin|Hin]; [|by apply isolation_keys]. revert Hin. unfold warm_keys. rewrite !elem_of_cons, elem_of_nil.
      intros Hin. destruct_or! Hin; try done; injection Hin as -> ->; congruence. }
  rewrite shown_type by done. rewrite bool_decide_eq_true_2 by done. cbn [negb fail_if mbind result_bind].
  unfold exact_profile. simpl. by rewrite Hprof, Harch, !bool_decide_eq_true_2.
Qed.

Lemma warm_observed state :
  (lifecycle = lifecycleWarmUnregistered ∧ marker = "true" ∧ state = StateWarmReady
   ∨ lifecycle = lifecycleWarmPreparing ∧ marker = "false" ∧ state = StateCreated) →
  FleetConfig.Validate (platform (front l)) = None → Post_Type post = image_type (Image_InstanceType image) →
  observe_managed (front l) (Full_Instance f) flavor =
    Ok (pool_allocation (Post_Name post) (front_controllerID (front l)) (warmPoolIDPrefix +:+ flavor) pool flavor (Fingerprint image) state "" location).
Proof.
  intros Hstate Hv Hty. pose proof (proj1 (find_pool_Some _ _ _ Hpool)) as Hin. destruct (validated_scopes _ _ Hv Hin) as [Hnet Hscope].
  destruct metadata_keys as (Ho & Ha & Hc & Hp & Hal & Hfp & Hver & Hcom & Hfl & Htr & Hss & Hrep & Hjob & Hnp & Hcw & Hboot & Hl & Hm).
  pose proof (shown_type Hty) as Hst. pose proof isolation_keys as Hiso. unfold key_of in *. unfold observe_managed. rewrite Hpool, Himage.
  destruct (managedSecurityContract image) as [wanted checks] eqn:Hcontract. cbn [fst] in Hst. rewrite Hst, (bool_decide_eq_true_2 (wanted = wanted)) by done.
  cbn [negb fail_if mbind result_bind]. rewrite Hl, Hfp, Hc, Hp, Hjob.
  assert (known_lifecycle lifecycle = true) as -> by (by destruct Hstate as [[-> _]|[-> _]]). cbn [negb fail_if mbind result_bind].
  assert (fingerprint_allowed image lifecycle (Fingerprint image) = true) as ->.
  { unfold fingerprint_allowed. destruct Hstate as [[-> _]|[-> _]]; rewrite bool_decide_eq_false_2 by done; by apply bool_decide_eq_true. }
  cbn [negb fail_if mbind result_bind].
  rewrite (bool_decide_eq_false_2 (lifecycle = lifecycleEphemeralOneJob)) by (by destruct Hstate as [[-> _]|[-> _]]).
  cbn [andb negb fail_if mbind result_bind].
  assert (drop 1 checks = isolation image) as -> by (by rewrite <-isolation_drop, Hcontract).
  rewrite (check_configs [(trustKey, Trust pool); _]); cbn [mbind result_bind].
  2:{ intros key v. rewrite !elem_of_cons, elem_of_nil. intros Hk. destruct_or! Hk; try done; by injection Hk as -> ->. }
  rewrite check_configs; cbn [mbind result_bind].
  2:{ intros key v. rewrite elem_of_app, !elem_of_cons, elem_of_nil. intros [Hk|Hk]; [|by apply Hiso].
      destruct_or! Hk; try done; by injection Hk as -> ->. }
  assert (forM [(networkPolicyKey, ["github-cache-only"; "public-internet"; "release-allowlist"]); (cacheWriteScopeKey, ["none"; "isolated"; "trusted"])]
            (check_capability (Full_Instance f)) = Ok tt) as ->.
  { apply forM_Ok. intros [key allowed]. rewrite !elem_of_cons, elem_of_nil. intros Hk.
    destruct_or! Hk; try done; injection Hk as -> ->; unfold check_capability; cbn [fst snd]; [rewrite Hnp|rewrite Hcw]; by rewrite bool_decide_eq_true_2. }
  cbn [mbind result_bind].
  assert (unowned (Full_Instance f) flavor = true) as Hun by (unfold unowned; by rewrite Hp, Hrep, Hjob, !bool_decide_eq_true_2).
  unfold warm_checks. rewrite Hm, Hun. by destruct Hstate as [(-> & -> & ->)|(-> & -> & ->)].
Qed.
End recognized.

(** C25: A warm instance that was created from the arguments of a validated policy is
    counted as creating by the inventory; once it is promoted, the reconciliation
    accepts it as ready and current, and the inventory counts it as ready, with
    the identity, the pool and the image it was created with. *)
Theorem warm_identity_roundtrip w l flavor name h h' post image profile location :
  FleetConfig.Validate (platform (front l)) = None → validateWorkerImageMappings (platform (front l)) (workerImages (front l)) = Ok tt →
  IncludeDefaultProfile l = false → getWarmCreateArgs w l flavor name h = (h', Ok post) →
  workerImages (front l) !! flavor = Some image → profile_fits l image profile →
  let created := shown post (Post_Config post) profile location in
  let promoted := shown post (promoted_config created) profile location in
  validateWarmReadyMetadata l promoted flavor = Ok tt ∧
  ∃ pool, find_pool (platform (front l)) flavor = Some pool ∧
    let allocation state := pool_allocation name (front_controllerID (front l)) (warmPoolIDPrefix +:+ flavor) pool flavor (Fingerprint image) state "" location in
    observe_managed (front l) (Full_Instance created) flavor = Ok (allocation StateCreated) ∧
    observe_managed (front l) (Full_Instance promoted) flavor = Ok (allocation StateWarmReady).
Proof.
  intros Hv Hmap Hdef Hargs Himg Hprof. apply getWarmCreateArgs_Ok in Hargs as (pool & image' & Hpool & Hpol & Hname & Htype & Hprofiles & Hconfig & _ & Harch).
  destruct (workerImagePolicy_Ok _ _ _ Hpol) as [Himg' Hcases]. assert (image' = image) as -> by congruence.
  pose proof (mapped_variant _ _ _ _ _ Hmap Himg Hpool) as Hvar. rewrite Hdef in Hprofiles. cbv zeta.
  assert (Post_Config post = warm_config l pool image flavor lifecycleWarmPreparing "false") as Hcreated.
  { rewrite Hconfig. unfold warm_config. rewrite (insert_id _ lifecycleKey), insert_id; [done| |];
      unfold isolation_config; destruct (bool_decide _); reflexivity. }
  assert (promoted_config (shown post (Post_Config post) profile location) = warm_config l pool image flavor lifecycleWarmUnregistered "true") as ->
    by (unfold promoted_config; simpl; by rewrite Hconfig).
  rewrite Hcreated, <-Hname. split; [by apply (warm_metadata_valid l pool image)|]. exists pool. split; [done|].
  split; apply (warm_observed l pool image); tauto.
Qed.
