(* ===== verification/IncusProviderExample.v ===== *)
(** * A concrete warm pool

    The pool of the example fleet with one preparing instance, in a world where
    every call succeeds: the theorems on the provider's programs applied to it. *)

From S2P Require Import Prelude Admission ProviderJournal ProviderStore ProviderAdmission QueueIntent QueueReader FleetConfig FleetConfigFacts.
From S2P Require Import Tenant ProviderHost NDDevAdmission NDDevAdmissionFacts.
From S2P Require Import IncusProvider IncusProviderFacts IncusProviderClaims WarmRoundtrip.

Local Open Scope Z_scope.
Local Open Scope go_scope.

Definition provider0 : Incus_Provider := {| front := front0; SecureBoot := true; IncludeDefaultProfile := false; placementLocked := true |}.

Definition post0 (name : string) : InstancesPost := {|
  Post_Name := name; Post_Architecture := "x86_64"; Post_Type := "container"; Post_Profiles := ["standard"]; Post_Fingerprint := "f2";
  Post_Config := isolation_config provider0 standard_pool image0 ∪ warm_metadata provider0 standard_pool image0 "standard" |}.

Definition preparing0 (name : string) : InstanceFull := shown (post0 name) (Post_Config (post0 name)) ∅ "runner-2".
Definition ready0 (name : string) : InstanceFull := shown (post0 name) (promoted_config (preparing0 name)) ∅ "runner-2".
Definition claimed0 (name : string) : InstanceFull :=
  shown (post0 name) (<[garmJobNameKey := "garm-9"]> (<[lifecycleKey := lifecycleEphemeralOneJob]> (Post_Config (post0 name)))) ∅ "runner-2".

Definition granted : Decision := {|
  Decision_Admitted := true; DecisionReason := ReasonAdmitted; Admission.Pool := "standard"; RequiredCPUReserve := 2;
  RequiredMemoryReserve := 1024; RemainingCPUUnits := 1; RemainingCPUAllowanceUnits := 1; RemainingMemoryMiB := 1; RemainingAvailableMiB := 1 |}.

Definition has_promoted (name : string) (h : list Event) : bool :=
  existsb (λ e, match e with PromoteCall n _ => bool_decide (n = name) | _ => false end) h.

(** The listing, whether a larger class waits, and what a read finds. *)
Definition world0 (listing : list InstanceFull) (yield : bool) (found : list Event → string → InstanceFull) : Answers := {|
  says := λ _ _, Ok tt;
  names_ := λ _ e, match e with ResolveIdentity identifier => Ok identifier | _ => Ok "ffff" end;
  finds := λ h name, Ok (found h name); lists := λ _, Ok listing; yields := λ _, Ok yield; decides := λ _ _, Ok granted;
  profile_names := λ _, Ok ["default"; "standard"];
  resolves := λ _ _, Ok (Some {| Image_Fingerprint := "f2"; Image_Variant := "standard" |});
  evidence := λ _ _, Ok {| Evidence_Data := Ok warmReadyEvidence; Evidence_UID := 0; Evidence_GID := 0; Evidence_Mode := 420; Evidence_Type := "file" |};
  polls := λ _, 3%nat; preempts := λ _ _, Ok [] |}.

Definition following (h : list Event) (name : string) : InstanceFull := if has_promoted name h then ready0 name else preparing0 name.

Definition calm0 : Answers := world0 [preparing0 "warm-standard-a"; ready0 "warm-standard-b"; ready0 "warm-standard-c"] false following.
Definition yielding0 : Answers := world0 [preparing0 "warm-standard-a"] true following.
Definition racing0 : Answers := world0 [ready0 "warm-standard-a"] true (λ _, claimed0).

Abbreviation never := (λ _ : error, false).
Abbreviation silent := (λ (_ : string) (_ : error), false).

Example calm_pass :
  (λ r, (ReadyBefore r, ReadyAfter r, Promoted r, DeletedExcess r, Created r)) <$>
    (match (ReconcileWarm never silent calm0 provider0 "standard" true []).2 with Ok r => Some r | Err _ => None end)
  = Some (2, 1, ["warm-standard-a"], ["warm-standard-c"; "warm-standard-b"], []).
Proof. vm_compute. reflexivity. Qed.

Definition deletion0 : list Event := (DeleteInstance never calm0 provider0 "warm-standard-b" []).1.

Lemma delete_only_own_witness :
  deletion0 = take 2 deletion0 ++ DeleteCall "warm-standard-b" :: drop 3 deletion0 ∧
  ∃ since earlier, drop 3 deletion0 = since ++ MarkDeletingLease "warm-standard-b" :: earlier.
Proof.
  assert (deletion0 = take 2 deletion0 ++ DeleteCall "warm-standard-b" :: drop 3 deletion0) as Hsplit by (vm_compute; reflexivity).
  split; [exact Hsplit|].
  destruct (delete_only_own never calm0 provider0 "warm-standard-b" [] deletion0 (Ok tt) (take 2 deletion0) (DeleteCall "warm-standard-b")
              (drop 3 deletion0) "warm-standard-b") as (_ & _ & since & earlier & Heq & _).
  - vm_compute. reflexivity.
  - exact Hsplit.
  - reflexivity.
  - exists since, earlier. exact Heq.
Defined.

Definition events (w : Answers) : list Event := (ReconcileWarm never silent w provider0 "standard" true []).1.
Definition report (w : Answers) : option WarmPoolResult :=
  match (ReconcileWarm never silent w provider0 "standard" true []).2 with Ok r => Some r | Err _ => None end.


Lemma report_run w r : report w = Some r →
  ReconcileWarm never silent w provider0 "standard" true [] = (events w, Ok r).
Proof. unfold report, events. destruct (ReconcileWarm never silent w provider0 "standard" true []) as [h' [r'|]]; simpl; [by intros [= ->]|done]. Qed.

Lemma small_listing listing yield found : (length listing ≤ 8)%nat →
  ∀ h fs, lists (world0 listing yield found) h = Ok fs → Z.of_nat (length fs) ≤ 4294967296.
Proof. intros Hlen h fs [= <-]. lia. Qed.


Lemma yielding_pass_recreates_witness : ∃ r, report yielding0 = Some r ∧ Promoted r = ["warm-standard-a"] ∧
  DeletedExcess r = ["warm-standard-a"] ∧ Created r = ["warm-standard-ffff"] ∧ (length (Created r) + 0 + 0 = 1)%nat.
Proof.
  assert (∃ r, report yielding0 = Some r ∧ Yielded r = true ∧ AdmissionDecision r = None ∧ Promoted r = ["warm-standard-a"]
    ∧ DeletedExcess r = ["warm-standard-a"] ∧ Created r = ["warm-standard-ffff"] ∧ Consumed r = [] ∧ Abandoned r = [])
    as (r & Hr & Hy & Hdec & Hp & Hdel & Hc & Hco & Hab).
  { eexists. repeat split; vm_compute; reflexivity. }
  exists r. split; [exact Hr|]. split; [exact Hp|]. split; [exact Hdel|]. split; [exact Hc|].
  destruct (yielding_pass_recreates never silent yielding0 provider0 "standard" [] (events yielding0) r) as [_ H].
  - apply small_listing. vm_compute. lia.
  - exact (report_run _ _ Hr).
  - exact Hy.
  - exact Hdec.
  - rewrite Hco, Hab, Hp in H. exact H.
Defined.

(** A job claims the only ready instance between the listing and the deletion:
    the pass reads it as claimed, and deletes it all the same. *)
Example claimed_meanwhile_deleted :
  key_of (ready0 "warm-standard-a") lifecycleKey = lifecycleWarmUnregistered ∧
  (∀ h, key_of (match finds racing0 h "warm-standard-a" with Ok f => f | Err _ => ready0 "" end) garmJobNameKey = "garm-9") ∧
  (DeletedExcess <$> report racing0) = Some ["warm-standard-a"] ∧
  existsb (λ e, match e with DeleteCall n => bool_decide (n = "warm-standard-a") | _ => false end)
    (events racing0) = true.
Proof. split_and!; try (intros h); vm_compute; reflexivity. Qed.

(** ** A new image while an instance of the last one is warm *)

Definition stale0 : IncusInstance := {|
  Instance_Name := "warm-1"; Instance_Type := "container"; Instance_Status := "Running"; Profiles := ["standard"];
  ExpandedConfig := <[poolIDKey := "warm/standard"]> (<[warmReadyKey := "true"]> (contract0 lifecycleWarmUnregistered "f1")); Location := "runner-2" |}.

Definition wave0 : Call := {|
  call_spool := call_spool call0; call_ctx := Ok tt; call_queue := call_queue call0; call_queue_now := time0;
  call_inventory := {| alive := λ _, Ok tt; GetInstances := λ _, Ok [running0; stale0]; journal_path := Ok tt; disk_at := λ _ _, NotExist |};
  call_cluster := cluster0; call_collect := call_collect call0; call_host_now := time0; call_store := call_store call0; call_now := time0 |}.

Definition waving0 : Answers := {|
  says := λ _ e, match e with ReconcileJournal => (Reconcile (λ _, 900) front0 wave0 NotExist).2 | _ => Ok tt end;
  names_ := names_ calm0;
  finds := λ _ _, Ok {| Full_Instance := stale0; Full_Architecture := "x86_64"; Full_Config := ExpandedConfig stale0; Full_Status := Some "Running" |};
  lists := λ _, Ok []; yields := yields calm0; decides := decides calm0; profile_names := profile_names calm0; resolves := resolves calm0;
  evidence := evidence calm0; polls := polls calm0; preempts := preempts calm0 |}.

Lemma image_wave_stalls_witness :
  (∃ new e, ReconcileWarm never silent waving0 provider0 "standard" true [] = (new ++ [], Err e) ∧ (ListInstances ∉ new) ∧ Forall reads new) ∧
  ∃ new e, DrainWarm never waving0 provider0 "standard" "warm-1" true [] = (new ++ [], Err e) ∧ Forall harmless new.
Proof.
  destruct (image_wave_stalls (λ _, 900) never silent waving0 provider0 (λ _, wave0) (λ _, NotExist) stale0 "standard" "standard" true []) as (_ & Hpass & Hdrain).
  - intros h. reflexivity.
  - split; [vm_compute; reflexivity|]. split; [discriminate|]. split; [vm_compute; reflexivity|].
    exists standard_pool, image0. split; [vm_compute; reflexivity|]. split; [vm_compute; reflexivity|]. vm_compute. discriminate.
  - intros h attempt instances [= <-]. apply list_elem_of_further, list_elem_of_here.
  - split; [exact Hpass|]. apply Hdrain. intros h f Hf. apply Ok_inj in Hf. rewrite <-Hf. reflexivity.
Defined.

Lemma warm_identity_roundtrip_witness :
  validateWarmReadyMetadata provider0 (ready0 "warm-standard-a") "standard" = Ok tt ∧
  observe_managed front0 (Full_Instance (ready0 "warm-standard-a")) "standard" =
    Ok (pool_allocation "warm-standard-a" "ctl" "warm/standard" standard_pool "standard" "f2" StateWarmReady "" "runner-2").
Proof.
  destruct (warm_identity_roundtrip calm0 provider0 "standard" "warm-standard-a" [] (getWarmCreateArgs calm0 provider0 "standard" "warm-standard-a" []).1 (post0 "warm-standard-a") image0 ∅ "runner-2")
    as (Hv & pool & Hp & _ & Ho).
  - vm_compute. reflexivity.
  - vm_compute. reflexivity.
  - reflexivity.
  - vm_compute. reflexivity.
  - vm_compute. reflexivity.
  - vm_compute. reflexivity.
  - split; [exact Hv|]. vm_compute in Hp. injection Hp as <-. exact Ho.
Defined.
