(* ===== verification/CreateRetry.v ===== *)
(** * The retry coordinator of provider creates
    ([src/third_party/garm/overlay/workers/provider/nddev_create_retry.go])

    GARM asks the coordinator before every provider create and tells it how the
    create ended. The coordinator keeps a journal of records per concrete attempt,
    per scale set and one for the capacity of the whole fleet, and of reservations
    that give instances without a job the retry identity of a queued job. Every
    operation is one read, a sweep of expired entries, a mutation and a write; an
    operation that fails writes nothing. *)

From S2P Require Import Prelude StateFile GoText QueueIntent QueueOps CacheNamespace ProviderRetry.

Local Open Scope Z_scope.
Local Open Scope go_scope.

(** ** Constants *)

Definition nddevRetrySchemaVersion : Z := 2.
Definition nddevRetryPreviousSchemaVersion : Z := 1.
Definition nddevRetryMaximumBytes : Z := 1024 * 1024.
Definition nddevRetryMaximum : Z := 3.
Definition nddevRetryAttemptLease : Duration := 45 * Second.
Definition nddevRetryExecutionTTL : Duration := 24 * Hour.
Definition nddevRetryStaleTTL : Duration := Hour.
Definition nddevRetryBase : Duration := 5 * Second.
Definition nddevRetryCap : Duration := 5 * Minute.
Definition nddevCapacityRetryCap : Duration := 30 * Second.
Definition nddevCapacityDomainKey : string := measured_fleet.

(** ** Data *)

#[export] Instance retry_record_eq_dec : EqDecision retry_record.
Proof. solve_decision. Defined.
#[export] Instance reservation_entry_eq_dec : EqDecision reservation_entry.
Proof. solve_decision. Defined.

(** The journal in memory: its maps are never nil there. *)
Record nddevRetryJournal := {
  Generation : Z;
  Journal_UpdatedAt : Time;
  Records : gmap string retry_record;
  Reservations : gmap string reservation_entry;
}.

#[export] Instance nddevRetryJournal_eq_dec : EqDecision nddevRetryJournal.
Proof. solve_decision. Defined.

Definition with_records (records : gmap string retry_record) (j : nddevRetryJournal) : nddevRetryJournal :=
  {| Generation := Generation j; Journal_UpdatedAt := Journal_UpdatedAt j; Records := records; Reservations := Reservations j |}.
Definition with_reservations (reservations : gmap string reservation_entry) (j : nddevRetryJournal) : nddevRetryJournal :=
  {| Generation := Generation j; Journal_UpdatedAt := Journal_UpdatedAt j; Records := Records j; Reservations := reservations |}.
Definition put (key : string) (r : retry_record) (j : nddevRetryJournal) : nddevRetryJournal := with_records (<[key := r]> (Records j)) j.
Definition drop_record (key : string) (j : nddevRetryJournal) : nddevRetryJournal := with_records (delete key (Records j)) j.

(** The zero value that reading an absent key gives. *)
Definition zero_record : retry_record := {|
  Retry_JobID := ""; Attempts := 0; LastErrorClass := ""; Retry_UpdatedAt := zero_time; NextAllowedAt := zero_time; TerminalUntil := zero_time;
  ProbeOwner := ""; WakeReason := ""; Retry_ScaleSetName := ""; Retry_Owner := "" |}.
Definition record_at (j : nddevRetryJournal) (key : string) : retry_record := default zero_record (Records j !! key).

(** What the operations are told about: a scale set, its account and an instance
    with the scale-set job it is bound to, if any. *)
Record ScaleSet := { Set_ID : Z; Set_Name : string }.
Record ForgeEntity := { Entity_ID : string; Entity_Name : string; Entity_Owner : string }.
Record Instance := { Inst_Name : string; Inst_Job : option string }.

(** ** Keys *)

Definition nddevScaleSetRetryKey (s : ScaleSet) (e : ForgeEntity) : string :=
  if bool_decide (Entity_ID e = "") || (Set_ID s =? 0) then "" else "scale-set:" +:+ Entity_ID e +:+ ":" +:+ pretty (Set_ID s).

Definition nddevProviderRetryKey (i : Instance) (s : ScaleSet) (e : ForgeEntity) : string :=
  let domain := nddevScaleSetRetryKey s e in
  if bool_decide (domain = "") then ""
  else match Inst_Job i with
       | Some job =>
           if negb (bool_decide (TrimSpace job = "")) then domain +:+ ":job:" +:+ TrimSpace job
           else if negb (bool_decide (TrimSpace (Inst_Name i) = "")) then domain +:+ ":instance:" +:+ TrimSpace (Inst_Name i) else domain
       | None => if negb (bool_decide (TrimSpace (Inst_Name i) = "")) then domain +:+ ":instance:" +:+ TrimSpace (Inst_Name i) else domain
       end.

(** The same function as the recovery command's. *)
Definition nddevRetryDomainKey (key : string) : string := retryDomainKey key.

Fixpoint trim_slashes (s : string) : string :=
  match s with String "/" rest => trim_slashes rest | _ => s end.

Definition nddevRetryOwner (e : ForgeEntity) : string :=
  if negb (bool_decide (TrimSpace (Entity_Owner e) = "")) then TrimSpace (Entity_Owner e)
  else
    let name := rev_string (trim_slashes (rev_string (trim_slashes (TrimSpace (Entity_Name e))))) in
    if bool_decide (name = "") then ""
    else TrimSpace (match Cut "/" name with Some (owner, _) => owner | None => name end).

Definition nddevOwnerScaleSetKey (owner name : string) : string := TrimSpace owner +:+ bytes [0]%nat +:+ TrimSpace name.

(** A concrete attempt, as opposed to a scale set or the fleet. *)
Definition concrete (key : string) : bool := Contains key ":instance:" || Contains key ":job:".

(** ** Validation *)

Definition control_bytes : list ascii := [ascii_of_nat 13; ascii_of_nat 10; ascii_of_nat 9].
Definition bounded_name (limit : Z) (s : string) : bool :=
  (Z.of_nat (String.length s) <=? limit) && bool_decide (TrimSpace s = s) && negb (contains_any control_bytes s).

Definition known_class (class : string) : bool :=
  bool_decide (class ∈ [""; "capacity"; "intent"; "identity"; "timeout"; "provider"]).
Definition known_wake (reason : string) : bool :=
  bool_decide (reason ∈ [""; "capacity-refused"; "worker-deleted"; "probe-leased"; "probe-succeeded"]).

Definition validate_record (kr : string * retry_record) : result unit :=
  let '(key, r) := kr in
  let shared := bool_decide (key = nddevCapacityDomainKey) in
  fail_if (bool_decide (key = "") || (256 <? Z.of_nat (String.length key)) || negb (bool_decide (Retry_JobID r = key))
           || (Attempts r <? 1) || (nddevRetryMaximum <? Attempts r) || IsZero (Retry_UpdatedAt r) || IsZero (NextAllowedAt r)
           || Before (NextAllowedAt r) (Retry_UpdatedAt r))
    (Errorf "provider retry record %q is invalid" [key]);;
  fail_if (negb (known_class (LastErrorClass r))) (Errorf "provider retry record %q has invalid error class" [key]);;
  fail_if (negb (IsZero (TerminalUntil r)) && Before (TerminalUntil r) (Retry_UpdatedAt r))
    (Errorf "provider retry record %q has invalid circuit expiry" [key]);;
  fail_if ((256 <? Z.of_nat (String.length (ProbeOwner r))) || negb (bool_decide (ProbeOwner r = "")) && negb shared)
    (Errorf "provider retry record %q has invalid shared probe owner" [key]);;
  fail_if (negb (known_wake (WakeReason r))) (Errorf "provider retry record %q has invalid shared wake reason" [key]);;
  fail_if (negb (bool_decide (WakeReason r = "")) && negb shared) (Errorf "provider retry record %q carries shared wake state" [key]);;
  fail_if (negb (bounded_name 128 (Retry_ScaleSetName r))) (Errorf "provider retry record %q has invalid scale-set name" [key]);;
  fail_if (negb (bounded_name 128 (Retry_Owner r))) (Errorf "provider retry record %q has invalid owner" [key]).

Definition validate_reservation (kr : string * reservation_entry) : result unit :=
  let '(instance, r) := kr in
  fail_if (bool_decide (instance = "") || negb (bounded_name 128 instance) || IsZero (Reservation_UpdatedAt r)
           || negb (Contains (RetryKey r) ":job:") || (256 <? Z.of_nat (String.length (RetryKey r)))
           || bool_decide (Reservation_ScaleSetName r = "") || negb (bounded_name 128 (Reservation_ScaleSetName r)))
    (Errorf "provider retry reservation %q is invalid" [instance]).

Definition reserved_keys (j : nddevRetryJournal) : list string := (λ kr, RetryKey kr.2) <$> map_to_list (Reservations j).

Definition Validate (j : nddevRetryJournal) : result unit :=
  forM (map_to_list (Records j)) validate_record;;
  forM (map_to_list (Reservations j)) validate_reservation;;
  fail_if (negb (bool_decide (NoDup (reserved_keys j)))) (Errorf "provider retry key %q is reserved by multiple instances" []).

(** ** The queue journal

    [None] stands for a path that is not configured. The states and times of the
    intents are all the coordinator looks at. *)

Record Queue := { queue_intents : gmap string queueIntent; queue_terminals : gmap string Time }.

Definition nddevReadQueueRetryJournal (source : option QueueFile) : result (option Queue) :=
  match source with
  | None => Ok None
  | Some NoQueueFile => Err (Errorf "open queue intent journal: %w" [])
  | Some (QueueContent size perm content) =>
      fail_if (grants perm 63) (Errorf "queue intent journal must be a private regular file" []);;
      fail_if (nddevRetryMaximumBytes <? size) (Errorf "read queue intent journal: invalid bounded content" []);;
      d ← wrap_err "decode queue intent journal: %w" content;
      Ok (Some {| queue_intents := default ∅ (Document_Intents d); queue_terminals := default ∅ (Document_TerminalJobs d) |})
  end.

Definition nddevRetryJobIsTerminal (jobID : string) (terminals : gmap string Time) (now : Time) : bool :=
  match terminals !! TrimSpace jobID with Some expiry => After expiry now | None => false end.

Definition admitted_state (s : queueIntentState) : bool :=
  match s with queueStateAcquiring | queueStateAcquired | queueStateAssigned => true | _ => false end.
Definition queued_state (s : queueIntentState) : bool := match s with queueStateQueued => true | _ => false end.

(** What the coordinator decodes of an intent; an empty key is the map's. *)
Record nddevQueueRetryIntent := {
  Intent_Key : string; Intent_JobID : string; Intent_ScaleSetID : Z; Intent_ScaleSetName : string; Intent_Owner : string;
  Intent_State : queueIntentState; Intent_QueueTime : Time; Intent_ExpiresAt : Time;
}.
Definition keyed (ki : string * queueIntent) : nddevQueueRetryIntent := {|
  Intent_Key := if bool_decide (Key ki.2 = "") then ki.1 else Key ki.2; Intent_JobID := JobID ki.2; Intent_ScaleSetID := ScaleSetID ki.2;
  Intent_ScaleSetName := ScaleSetName ki.2; Intent_Owner := Owner ki.2; Intent_State := State ki.2; Intent_QueueTime := QueueTime ki.2;
  Intent_ExpiresAt := ExpiresAt ki.2 |}.
Definition live (q : Queue) (now : Time) (i : nddevQueueRetryIntent) : bool :=
  After (Intent_ExpiresAt i) now && negb (nddevRetryJobIsTerminal (Intent_JobID i) (queue_terminals q) now).

Definition selected_intents (states : queueIntentState → bool) (q : Queue) (now : Time) : list nddevQueueRetryIntent :=
  List.filter (λ i, states (Intent_State i) && live q now i) (keyed <$> map_to_list (queue_intents q)).

Definition required_queue (source : option QueueFile) : result Queue :=
  q ← nddevReadQueueRetryJournal source;
  match q with Some q => Ok q | None => Err (Errorf "queue intent path is required for pre-job retry identity" []) end.

Definition nddevActiveQueueIntents (source : option QueueFile) (now : Time) : result (list nddevQueueRetryIntent) :=
  q ← required_queue source; Ok (selected_intents admitted_state q now).
Definition nddevQueuedNonTerminalIntents (source : option QueueFile) (now : Time) : result (list nddevQueueRetryIntent) :=
  q ← required_queue source; Ok (selected_intents queued_state q now).

(** The job of an intent, taken from its key when the field is empty. *)
Definition job_key_prefix : string := "github-scale-set-job:v2:".
Fixpoint after_last_colon (s : string) (found : option string) : option string :=
  match s with
  | EmptyString => found
  | String c rest => after_last_colon rest (if bool_decide (c = ":"%char) then Some rest else found)
  end.
Definition inventory_job (ki : string * queueIntent) : string :=
  let job := TrimSpace (JobID ki.2) in
  if negb (bool_decide (job = "")) then job
  else if HasPrefix ki.1 job_key_prefix then
    default "" (TrimSpace <$> after_last_colon (drop_bytes (String.length job_key_prefix) ki.1) None)
  else "".

Record nddevActiveQueueInventory := { ScaleSets : gset string; JobIDs : gset string }.

Definition counted (q : Queue) (now : Time) (ki : string * queueIntent) : bool :=
  (queued_state (State ki.2) || admitted_state (State ki.2)) && After (ExpiresAt ki.2) now
  && negb (nddevRetryJobIsTerminal (inventory_job ki) (queue_terminals q) now).

Definition inventory_of (q : Queue) (now : Time) : nddevActiveQueueInventory :=
  let intents := List.filter (counted q now) (map_to_list (queue_intents q)) in
  {| ScaleSets := list_to_set ((λ ki, nddevOwnerScaleSetKey (Owner ki.2) (ScaleSetName ki.2)) <$>
                    List.filter (λ ki, negb (bool_decide (TrimSpace (ScaleSetName ki.2) = ""))) intents);
     JobIDs := list_to_set (List.filter (λ job, negb (bool_decide (job = ""))) (inventory_job <$> intents)) |}.

Definition nddevReadActiveQueueInventory (source : option QueueFile) (now : Time) : result (option nddevActiveQueueInventory) :=
  q ← nddevReadQueueRetryJournal source; Ok (option_map (λ q, inventory_of q now) q).

(** ** Delays

    The jitter is taken from a digest of the key and the attempt. *)

Section coordinator.
Context (digest64 : string → Z).

Definition nddevRetryDelay (key : string) (attempt : Z) : Duration :=
  let shift := Z.max 0 (Z.min (attempt - 1) 6) in
  let delay := Z.min nddevRetryCap (nddevRetryBase * 2 ^ shift) in
  delay + digest64 (key +:+ ":" +:+ pretty attempt) `mod` Z.max Second (delay `quot` 4).

Definition nddevCapacityRetryDelay (key : string) (attempt : Z) : Duration := Z.min (nddevRetryDelay key attempt) nddevCapacityRetryCap.

(** ** The capacity of the fleet *)

(** The oldest record of those a predicate admits, by update and then by key. *)
Definition older (a b : string * retry_record) : bool :=
  (Retry_UpdatedAt a.2 <? Retry_UpdatedAt b.2) || (Retry_UpdatedAt a.2 =? Retry_UpdatedAt b.2) && string_ltb a.1 b.1.
Definition oldest (keep : string * retry_record → bool) (records : gmap string retry_record) : option (string * retry_record) :=
  foldl (λ best kr, if keep kr then match best with Some b => if older kr b then Some kr else Some b | None => Some kr end else best)
    None (map_to_list records).

Definition domain_record (kr : string * retry_record) : bool :=
  negb (bool_decide (kr.1 = nddevCapacityDomainKey)) && bool_decide (nddevRetryDomainKey kr.1 = kr.1)
  && bool_decide (LastErrorClass kr.2 = "capacity").

(** [active] is [None] when no queue is configured: every domain is eligible. *)
Definition is_active (active : option (gset string)) (owner name : string) : bool :=
  match active with Some sets => bool_decide (nddevOwnerScaleSetKey owner name ∈ sets) | None => true end.

Definition eligible_domain (active : option (gset string)) (kr : string * retry_record) : bool :=
  domain_record kr
  && match active with
     | Some _ => negb (bool_decide (Retry_ScaleSetName kr.2 = "")) && is_active active (Retry_Owner kr.2) (Retry_ScaleSetName kr.2)
     | None => true
     end.

Definition nddevOldestEligibleCapacityDomain (j : nddevRetryJournal) (active : option (gset string)) : string :=
  match oldest (eligible_domain active) (Records j) with Some kr => kr.1 | None => "" end.

(** [nddevOldestCapacityRecord(journal, false, domain)]: concrete attempts only. *)
Definition concrete_capacity (domain : string) (kr : string * retry_record) : bool :=
  negb (bool_decide (kr.1 = nddevCapacityDomainKey)) && bool_decide (LastErrorClass kr.2 = "capacity")
  && negb (bool_decide (nddevRetryDomainKey kr.1 = kr.1))
  && (bool_decide (domain = "") || bool_decide (nddevRetryDomainKey kr.1 = domain)).
Definition nddevOldestCapacityRecord (j : nddevRetryJournal) (domain : string) : string :=
  match oldest (concrete_capacity domain) (Records j) with Some kr => kr.1 | None => "" end.

Definition shared_record (attempts : Z) (updated next : Time) (owner wake name account : string) : retry_record := {|
  Retry_JobID := nddevCapacityDomainKey; Attempts := attempts; LastErrorClass := "capacity"; Retry_UpdatedAt := updated; NextAllowedAt := next;
  TerminalUntil := zero_time; ProbeOwner := owner; WakeReason := wake; Retry_ScaleSetName := name; Retry_Owner := account |}.

Definition bump_attempts (attempts : Z) : Z := if attempts <? nddevRetryMaximum then attempts ⊕ 1 else attempts.

Definition nddevRecordSharedCapacityFailure (j : nddevRetryJournal) (now : Time) (scaleSetName owner : string) : nddevRetryJournal :=
  let attempts := bump_attempts (Attempts (record_at j nddevCapacityDomainKey)) in
  put nddevCapacityDomainKey
    (shared_record attempts now (Add now (nddevCapacityRetryDelay nddevCapacityDomainKey attempts)) "" "capacity-refused" scaleSetName owner) j.

Definition nddevGrantSharedCapacityProbe (j : nddevRetryJournal) (now : Time) (owner scaleSetName reason : string) : nddevRetryJournal :=
  let attempts := Attempts (record_at j nddevCapacityDomainKey) in
  put nddevCapacityDomainKey
    (shared_record (if attempts <? 1 then 1 else attempts) now now owner reason scaleSetName
       (if bool_decide (owner = "") then "" else Retry_Owner (record_at j (nddevRetryDomainKey owner)))) j.

(** ** Environment

    The queue journal is read up to five times by one operation, and may change in
    between; the check of the shared capacity takes the clock again. *)
Record RetryEnv := {
  retry_ctx : result unit;
  retry_paths : bool;                    (* the two paths are absolute and differ *)
  retry_access : Access;
  retry_now : Time;
  retry_later : Time;
  queue_reads : nat → option QueueFile;
  encoded_size : ProviderRetry.journal → Z;
}.

Definition nddevActiveQueueScaleSets (env : RetryEnv) : result (option (gset string)) :=
  inv ← nddevReadActiveQueueInventory (queue_reads env 1) (retry_later env); Ok (option_map ScaleSets inv).

(** ** The shared probe *)

Definition with_probe (owner name account wake : string) (updated next : Time) (r : retry_record) : retry_record := {|
  Retry_JobID := Retry_JobID r; Attempts := Attempts r; LastErrorClass := LastErrorClass r; Retry_UpdatedAt := updated; NextAllowedAt := next;
  TerminalUntil := TerminalUntil r; ProbeOwner := owner; WakeReason := wake; Retry_ScaleSetName := name; Retry_Owner := account |}.

(** An owner whose scale set has no active work gives the probe back. *)
Definition drop_inactive_owner (active : option (gset string)) (j : nddevRetryJournal) (shared : retry_record) : retry_record :=
  let owner := record_at j (nddevRetryDomainKey (ProbeOwner shared)) in
  if negb (bool_decide (ProbeOwner shared = "")) && negb (is_active active (Retry_Owner owner) (Retry_ScaleSetName owner))
  then with_probe "" "" (Retry_Owner shared) (WakeReason shared) (Retry_UpdatedAt shared) (NextAllowedAt shared) shared
  else shared.

(** So does a concrete attempt whose lease has expired. *)
Definition drop_expired_owner (now : Time) (shared : retry_record) : retry_record :=
  if negb (bool_decide (ProbeOwner shared = "")) && negb (After (NextAllowedAt shared) now) && concrete (ProbeOwner shared)
  then with_probe "" "" (Retry_Owner shared) "worker-deleted" now now shared
  else shared.

Definition nddevSharedCapacityCreateAllowed (env : RetryEnv) (j : nddevRetryJournal) (now : Time) (key scaleSetName : string) (reserve : bool)
    : result nddevRetryJournal :=
  match Records j !! nddevCapacityDomainKey with
  | None => Ok j
  | Some shared =>
      active ← nddevActiveQueueScaleSets env;
      let shared := drop_expired_owner now (drop_inactive_owner active j shared) in
      let j := put nddevCapacityDomainKey shared j in
      let owner := if bool_decide (ProbeOwner shared = "") then nddevOldestEligibleCapacityDomain j active else ProbeOwner shared in
      fail_if (negb (bool_decide (owner = "")) && negb (bool_decide (nddevRetryDomainKey key = nddevRetryDomainKey owner)))
        (Errorf "shared capacity retry is deferred behind oldest owner %s" [nddevRetryDomainKey owner]);;
      fail_if (After (NextAllowedAt shared) now) (Errorf "shared capacity retry is deferred until %s after %s" []);;
      if negb reserve then Ok j
      else
        fail_if (negb (bool_decide (owner = "")) && concrete owner && negb (bool_decide (key = owner)))
          (Errorf "shared capacity probe is owned by %s" [owner]);;
        Ok (put nddevCapacityDomainKey
              (with_probe key scaleSetName (Retry_Owner (record_at j (nddevRetryDomainKey key))) "probe-leased" now
                 (Add now nddevRetryAttemptLease) shared) j)
  end.

(** ** One access to the journal *)

Definition empty_retries : nddevRetryJournal :=
  {| Generation := 0; Journal_UpdatedAt := zero_time; Records := ∅; Reservations := ∅ |}.

(** The previous schema has no reservations. *)
Definition decode_retries (d : ProviderRetry.journal) : result nddevRetryJournal :=
  let previous := Retry_SchemaVersion d =? nddevRetryPreviousSchemaVersion in
  match ProviderRetry.Records d, (if previous then Some ∅ else ProviderRetry.Reservations d) with
  | Some records, Some reservations =>
      fail_if (negb previous && negb (Retry_SchemaVersion d =? nddevRetrySchemaVersion)) (Errorf "provider retry journal identity is invalid" []);;
      let j := {| Generation := Retry_Generation d; Journal_UpdatedAt := Retry_Journal_UpdatedAt d; Records := records; Reservations := reservations |} in
      Validate j;; Ok j
  | _, _ => Err (Errorf "provider retry journal identity is invalid" [])
  end.

Definition encode_retries (j : nddevRetryJournal) : ProviderRetry.journal := {|
  Retry_SchemaVersion := nddevRetrySchemaVersion; Retry_Generation := Generation j; Retry_Journal_UpdatedAt := Journal_UpdatedAt j;
  ProviderRetry.Records := Some (Records j); ProviderRetry.Reservations := Some (Reservations j) |}.

Definition nddevReadRetryJournal (file : StateFile (Z * ProviderRetry.journal)) : result nddevRetryJournal :=
  match file with
  | Absent => Ok empty_retries
  | Present content =>
      sized ← content;
      fail_if (nddevRetryMaximumBytes <? sized.1) (Errorf "read provider retry journal: invalid bounded content" []);;
      decode_retries sized.2
  end.

Definition nddevTerminalRetryJobIsInactive (key : string) (active : gset string) : bool :=
  match rev_string <$> (option_map fst (Cut (rev_string ":job:") (rev_string key))) with
  | Some job => negb (bool_decide (job = "")) && negb (bool_decide (job ∈ active))
  | None => false
  end.

Definition swept (now : Time) (inventory : option nddevActiveQueueInventory) (key : string) (r : retry_record) : bool :=
  negb (IsZero (TerminalUntil r)) && negb (After (TerminalUntil r) now)
  || IsZero (TerminalUntil r) && negb (After (NextAllowedAt r) now) && negb (After (Add (Retry_UpdatedAt r) nddevRetryStaleTTL) now)
  || match inventory with
     | Some inv => negb (IsZero (TerminalUntil r)) && nddevTerminalRetryJobIsInactive key (JobIDs inv)
     | None => false
     end.

Definition sweep (now : Time) (inventory : option nddevActiveQueueInventory) (j : nddevRetryJournal) : nddevRetryJournal := {|
  Generation := Generation j; Journal_UpdatedAt := Journal_UpdatedAt j;
  Records := filter (λ kr, swept now inventory kr.1 kr.2 = false) (Records j);
  Reservations := filter (λ kr, After (Add (Reservation_UpdatedAt kr.2) nddevRetryAttemptLease) now = true) (Reservations j) |}.

Definition nextgen (now : Time) (j : nddevRetryJournal) : nddevRetryJournal := {|
  Generation := (Generation j + 1) `mod` two64; Journal_UpdatedAt := now; Records := Records j; Reservations := Reservations j |}.

Definition file_exists (file : StateFile (Z * ProviderRetry.journal)) : bool := match file with Absent => false | Present _ => true end.

Definition nddevUpdateRetryJournal {R} (env : RetryEnv) (mutate : nddevRetryJournal → Time → result (nddevRetryJournal * R))
    (file : StateFile (Z * ProviderRetry.journal)) : StateFile (Z * ProviderRetry.journal) * result R :=
  let now := retry_now env in
  match (retry_ctx env;;
         fail_if (negb (retry_paths env)) (Errorf "provider retry journal paths are unavailable or unsafe" []);;
         access_lock (retry_access env);;
         before ← nddevReadRetryJournal file;
         inventory ← nddevReadActiveQueueInventory (queue_reads env 0) now;
         after ← mutate (sweep now inventory before) now;
         Validate after.1;;
         Ok (before, after)) with
  | Err e => (file, Err e)
  | Ok (before, (after, r)) =>
      if bool_decide (after = before) && file_exists file then (file, Ok r)
      else
        let written := encode_retries (nextgen now after) in
        let '(file', w) := publish (access_write (retry_access env)) file (Present (Ok (encoded_size env written, written))) in
        (file', w;; Ok r)
  end.

(** ** Before a create *)

(** The two refusals of a record that holds creates back. *)
Definition open_circuit (r : retry_record) : error := Errorf "provider create circuit is open until %s after %d attempts" [].
Definition deferred (r : retry_record) : error := Errorf "provider create retry is deferred until %s" [].
Definition held_back (now : Time) (r : retry_record) : result unit :=
  fail_if (After (TerminalUntil r) now) (open_circuit r);; fail_if (After (NextAllowedAt r) now) (deferred r).

Definition with_owner (owner : string) (r : retry_record) : retry_record := {|
  Retry_JobID := Retry_JobID r; Attempts := Attempts r; LastErrorClass := LastErrorClass r; Retry_UpdatedAt := Retry_UpdatedAt r;
  NextAllowedAt := NextAllowedAt r; TerminalUntil := TerminalUntil r; ProbeOwner := ProbeOwner r; WakeReason := WakeReason r;
  Retry_ScaleSetName := Retry_ScaleSetName r; Retry_Owner := owner |}.

Definition create_allowed (env : RetryEnv) (s : ScaleSet) (e : ForgeEntity) (key : string) (j : nddevRetryJournal) (now : Time)
    : result (nddevRetryJournal * unit) :=
  let j := match Records j !! key with Some r => put key (with_owner (nddevRetryOwner e) r) j | None => j end in
  j ← nddevSharedCapacityCreateAllowed env j now key (Set_Name s) false;
  match Records j !! key with
  | None => Ok (j, tt)
  | Some r =>
      waiting ← (if negb (bool_decide (LastErrorClass r = "capacity")) then
                   intents ← nddevActiveQueueIntents (queue_reads env 2) now;
                   Ok (existsb (λ i, (Intent_ScaleSetID i =? Set_ID s) && bool_decide (Intent_ScaleSetName i = Set_Name s)) intents)
                 else Ok false);
      if (waiting : bool) then Ok (j, tt) else held_back now r;; Ok (j, tt)
  end.

Definition NDDevScaleSetCreateAllowed (env : RetryEnv) (s : ScaleSet) (e : ForgeEntity) (file : StateFile (Z * ProviderRetry.journal))
    : StateFile (Z * ProviderRetry.journal) * result unit :=
  let key := nddevScaleSetRetryKey s e in
  if bool_decide (key = "") then (file, Ok tt) else nddevUpdateRetryJournal env (create_allowed env s e key) file.

(** The first attempt after a capacity backoff takes the lease of its scale set. *)
Definition lease_domain (now : Time) (key : string) (j : nddevRetryJournal) : result nddevRetryJournal :=
  let domainKey := nddevRetryDomainKey key in
  let domain := record_at j domainKey in
  if negb (bool_decide (domainKey = key)) && bool_decide (LastErrorClass domain = "capacity") then
    held_back now domain;;
    Ok (put domainKey
          {| Retry_JobID := Retry_JobID domain; Attempts := Attempts domain; LastErrorClass := LastErrorClass domain; Retry_UpdatedAt := now;
             NextAllowedAt := Add now nddevRetryAttemptLease; TerminalUntil := TerminalUntil domain; ProbeOwner := ProbeOwner domain;
             WakeReason := WakeReason domain; Retry_ScaleSetName := Retry_ScaleSetName domain; Retry_Owner := Retry_Owner domain |} j)
  else Ok j.

Definition attempted (now : Time) (key scaleSetName : string) (r : retry_record) : retry_record := {|
  Retry_JobID := key; Attempts := bump_attempts (Attempts r); LastErrorClass := LastErrorClass r; Retry_UpdatedAt := now;
  NextAllowedAt := Add now nddevRetryAttemptLease; TerminalUntil := TerminalUntil r; ProbeOwner := ProbeOwner r; WakeReason := WakeReason r;
  Retry_ScaleSetName := if bool_decide (scaleSetName = "") then Retry_ScaleSetName r else scaleSetName; Retry_Owner := Retry_Owner r |}.

(** Attempts that are used up without a recorded capacity or intent failure. *)
Definition exhausted (r : retry_record) : bool :=
  (nddevRetryMaximum <=? Attempts r) && negb (bool_decide (LastErrorClass r = "capacity")) && negb (bool_decide (LastErrorClass r = "intent")).

(** The circuit that the last refusal opens is part of a mutation that fails. *)
Definition before_create (env : RetryEnv) (key scaleSetName : string) (j : nddevRetryJournal) (now : Time) : result (nddevRetryJournal * unit) :=
  let name := TrimSpace scaleSetName in
  j ← nddevSharedCapacityCreateAllowed env j now key name true;
  j ← lease_domain now key j;
  let r := record_at j key in
  fail_if (negb (bool_decide (Retry_JobID r = "")) && negb (bool_decide (Retry_JobID r = key))) (Errorf "provider retry key changed identity" []);;
  held_back now r;;
  fail_if (exhausted r) (Errorf "provider create circuit opened after %d attempts" []);;
  Ok (put key (attempted now key name r) j, tt).

Definition nddevBeforeProviderCreate (env : RetryEnv) (key scaleSetName : string) (file : StateFile (Z * ProviderRetry.journal))
    : StateFile (Z * ProviderRetry.journal) * result unit :=
  if bool_decide (key = "") then (file, Ok tt) else nddevUpdateRetryJournal env (before_create env key scaleSetName) file.

(** ** After a create *)

Definition failed (now : Time) (key : string) (name class : string) (attempts : Z) (next terminal : Time) (r : retry_record) : retry_record := {|
  Retry_JobID := key; Attempts := attempts; LastErrorClass := class; Retry_UpdatedAt := now; NextAllowedAt := next; TerminalUntil := terminal;
  ProbeOwner := ProbeOwner r; WakeReason := WakeReason r; Retry_ScaleSetName := name; Retry_Owner := Retry_Owner r |}.

(** Capacity: the delay grows, the whole fleet backs off, no circuit opens. *)
Definition capacity_failure (now : Time) (key : string) (r : retry_record) (j : nddevRetryJournal) : nddevRetryJournal :=
  let domainKey := nddevRetryDomainKey key in
  let owner := if bool_decide (Retry_Owner r = "") then Retry_Owner (record_at j domainKey) else Retry_Owner r in
  let name := Retry_ScaleSetName r in
  let j := nddevRecordSharedCapacityFailure j now name owner in
  let j := put key (failed now (Retry_JobID r) name "capacity" (Attempts r) (Add now (nddevCapacityRetryDelay key (Attempts r))) zero_time r) j in
  if bool_decide (domainKey = key) then j
  else let domain := record_at j domainKey in
       let attempts := bump_attempts (Attempts domain) in
       put domainKey (failed now domainKey name "capacity" attempts (Add now (nddevCapacityRetryDelay domainKey attempts)) zero_time domain) j.

(** A job that was canceled meanwhile: a short fixed delay. *)
Definition intent_failure (now : Time) (key : string) (r : retry_record) (j : nddevRetryJournal) : nddevRetryJournal :=
  let domainKey := nddevRetryDomainKey key in
  let name := Retry_ScaleSetName r in
  let j := put key (failed now (Retry_JobID r) name "intent" 1 (Add now nddevRetryBase) zero_time r) j in
  if bool_decide (domainKey = key) then j
  else put domainKey (failed now domainKey name "intent" 1 (Add now nddevRetryBase) zero_time (record_at j domainKey)) j.

(** Everything else backs off and opens the circuit with the last attempt. *)
Definition backoff (now : Time) (key jobID name class : string) (attempts : Z) (r : retry_record) : retry_record :=
  if nddevRetryMaximum <=? attempts then failed now jobID name class attempts now (Add now nddevRetryExecutionTTL) r
  else failed now jobID name class attempts (Add now (nddevRetryDelay key attempts)) (TerminalUntil r) r.

Definition provider_failure (now : Time) (key class : string) (r : retry_record) (j : nddevRetryJournal) : nddevRetryJournal :=
  let domainKey := nddevRetryDomainKey key in
  let name := Retry_ScaleSetName r in
  let j := put key (backoff now key (Retry_JobID r) name class (Attempts r) r) j in
  if negb (bool_decide (domainKey = key)) && negb (Contains key ":job:") then
    let domain := record_at j domainKey in
    put domainKey (backoff now domainKey domainKey name class (bump_attempts (Attempts domain)) domain) j
  else j.

(** The classes of a provider's error, by the words of its text in lower case. *)
Definition capacity_words : list string :=
  ["pool-saturated"; "insufficient-cpu"; "insufficient-memory"; "memory-pressure"; "cpu-pressure"; "io-pressure"; "disk-pressure";
   "pressure-unavailable"; "host-unhealthy"; "recent-oom"; "project memory limit"; "project disk limit"; "instance-count limit";
   "storage high-watermark"; "storage-high-watermark"; "no eligible member"; "incomplete instance metadata"; "preempting warm";
   "waiting for instance deletion"; "waiting to start instance deletion"; "instance is busy running"].
Definition intent_words : list string := ["no active pre-acquirejobs"; "instance stopped during canceled create"; "instance is not running"].
Definition mentions_any (message : string) (words : list string) : bool := existsb (Contains message) words.

Definition nddevProviderErrorClass (text : string) : string :=
  let message := ToLower text in
  if mentions_any message capacity_words then "capacity"
  else if mentions_any message intent_words then "intent"
  else if mentions_any message ["provider identity"; "provider-commit"] then "identity"
  else if mentions_any message ["timeout"; "timed out"; "deadline"] then "timeout"
  else "provider".

Definition create_failure (key text : string) (j : nddevRetryJournal) (now : Time) : result (nddevRetryJournal * unit) :=
  match Records j !! key with
  | None => Err (Errorf "provider retry failure has no reserved attempt" [])
  | Some r =>
      fail_if (Attempts r <? 1) (Errorf "provider retry failure has no reserved attempt" []);;
      let class := nddevProviderErrorClass text in
      Ok (if bool_decide (class = "capacity") then capacity_failure now key r j
          else if bool_decide (class = "intent") then intent_failure now key r j
          else provider_failure now key class r j, tt)
  end.

Definition nddevRecordProviderCreateFailure (env : RetryEnv) (key text : string) (file : StateFile (Z * ProviderRetry.journal))
    : StateFile (Z * ProviderRetry.journal) * result unit :=
  if bool_decide (key = "") then (file, Ok tt) else nddevUpdateRetryJournal env (create_failure key text) file.

Definition create_success (key : string) (j : nddevRetryJournal) (now : Time) : result (nddevRetryJournal * unit) :=
  let domainKey := nddevRetryDomainKey key in
  let j := drop_record domainKey (drop_record key j) in
  Ok (match Records j !! nddevCapacityDomainKey with
      | Some shared =>
          if bool_decide (ProbeOwner shared = "") || bool_decide (ProbeOwner shared = key)
             || bool_decide (nddevRetryDomainKey (ProbeOwner shared) = domainKey)
          then drop_record nddevCapacityDomainKey j else j
      | None => j
      end, tt).

Definition nddevRecordProviderCreateSuccess (env : RetryEnv) (key : string) (file : StateFile (Z * ProviderRetry.journal))
    : StateFile (Z * ProviderRetry.journal) * result unit :=
  if bool_decide (key = "") then (file, Ok tt) else nddevUpdateRetryJournal env (create_success key) file.

(** ** After a deletion *)

Definition capacity_released (env : RetryEnv) (j : nddevRetryJournal) (now : Time) : result (nddevRetryJournal * unit) :=
  active ← nddevActiveQueueScaleSets env;
  let domainKey := nddevOldestEligibleCapacityDomain j active in
  if bool_decide (domainKey = "") then
    let concreteKey := if bool_decide (is_Some active) then "" else nddevOldestCapacityRecord j "" in
    if bool_decide (concreteKey = "") then Ok (nddevGrantSharedCapacityProbe j now "" "" "worker-deleted", tt)
    else Ok (drop_record concreteKey
               (nddevGrantSharedCapacityProbe j now (nddevRetryDomainKey concreteKey) (Retry_ScaleSetName (record_at j concreteKey)) "worker-deleted"), tt)
  else
    let name := Retry_ScaleSetName (record_at j domainKey) in
    let j := drop_record domainKey j in
    let concreteKey := nddevOldestCapacityRecord j domainKey in
    let j := if bool_decide (concreteKey = "") then j else drop_record concreteKey j in
    Ok (nddevGrantSharedCapacityProbe j now domainKey name "worker-deleted", tt).

Definition NDDevProviderCapacityReleased (env : RetryEnv) (file : StateFile (Z * ProviderRetry.journal))
    : StateFile (Z * ProviderRetry.journal) * result unit :=
  nddevUpdateRetryJournal env (capacity_released env) file.

(** ** Reservations *)

Definition of_set (s : ScaleSet) (i : nddevQueueRetryIntent) : bool :=
  (Intent_ScaleSetID i =? Set_ID s) && bool_decide (Intent_ScaleSetName i = Set_Name s).

Definition owners_of (intents : list nddevQueueRetryIntent) (s : ScaleSet) : gset string :=
  list_to_set (List.filter (λ o, negb (bool_decide (o = ""))) ((λ i, TrimSpace (Intent_Owner i)) <$> List.filter (of_set s) intents)).

(** The number of owners is part of the error: none is not ambiguity. *)
Definition nddevUniqueActiveIntentOwner (intents : list nddevQueueRetryIntent) (s : ScaleSet) : nat + string :=
  match elements (owners_of intents s) with
  | [owner] => inr owner
  | owners => inl (length owners)
  end.

Definition ambiguous : error := Errorf "pre-job provider retry identity requires one unique active queue owner, got %d" [].

Definition retry_candidate (s : ScaleSet) (owner domain : string) (j : nddevRetryJournal) (now : Time) (i : nddevQueueRetryIntent) : bool :=
  let key := domain +:+ ":job:" +:+ TrimSpace (Intent_JobID i) in
  of_set s i && (bool_decide (Intent_Owner i = "") || bool_decide (Intent_Owner i = owner))
  && negb (bool_decide (Intent_JobID i = "")) && negb (bool_decide (key ∈ reserved_keys j))
  && match Records j !! key with Some r => negb (After (TerminalUntil r) now) && negb (After (NextAllowedAt r) now) | None => true end.

Definition nddevRetryCandidates (intents : list nddevQueueRetryIntent) (s : ScaleSet) (owner domain : string) (j : nddevRetryJournal) (now : Time)
    : list nddevQueueRetryIntent := List.filter (retry_candidate s owner domain j now) intents.

Definition queued_before (a b : nddevQueueRetryIntent) : bool :=
  if negb (Intent_QueueTime a =? Intent_QueueTime b) then Before (Intent_QueueTime a) (Intent_QueueTime b)
  else string_ltb (Intent_Key a) (Intent_Key b).

Definition reserving_owner (env : RetryEnv) (s : ScaleSet) (e : ForgeEntity) (intents : list nddevQueueRetryIntent) (now : Time) : result string :=
  let owner := nddevRetryOwner e in
  if negb (bool_decide (owner = "")) then Ok owner
  else match nddevUniqueActiveIntentOwner intents s with
       | inr owner => Ok owner
       | inl O =>
           queued ← nddevQueuedNonTerminalIntents (queue_reads env 3) now;
           match nddevUniqueActiveIntentOwner (intents ++ queued) s with inr owner => Ok owner | inl _ => Err ambiguous end
       | inl _ => Err ambiguous
       end.

Definition reserve_key (env : RetryEnv) (name domain : string) (s : ScaleSet) (e : ForgeEntity) (j : nddevRetryJournal) (now : Time)
    : result (nddevRetryJournal * string) :=
  match Reservations j !! name with
  | Some reservation =>
      Ok (with_reservations (<[name := {| RetryKey := RetryKey reservation; Reservation_ScaleSetName := Reservation_ScaleSetName reservation;
                                          Reservation_UpdatedAt := now |}]> (Reservations j)) j, RetryKey reservation)
  | None =>
      intents ← nddevActiveQueueIntents (queue_reads env 2) now;
      owner ← reserving_owner env s e intents now;
      candidates ← (match nddevRetryCandidates intents s owner domain j now with
                    | [] => queued ← nddevQueuedNonTerminalIntents (queue_reads env 4) now; Ok (nddevRetryCandidates queued s owner domain j now)
                    | candidates => Ok candidates
                    end);
      match sort_slice queued_before candidates with
      | [] => Err (Errorf "no eligible unclaimed admitted queue intent can own pre-job provider create" [])
      | i :: _ =>
          let key := domain +:+ ":job:" +:+ Intent_JobID i in
          Ok (with_reservations (<[name := {| RetryKey := key; Reservation_ScaleSetName := Set_Name s; Reservation_UpdatedAt := now |}]>
                                   (Reservations j)) j, key)
      end
  end.

Definition nddevReserveProviderRetryKey (env : RetryEnv) (i : Instance) (s : ScaleSet) (e : ForgeEntity)
    (file : StateFile (Z * ProviderRetry.journal)) : StateFile (Z * ProviderRetry.journal) * result string :=
  let key := nddevProviderRetryKey i s e in
  if bool_decide (is_Some (Inst_Job i)) || negb (Contains key ":instance:") then (file, Ok key)
  else
    let name := TrimSpace (Inst_Name i) in
    if bool_decide (name = "") then (file, Err (Errorf "pre-job provider retry identity requires an instance name" []))
    else
      let domain := nddevScaleSetRetryKey s e in
      if bool_decide (domain = "") then (file, Ok "") else nddevUpdateRetryJournal env (reserve_key env name domain s e) file.

Definition release_key (name : string) (j : nddevRetryJournal) (now : Time) : result (nddevRetryJournal * unit) :=
  Ok (with_reservations (delete name (Reservations j)) j, tt).

Definition nddevReleaseProviderRetryReservation (env : RetryEnv) (instanceName : string) (file : StateFile (Z * ProviderRetry.journal))
    : StateFile (Z * ProviderRetry.journal) * result unit :=
  let name := TrimSpace instanceName in
  if bool_decide (name = "") then (file, Ok tt) else nddevUpdateRetryJournal env (release_key name) file.

(** One create: the three accesses to the journal each have their environment. *)
Definition nddevPrepareProviderCreate (env1 env2 env3 : RetryEnv) (i : Instance) (s : ScaleSet) (e : ForgeEntity)
    (file : StateFile (Z * ProviderRetry.journal)) : StateFile (Z * ProviderRetry.journal) * result string :=
  match nddevReserveProviderRetryKey env1 i s e file with
  | (file, Err err) => (file, Err err)
  | (file, Ok key) =>
      match nddevBeforeProviderCreate env2 key (Set_Name s) file with
      | (file, Ok _) => (file, Ok key)
      | (file, Err err) =>
          match nddevReleaseProviderRetryReservation env3 (Inst_Name i) file with
          | (file, Ok _) => (file, Err err)
          | (file, Err released) => (file, Err (Wrapf "provider create preflight failed: %v; release reservation: %w" [] released))
          end
      end
  end.

End coordinator.
