(* ===== verification/CreateRetryFacts.v ===== *)
(** * Facts about the retry coordinator

    What one access to the journal does to the file, what validation means for a
    record, and the invariant of the records that the operations keep. *)

From S2P Require Import Prelude StateFile GoText QueueIntent QueueOps CacheNamespace ProviderRetry ProviderRetryFacts CreateRetry.

Local Open Scope Z_scope.
Local Open Scope go_scope.

(** ** Validation *)

Lemma Validate_Ok j : Validate j = Ok tt ↔
  map_Forall (λ k r, validate_record (k, r) = Ok tt) (Records j) ∧
  map_Forall (λ k r, validate_reservation (k, r) = Ok tt) (Reservations j) ∧ NoDup (reserved_keys j).
Proof.
  unfold Validate. split.
  - intros H. apply bind_Ok in H as ([] & Hr & H). apply bind_Ok in H as ([] & Hv & Hd%fail_if_Ok). rewrite forM_Ok in Hr. rewrite forM_Ok in Hv. bool_hyps.
    split_and!; [intros k r Hk; apply Hr|intros k r Hk; apply Hv|done]; by apply elem_of_map_to_list.
  - intros (Hr & Hv & Hd). rewrite (proj2 (forM_Ok _ validate_record tt)).
    2:{ intros [k r] Hk%elem_of_map_to_list. by apply Hr. }
    simpl. rewrite (proj2 (forM_Ok _ validate_reservation tt)).
    2:{ intros [k r] Hk%elem_of_map_to_list. by apply Hv. }
    simpl. by rewrite bool_decide_eq_true_2.
Qed.

Record record_valid (key : string) (r : retry_record) : Prop := {
  valid_key : Retry_JobID r = key;
  valid_attempts : 1 ≤ Attempts r ≤ 3;
  valid_order : Retry_UpdatedAt r ≤ NextAllowedAt r;
}.

Lemma validate_record_valid key r : validate_record (key, r) = Ok tt → record_valid key r.
Proof.
  unfold validate_record. intros H. apply bind_Ok in H as ([] & H%fail_if_Ok & _). unfold Before, nddevRetryMaximum in H. bool_hyps.
  split; [done| |]; lia.
Qed.

Lemma Validate_attempts j key r : Validate j = Ok tt → Records j !! key = Some r → record_valid key r.
Proof. intros [Hr _]%Validate_Ok Hk. by apply validate_record_valid, Hr. Qed.

(** ** One access *)

Section access.
Context {R : Type} (env : RetryEnv) (mutate : nddevRetryJournal → Time → result (nddevRetryJournal * R)).
Implicit Types file : StateFile (Z * ProviderRetry.journal).

Definition written (after : nddevRetryJournal) : StateFile (Z * ProviderRetry.journal) :=
  let d := encode_retries (nextgen (retry_now env) after) in Present (Ok (encoded_size env d, d)).

(** A mutation that went through: what it started from and what it gave. *)
Definition access_of file (before after : nddevRetryJournal) (r : R) : Prop :=
  ∃ inventory, nddevReadRetryJournal file = Ok before ∧ nddevReadActiveQueueInventory (queue_reads env 0) (retry_now env) = Ok inventory ∧
    mutate (sweep (retry_now env) inventory before) (retry_now env) = Ok (after, r) ∧ Validate after = Ok tt.

Lemma retry_Update_cases file file' res : nddevUpdateRetryJournal env mutate file = (file', res) →
  (file' = file ∧ (∃ e, res = Err e)) ∨
  ∃ before after r, access_of file before after r ∧
    (file' = file ∧ after = before ∧ res = Ok r ∨ file' = file ∧ (∃ e, res = Err e) ∨ file' = written after).
Proof.
  unfold nddevUpdateRetryJournal. cbv zeta. destruct (retry_ctx env) as [[]|e]; [|intros [= <- <-]; left; eauto]. cbn [mbind result_bind].
  destruct (retry_paths env); cbn [negb fail_if mbind result_bind]; [|intros [= <- <-]; left; eauto].
  destruct (access_lock _) as [[]|e]; [|intros [= <- <-]; left; eauto]. cbn [mbind result_bind].
  destruct (nddevReadRetryJournal file) as [before|e] eqn:Hread; [|intros [= <- <-]; left; eauto]. cbn [mbind result_bind].
  destruct (nddevReadActiveQueueInventory _ _) as [inventory|e] eqn:Hinv; [|intros [= <- <-]; left; eauto]. cbn [mbind result_bind].
  destruct (mutate _ _) as [[after r]|e] eqn:Hmut; [|intros [= <- <-]; left; eauto]. cbn [mbind result_bind fst].
  destruct (Validate after) as [[]|e] eqn:Hval; [|intros [= <- <-]; left; eauto]. cbn [mbind result_bind].
  intros H. right. exists before, after, r. split; [by exists inventory|]. revert H.
  destruct (bool_decide (after = before) && file_exists file) eqn:Hsame; [intros [= <- <-]; bool_hyps; by left|].
  destruct (publish _ _ _) as [f p] eqn:Hpub. intros [= <- <-]. apply publish_cases in Hpub as [[->| ->] Hok]; [|by right; right].
  right. destruct p as [[]|e]; [right; by rewrite Hok|left]. split; [done|]. by exists e.
Qed.

Lemma Update_Ok file file' r : nddevUpdateRetryJournal env mutate file = (file', Ok r) →
  ∃ before after, access_of file before after r ∧ (file' = file ∧ after = before ∨ file' = written after).
Proof.
  intros H. pose proof H as H'. apply retry_Update_cases in H as [[_ [e ?]]|(before & after & r' & Hacc & Hcase)]; [done|].
  exists before, after. assert (r' = r) as ->; [|split; [done|]].
  - revert H'. destruct Hacc as (inventory & Hread & Hinv & Hmut & Hval). unfold nddevUpdateRetryJournal. cbv zeta.
    destruct (retry_ctx env) as [[]|]; [|done]. cbn [mbind result_bind].
    destruct (retry_paths env); [|done]. cbn [negb fail_if mbind result_bind]. destruct (access_lock _) as [[]|]; [|done]. cbn [mbind result_bind].
    rewrite Hread. cbn [mbind result_bind]. rewrite Hinv. cbn [mbind result_bind]. rewrite Hmut. cbn [mbind result_bind fst]. rewrite Hval.
    cbn [mbind result_bind]. destruct (_ && _); [by intros [= _ ->]|]. destruct (publish _ _ _) as [f [[]|]]; simpl; [by intros [= _ ->]|done].
  - destruct Hcase as [(-> & -> & _)|[[_ [e ?]]| ->]]; [by left|done|by right].
Qed.

(** A mutation that fails on whatever can be read leaves the file as it was. *)
Lemma Update_refused file :
  (∀ before inventory, nddevReadRetryJournal file = Ok before → is_Ok (mutate (sweep (retry_now env) inventory before) (retry_now env)) = false) →
  ∃ e, nddevUpdateRetryJournal env mutate file = (file, Err e).
Proof.
  intros Hmut. destruct (nddevUpdateRetryJournal env mutate file) as [file' res] eqn:H.
  apply retry_Update_cases in H as [[-> [e ->]]|(b & a & r & (inventory & Hread & _ & Hm & _) & _)]; [by exists e|].
  specialize (Hmut b inventory Hread). by rewrite Hm in Hmut.
Qed.

(** Whatever is read back from what was written has its records. *)
Lemma read_written_records after j : nddevReadRetryJournal (written after) = Ok j → Records j = Records after.
Proof.
  unfold written, nddevReadRetryJournal. cbn [mbind result_bind fst snd]. intros H. apply bind_Ok in H as ([] & _ & H).
  unfold decode_retries in H. cbn in H. apply bind_Ok in H as ([] & _ & H). by injection H as <-.
Qed.

(** What was written is read back, while it fits the limit of the reader. *)
Lemma read_written after : Validate after = Ok tt →
  encoded_size env (encode_retries (nextgen (retry_now env) after)) ≤ nddevRetryMaximumBytes →
  nddevReadRetryJournal (written after) = Ok (nextgen (retry_now env) after).
Proof.
  intros Hval Hsize. unfold written, nddevReadRetryJournal. cbn [mbind result_bind fst snd].
  destruct (nddevRetryMaximumBytes <? _) eqn:?; [lia|]. cbn [fail_if mbind result_bind].
  unfold decode_retries. cbn [encode_retries Retry_SchemaVersion ProviderRetry.Records ProviderRetry.Reservations nextgen Records Reservations
    Generation Journal_UpdatedAt Retry_Generation Retry_Journal_UpdatedAt]. cbn.
  assert (∀ g t, Validate {| Generation := g; Journal_UpdatedAt := t; Records := Records after; Reservations := Reservations after |} = Ok tt) as Hv by done.
  by rewrite Hv.
Qed.

End access.

(** ** Delays *)

Lemma nddevRetryDelay_bounds digest64 key attempt :
  nddevRetryBase ≤ nddevRetryDelay digest64 key attempt < 375 * Second ∧
  (attempt ≤ 3 → nddevRetryDelay digest64 key attempt < 25 * Second).
Proof.
  unfold nddevRetryDelay. cbv zeta. set (shift := Z.max 0 (Z.min (attempt - 1) 6)).
  assert (0 ≤ shift ≤ 6 ∧ (attempt ≤ 3 → shift ≤ 2)) as [Hs Hs3] by lia.
  assert (1 ≤ 2 ^ shift ∧ (attempt ≤ 3 → 2 ^ shift ≤ 4)) as [Hp Hp3].
  { split; [change 1 with (2 ^ 0); apply Z.pow_le_mono_r; lia|]. intros Ha. change 4 with (2 ^ 2). apply Z.pow_le_mono_r; lia. }
  set (p := 2 ^ shift) in *. unfold nddevRetryCap, nddevRetryBase, Second, Minute. set (delay := Z.min _ _).
  set (d := digest64 _). assert (5000000000 ≤ delay ≤ 300000000000) as Hd by lia.
  pose proof (Z.mod_pos_bound d (Z.max 1000000000 (delay `quot` 4))) as Hm. rewrite Z.quot_div_nonneg in * by lia.
  assert (delay `div` 4 ≤ 75000000000) by (apply Z.div_le_upper_bound; lia).
  split; [lia|]. intros Ha. specialize (Hp3 Ha). assert (delay ≤ 20000000000) by lia.
  assert (delay `div` 4 ≤ 5000000000) by (apply Z.div_le_upper_bound; lia). lia.
Qed.

Lemma nddevCapacityRetryDelay_bounds digest64 key attempt :
  nddevRetryBase ≤ nddevCapacityRetryDelay digest64 key attempt ≤ nddevCapacityRetryCap.
Proof.
  unfold nddevCapacityRetryDelay. pose proof (nddevRetryDelay_bounds digest64 key attempt). unfold nddevCapacityRetryCap, nddevRetryBase, Second in *. lia.
Qed.

(** ** The invariant of records *)

(** A circuit is open only after three attempts whose last failure was neither
    capacity nor a canceled job, and for a day; otherwise a record holds a create
    back for at most one attempt lease. *)
Definition circuit_class (class : string) : Prop := class ∈ ["identity"; "timeout"; "provider"].

Record good (key : string) (r : retry_record) : Prop := {
  good_attempts : 0 ≤ Attempts r ≤ 3;
  good_circuit : TerminalUntil r = zero_time ∨
    Attempts r = 3 ∧ circuit_class (LastErrorClass r) ∧ TerminalUntil r = Retry_UpdatedAt r + nddevRetryExecutionTTL;
  good_delay : NextAllowedAt r ≤ Retry_UpdatedAt r + nddevRetryAttemptLease;
  good_shared : key = nddevCapacityDomainKey → LastErrorClass r = "capacity";
}.

Definition all_good (j : nddevRetryJournal) : Prop := map_Forall good (Records j).
(** What the sweep leaves: circuits that are still open. *)
Definition fresh (now : Time) (j : nddevRetryJournal) : Prop :=
  map_Forall (λ _ r, TerminalUntil r = zero_time ∨ now < TerminalUntil r) (Records j).

Lemma good_zero key : key ≠ nddevCapacityDomainKey → good key zero_record.
Proof. intros Hk. split; [done|by left|done|done]. Qed.

Lemma bump_attempts_bounds a : 0 ≤ a ≤ 3 → 0 ≤ bump_attempts a ≤ 3 ∧ (bump_attempts a < 3 → a < 3).
Proof.
  unfold bump_attempts, nddevRetryMaximum, int_add. intros Ha. destruct (a <? 3) eqn:Hlt; [|lia].
  rewrite wrap64_small by (unfold in_int64, min_int64, max_int64; lia). lia.
Qed.

Lemma record_at_good j key : all_good j → key ≠ nddevCapacityDomainKey → good key (record_at j key).
Proof. intros Hj Hk. unfold record_at. destruct (Records j !! key) eqn:H; [by apply Hj|by apply good_zero]. Qed.

Lemma record_at_fresh now j key : fresh now j → TerminalUntil (record_at j key) = zero_time ∨ now < TerminalUntil (record_at j key).
Proof. intros Hj. unfold record_at. destruct (Records j !! key) eqn:H; [by apply (Hj key)|by left]. Qed.

Lemma put_good key r j : all_good j → good key r → all_good (put key r j).
Proof. intros Hj Hr. unfold all_good, put. simpl. by apply map_Forall_insert_2. Qed.

Lemma put_fresh now key r j : fresh now j → TerminalUntil r = zero_time ∨ now < TerminalUntil r → fresh now (put key r j).
Proof. intros Hj Hr. unfold fresh, put. simpl. by apply map_Forall_insert_2. Qed.

Lemma drop_good key j : all_good j → all_good (drop_record key j).
Proof. intros Hj. unfold all_good, drop_record. simpl. by apply map_Forall_delete. Qed.

Lemma sweep_good now inventory j : all_good j → all_good (sweep now inventory j) ∧ fresh now (sweep now inventory j).
Proof.
  intros Hj. split; intros k r; cbn; rewrite map_lookup_filter_Some; intros [Hk Hs]; [by apply Hj|].
  cbn in Hs. unfold swept in Hs. apply orb_false_iff in Hs as [[Hs _]%orb_false_iff _]. unfold IsZero, After in Hs.
  destruct (bool_decide (TerminalUntil r = zero_time)) eqn:Hz; [left; by apply bool_decide_eq_true in Hz|right].
  simpl in Hs. apply negb_false_iff in Hs. lia.
Qed.

Lemma shared_record_good digest64 attempts now owner wake name account :
  0 ≤ attempts ≤ 3 →
  good nddevCapacityDomainKey (shared_record attempts now (Add now (nddevCapacityRetryDelay digest64 nddevCapacityDomainKey attempts)) owner wake name account).
Proof.
  intros Ha. pose proof (nddevCapacityRetryDelay_bounds digest64 nddevCapacityDomainKey attempts).
  unfold nddevCapacityRetryCap, nddevRetryAttemptLease, Second in *. split; cbn -[nddevCapacityRetryDelay]; unfold Add, nddevRetryAttemptLease, Second; [done|by left|lia|done].
Qed.

(** Keys of scale sets are not the key of the fleet. *)
Lemma before_marker_head marker c s b : before_marker marker (String c s) = Some b → ∃ rest, b = String c rest.
Proof.
  unfold before_marker. destruct (Cut marker (String c s)) as [[before after]|] eqn:H; [|done]. apply Cut_split in H.
  destruct (decide (before = "")) as [->|Hne]; [by rewrite bool_decide_eq_true_2|]. rewrite bool_decide_eq_false_2 by done. intros [= <-].
  destruct before as [|c' before]; [done|]. simpl in H. injection H as -> _. eauto.
Qed.

Lemma domain_key_head c s : ∃ rest, retryDomainKey (String c s) = String c rest.
Proof.
  unfold retryDomainKey. destruct (before_marker ":instance:" (String c s)) eqn:H1; [by apply before_marker_head in H1|].
  destruct (before_marker ":job:" (String c s)) eqn:H2; [by apply before_marker_head in H2|]. by exists s.
Qed.

Definition scale_set_key (key : string) : Prop := ∃ rest, key = String "s" rest.

Lemma scale_set_key_shared key : scale_set_key key → key ≠ nddevCapacityDomainKey ∧ nddevRetryDomainKey key ≠ nddevCapacityDomainKey.
Proof. intros [rest ->]. split; [done|]. unfold nddevRetryDomainKey. destruct (domain_key_head "s" rest) as [r ->]. done. Qed.

(** ** The operations keep it *)

Lemma good_no_circuit key r : good key r → LastErrorClass r = "capacity" ∨ LastErrorClass r = "intent" → TerminalUntil r = zero_time.
Proof.
  intros [_ [?|(_ & Hc & _)] _ _] Hcap; [done|]. unfold circuit_class in Hc. rewrite !elem_of_cons, elem_of_nil in Hc.
  destruct Hcap as [Hcap|Hcap]; rewrite Hcap in Hc; naive_solver.
Qed.

Lemma with_probe_good owner name account wake updated next r :
  good nddevCapacityDomainKey r → next ≤ updated + nddevRetryAttemptLease → good nddevCapacityDomainKey (with_probe owner name account wake updated next r).
Proof.
  intros Hr Hn. pose proof (good_shared _ _ Hr eq_refl) as Hc. split; [apply Hr|left; by apply (good_no_circuit _ r Hr); left|done|done].
Qed.

Lemma drop_owners_good active j now r : good nddevCapacityDomainKey r → good nddevCapacityDomainKey (drop_expired_owner now (drop_inactive_owner active j r)).
Proof.
  intros Hr. assert (good nddevCapacityDomainKey (drop_inactive_owner active j r)) as Hr'.
  { unfold drop_inactive_owner. destruct (_ && _); [|done]. by apply with_probe_good; [|apply Hr]. }
  unfold drop_expired_owner. destruct (_ && _); [|done]. apply with_probe_good; [done|]. unfold nddevRetryAttemptLease, Second. lia.
Qed.

Section preservation.
Context (digest64 : string → Z) (env : RetryEnv).

Lemma shared_allowed_good j now key name reserve j' :
  all_good j → fresh now j → nddevSharedCapacityCreateAllowed env j now key name reserve = Ok j' → all_good j' ∧ fresh now j'.
Proof.
  intros Hj Hf. unfold nddevSharedCapacityCreateAllowed. destruct (Records j !! nddevCapacityDomainKey) as [shared|] eqn:Hs; [|intros [= <-]; done].
  intros H. apply bind_Ok in H as (active & _ & H). cbv zeta in H. apply bind_Ok in H as ([] & _ & H). apply bind_Ok in H as ([] & _ & H).
  pose proof (drop_owners_good active j now shared (Hj _ _ Hs)) as Hg. set (shared' := drop_expired_owner _ _) in *.
  assert (TerminalUntil shared' = zero_time) as Ht by (apply (good_no_circuit _ _ Hg); left; by apply Hg).
  assert (all_good (put nddevCapacityDomainKey shared' j) ∧ fresh now (put nddevCapacityDomainKey shared' j)) as [Hj1 Hf1].
  { split; [by apply put_good|]. apply put_fresh; [done|by left]. }
  destruct reserve; cbn [negb] in H; [|by injection H as <-]. apply bind_Ok in H as ([] & _ & <-%Ok_inj).
  split; [apply put_good; [done|]|apply put_fresh; [done|by left]]. apply with_probe_good; [done|]. unfold Add. lia.
Qed.

Lemma lease_domain_good j now key j' :
  scale_set_key key → all_good j → fresh now j → lease_domain now key j = Ok j' → all_good j' ∧ fresh now j'.
Proof.
  intros [_ Hk]%scale_set_key_shared Hj Hf. unfold lease_domain. cbv zeta. pose proof (record_at_good j _ Hj Hk) as Hg.
  destruct (negb (bool_decide (nddevRetryDomainKey key = key)) && _) eqn:Hc; [|intros [= <-]; done]. bool_hyps.
  intros Hh. apply bind_Ok in Hh as ([] & _ & <-%Ok_inj).
  assert (TerminalUntil (record_at j (nddevRetryDomainKey key)) = zero_time) as Ht by (apply (good_no_circuit _ _ Hg); by left).
  split; [apply put_good; [done|]|apply put_fresh; [done|by left]]. split; cbn; [apply Hg|by left|unfold Add; lia|done].
Qed.

Lemma held_back_fresh now r : TerminalUntil r = zero_time ∨ now < TerminalUntil r → held_back now r = Ok tt → TerminalUntil r = zero_time.
Proof. intros [Hz|Hlt] H; [done|]. apply bind_Ok in H as ([] & H%fail_if_Ok & _). unfold After in H. lia. Qed.

Lemma before_create_good j now key name j' u :
  scale_set_key key → all_good j → fresh now j → before_create env key name j now = Ok (j', u) → all_good j'.
Proof.
  intros Hk Hj Hf H. unfold before_create in H. cbv zeta in H. apply bind_Ok in H as (j1 & H1 & H).
  apply shared_allowed_good in H1 as [Hj1 Hf1]; [|done..]. apply bind_Ok in H as (j2 & H2 & H). apply lease_domain_good in H2 as [Hj2 Hf2]; [|done..].
  apply bind_Ok in H as ([] & _ & H). apply bind_Ok in H as ([] & Hheld & H). apply bind_Ok in H as ([] & _ & H). injection H as <- _.
  pose proof (record_at_good j2 key Hj2 (proj1 (scale_set_key_shared _ Hk))) as Hg.
  pose proof (held_back_fresh _ _ (record_at_fresh _ _ key Hf2) Hheld) as Ht.
  apply put_good; [done|]. split; cbn; [by apply bump_attempts_bounds, Hg|by left|unfold Add; lia|]. intros ->. by apply scale_set_key_shared in Hk as [? _].
Qed.

Lemma failed_good now key jobID name class attempts next r :
  key ≠ nddevCapacityDomainKey → 0 ≤ attempts ≤ 3 → next ≤ now + nddevRetryAttemptLease →
  good key (failed now jobID name class attempts next zero_time r).
Proof. intros Hk Ha Hn. split; cbn; [done|by left|done|done]. Qed.

Lemma capacity_delay_lease now key attempts : Add now (nddevCapacityRetryDelay digest64 key attempts) ≤ now + nddevRetryAttemptLease.
Proof.
  pose proof (nddevCapacityRetryDelay_bounds digest64 key attempts). unfold Add, nddevCapacityRetryCap, nddevRetryAttemptLease, Second in *. lia.
Qed.

(** The record of the fleet, or nothing. *)
Lemma shared_attempts j : all_good j → 0 ≤ Attempts (record_at j nddevCapacityDomainKey) ≤ 3.
Proof. intros Hj. unfold record_at. destruct (Records j !! _) as [r|] eqn:H; [|simpl; lia]. apply (Hj _ _ H). Qed.

Lemma capacity_failure_good now key r j :
  scale_set_key key → all_good j → good key r → all_good (capacity_failure digest64 now key r j).
Proof.
  intros [Hk Hd]%scale_set_key_shared Hj Hr. unfold capacity_failure. cbv zeta. set (j1 := nddevRecordSharedCapacityFailure _ _ _ _ _).
  assert (all_good j1) as Hj1 by (apply put_good; [done|]; apply shared_record_good; by apply bump_attempts_bounds, shared_attempts).
  set (j2 := put key _ j1). assert (all_good j2) as Hj2 by (apply put_good; [done|]; apply failed_good; [done|apply Hr|apply capacity_delay_lease]).
  destruct (bool_decide (nddevRetryDomainKey key = key)); [done|]. apply put_good; [done|].
  apply failed_good; [done| |apply capacity_delay_lease]. by apply bump_attempts_bounds, (record_at_good j2).
Qed.

Lemma intent_failure_good now key r j : scale_set_key key → all_good j → all_good (intent_failure now key r j).
Proof.
  intros [Hk Hd]%scale_set_key_shared Hj. unfold intent_failure. cbv zeta.
  assert (Add now nddevRetryBase ≤ now + nddevRetryAttemptLease) as Hl by (unfold Add, nddevRetryBase, nddevRetryAttemptLease, Second; lia).
  destruct (bool_decide _); repeat apply put_good; try done; by apply failed_good.
Qed.

Lemma backoff_good now key jobID name class attempts r :
  key ≠ nddevCapacityDomainKey → 0 ≤ attempts ≤ 3 → circuit_class class → (attempts < 3 → TerminalUntil r = zero_time) →
  good key (backoff digest64 now key jobID name class attempts r).
Proof.
  intros Hk Ha Hc Ht. unfold backoff, nddevRetryMaximum. destruct (3 <=? attempts) eqn:Hle.
  - split; cbn; [lia|right; split_and!; [lia|done|done]|unfold nddevRetryAttemptLease, Second; lia|done].
  - rewrite Ht by lia. apply failed_good; [done|lia|]. destruct (nddevRetryDelay_bounds digest64 key attempts) as [_ Hlt].
    unfold Add, nddevRetryAttemptLease, Second in *. lia.
Qed.

Lemma good_below_maximum key r : good key r → Attempts r < 3 → TerminalUntil r = zero_time.
Proof. intros [_ [?|(? & _)] _ _] ?; [done|lia]. Qed.

Lemma provider_failure_good now key class r j :
  scale_set_key key → all_good j → good key r → circuit_class class → all_good (provider_failure digest64 now key class r j).
Proof.
  intros [Hk Hd]%scale_set_key_shared Hj Hr Hc. unfold provider_failure. cbv zeta. set (j1 := put key _ j).
  assert (all_good j1) as Hj1.
  { apply put_good; [done|]. apply backoff_good; [done|apply Hr|done|]. by apply good_below_maximum with key. }
  destruct (_ && _); [|done]. apply put_good; [done|]. pose proof (record_at_good j1 _ Hj1 Hd) as Hg.
  destruct (bump_attempts_bounds (Attempts (record_at j1 (nddevRetryDomainKey key)))) as [Hb Hlt]; [apply Hg|].
  apply backoff_good; [done|done|done|]. intros H. by apply (good_below_maximum _ _ Hg), Hlt.
Qed.

Lemma error_class_cases text :
  nddevProviderErrorClass text = "capacity" ∨ nddevProviderErrorClass text = "intent" ∨ circuit_class (nddevProviderErrorClass text).
Proof.
  unfold nddevProviderErrorClass, circuit_class. cbv zeta. rewrite !elem_of_cons. repeat (destruct (mentions_any _ _); [tauto|]). tauto.
Qed.

Lemma create_failure_good now key text j j' u :
  scale_set_key key → all_good j → create_failure digest64 key text j now = Ok (j', u) → all_good j'.
Proof.
  intros Hk Hj. unfold create_failure. destruct (Records j !! key) as [r|] eqn:Hr; [|done]. intros H. apply bind_Ok in H as ([] & _ & H).
  cbv zeta in H. injection H as <- _. pose proof (Hj _ _ Hr) as Hg.
  destruct (bool_decide (_ = "capacity")) eqn:Hc; [by apply capacity_failure_good|].
  destruct (bool_decide (_ = "intent")) eqn:Hi; [by apply intent_failure_good|]. bool_hyps.
  apply provider_failure_good; [done..|]. destruct (error_class_cases text) as [?|[?|?]]; done.
Qed.

Lemma create_success_good now key j j' u : all_good j → create_success key j now = Ok (j', u) → all_good j'.
Proof.
  intros Hj H. unfold create_success in H. cbv zeta in H. injection H as <- _.
  assert (all_good (drop_record (nddevRetryDomainKey key) (drop_record key j))) as Hd by by apply drop_good, drop_good.
  case_match; [|done]. case_match; [by apply drop_good|done].
Qed.

Lemma grant_good j now owner name reason : all_good j → all_good (nddevGrantSharedCapacityProbe j now owner name reason).
Proof.
  intros Hj. apply put_good; [done|]. pose proof (shared_attempts j Hj). split; cbn; [|by left|unfold nddevRetryAttemptLease, Second; lia|done].
  destruct (_ <? 1); lia.
Qed.

Lemma capacity_released_good j now j' u : all_good j → capacity_released env j now = Ok (j', u) → all_good j'.
Proof.
  intros Hj H. unfold capacity_released in H. apply bind_Ok in H as (active & _ & H). cbv zeta in H.
  destruct (bool_decide (_ = "")).
  - destruct (bool_decide (_ = "")); injection H as <- _; [by apply grant_good|]. by apply drop_good, grant_good.
  - injection H as <- _. apply grant_good. destruct (bool_decide _); repeat apply drop_good; done.
Qed.

Lemma create_allowed_good s e key j now j' u :
  key ≠ nddevCapacityDomainKey → all_good j → fresh now j → create_allowed env s e key j now = Ok (j', u) → all_good j'.
Proof.
  intros Hk Hj Hf H. unfold create_allowed in H. cbv zeta in H. apply bind_Ok in H as (j1 & H1 & H).
  assert (all_good j1) as Hj1.
  { apply shared_allowed_good in H1 as [? _]; [done| |]; destruct (Records j !! key) as [r|] eqn:Hr; try done.
    - apply put_good; [done|]. destruct (Hj _ _ Hr). by split.
    - apply put_fresh; [done|]. exact (Hf key r Hr). }
  destruct (Records j1 !! key) as [r|]; [|by injection H as <- _]. apply bind_Ok in H as ([] & _ & H); [by injection H as <- _|].
  apply bind_Ok in H as ([] & _ & H). by injection H as <- _.
Qed.

Lemma reserve_key_records name domain s e j now j' key : reserve_key env name domain s e j now = Ok (j', key) → Records j' = Records j.
Proof.
  unfold reserve_key. destruct (Reservations j !! name) as [r|]; [by intros [= <- _]|]. intros H.
  apply bind_Ok in H as (intents & _ & H). apply bind_Ok in H as (owner & _ & H). apply bind_Ok in H as (candidates & _ & H).
  destruct (sort_slice _ candidates) as [|i rest]; [done|]. by injection H as <- _.
Qed.

(** ** Where circuits come from *)

(** Every circuit of [j'] is one of [j]. *)
Definition old_circuits (j j' : nddevRetryJournal) : Prop :=
  ∀ key r', Records j' !! key = Some r' → TerminalUntil r' ≠ zero_time → ∃ r, Records j !! key = Some r ∧ TerminalUntil r = TerminalUntil r'.

Lemma old_circuits_refl j : old_circuits j j.
Proof. intros key r' Hr _. by exists r'. Qed.

Lemma old_circuits_put j j' key r :
  old_circuits j j' → TerminalUntil r = zero_time ∨ TerminalUntil r = TerminalUntil (record_at j' key) → old_circuits j (put key r j').
Proof.
  intros Hj Hr k r' Hk Ht. cbn in Hk. apply lookup_insert_Some in Hk as [[<- <-]|[_ Hk]]; [|by apply Hj].
  destruct Hr as [?|Hr]; [done|]. unfold record_at in Hr. destruct (Records j' !! key) as [r0|] eqn:H0; [|by rewrite Hr in Ht].
  simpl in Hr. rewrite Hr in *. by apply Hj.
Qed.

Lemma old_circuits_drop j j' key : old_circuits j j' → old_circuits j (drop_record key j').
Proof. intros Hj k r' Hk. cbn in Hk. apply lookup_delete_Some in Hk as [_ Hk]. by apply Hj. Qed.

Lemma old_circuits_sweep now inventory j j' : old_circuits (sweep now inventory j) j' → old_circuits j j'.
Proof. intros Hj k r' Hk Ht. destruct (Hj k r' Hk Ht) as (r & Hr & ?). cbn in Hr. apply map_lookup_filter_Some in Hr as [Hr _]. by exists r. Qed.

#[local] Hint Resolve old_circuits_refl old_circuits_put old_circuits_drop : core.

Lemma shared_allowed_circuits j0 j now key name reserve j' :
  old_circuits j0 j → nddevSharedCapacityCreateAllowed env j now key name reserve = Ok j' → old_circuits j0 j'.
Proof.
  intros Hj. unfold nddevSharedCapacityCreateAllowed. destruct (Records j !! nddevCapacityDomainKey) as [shared|] eqn:Hs; [|by intros [= <-]].
  intros H. apply bind_Ok in H as (active & _ & H). cbv zeta in H. apply bind_Ok in H as ([] & _ & H). apply bind_Ok in H as ([] & _ & H).
  set (shared' := drop_expired_owner _ _) in *.
  assert (TerminalUntil shared' = TerminalUntil shared) as Ht by (unfold shared', drop_expired_owner, drop_inactive_owner; by repeat destruct (_ && _)).
  assert (old_circuits j0 (put nddevCapacityDomainKey shared' j)) as Hj1 by (apply old_circuits_put; [done|]; right; unfold record_at; by rewrite Hs).
  destruct reserve; cbn [negb] in H; [|by injection H as <-]. apply bind_Ok in H as ([] & _ & <-%Ok_inj).
  apply old_circuits_put; [done|]. right. unfold record_at. cbn. by rewrite lookup_insert_eq.
Qed.

Lemma before_create_circuits j now key name j' u : before_create env key name j now = Ok (j', u) → old_circuits j j'.
Proof.
  intros H. unfold before_create in H. cbv zeta in H. apply bind_Ok in H as (j1 & H1 & H). apply (shared_allowed_circuits j) in H1; [|done].
  apply bind_Ok in H as (j2 & H2 & H). assert (old_circuits j j2) as Hj2.
  { unfold lease_domain in H2. cbv zeta in H2. destruct (negb _ && _); [|by injection H2 as <-]. apply bind_Ok in H2 as ([] & _ & <-%Ok_inj).
    apply old_circuits_put; [done|by right]. }
  do 3 apply bind_Ok in H as ([] & _ & H). injection H as <- _. apply old_circuits_put; [done|by right].
Qed.

Lemma create_allowed_circuits s e key j now j' u : create_allowed env s e key j now = Ok (j', u) → old_circuits j j'.
Proof.
  intros H. unfold create_allowed in H. cbv zeta in H. apply bind_Ok in H as (j1 & H1 & H). apply (shared_allowed_circuits j) in H1.
  - destruct (Records j1 !! key) as [r|]; [|by injection H as <- _]. apply bind_Ok in H as ([] & _ & H); [by injection H as <- _|].
    apply bind_Ok in H as ([] & _ & H). by injection H as <- _.
  - destruct (Records j !! key) as [r|] eqn:Hr; [|done]. apply old_circuits_put; [done|]. right. unfold record_at. by rewrite Hr.
Qed.

Lemma create_success_circuits now key j j' u : create_success key j now = Ok (j', u) → old_circuits j j'.
Proof. intros H. unfold create_success in H. cbv zeta in H. injection H as <- _. case_match; [case_match|]; auto. Qed.

Lemma capacity_released_circuits j now j' u : capacity_released env j now = Ok (j', u) → old_circuits j j'.
Proof.
  intros H. unfold capacity_released in H. apply bind_Ok in H as (active & _ & H). cbv zeta in H.
  assert (∀ j1 owner name reason, old_circuits j j1 → old_circuits j (nddevGrantSharedCapacityProbe j1 now owner name reason)) as Hg
    by (intros; apply old_circuits_put; [done|by left]).
  destruct (bool_decide (_ = "")); [destruct (bool_decide (_ = ""))|]; injection H as <- _; auto.
  apply Hg. destruct (bool_decide _); auto.
Qed.

(** A failure opens circuits only on its own key and scale set, and only when the
    provider, not the capacity or the job, is to blame. *)
Lemma create_failure_circuits key text j now j' u k r' :
  create_failure digest64 key text j now = Ok (j', u) → Records j' !! k = Some r' → TerminalUntil r' ≠ zero_time →
  (∃ r, Records j !! k = Some r ∧ TerminalUntil r = TerminalUntil r') ∨
  circuit_class (nddevProviderErrorClass text) ∧ (k = key ∨ k = nddevRetryDomainKey key) ∧ TerminalUntil r' = now + nddevRetryExecutionTTL.
Proof.
  unfold create_failure. destruct (Records j !! key) as [r|] eqn:Hr; [|done]. intros H. apply bind_Ok in H as ([] & _ & H). cbv zeta in H.
  injection H as <- _. destruct (bool_decide (_ = "capacity")) eqn:Hc.
  { left. assert (old_circuits j (capacity_failure digest64 now key r j)) as Hold; [|by apply Hold].
    unfold capacity_failure, nddevRecordSharedCapacityFailure. cbv zeta.
    destruct (bool_decide (nddevRetryDomainKey key = key)); repeat (apply old_circuits_put; [|by left]); apply old_circuits_refl. }
  destruct (bool_decide (_ = "intent")) eqn:Hi.
  { left. assert (old_circuits j (intent_failure now key r j)) as Hold; [|by apply Hold].
    unfold intent_failure. cbv zeta.
    destruct (bool_decide (nddevRetryDomainKey key = key)); repeat (apply old_circuits_put; [|by left]); apply old_circuits_refl. }
  bool_hyps. assert (circuit_class (nddevProviderErrorClass text)) as Hclass by (by destruct (error_class_cases text) as [?|[?|?]]).
  assert (∀ key' jobID name attempts r0, TerminalUntil (backoff digest64 now key' jobID name (nddevProviderErrorClass text) attempts r0) =
    now + nddevRetryExecutionTTL ∨ TerminalUntil (backoff digest64 now key' jobID name (nddevProviderErrorClass text) attempts r0) = TerminalUntil r0) as Hb
    by (intros; unfold backoff; destruct (_ <=? _); [left|right]; done).
  intros Hk Ht. assert (∀ r0, Records (put key (backoff digest64 now key (Retry_JobID r) (Retry_ScaleSetName r) (nddevProviderErrorClass text) (Attempts r) r) j) !! k
      = Some r0 → TerminalUntil r0 = TerminalUntil r' →
      (∃ r, Records j !! k = Some r ∧ TerminalUntil r = TerminalUntil r') ∨ k = key ∧ TerminalUntil r' = now + nddevRetryExecutionTTL) as Hone.
  { intros r0 H0 Heq. cbn in H0. apply lookup_insert_Some in H0 as [[<- <-]|[_ H0]]; [|left; by exists r0].
    destruct (Hb key (Retry_JobID r) (Retry_ScaleSetName r) (Attempts r) r) as [Hn|Hn]; [right|left; exists r]; split; congruence. }
  unfold provider_failure in Hk. cbv zeta in Hk. destruct (_ && _).
  2:{ destruct (Hone _ Hk eq_refl) as [?|[? ?]]; [by left|right; split_and!; auto]. }
  cbn in Hk. apply lookup_insert_Some in Hk as [[<- Hr']|[_ Hk]]; [|destruct (Hone _ Hk eq_refl) as [?|[? ?]]; [by left|right; split_and!; auto]].
  match type of Hr' with backoff _ _ _ _ _ _ _ ?r0 = _ => set (domain := r0) in * end.
  destruct (Hb (nddevRetryDomainKey key) (nddevRetryDomainKey key) (Retry_ScaleSetName r) (bump_attempts (Attempts domain)) domain) as [Hn|Hn];
    rewrite Hr' in Hn; [right; split_and!; auto|].
  clear Hr'. unfold domain, record_at in Hn. destruct (Records (put key _ j) !! nddevRetryDomainKey key) as [r0|] eqn:H0; [|done].
  destruct (Hone r0 eq_refl) as [?|[? ?]]; [done|by left|right; split_and!; auto].
Qed.

End preservation.

(** ** The shared probe *)

(** While the record of the fleet holds creates back, none is let through. *)
Lemma shared_held env j now key name reserve shared :
  Records j !! nddevCapacityDomainKey = Some shared → now < NextAllowedAt shared →
  is_Ok (nddevSharedCapacityCreateAllowed env j now key name reserve) = false.
Proof.
  intros Hs Hn. unfold nddevSharedCapacityCreateAllowed. rewrite Hs. destruct (nddevActiveQueueScaleSets env) as [active|]; [|done].
  cbn [mbind result_bind]. assert (NextAllowedAt (drop_expired_owner now (drop_inactive_owner active j shared)) = NextAllowedAt shared) as Heq.
  { assert (NextAllowedAt (drop_inactive_owner active j shared) = NextAllowedAt shared) as H1 by (unfold drop_inactive_owner; by destruct (_ && _)).
    unfold drop_expired_owner. rewrite H1. unfold After. destruct (now <? NextAllowedAt shared) eqn:?; [|lia].
    by rewrite andb_false_r. }
  cbv zeta. rewrite Heq. unfold After. destruct (negb _ && negb _); cbn [fail_if mbind result_bind]; [done|].
  destruct (now <? NextAllowedAt shared) eqn:?; [by cbn [fail_if mbind result_bind]|lia].
Qed.

Lemma before_create_shared env key name j now j' u :
  scale_set_key key → before_create env key name j now = Ok (j', u) →
  match Records j !! nddevCapacityDomainKey with
  | None => Records j' !! nddevCapacityDomainKey = None
  | Some shared => ∃ shared', Records j' !! nddevCapacityDomainKey = Some shared' ∧ NextAllowedAt shared' = now + nddevRetryAttemptLease ∧
                              ProbeOwner shared' = key ∧ TerminalUntil shared' = TerminalUntil shared
  end.
Proof.
  intros [Hk Hd]%scale_set_key_shared H. unfold before_create in H. cbv zeta in H. apply bind_Ok in H as (j1 & H1 & H). apply bind_Ok in H as (j2 & H2 & H).
  apply bind_Ok in H as ([] & _ & H). apply bind_Ok in H as ([] & _ & H). apply bind_Ok in H as ([] & _ & H). injection H as <- _.
  assert (Records (put key (attempted now key (TrimSpace name) (record_at j2 key)) j2) !! nddevCapacityDomainKey = Records j1 !! nddevCapacityDomainKey) as ->.
  { cbn. rewrite lookup_insert_ne by done. unfold lease_domain in H2. cbv zeta in H2.
    destruct (negb _ && _); [|by injection H2 as <-]. apply bind_Ok in H2 as ([] & _ & H2). injection H2 as <-. cbn. by rewrite lookup_insert_ne. }
  revert H1. unfold nddevSharedCapacityCreateAllowed. destruct (Records j !! nddevCapacityDomainKey) as [shared|] eqn:Hs; [|by intros [= <-]].
  intros H1. apply bind_Ok in H1 as (active & _ & H1). cbv zeta in H1. apply bind_Ok in H1 as ([] & _ & H1). apply bind_Ok in H1 as ([] & _ & H1).
  cbn [negb] in H1. apply bind_Ok in H1 as ([] & _ & <-%Ok_inj). eexists. cbn. rewrite lookup_insert_eq. split_and!; [done|done|done|].
  unfold drop_expired_owner, drop_inactive_owner. by repeat destruct (_ && _).
Qed.

Lemma sweep_keeps now inventory j key r :
  Records j !! key = Some r → TerminalUntil r = zero_time → now < NextAllowedAt r → Records (sweep now inventory j) !! key = Some r.
Proof.
  intros Hk Ht Hn. cbn. apply map_lookup_filter_Some. split; [done|]. cbn. unfold swept, IsZero, After. rewrite Ht, bool_decide_eq_true_2 by done.
  destruct (now <? NextAllowedAt r) eqn:?; [|lia]. simpl. by destruct inventory.
Qed.

(** ** The oldest record *)

Lemma oldest_fold (keep : string * retry_record → bool) best krs kr :
  foldl (λ best kr, if keep kr then match best with Some b => if older kr b then Some kr else Some b | None => Some kr end else best) best krs = Some kr →
  best = Some kr ∨ kr ∈ krs ∧ keep kr = true.
Proof.
  revert best. induction krs as [|x krs IH]; intros best; simpl; [by left|]. intros H%IH. destruct H as [H|[H Hk]]; [|right; split; [by apply list_elem_of_further|done]].
  destruct (keep x) eqn:Hx; [|by left]. destruct best as [b|]; [destruct (older x b)|]; simplify_eq; try (by left); right; (split; [apply list_elem_of_here|done]).
Qed.

Lemma oldest_fold_some (keep : string * retry_record → bool) best krs : is_Some best → is_Some
  (foldl (λ best kr, if keep kr then match best with Some b => if older kr b then Some kr else Some b | None => Some kr end else best) best krs).
Proof.
  revert best. induction krs as [|x krs IH]; intros best Hb; simpl; [done|]. apply IH. destruct (keep x); [|done]. destruct best as [b|]; [|by eexists].
  destruct (older x b); by eexists.
Qed.

Lemma oldest_fold_none (keep : string * retry_record → bool) krs :
  foldl (λ best kr, if keep kr then match best with Some b => if older kr b then Some kr else Some b | None => Some kr end else best) None krs = None →
  ∀ kr, kr ∈ krs → keep kr = false.
Proof.
  induction krs as [|x krs IH]; simpl; [by intros _ kr ?%elem_of_nil|]. destruct (keep x) eqn:Hx.
  - intros H. destruct (oldest_fold_some keep (Some x) krs) as [y Hy]; [by eexists|]. rewrite H in Hy. done.
  - intros H kr [->|Hin]%elem_of_cons; [done|]. by apply IH.
Qed.

Lemma oldest_Some keep records kr : oldest keep records = Some kr → records !! kr.1 = Some kr.2 ∧ keep kr = true.
Proof. intros H. apply oldest_fold in H as [?|[Hin Hk]]; [done|]. destruct kr as [k r]. by apply elem_of_map_to_list in Hin. Qed.

Lemma oldest_None keep records key r : oldest keep records = None → records !! key = Some r → keep (key, r) = false.
Proof. intros H Hk. by apply (oldest_fold_none keep (map_to_list records) H), elem_of_map_to_list. Qed.

(** ** Active scale sets have a name *)

Lemma active_named source now inv : nddevReadActiveQueueInventory source now = Ok (Some inv) → nddevOwnerScaleSetKey "" "" ∉ ScaleSets inv.
Proof.
  unfold nddevReadActiveQueueInventory. intros H. apply bind_Ok in H as (q & _ & [= H]). destruct q as [q|]; [|done]. injection H as <-. cbn.
  rewrite elem_of_list_to_set, list_elem_of_fmap. intros ([k i] & Heq & Hin). apply list_elem_of_In, filter_In in Hin as [_ Hn].
  apply negb_true_iff, bool_decide_eq_false in Hn. cbn in Hn, Heq. apply Hn. apply (f_equal String.length) in Heq. unfold nddevOwnerScaleSetKey in Heq.
  rewrite !length_app_string in Heq. change (String.length (TrimSpace "")) with 0%nat in Heq. simpl in Heq.
  destruct (TrimSpace (ScaleSetName i)) as [|c rest]; [done|]. simpl in Heq. lia.
Qed.
