(* ===== verification/CreateRetryClaims.v ===== *)
(** * What the retry coordinator guarantees, and how it meets the recovery command

    The journal file as GARM and the operator's recovery command reach it, the
    claims on circuits, delays, the shared probe and reservations, and three ways
    in which the two programs do not fit each other or themselves. *)

From S2P Require Import Prelude StateFile GoText QueueIntent QueueOps CacheNamespace ProviderRetry ProviderRetryFacts CreateRetry CreateRetryFacts.

Local Open Scope Z_scope.
Local Open Scope go_scope.

Abbreviation RetryFile := (StateFile (Z * ProviderRetry.journal)).

(** ** Reachable files *)

Section reachable.
Context (digest64 : string → Z).

(** The operations of the coordinator on the keys it makes, and the two recovery
    commands. *)
Inductive retry_step : RetryFile → RetryFile → Prop :=
  | step_allowed env s e file : retry_step file (NDDevScaleSetCreateAllowed env s e file).1
  | step_before env key name file : scale_set_key key → retry_step file (nddevBeforeProviderCreate env key name file).1
  | step_failure env key text file : scale_set_key key → retry_step file (nddevRecordProviderCreateFailure digest64 env key text file).1
  | step_success env key file : retry_step file (nddevRecordProviderCreateSuccess env key file).1
  | step_released env file : retry_step file (NDDevProviderCapacityReleased env file).1
  | step_reserve env i s e file : retry_step file (nddevReserveProviderRetryKey env i s e file).1
  | step_release env name file : retry_step file (nddevReleaseProviderRetryReservation env name file).1
  | step_recover env key entity n class expected apply_ file : retry_step file (RecoverTerminal env key entity n class expected apply_ file).1
  | step_recover_job env queue key entity n class expected apply_ file :
      retry_step file (RecoverExactJobTerminal env queue key entity n class expected apply_ file).1.

Definition reachable : RetryFile → Prop := rtc retry_step Absent.

Definition holds_records (file : RetryFile) (records : gmap string retry_record) : Prop :=
  ∃ n d, file = Present (Ok (n, d)) ∧ ProviderRetry.Records d = Some records.
Definition file_good (file : RetryFile) : Prop := ∀ records, holds_records file records → map_Forall (λ k r, record_valid k r ∧ good k r) records.

Lemma recovery_reads file j records : readRetryJournal file = Ok (j, records) → holds_records file records.
Proof.
  unfold readRetryJournal. destruct file as [|[[m d]|]]; [done| |done]. cbn [mbind result_bind snd fst]. intros H. exists m, d. split; [done|].
  apply bind_Ok in H as ([] & _ & H). destruct (ProviderRetry.Records d) as [rs|]; [|done]. apply bind_Ok in H as ([] & _ & H). by injection H as _ ->.
Qed.

Lemma read_good file j : file_good file → nddevReadRetryJournal file = Ok j → all_good j.
Proof.
  intros Hf. destruct file as [|[[n d]|e]]; simpl; [intros [= <-]; apply map_Forall_empty| |done].
  intros H. apply bind_Ok in H as ([] & _ & H). unfold decode_retries in H. destruct (ProviderRetry.Records d) as [records|] eqn:Hr; [|done].
  cbv zeta in H. case_match; [|done]. apply bind_Ok in H as ([] & _ & H). apply bind_Ok in H as ([] & _ & <-%Ok_inj).
  intros k r Hk. apply (Hf records); [by exists n, d|done].
Qed.

Lemma Update_good {R} env (mutate : nddevRetryJournal → Time → result (nddevRetryJournal * R)) file :
  (∀ j now j' r, all_good j → fresh now j → mutate j now = Ok (j', r) → all_good j') → file_good file →
  file_good (nddevUpdateRetryJournal env mutate file).1.
Proof.
  intros Hm Hf. destruct (nddevUpdateRetryJournal env mutate file) as [file' res] eqn:H.
  apply retry_Update_cases in H as [[-> _]|(before & after & r & (inventory & Hread & _ & Hmut & Hval) & Hcase)]; [done|].
  assert (file' = file ∨ file' = written env after) as [-> | ->]; [|done|].
  { destruct Hcase as [(-> & _)|[[-> _]| ->]]; by (left + right). }
  simpl. intros records (n & d & [= _ <-] & [= <-]) k rec Hk.
  pose proof (read_good _ _ Hf Hread) as Hb. destruct (sweep_good (retry_now env) inventory before Hb) as [Hs Hfr].
  split; [by eapply Validate_attempts|]. by apply (Hm _ _ _ _ Hs Hfr Hmut).
Qed.

Lemma recover_good env key entity n class expected attempts prove apply_ file :
  file_good file → file_good (recoverTerminalRecord env key entity n class expected attempts prove apply_ file).1.
Proof.
  intros Hf. destruct (recoverTerminalRecord _ _ _ _ _ _ _ _ _ _) as [file' res] eqn:H.
  apply recoverTerminalRecord_spec in H as [->|(-> & j & records & r & Hread & _ & _ & _ & _ & _ & ->)]; [done|].
  simpl. intros records' (n' & d & [= _ <-] & [= <-]). apply map_Forall_delete. apply Hf.
  by eapply recovery_reads.
Qed.

Lemma scale_set_key_made s e : nddevScaleSetRetryKey s e = "" ∨ scale_set_key (nddevScaleSetRetryKey s e).
Proof. unfold nddevScaleSetRetryKey. destruct (_ || _); [by left|right]. by eexists. Qed.

Lemma step_good file file' : retry_step file file' → file_good file → file_good file'.
Proof.
  intros Hstep Hf. destruct Hstep.
  - unfold NDDevScaleSetCreateAllowed. destruct (scale_set_key_made s e) as [->|Hk]; [done|]. cbv zeta. destruct (bool_decide _); [done|].
    apply Update_good; [|done]. intros. eapply create_allowed_good; try done. by apply scale_set_key_shared.
  - unfold nddevBeforeProviderCreate. destruct (bool_decide _); [done|]. apply Update_good; [|done]. intros. by eapply before_create_good.
  - unfold nddevRecordProviderCreateFailure. destruct (bool_decide _); [done|]. apply Update_good; [|done]. intros. by eapply create_failure_good.
  - unfold nddevRecordProviderCreateSuccess. destruct (bool_decide _); [done|]. apply Update_good; [|done]. intros. by eapply create_success_good.
  - apply Update_good; [|done]. intros. by eapply capacity_released_good.
  - unfold nddevReserveProviderRetryKey. cbv zeta. destruct (_ || _); [done|]. destruct (bool_decide _); [done|]. destruct (bool_decide _); [done|].
    apply Update_good; [|done]. intros j now j' r Hj _ H%reserve_key_records. unfold all_good. by rewrite H.
  - unfold nddevReleaseProviderRetryReservation. cbv zeta. destruct (bool_decide _); [done|]. apply Update_good; [|done]. by intros j now j' r Hj _ [= <- _].
  - unfold RecoverTerminal. cbv zeta. destruct (parseScaleSetDomainKey key) as [[pe ps]|]; [|done]. destruct (_ || _); [done|]. by apply recover_good.
  - unfold RecoverExactJobTerminal. cbv zeta. destruct (parseExactJobKey key) as [[[job pe] ps]|]; [|done]. destruct (_ || _); [done|]. by apply recover_good.
Qed.

Lemma reachable_good file : reachable file → file_good file.
Proof.
  intros H. assert (file_good Absent) as H0 by (by intros records (n & d & ? & _)). unfold reachable in H. induction H; [done|].
  apply IHrtc. by eapply step_good.
Qed.

(** ** Where circuits come from *)

Definition had_circuit (file : RetryFile) (key : string) (until : Time) : Prop :=
  ∃ records r, holds_records file records ∧ records !! key = Some r ∧ TerminalUntil r = until.

Lemma read_circuit file j key r : nddevReadRetryJournal file = Ok j → Records j !! key = Some r → had_circuit file key (TerminalUntil r).
Proof.
  destruct file as [|[[n d]|e]]; simpl; [by intros [= <-]| |done]. intros H Hk. apply bind_Ok in H as ([] & _ & H). unfold decode_retries in H.
  destruct (ProviderRetry.Records d) as [records|] eqn:Hr; [|done]. cbv zeta in H. case_match; [|done].
  apply bind_Ok in H as ([] & _ & H). apply bind_Ok in H as ([] & _ & <-%Ok_inj). exists records, r. split; [by exists n, d|done].
Qed.

(** What one access to the file adds to its circuits is what its mutation adds. *)
Lemma Update_circuits {R} env (mutate : nddevRetryJournal → Time → result (nddevRetryJournal * R)) file records key r (Q : Prop) :
  holds_records (nddevUpdateRetryJournal env mutate file).1 records → records !! key = Some r → TerminalUntil r ≠ zero_time →
  (∀ j j' u, mutate j (retry_now env) = Ok (j', u) → Records j' !! key = Some r →
     (∃ r0, Records j !! key = Some r0 ∧ TerminalUntil r0 = TerminalUntil r) ∨ Q) →
  had_circuit file key (TerminalUntil r) ∨ Q.
Proof.
  intros Hrec Hk Ht Hm. destruct (nddevUpdateRetryJournal env mutate file) as [file' res] eqn:H. cbn [fst] in Hrec.
  apply retry_Update_cases in H as [[-> _]|(before & after & u & (inventory & Hread & _ & Hmut & Hval) & Hcase)]; [left; by exists records, r|].
  assert (file' = file ∨ file' = written env after) as [-> | ->]; [|left; by exists records, r|].
  { destruct Hcase as [(-> & _)|[[-> _]| ->]]; by (left + right). }
  destruct Hrec as (n & d & [= _ <-] & [= <-]). cbn in Hk. destruct (Hm _ _ _ Hmut Hk) as [(r0 & H0 & <-)|]; [left|by right].
  cbn in H0. apply map_lookup_filter_Some in H0 as [H0 _]. by eapply read_circuit.
Qed.

Lemma recover_circuits env key0 entity n class expected attempts prove apply_ file records key r :
  holds_records (recoverTerminalRecord env key0 entity n class expected attempts prove apply_ file).1 records → records !! key = Some r →
  had_circuit file key (TerminalUntil r).
Proof.
  intros Hrec Hk. destruct (recoverTerminalRecord _ _ _ _ _ _ _ _ _ _) as [file' res] eqn:H. cbn [fst] in Hrec.
  apply recoverTerminalRecord_spec in H as [->|(-> & j & rs & r0 & Hread & _ & _ & _ & _ & _ & ->)]; [by exists records, r|].
  destruct Hrec as (n' & d & [= _ <-] & [= <-]). cbn in Hk. apply lookup_delete_Some in Hk as [_ Hk]. exists rs, r. split; [by eapply recovery_reads|done].
Qed.

(** A circuit that a step leaves was there before, or the step recorded a failure of
    the provider, of this key or of a job of this scale set, and the circuit lasts a
    day from then. *)
Lemma step_circuits file file' records key r :
  retry_step file file' → holds_records file' records → records !! key = Some r → TerminalUntil r ≠ zero_time →
  had_circuit file key (TerminalUntil r) ∨
  ∃ env job text, file' = (nddevRecordProviderCreateFailure digest64 env job text file).1 ∧ circuit_class (nddevProviderErrorClass text) ∧
    (key = job ∨ key = nddevRetryDomainKey job) ∧ TerminalUntil r = retry_now env + 24 * Hour.
Proof.
  intros Hstep Hrec Hk Ht. assert (holds_records file records → had_circuit file key (TerminalUntil r)) as Hsame by (intros; by exists records, r).
  destruct Hstep.
  - unfold NDDevScaleSetCreateAllowed in Hrec. cbv zeta in Hrec. destruct (bool_decide _); [auto|].
    eapply Update_circuits; [done..|]. intros j j' u Hm Hj. left. by eapply create_allowed_circuits.
  - unfold nddevBeforeProviderCreate in Hrec. destruct (bool_decide _); [auto|].
    eapply Update_circuits; [done..|]. intros j j' u Hm Hj. left. by eapply before_create_circuits.
  - unfold nddevRecordProviderCreateFailure in Hrec. destruct (bool_decide (key0 = "")) eqn:He; [auto|].
    eapply Update_circuits; [done..|]. intros j j' u Hm Hj. destruct (create_failure_circuits _ _ _ _ _ _ _ _ _ Hm Hj Ht) as [?|(? & ? & ?)]; [by left|right].
    exists env, key0, text. split_and!; try done.
  - unfold nddevRecordProviderCreateSuccess in Hrec. destruct (bool_decide _); [auto|].
    eapply Update_circuits; [done..|]. intros j j' u Hm Hj. left. by eapply create_success_circuits.
  - eapply Update_circuits; [done..|]. intros j j' u Hm Hj. left. by eapply capacity_released_circuits.
  - unfold nddevReserveProviderRetryKey in Hrec. cbv zeta in Hrec. destruct (_ || _); [auto|]. destruct (bool_decide _); [auto|]. destruct (bool_decide _); [auto|].
    eapply Update_circuits; [done..|]. intros j j' u Hm%reserve_key_records Hj. left. exists r. by rewrite <-Hm.
  - unfold nddevReleaseProviderRetryReservation in Hrec. cbv zeta in Hrec. destruct (bool_decide _); [auto|].
    eapply Update_circuits; [done..|]. intros j j' u [= <- _] Hj. left. by exists r.
  - left. unfold RecoverTerminal in Hrec. cbv zeta in Hrec. destruct (parseScaleSetDomainKey _) as [[pe ps]|]; [|auto]. destruct (_ || _); [auto|].
    by eapply recover_circuits.
  - left. unfold RecoverExactJobTerminal in Hrec. cbv zeta in Hrec. destruct (parseExactJobKey _) as [[[job pe] ps]|]; [|auto]. destruct (_ || _); [auto|].
    by eapply recover_circuits.
Qed.

End reachable.


(** The circuit of a whole scale set cannot be recovered: the command looks for
    eight attempts, and no journal of the coordinator counts more than three. *)
Theorem scale_set_circuit_unrecoverable digest64 file env key entity n class expected apply_ :
  reachable digest64 file → ∃ e, RecoverTerminal env key entity n class expected apply_ file = (file, Err e).
Proof.
  intros Hreach. pose proof (reachable_good _ _ Hreach) as Hf. unfold RecoverTerminal. cbv zeta.
  destruct (parseScaleSetDomainKey key) as [[pe ps]|]; [|by eexists]. destruct (_ || _); [by eexists|].
  unfold recoverTerminalRecord. cbv zeta. destruct (access_lock _) as [[]|e]; [|by eexists]. cbn [mbind result_bind].
  destruct (readRetryJournal file) as [[j records]|e] eqn:Hread; [|by eexists]. cbn [mbind result_bind].
  destruct (records !! key) as [r|] eqn:Hr; [|by eexists].
  assert (terminal_circuit key 8 class r = false) as ->; [|by eexists].
  destruct (Hf _ (recovery_reads _ _ _ Hread) _ _ Hr) as [[_ Ha _] _]. unfold terminal_circuit. destruct (Attempts r =? 8) eqn:?; [lia|]. by rewrite andb_false_r.
Qed.

(** ** The shared probe *)

(** One create at a time while the fleet is saturated: once a create has taken the
    shared probe, every other create, of whatever scale set, is refused for the 45
    seconds of its lease and writes nothing, unless an outcome or a deletion is
    recorded in between. *)
Theorem one_probe_per_lease digest64 env1 env2 key1 key2 name1 name2 file file1 records shared :
  reachable digest64 file → scale_set_key key1 → key2 ≠ "" →
  nddevBeforeProviderCreate env1 key1 name1 file = (file1, Ok tt) →
  holds_records file1 records → records !! nddevCapacityDomainKey = Some shared →
  retry_now env2 < retry_now env1 + 45 * Second →
  ProbeOwner shared = key1 ∧ ∃ e, nddevBeforeProviderCreate env2 key2 name2 file1 = (file1, Err e).
Proof.
  intros Hreach Hk1 Hk2 H Hrec Hs Ht. pose proof (reachable_good _ _ Hreach) as Hf. unfold nddevBeforeProviderCreate in *.
  rewrite (bool_decide_eq_false_2 (key2 = "")) by done. rewrite bool_decide_eq_false_2 in H by (by destruct Hk1 as [? ->]).
  apply Update_Ok in H as (before & after & (inventory & Hread & _ & Hmut & _) & Hfile).
  destruct (sweep_good (retry_now env1) inventory before (read_good _ _ Hf Hread)) as [Hg Hfr].
  pose proof (before_create_good _ _ _ _ _ _ _ Hk1 Hg Hfr Hmut) as Hgood. pose proof (before_create_shared _ _ _ _ _ _ _ Hk1 Hmut) as Hsh.
  assert (Records after !! nddevCapacityDomainKey = Some shared) as Hafter.
  { destruct Hfile as [[-> ->]| ->].
    - destruct Hrec as (n & d & -> & Hd). revert Hread. simpl. intros Hread. apply bind_Ok in Hread as ([] & _ & Hread). unfold decode_retries in Hread.
      rewrite Hd in Hread. cbv zeta in Hread. case_match; [|done]. apply bind_Ok in Hread as ([] & _ & Hread).
      apply bind_Ok in Hread as ([] & _ & <-%Ok_inj). done.
    - destruct Hrec as (n & d & [= _ <-] & [= <-]). done. }
  destruct (Records (sweep _ _ _) !! nddevCapacityDomainKey) as [shared0|]; [|congruence].
  destruct Hsh as (shared' & Hs' & Hn & Ho & _). assert (shared' = shared) as -> by congruence. split; [done|].
  assert (TerminalUntil shared = zero_time) as Hz.
  { pose proof (Hgood _ _ Hafter) as Hgs. apply (good_no_circuit _ _ Hgs). left. by apply Hgs. }
  apply Update_refused. intros before2 inventory2 Hread2. unfold before_create. cbv zeta.
  assert (Records before2 = Records after) as Hsame.
  { destruct Hfile as [[-> ->]| ->]; [rewrite Hread in Hread2; by injection Hread2 as <-|by eapply read_written_records]. }
  assert (retry_now env2 < NextAllowedAt shared) as Hlt by (rewrite Hn; unfold nddevRetryAttemptLease; lia).
  pose proof (shared_held env2 (sweep (retry_now env2) inventory2 before2) (retry_now env2) key2 (TrimSpace name2) true shared) as Hheld.
  destruct (nddevSharedCapacityCreateAllowed _ _ _ _ _ _); [|done]. exfalso. discriminate Hheld; [|done].
  apply sweep_keeps; [by rewrite Hsame|done|done].
Qed.

Lemma Validate_named j r : Validate j = Ok tt → Records j !! "" = Some r → False.
Proof. intros [Hr _]%Validate_Ok Hk. specialize (Hr _ _ Hk). unfold validate_record in Hr. by rewrite bool_decide_eq_true_2 in Hr. Qed.

Lemma eligible_domain_facts active k r : eligible_domain active (k, r) = true → k ≠ nddevCapacityDomainKey ∧ nddevRetryDomainKey k = k.
Proof. unfold eligible_domain, domain_record. intros H. by bool_hyps. Qed.

(** Releasing capacity takes the granted domain out of the journal and leaves every
    other waiting domain in it. *)
Lemma released_records env j now j' sets :
  nddevActiveQueueScaleSets env = Ok (Some sets) → nddevOldestEligibleCapacityDomain j (Some sets) ≠ "" → capacity_released env j now = Ok (j', tt) →
  let domain := nddevOldestEligibleCapacityDomain j (Some sets) in
  ∃ j2 shared, j' = put nddevCapacityDomainKey shared j2 ∧ ProbeOwner shared = domain ∧ Records j2 !! domain = None ∧
    (∀ k r, Records j2 !! k = Some r → Records j !! k = Some r) ∧
    ∀ other r, Records j !! other = Some r → eligible_domain (Some sets) (other, r) = true → other ≠ domain → Records j2 !! other = Some r.
Proof.
  intros Hact Hd Hrel domain. subst domain. unfold capacity_released in Hrel. rewrite Hact in Hrel. cbn [mbind result_bind] in Hrel.
  cbv zeta in Hrel. rewrite bool_decide_eq_false_2 in Hrel by done. injection Hrel as <-.
  set (D := nddevOldestEligibleCapacityDomain j (Some sets)) in *. set (j1 := drop_record D j) in *.
  set (C := nddevOldestCapacityRecord j1 D). eexists (if bool_decide (C = "") then j1 else drop_record C j1), _.
  split; [done|]. split; [done|]. split_and!.
  - destruct (bool_decide _); unfold j1; cbn; [by rewrite lookup_delete_eq|]. destruct (decide (C = D)) as [->|]; [by rewrite lookup_delete_eq|].
    rewrite lookup_delete_ne by done. by rewrite lookup_delete_eq.
  - intros k r. destruct (bool_decide _); unfold j1; cbn; rewrite !lookup_delete_Some; tauto.
  - intros other r Ho Helig Hne. assert (Records j1 !! other = Some r) as H1 by (unfold j1; cbn; by rewrite lookup_delete_ne).
    destruct (bool_decide (C = "")) eqn:HC; [done|]. cbn. rewrite lookup_delete_ne; [done|]. intros HeqC.
    unfold C, nddevOldestCapacityRecord in HeqC, HC. destruct (oldest _ (Records j1)) as [kr|] eqn:Hold; [|done].
    apply oldest_Some in Hold as [_ Hc]. unfold concrete_capacity in Hc. apply eligible_domain_facts in Helig as [_ Hdom]. bool_hyps. congruence.
Qed.

(** A deletion gives the probe to the scale set that waits longest, and deletes the
    record the grant is checked against: with a queue configured, the next create
    of that scale set finds its grant withdrawn and is refused while any other
    scale set waits. *)
Theorem granted_domain_loses_probe env j now j' sets other r :
  Validate j = Ok tt → nddevActiveQueueScaleSets env = Ok (Some sets) →
  let domain := nddevOldestEligibleCapacityDomain j (Some sets) in
  domain ≠ "" → capacity_released env j now = Ok (j', tt) →
  Records j !! other = Some r → eligible_domain (Some sets) (other, r) = true → other ≠ domain →
  ProbeOwner (record_at j' nddevCapacityDomainKey) = domain ∧
  ∀ key name now', nddevRetryDomainKey key = domain → is_Ok (before_create env key name j' now') = false.
Proof.
  intros Hval Hact domain Hd Hrel Hother Helig Hne. subst domain.
  destruct (released_records _ _ _ _ _ Hact Hd Hrel) as (j2 & shared & -> & Hown & HD & Hsub & Hkeep).
  specialize (Hkeep _ _ Hother Helig Hne). set (D := nddevOldestEligibleCapacityDomain j (Some sets)) in *.
  split; [unfold record_at; cbn; by rewrite lookup_insert_eq|]. intros key name now' Hkey.
  assert (D ≠ nddevCapacityDomainKey ∧ nddevRetryDomainKey D = D) as [Hcap Hdom].
  { unfold D, nddevOldestEligibleCapacityDomain in *. destruct (oldest _ (Records j)) as [[k rk]|] eqn:Hold; [|done].
    apply oldest_Some in Hold as [_ Hk]. by eapply eligible_domain_facts. }
  unfold before_create. cbv zeta. unfold nddevSharedCapacityCreateAllowed. cbn [Records put with_records]. rewrite lookup_insert_eq, Hact.
  cbn [mbind result_bind].
  assert (is_active (Some sets) "" "" = false) as Hinactive.
  { simpl. apply bool_decide_eq_false. unfold nddevActiveQueueScaleSets in Hact. apply bind_Ok in Hact as (inv & Hinv & Hs).
    destruct inv as [inv|]; [|done]. injection Hs as <-. by eapply active_named. }
  assert (drop_inactive_owner (Some sets) (put nddevCapacityDomainKey shared j2) shared =
          with_probe "" "" (Retry_Owner shared) (WakeReason shared) (Retry_UpdatedAt shared) (NextAllowedAt shared) shared) as ->.
  { unfold drop_inactive_owner, record_at. rewrite Hown, Hdom. cbn [Records put with_records]. rewrite lookup_insert_ne by done. rewrite HD.
    cbn [default Retry_Owner Retry_ScaleSetName zero_record from_option]. rewrite Hinactive, bool_decide_eq_false_2 by done. done. }
  set (shared' := with_probe _ _ _ _ _ _ _). assert (drop_expired_owner now' shared' = shared') as -> by done.
  rewrite (bool_decide_eq_true_2 (ProbeOwner shared' = "")) by done. set (j3 := put nddevCapacityDomainKey shared' _).
  unfold nddevOldestEligibleCapacityDomain. destruct (oldest (eligible_domain (Some sets)) (Records j3)) as [[k rk]|] eqn:Hold.
  - apply oldest_Some in Hold as [Hk Hek]. cbn [fst snd] in *. destruct (eligible_domain_facts _ _ _ Hek) as [Hkc Hkd].
    assert (Records j2 !! k = Some rk) as Hk2 by (revert Hk; unfold j3; cbn; by rewrite !lookup_insert_ne).
    assert (k ≠ "") as Hk0 by (intros ->; by eapply Validate_named, Hsub).
    rewrite (bool_decide_eq_false_2 (k = "")) by done. rewrite Hkey, Hkd, (bool_decide_eq_false_2 (D = k)) by congruence. done.
  - exfalso. assert (Records j3 !! other = Some r) as Ho3.
    { destruct (eligible_domain_facts _ _ _ Helig) as [? _]. unfold j3. cbn. by rewrite !lookup_insert_ne. }
    by rewrite (oldest_None _ _ _ _ Hold Ho3) in Helig.
Qed.

(** ** Recovery and the coordinator *)

Lemma recover_applied env key entity n class expected attempts prove file file' res :
  recoverTerminalRecord env key entity n class expected attempts prove true file = (file', Ok res) →
  ∃ j records, readRetryJournal file = Ok (j, records) ∧
    file' = Present (Ok (retry_encoded_size env (without key (recovery_now env) j records), without key (recovery_now env) j records)).
Proof.
  unfold recoverTerminalRecord. cbv zeta. destruct (access_lock _) as [[]|]; [|done]. cbn [mbind result_bind].
  destruct (readRetryJournal file) as [[j records]|] eqn:Hread; [|done]. cbn [mbind result_bind]. destruct (records !! key) as [r|]; [|done].
  destruct (terminal_circuit _ _ _ _); [|done]. cbn [negb fail_if mbind result_bind]. destruct (Retry_UpdatedAt r =? expected); [|done].
  cbn [negb fail_if mbind result_bind]. destruct (_ <? minimumTerminalRecoveryAge); [done|]. cbn [fail_if mbind result_bind].
  destruct (prove _) as [[]|]; [|done]. cbn [mbind result_bind negb]. destruct (publish _ _ _) as [f w] eqn:Hpub. intros H. exists j, records.
  split; [done|]. apply publish_cases in Hpub as [_ Hok]. destruct w as [[]|]; [|done]. injection H as <- _. by rewrite Hok.
Qed.

(** C27: A recovery that the command reports as applied, on a journal without
    reservations, writes the journal without its reservations map: from then on
    the coordinator refuses the file before every create and after every outcome,
    and neither the observer nor the command itself can read it. *)
Theorem recovery_breaks_journal env queue key entity n class expected file file' res j records :
  readRetryJournal file = Ok (j, records) → Retry_SchemaVersion j = 2 → ProviderRetry.Reservations j = Some ∅ →
  RecoverExactJobTerminal env queue key entity n class expected true file = (file', Ok res) →
  (∀ (R : Type) env' (mutate : nddevRetryJournal → Time → result (nddevRetryJournal * R)),
     ∃ e, nddevUpdateRetryJournal env' mutate file' = (file', Err e)) ∧
  (∀ walk now, is_Ok (Inspect walk now file') = false) ∧ is_Ok (readRetryJournal file') = false.
Proof.
  intros Hread Hversion Hres H. unfold RecoverExactJobTerminal in H. cbv zeta in H.
  destruct (parseExactJobKey key) as [[[job pe] ps]|]; [|done]. destruct (_ || _); [done|].
  apply recover_applied in H as (j0 & records0 & Hread0 & ->). rewrite Hread in Hread0. injection Hread0 as <- <-.
  assert (is_Ok (readRetryJournal (Present (Ok (retry_encoded_size env (without key (recovery_now env) j records), without key (recovery_now env) j records)))) = false) as Hbad.
  { unfold readRetryJournal. cbn [mbind result_bind fst snd]. destruct (_ <? _); [done|]. cbn [fail_if mbind result_bind without ProviderRetry.Records Retry_SchemaVersion
      ProviderRetry.Reservations]. by rewrite Hversion, Hres. }
  split_and!; [| |done].
  - intros R env' mutate. apply Update_refused. intros before inventory Hb. exfalso. revert Hb. unfold nddevReadRetryJournal. cbn [mbind result_bind fst snd].
    destruct (_ <? _); [done|]. cbn [fail_if mbind result_bind]. unfold decode_retries. cbn [without ProviderRetry.Records Retry_SchemaVersion ProviderRetry.Reservations].
    by rewrite Hversion, Hres.
  - intros walk now. unfold Inspect. by destruct (readRetryJournal (Present _)) as [[? ?]|].
Qed.

(** ** Reservations *)

#[export] Instance queued_before_strict : StrictWeak queued_before.
Proof.
  assert (∀ a b, string_ltb a b = true ↔ ¬ String.le b a) as Hlt.
  { intros a b. unfold string_ltb, String.le. destruct (String.leb b a); simpl; naive_solver. }
  split.
  - intros x y. unfold queued_before, Before. destruct (Intent_QueueTime x =? Intent_QueueTime y) eqn:H1, (Intent_QueueTime y =? Intent_QueueTime x) eqn:H2; simpl; try lia.
    intros Hxy. apply Hlt in Hxy. unfold string_ltb. apply negb_false_iff. destruct (total String.le (Intent_Key x) (Intent_Key y)); [|done].
    by apply Is_true_true.
  - intros x y z. unfold queued_before, Before.
    destruct (Intent_QueueTime x =? Intent_QueueTime y) eqn:H1, (Intent_QueueTime y =? Intent_QueueTime z) eqn:H2,
      (Intent_QueueTime x =? Intent_QueueTime z) eqn:H3; simpl; try lia.
    unfold string_ltb. rewrite !negb_false_iff. intros Ha Hb. apply Is_true_true. apply Is_true_true in Ha, Hb. by trans (Intent_Key y).
Qed.

Lemma retry_candidate_facts s owner domain j now i :
  retry_candidate s owner domain j now i = true →
  Intent_ScaleSetID i = Set_ID s ∧ Intent_ScaleSetName i = Set_Name s ∧
  (TrimSpace (Intent_JobID i) = Intent_JobID i →
   (∀ n r, Reservations j !! n = Some r → RetryKey r ≠ domain +:+ ":job:" +:+ Intent_JobID i) ∧
   ∀ r, Records j !! (domain +:+ ":job:" +:+ Intent_JobID i) = Some r → TerminalUntil r ≤ now ∧ NextAllowedAt r ≤ now).
Proof.
  unfold retry_candidate, of_set. cbv zeta. rewrite !andb_true_iff, bool_decide_eq_true, Z.eqb_eq.
  intros ((((( Hid & Hname) & _) & _) & Hfree) & Hheld). split_and!; [done|done|]. intros Htrim. rewrite Htrim in Hfree, Hheld. split.
  - intros n r Hn Hkey. apply negb_true_iff, bool_decide_eq_false in Hfree. apply Hfree. rewrite <- Hkey. apply list_elem_of_fmap. exists (n, r). split; [done|].
    by apply elem_of_map_to_list.
  - intros r Hr. rewrite Hr in Hheld. unfold After in Hheld. bool_hyps. lia.
Qed.

(** An instance without a job is given the retry identity of a job that waits for
    its scale set: an unexpired job of the right account that no other instance
    has reserved and that no circuit or delay holds back, admitted ones before
    queued ones, and of these the one that has waited longest. *)
Theorem reservation_owns_oldest_job env name domain s e j now j' key :
  reserve_key env name domain s e j now = Ok (j', key) → Reservations j !! name = None →
  ∃ owner states q i,
    (states = admitted_state ∧ required_queue (queue_reads env 2) = Ok q ∨ states = queued_state ∧ required_queue (queue_reads env 4) = Ok q) ∧
    i ∈ selected_intents states q now ∧ retry_candidate s owner domain j now i = true ∧ (nddevRetryOwner e ≠ "" → owner = nddevRetryOwner e) ∧
    (∀ i', i' ∈ selected_intents states q now → retry_candidate s owner domain j now i' = true → queued_before i' i = false) ∧
    Intent_ScaleSetID i = Set_ID s ∧ Intent_ScaleSetName i = Set_Name s ∧
    (TrimSpace (Intent_JobID i) = Intent_JobID i →
     (∀ n r, Reservations j !! n = Some r → RetryKey r ≠ key) ∧ ∀ r, Records j !! key = Some r → TerminalUntil r ≤ now ∧ NextAllowedAt r ≤ now) ∧
    key = domain +:+ ":job:" +:+ Intent_JobID i ∧ Records j' = Records j ∧
    Reservations j' = <[name := {| RetryKey := key; Reservation_ScaleSetName := Set_Name s; Reservation_UpdatedAt := now |}]> (Reservations j).
Proof.
  unfold reserve_key. intros H Hnone. rewrite Hnone in H. apply bind_Ok in H as (intents & Hint & H). apply bind_Ok in H as (owner & Hown & H).
  apply bind_Ok in H as (candidates & Hcand & H). destruct (sort_slice queued_before candidates) as [|i rest] eqn:Hsort; [done|]. injection H as <- <-.
  assert (nddevRetryOwner e ≠ "" → owner = nddevRetryOwner e) as Howner.
  { intros Hne. unfold reserving_owner in Hown. cbv zeta in Hown. rewrite bool_decide_eq_false_2 in Hown by done. by injection Hown as <-. }
  assert (∃ states q, (states = admitted_state ∧ required_queue (queue_reads env 2) = Ok q ∨ states = queued_state ∧ required_queue (queue_reads env 4) = Ok q)
    ∧ candidates = nddevRetryCandidates (selected_intents states q now) s owner domain j now) as (states & q & Hq & Hcs).
  { unfold nddevActiveQueueIntents in Hint. apply bind_Ok in Hint as (q & Hq & <-%Ok_inj).
    destruct (nddevRetryCandidates (selected_intents admitted_state q now) s owner domain j now) as [|c cs] eqn:Hc.
    - unfold nddevQueuedNonTerminalIntents in Hcand. apply bind_Ok in Hcand as (queued & Hqd & <-%Ok_inj). apply bind_Ok in Hqd as (q' & Hq' & <-%Ok_inj).
      exists queued_state, q'. by split; [right|].
    - injection Hcand as <-. exists admitted_state, q. by split; [left|]. }
  assert (∀ x, x ∈ candidates ↔ x ∈ selected_intents states q now ∧ retry_candidate s owner domain j now x = true) as Hin.
  { intros x. rewrite Hcs. unfold nddevRetryCandidates. rewrite !list_elem_of_In. apply filter_In. }
  assert (i ∈ candidates) as Hi by (apply (elem_of_sort_slice queued_before); rewrite Hsort; apply list_elem_of_here).
  apply Hin in Hi as [Hsel Hret]. exists owner, states, q, i. pose proof Hret as (Hid & Hname & Hfree)%retry_candidate_facts. split_and!; try done.
  intros i' Hs' Hr'. by apply (sort_slice_head queued_before _ _ _ _ Hsort), Hin.
Qed.

(** ** The retry coordinator on concrete journals

    A job whose provider create fails three times, a fleet that runs out of
    capacity with two scale sets waiting, and an instance that reserves the retry
    identity of a queued job: the hypotheses of the claims hold of them. Two
    further examples show a saturation that no refusal caused, and a circuit that
    is announced and not written. *)

Definition digest0 : string → Z := λ _, 0.

Definition env_at (queue : option QueueFile) (now : Time) : RetryEnv := {|
  retry_ctx := Ok tt; retry_paths := true; retry_access := fault_free; retry_now := now; retry_later := now; queue_reads := λ _, queue;
  encoded_size := λ _, 600 |}.

(** ** Three failed creates of one job *)

Definition attempt (now : Time) (file : RetryFile) : RetryFile := (nddevBeforeProviderCreate (env_at None now) job_key0 "standard" file).1.
Definition failure (now : Time) (text : string) (file : RetryFile) : RetryFile :=
  (nddevRecordProviderCreateFailure digest0 (env_at None now) job_key0 text file).1.

Definition thrice (text : string) : RetryFile :=
  failure (Hour + 3 * Minute) text (attempt (Hour + 2 * Minute) (failure (Hour + 91 * Second) text (attempt (Hour + 90 * Second)
    (failure (Hour + 1 * Second) text (attempt Hour Absent))))).

Definition records_of (file : RetryFile) : gmap string retry_record :=
  match file with Present (Ok (_, d)) => default ∅ (ProviderRetry.Records d) | _ => ∅ end.

Definition has_records (file : RetryFile) : bool :=
  match file with Present (Ok (_, d)) => bool_decide (is_Some (ProviderRetry.Records d)) | _ => false end.

Lemma holds_records_of file : has_records file = true → holds_records file (records_of file).
Proof.
  destruct file as [|[[n d]|]]; [done| |done]. simpl. intros [records Hr]%bool_decide_eq_true. exists n, d. by rewrite Hr.
Qed.

Lemma job_key0_made : scale_set_key job_key0.
Proof. by eexists. Qed.

Lemma attempt_step now file : retry_step digest0 file (attempt now file).
Proof. apply step_before, job_key0_made. Qed.

Lemma failure_step now text file : retry_step digest0 file (failure now text file).
Proof. apply step_failure, job_key0_made. Qed.

Lemma thrice_reachable text : reachable digest0 (thrice text).
Proof.
  unfold reachable, thrice. do 3 (refine (rtc_r _ _ _ _ (failure_step _ _ _)); refine (rtc_r _ _ _ _ (attempt_step _ _))). apply rtc_refl.
Qed.

Definition opened : retry_record := {|
  Retry_JobID := job_key0; Attempts := 3; LastErrorClass := "provider"; Retry_UpdatedAt := Hour + 3 * Minute; NextAllowedAt := Hour + 3 * Minute;
  TerminalUntil := 25 * Hour + 3 * Minute; ProbeOwner := ""; WakeReason := ""; Retry_ScaleSetName := "standard"; Retry_Owner := "" |}.

Example third_failure_opens : records_of (thrice "boom") !! job_key0 = Some opened.
Proof. vm_compute. reflexivity. Qed.

(** Refused capacity as often does not open one, and saturates the fleet. *)
Example refused_capacity_waits :
  TerminalUntil <$> (records_of (thrice "no eligible member") !! job_key0) = Some zero_time ∧
  is_Some (records_of (thrice "no eligible member") !! nddevCapacityDomainKey).
Proof. vm_compute. split; [done|]. by eexists. Qed.

(** Two refusals for lack of capacity count towards the circuit that one failure of
    the provider then opens. *)
Definition refused_twice : RetryFile :=
  attempt (Hour + 150 * Second) (failure (Hour + 91 * Second) "no eligible member" (attempt (Hour + 90 * Second)
    (failure (Hour + 1 * Second) "no eligible member" (attempt Hour Absent)))).

Example refusals_count_towards_circuit :
  (TerminalUntil <$> (records_of refused_twice !! job_key0)) = Some zero_time ∧
  (TerminalUntil <$> (records_of (failure (Hour + 3 * Minute) "boom" refused_twice) !! job_key0)) = Some (25 * Hour + 3 * Minute).
Proof. vm_compute. done. Qed.


Lemma scale_set_circuit_unrecoverable_witness :
  ∃ e, RecoverTerminal recovery_env0 "scale-set:e-1:7" "e-1" 7 "provider" (Hour + 3 * Minute) true (thrice "boom") = (thrice "boom", Err e).
Proof. apply (scale_set_circuit_unrecoverable digest0 (thrice "boom")). apply thrice_reachable. Defined.

(** ** A saturated fleet *)

Definition saturated_file : RetryFile := thrice "no eligible member".
Definition probing : RetryFile := attempt (Hour + 30 * Minute) saturated_file.

Definition leased : retry_record := default zero_record (records_of probing !! nddevCapacityDomainKey).

Lemma one_probe_per_lease_witness :
  ProbeOwner leased = job_key0 ∧
  ∃ e, nddevBeforeProviderCreate (env_at None (Hour + 30 * Minute + 44 * Second)) "scale-set:e-1:8:job:job-2" "large" probing = (probing, Err e).
Proof.
  apply (one_probe_per_lease digest0 (env_at None (Hour + 30 * Minute)) (env_at None (Hour + 30 * Minute + 44 * Second)) job_key0
           "scale-set:e-1:8:job:job-2" "standard" "large" saturated_file probing (records_of probing) leased).
  - apply thrice_reachable.
  - apply job_key0_made.
  - done.
  - vm_compute. reflexivity.
  - apply holds_records_of. vm_compute. reflexivity.
  - vm_compute. reflexivity.
  - vm_compute. reflexivity.
Defined.

(** Two scale sets have been refused, and both have a job waiting. *)
Definition refused_domain (key name : string) (at_ : Time) : retry_record := {|
  Retry_JobID := key; Attempts := 1; LastErrorClass := "capacity"; Retry_UpdatedAt := at_; NextAllowedAt := at_ + 5 * Second;
  TerminalUntil := zero_time; ProbeOwner := ""; WakeReason := ""; Retry_ScaleSetName := name; Retry_Owner := "example-org" |}.

Definition two_waiting : nddevRetryJournal := {|
  Generation := 9; Journal_UpdatedAt := Hour;
  Records := {[ "scale-set:e-1:7" := refused_domain "scale-set:e-1:7" "standard" Hour;
                "scale-set:e-1:8" := refused_domain "scale-set:e-1:8" "large" (Hour + 1 * Second);
                nddevCapacityDomainKey := shared_record 2 (Hour + 1 * Second) (Hour + 11 * Second) "" "capacity-refused" "large" "example-org" ]};
  Reservations := ∅ |}.

Definition waiting_intent (scaleSet : Z) (name job : string) (state : queueIntentState) (at_ : Time) : queueIntent := {|
  Key := queueIntentKey scaleSet job; ScaleSetID := scaleSet; JobID := job; RunnerRequestID := 0; WorkflowRunID := 0; JobDisplayName := "";
  GitHubRunnerID := 0; ScaleSetName := name; RunnerName := ""; Owner := "example-org"; Repository := "example-org"; WorkflowRef := "ref";
  EventName := "push"; QueueTime := at_; FirstQueuedAt := at_; State := state; Priority := 1; StateEnteredAt := at_; UpdatedAt := at_;
  ExpiresAt := at_ + 3 * Hour |}.

Definition two_jobs : QueueFile := QueueContent 900 384 (Ok {|
  Document_SchemaVersion := 6; Document_Generation := 1; Document_UpdatedAt := Hour;
  Document_Intents := Some {[ queueIntentKey 7 "job-1" := waiting_intent 7 "standard" "job-1" queueStateAssigned Hour;
                              queueIntentKey 8 "job-2" := waiting_intent 8 "large" "job-2" queueStateQueued Hour ]};
  Document_Repositories := Some ∅; Document_TerminalJobs := Some ∅ |}).

Definition busy_env : RetryEnv := env_at (Some two_jobs) (Hour + 1 * Minute).
Definition active_sets : gset string := match nddevActiveQueueScaleSets busy_env with Ok (Some sets) => sets | _ => ∅ end.
Definition after_deletion : nddevRetryJournal :=
  match capacity_released busy_env two_waiting (Hour + 1 * Minute) with Ok (j, _) => j | Err _ => two_waiting end.

Lemma granted_domain_loses_probe_witness :
  ProbeOwner (record_at after_deletion nddevCapacityDomainKey) = nddevOldestEligibleCapacityDomain two_waiting (Some active_sets) ∧
  ∀ key name now', nddevRetryDomainKey key = nddevOldestEligibleCapacityDomain two_waiting (Some active_sets) →
    is_Ok (before_create busy_env key name after_deletion now') = false.
Proof.
  apply (granted_domain_loses_probe busy_env two_waiting (Hour + 1 * Minute) after_deletion active_sets "scale-set:e-1:8"
           (refused_domain "scale-set:e-1:8" "large" (Hour + 1 * Second))); vm_compute; first [reflexivity|done].
Defined.

(** A worker deleted while no create was ever refused saturates the fleet: the
    journal was empty, and the shared record is there afterwards, so the next
    create leases the only probe. *)
Example deletion_saturates :
  let file := (NDDevProviderCapacityReleased (env_at None Hour) Absent).1 in
  let file1 := (nddevBeforeProviderCreate (env_at None (Hour + 1 * Second)) job_key0 "standard" file).1 in
  is_Some (records_of file !! nddevCapacityDomainKey) ∧
  is_Ok (nddevBeforeProviderCreate (env_at None (Hour + 1 * Second)) job_key0 "standard" file).2 = true ∧
  is_Ok (nddevBeforeProviderCreate (env_at None (Hour + 40 * Second)) "scale-set:e-1:8:job:job-2" "large" file1).2 = false ∧
  is_Ok (nddevBeforeProviderCreate (env_at None (Hour + 40 * Second)) "scale-set:e-1:8:job:job-2" "large" (attempt (Hour + 1 * Second) Absent)).2 = true.
Proof. vm_compute. split; [by eexists|done]. Qed.

(** Three attempts whose outcome was never recorded: the fourth is refused with the
    word that the circuit opened, and the record in the file has none. *)
Definition unrecorded : RetryFile := attempt (Hour + 4 * Minute) (attempt (Hour + 2 * Minute) (attempt Hour Absent)).

Example announced_circuit_not_written :
  let '(file, res) := nddevBeforeProviderCreate (env_at None (Hour + 6 * Minute)) job_key0 "standard" unrecorded in
  file = unrecorded ∧ res = Err (Errorf "provider create circuit opened after %d attempts" []) ∧
  TerminalUntil <$> (records_of file !! job_key0) = Some zero_time.
Proof. vm_compute. split_and!; reflexivity. Qed.

(** ** Recovery of a job's circuit *)

Definition recovered : RetryFile := (RecoverExactJobTerminal recovery_env0 queue0 job_key0 "e-1" 7 "timeout" Hour true retry_file0).1.

Lemma recovery_breaks_journal_witness :
  (∀ (R : Type) env' (mutate : nddevRetryJournal → Time → result (nddevRetryJournal * R)),
     ∃ e, nddevUpdateRetryJournal env' mutate recovered = (recovered, Err e)) ∧
  (∀ walk now, is_Ok (Inspect walk now recovered) = false) ∧ is_Ok (readRetryJournal recovered) = false.
Proof.
  destruct (RecoverExactJobTerminal recovery_env0 queue0 job_key0 "e-1" 7 "timeout" Hour true retry_file0) as [file' [res|err]] eqn:H.
  - apply (recovery_breaks_journal recovery_env0 queue0 job_key0 "e-1" 7 "timeout" Hour retry_file0 recovered res retry_journal0 {[ job_key0 := circuit0 ]}).
    + vm_compute. reflexivity.
    + reflexivity.
    + reflexivity.
    + unfold recovered. by rewrite H.
  - exfalso. revert H. vm_compute. discriminate.
Defined.

(** ** A reservation *)

Definition reserved : nddevRetryJournal :=
  match reserve_key busy_env "worker-a" "scale-set:e-1:7" {| Set_ID := 7; Set_Name := "standard" |}
          {| Entity_ID := "e-1"; Entity_Name := "example-org"; Entity_Owner := "" |} empty_retries (Hour + 1 * Minute) with
  | Ok (j, _) => j | Err _ => empty_retries end.

Lemma reservation_owns_oldest_job_witness :
  let s := {| Set_ID := 7; Set_Name := "standard" |} in
  let e := {| Entity_ID := "e-1"; Entity_Name := "example-org"; Entity_Owner := "" |} in
  let now := Hour + 1 * Minute in
  ∃ owner states q i,
    (states = admitted_state ∧ required_queue (queue_reads busy_env 2) = Ok q ∨ states = queued_state ∧ required_queue (queue_reads busy_env 4) = Ok q) ∧
    i ∈ selected_intents states q now ∧ retry_candidate s owner "scale-set:e-1:7" empty_retries now i = true ∧ (nddevRetryOwner e ≠ "" → owner = nddevRetryOwner e) ∧
    (∀ i', i' ∈ selected_intents states q now → retry_candidate s owner "scale-set:e-1:7" empty_retries now i' = true → queued_before i' i = false) ∧
    Intent_ScaleSetID i = Set_ID s ∧ Intent_ScaleSetName i = Set_Name s ∧
    (TrimSpace (Intent_JobID i) = Intent_JobID i →
     (∀ n r, Reservations empty_retries !! n = Some r → RetryKey r ≠ job_key0) ∧ ∀ r, Records empty_retries !! job_key0 = Some r → TerminalUntil r ≤ now ∧ NextAllowedAt r ≤ now) ∧
    job_key0 = "scale-set:e-1:7" +:+ ":job:" +:+ Intent_JobID i ∧ Records reserved = Records empty_retries ∧
    Reservations reserved =
      <["worker-a" := {| RetryKey := job_key0; Reservation_ScaleSetName := Set_Name s; Reservation_UpdatedAt := now |}]> (Reservations empty_retries).
Proof.
  intros s e now. apply (reservation_owns_oldest_job busy_env "worker-a" "scale-set:e-1:7" s e empty_retries now reserved job_key0).
  - vm_compute. reflexivity.
  - vm_compute. reflexivity.
Defined.
