(* ===== verification/IncusPlan.v ===== *)
(** * The desired state of an Incus member
    ([src/internal/incusplan/plan.go], [src/internal/incusplacement/scriptlet.go])

    [Build] derives every Incus object of a member from the platform
    configuration: storage, bridge, project, one egress ACL shared by the pools
    and one per release pool, a profile per selected pool, the rules of the host
    firewall, and the values of the placement scriptlet. [Render] computes those
    values; the text around them is a function of them. *)

From S2P Require Import Prelude Tenant PressureGate CacheNamespace ProviderRetry NetIP FleetConfig.

Local Open Scope Z_scope.
Local Open Scope go_scope.

(** ** Addresses as text ([netip.Addr.String], [netip.Prefix.String]) *)

Definition v4_string (v : Z) : string :=
  pretty ((v / 2 ^ 24) `mod` 256) +:+ "." +:+ pretty ((v / 2 ^ 16) `mod` 256) +:+ "." +:+ pretty ((v / 2 ^ 8) `mod` 256) +:+ "." +:+ pretty (v `mod` 256).

Definition hex_char (d : Z) : ascii := ascii_of_nat (Z.to_nat (if d <? 10 then 48 + d else 87 + d)).
(** A group of 16 bits without leading zeros. *)
Definition hex_group (g : Z) : string :=
  let digits := [(g / 4096) `mod` 16; (g / 256) `mod` 16; (g / 16) `mod` 16] in
  let fix drop (ds : list Z) : list Z := match ds with d :: rest => if d =? 0 then drop rest else ds | [] => [] end in
  foldr (λ d s, String (hex_char d) s) (String (hex_char (g `mod` 16)) "") (drop digits).

Definition v6_groups (v : Z) : list Z := (λ i, (v / 2 ^ (16 * (7 - Z.of_nat i))) `mod` 65536) <$> seq 0 8.

(** The number of zero groups at the head. *)
Fixpoint zero_run (gs : list Z) : nat := match gs with g :: gs => if g =? 0 then S (zero_run gs) else O | [] => O end.
(** The first of the longest runs of at least two zero groups. *)
Definition longest_run (gs : list Z) : nat * nat :=
  foldl (λ best i, let n := zero_run (skipn i gs) in if (2 <=? n)%nat && (best.2 <? n)%nat then (i, n) else best) (8%nat, O) (seq 0 8).

Definition v6_string (v : Z) (zone : string) : string :=
  let suffix := if bool_decide (zone = "") then "" else "%" +:+ zone in
  if v / 2 ^ 32 =? 65535 then "::ffff:" +:+ v4_string (v `mod` 2 ^ 32) +:+ suffix
  else
    let gs := v6_groups v in
    let join (xs : list Z) := String.concat ":" (hex_group <$> xs) in
    let '(start, run) := longest_run gs in
    (if (run =? 0)%nat then join gs else join (firstn start gs) +:+ "::" +:+ join (skipn (start + run) gs)) +:+ suffix.

Definition Addr_String (a : Addr) : string := match a with IPv4 v => v4_string v | IPv6 v zone => v6_string v zone end.

Definition Masked (p : Prefix) : Prefix := {|
  Prefix_Addr := match Prefix_Addr p with
                 | IPv4 v => IPv4 (masked4 v (Prefix_Bits p))
                 | IPv6 v _ => IPv6 (v / 2 ^ (128 - Prefix_Bits p) * 2 ^ (128 - Prefix_Bits p)) ""
                 end;
  Prefix_Bits := Prefix_Bits p |}.
Definition Prefix_String (p : Prefix) : string := Addr_String (Prefix_Addr p) +:+ "/" +:+ pretty (Prefix_Bits p).

Example v6_text : (λ s, Addr_String <$> ParseAddr s) <$> ["2001:db8::1"; "::"; "fe80::1%eth0"; "1:0:0:2:0:0:0:3"; "::ffff:10.0.0.1"] =
  [Some "2001:db8::1"; Some "::"; Some "fe80::1%eth0"; Some "1:0:0:2::3"; Some "::ffff:10.0.0.1"].
Proof. vm_compute. reflexivity. Qed.

(** ** The placement scriptlet's values *)

Definition ServerConfigKey : string := "instances.placement.scriptlet".

Record Placement := {
  Script_Project : string;
  Script_Pool : string;
  MinimumMemoryMiB : Z;
  MinimumMemoryPercent : Z;
  MaxWorkerMemoryMiB : Z;
  MaxWorkerCPUUnits : Z;
  ReservationByLimit : gmap Z Z;
  CPUByLimit : gmap Z Z;
}.

Record Tables := { reservationByLimit : gmap Z Z; cpuByLimit : gmap Z Z; maxReservation : Z; maxCPU : Z }.

(** [previous, exists := table[limit]; exists && previous != value]. *)
Definition conflicts (table : gmap Z Z) (limit value : Z) : bool :=
  match table !! limit with Some previous => negb (previous =? value) | None => false end.

Definition add_class (t : Tables) (p : Pool) : result Tables :=
  let reservation := Reservation_MemoryMiB (EffectiveReservation p) in
  let limit := Resources_MemoryMiB (Pool_Resources p) in
  let vcpu := VCPU (Pool_Resources p) in
  fail_if (conflicts (reservationByLimit t) limit reservation) (Errorf "placement requires one measured reservation per hard memory limit" []);;
  fail_if (conflicts (cpuByLimit t) limit vcpu) (Errorf "placement requires one CPU allowance per hard memory limit" []);;
  Ok {| reservationByLimit := <[limit := reservation]> (reservationByLimit t); cpuByLimit := <[limit := vcpu]> (cpuByLimit t);
        maxReservation := if maxReservation t <? reservation then reservation else maxReservation t;
        maxCPU := if maxCPU t <? vcpu then vcpu else maxCPU t |}.

Definition no_tables : Tables := {| reservationByLimit := ∅; cpuByLimit := ∅; maxReservation := 0; maxCPU := 0 |}.

Definition invalid_config (xs : list Issue) : error :=
  Errorf "invalid platform configuration: %s" [String.concat "; " ((λ i, Path i +:+ ": " +:+ Message i) <$> xs)].

Definition require_valid (c : Config) : result unit := match Validate c with Some xs => Err (invalid_config xs) | None => Ok tt end.

Definition Render (c : Config) : result Placement :=
  require_valid c;;
  t ← foldM add_class (Pools c) no_tables;
  fail_if (maxReservation t =? 0) (Errorf "placement requires at least one worker memory class" []);;
  Ok {| Script_Project := Project (Config_Incus c); Script_Pool := StoragePool (Config_Incus c);
        MinimumMemoryMiB := Reserve_MemoryMiB (Config_HostReserve c); MinimumMemoryPercent := Reserve_Percent (Config_HostReserve c);
        MaxWorkerMemoryMiB := maxReservation t; MaxWorkerCPUUnits := maxCPU t;
        ReservationByLimit := reservationByLimit t; CPUByLimit := cpuByLimit t |}.

(** ** Plans *)

Record HostFirewallRule := { Rule_Name : string; Rule_Args : list string }.
Record HostFirewall := { Firewall_Backend : string; RequiredStatus : string; RequiredDefault : string; Rules : list HostFirewallRule }.
Record Storage := { Storage_Name : string; Storage_Driver : string; Storage_Config : gmap string string }.
Record Network_Plan := { Network_Name : string; Network_Type : string; Network_Config : gmap string string }.
Record Project_Plan := { Project_Name : string; Project_Description : string; Project_Config : gmap string string }.
Record ACLRule := {
  Action : string; Rule_State : string; Rule_Description : string; Source : string; Rule_Destination : string; Rule_Protocol : string;
  SourcePort : string; DestinationPort : string;
}.
Record ACL := { ACL_Name : string; ACL_Description : string; ACL_Config : gmap string string; Ingress : list ACLRule; Egress : list ACLRule }.
Record Profile := {
  Profile_Name : string; Profile_Description : string; Profile_Config : gmap string string; Devices : gmap string (gmap string string);
}.

#[export] Instance ACLRule_eq_dec : EqDecision ACLRule.
Proof. solve_decision. Defined.

Record Plan := {
  Plan_Version : string;
  Plan_APIAddress : string;
  ServerConfig : gmap string string;
  Plan_HostFirewall : HostFirewall;
  Plan_Storage : Storage;
  Plan_Network : Network_Plan;
  Plan_Project : Project_Plan;
  Plan_ACL : ACL;
  PoolACLs : list ACL;
  Profiles : list Profile;
}.

(** ** Egress *)

Definition rule (action description destination protocol ports : string) : ACLRule := {|
  Action := action; Rule_State := "enabled"; Rule_Description := description; Source := ""; Rule_Destination := destination;
  Rule_Protocol := protocol; SourcePort := ""; DestinationPort := ports |}.

Definition reservedDestinations (i : Incus) : list string :=
  let hosts := match EstatePublicHostAddresses i with [] => [PublicHostAddress i] | hosts => hosts end in
  ReservedEgressDestinations ++ ((λ host, host +:+ "/32") <$> hosts).

Definition join (values : list string) : string := String.concat "," values.

Definition localServiceAllows (i : Incus) (bridge : string) (registry : bool) : list ACLRule :=
  let ports := pretty (RustFSPort i) +:+ (if negb (CacheGatewayPort i =? RustFSPort i) then "," +:+ pretty (CacheGatewayPort i) else "") in
  let ports := if registry then pretty (RegistryPort i) +:+ "," +:+ ports else ports in
  [rule "allow" "Allow scoped local cache endpoints" (bridge +:+ "/32") "tcp" ports;
   rule "allow" "Allow the restricted GARM worker gateway" (bridge +:+ "/32") "tcp" (pretty (GARMGatewayPort i));
   rule "allow" "Allow DNS to the managed bridge" (bridge +:+ "/32") "udp" "53";
   rule "allow" "Allow TCP DNS fallback to the managed bridge" (bridge +:+ "/32") "tcp" "53"].

Definition baseEgressRejects (i : Incus) (bridge : string) : list ACLRule :=
  [rule "reject" "Block private, metadata, multicast and host public ranges" (join (reservedDestinations i)) "" "";
   rule "reject" "Block sensitive host bridge services" (bridge +:+ "/32") "tcp" "22,80,443,8443,8444"].

Definition declared_allow (d : EgressDestination) : ACLRule := rule "allow" (Purpose d) (Destination d) (Protocol d) (Ports d).

Definition pool_acl_name (i : Incus) (p : Pool) : string := EgressACL i +:+ "-" +:+ Pool_Name p.

Definition release (p : Pool) : bool := bool_decide (NetworkPolicy (Pool_Capabilities p) = "release-allowlist").

Definition poolEgressACL (i : Incus) (p : Pool) (bridge : string) : option ACL :=
  if negb (release p) then None
  else Some {|
    ACL_Name := pool_acl_name i p; ACL_Description := "Reviewed release egress for " +:+ Pool_Name p;
    ACL_Config := {[ "user.nddev.policy" := "release-allowlist-v1" ]}; Ingress := [];
    Egress := baseEgressRejects i bridge ++
              [rule "allow" "Allow public HTTPS for GitHub Actions control plane and OIDC" "" "tcp" "443"] ++
              localServiceAllows i bridge false ++ (declared_allow <$> EgressAllowlist (Pool_Capabilities p)) |}.

Definition publicEgressACL (i : Incus) (bridge : string) : ACL := {|
  ACL_Name := EgressACL i; ACL_Description := "Deny host and private networks; allow bounded public pilot egress";
  ACL_Config := {[ "user.nddev.policy" := "public-internet-v1" ]}; Ingress := [];
  Egress := [rule "reject" "Block private, metadata, multicast and host public ranges" (join (reservedDestinations i)) "" "";
             rule "reject" "Block sensitive host bridge services" (bridge +:+ "/32") "tcp" "22,80,443,8443,8444";
             rule "allow" "Allow public HTTP and HTTPS for the standard pilot" "" "tcp" "80,443"] ++
            localServiceAllows i bridge true |}.

(** ** The host firewall *)

Definition allow_in (network to_ port proto comment : string) : list string :=
  ["allow"; "in"; "on"; network; "to"; to_; "port"; port; "proto"; proto; "comment"; comment].
Definition route_allow (network subnet to_ port proto comment : string) : list string :=
  ["route"; "allow"; "in"; "on"; network; "from"; subnet; "to"; to_; "port"; port; "proto"; proto; "comment"; comment].

Definition destination_key (d : EgressDestination) : string :=
  Destination d +:+ NUL +:+ Protocol d +:+ NUL +:+ Ports d.

(** The destinations of the release pools, each once, numbered from one. *)
Definition release_rules (network subnet : string) (pools : list Pool) : gset string * list HostFirewallRule :=
  foldl (λ acc d,
      if bool_decide (destination_key d ∈ acc.1) then acc
      else let seen := {[ destination_key d ]} ∪ acc.1 in
           (seen, acc.2 ++ [{| Rule_Name := "release-egress-" +:+ pretty (Z.of_nat (size seen));
                               Rule_Args := route_allow network subnet (Destination d) (Ports d) (Protocol d) "gha-fleet-release-egress-v1" |}]))
    (∅, []) (List.filter release pools ≫= λ p, EgressAllowlist (Pool_Capabilities p)).

Definition hostFirewall (c : Config) (bridge subnet : string) : HostFirewall :=
  let i := Config_Incus c in
  let n := Network i in
  let named name args := {| Rule_Name := name; Rule_Args := args |} in
  {| Firewall_Backend := "ufw"; RequiredStatus := "active"; RequiredDefault := "deny (incoming), allow (outgoing), deny (routed)";
     Rules :=
       [named "dhcp" (allow_in n "any" "67" "udp" "gha-fleet-dhcp-v2");
        named "dns-udp" (allow_in n bridge "53" "udp" "gha-fleet-dns-udp-v1");
        named "dns-tcp" (allow_in n bridge "53" "tcp" "gha-fleet-dns-tcp-v1");
        named "registry" (allow_in n bridge (pretty (RegistryPort i)) "tcp" "gha-fleet-registry-v1");
        named "rustfs" (allow_in n bridge (pretty (RustFSPort i)) "tcp" "gha-fleet-rustfs-v1");
        named "cache-gateway" (allow_in n bridge (pretty (CacheGatewayPort i)) "tcp" "gha-fleet-cache-gateway-v1");
        named "services-rustfs-diagnostics"
          ["allow"; "in"; "on"; "eth1"; "from"; ServicesHostAddress i; "to"; bridge; "port"; pretty (RustFSPort i); "proto"; "tcp"; "comment";
           "gha-fleet-services-rustfs-diagnostics-v1"];
        named "garm-gateway" (allow_in n bridge (pretty (GARMGatewayPort i)) "tcp" "gha-fleet-garm-gateway-v1");
        named "public-http" (route_allow n subnet "any" "80" "tcp" "gha-fleet-public-http-v1");
        named "public-https" (route_allow n subnet "any" "443" "tcp" "gha-fleet-public-https-v1")] ++
       (release_rules n subnet (Pools c)).2 |}.

(** ** Profiles *)

Definition FormatBool (b : bool) : string := if b then "true" else "false".

Definition nic (i : Incus) (p : Pool) : gmap string string :=
  <["security.acls" := if release p then pool_acl_name i p else EgressACL i]>
  (list_to_map [("name", "eth0"); ("network", Network i); ("security.ipv4_filtering", "true"); ("security.mac_filtering", "true");
                ("security.port_isolation", "true"); ("type", "nic")]).

Definition vm_config (p : Pool) : gmap string string := list_to_map
  [("boot.autostart", "false"); ("limits.cpu", pretty (VCPU (Pool_Resources p)));
   ("limits.memory", pretty (Resources_MemoryMiB (Pool_Resources p)) +:+ "MiB"); ("security.nesting", "false");
   ("security.secureboot", "true"); ("user.nddev.pool", Pool_Name p); ("user.nddev.scale_set", Pool_ScaleSetName p);
   ("user.nddev.trust", Trust p)].

Definition container_config (p : Pool) : gmap string string :=
  <["security.syscalls.intercept.setxattr" := "false"]> (<["security.syscalls.intercept.mknod" := "false"]>
  (<["security.nesting" := FormatBool (Docker (Pool_Capabilities p))]> (<["security.privileged" := "false"]>
  (<["security.idmap.isolated" := "true"]> (<["limits.cpu.allowance" := pretty (VCPU (Pool_Resources p) ⊗ 100) +:+ "%"]>
  (delete "limits.cpu" (delete "security.secureboot" (vm_config p)))))))).

(** An unknown backend is the zero value, whose implementation is empty. *)
Definition implementation_of (c : Config) (p : Pool) : string := from_option Implementation "" (find_backend c (Pool_Backend p)).

Definition profile (c : Config) (p : Pool) : Profile :=
  let container := bool_decide (implementation_of c p = "incus-container") in
  {| Profile_Name := Pool_Name p;
     Profile_Description :=
       if container then "Managed unprivileged system-container profile for " +:+ Pool_Name p else "Managed full-VM profile for " +:+ Pool_Name p;
     Profile_Config := if container then container_config p else vm_config p;
     Devices := list_to_map
       [("eth0", nic (Config_Incus c) p);
        ("root", list_to_map [("path", "/"); ("pool", StoragePool (Config_Incus c)); ("size", pretty (DiskGiB (Pool_Resources p)) +:+ "GiB");
                              ("type", "disk")])] |}.

(** ** The project *)

Record ProjectLimits := { containerLimit : string; virtualMachineLimit : string; virtualMachineLowLevel : string }.

Definition count_backend (i : Incus) (l : ProjectLimits) (b : Backend) : ProjectLimits :=
  let l := if bool_decide (Implementation b = "incus-container")
           then {| containerLimit := pretty (FleetMaxInstances i); virtualMachineLimit := virtualMachineLimit l;
                   virtualMachineLowLevel := virtualMachineLowLevel l |} else l in
  if bool_decide (Implementation b = "incus-vm")
  then {| containerLimit := containerLimit l; virtualMachineLimit := pretty (FleetMaxInstances i); virtualMachineLowLevel := "allow" |} else l.

Definition project_limits (c : Config) : ProjectLimits :=
  foldl (count_backend (Config_Incus c)) {| containerLimit := "0"; virtualMachineLimit := "0"; virtualMachineLowLevel := "block" |} (Backends c).

Definition project_config (i : Incus) (l : ProjectLimits) : gmap string string := list_to_map
  [("features.images", "true"); ("features.networks", "false"); ("features.networks.zones", "false"); ("features.profiles", "true");
   ("features.storage.buckets", "false"); ("features.storage.volumes", "true"); ("images.auto_update_interval", "0");
   ("limits.containers", containerLimit l); ("limits.disk", pretty (FleetHardDiskLimitGiB i) +:+ "GiB");
   ("limits.instances", pretty (FleetMaxInstances i)); ("limits.memory", pretty (FleetHardMemoryLimitMiB i) +:+ "MiB");
   ("limits.networks", "0"); ("limits.virtual-machines", virtualMachineLimit l); ("restricted", "true"); ("restricted.backups", "block");
   ("restricted.containers.lowlevel", "block"); ("restricted.containers.nesting", "allow"); ("restricted.devices.disk", "managed");
   ("restricted.devices.nic", "managed"); ("restricted.networks.access", Network i); ("restricted.snapshots", "block");
   ("restricted.virtual-machines.lowlevel", virtualMachineLowLevel l)].

(** ** Build *)

Section build.

(** The text of the scriptlet, a function of the values it is rendered from. *)
Context (placement_text : Placement → string).

Fixpoint select_pools (names : list string) (selected : gset string) : result (gset string) :=
  match names with
  | [] => Ok selected
  | name :: names =>
      fail_if (bool_decide (name ∈ selected)) (Errorf "pool %q is selected more than once" [name]);;
      select_pools names ({[ name ]} ∪ selected)
  end.

Record Chosen := { chosen_profiles : list Profile; chosen_acls : list ACL; still_selected : gset string }.

Definition choose_pool (c : Config) (bridge : string) (acc : Chosen) (p : Pool) : result Chosen :=
  if negb (bool_decide (Pool_Name p ∈ still_selected acc)) then Ok acc
  else
    let policy := NetworkPolicy (Pool_Capabilities p) in
    fail_if (negb (bool_decide (policy = "public-internet")) && negb (release p))
      (Errorf "pool %q requires %q networking and cannot use the public-egress pilot bridge" [Pool_Name p; policy]);;
    Ok {| chosen_profiles := chosen_profiles acc ++ [profile c p];
          chosen_acls := chosen_acls acc ++ (if release p then option_list (poolEgressACL (Config_Incus c) p bridge) else []);
          still_selected := still_selected acc ∖ {[ Pool_Name p ]} |}.

Definition Build (c : Config) (selectedPools : list string) : result Plan :=
  let i := Config_Incus c in
  require_valid c;;
  fail_if (bool_decide (selectedPools = [])) (Errorf "at least one pool must be selected" []);;
  selected ← select_pools selectedPools ∅;
  prefix ← (match ParsePrefix (NetworkCIDR i) with Some p => Ok p | None => Err (Errorf "parse Incus network: %w" []) end);
  let bridge := Addr_String (Prefix_Addr prefix) in
  let subnet := Prefix_String (Masked prefix) in
  chosen ← foldM (choose_pool c bridge) (Pools c) {| chosen_profiles := []; chosen_acls := []; still_selected := selected |};
  fail_if (negb (bool_decide (still_selected chosen = ∅))) (Errorf "unknown pools: %v" (sort_strings (elements (still_selected chosen))));;
  placement ← wrap_err "render Incus placement: %w" (Render c);
  Ok {| Plan_Version := Incus_Version i; Plan_APIAddress := EffectiveAPIAddress i;
        ServerConfig := {[ ServerConfigKey := placement_text placement ]};
        Plan_HostFirewall := hostFirewall c bridge subnet;
        Plan_Storage := {| Storage_Name := StoragePool i; Storage_Driver := StorageDriver i;
          Storage_Config := list_to_map [("lvm.thinpool_name", "gha-thin"); ("lvm.use_thinpool", "true");
                                         ("size", pretty (StorageSizeGiB i) +:+ "GiB"); ("volume.size", "16GiB")] |};
        Plan_Network := {| Network_Name := Network i; Network_Type := "bridge";
          Network_Config := list_to_map [("dns.domain", "gha.internal"); ("dns.mode", "managed"); ("ipv4.address", NetworkCIDR i);
                                         ("ipv4.dhcp", "true"); ("ipv4.nat", "true"); ("ipv6.address", "none")] |};
        Plan_Project := {| Project_Name := Project i; Project_Description := "Disposable NDDev GitHub Actions workers";
          Project_Config := project_config i (project_limits c) |};
        Plan_ACL := publicEgressACL i bridge; PoolACLs := chosen_acls chosen; Profiles := chosen_profiles chosen |}.

End build.
