(* ===== verification/IncusPlanFacts.v ===== *)
(** * What a plan guarantees

    The pools that were asked for and no others, an egress policy on every NIC
    that opens only the reviewed destinations of its own pool beside bounded
    public and local traffic, and placement tables that agree with every pool. *)

From S2P Require Import Prelude Tenant PressureGate ProviderRetry NetIP FleetConfig FleetConfigFacts IncusPlan.

Local Open Scope Z_scope.
Local Open Scope go_scope.

(** ** Selection *)

Lemma select_pools_Ok names selected selected' :
  select_pools names selected = Ok selected' →
  NoDup names ∧ (∀ n, n ∈ names → n ∉ selected) ∧ selected' = list_to_set names ∪ selected.
Proof.
  revert selected. induction names as [|n names IH]; intros selected; simpl.
  { intros [= <-]. split_and!; [constructor|by intros ? ?%not_elem_of_nil|set_solver]. }
  intros H. apply bind_Ok in H as ([] & Hn%fail_if_Ok & H). apply bool_decide_eq_false in Hn. apply IH in H as (Hnd & Hnew & ->).
  split_and!; [|set_solver|set_solver]. constructor; [|done]. intros Hin. apply (Hnew n Hin). set_solver.
Qed.

Definition acls_of (c : Config) (bridge : string) (p : Pool) : list ACL :=
  if release p then option_list (poolEgressACL (Config_Incus c) p bridge) else [].

Lemma choose_pools_Ok c bridge pools acc acc' :
  foldM (choose_pool c bridge) pools acc = Ok acc' →
  ∃ ps, ps ⊆ pools ∧ NoDup (Pool_Name <$> ps) ∧ (∀ p, p ∈ ps → Pool_Name p ∈ still_selected acc) ∧
    chosen_profiles acc' = chosen_profiles acc ++ (profile c <$> ps) ∧ chosen_acls acc' = chosen_acls acc ++ (ps ≫= acls_of c bridge) ∧
    still_selected acc' = still_selected acc ∖ list_to_set (Pool_Name <$> ps).
Proof.
  revert acc. induction pools as [|p pools IH]; intros acc; simpl.
  { intros [= <-]. exists []. split_and!; [done|constructor|by intros ? ?%not_elem_of_nil|by rewrite app_nil_r..|set_solver]. }
  intros H. apply bind_Ok in H as (acc1 & Hp & H). apply IH in H as (ps & Hsub & Hnd & Hsel & Hprof & Hacls & Hstill). unfold choose_pool in Hp.
  case_bool_decide as Hin; cbn [negb] in Hp; cycle 1.
  { injection Hp as <-. exists ps. split_and!; [set_solver|done..]. }
  cbv zeta in Hp. apply bind_Ok in Hp as ([] & _ & <-%Ok_inj). cbn [chosen_profiles chosen_acls still_selected] in *.
  exists (p :: ps). split_and!.
  - set_solver.
  - simpl. constructor; [|done]. intros (q & Hq & Hqs)%list_elem_of_fmap. specialize (Hsel q Hqs). rewrite <- Hq in Hsel. set_solver.
  - intros q [->|Hq]%elem_of_cons; [done|]. specialize (Hsel q Hq). set_solver.
  - rewrite Hprof, <- app_assoc. done.
  - rewrite Hacls, <- app_assoc. done.
  - rewrite Hstill. simpl. set_solver.
Qed.

(** Everything about a plan that was built. *)
Record built (text : Placement → string) (c : Config) (names : list string) (plan : Plan) (ps : list Pool) (bridge : string) : Prop := {
  built_valid : Validate c = None;
  built_pools : ps ⊆ Pools c;
  built_distinct : NoDup (Pool_Name <$> ps);
  built_names : Pool_Name <$> ps ≡ₚ names;
  built_profiles : Profiles plan = profile c <$> ps;
  built_acls : PoolACLs plan = ps ≫= acls_of c bridge;
  built_acl : Plan_ACL plan = publicEgressACL (Config_Incus c) bridge;
  built_script : ∃ placement, Render c = Ok placement ∧ ServerConfig plan = {[ ServerConfigKey := text placement ]};
}.

Lemma Build_Ok text c names plan : Build text c names = Ok plan → ∃ ps bridge, built text c names plan ps bridge.
Proof.
  unfold Build. cbv zeta. intros H. apply bind_Ok in H as ([] & Hv & H). unfold require_valid in Hv. destruct (Validate c) eqn:Hval; [done|].
  apply bind_Ok in H as ([] & _ & H). apply bind_Ok in H as (sel & (Hnd & _ & Hsel)%select_pools_Ok & H). apply bind_Ok in H as (prefix & _ & H).
  apply bind_Ok in H as (chosen & Hch & H). apply bind_Ok in H as ([] & Hall%fail_if_Ok & H). apply bind_Ok in H as (pl & Hpl%wrap_err_Ok & <-%Ok_inj).
  apply negb_false_iff, bool_decide_eq_true in Hall. apply choose_pools_Ok in Hch as (ps & Hsub & Hpsnd & Hin & Hprof & Hacls & Hstill).
  cbn [chosen_profiles chosen_acls still_selected] in *. exists ps, (Addr_String (Prefix_Addr prefix)). split; try done; [|by exists pl].
  apply NoDup_Permutation; [done..|]. intros n. rewrite Hall in Hstill. split.
  - intros (p & -> & Hp)%list_elem_of_fmap. specialize (Hin p Hp). set_solver.
  - intros Hn. assert (n ∈ sel) as Hns by set_solver. assert (n ∈ (list_to_set (Pool_Name <$> ps) : gset string)) as Hnp; [|set_solver].
    destruct (decide (n ∈ (list_to_set (Pool_Name <$> ps) : gset string))); [done|]. exfalso. set_solver.
Qed.

(** ** Egress *)

(** What a rule of a pool may open: bounded public traffic, the services of the
    bridge, and the destinations that the pool declares, which are public. *)
Definition opens (i : Incus) (bridge : string) (declared : list EgressDestination) (r : ACLRule) : Prop :=
  Action r = "allow" ∧
  ((Rule_Destination r = "" ∧ Rule_Protocol r = "tcp" ∧ DestinationPort r ∈ ["443"; "80,443"]) ∨
   r ∈ localServiceAllows i bridge true ++ localServiceAllows i bridge false ∨
   ∃ d v, d ∈ declared ∧ r = declared_allow d ∧ destination_ok d v).

Definition egress_bounded (i : Incus) (bridge : string) (declared : list EgressDestination) (a : ACL) : Prop :=
  Ingress a = [] ∧ ∃ opened, Egress a = baseEgressRejects i bridge ++ opened ∧ Forall (opens i bridge declared) opened.

Lemma opens_local i bridge declared registry : Forall (opens i bridge declared) (localServiceAllows i bridge registry).
Proof.
  apply Forall_forall. intros r Hr. split.
  - unfold localServiceAllows in Hr. cbv zeta in Hr. by repeat (apply elem_of_cons in Hr as [->|Hr]; [done|]); apply not_elem_of_nil in Hr.
  - right. left. apply elem_of_app. destruct registry; [by left|by right].
Qed.

Lemma public_bounded i bridge : egress_bounded i bridge [] (publicEgressACL i bridge).
Proof.
  split; [done|]. eexists (_ :: _). split; [done|]. constructor; [|apply opens_local]. split; [done|]. left. split_and!; [done..|].
  apply list_elem_of_further, list_elem_of_here.
Qed.

Lemma release_bounded c bridge p a :
  Validate c = None → p ∈ Pools c → a ∈ acls_of c bridge p →
  release p = true ∧ ACL_Name a = pool_acl_name (Config_Incus c) p ∧
  egress_bounded (Config_Incus c) bridge (EgressAllowlist (Pool_Capabilities p)) a.
Proof.
  intros Hv Hp. unfold acls_of, poolEgressACL. destruct (release p) eqn:Hr; [|by intros ?%not_elem_of_nil].
  intros Ha%list_elem_of_singleton. subst a. split_and!; [done..|]. split; [done|]. eexists. split; [reflexivity|].
  apply Forall_app. split; [apply Forall_singleton; split; [done|]; left; split_and!; [done..|apply list_elem_of_here]|].
  apply Forall_app. split; [apply opens_local|]. apply Forall_fmap, Forall_forall. intros d Hd. split; [done|]. right. right.
  destruct (declared_destinations c p Hv Hp) as [(vs & Hvs & _) _]. apply list_elem_of_lookup in Hd as (k & Hk).
  destruct (Forall2_lookup_l _ _ _ _ _ Hvs Hk) as (v & _ & Hok). exists d, v. split_and!; [|done|done]. by eapply list_elem_of_lookup_2.
Qed.

Lemma nic_acl i p : nic i p !! "security.acls" = Some (if release p then pool_acl_name i p else EgressACL i).
Proof. unfold nic. by rewrite lookup_insert_eq. Qed.

(** C28: A plan has a profile for each pool that was asked for and for no other.
    Each profile's only NIC is governed by exactly one ACL, and the plan has it:
    the shared one, or for a release pool its own. No ACL of the plan lets
    anything in; each rejects the reserved ranges and the hosts of the estate
    first, and then opens only bounded public HTTP, the services of the bridge and,
    on the NIC of the pool that declares them, single public addresses. *)
Theorem planned_egress_bounded text c names plan :
  Build text c names = Ok plan →
  Profile_Name <$> Profiles plan ≡ₚ names ∧
  ∃ bridge, egress_bounded (Config_Incus c) bridge [] (Plan_ACL plan) ∧
    ∀ f, f ∈ Profiles plan → ∃ p a, p ∈ Pools c ∧ f = profile c p ∧
      (nic' ← Devices f !! "eth0"; nic' !! "security.acls") = Some (ACL_Name a) ∧
      (release p = false ∧ a = Plan_ACL plan ∨
       release p = true ∧ a ∈ PoolACLs plan ∧ egress_bounded (Config_Incus c) bridge (EgressAllowlist (Pool_Capabilities p)) a).
Proof.
  intros (ps & bridge & [Hv Hsub Hnd Hnames Hprof Hacls Hacl _])%Build_Ok. split.
  { rewrite Hprof, <- Hnames. by rewrite <- list_fmap_compose. }
  exists bridge. rewrite Hacl. split; [apply public_bounded|]. rewrite Hprof. intros f (p & -> & Hp)%list_elem_of_fmap.
  assert (∃ d, Devices (profile c p) !! "eth0" = Some d ∧ d = nic (Config_Incus c) p) as (d & Hd & ->) by (eexists; split; [|done]; done).
  rewrite Hd. cbn [mbind option_bind]. rewrite nic_acl. destruct (release p) eqn:Hr.
  - assert (∃ a, a ∈ acls_of c bridge p) as [a Ha].
    { unfold acls_of, poolEgressACL. rewrite Hr. simpl. eexists. apply list_elem_of_here. }
    destruct (release_bounded c bridge p a Hv (Hsub p Hp) Ha) as (_ & Hname & Hb). exists p, a. split_and!; [by apply Hsub|done|by rewrite Hname|].
    right. split_and!; [done| |done]. rewrite Hacls. apply list_elem_of_bind. by exists p.
  - exists p, (publicEgressACL (Config_Incus c) bridge). split_and!; [by apply Hsub|done..|]. by left.
Qed.

(** ** The placement tables *)

Definition class_agrees (t : Tables) (p : Pool) : Prop :=
  reservationByLimit t !! Resources_MemoryMiB (Pool_Resources p) = Some (Reservation_MemoryMiB (EffectiveReservation p)) ∧
  cpuByLimit t !! Resources_MemoryMiB (Pool_Resources p) = Some (VCPU (Pool_Resources p)) ∧
  Reservation_MemoryMiB (EffectiveReservation p) ≤ maxReservation t ∧ VCPU (Pool_Resources p) ≤ maxCPU t.

Lemma add_class_Ok t p t' q :
  add_class t p = Ok t' → q = p ∨ class_agrees t q → class_agrees t' q.
Proof.
  unfold add_class. cbv zeta. intros H. apply bind_Ok in H as ([] & Hr%fail_if_Ok & H). apply bind_Ok in H as ([] & Hc%fail_if_Ok & <-%Ok_inj).
  unfold conflicts in *. intros [->|(H1 & H2 & H3 & H4)]; unfold class_agrees; cbn [reservationByLimit cpuByLimit maxReservation maxCPU].
  - rewrite !lookup_insert_eq. split_and!; [done..| |]; destruct (_ <? _) eqn:?; lia.
  - destruct (decide (Resources_MemoryMiB (Pool_Resources p) = Resources_MemoryMiB (Pool_Resources q))) as [He|He].
    + rewrite He in *. rewrite H1 in Hr. rewrite H2 in Hc. apply negb_false_iff, Z.eqb_eq in Hr, Hc. rewrite !lookup_insert_eq, <- Hr, <- Hc.
      split_and!; [done..| |]; destruct (_ <? _) eqn:?; lia.
    + rewrite !lookup_insert_ne by done. split_and!; [done..| |]; destruct (_ <? _) eqn:?; lia.
Qed.

Lemma add_classes_Ok ps t t' q : foldM add_class ps t = Ok t' → q ∈ ps ∨ class_agrees t q → class_agrees t' q.
Proof.
  revert t. induction ps as [|p ps IH]; intros t; simpl.
  { intros [= <-] [H%not_elem_of_nil|H]; done. }
  intros H Hq. apply bind_Ok in H as (t1 & H1 & H). apply (IH t1 H). destruct Hq as [[->|Hq]%elem_of_cons|Hq].
  - right. eapply add_class_Ok; [done|by left].
  - by left.
  - right. eapply add_class_Ok; [done|by right].
Qed.

(** The tables of a scriptlet agree with every pool of the configuration. *)
Lemma Render_agrees c placement p :
  Render c = Ok placement → p ∈ Pools c →
  ReservationByLimit placement !! Resources_MemoryMiB (Pool_Resources p) = Some (Reservation_MemoryMiB (EffectiveReservation p)) ∧
  CPUByLimit placement !! Resources_MemoryMiB (Pool_Resources p) = Some (VCPU (Pool_Resources p)) ∧
  Reservation_MemoryMiB (EffectiveReservation p) ≤ MaxWorkerMemoryMiB placement ∧ VCPU (Pool_Resources p) ≤ MaxWorkerCPUUnits placement.
Proof.
  unfold Render. intros H Hp. apply bind_Ok in H as ([] & _ & H). apply bind_Ok in H as (t & Ht & H). apply bind_Ok in H as ([] & _ & <-%Ok_inj).
  simpl. apply (add_classes_Ok _ _ _ p Ht). by left.
Qed.
