(* ===== verification/IncusPlacement.v ===== *)
(** * The placement scriptlet
    ([src/internal/incusplacement/scriptlet.go], [placementTemplate])

    Incus runs the scriptlet to choose the cluster member of every new instance of
    the fleet's project. Its integers are unbounded and its floats are binary64,
    here the executable [spec_float]. A Starlark [fail], a missing key and a failed
    conversion end the run with an error; returning without a target leaves the
    choice to Incus. *)

From Stdlib Require Import Floats.SpecFloat.
From S2P Require Import Prelude Tenant PressureGate ProviderRetry ProviderRetryFacts NetIP FleetConfig IncusPlan IncusPlanFacts.

Local Open Scope Z_scope.
Local Open Scope go_scope.

(** ** Floats *)

Abbreviation float := spec_float.

(** [float(n)]. *)
Definition float_of (n : Z) : float := binary_normalize 53 1024 n 0 false.
Definition float_div (a b : float) : float := SFdiv 53 1024 a b.
Definition float_add (a b : float) : float := SFadd 53 1024 a b.
Definition float_sub (a b : float) : float := SFsub 53 1024 a b.

(** The double nearest to 0.05. *)
Definition LOAD_TIE_EPSILON : float := S754_finite false 7205759403792794 (-57).

Example load_tie_epsilon_nearest : float_div (float_of 5) (float_of 100) = LOAD_TIE_EPSILON.
Proof. vm_compute. reflexivity. Qed.

(** ** What the scriptlet is told *)

Record FleetInstance := { Fleet_Name : string; ExpandedConfig : gmap string string }.

Record Member := {
  server_name : string;
  member_config : gmap string string;
  load_averages : option (list float);          (* of the system information, if it is there *)
  cpu_total : option (option Z);                (* of the resources' cpu, if it is there *)
  memory_total : Z;
  storage_space : gmap string (Z * Z);          (* total and used, by pool *)
  pending_count : Z;                            (* instances including creates in progress *)
  instances : list FleetInstance;
}.

Record PlacementRequest := {
  request_project : string;
  request_name : string;
  want_memory_size : Z;
  want_root_disk_size : Z;
}.

Definition PRESSURE_SCHEMA : string := "1".
Definition PRESSURE_OPEN : string := "open".
Definition MAINTENANCE_PREFIXES : list string := ["gha-image-builder-"; "gha-image-smoke-"].
Definition MiB : Z := 1024 * 1024.

(** ** The functions of the scriptlet *)

Definition memory_reserve_bytes (p : Placement) (total : Z) : Z :=
  let percent := (total * MinimumMemoryPercent p + 99) / 100 in
  if MinimumMemoryMiB p * MiB <? percent then percent else MinimumMemoryMiB p * MiB.

(** [int(memory[:-3])] of a text that ends in MiB. *)
Definition without_suffix (suffix s : string) : option string :=
  let head := String.substring 0 (String.length s - String.length suffix) s in
  if bool_decide (s = head +:+ suffix) then Some head else None.

Definition parse_int (s : string) : option Z :=
  match s with
  | String "-" rest => if bool_decide (rest = "") then None else Z.opp <$> parse_digits rest 0
  | String "+" rest => if bool_decide (rest = "") then None else parse_digits rest 0
  | EmptyString => None
  | _ => parse_digits s 0
  end.

(** The table's entry for an instance's hard memory limit. *)
Definition by_limit (table : gmap Z Z) (missing : string) (i : FleetInstance) : result Z :=
  match without_suffix "MiB" (default "" (ExpandedConfig i !! "limits.memory")) with
  | None => Err (Errorf "fleet instance has non-MiB memory limit: %s" [Fleet_Name i])
  | Some digits =>
      match parse_int digits with
      | None => Err (Errorf "int: invalid literal" [])
      | Some limit => match table !! limit with Some v => Ok v | None => Err (Errorf missing [Fleet_Name i]) end
      end
  end.

Definition committed (table : gmap Z Z) (missing : string) (unit_ pending_unit : Z) (xs : list FleetInstance) (pending : Z) : result Z :=
  sum ← foldM (λ sum i, v ← by_limit table missing i; Ok (sum + v * unit_)) xs 0;
  let pending_without_record := pending - Z.of_nat (length xs) in
  fail_if (pending_without_record <? 0) (Errorf "fleet pending instance count is below committed records" []);;
  Ok (sum + pending_without_record * pending_unit).

Definition committed_memory_bytes (p : Placement) (xs : list FleetInstance) (pending : Z) : result Z :=
  committed (ReservationByLimit p) "fleet instance has no memory reservation: %s" MiB (MaxWorkerMemoryMiB p * MiB) xs pending.
Definition committed_cpu_units (p : Placement) (xs : list FleetInstance) (pending : Z) : result Z :=
  committed (CPUByLimit p) "fleet instance has no CPU allowance: %s" 1 (MaxWorkerCPUUnits p) xs pending.

Definition float_zero : float := S754_zero false.

Definition load_per_core (m : Member) : float :=
  match load_averages m, cpu_total m with
  | Some (average :: _), Some (Some cores) => if cores <=? 0 then float_zero else float_div average (float_of cores)
  | _, _ => float_zero
  end.

(** ** The choice *)

Record Choice := {
  chosen : string; chosen_remaining : Z; chosen_count : Z; chosen_load : float; chosen_projected_cpu : float; chosen_score : float;
}.
Definition minus_one : float := float_of (-1).
Definition no_choice : Choice := {|
  chosen := ""; chosen_remaining := -1; chosen_count := -1; chosen_load := minus_one; chosen_projected_cpu := minus_one; chosen_score := minus_one |}.

Definition maintenance (r : PlacementRequest) : bool := existsb (HasPrefix (request_name r)) MAINTENANCE_PREFIXES.

(** A candidate whose metadata and gate let it be considered. *)
Definition gate_passes (r : PlacementRequest) (m : Member) : bool :=
  bool_decide (default "" (member_config m !! "user.gha_pressure.schema") = PRESSURE_SCHEMA)
  && (maintenance r || bool_decide (default "" (member_config m !! "user.gha_pressure.state") = PRESSURE_OPEN)).

(** What is left of a member's memory once the worker runs there. *)
Definition remaining_memory (p : Placement) (m : Member) (reservation committed_bytes : Z) : Z :=
  memory_total m - committed_bytes - reservation - memory_reserve_bytes p (memory_total m).

Definition better (c : Choice) (score projected load : float) (remaining count : Z) : bool :=
  if bool_decide (chosen c = "") then true
  else if SFltb score (float_sub (chosen_score c) LOAD_TIE_EPSILON) then true
  else if SFleb score (float_add (chosen_score c) LOAD_TIE_EPSILON) then
    if SFltb projected (chosen_projected_cpu c) then true
    else if SFeqb projected (chosen_projected_cpu c) && SFltb load (chosen_load c) then true
    else if SFeqb projected (chosen_projected_cpu c) && SFeqb load (chosen_load c) && (remaining <? chosen_remaining c) then true
    else SFeqb projected (chosen_projected_cpu c) && SFeqb load (chosen_load c) && (remaining =? chosen_remaining c) && (count <? chosen_count c)
  else false.

(** One turn of the loop over the candidates. *)
Definition consider (p : Placement) (r : PlacementRequest) (reservation cpu_units : Z) (c : Choice) (m : Member) : result Choice :=
  if negb (gate_passes r m) then Ok c
  else match storage_space m !! Script_Pool p with
  | None => Err (Errorf "key %s not in dict" [Script_Pool p])
  | Some (total, used) =>
      if total - used <? want_root_disk_size r then Ok c
      else
        bytes_committed ← committed_memory_bytes p (instances m) (pending_count m);
        let remaining := remaining_memory p m reservation bytes_committed in
        if remaining <? 0 then Ok c
        else match cpu_total m with
        | None => Err (Errorf "struct has no .cpu attribute" [])
        | Some None => Ok c
        | Some (Some cores) =>
            if cores <=? 0 then Ok c
            else
              units ← committed_cpu_units p (instances m) (pending_count m);
              let load := load_per_core m in
              let projected := float_div (float_of (units + cpu_units)) (float_of cores) in
              let score := if SFltb load projected then projected else load in
              Ok (if better c score projected load remaining (pending_count m)
                  then {| chosen := server_name m; chosen_remaining := remaining; chosen_count := pending_count m; chosen_load := load;
                          chosen_projected_cpu := projected; chosen_score := score |}
                  else c)
        end
  end.

(** [None]: the scriptlet returns without a target. *)
Definition instance_placement (p : Placement) (r : PlacementRequest) (candidates : list Member) : result (option string) :=
  if negb (bool_decide (request_project r = Script_Project p)) then Ok None
  else
    let limit := want_memory_size r / MiB in
    match ReservationByLimit p !! limit with
    | None => Err (Errorf "requested worker has no measured memory reservation" [])
    | Some reservation =>
        match CPUByLimit p !! limit with
        | None => Err (Errorf "key %d not in dict" [])
        | Some cpu_units =>
            c ← foldM (consider p r (reservation * MiB) cpu_units) candidates no_choice;
            fail_if (bool_decide (chosen c = "")) (Errorf "insufficient-memory: no fleet member has room for this worker" []);;
            Ok (Some (chosen c))
        end
    end.
