(* ===== verification/IncusPlacementFacts.v ===== *)
(** * What placement guarantees

    Against a fleet whose instances were created from planned profiles, the
    scriptlet always decides: it names a member with an open gate, room on disk and
    memory left for everything promised there, or refuses because there is none. *)

From S2P Require Import Prelude Tenant PressureGate ProviderRetry ProviderRetryFacts NetIP FleetConfig FleetConfigFacts IncusPlan IncusPlanFacts IncusPlacement.

Local Open Scope Z_scope.
Local Open Scope go_scope.

(** ** Reading memory limits *)

Lemma substring_app a b : String.substring 0 (String.length a) (a +:+ b) = a.
Proof. induction a as [|c a IH]; [by destruct b|]. simpl. by rewrite IH. Qed.

Lemma without_suffix_app suffix s : without_suffix suffix (s +:+ suffix) = Some s.
Proof.
  unfold without_suffix. rewrite length_app_string, Nat.add_sub, substring_app. by rewrite bool_decide_eq_true_2.
Qed.

Lemma parse_int_pretty n : 0 ≤ n → parse_int (pretty n) = Some n.
Proof.
  intros Hn. pose proof (parse_pretty n Hn) as Hp. pose proof (pretty_nonneg_nonempty n Hn) as Hne.
  destruct (pretty n) as [|c rest]; [done|]. destruct (decide (c = "-"%char)) as [->|Hm]; [by vm_compute in Hp|].
  destruct (decide (c = "+"%char)) as [->|Hq]; [by vm_compute in Hp|]. revert Hp. unfold parse_int.
  by destruct c as [[] [] [] [] [] [] [] []].
Qed.

(** The memory limit every planned profile carries. *)
Definition memory_text (p : Pool) : string := pretty (Resources_MemoryMiB (Pool_Resources p)) +:+ "MiB".

Lemma profile_memory c p : Profile_Config (profile c p) !! "limits.memory" = Some (memory_text p).
Proof. unfold profile. cbv zeta. simpl. by destruct (bool_decide _). Qed.

(** ** A fleet made of planned profiles *)

Section fleet.
Context (c : Config) (placement : Placement) (pool_of : FleetInstance → Pool).
Hypothesis rendered : Render c = Ok placement.

Definition from_profile (i : FleetInstance) : Prop :=
  pool_of i ∈ Pools c ∧ ExpandedConfig i !! "limits.memory" = Profile_Config (profile c (pool_of i)) !! "limits.memory".

(** A member as Incus reports it: its instances were created from profiles of the
    plan, creates in progress are counted on top of them, and the storage pool
    and the processors are known. *)
Record fleet_member (m : Member) : Prop := {
  member_named : server_name m ≠ "";
  member_profiles : Forall from_profile (instances m);
  member_pending : Z.of_nat (length (instances m)) ≤ pending_count m;
  member_storage : is_Some (storage_space m !! Script_Pool placement);
  member_cpu : is_Some (cpu_total m);
}.

(** The memory a worker of a pool is charged, and the largest of the platform. *)
Definition charge (p : Pool) : Z := Reservation_MemoryMiB (EffectiveReservation p).
Definition largest_charge : Z := foldl (λ most p, Z.max most (charge p)) 0 (Pools c).

(** What is promised on a member, in MiB: the charge of every instance, and the
    largest one for each create in progress. *)
Definition promised (m : Member) : Z :=
  foldr (λ i sum, charge (pool_of i) + sum) 0 (instances m) + (pending_count m - Z.of_nat (length (instances m))) * largest_charge.

(** Instances that build and test images are placed on closed members too. *)
Definition image_maintenance (name : string) : Prop :=
  ∃ rest, name = "gha-image-builder-" +:+ rest ∨ name = "gha-image-smoke-" +:+ rest.

(** A member has room for a worker of pool [p]: it publishes its pressure in the
    known schema, as open unless images are maintained; the platform's storage pool
    has space for the root disk; it has processors; and its memory holds what is
    promised and this worker, and leaves the host's minimum, in MiB and in percent. *)
Record room (r : PlacementRequest) (p : Pool) (m : Member) : Prop := {
  room_schema : member_config m !! "user.gha_pressure.schema" = Some "1";
  room_gate : member_config m !! "user.gha_pressure.state" = Some "open" ∨ image_maintenance (request_name r);
  room_disk : ∃ total used, storage_space m !! StoragePool (Config_Incus c) = Some (total, used) ∧ want_root_disk_size r ≤ total - used;
  room_cpu : ∃ cores, cpu_total m = Some (Some cores) ∧ 0 < cores;
  room_memory :
    let free := memory_total m - (promised m + charge p) * MiB in
    Reserve_MemoryMiB (Config_HostReserve c) * MiB ≤ free ∧ Reserve_Percent (Config_HostReserve c) * memory_total m ≤ 100 * free;
}.

Lemma maintenance_spec r : maintenance r = true ↔ image_maintenance (request_name r).
Proof.
  unfold maintenance, MAINTENANCE_PREFIXES, image_maintenance. cbn [existsb]. rewrite !orb_true_iff. split.
  - intros [H|[H|H]]; [| |done]; apply prefix_split in H; eexists; eauto.
  - intros [rest [-> | ->]]; [left|right; left]; by destruct rest.
Qed.

Lemma default_Some (v : option string) x : x ≠ "" → default "" v = x ↔ v = Some x.
Proof. destruct v; simpl; naive_solver. Qed.

Lemma gate_passes_spec r m : gate_passes r m = true ↔
  member_config m !! "user.gha_pressure.schema" = Some "1" ∧
  (member_config m !! "user.gha_pressure.state" = Some "open" ∨ image_maintenance (request_name r)).
Proof.
  unfold gate_passes, PRESSURE_SCHEMA, PRESSURE_OPEN. rewrite andb_true_iff, orb_true_iff, !bool_decide_eq_true, maintenance_spec, !default_Some by done. tauto.
Qed.

(** The reserve of the scriptlet is the larger of the two minimums. *)
Lemma reserve_spec total free :
  memory_reserve_bytes placement total ≤ free ↔ MinimumMemoryMiB placement * MiB ≤ free ∧ MinimumMemoryPercent placement * total ≤ 100 * free.
Proof.
  unfold memory_reserve_bytes. pose proof (Z.div_mod (total * MinimumMemoryPercent placement + 99) 100 ltac:(done)).
  pose proof (Z.mod_pos_bound (total * MinimumMemoryPercent placement + 99) 100 ltac:(done)). destruct (_ <? _) eqn:Hlt; lia.
Qed.

Lemma add_classes_largest ps t t' :
  foldM add_class ps t = Ok t' → maxReservation t' = foldl (λ most p, Z.max most (charge p)) (maxReservation t) ps.
Proof.
  revert t. induction ps as [|p ps IH]; intros t; simpl; [by intros [= <-]|]. intros H. apply bind_Ok in H as (t1 & H1 & H). rewrite (IH _ H). f_equal.
  unfold add_class in H1. cbv zeta in H1. apply bind_Ok in H1 as ([] & _ & H1). apply bind_Ok in H1 as ([] & _ & <-%Ok_inj). cbn [maxReservation].
  unfold charge. destruct (_ <? _) eqn:Hlt; lia.
Qed.

(** What the scriptlet takes over from the configuration. *)
Lemma Render_values :
  Script_Project placement = Project (Config_Incus c) ∧ Script_Pool placement = StoragePool (Config_Incus c) ∧
  MinimumMemoryMiB placement = Reserve_MemoryMiB (Config_HostReserve c) ∧ MinimumMemoryPercent placement = Reserve_Percent (Config_HostReserve c) ∧
  MaxWorkerMemoryMiB placement = largest_charge.
Proof.
  revert rendered. unfold Render. intros H. apply bind_Ok in H as ([] & _ & H). apply bind_Ok in H as (t & Ht & H). apply bind_Ok in H as ([] & _ & <-%Ok_inj).
  split_and!; try done. cbn. by rewrite (add_classes_largest _ _ _ Ht).
Qed.

Lemma pool_limits p : p ∈ Pools c → 0 ≤ Resources_MemoryMiB (Pool_Resources p).
Proof.
  intros Hp. assert (Validate c = None) as Hv.
  { revert rendered. unfold Render, require_valid. by destruct (Validate c). }
  destruct (validated_pool c p (Validate_validated c Hv) Hp) as [pre Hpre]. destruct (pool_memory p (validatePool_nil _ _ Hpre)). lia.
Qed.

Lemma by_limit_pool table missing i v :
  from_profile i → table !! Resources_MemoryMiB (Pool_Resources (pool_of i)) = Some v → by_limit table missing i = Ok v.
Proof.
  intros [Hp Hmem] Hv. unfold by_limit. rewrite Hmem, profile_memory. cbn [from_option]. unfold id, memory_text. rewrite without_suffix_app.
  rewrite parse_int_pretty by (by apply pool_limits). by rewrite Hv.
Qed.

Lemma committed_pools table missing (value : Pool → Z) unit_ pending_unit xs pending :
  (∀ p, p ∈ Pools c → table !! Resources_MemoryMiB (Pool_Resources p) = Some (value p)) → Forall from_profile xs → Z.of_nat (length xs) ≤ pending →
  committed table missing unit_ pending_unit xs pending =
    Ok (foldr (λ i sum, value (pool_of i) + sum) 0 xs * unit_ + (pending - Z.of_nat (length xs)) * pending_unit).
Proof.
  intros Htable Hxs Hlen. unfold committed.
  assert (∀ acc, foldM (λ sum i, v ← by_limit table missing i; Ok (sum + v * unit_)) xs acc =
                 Ok (acc + foldr (λ i sum, value (pool_of i) + sum) 0 xs * unit_)) as ->.
  { clear Hlen. induction Hxs as [|i xs Hi _ IH]; intros acc; simpl; [by rewrite Z.add_0_r|].
    rewrite (by_limit_pool _ _ _ (value (pool_of i))) by (done || by apply Htable, Hi). cbn [mbind result_bind]. rewrite IH. f_equal. lia. }
  cbn [mbind result_bind]. cbv zeta. replace (_ <? 0) with false by lia. cbn [fail_if mbind result_bind]. f_equal.
Qed.

(** One candidate: it is taken only when it has room, and when it has room and
    nothing was taken before, it is taken. *)
Lemma consider_member r p reservation units ch m :
  fleet_member m → reservation = charge p * MiB →
  ∃ ch', consider placement r reservation units ch m = Ok ch' ∧ (ch' = ch ∨ chosen ch' = server_name m ∧ room r p m) ∧
    (room r p m → chosen ch = "" → chosen ch' = server_name m).
Proof.
  intros [Hname Hprof Hpend [[total used] Hst] [cpu Hcpu]] ->. destruct Render_values as (_ & Hpool & Hmin & Hpct & Hmax). unfold consider.
  destruct (gate_passes r m) eqn:Hgate; cbn [negb]; cycle 1.
  { exists ch. split_and!; [done|by left|]. intros Hroom. exfalso. apply not_true_iff_false in Hgate. apply Hgate, gate_passes_spec. by destruct Hroom. }
  apply gate_passes_spec in Hgate as [Hschema Hopen].
  rewrite Hst. destruct (_ <? want_root_disk_size r) eqn:Hdisk.
  { exists ch. split_and!; [done|by left|]. intros [_ _ (t & u & Ht & ?) _ _]. rewrite <-Hpool, Hst in Ht. simplify_eq. lia. }
  unfold committed_memory_bytes. rewrite (committed_pools _ _ charge); [| |done|done].
  2:{ intros q Hq. by destruct (Render_agrees c placement q rendered Hq). }
  cbn [mbind result_bind]. cbv zeta. unfold remaining_memory.
  set (bytes := foldr _ 0 (instances m) * MiB + _).
  assert (bytes = promised m * MiB) as Hb by (unfold bytes, promised; rewrite Hmax; lia). rewrite Hb. clearbody bytes.
  pose proof (reserve_spec (memory_total m) (memory_total m - (promised m + charge p) * MiB)) as Hreserve. rewrite Hmin, Hpct in Hreserve.
  destruct (_ <? 0) eqn:Hmem. { exists ch. split_and!; [done|by left|]. intros [_ _ _ _ Hm%Hreserve]. lia. }
  rewrite Hcpu. destruct cpu as [cores|]; cycle 1. { exists ch. split_and!; [done|by left|]. intros [_ _ _ (? & Hc & _) _]. by rewrite Hcpu in Hc. }
  destruct (cores <=? 0) eqn:Hcores. { exists ch. split_and!; [done|by left|]. intros [_ _ _ (? & Hc & ?) _]. rewrite Hcpu in Hc. simplify_eq. lia. }
  unfold committed_cpu_units. rewrite (committed_pools _ _ (λ p, VCPU (Pool_Resources p))); [| |done|done].
  2:{ intros q Hq. by destruct (Render_agrees c placement q rendered Hq) as (_ & ? & _). }
  cbn [mbind result_bind]. eexists. split; [done|]. split.
  - destruct (better _ _ _ _ _ _); [right|by left]. split; [done|]. split; [done|done| | |apply Hreserve; lia].
    + exists total, used. rewrite <-Hpool. split; [done|lia].
    + exists cores. split; [done|lia].
  - intros _ Hch. unfold better. by rewrite bool_decide_eq_true_2.
Qed.

(** What a loop over candidates leaves chosen. *)
Definition chosen_from (r : PlacementRequest) (p : Pool) (ms : list Member) (ch ch' : Choice) : Prop :=
  ch' = ch ∨ ∃ m, m ∈ ms ∧ chosen ch' = server_name m ∧ room r p m.

Lemma consider_all r p reservation units ms ch :
  Forall fleet_member ms → reservation = charge p * MiB →
  ∃ ch', foldM (consider placement r reservation units) ms ch = Ok ch' ∧ chosen_from r p ms ch ch' ∧
    (chosen ch ≠ "" ∨ (∃ m, m ∈ ms ∧ room r p m) → chosen ch' ≠ "").
Proof.
  intros Hms Hres. revert ch. induction Hms as [|m ms Hm Hms IH]; intros ch; simpl.
  { exists ch. split_and!; [done|by left|]. intros [?|(? & ?%not_elem_of_nil & _)]; done. }
  destruct (consider_member r p reservation units ch m Hm Hres) as (ch1 & -> & Hc1 & Hfirst). cbn [mbind result_bind].
  destruct (IH ch1) as (ch' & -> & Hcase & Hex). exists ch'. split_and!; [done| |].
  - destruct Hcase as [->|(m' & ? & ?)]; [|right; exists m'; split; [by apply list_elem_of_further|done]].
    destruct Hc1 as [->|[? ?]]; [by left|right]. exists m. split_and!; [apply list_elem_of_here|done..].
  - pose proof (member_named m Hm) as Hn. intros Hany. apply Hex. destruct Hany as [Hch|(m' & [->|Hin]%elem_of_cons & Hroom)].
    + left. destruct Hc1 as [->|[-> _]]; done.
    + left. destruct (decide (chosen ch = "")) as [Hz|Hz]; [by rewrite (Hfirst Hroom Hz)|]. destruct Hc1 as [->|[-> _]]; done.
    + right. by exists m'.
Qed.

End fleet.

(** C29: Placement decides for every worker of a planned pool, against a fleet whose
    instances come from planned profiles: it names a member that publishes its
    pressure in the known schema, open unless the instance builds or tests images,
    with processors, space on the storage pool, and memory for the reservations of all
    its instances, the largest worker for every create in progress, this worker and
    both minimums of the host's reserve; or it refuses, and then no member has room. *)
Theorem placement_keeps_reservations c placement pool_of p r ms :
  Render c = Ok placement → p ∈ Pools c → request_project r = Project (Config_Incus c) →
  want_memory_size r = Resources_MemoryMiB (Pool_Resources p) * MiB → Forall (fleet_member c placement pool_of) ms →
  (∃ m, m ∈ ms ∧ instance_placement placement r ms = Ok (Some (server_name m)) ∧ room c pool_of r p m) ∨
  (instance_placement placement r ms = Err (Errorf "insufficient-memory: no fleet member has room for this worker" []) ∧
   ∀ m, m ∈ ms → ¬ room c pool_of r p m).
Proof.
  intros Hr Hp Hproj Hwant Hms. destruct (Render_agrees c placement p Hr Hp) as (Hres & Hcpu & _).
  destruct (Render_values c placement Hr) as (Hsp & _).
  unfold instance_placement. rewrite bool_decide_eq_true_2 by congruence. cbn [negb]. cbv zeta.
  rewrite Hwant, Z.div_mul by done. rewrite Hres, Hcpu. fold (charge p).
  destruct (consider_all c placement pool_of Hr r p _ (VCPU (Pool_Resources p)) ms no_choice Hms eq_refl) as (ch & -> & Hcase & Hex). cbn [mbind result_bind].
  destruct (decide (chosen ch = "")) as [Hz|Hz].
  - right. rewrite bool_decide_eq_true_2 by done. split; [done|]. intros m Hm Hroom. apply Hex; [|done]. right. by exists m.
  - left. rewrite bool_decide_eq_false_2 by done. cbn [fail_if mbind result_bind]. destruct Hcase as [->|(m & Hm & Hn & Hroom)]; [done|].
    exists m. by rewrite Hn.
Qed.
