(* ===== verification/IncusReconcile.v ===== *)
(** * Bringing a member to its plan ([src/internal/incusreconcile/reconcile.go])

    [Apply] reads what the Incus daemon has and sends the requests that are
    missing. The daemon is any type with the operations of [IncusAPI]: every call
    may change it and may fail, so other clients and faults between two calls are
    covered. The state of a run is the daemon, the requests sent so far (newest
    first) and the changes to report. *)

From S2P Require Import Prelude Tenant PressureGate ProviderRetry NetIP FleetConfig IncusPlan.

Local Open Scope Z_scope.
Local Open Scope go_scope.

(** ** What Incus reports *)

Record serverState := {
  APIExtensions : list string;
  Auth : string;
  Server_Config : gmap string string;
  Environment_Driver : string;
  Environment_Server : string;
  ServerName : string;
  ServerClustered : bool;
  ServerVersion : string;
  StorageSupportedDrivers : list string;
}.

Record storageState := { Stored_Name : string; Stored_Description : string; Stored_Driver : string; Stored_Config : gmap string string }.
Record networkState := {
  Bridge_Name : string; Bridge_Description : string; Bridge_Type : string; Managed : bool; Bridge_Config : gmap string string;
}.
Record projectState := { ProjectState_Name : string; ProjectState_Description : string; ProjectState_Config : gmap string string }.
Record aclState := {
  aclState_Name : string; aclState_Description : string; aclState_Config : gmap string string; aclState_Ingress : list ACLRule;
  aclState_Egress : list ACLRule;
}.
Record profileState := {
  profileState_Name : string; profileState_Description : string; profileState_Config : gmap string string;
  profileState_Devices : gmap string (gmap string string);
}.
Record instanceState := { instanceState_Name : string; instanceState_Profiles : list string }.

(** ** Requests *)

Inductive Request :=
  | PutServer (config : gmap string string)
  | PostStorage (s : Storage)
  | PostACL (a : ACL)
  | PutACL (a : ACL)
  | PostNetwork (n : Network_Plan)
  | PutNetwork (name : string) (config : gmap string string)
  | PostProject (p : Project_Plan)
  | PutProject (p : Project_Plan)
  | PostProfile (project : string) (f : Profile)
  | PutProfile (project : string) (f : Profile).

Class IncusAPI (W : Type) := {
  get_server : W → W * result serverState;
  get_storages : W → W * result (list storageState);
  get_storage : string → string → W → W * result storageState;      (* pool, target member *)
  get_acls : W → W * result (list aclState);
  get_networks : W → W * result (list networkState);
  get_projects : W → W * result (list projectState);
  get_profiles : string → W → W * result (list profileState);
  get_instances : string → W → W * result (list instanceState);
  send : Request → W → W * result unit;
}.

Record Change := { Kind : string; Change_Name : string; Change_Action : string }.
Record Result := { Applied : bool; Changes : list Change }.

(** ** Runs *)

Section reconcile.
Context {W : Type} `{IncusAPI W}.

Record Run_State := { daemon : W; sent : list Request; changes : list Change }.

Definition M (A : Type) : Type := Run_State → Run_State * result A.
#[local] Instance M_ret : MRet M := λ A a st, (st, Ok a).
#[local] Instance M_bind : MBind M := λ A B f m st, let '(st', r) := m st in match r with Ok a => f a st' | Err e => (st', Err e) end.

Definition lift {A} (r : result A) : M A := λ st, (st, r).
Definition refuse {A} (e : error) : M A := λ st, (st, Err e).
Definition refuse_if (b : bool) (e : error) : M unit := lift (fail_if b e).

Definition get {A} (format : string) (query : W → W * result A) : M A := λ st,
  let '(w, r) := query (daemon st) in ({| daemon := w; sent := sent st; changes := changes st |}, wrap_err format r).

(** A request, and the change it is reported as when it succeeds. *)
Definition mutate (format : string) (r : Request) (change : Change) : M unit := λ st,
  let '(w, answer) := send r (daemon st) in
  match answer with
  | Ok _ => ({| daemon := w; sent := r :: sent st; changes := changes st ++ [change] |}, Ok tt)
  | Err e => ({| daemon := w; sent := r :: sent st; changes := changes st |}, Err (Wrapf format [] e))
  end.

Definition change (kind name action : string) : Change := {| Kind := kind; Change_Name := name; Change_Action := action |}.

(** ** The server *)

Definition requiredExtensions : list string :=
  ["instance_nic_bridged_port_isolation"; "instances_scriptlet_get_instances_count"; "network_acl"; "network_bridge_acl";
   "projects_networks_restricted_access"; "projects_restricted_backups_and_snapshots"; "projects_restrictions"; "storage_lvm_use_thinpool";
   "virtual-machines"].

Definition TrimPrefix (s pre : string) : string := default s (CutPrefix s pre).

Definition verifyServer (server : serverState) (wantedVersion : string) : result unit :=
  let wanted := TrimPrefix wantedVersion "v" in
  fail_if (negb (bool_decide (Auth server = "trusted"))) (Errorf "incus local API is not trusted" []);;
  fail_if (negb (bool_decide (Environment_Server server = "incus"))) (Errorf "expected incus server, got %q" [Environment_Server server]);;
  fail_if (negb (bool_decide (ServerVersion server = wanted)))
    (Errorf "incus server version %q does not match pinned %q" [ServerVersion server; wanted]);;
  fail_if (negb (Contains (Environment_Driver server) "qemu")) (Errorf "incus server does not advertise the QEMU VM driver" []);;
  fail_if (negb (bool_decide ("lvm" ∈ StorageSupportedDrivers server))) (Errorf "incus server does not advertise the LVM storage driver" []);;
  let missing := List.filter (λ extension, negb (bool_decide (extension ∈ APIExtensions server))) requiredExtensions in
  fail_if (negb (bool_decide (missing = []))) (Errorf "incus server lacks required API extensions: %s" missing).

(** A key of a map of strings; an absent one reads as the empty text. *)
Definition config_at (m : gmap string string) (key : string) : string := default "" (m !! key).

Definition https_address : string := "core.https_address".

(** The configuration to send, and whether it differs from the server's. *)
Definition desired_address (server : serverState) (plan : Plan) : result (gmap string string * bool) :=
  if bool_decide (config_at (Server_Config server) https_address = Plan_APIAddress plan) then Ok (Server_Config server, false)
  else
    fail_if (ServerClustered server)
      (Errorf "clustered member %q is bound to %q but this configuration declares %q; change incus.cluster.api_address rather than rebinding a live cluster member"
         [ServerName server; config_at (Server_Config server) https_address; Plan_APIAddress plan]);;
    Ok (<[https_address := Plan_APIAddress plan]> (Server_Config server), true).

Definition desired_key (acc : gmap string string * bool) (kv : string * string) : result (gmap string string * bool) :=
  let '(key, value) := kv in
  fail_if (bool_decide (key = "") || bool_decide (value = "")) (Errorf "Incus server desired config is incomplete" []);;
  if bool_decide (config_at acc.1 key = value) then Ok acc else Ok (<[key := value]> acc.1, true).

Definition desired_server (server : serverState) (plan : Plan) : result (gmap string string * bool) :=
  addressed ← desired_address server plan; foldM desired_key (map_to_list (ServerConfig plan)) addressed.

(** ** Storage: created, never changed *)

Definition named {A} (name_of : A → string) (name : string) (xs : list A) : option A := List.find (λ x, bool_decide (name_of x = name)) xs.

Definition ensureStorage (desired : Storage) (current : list storageState) : M unit :=
  match named Stored_Name (Storage_Name desired) current with
  | Some storage =>
      refuse_if (negb (bool_decide (Stored_Driver storage = Storage_Driver desired)))
        (Errorf "storage pool %q already exists with driver %q, expected %q" [Storage_Name desired; Stored_Driver storage; Storage_Driver desired]);;
      lift (forM (map_to_list (Storage_Config desired)) (λ kv,
        fail_if (negb (bool_decide (config_at (Stored_Config storage) kv.1 = kv.2)))
          (Errorf "storage pool %q config %q is %q, expected %q; refusing in-place storage mutation"
             [Storage_Name desired; kv.1; config_at (Stored_Config storage) kv.1; kv.2])))
  | None => mutate "create storage pool %q: %w" (PostStorage desired) (change "storage-pool" (Storage_Name desired) "create")
  end.

(** ** ACLs *)

Definition acl_equal (acl : aclState) (desired : ACL) : bool :=
  bool_decide (aclState_Description acl = ACL_Description desired) && bool_decide (aclState_Config acl = ACL_Config desired)
  && bool_decide (aclState_Ingress acl = Ingress desired) && bool_decide (aclState_Egress acl = Egress desired).

Definition ensureACL (current : list aclState) (desired : ACL) : M unit :=
  match named aclState_Name (ACL_Name desired) current with
  | Some acl =>
      if acl_equal acl desired then mret tt
      else mutate "update network ACL %q: %w" (PutACL desired) (change "network-acl" (ACL_Name desired) "update")
  | None => mutate "create network ACL %q: %w" (PostACL desired) (change "network-acl" (ACL_Name desired) "create")
  end.

Fixpoint each {A} (body : A → M unit) (xs : list A) : M unit :=
  match xs with [] => mret tt | x :: xs => body x;; each body xs end.

(** ** The bridge *)

Definition bridge_description : string := "Isolated public-egress bridge for disposable GitHub Actions VMs".
Definition retired_keys : list string :=
  ["security.acls"; "security.acls.default.egress.action"; "security.acls.default.ingress.action"].

Definition retire_key (desired : gmap string string) (acc : gmap string string * bool) (key : string) : gmap string string * bool :=
  if negb (bool_decide (is_Some (desired !! key))) && bool_decide (is_Some (acc.1 !! key)) then (delete key acc.1, true) else acc.
Definition overlay_key (acc : gmap string string * bool) (kv : string * string) : gmap string string * bool :=
  if bool_decide (config_at acc.1 kv.1 = kv.2) then acc else (<[kv.1 := kv.2]> acc.1, true).

(** The merged configuration, and whether the bridge changes. *)
Definition merged_network (network : networkState) (desired : gmap string string) : gmap string string * bool :=
  foldl overlay_key
    (foldl (retire_key desired) (Bridge_Config network, negb (bool_decide (Bridge_Description network = bridge_description))) retired_keys)
    (map_to_list desired).

Definition ensureNetwork (desired : Network_Plan) (current : list networkState) : M unit :=
  match named Bridge_Name (Network_Name desired) current with
  | Some network =>
      refuse_if (negb (Managed network)) (Errorf "network name %q collides with an unmanaged host interface" [Network_Name desired]);;
      refuse_if (negb (bool_decide (Bridge_Type network = Network_Type desired)))
        (Errorf "network %q already exists with type %q, expected %q" [Network_Name desired; Bridge_Type network; Network_Type desired]);;
      let '(merged, changed) := merged_network network (Network_Config desired) in
      if negb changed then mret tt
      else mutate "update network %q: %w" (PutNetwork (Network_Name desired) merged) (change "network" (Network_Name desired) "update")
  | None => mutate "create network %q: %w" (PostNetwork desired) (change "network" (Network_Name desired) "create")
  end.

(** ** The project *)

Definition ensureProject (desired : Project_Plan) (current : list projectState) : M unit :=
  match named ProjectState_Name (Project_Name desired) current with
  | Some project =>
      if bool_decide (ProjectState_Description project = Project_Description desired) && bool_decide (ProjectState_Config project = Project_Config desired)
      then mret tt
      else mutate "update project %q: %w" (PutProject desired) (change "project" (Project_Name desired) "update")
  | None => mutate "create project %q: %w" (PostProject desired) (change "project" (Project_Name desired) "create")
  end.

(** ** Profiles *)

Definition firstInstanceUsingProfile (instances : list instanceState) (profile : string) : string :=
  match List.find (λ i, bool_decide (profile ∈ instanceState_Profiles i)) instances with Some i => instanceState_Name i | None => "" end.

Definition hasProfile (profiles : list Profile) (name : string) : bool := existsb (λ f, bool_decide (Profile_Name f = name)) profiles.

(** A managed profile that is not part of the plan. *)
Definition stray_profile (desired : list Profile) (f : profileState) : bool :=
  HasPrefix (config_at (profileState_Config f) "user.nddev.pool") "nddev-" && negb (hasProfile desired (profileState_Name f)).

Definition profile_equal (f : profileState) (desired : Profile) : bool :=
  bool_decide (profileState_Description f = Profile_Description desired) && bool_decide (profileState_Config f = Profile_Config desired)
  && bool_decide (profileState_Devices f = Devices desired).

(** The map by name keeps the last profile of a name. *)
Definition ensureProfile (project : string) (current : list profileState) (instances : list instanceState) (desired : Profile) : M unit :=
  match named profileState_Name (Profile_Name desired) (rev current) with
  | Some f =>
      if profile_equal f desired then mret tt
      else
        let instance := firstInstanceUsingProfile instances (Profile_Name desired) in
        refuse_if (negb (bool_decide (instance = "")))
          (Errorf "managed profile %q is used by instance %q; refusing live update until the profile drains" [Profile_Name desired; instance]);;
        mutate "update profile %q: %w" (PutProfile project desired) (change "profile" (Profile_Name desired) "update")
  | None => mutate "create profile %q: %w" (PostProfile project desired) (change "profile" (Profile_Name desired) "create")
  end.

Definition ensureProfiles (project : string) (desired : list Profile) (current : list profileState) (instances : list instanceState) : M unit :=
  match List.find (stray_profile desired) current with
  | Some f => refuse (Errorf "managed profile %q exists outside the selected pilot set; refusing implicit deletion" [profileState_Name f])
  | None => each (ensureProfile project current instances) desired
  end.

(** ** The whole reconciliation *)

(** In a cluster the pool is read again as this member sees it. *)
Definition member_view (server : serverState) (plan : Plan) (storages : list storageState) : M (list storageState) :=
  if ServerClustered server then
    refuse_if (bool_decide (ServerName server = "")) (Errorf "clustered Incus did not report its member name" []);;
    member ← get "read storage pool %q on member %q: %w" (get_storage (Storage_Name (Plan_Storage plan)) (ServerName server));
    mret ((λ s, if bool_decide (Stored_Name s = Storage_Name (Plan_Storage plan)) then member else s) <$> storages)
  else mret storages.

(** Everything but the server's configuration. *)
Definition ensure_resources (plan : Plan) (server : serverState) : M unit :=
  storages ← get "list Incus storage pools: %w" get_storages;
  storages ← member_view server plan storages;
  ensureStorage (Plan_Storage plan) storages;;
  acls ← get "list Incus network ACLs: %w" get_acls;
  ensureACL acls (Plan_ACL plan);;
  each (ensureACL acls) (PoolACLs plan);;
  networks ← get "list Incus networks: %w" get_networks;
  ensureNetwork (Plan_Network plan) networks;;
  projects ← get "list Incus projects: %w" get_projects;
  ensureProject (Plan_Project plan) projects;;
  profiles ← get "list Incus profiles: %w" (get_profiles (Project_Name (Plan_Project plan)));
  instances ← get "list Incus instances before profile reconciliation: %w" (get_instances (Project_Name (Plan_Project plan)));
  ensureProfiles (Project_Name (Plan_Project plan)) (Profiles plan) profiles instances.

Definition apply_plan (plan : Plan) : M unit :=
  server ← get "inspect Incus server: %w" get_server;
  lift (verifyServer server (Plan_Version plan));;
  config ← lift (desired_server server plan);
  ensure_resources plan server;;
  if (config.2 : bool) then mutate "update Incus server configuration: %w" (PutServer config.1) (change "server" "cluster" "update") else mret tt.

(** An error leaves an empty report. *)
Definition Apply (plan : Plan) (w : W) : W * list Request * result Result :=
  let '(st, r) := apply_plan plan {| daemon := w; sent := []; changes := [] |} in
  (daemon st, sent st, _ ← r; Ok {| Applied := true; Changes := changes st |}).

End reconcile.
