(* ===== verification/IncusReconcileFacts.v ===== *)
(** * Facts about reconciliation runs

    What a run sends, whatever the daemon answers, and the laws of a daemon that
    stores what it is sent, under which every step settles what it is about. *)

From S2P Require Import Prelude Tenant PressureGate ProviderRetry NetIP FleetConfig IncusPlan IncusReconcile.

Local Open Scope Z_scope.
Local Open Scope go_scope.

(** ** What a run sends *)

Section sends.
Context {W : Type} `{IncusAPI W}.

Implicit Types st : Run_State (W := W).

#[local] Existing Instances M_ret M_bind.

Lemma run_bind_Ok {A B} (m : M A) (f : A → M B) st st' b :
  (m ≫= f) st = (st', Ok b) → ∃ st1 a, m st = (st1, Ok a) ∧ f a st1 = (st', Ok b).
Proof. unfold mbind, M_bind. destruct (m st) as [st1 [a|e]]; [|done]. eauto. Qed.

Lemma run_lift_Ok {A} (r : result A) st st' a : lift r st = (st', Ok a) → st' = st ∧ r = Ok a.
Proof. unfold lift. by intros [= <- ->]. Qed.

(** Every request a program adds satisfies a predicate. *)
Definition sends {A} (Q : Request → Prop) (m : M A) : Prop := ∀ st, ∃ new, sent (m st).1 = new ++ sent st ∧ Forall Q new.

Lemma sends_ret {A} Q (a : A) : sends Q (mret a).
Proof. intros st. by exists []. Qed.
Lemma sends_lift {A} Q (r : result A) : sends Q (lift r).
Proof. intros st. by exists []. Qed.
Lemma sends_refuse {A} Q e : sends Q (refuse (A := A) e).
Proof. intros st. by exists []. Qed.
Lemma sends_get {A} Q format (query : W → W * result A) : sends Q (get format query).
Proof. intros st. exists []. unfold get. by destruct (query (daemon st)). Qed.
Lemma sends_mutate (Q : Request → Prop) format r ch : Q r → sends Q (mutate format r ch).
Proof.
  intros Hr st. exists [r]. unfold mutate. destruct (send r (daemon st)) as [w [[]|e]]; (split; [done|by constructor]).
Qed.
Lemma sends_bind {A B} Q (m : M A) (f : A → M B) : sends Q m → (∀ a, sends Q (f a)) → sends Q (m ≫= f).
Proof.
  intros Hm Hf st. unfold mbind, M_bind. specialize (Hm st). destruct (m st) as [st1 [a|e]]; simpl in Hm; [|done].
  destruct Hm as (new & Hnew & HQ). destruct (Hf a st1) as (new' & Hnew' & HQ'). exists (new' ++ new).
  rewrite Hnew', Hnew, app_assoc. split; [done|]. by apply Forall_app.
Qed.
Lemma sends_each {A} Q (body : A → M unit) xs : (∀ x, x ∈ xs → sends Q (body x)) → sends Q (each body xs).
Proof.
  induction xs as [|x xs IH]; intros Hb; simpl; [apply sends_ret|]. apply sends_bind; [apply Hb, list_elem_of_here|]. intros _.
  apply IH. intros. by apply Hb, list_elem_of_further.
Qed.

(** ** The configuration of the server *)

Lemma desired_key_Ok acc k v acc' :
  desired_key acc (k, v) = Ok acc' →
  config_at acc'.1 k = v ∧ (∀ k', k' ≠ k → acc'.1 !! k' = acc.1 !! k') ∧ (acc'.2 = false → acc' = acc) ∧ v ≠ "" ∧ k ≠ "".
Proof.
  unfold desired_key. intros H0. apply bind_Ok in H0 as ([] & Hne%fail_if_Ok & H0). apply orb_false_iff in Hne as [Hk Hv].
  apply bool_decide_eq_false in Hk, Hv. case_bool_decide as Heq; injection H0 as <-.
  - done.
  - cbn. split_and!; [|by intros k' ?; rewrite lookup_insert_ne|done|done|done]. unfold config_at. by rewrite lookup_insert_eq.
Qed.

Lemma desired_keys_Ok kvs acc acc' :
  NoDup kvs.*1 → foldM desired_key kvs acc = Ok acc' →
  (∀ k v, (k, v) ∈ kvs → config_at acc'.1 k = v ∧ k ≠ "" ∧ v ≠ "") ∧ (∀ k, k ∉ kvs.*1 → acc'.1 !! k = acc.1 !! k) ∧ (acc'.2 = false → acc' = acc).
Proof.
  revert acc. induction kvs as [|[k v] kvs IH]; intros acc Hnd; simpl.
  { intros [= <-]. split_and!; [by intros ? ? ?%not_elem_of_nil|done..]. }
  inversion_clear Hnd as [|? ? Hnk Hnd']. intros H0. apply bind_Ok in H0 as (acc1 & (Hk & Hother & Hsame & Hv0 & Hk0)%desired_key_Ok & H0).
  destruct (IH acc1 Hnd' H0) as (Hin & Hout & Hf). split_and!.
  - intros k' v' [[= -> ->]|Hin']%elem_of_cons; [|by apply Hin]. split_and!; [|done..]. unfold config_at in *. by rewrite Hout.
  - intros k' [Hne Hk']%not_elem_of_cons. rewrite Hout by done. by apply Hother.
  - intros Hfalse. specialize (Hf Hfalse). subst acc'. by apply Hsame.
Qed.

Lemma desired_address_Ok server plan acc :
  desired_address server plan = Ok acc →
  config_at acc.1 https_address = Plan_APIAddress plan ∧ (∀ k, k ≠ https_address ∨ ServerClustered server = true → acc.1 !! k = Server_Config server !! k) ∧
  (acc.2 = false → acc.1 = Server_Config server).
Proof.
  unfold desired_address. case_bool_decide as Heq; [by intros [= <-]|]. intros H0. apply bind_Ok in H0 as ([] & Hc%fail_if_Ok & <-%Ok_inj). cbn.
  split_and!; [unfold config_at; by rewrite lookup_insert_eq| |done]. intros k [Hk|Hk]; [by rewrite lookup_insert_ne|congruence].
Qed.

(** Keys that neither the plan nor its address name stay as they are, and the
    address of a member of a cluster always does. *)
Lemma desired_server_Ok server plan cfg b :
  desired_server server plan = Ok (cfg, b) → ServerConfig plan !! https_address = None →
  config_at cfg https_address = Plan_APIAddress plan ∧ (∀ k v, ServerConfig plan !! k = Some v → config_at cfg k = v ∧ k ≠ "" ∧ v ≠ "") ∧
  (∀ k, ServerConfig plan !! k = None → k ≠ https_address ∨ ServerClustered server = true → cfg !! k = Server_Config server !! k) ∧
  (b = false → cfg = Server_Config server).
Proof.
  intros H0 Hhttps. unfold desired_server in H0. apply bind_Ok in H0 as (acc & (Ha & Hsame & Hf)%desired_address_Ok & H0).
  apply desired_keys_Ok in H0 as (Hin & Hout & Hf'); [|apply NoDup_fst_map_to_list]. cbn [fst snd] in *.
  assert (∀ k, ServerConfig plan !! k = None → cfg !! k = acc.1 !! k) as Hnone.
  { intros k Hk. apply Hout. intros ((k' & v) & -> & Hkv%elem_of_map_to_list)%list_elem_of_fmap. simpl in Hk. congruence. }
  split_and!.
  - unfold config_at in *. by rewrite Hnone.
  - intros k v Hkv. by apply Hin, elem_of_map_to_list.
  - intros k Hk Hor. rewrite Hnone by done. by apply Hsame.
  - intros ->. specialize (Hf' eq_refl). destruct acc as [acfg ab]. injection Hf' as <- <-. by apply Hf.
Qed.

(** Requests for the resources of a plan. *)
Definition resource_request (plan : Plan) (r : Request) : Prop :=
  match r with
  | PutServer _ => False
  | PostStorage s => s = Plan_Storage plan
  | PostACL a | PutACL a => a ∈ Plan_ACL plan :: PoolACLs plan
  | PostNetwork n => n = Plan_Network plan
  | PutNetwork name config => name = Network_Name (Plan_Network plan)
  | PostProject p | PutProject p => p = Plan_Project plan
  | PostProfile project f | PutProfile project f => project = Project_Name (Plan_Project plan) ∧ f ∈ Profiles plan
  end.

Lemma sends_ensureStorage plan current : sends (resource_request plan) (ensureStorage (Plan_Storage plan) current).
Proof. unfold ensureStorage, refuse_if. destruct (named _ _ _); [apply sends_bind; [|intros _]; apply sends_lift|by apply sends_mutate]. Qed.

Lemma sends_ensureACL plan current a : a ∈ Plan_ACL plan :: PoolACLs plan → sends (resource_request plan) (ensureACL current a).
Proof. intros Ha. unfold ensureACL. destruct (named _ _ _); [destruct (acl_equal _ _); [apply sends_ret|]|]; by apply sends_mutate. Qed.

Lemma sends_ensureNetwork plan current : sends (resource_request plan) (ensureNetwork (Plan_Network plan) current).
Proof.
  unfold ensureNetwork, refuse_if. destruct (named _ _ _); [|by apply sends_mutate]. do 2 (apply sends_bind; [apply sends_lift|intros _]).
  destruct (merged_network _ _) as [merged []]; [by apply sends_mutate|apply sends_ret].
Qed.

Lemma sends_ensureProject plan current : sends (resource_request plan) (ensureProject (Plan_Project plan) current).
Proof. unfold ensureProject. destruct (named _ _ _); [destruct (_ && _); [apply sends_ret|]|]; by apply sends_mutate. Qed.

Definition named_instances (instances : list instanceState) : Prop := ∀ i, i ∈ instances → instanceState_Name i ≠ "".

Lemma unused_spec instances name :
  named_instances instances → firstInstanceUsingProfile instances name = "" → ∀ i, i ∈ instances → name ∉ instanceState_Profiles i.
Proof.
  unfold firstInstanceUsingProfile. intros Hnamed. destruct (List.find _ _) as [j|] eqn:Hf; intros Hn i Hi.
  - apply List.find_some in Hf as [Hin _]. by apply list_elem_of_In, Hnamed in Hin.
  - intros Hp. pose proof (List.find_none _ _ Hf i (proj1 (list_elem_of_In _ _) Hi)) as Hnone. by apply bool_decide_eq_false in Hnone.
Qed.

(** Requests for the planned profiles; changed ones have no listed user. *)
Definition profile_request (project : string) (desired : list Profile) (instances : list instanceState) (r : Request) : Prop :=
  match r with
  | PostProfile project' f => project' = project ∧ f ∈ desired
  | PutProfile project' f => project' = project ∧ f ∈ desired ∧ firstInstanceUsingProfile instances (Profile_Name f) = ""
  | _ => False
  end.

Lemma sends_ensureProfile project desired current instances f :
  f ∈ desired → sends (profile_request project desired instances) (ensureProfile project current instances f).
Proof.
  intros Hf. unfold ensureProfile, refuse_if. destruct (named _ _ _) as [g|]; [|by apply sends_mutate].
  destruct (profile_equal _ _); [apply sends_ret|]. cbv zeta. destruct (bool_decide (firstInstanceUsingProfile _ _ = "")) eqn:Hu; cbn [negb fail_if].
  - apply sends_bind; [apply sends_lift|intros _]. apply sends_mutate. split_and!; [done..|]. by apply bool_decide_eq_true in Hu.
  - intros st. by exists [].
Qed.

Lemma sends_ensureProfiles project desired current instances :
  sends (profile_request project desired instances) (ensureProfiles project desired current instances).
Proof.
  unfold ensureProfiles. destruct (List.find _ _); [apply sends_refuse|]. apply sends_each. intros f Hf. by apply sends_ensureProfile.
Qed.

Lemma sends_weaken {A} (Q Q' : Request → Prop) (m : M A) : (∀ r, Q r → Q' r) → sends Q m → sends Q' m.
Proof. intros HQ Hm st. destruct (Hm st) as (new & ? & ?). exists new. split; [done|]. by eapply Forall_impl. Qed.

Lemma sends_ensure_resources plan server : sends (resource_request plan) (ensure_resources plan server).
Proof.
  unfold ensure_resources. apply sends_bind; [apply sends_get|intros storages].
  apply sends_bind; [|intros view].
  { unfold member_view, refuse_if. destruct (ServerClustered server); [|apply sends_ret]. apply sends_bind; [apply sends_lift|intros _].
    apply sends_bind; [apply sends_get|intros member]. apply sends_ret. }
  apply sends_bind; [apply sends_ensureStorage|intros _]. apply sends_bind; [apply sends_get|intros acls].
  apply sends_bind; [apply sends_ensureACL, list_elem_of_here|intros _].
  apply sends_bind; [apply sends_each; intros a Ha; by apply sends_ensureACL, list_elem_of_further|intros _].
  apply sends_bind; [apply sends_get|intros networks]. apply sends_bind; [apply sends_ensureNetwork|intros _].
  apply sends_bind; [apply sends_get|intros projects]. apply sends_bind; [apply sends_ensureProject|intros _].
  apply sends_bind; [apply sends_get|intros profiles]. apply sends_bind; [apply sends_get|intros insts].
  eapply sends_weaken; [|apply sends_ensureProfiles]. intros []; simpl; tauto.
Qed.

End sends.
