(* ===== verification/IncusConverge.v ===== *)
(** * A daemon that stores what it is sent

    [IncusStore] states the documented behaviour that convergence rests on: a read
    changes nothing and reports the contents, and a request that succeeds replaces
    or adds exactly the object it names. Under these laws every step of a
    reconciliation settles its own object and leaves the others alone. *)

From S2P Require Import Prelude Tenant PressureGate ProviderRetry NetIP FleetConfig IncusPlan IncusReconcile IncusReconcileFacts.

Local Open Scope Z_scope.
Local Open Scope go_scope.

(** ** Contents *)

Record Contents := {
  c_server : serverState;
  c_storages : list storageState;
  c_member : string → string → result storageState;
  c_acls : list aclState;
  c_networks : list networkState;
  c_projects : list projectState;
  c_profiles : string → list profileState;
  c_instances : string → list instanceState;
}.

Definition with_server (s : serverState) (c : Contents) : Contents := {|
  c_server := s; c_storages := c_storages c; c_member := c_member c; c_acls := c_acls c; c_networks := c_networks c;
  c_projects := c_projects c; c_profiles := c_profiles c; c_instances := c_instances c |}.
Definition with_storages (xs : list storageState) (c : Contents) : Contents := {|
  c_server := c_server c; c_storages := xs; c_member := c_member c; c_acls := c_acls c; c_networks := c_networks c;
  c_projects := c_projects c; c_profiles := c_profiles c; c_instances := c_instances c |}.
Definition with_acls (xs : list aclState) (c : Contents) : Contents := {|
  c_server := c_server c; c_storages := c_storages c; c_member := c_member c; c_acls := xs; c_networks := c_networks c;
  c_projects := c_projects c; c_profiles := c_profiles c; c_instances := c_instances c |}.
Definition with_networks (xs : list networkState) (c : Contents) : Contents := {|
  c_server := c_server c; c_storages := c_storages c; c_member := c_member c; c_acls := c_acls c; c_networks := xs;
  c_projects := c_projects c; c_profiles := c_profiles c; c_instances := c_instances c |}.
Definition with_projects (xs : list projectState) (c : Contents) : Contents := {|
  c_server := c_server c; c_storages := c_storages c; c_member := c_member c; c_acls := c_acls c; c_networks := c_networks c;
  c_projects := xs; c_profiles := c_profiles c; c_instances := c_instances c |}.
Definition with_profiles (f : string → list profileState) (c : Contents) : Contents := {|
  c_server := c_server c; c_storages := c_storages c; c_member := c_member c; c_acls := c_acls c; c_networks := c_networks c;
  c_projects := c_projects c; c_profiles := f; c_instances := c_instances c |}.

Definition with_config (config : gmap string string) (s : serverState) : serverState := {|
  APIExtensions := APIExtensions s; Auth := Auth s; Server_Config := config; Environment_Driver := Environment_Driver s;
  Environment_Server := Environment_Server s; ServerName := ServerName s; ServerClustered := ServerClustered s; ServerVersion := ServerVersion s;
  StorageSupportedDrivers := StorageSupportedDrivers s |}.

(** ** The effect of a request *)

Definition replace {A} (name_of : A → string) (x : A) (xs : list A) : list A := (λ y, if bool_decide (name_of y = name_of x) then x else y) <$> xs.

Definition acl_state (a : ACL) : aclState := {|
  aclState_Name := ACL_Name a; aclState_Description := ACL_Description a; aclState_Config := ACL_Config a; aclState_Ingress := Ingress a;
  aclState_Egress := Egress a |}.
Definition project_state (p : Project_Plan) : projectState := {|
  ProjectState_Name := Project_Name p; ProjectState_Description := Project_Description p; ProjectState_Config := Project_Config p |}.
Definition profile_state (f : Profile) : profileState := {|
  profileState_Name := Profile_Name f; profileState_Description := Profile_Description f; profileState_Config := Profile_Config f;
  profileState_Devices := Devices f |}.
Definition storage_state (s : Storage) : storageState := {|
  Stored_Name := Storage_Name s; Stored_Description := "Bounded loop-backed LVM thin pool for the disposable VM pilot"; Stored_Driver := Storage_Driver s;
  Stored_Config := Storage_Config s |}.
Definition network_state (n : Network_Plan) : networkState := {|
  Bridge_Name := Network_Name n; Bridge_Description := bridge_description; Bridge_Type := Network_Type n; Managed := true;
  Bridge_Config := Network_Config n |}.
(** An update of a network keeps its type. *)
Definition reconfigure (name : string) (config : gmap string string) (n : networkState) : networkState :=
  if bool_decide (Bridge_Name n = name)
  then {| Bridge_Name := name; Bridge_Description := bridge_description; Bridge_Type := Bridge_Type n; Managed := Managed n; Bridge_Config := config |}
  else n.

Definition in_project (project : string) (f : list profileState → list profileState) (c : Contents) : Contents :=
  with_profiles (λ q, if bool_decide (q = project) then f (c_profiles c q) else c_profiles c q) c.

Definition stored (r : Request) (c : Contents) : Contents :=
  match r with
  | PutServer config => with_server (with_config config (c_server c)) c
  | PostStorage s => with_storages (c_storages c ++ [storage_state s]) c
  | PostACL a => with_acls (c_acls c ++ [acl_state a]) c
  | PutACL a => with_acls (replace aclState_Name (acl_state a) (c_acls c)) c
  | PostNetwork n => with_networks (c_networks c ++ [network_state n]) c
  | PutNetwork name config => with_networks (reconfigure name config <$> c_networks c) c
  | PostProject p => with_projects (c_projects c ++ [project_state p]) c
  | PutProject p => with_projects (replace ProjectState_Name (project_state p) (c_projects c)) c
  | PostProfile project f => in_project project (λ fs, fs ++ [profile_state f]) c
  | PutProfile project f => in_project project (replace profileState_Name (profile_state f)) c
  end.

Class IncusStore (W : Type) `{IncusAPI W} := {
  contents : W → Contents;
  reads_server w : get_server w = (w, Ok (c_server (contents w)));
  reads_storages w : get_storages w = (w, Ok (c_storages (contents w)));
  reads_storage pool target w : get_storage pool target w = (w, c_member (contents w) pool target);
  reads_acls w : get_acls w = (w, Ok (c_acls (contents w)));
  reads_networks w : get_networks w = (w, Ok (c_networks (contents w)));
  reads_projects w : get_projects w = (w, Ok (c_projects (contents w)));
  reads_profiles project w : get_profiles project w = (w, Ok (c_profiles (contents w) project));
  reads_instances project w : get_instances project w = (w, Ok (c_instances (contents w) project));
  stores r w w' : send r w = (w', Ok tt) → contents w' = stored r (contents w);
  member_listed w pool target s : c_member (contents w) pool target = Ok s →
    Stored_Name s = pool ∧ is_Some (named Stored_Name pool (c_storages (contents w)));
}.

(** ** Looking objects up by name *)

Section lookups.
Context {A : Type} (name_of : A → string).

Lemma named_app n xs x :
  named name_of n (xs ++ [x]) = match named name_of n xs with Some y => Some y | None => if bool_decide (name_of x = n) then Some x else None end.
Proof. unfold named. induction xs as [|y xs IH]; simpl; [done|]. destruct (bool_decide (name_of y = n)); [done|apply IH]. Qed.

Lemma named_map n (g : A → A) xs : (∀ x, name_of (g x) = name_of x) → named name_of n (g <$> xs) = g <$> named name_of n xs.
Proof. unfold named. intros Hg. induction xs as [|y xs IH]; simpl; [done|]. rewrite Hg. destruct (bool_decide (name_of y = n)); [done|apply IH]. Qed.

Lemma named_Some n xs x : named name_of n xs = Some x → x ∈ xs ∧ name_of x = n.
Proof. intros [Hin Hb]%List.find_some. split; [by apply list_elem_of_In|by apply bool_decide_eq_true in Hb]. Qed.

Lemma named_replace n x xs :
  named name_of n (replace name_of x xs) =
  match named name_of n xs with Some y => Some (if bool_decide (name_of x = n) then x else y) | None => None end.
Proof.
  unfold replace. rewrite named_map.
  - destruct (named name_of n xs) as [y|] eqn:Hn; [|done]. apply named_Some in Hn as [_ Hy]. simpl. f_equal. rewrite Hy. by repeat case_bool_decide; subst.
  - intros y. by case_bool_decide.
Qed.

Lemma replace_rev x xs : rev (replace name_of x xs) = replace name_of x (rev xs).
Proof. unfold replace. apply eq_sym, List.map_rev. Qed.

Lemma named_cons n x xs : named name_of n (x :: xs) = if bool_decide (name_of x = n) then Some x else named name_of n xs.
Proof. done. Qed.

End lookups.

(** ** Loops over named objects *)

Section store.
Context {W : Type} `{HA : IncusAPI W} `{HS : !IncusStore W}.
#[local] Existing Instances M_ret M_bind.
Implicit Types st : Run_State (W := W).

Abbreviation at_ st := (contents (daemon st)).

Lemma mutate_Ok format r ch st st' : mutate format r ch st = (st', Ok tt) → at_ st' = stored r (at_ st).
Proof.
  unfold mutate. destruct (send r (daemon st)) as [w [[]|e]] eqn:Hs; [|done]. intros [= <-]. by apply stores.
Qed.

Lemma get_daemon {A} format (query : W → W * result A) st st' a :
  get format query st = (st', Ok a) → (∀ w, (query w).1 = w) → st' = st ∧ (query (daemon st)).2 = Ok a.
Proof.
  unfold get. intros Hg Hq. specialize (Hq (daemon st)). destruct (query (daemon st)) as [w r]. simpl in *. subst w. injection Hg as <- Hr.
  apply wrap_err_Ok in Hr. split; [by destruct st|done].
Qed.

Section collection.
Context {A S : Type} (key : A → string) (settled : S → A → bool) (look : Contents → string → option S) (frame : Contents → Contents → Prop).
Context `{!Reflexive frame} `{!Transitive frame} (cur : string → option S) (body : A → M (W := W) unit).

(** One turn, whose decision is based on an earlier listing of its object. *)
Context (all : list A).
Hypothesis turn : ∀ d st st',
  d ∈ all → look (at_ st) (key d) = cur (key d) → body d st = (st', Ok tt) →
  frame (at_ st) (at_ st') ∧ (∃ s, look (at_ st') (key d) = Some s ∧ settled s d = true) ∧
  ∀ n, n ≠ key d → look (at_ st') n = look (at_ st) n.

Lemma turns_in ds st st' :
  ds ⊆ all → NoDup (key <$> ds) → (∀ d, d ∈ ds → look (at_ st) (key d) = cur (key d)) → each body ds st = (st', Ok tt) →
  frame (at_ st) (at_ st') ∧ (∀ d, d ∈ ds → ∃ s, look (at_ st') (key d) = Some s ∧ settled s d = true) ∧
  ∀ n, n ∉ key <$> ds → look (at_ st') n = look (at_ st) n.
Proof.
  revert st. induction ds as [|d ds IH]; intros st Hsub Hnd Hcur; simpl.
  { intros [= <-]. split_and!; [done|by intros ? ?%not_elem_of_nil|done]. }
  simpl in Hnd. inversion_clear Hnd as [|? ? Hnew Hnd']. intros Hrun. apply run_bind_Ok in Hrun as (st1 & [] & H1 & H2).
  destruct (turn d st st1) as (Hf1 & (s & Hs & Heq) & Hother); [apply Hsub, list_elem_of_here|apply Hcur, list_elem_of_here|done|].
  destruct (IH st1) as (Hf2 & Hall & Hout); [set_solver|done| |done|].
  { intros d' Hd'. rewrite Hother; [by apply Hcur, list_elem_of_further|]. intros Hk. apply Hnew. rewrite <- Hk. by apply list_elem_of_fmap_2. }
  split_and!; [by etrans| |].
  - intros d' [->|Hd']%elem_of_cons; [|by apply Hall]. exists s. split; [|done]. by rewrite Hout.
  - intros n [Hn Hn']%not_elem_of_cons. rewrite Hout by done. by apply Hother.
Qed.
End collection.

(** ** Single steps *)

Definition acls_only (c c' : Contents) : Prop := c' = with_acls (c_acls c') c.
#[export] Instance acls_only_refl : Reflexive acls_only.
Proof. by intros []. Qed.
#[export] Instance acls_only_trans : Transitive acls_only.
Proof. unfold acls_only. intros [] [] [] [= ] [= ]; simpl in *; subst. done. Qed.

Lemma acl_equal_state a : acl_equal (acl_state a) a = true.
Proof. unfold acl_equal. cbn. by rewrite !bool_decide_eq_true_2. Qed.

Lemma ensureACL_turn current a st st' :
  named aclState_Name (ACL_Name a) (c_acls (at_ st)) = named aclState_Name (ACL_Name a) current → ensureACL current a st = (st', Ok tt) →
  acls_only (at_ st) (at_ st') ∧
  (∃ s, named aclState_Name (ACL_Name a) (c_acls (at_ st')) = Some s ∧ acl_equal s a = true) ∧
  ∀ n, n ≠ ACL_Name a → named aclState_Name n (c_acls (at_ st')) = named aclState_Name n (c_acls (at_ st)).
Proof.
  unfold ensureACL. intros Hcur. rewrite <- Hcur. destruct (named _ (ACL_Name a) (c_acls (at_ st))) as [s|] eqn:Hs.
  - destruct (acl_equal s a) eqn:Heq; [intros [= <-]; split_and!; [done|by exists s|done]|]. intros ->%mutate_Ok. cbn [stored with_acls c_acls]. split_and!; [done| |].
    + exists (acl_state a). rewrite named_replace, Hs. rewrite bool_decide_eq_true_2 by done. split; [done|apply acl_equal_state].
    + intros n Hn. rewrite named_replace. rewrite bool_decide_eq_false_2 by (cbn; congruence). by destruct (named _ n _).
  - intros ->%mutate_Ok. cbn [stored with_acls c_acls]. split_and!; [done| |].
    + exists (acl_state a). rewrite named_app, Hs. rewrite bool_decide_eq_true_2 by done. split; [done|apply acl_equal_state].
    + intros n Hn. rewrite named_app. rewrite bool_decide_eq_false_2 by (cbn; congruence). by destruct (named _ n _).
Qed.

(** Storage *)

Definition storage_matches (s : storageState) (d : Storage) : Prop :=
  Stored_Driver s = Storage_Driver d ∧ ∀ k v, Storage_Config d !! k = Some v → config_at (Stored_Config s) k = v.

Lemma storage_checks s d :
  forM (map_to_list (Storage_Config d)) (λ kv, fail_if (negb (bool_decide (config_at (Stored_Config s) kv.1 = kv.2)))
    (Errorf "storage pool %q config %q is %q, expected %q; refusing in-place storage mutation"
       [Storage_Name d; kv.1; config_at (Stored_Config s) kv.1; kv.2])) = Ok tt ↔
  ∀ k v, Storage_Config d !! k = Some v → config_at (Stored_Config s) k = v.
Proof.
  rewrite forM_Ok. split.
  - intros Hall k v Hkv%elem_of_map_to_list. specialize (Hall _ Hkv). apply fail_if_Ok, negb_false_iff, bool_decide_eq_true in Hall. done.
  - intros Hall [k v] Hkv%elem_of_map_to_list. apply fail_if_Ok, negb_false_iff, bool_decide_eq_true. by apply Hall.
Qed.

Lemma ensureStorage_Ok d current st st' :
  ensureStorage d current st = (st', Ok tt) →
  match named Stored_Name (Storage_Name d) current with
  | Some s => st' = st ∧ storage_matches s d
  | None => at_ st' = stored (PostStorage d) (at_ st)
  end.
Proof.
  unfold ensureStorage. destruct (named _ _ current) as [s|]; [|apply mutate_Ok]. intros Hrun. apply run_bind_Ok in Hrun as (st1 & [] & H1 & H2).
  apply run_lift_Ok in H1 as [-> Hd%fail_if_Ok]. apply run_lift_Ok in H2 as [-> Hc]. apply negb_false_iff, bool_decide_eq_true in Hd.
  split; [done|]. split; [done|]. by apply storage_checks.
Qed.

Lemma ensureStorage_silent d current s st :
  named Stored_Name (Storage_Name d) current = Some s → storage_matches s d → ensureStorage d current st = (st, Ok tt).
Proof.
  intros Hs [Hd Hc]. unfold ensureStorage. rewrite Hs. unfold refuse_if, lift, mbind, M_bind. rewrite bool_decide_eq_true_2 by done. cbn [negb fail_if].
  by rewrite (proj2 (storage_checks s d) Hc).
Qed.

Lemma storage_state_matches d : storage_matches (storage_state d) d.
Proof. split; [done|]. intros k v Hk. unfold config_at. cbn. by rewrite Hk. Qed.

(** The bridge *)

Definition network_settled (config desired : gmap string string) : Prop :=
  (∀ k, k ∈ retired_keys → desired !! k = None → config !! k = None) ∧ ∀ k v, desired !! k = Some v → config_at config k = v.

Lemma retire_settled desired keys acc :
  (∀ k, k ∈ keys → desired !! k = None → (foldl (retire_key desired) acc keys).1 !! k = None) ∧
  (∀ k, acc.1 !! k = None → (foldl (retire_key desired) acc keys).1 !! k = None) ∧
  ((foldl (retire_key desired) acc keys).2 = false → foldl (retire_key desired) acc keys = acc).
Proof.
  revert acc. induction keys as [|key keys IH]; intros acc; simpl; [split_and!; [by intros ? ?%not_elem_of_nil|done..]|].
  destruct (IH (retire_key desired acc key)) as (Hin & Hkeep & Hf).
  assert (∀ k, acc.1 !! k = None → (retire_key desired acc key).1 !! k = None) as Hstep.
  { intros k Hk. unfold retire_key. destruct (_ && _); [|done]. cbn. by apply lookup_delete_None; right. }
  split_and!.
  - intros k [->|Hk]%elem_of_cons Hd; [|by apply Hin]. apply Hkeep. unfold retire_key. rewrite bool_decide_eq_false_2 by (rewrite Hd; by intros [? ?]).
    cbn [negb andb]. case_bool_decide as Hs; [cbn; apply lookup_delete_eq|]. by apply eq_None_not_Some.
  - intros k Hk. by apply Hkeep, Hstep.
  - intros Hfalse. specialize (Hf Hfalse). rewrite Hf in Hfalse |- *. revert Hfalse. unfold retire_key. destruct (_ && _); [done|done].
Qed.

Lemma overlay_settled kvs acc :
  NoDup kvs.*1 →
  (∀ k v, (k, v) ∈ kvs → config_at (foldl overlay_key acc kvs).1 k = v) ∧
  (∀ k, k ∉ kvs.*1 → (foldl overlay_key acc kvs).1 !! k = acc.1 !! k) ∧
  ((foldl overlay_key acc kvs).2 = false → foldl overlay_key acc kvs = acc).
Proof.
  revert acc. induction kvs as [|[k v] kvs IH]; intros acc Hnd; simpl; [split_and!; [by intros ? ? ?%not_elem_of_nil|done..]|].
  inversion_clear Hnd as [|? ? Hnew Hnd']. destruct (IH (overlay_key acc (k, v)) Hnd') as (Hin & Hout & Hf).
  assert (config_at (overlay_key acc (k, v)).1 k = v ∧ (∀ k', k' ≠ k → (overlay_key acc (k, v)).1 !! k' = acc.1 !! k')
          ∧ ((overlay_key acc (k, v)).2 = false → overlay_key acc (k, v) = acc)) as (Hk & Hother & Hstep).
  { unfold overlay_key. cbn [fst snd]. case_bool_decide as Heq; [done|]. cbn. split_and!; [unfold config_at; by rewrite lookup_insert_eq| |done].
    intros k' Hk'. by rewrite lookup_insert_ne. }
  split_and!.
  - intros k' v' [[= -> ->]|Hkv]%elem_of_cons; [|by apply Hin]. unfold config_at in *. by rewrite Hout.
  - intros k' [Hne Hk']%not_elem_of_cons. rewrite Hout by done. by apply Hother.
  - intros Hfalse. specialize (Hf Hfalse). rewrite Hf in Hfalse |- *. by apply Hstep.
Qed.

Lemma merged_settled n desired : network_settled (merged_network n desired).1 desired.
Proof.
  unfold merged_network. set (acc := foldl (retire_key desired) _ retired_keys).
  destruct (overlay_settled (map_to_list desired) acc (NoDup_fst_map_to_list desired)) as (Hin & Hout & _). split.
  - intros k Hk Hd. rewrite Hout; [by apply (proj1 (retire_settled desired retired_keys _))|]. intros ((k' & v) & -> & Hkv%elem_of_map_to_list)%list_elem_of_fmap. simpl in Hd. congruence.
  - intros k v Hkv. by apply Hin, elem_of_map_to_list.
Qed.

Lemma merged_unchanged n desired :
  (merged_network n desired).2 = false → Bridge_Description n = bridge_description ∧ (merged_network n desired).1 = Bridge_Config n.
Proof.
  unfold merged_network. set (start := (Bridge_Config n, _)). intros Hfalse.
  apply overlay_settled in Hfalse as Heq; [|apply NoDup_fst_map_to_list]. rewrite Heq in Hfalse |- *.
  apply retire_settled in Hfalse as Heq'. rewrite Heq' in Hfalse |- *. cbn in *. split; [|done].
  by apply negb_false_iff, bool_decide_eq_true in Hfalse.
Qed.

Lemma settled_merged n desired :
  network_settled (Bridge_Config n) desired → Bridge_Description n = bridge_description → merged_network n desired = (Bridge_Config n, false).
Proof.
  intros [Hret Hover] Hd. unfold merged_network. rewrite bool_decide_eq_true_2 by done. cbn [negb].
  assert (∀ keys, (∀ k, k ∈ keys → k ∈ retired_keys) → foldl (retire_key desired) (Bridge_Config n, false) keys = (Bridge_Config n, false)) as Hkeys.
  { induction keys as [|k keys IH]; intros Hk; simpl; [done|]. unfold retire_key at 2. cbn [fst].
    destruct (desired !! k) as [v|] eqn:Hdk; [rewrite (bool_decide_eq_true_2 (is_Some (Some v))) by done|].
    - cbn [negb andb]. apply IH. intros. by apply Hk, list_elem_of_further.
    - rewrite (Hret k (Hk k (list_elem_of_here _ _)) Hdk). rewrite (bool_decide_eq_false_2 (is_Some None)) by (by intros [? ?]). cbn [negb andb].
      apply IH. intros. by apply Hk, list_elem_of_further. }
  rewrite Hkeys by done.
  assert (∀ kvs, (∀ k v, (k, v) ∈ kvs → desired !! k = Some v) → foldl overlay_key (Bridge_Config n, false) kvs = (Bridge_Config n, false)) as Hall.
  { induction kvs as [|[k v] kvs IH]; intros Hk; simpl; [done|]. unfold overlay_key at 2. cbn [fst snd].
    rewrite bool_decide_eq_true_2 by (apply Hover, Hk, list_elem_of_here). apply IH. intros. by apply Hk, list_elem_of_further. }
  apply Hall. intros k v. apply elem_of_map_to_list.
Qed.

Definition bridge_settled (c : Contents) (d : Network_Plan) : Prop :=
  ∃ n, named Bridge_Name (Network_Name d) (c_networks c) = Some n ∧ Managed n = true ∧ Bridge_Type n = Network_Type d ∧
    Bridge_Description n = bridge_description ∧ network_settled (Bridge_Config n) (Network_Config d).

Lemma ensureNetwork_Ok d st st' :
  ensureNetwork d (c_networks (at_ st)) st = (st', Ok tt) →
  at_ st' = with_networks (c_networks (at_ st')) (at_ st) ∧ bridge_settled (at_ st') d.
Proof.
  unfold ensureNetwork. destruct (named _ _ _) as [n|] eqn:Hn.
  - intros Hrun. apply run_bind_Ok in Hrun as (st1 & [] & H1 & Hrun). apply run_lift_Ok in H1 as [-> Hm%fail_if_Ok]. apply negb_false_iff in Hm.
    apply run_bind_Ok in Hrun as (st1 & [] & H1 & Hrun). apply run_lift_Ok in H1 as [-> Ht%fail_if_Ok]. apply negb_false_iff, bool_decide_eq_true in Ht.
    pose proof (merged_settled n (Network_Config d)) as Hset. pose proof (merged_unchanged n (Network_Config d)) as Hun.
    destruct (merged_network n (Network_Config d)) as [merged []]; cbn [negb fst snd] in *.
    + apply mutate_Ok in Hrun as ->. cbn [stored with_networks c_networks]. split; [done|].
      exists (reconfigure (Network_Name d) merged n). apply named_Some in Hn as Hname. destruct Hname as [_ Hname].
      split; [cbn [with_networks c_networks]; rewrite named_map by (intros x; unfold reconfigure; by case_bool_decide); by rewrite Hn|].
      unfold reconfigure. by rewrite bool_decide_eq_true_2.
    + injection Hrun as <-. split; [by destruct (at_ st)|]. destruct (Hun eq_refl) as [Hd Hc]. exists n. rewrite <- Hc. done.
  - intros ->%mutate_Ok. cbn [stored with_networks c_networks]. split; [done|]. exists (network_state d). split_and!; try done.
    + cbn [with_networks c_networks]. rewrite named_app, Hn. by rewrite bool_decide_eq_true_2.
    + split; [done|]. intros k v Hk. unfold config_at. cbn. by rewrite Hk.
Qed.

Lemma ensureNetwork_silent d st : bridge_settled (at_ st) d → ensureNetwork d (c_networks (at_ st)) st = (st, Ok tt).
Proof.
  intros (n & Hn & Hm & Ht & Hd & Hset). unfold ensureNetwork, refuse_if, lift, mbind, M_bind. rewrite Hn, Hm, bool_decide_eq_true_2 by done.
  cbn [negb fail_if]. by rewrite (settled_merged n _ Hset Hd).
Qed.

(** The project *)

Definition project_settled (c : Contents) (d : Project_Plan) : Prop :=
  ∃ p, named ProjectState_Name (Project_Name d) (c_projects c) = Some p ∧ ProjectState_Description p = Project_Description d ∧
    ProjectState_Config p = Project_Config d.

Lemma ensureProject_Ok d st st' :
  ensureProject d (c_projects (at_ st)) st = (st', Ok tt) →
  at_ st' = with_projects (c_projects (at_ st')) (at_ st) ∧ project_settled (at_ st') d.
Proof.
  unfold ensureProject. destruct (named _ _ _) as [p|] eqn:Hp.
  - destruct (_ && _) eqn:Heq.
    + intros [= <-]. apply andb_true_iff in Heq as [H1%bool_decide_eq_true H2%bool_decide_eq_true]. split; [by destruct (at_ st)|by exists p].
    + intros ->%mutate_Ok. cbn [stored with_projects c_projects]. split; [done|]. exists (project_state d). split; [|done]. cbn [with_projects c_projects].
      rewrite named_replace, Hp. by rewrite bool_decide_eq_true_2.
  - intros ->%mutate_Ok. cbn [stored with_projects c_projects]. split; [done|]. exists (project_state d). split; [|done]. cbn [with_projects c_projects].
    rewrite named_app, Hp. by rewrite bool_decide_eq_true_2.
Qed.

Lemma ensureProject_silent d st : project_settled (at_ st) d → ensureProject d (c_projects (at_ st)) st = (st, Ok tt).
Proof. intros (p & Hp & Hd & Hc). unfold ensureProject. by rewrite Hp, !bool_decide_eq_true_2. Qed.

(** Profiles *)

Section profiles.
Context (project : string) (desired : list Profile).

Definition listed (c : Contents) (n : string) : option profileState := named profileState_Name n (rev (c_profiles c project)).

(** Only profiles change, and every profile of the project is an old one or has
    the name of a planned one. *)
Definition profiles_only (c c' : Contents) : Prop :=
  c' = with_profiles (c_profiles c') c ∧
  ∀ g, g ∈ c_profiles c' project → g ∈ c_profiles c project ∨ hasProfile desired (profileState_Name g) = true.
#[local] Instance profiles_only_refl : Reflexive profiles_only.
Proof. intros c. split; [by destruct c|by left]. Qed.
#[local] Instance profiles_only_trans : Transitive profiles_only.
Proof.
  intros c1 c2 c3 [H1 Hp1] [H2 Hp2]. split; [by rewrite H1 in H2|]. intros g [Hg|Hg]%Hp2; [by apply Hp1|by right].
Qed.

Lemma profile_equal_state f : profile_equal (profile_state f) f = true.
Proof. unfold profile_equal. cbn. by rewrite !bool_decide_eq_true_2. Qed.

Lemma hasProfile_In f : f ∈ desired → hasProfile desired (Profile_Name f) = true.
Proof. intros Hf. apply existsb_exists. exists f. split; [by apply list_elem_of_In|by apply bool_decide_eq_true_2]. Qed.

Lemma in_project_same (f : list profileState → list profileState) c : c_profiles (in_project project f c) project = f (c_profiles c project).
Proof. cbn. by rewrite bool_decide_eq_true_2. Qed.

Lemma ensureProfile_turn current instances f st st' :
  f ∈ desired → listed (at_ st) (Profile_Name f) = named profileState_Name (Profile_Name f) (rev current) →
  ensureProfile project current instances f st = (st', Ok tt) →
  profiles_only (at_ st) (at_ st') ∧ (∃ s, listed (at_ st') (Profile_Name f) = Some s ∧ profile_equal s f = true) ∧
  ∀ n, n ≠ Profile_Name f → listed (at_ st') n = listed (at_ st) n.
Proof.
  unfold ensureProfile. intros Hf Hcur. rewrite <- Hcur. destruct (listed (at_ st) (Profile_Name f)) as [s|] eqn:Hs.
  - destruct (profile_equal s f) eqn:Heq; [intros [= <-]; split_and!; [done|by exists s|done]|]. cbv zeta. unfold listed in *.
    intros Hrun. apply run_bind_Ok in Hrun as (st1 & [] & H1 & Hrun). apply run_lift_Ok in H1 as [-> _]. apply mutate_Ok in Hrun as ->.
    cbn [stored]. rewrite !in_project_same, replace_rev. split_and!.
    + split; [done|]. rewrite in_project_same. unfold replace. intros g (y & -> & Hy)%list_elem_of_fmap.
      case_bool_decide; [right; by apply hasProfile_In|by left].
    + exists (profile_state f). rewrite named_replace, Hs. rewrite bool_decide_eq_true_2 by done. split; [done|apply profile_equal_state].
    + intros n Hn. rewrite named_replace. rewrite bool_decide_eq_false_2 by (cbn; congruence). by destruct (named _ n _).
  - intros ->%mutate_Ok. unfold listed in *. cbn [stored]. rewrite !in_project_same, rev_app_distr. split_and!.
    + split; [done|]. rewrite in_project_same. intros g [Hg| ->%list_elem_of_singleton]%elem_of_app; [by left|right]. by apply hasProfile_In.
    + exists (profile_state f). cbn [rev app]. rewrite named_cons. rewrite bool_decide_eq_true_2 by done. split; [done|apply profile_equal_state].
    + intros n Hn. cbn [rev app]. rewrite named_cons. by rewrite bool_decide_eq_false_2 by (cbn; congruence).
Qed.

Definition profiles_settled (c : Contents) : Prop :=
  (∀ f, f ∈ desired → ∃ s, listed c (Profile_Name f) = Some s ∧ profile_equal s f = true) ∧
  List.find (stray_profile desired) (c_profiles c project) = None.

Lemma ensureProfiles_Ok instances st st' :
  NoDup (Profile_Name <$> desired) → ensureProfiles project desired (c_profiles (at_ st) project) instances st = (st', Ok tt) →
  profiles_only (at_ st) (at_ st') ∧ profiles_settled (at_ st').
Proof.
  intros Hnd. unfold ensureProfiles. destruct (List.find _ _) eqn:Hstray; [done|]. intros Hrun.
  assert (∀ ds, ds ⊆ desired → NoDup (Profile_Name <$> ds) →
    each (ensureProfile project (c_profiles (at_ st) project) instances) ds st = (st', Ok tt) →
    profiles_only (at_ st) (at_ st') ∧ ∀ f, f ∈ ds → ∃ s, listed (at_ st') (Profile_Name f) = Some s ∧ profile_equal s f = true) as Hall.
  { intros ds Hds Hnd' Hrun'. clear Hnd Hrun. set (cur := listed (at_ st)). set (current := c_profiles (at_ st) project) in *.
    assert (∀ d st1 st2, d ∈ ds → listed (at_ st1) (Profile_Name d) = cur (Profile_Name d) →
      ensureProfile project current instances d st1 = (st2, Ok tt) → profiles_only (at_ st1) (at_ st2) ∧
      (∃ s, listed (at_ st2) (Profile_Name d) = Some s ∧ profile_equal s d = true) ∧ ∀ n, n ≠ Profile_Name d → listed (at_ st2) n = listed (at_ st1) n) as Hturn.
    { intros d st1 st2 Hd. by apply ensureProfile_turn, Hds. }
    destruct (turns_in Profile_Name profile_equal listed profiles_only cur (ensureProfile project current instances) ds Hturn ds st st') as (? & ? & _); done. }
  destruct (Hall desired) as [Hframe Hset]; [done..|]. split; [done|]. split; [done|]. destruct Hframe as [_ Hnew].
  destruct (List.find (stray_profile desired) (c_profiles (at_ st') project)) as [g|] eqn:Hg; [|done]. exfalso.
  apply List.find_some in Hg as [Hin%list_elem_of_In Hb]. destruct (Hnew g Hin) as [Hold|Hhas].
  - pose proof (List.find_none _ _ Hstray g (proj1 (list_elem_of_In _ _) Hold)). congruence.
  - unfold stray_profile in Hb. rewrite Hhas in Hb. by rewrite andb_false_r in Hb.
Qed.

Lemma ensureProfiles_silent instances st :
  profiles_settled (at_ st) → ensureProfiles project desired (c_profiles (at_ st) project) instances st = (st, Ok tt).
Proof.
  intros [Hset Hstray]. unfold ensureProfiles. rewrite Hstray. assert (∀ ds, ds ⊆ desired →
    each (ensureProfile project (c_profiles (at_ st) project) instances) ds st = (st, Ok tt)) as Hall; [|by apply Hall].
  induction ds as [|f ds IH]; intros Hds; simpl; [done|]. unfold mbind at 1, M_bind at 1. unfold ensureProfile at 1.
  destruct (Hset f) as (s & Hs & Heq); [apply Hds, list_elem_of_here|]. unfold listed in Hs. rewrite Hs, Heq. cbn. apply IH. set_solver.
Qed.

End profiles.

End store.
