(* ===== verification/IncusReconcileClaims.v ===== *)
(** * What reconciliation guarantees

    The order and the targets of its requests, whatever the daemon does; profiles
    in use stay untouched; and on a daemon that stores what it is sent, what one
    run reaches the next one finds. *)

From S2P Require Import Prelude Tenant PressureGate ProviderRetry NetIP FleetConfig FleetConfigFacts IncusPlan IncusPlanFacts IncusReconcile IncusReconcileFacts IncusConverge.

Local Open Scope Z_scope.
Local Open Scope go_scope.

#[local] Existing Instances M_ret M_bind.

(** ** Requests *)

Lemma Apply_requests {W} `{IncusAPI W} plan w w' reqs res server :
  (get_server w).2 = Ok server → Apply plan w = (w', reqs, res) →
  Forall (resource_request plan) reqs ∨
  ∃ cfg rest, reqs = PutServer cfg :: rest ∧ Forall (resource_request plan) rest ∧ desired_server server plan = Ok (cfg, true) ∧
    (is_Ok res = true ∨ ∃ e, res = Err (Wrapf "update Incus server configuration: %w" [] e)).
Proof.
  intros Hserver. unfold Apply, apply_plan. unfold mbind at 1, M_bind at 1, get at 1. destruct (get_server w) as [w1 r1] eqn:Hg. simpl in Hserver. subst r1.
  cbn [daemon wrap_err]. rewrite Hg. cbn [wrap_err sent changes].
  unfold mbind at 1, M_bind at 1, lift at 1. destruct (verifyServer _ _) as [[]|e]; [|intros Heq; simpl in Heq; injection Heq as <- <- <-; by left].
  unfold mbind at 1, M_bind at 1, lift at 1. destruct (desired_server server plan) as [[cfg b]|e] eqn:Hd; [|intros Heq; simpl in Heq; injection Heq as <- <- <-; by left].
  unfold mbind at 1, M_bind at 1. set (st0 := {| daemon := w1; sent := []; changes := [] |}).
  destruct (sends_ensure_resources plan server st0) as (new & Hnew & Hall). rewrite app_nil_r in Hnew.
  destruct (ensure_resources plan server st0) as [st1 [[]|e]]; simpl in Hnew; [|intros Heq; simpl in Heq; injection Heq as <- <- <-; left; by rewrite Hnew].
  cbn [snd fst]. destruct b; [|intros Heq; simpl in Heq; injection Heq as <- <- <-; left; by rewrite Hnew]. unfold mutate. destruct (send (PutServer cfg) (daemon st1)) as [w2 [[]|e]];
    intros Heq; simpl in Heq; injection Heq as <- <- <-; right; exists cfg, new; rewrite Hnew; (split_and!; [done..|]); [by left|right; by exists e].
Qed.

(** Whatever the daemon answers, a run sends requests only for the objects of
    its plan, and the configuration of the server, with the placement scriptlet,
    only as its last request, after everything else succeeded. That request keeps
    every key the plan does not set, and on a member of a cluster the address too. *)
Theorem scheduler_changed_last {W} `{IncusAPI W} plan w w' reqs res server :
  (get_server w).2 = Ok server → ServerConfig plan !! https_address = None → Apply plan w = (w', reqs, res) →
  Forall (resource_request plan) reqs ∨
  ∃ cfg rest, reqs = PutServer cfg :: rest ∧ Forall (resource_request plan) rest ∧
    (∀ k v, ServerConfig plan !! k = Some v → config_at cfg k = v) ∧
    (∀ k, ServerConfig plan !! k = None → k ≠ https_address ∨ ServerClustered server = true → cfg !! k = Server_Config server !! k) ∧
    (is_Ok res = true ∨ ∃ e, res = Err (Wrapf "update Incus server configuration: %w" [] e)).
Proof.
  intros Hserver Hhttps Hrun. destruct (Apply_requests _ _ _ _ _ _ Hserver Hrun) as [?|(cfg & rest & -> & Hall & Hd & Hres)]; [by left|right].
  apply desired_server_Ok in Hd as (_ & Hset & Hkeep & _); [|done]. exists cfg, rest. split_and!; try done. intros k v Hk. by apply Hset.
Qed.

(** A profile that a listed instance uses is never changed, and while a managed
    profile outside the plan exists no profile is. *)
Theorem profiles_in_use_kept {W} `{IncusAPI W} project desired current instances (st st' : Run_State (W := W)) res :
  named_instances instances → ensureProfiles project desired current instances st = (st', res) →
  ∃ new, sent st' = new ++ sent st ∧
    (∀ project' f, PutProfile project' f ∈ new → project' = project ∧ f ∈ desired ∧ ∀ i, i ∈ instances → Profile_Name f ∉ instanceState_Profiles i) ∧
    ((∃ g, g ∈ current ∧ stray_profile desired g = true) → new = []).
Proof.
  intros Hnamed Hrun. destruct (sends_ensureProfiles project desired current instances st) as (new & Hnew & Hall). rewrite Hrun in Hnew. simpl in Hnew.
  exists new. split_and!; [done| |].
  - intros project' f Hin. rewrite Forall_forall in Hall. destruct (Hall _ Hin) as (-> & Hf & Hu). split_and!; [done..|]. by apply unused_spec.
  - intros (g & Hg%list_elem_of_In & Hstray). unfold ensureProfiles in Hrun. destruct (List.find _ current) eqn:Hfind.
    + unfold refuse in Hrun. injection Hrun as <- _. destruct new; [done|]. apply (f_equal length) in Hnew. rewrite length_app in Hnew. simpl in Hnew. lia.
    + pose proof (List.find_none _ _ Hfind g Hg). congruence.
Qed.

(** ** Convergence *)

Section converge.
Context {W : Type} `{HA : IncusAPI W} `{HS : !IncusStore W}.
Implicit Types st : Run_State (W := W).
Abbreviation at_ st := (contents (daemon st)).

Lemma get_reads {A} format (query : W → W * result A) st a : query (daemon st) = (daemon st, Ok a) → get format query st = (st, Ok a).
Proof. unfold get. intros ->. by destruct st. Qed.

Lemma get_Ok {A} format (query : W → W * result A) st st' a r :
  get format query st = (st', Ok a) → query (daemon st) = (daemon st, r) → st' = st ∧ r = Ok a.
Proof. unfold get. intros Hg Hq. rewrite Hq in Hg. injection Hg as <- Hr%wrap_err_Ok. split; [by destruct st|done]. Qed.

Definition storage_view (server : serverState) (plan : Plan) (c : Contents) (view : list storageState) : Prop :=
  if ServerClustered server then
    ServerName server ≠ "" ∧ ∃ member, c_member c (Storage_Name (Plan_Storage plan)) (ServerName server) = Ok member ∧
      view = (λ s, if bool_decide (Stored_Name s = Storage_Name (Plan_Storage plan)) then member else s) <$> c_storages c
  else view = c_storages c.

Lemma member_view_run server plan st st' view :
  member_view server plan (c_storages (at_ st)) st = (st', Ok view) ↔ st' = st ∧ storage_view server plan (at_ st) view.
Proof.
  unfold member_view, storage_view. destruct (ServerClustered server); [|by split; [intros [= <- <-]|intros [-> ->]]]. split.
  - intros Hrun. apply run_bind_Ok in Hrun as (st1 & [] & H1 & Hrun). apply run_lift_Ok in H1 as [-> Hne%fail_if_Ok]. apply bool_decide_eq_false in Hne.
    apply run_bind_Ok in Hrun as (st1 & member & H1 & Hrun).
    pose proof (get_Ok _ _ _ _ _ _ H1 (reads_storage _ _ _)) as [-> Hm]. injection Hrun as <- <-. split; [done|]. split; [done|]. by exists member.
  - intros (-> & Hne & member & Hm & ->). unfold refuse_if, mbind, M_bind, lift. rewrite bool_decide_eq_false_2 by done. cbn [fail_if].
    rewrite (get_reads _ _ _ member) by (by rewrite reads_storage, Hm). done.
Qed.

Record resources_settled (plan : Plan) (server : serverState) (c : Contents) : Prop := {
  settled_storage : ∃ view s, storage_view server plan c view ∧ named Stored_Name (Storage_Name (Plan_Storage plan)) view = Some s ∧
    storage_matches s (Plan_Storage plan);
  settled_acls : ∀ a, a ∈ Plan_ACL plan :: PoolACLs plan → ∃ s, named aclState_Name (ACL_Name a) (c_acls c) = Some s ∧ acl_equal s a = true;
  settled_bridge : bridge_settled c (Plan_Network plan);
  settled_project : project_settled c (Plan_Project plan);
  settled_profiles : profiles_settled (Project_Name (Plan_Project plan)) (Profiles plan) c;
}.

Definition distinct_names (plan : Plan) : Prop :=
  NoDup (ACL_Name <$> Plan_ACL plan :: PoolACLs plan) ∧ NoDup (Profile_Name <$> Profiles plan).

(** The pool exists, or the run created it on a host of its own. *)
Lemma storage_step server plan st view st' :
  storage_view server plan (at_ st) view → ensureStorage (Plan_Storage plan) view st = (st', Ok tt) →
  at_ st' = with_storages (c_storages (at_ st')) (at_ st) ∧
  ∃ view' s, storage_view server plan (at_ st') view' ∧ named Stored_Name (Storage_Name (Plan_Storage plan)) view' = Some s ∧
    storage_matches s (Plan_Storage plan).
Proof.
  intros Hview Hrun. apply ensureStorage_Ok in Hrun. destruct (named _ _ view) as [s|] eqn:Hs.
  - destruct Hrun as [-> Hm]. split; [by destruct (at_ st)|]. by exists view, s.
  - unfold storage_view in *. destruct (ServerClustered server).
    + destruct Hview as (_ & member & Hm & ->). exfalso. destruct (member_listed _ _ _ _ Hm) as [Hname [y Hy]].
      rewrite named_map in Hs; [by rewrite Hy in Hs|]. intros x. case_bool_decide; congruence.
    + subst view. rewrite Hrun. cbn [stored]. split; [done|]. eexists _, (storage_state (Plan_Storage plan)). split; [done|]. split; [|apply storage_state_matches].
      cbn [with_storages c_storages]. rewrite named_app, Hs. by rewrite bool_decide_eq_true_2.
Qed.

Lemma acls_step plan st st1 st' :
  NoDup (ACL_Name <$> Plan_ACL plan :: PoolACLs plan) →
  ensureACL (c_acls (at_ st)) (Plan_ACL plan) st = (st1, Ok tt) → each (ensureACL (c_acls (at_ st))) (PoolACLs plan) st1 = (st', Ok tt) →
  acls_only (at_ st) (at_ st') ∧
  ∀ a, a ∈ Plan_ACL plan :: PoolACLs plan → ∃ s, named aclState_Name (ACL_Name a) (c_acls (at_ st')) = Some s ∧ acl_equal s a = true.
Proof.
  intros Hnd H1 H2. assert (each (ensureACL (c_acls (at_ st))) (Plan_ACL plan :: PoolACLs plan) st = (st', Ok tt)) as Hrun.
  { cbn [each]. unfold mbind, M_bind. by rewrite H1. }
  destruct (turns_in ACL_Name acl_equal (λ c n, named aclState_Name n (c_acls c)) acls_only (λ n, named aclState_Name n (c_acls (at_ st)))
              (ensureACL (c_acls (at_ st))) (Plan_ACL plan :: PoolACLs plan)) with (ds := Plan_ACL plan :: PoolACLs plan) (st := st) (st' := st') as (? & ? & _); try done.
  intros d sta stb _ Hcur Hb. by apply (ensureACL_turn (c_acls (at_ st))).
Qed.

Lemma ensureACL_silent current a st :
  (∃ s, named aclState_Name (ACL_Name a) current = Some s ∧ acl_equal s a = true) → ensureACL current a st = (st, Ok tt).
Proof. intros (s & Hs & Heq). unfold ensureACL. by rewrite Hs, Heq. Qed.

Lemma each_silent current ds st :
  (∀ a, a ∈ ds → ∃ s, named aclState_Name (ACL_Name a) current = Some s ∧ acl_equal s a = true) → each (ensureACL current) ds st = (st, Ok tt).
Proof.
  induction ds as [|a ds IH]; intros Hs; [done|]. cbn [each]. unfold mbind, M_bind. rewrite ensureACL_silent by (apply Hs, list_elem_of_here).
  apply IH. intros. by apply Hs, list_elem_of_further.
Qed.

Lemma resources_settle plan st st' :
  distinct_names plan → ensure_resources plan (c_server (at_ st)) st = (st', Ok tt) →
  c_server (at_ st') = c_server (at_ st) ∧ resources_settled plan (c_server (at_ st)) (at_ st').
Proof.
  intros [Hacls Hprofs]. unfold ensure_resources. set (server := c_server (at_ st)). intros Hrun.
  apply run_bind_Ok in Hrun as (s1 & storages & H1 & Hrun). pose proof (get_Ok _ _ _ _ _ _ H1 (reads_storages _)) as [-> [= <-]].
  apply run_bind_Ok in Hrun as (s1 & view & [-> Hview]%member_view_run & Hrun). clear H1.
  apply run_bind_Ok in Hrun as (s2 & [] & H2 & Hrun). apply (storage_step _ _ _ _ _ Hview) in H2 as [Hc2 Hstorage]. clear Hview view.
  apply run_bind_Ok in Hrun as (s3 & acls & H3 & Hrun). pose proof (get_Ok _ _ _ _ _ _ H3 (reads_acls _)) as [-> [= <-]]. clear H3.
  apply run_bind_Ok in Hrun as (s3 & [] & H3 & Hrun). apply run_bind_Ok in Hrun as (s4 & [] & H4 & Hrun).
  destruct (acls_step plan s2 s3 s4 Hacls H3 H4) as [Hc4 Haset]. clear H3 H4 s3.
  apply run_bind_Ok in Hrun as (s5 & nets & H5 & Hrun). pose proof (get_Ok _ _ _ _ _ _ H5 (reads_networks _)) as [-> [= <-]]. clear H5.
  apply run_bind_Ok in Hrun as (s5 & [] & [Hc5 Hbridge]%ensureNetwork_Ok & Hrun).
  apply run_bind_Ok in Hrun as (s6 & projs & H6 & Hrun). pose proof (get_Ok _ _ _ _ _ _ H6 (reads_projects _)) as [-> [= <-]]. clear H6.
  apply run_bind_Ok in Hrun as (s6 & [] & [Hc6 Hproj]%ensureProject_Ok & Hrun).
  apply run_bind_Ok in Hrun as (s7 & profs & H7 & Hrun). pose proof (get_Ok _ _ _ _ _ _ H7 (reads_profiles _ _)) as [-> [= <-]]. clear H7.
  apply run_bind_Ok in Hrun as (s7 & insts & H7 & Hrun). pose proof (get_Ok _ _ _ _ _ _ H7 (reads_instances _ _)) as [-> [= <-]]. clear H7.
  apply ensureProfiles_Ok in Hrun as [[Hc7 _] Hprof]; [|done]. unfold acls_only in Hc4.
  assert (∀ {B} (f : Contents → B), (∀ c x, f (with_profiles x c) = f c) → f (at_ st') = f (at_ s6)) as F7 by (intros B f Hf; by rewrite Hc7).
  assert (∀ {B} (f : Contents → B), (∀ c x, f (with_projects x c) = f c) → f (at_ s6) = f (at_ s5)) as F6 by (intros B f Hf; by rewrite Hc6).
  assert (∀ {B} (f : Contents → B), (∀ c x, f (with_networks x c) = f c) → f (at_ s5) = f (at_ s4)) as F5 by (intros B f Hf; by rewrite Hc5).
  assert (∀ {B} (f : Contents → B), (∀ c x, f (with_acls x c) = f c) → f (at_ s4) = f (at_ s2)) as F4 by (intros B f Hf; by rewrite Hc4).
  split; [rewrite (F7 _ c_server), (F6 _ c_server), (F5 _ c_server), (F4 _ c_server), Hc2 by done; done|]. split; [| | | |done].
  - destruct Hstorage as (view & s & Hview & Hs & Hm). exists view, s. split; [|done]. revert Hview. unfold storage_view.
    rewrite (F7 _ c_member), (F6 _ c_member), (F5 _ c_member), (F4 _ c_member) by done.
    by rewrite (F7 _ c_storages), (F6 _ c_storages), (F5 _ c_storages), (F4 _ c_storages) by done.
  - by rewrite (F7 _ c_acls), (F6 _ c_acls), (F5 _ c_acls) by done.
  - unfold bridge_settled. by rewrite (F7 _ c_networks), (F6 _ c_networks) by done.
  - unfold project_settled. by rewrite (F7 _ c_projects) by done.
Qed.

Lemma resources_silent plan st : resources_settled plan (c_server (at_ st)) (at_ st) → ensure_resources plan (c_server (at_ st)) st = (st, Ok tt).
Proof.
  intros [(view & s & Hview & Hs & Hm) Hacls Hbridge Hproj Hprof]. unfold ensure_resources.
  assert (∀ {B} (m : M (W := W) B) (f : B → M (W := W) unit) b, m st = (st, Ok b) → f b st = (st, Ok tt) → (m ≫= f) st = (st, Ok tt)) as step.
  { intros B m f b Hm' Hf. unfold mbind, M_bind. by rewrite Hm'. }
  eapply step; [apply get_reads, reads_storages|]. eapply step; [by apply member_view_run|]. eapply step; [by eapply ensureStorage_silent|].
  eapply step; [apply get_reads, reads_acls|].
  eapply step; [apply ensureACL_silent, Hacls, list_elem_of_here|].
  eapply step; [apply each_silent; intros a Ha; by apply Hacls, list_elem_of_further|].
  eapply step; [apply get_reads, reads_networks|]. eapply step; [by apply ensureNetwork_silent|].
  eapply step; [apply get_reads, reads_projects|]. eapply step; [by apply ensureProject_silent|].
  eapply step; [apply get_reads, reads_profiles|]. eapply step; [apply get_reads, reads_instances|]. by apply ensureProfiles_silent.
Qed.

(** The configuration that a run sends is the one the next run wants. *)
Lemma desired_again server plan cfg b :
  ServerConfig plan !! https_address = None → desired_server server plan = Ok (cfg, b) → desired_server (with_config cfg server) plan = Ok (cfg, false).
Proof.
  intros Hhttps Hd. apply desired_server_Ok in Hd as (Ha & Hset & _ & _); [|done]. unfold desired_server, desired_address. cbn [Server_Config with_config].
  rewrite bool_decide_eq_true_2 by done. cbn [mbind result_bind].
  assert (∀ kvs, (∀ k v, (k, v) ∈ kvs → ServerConfig plan !! k = Some v) → foldM desired_key kvs (cfg, false) = Ok (cfg, false)) as Hall.
  { induction kvs as [|[k v] kvs IH]; intros Hk; simpl; [done|]. destruct (Hset k v (Hk k v (list_elem_of_here _ _))) as (Hv & Hk0 & Hv0).
    rewrite (bool_decide_eq_false_2 (k = "")), (bool_decide_eq_false_2 (v = "")) by done. cbn [orb fail_if mbind result_bind]. rewrite bool_decide_eq_true_2 by done. cbn [mbind result_bind].
    apply IH. intros. by apply Hk, list_elem_of_further. }
  apply Hall. intros k v. apply elem_of_map_to_list.
Qed.

Lemma plan_converges plan w w' reqs res :
  distinct_names plan → ServerConfig plan !! https_address = None → Apply plan w = (w', reqs, Ok res) →
  Apply plan w' = (w', [], Ok {| Applied := true; Changes := [] |}).
Proof.
  intros Hnames Hhttps. unfold Apply. set (st0 := {| daemon := w; sent := []; changes := [] |}).
  destruct (apply_plan plan st0) as [st r] eqn:Hrun. destruct r as [[]|e]; [|done]. intros [= <- _ _]. unfold apply_plan in Hrun.
  apply run_bind_Ok in Hrun as (s1 & server & H1 & Hrun). pose proof (get_Ok _ _ _ _ _ _ H1 (reads_server _)) as [-> [= <-]]. clear H1.
  apply run_bind_Ok in Hrun as (s1 & [] & [-> Hver]%run_lift_Ok & Hrun). apply run_bind_Ok in Hrun as (s1 & [cfg b] & [-> Hd]%run_lift_Ok & Hrun).
  apply run_bind_Ok in Hrun as (s1 & [] & [Hsame Hset]%resources_settle & Hrun); [|done].
  assert (contents (daemon st) = with_server (with_config cfg (c_server (at_ st0))) (at_ s1)) as Hfinal.
  { cbn [snd fst] in Hrun. destruct b; [apply mutate_Ok in Hrun as ->; cbn [stored]; by rewrite Hsame|]. injection Hrun as <-.
    apply desired_server_Ok in Hd as (_ & _ & _ & ->); [|done|done]. change (contents w) with (at_ st0). rewrite <- Hsame.
    by destruct (at_ s1) as [[] ? ? ? ? ? ? ?]. }
  set (st1 := {| daemon := daemon st; sent := []; changes := [] |}).
  assert (apply_plan plan st1 = (st1, Ok tt)) as ->; [|done]. unfold apply_plan. unfold mbind at 1, M_bind at 1.
  rewrite (get_reads _ _ st1 (c_server (at_ st1))) by apply reads_server.
  assert (c_server (at_ st1) = with_config cfg (c_server (at_ st0))) as Hs1 by (unfold st1; cbn [daemon]; by rewrite Hfinal).
  unfold mbind at 1, M_bind at 1, lift at 1. replace (verifyServer (c_server (at_ st1)) (Plan_Version plan)) with (Ok (A := unit) tt) by (by rewrite Hs1, <- Hver).
  unfold mbind at 1, M_bind at 1, lift at 1. 
  replace (desired_server (c_server (at_ st1)) plan) with (Ok (cfg, false)) by (rewrite Hs1; symmetry; by apply (desired_again _ _ _ _ Hhttps Hd)).
  unfold mbind at 1, M_bind at 1.
  rewrite resources_silent; [done|]. rewrite Hs1. change (at_ st1) with (contents (daemon st)). rewrite Hfinal.
  by destruct Hset as [Hst Ha Hb Hp Hf].
Qed.

End converge.

(** ** Plans that were built *)

Lemma append_cancel_l a b b' : a +:+ b = a +:+ b' → b = b'.
Proof. induction a as [|x a IH]; [done|]. intros [= ?]. by apply IH. Qed.

Lemma append_nonempty a b : b ≠ "" → a ≠ a +:+ b.
Proof. intros Hb Heq. apply (f_equal String.length) in Heq. rewrite length_app_string in Heq. destruct b; [done|]. simpl in Heq. lia. Qed.

Lemma built_distinct_names text c names plan ps bridge : built text c names plan ps bridge → distinct_names plan.
Proof.
  intros [_ _ Hnd _ Hprof Hacls Hacl _]. split.
  - assert (∀ a, a ∈ PoolACLs plan → ∃ p, p ∈ ps ∧ ACL_Name a = pool_acl_name (Config_Incus c) p) as Hin.
    { rewrite Hacls. intros a (p & Ha & Hp)%list_elem_of_bind. exists p. split; [done|]. unfold acls_of, poolEgressACL in Ha.
      destruct (release p); [|by apply not_elem_of_nil in Ha]. by apply list_elem_of_singleton in Ha as ->. }
    simpl. constructor.
    + intros (a & Heq & (p & _ & Hp)%Hin)%list_elem_of_fmap. rewrite Hp, Hacl in Heq. unfold pool_acl_name in Heq. cbn [ACL_Name publicEgressACL] in Heq.
      by apply append_nonempty in Heq.
    + rewrite Hacls. clear -Hnd. induction ps as [|p ps IH]; [constructor|]. cbn [mbind list_bind]. rewrite fmap_app. simpl in Hnd. inversion_clear Hnd as [|? ? Hnew Hnd'].
      apply NoDup_app. split_and!; [|intros n Hn (a & -> & Ha)%list_elem_of_fmap|by apply IH].
      * unfold acls_of, poolEgressACL. destruct (release p); simpl; [apply NoDup_singleton|constructor].
      * apply list_elem_of_bind in Ha as (q & Ha & Hq). unfold acls_of, poolEgressACL in *. destruct (release q); [|by apply not_elem_of_nil in Ha].
        apply list_elem_of_singleton in Ha as ->. destruct (release p); [|by apply not_elem_of_nil in Hn]. simpl in Hn. apply list_elem_of_singleton in Hn.
        unfold pool_acl_name in Hn. do 2 apply append_cancel_l in Hn. apply Hnew. rewrite <- Hn. by apply list_elem_of_fmap_2.
  - rewrite Hprof, <- list_fmap_compose. done.
Qed.

(** C30: What a run reaches the next one finds: after a successful reconciliation
    of a built plan, on a daemon that stores what it is sent, another one sends no
    request and reports no change. *)
Theorem reconciliation_converges {W} `{IncusAPI W} `{!IncusStore W} text c names plan w w' reqs res :
  Build text c names = Ok plan → Apply plan w = (w', reqs, Ok res) →
  Apply plan w' = (w', [], Ok {| Applied := true; Changes := [] |}).
Proof.
  intros (ps & bridge & Hb)%Build_Ok. apply plan_converges; [by eapply built_distinct_names|]. destruct (built_script _ _ _ _ _ _ Hb) as (pl & _ & ->).
  by apply lookup_singleton_ne.
Qed.
