(* ===== verification/IncusPlanExample.v ===== *)
(** * A fleet member that is planned, placed on and reconciled

    A configuration of three pools, its plan, two members and a request, and a
    daemon that stores what it is sent, as concrete values on which the claims'
    hypotheses hold. *)

From S2P Require Import Prelude Tenant PressureGate ProviderRetry NetIP FleetConfig FleetConfigFacts IncusPlan IncusPlanFacts IncusPlacement IncusPlacementFacts IncusReconcile IncusReconcileFacts IncusConverge IncusReconcileClaims.

Local Open Scope Z_scope.
Local Open Scope go_scope.

(** ** A plan *)

Definition with_pools (pools : list Pool) : Config := {|
  Config_SchemaVersion := Config_SchemaVersion config0; Config_Platform := Config_Platform config0;
  Config_ControlPlane := Config_ControlPlane config0; Config_Incus := Config_Incus config0; Config_Guardrails := Config_Guardrails config0;
  Config_HostReserve := Config_HostReserve config0; Pressure := Pressure config0; Config_Cache := Config_Cache config0;
  Backends := Backends config0; Pools := pools |}.

Definition small : Pool := pool0 "small" "trusted" 1 2048 0 (caps "repository" "public-internet" "trusted" []).
Definition large : Pool := pool0 "large" "trusted" 2 4096 1 (caps "repository" "public-internet" "trusted" []).
Definition config1 : Config := with_pools [small; large; release_pool].

(** A valid configuration need not have a plan: two pools of one memory limit with
    different CPU allowances pass validation, and placement refuses them. *)
Example valid_without_placement :
  Validate config0 = None ∧ Build (λ _, "script") config0 ["standard"] =
    Err (Wrapf "render Incus placement: %w" [] (Errorf "placement requires one CPU allowance per hard memory limit" [])).
Proof. vm_compute. done. Qed.

Definition text0 : Placement → string := λ _, "script".

Definition no_plan : Plan := {|
  Plan_Version := ""; Plan_APIAddress := ""; ServerConfig := ∅;
  Plan_HostFirewall := {| Firewall_Backend := ""; RequiredStatus := ""; RequiredDefault := ""; Rules := [] |};
  Plan_Storage := {| Storage_Name := ""; Storage_Driver := ""; Storage_Config := ∅ |};
  Plan_Network := {| Network_Name := ""; Network_Type := ""; Network_Config := ∅ |};
  Plan_Project := {| Project_Name := ""; Project_Description := ""; Project_Config := ∅ |};
  Plan_ACL := {| ACL_Name := ""; ACL_Description := ""; ACL_Config := ∅; Ingress := []; Egress := [] |}; PoolACLs := []; Profiles := [] |}.

Definition plan1 : Plan := match Build text0 config1 ["release"; "small"] with Ok p => p | Err _ => no_plan end.

Lemma plan1_built : Build text0 config1 ["release"; "small"] = Ok plan1.
Proof. vm_cast_no_check (eq_refl (Ok plan1)). Qed.

Lemma planned_egress_bounded_witness :
  Profile_Name <$> Profiles plan1 ≡ₚ ["release"; "small"] ∧
  ∃ bridge, egress_bounded (Config_Incus config1) bridge [] (Plan_ACL plan1) ∧
    ∀ f, f ∈ Profiles plan1 → ∃ p a, p ∈ Pools config1 ∧ f = profile config1 p ∧
      (nic' ← Devices f !! "eth0"; nic' !! "security.acls") = Some (ACL_Name a) ∧
      (release p = false ∧ a = Plan_ACL plan1 ∨
       release p = true ∧ a ∈ PoolACLs plan1 ∧ egress_bounded (Config_Incus config1) bridge (EgressAllowlist (Pool_Capabilities p)) a).
Proof. exact (planned_egress_bounded text0 config1 ["release"; "small"] plan1 plan1_built). Defined.

(** A release pool may declare the address of a host of the estate: the
    configuration is valid, and the pool's ACL rejects and allows the address. *)
Definition host_target : EgressDestination :=
  {| Destination := "203.0.113.10/32"; Protocol := "tcp"; Ports := "22"; Purpose := "deploy" |}.
Definition config2 : Config := with_pools [small; pool0 "release" "release" 2 4096 0 (caps "oidc-only" "release-allowlist" "none" [host_target])].

Example declared_host_is_rejected_too :
  Validate config2 = None ∧ bool_decide (Destination host_target ∈ reservedDestinations (Config_Incus config2)) = true ∧
  match Build text0 config2 ["release"] with
  | Ok plan => existsb (λ acl, bool_decide (declared_allow host_target ∈ Egress acl) &&
      bool_decide (rule "reject" "Block private, metadata, multicast and host public ranges" (join (reservedDestinations (Config_Incus config2))) "" ""
                     ∈ Egress acl)) (PoolACLs plan)
  | Err _ => false
  end = true.
Proof. vm_compute. done. Qed.

(** ** Placement *)

Definition placement1 : Placement :=
  match Render config1 with
  | Ok p => p
  | Err _ => {| Script_Project := ""; Script_Pool := ""; MinimumMemoryMiB := 0; MinimumMemoryPercent := 0; MaxWorkerMemoryMiB := 0;
                MaxWorkerCPUUnits := 0; ReservationByLimit := ∅; CPUByLimit := ∅ |}
  end.

Definition worker (name : string) (p : Pool) : FleetInstance :=
  {| Fleet_Name := name; ExpandedConfig := Profile_Config (profile config1 p) |}.

Definition member (name state : string) (load memory pending : Z) (workers : list FleetInstance) : Member := {|
  server_name := name; member_config := {[ "user.gha_pressure.schema" := "1"; "user.gha_pressure.state" := state ]};
  load_averages := Some [float_of load]; cpu_total := Some (Some 4); memory_total := memory * MiB;
  storage_space := {[ "gha-pool" := (160 * 1024 * MiB, 10 * 1024 * MiB) ]}; pending_count := pending; instances := workers |}.

Definition pool_of (i : FleetInstance) : Pool :=
  if bool_decide (ExpandedConfig i !! "limits.memory" = Some "2048MiB") then small else large.

Definition members : list Member :=
  [member "runner-1" "closed" 0 8192 0 []; member "runner-2" "open" 1 8192 3 [worker "a" small; worker "b" large];
   member "runner-3" "open" 3 8192 1 [worker "c" small]].

Definition request0 (name : string) : PlacementRequest :=
  {| request_project := "gha-fleet"; request_name := name; want_memory_size := 4096 * MiB; want_root_disk_size := 20 * 1024 * MiB |}.

Example placement_chooses :
  instance_placement placement1 (request0 "worker-x") members = Ok (Some "runner-3") ∧
  instance_placement placement1 (request0 "gha-image-builder-1") members = Ok (Some "runner-1") ∧
  instance_placement placement1 (request0 "worker-x") [member "runner-1" "closed" 0 8192 0 []] =
    Err (Errorf "insufficient-memory: no fleet member has room for this worker" []).
Proof. vm_compute. done. Qed.

Lemma members_fleet : Forall (fleet_member config1 placement1 pool_of) members.
Proof.
  assert (∀ name p, p = small ∨ p = large → from_profile config1 pool_of (worker name p)) as Hworker.
  { intros name p [-> | ->]; (split; [apply list_elem_of_In; vm_compute; tauto|vm_compute; reflexivity]). }
  repeat constructor; try (vm_compute; by eexists); try done; apply Hworker; by (left + right).
Qed.

Lemma placement_keeps_reservations_witness :
  (∃ m, m ∈ members ∧ instance_placement placement1 (request0 "worker-x") members = Ok (Some (server_name m)) ∧
     room config1 pool_of (request0 "worker-x") large m) ∨
  (instance_placement placement1 (request0 "worker-x") members = Err (Errorf "insufficient-memory: no fleet member has room for this worker" []) ∧
   ∀ m, m ∈ members → ¬ room config1 pool_of (request0 "worker-x") large m).
Proof.
  apply (placement_keeps_reservations config1 placement1 pool_of large (request0 "worker-x") members).
  - vm_compute. reflexivity.
  - apply list_elem_of_further, list_elem_of_here.
  - reflexivity.
  - reflexivity.
  - apply members_fleet.
Defined.

(** ** A daemon *)

Definition consistent (c : Contents) : Prop :=
  ∀ pool target s, c_member c pool target = Ok s → Stored_Name s = pool ∧ is_Some (named Stored_Name pool (c_storages c)).

Lemma stored_consistent r c : consistent c → consistent (stored r c).
Proof.
  intros Hc. destruct r; try exact Hc. intros pool target x Hx. destruct (Hc pool target x Hx) as [Hn [y Hy]]. split; [done|]. cbn [stored with_storages c_storages].
  rewrite named_app, Hy. by eexists.
Qed.

Definition Store : Type := { c : Contents | consistent c }.

#[export] Instance store_api : IncusAPI Store := {|
  get_server w := (w, Ok (c_server (`w))); get_storages w := (w, Ok (c_storages (`w))); get_storage pool target w := (w, c_member (`w) pool target);
  get_acls w := (w, Ok (c_acls (`w))); get_networks w := (w, Ok (c_networks (`w))); get_projects w := (w, Ok (c_projects (`w)));
  get_profiles project w := (w, Ok (c_profiles (`w) project)); get_instances project w := (w, Ok (c_instances (`w) project));
  send r w := (stored r (`w) ↾ stored_consistent r (`w) (proj2_sig w), Ok tt) |}.

#[export] Instance store_lawful : IncusStore Store.
Proof.
  refine {| contents w := `w |}; try done.
  - by intros r w w' [= <-].
  - intros w pool target s. apply (proj2_sig w).
Defined.

Definition server1 : serverState := {|
  APIExtensions := requiredExtensions; Auth := "trusted"; Server_Config := {[ https_address := "10.20.0.11:8443"; "core.trust" := "x" ]};
  Environment_Driver := "lxc | qemu"; Environment_Server := "incus"; ServerName := "runner-1"; ServerClustered := true; ServerVersion := "6.0.6";
  StorageSupportedDrivers := ["dir"; "lvm"] |}.

Definition pool_on_member : storageState := storage_state (Plan_Storage plan1).
(** The list of a cluster leaves out what is specific to a member. *)
Definition pool_in_list : storageState := {|
  Stored_Name := "gha-pool"; Stored_Description := ""; Stored_Driver := "lvm"; Stored_Config := {[ "volume.size" := "16GiB" ]} |}.

Definition old_bridge : networkState := {|
  Bridge_Name := "ghabr0"; Bridge_Description := "old"; Bridge_Type := "bridge"; Managed := true;
  Bridge_Config := {[ "security.acls" := "gha-egress"; "ipv4.address" := "10.113.0.1/24"; "bridge.mtu" := "1400" ]} |}.

Definition contents1 (users : list instanceState) : Contents := {|
  c_server := server1; c_storages := [pool_in_list];
  c_member := λ pool target, if bool_decide (pool = "gha-pool") then Ok pool_on_member else Err (Errorf "not found" []);
  c_acls := []; c_networks := [old_bridge]; c_projects := [];
  c_profiles := λ _, [{| profileState_Name := "small"; profileState_Description := "stale"; profileState_Config := ∅; profileState_Devices := ∅ |}];
  c_instances := λ _, users |}.

Lemma contents1_consistent users : consistent (contents1 users).
Proof.
  intros pool target s. cbn. case_bool_decide as Hp; [|done]. intros [= <-]. subst. split; [vm_compute; reflexivity|]. by eexists.
Qed.

Definition daemon1 (users : list instanceState) : Store := contents1 users ↾ contents1_consistent users.

Example first_run :
  (Apply plan1 (daemon1 [])).2 = Ok {| Applied := true; Changes :=
     [change "network-acl" "gha-egress" "create"; change "network-acl" "gha-egress-release" "create"; change "network" "ghabr0" "update";
      change "project" "gha-fleet" "create"; change "profile" "small" "update"; change "profile" "release" "create"; change "server" "cluster" "update"] |}.
Proof. vm_compute. reflexivity. Qed.

Lemma reconciliation_converges_witness :
  ∃ w' reqs res, Apply plan1 (daemon1 []) = (w', reqs, Ok res) ∧ Apply plan1 w' = (w', [], Ok {| Applied := true; Changes := [] |}).
Proof.
  destruct (Apply plan1 (daemon1 [])) as [[w' reqs] [res|e]] eqn:Hrun.
  - exists w', reqs, res. split; [reflexivity|].
    apply (reconciliation_converges text0 config1 ["release"; "small"] plan1 (daemon1 []) w' reqs res); [exact plan1_built|exact Hrun].
  - exfalso. apply (f_equal snd) in Hrun. rewrite first_run in Hrun. discriminate.
Defined.

Lemma scheduler_changed_last_witness :
  let '(w', reqs, res) := Apply plan1 (daemon1 []) in
  Forall (resource_request plan1) reqs ∨
  ∃ cfg rest, reqs = PutServer cfg :: rest ∧ Forall (resource_request plan1) rest ∧
    (∀ k v, ServerConfig plan1 !! k = Some v → config_at cfg k = v) ∧
    (∀ k, ServerConfig plan1 !! k = None → k ≠ https_address ∨ ServerClustered server1 = true → cfg !! k = Server_Config server1 !! k) ∧
    (is_Ok res = true ∨ ∃ e, res = Err (Wrapf "update Incus server configuration: %w" [] e)).
Proof.
  destruct (Apply plan1 (daemon1 [])) as [[w' reqs] res] eqn:Hrun.
  apply (scheduler_changed_last plan1 (daemon1 []) w' reqs res server1); [reflexivity|vm_compute; reflexivity|exact Hrun].
Defined.

(** A busy profile stops the run: the ACLs, the bridge and the project have been
    changed by then, and the report of the failed run lists none of it. *)
Definition busy : list instanceState := [{| instanceState_Name := "worker-a"; instanceState_Profiles := ["small"] |}].

Example refused_after_changes :
  (Apply plan1 (daemon1 busy)).2 =
    Err (Errorf "managed profile %q is used by instance %q; refusing live update until the profile drains" ["small"; "worker-a"]) ∧
  length (Apply plan1 (daemon1 busy)).1.2 = 4%nat.
Proof. vm_compute. done. Qed.

Lemma profiles_in_use_kept_witness :
  let st := {| daemon := daemon1 busy; sent := []; changes := [] |} in
  let '(st', res) := ensureProfiles "gha-fleet" (Profiles plan1) (c_profiles (contents1 busy) "gha-fleet") busy st in
  ∃ new, sent st' = new ++ sent st ∧
    (∀ project' f, PutProfile project' f ∈ new → project' = "gha-fleet" ∧ f ∈ Profiles plan1 ∧ ∀ i, i ∈ busy → Profile_Name f ∉ instanceState_Profiles i) ∧
    ((∃ g, g ∈ c_profiles (contents1 busy) "gha-fleet" ∧ stray_profile (Profiles plan1) g = true) → new = []).
Proof.
  intros st. destruct (ensureProfiles _ _ _ _ st) as [st' res] eqn:Hrun.
  apply (profiles_in_use_kept "gha-fleet" (Profiles plan1) (c_profiles (contents1 busy) "gha-fleet") busy st st' res); [|exact Hrun].
  intros i ->%list_elem_of_singleton. discriminate.
Defined.
