(* ===== verification/IdleRetire.v ===== *)
(** * Demand and the retirement of idle runners
    ([src/third_party/garm/overlay/workers/scaleset/confirmed_demand.go],
    [idle_online_retire.go])

    A scale set's worker creates runners up to the demand that the message session
    confirms, and retires runners that stay idle beyond the configured minimum. A
    retirement is one pass over the worker's runners: what GitHub and the database
    answer during it is its environment, and the calls that change something are
    listed in order. *)

From S2P Require Import Prelude GoText ProviderRetry CacheNamespace.

Local Open Scope Z_scope.
Local Open Scope go_scope.

(** ** Demand *)

Record liveMessageDemand := {
  sessionID : string;
  assigned : Z;
  observed : bool;
  messageID : Z;
  observedAt : Time;
  demandGeneration : Z;
}.

Definition idleMessageDemandFreshFor : Duration := 2 * Minute.

Definition idleFresh (d : liveMessageDemand) (now : Time) : bool :=
  if negb (observed d) || bool_decide (sessionID d = "") || (assigned d <? 0) || (messageID d <=? 0) || IsZero (observedAt d) then false
  else negb (Before now (observedAt d)) && (Sub now (observedAt d) <=? idleMessageDemandFreshFor).

Definition scalingKnown (d : liveMessageDemand) : bool := observed d && negb (bool_decide (sessionID d = "")).

Definition unchangedIdleZero (d previous : liveMessageDemand) (now : Time) : bool :=
  if negb (idleFresh d now) || negb (idleFresh previous now) || negb (assigned d =? 0) || negb (assigned previous =? 0) then false
  else bool_decide (sessionID d = sessionID previous) && (messageID d =? messageID previous) && (demandGeneration d =? demandGeneration previous).

(** Unsigned fields are converted with Go's [int]. *)
Record Worker_ScaleSet := {
  Worker_ScaleSetID : Z; Worker_ScaleSetName : string; Worker_Enabled : bool; MaxRunners : Z; MinIdleRunners : Z;
}.

(** The number of runners to have, and the error it is limited for. *)
Definition target (demand : liveMessageDemand) (s : Worker_ScaleSet) (current admitted : Z) : Z * option error :=
  if negb (Worker_Enabled s) || (admitted <=? current) || (admitted <? 1) || (MaxRunners s <? 1) then (current, None)
  else if negb (scalingKnown demand) then (current, Some (Errorf "current message demand is unknown" []))
  else if assigned demand <? 0 then (current, Some (Errorf "current message demand is invalid" []))
  else
    let wanted := Z.min (Z.min admitted (assigned demand)) (wrap64 (MaxRunners s)) in
    (if wanted <=? current then current else wanted, None).

(** ** Runners *)

Inductive InstanceStatus :=
  | InstancePendingCreate | InstanceCreating | InstancePendingDelete | InstancePendingForceDelete | InstanceDeleting | InstanceDeleted
  | OtherInstanceStatus (name : string).
Inductive RunnerStatus := RunnerPending | RunnerIdle | OtherRunnerStatus (name : string).

#[export] Instance RunnerStatus_eq_dec : EqDecision RunnerStatus.
Proof. solve_decision. Defined.

Record Worker_Instance := {
  Runner_ID : string; Runner_Name : string; Runner_Status : InstanceStatus; Runner_RunnerStatus : RunnerStatus; Runner_AgentID : Z;
  Runner_CreatedAt : Time;
}.

Definition providerRemovalProtected (status : InstanceStatus) : bool := match status with OtherInstanceStatus _ => false | _ => true end.

Definition idle_or_pending (s : RunnerStatus) : bool := match s with RunnerPending | RunnerIdle => true | OtherRunnerStatus _ => false end.

Definition idleRetirementMinAge : Duration := 30 * Minute.
Definition idleRetirementConfirmAfter : Duration := 30 * Second.

(** ** Evidence *)

Inductive restBusyState := restBusyUnknown | restBusyFalse | restBusyTrue.
Definition restBusyFromPointer (busy : option bool) : restBusyState :=
  match busy with None => restBusyUnknown | Some true => restBusyTrue | Some false => restBusyFalse end.

Definition actionsStatusOnline (status : string) : bool := bool_decide (status = "online").
(** The status is a text or something else. *)
Definition actionsStatusString (status : option string) : string := default "" status.

Record idleRetirementEvidence := {
  Ev_AgentID : Z; Ev_Name : string; Ev_ScaleSetID : Z; LocalStatus : RunnerStatus; Ev_CreatedAt : Time; MinIdle : Z; IdleCount : Z; Ev_Now : Time;
  RESTID : Z; RESTName : string; RESTStatus : string; RESTBusy : option bool;
  ActionsID : Z; ActionsName : string; ActionsScaleSetID : Z; ActionsEphemeral : bool; ActionsEnabled : bool; ActionsState : string;
  ActionsStatus : string;
  AssignedJobs : Z; AcquiredJobs : Z; AvailableJobs : Z; RunningJobs : Z; BusyRunners : Z; StatisticsPresent : bool; MessageDemandKnown : bool;
}.

Record idleRetirementDecision := { Eligible : bool; Ready : bool; Decision_Reason : string }.

Definition refused (reason : string) : idleRetirementDecision := {| Eligible := false; Ready := false; Decision_Reason := reason |}.

Definition evaluateIdleRetirement (ev : idleRetirementEvidence) : idleRetirementDecision :=
  if (Ev_AgentID ev <=? 0) || bool_decide (Ev_Name ev = "") || (Ev_ScaleSetID ev <=? 0) then refused "missing-identity"
  else if negb (idle_or_pending (LocalStatus ev)) then refused "local-not-idle-or-pending"
  else if Sub (Ev_Now ev) (Ev_CreatedAt ev) <? idleRetirementMinAge then refused "too-young"
  else if IdleCount ev <=? wrap64 (MinIdle ev) then refused "at-or-below-min-idle"
  else if negb (MessageDemandKnown ev) then refused "message-demand-unknown"
  else if negb (StatisticsPresent ev) then refused "scale-set-statistics-absent"
  else if (AssignedJobs ev <? 0) || (AcquiredJobs ev <? 0) || (AvailableJobs ev <? 0) || (RunningJobs ev <? 0) || (BusyRunners ev <? 0)
       then refused "scale-set-statistics-invalid"
  else if (0 <? AssignedJobs ev) || (0 <? AcquiredJobs ev) || (0 <? AvailableJobs ev) || (0 <? RunningJobs ev) || (0 <? BusyRunners ev)
       then refused "scale-set-has-demand"
  else if negb (RESTID ev =? Ev_AgentID ev) || negb (ActionsID ev =? Ev_AgentID ev) || negb (bool_decide (RESTName ev = Ev_Name ev))
          || negb (bool_decide (ActionsName ev = Ev_Name ev)) || negb (ActionsScaleSetID ev =? Ev_ScaleSetID ev)
       then refused "identity-mismatch"
  else if negb (ActionsEphemeral ev) || negb (ActionsEnabled ev) || negb (bool_decide (ActionsState ev = "Provisioned"))
       then refused "not-provisioned-ephemeral"
  else if negb (bool_decide (RESTStatus ev = "online")) || negb (actionsStatusOnline (ActionsStatus ev)) then refused "not-online"
  else match restBusyFromPointer (RESTBusy ev) with
       | restBusyUnknown => refused "rest-busy-omitted"
       | restBusyTrue => refused "rest-busy"
       | restBusyFalse => {| Eligible := true; Ready := false; Decision_Reason := "eligible" |}
       end.

(** ** The gate *)

Record idleObservation := { Seen_Name : string; Seen_ScaleSetID : Z; FirstSeen : Time }.
Definition idleRetirementGate : Type := gmap Z idleObservation.

Definition confirm (g : idleRetirementGate) (ev : idleRetirementEvidence) : idleRetirementGate * idleRetirementDecision :=
  let decision := evaluateIdleRetirement ev in
  let because reason := {| Eligible := true; Ready := false; Decision_Reason := reason |} in
  if negb (Eligible decision) then (delete (Ev_AgentID ev) g, decision)
  else
    let first := (<[Ev_AgentID ev := {| Seen_Name := Ev_Name ev; Seen_ScaleSetID := Ev_ScaleSetID ev; FirstSeen := Ev_Now ev |}]> g, because "first-observation") in
    match g !! Ev_AgentID ev with
    | None => first
    | Some prev =>
        if negb (bool_decide (Seen_Name prev = Ev_Name ev)) || negb (Seen_ScaleSetID prev =? Ev_ScaleSetID ev) then first
        else if Sub (Ev_Now ev) (FirstSeen prev) <? idleRetirementConfirmAfter then (g, because "confirmation-pending")
        else (g, {| Eligible := true; Ready := true; Decision_Reason := "confirmed" |})
    end.

Definition forget (agentID : Z) (g : idleRetirementGate) : idleRetirementGate := delete agentID g.
Definition prune (live : gset Z) (g : idleRetirementGate) : idleRetirementGate := filter (λ ko, ko.1 ∈ live) g.

(** The runners in the order the worker's map is walked. *)
Definition counts_as_idle (r : Worker_Instance) : bool :=
  negb (providerRemovalProtected (Runner_Status r)) && (0 <? Runner_AgentID r) && idle_or_pending (Runner_RunnerStatus r).

Definition idleRetirementLocalPlan (runners : list Worker_Instance) (minIdle : Z) (now : Time) : Z * list Worker_Instance :=
  let idle := List.filter counts_as_idle runners in
  let aged := List.filter (λ r, idleRetirementMinAge <=? Sub now (Runner_CreatedAt r)) idle in
  (Z.of_nat (length idle), if Z.of_nat (length idle) <=? wrap64 minIdle then [] else aged).

(** ** Removal *)

(** What the code looks at in an error of the client. *)
Record ClientError := { is_not_found : bool; has_conflict : bool; text : string }.

Inductive idleRemoveOutcome := idleRemoveMarkAbsent | idleRemoveConflict | idleRemoveNone.

Definition isConflictError (e : ClientError) : bool :=
  let message := ToLower (text e) in Contains message "conflict" || Contains message "jobstillrunningexception".

(** The answers to [RemoveRunner] and, after it succeeded, to [GetRunner]: [None] is success. *)
Definition decideIdleRemoveRunner (removeErr getErr : option ClientError) (getFound : bool) : idleRemoveOutcome * option error :=
  match removeErr with
  | Some e =>
      if is_not_found e then (idleRemoveMarkAbsent, None)
      else if has_conflict e || isConflictError e then (idleRemoveConflict, None)
      else (idleRemoveNone, Some (Errorf "Actions RemoveRunner: %w" []))
  | None =>
      if getFound then (idleRemoveNone, Some (Errorf "Actions runner still present after RemoveRunner" []))
      else match getErr with
           | Some e => if is_not_found e then (idleRemoveMarkAbsent, None) else (idleRemoveNone, Some (Errorf "read back Actions runner: %w" []))
           | None => (idleRemoveMarkAbsent, None)
           end
  end.

(** What the world answers during a pass. *)
Record RunnerReference := {
  Ref_ID : Z; Ref_Name : string; Ref_ScaleSetID : Z; Ref_Ephemeral : bool; Ref_Enabled : bool; Ref_State : string; Ref_Status : option string;
}.
Record RESTRunner := { Rest_ID : Z; Rest_Name : string; Rest_Status : string; Rest_Busy : option bool }.
Record RemoteScaleSet := {
  Remote_ID : Z; Remote_Name : string; Remote_Enabled : option bool;
  Remote_Statistics : option (Z * Z * Z * Z);          (* acquired, available, running, busy *)
}.
(** The answer of the database to the status update, and what it holds on a refusal. *)
Inductive MarkAnswer :=
  | Marked (instance : Worker_Instance)
  | MarkNotFound
  | MarkRefused (e : error) (current : result (option InstanceStatus)).      (* [None]: not found any more *)

Record RetireEnv := {
  retire_now : Time;
  worker_runners : list Worker_Instance;
  worker_set : Worker_ScaleSet;
  scale_set_client : result unit;
  remote_set : result RemoteScaleSet;
  actions_runner : Z → option RunnerReference;                   (* [None]: the read failed *)
  rest_runner : Z → option (option RESTRunner);
  demand_read : Z → liveMessageDemand;
  demand_again : Z → liveMessageDemand;
  later : Z → Time;
  runner_locked : string → bool;                                 (* the lock is taken by this worker *)
  remove_answer : Z → option ClientError;
  readback_answer : Z → option ClientError;                      (* [None]: the runner is still there *)
  mark_answer : string → MarkAnswer;
}.

Inductive RetireCall :=
  | RemoveRunner (agentID : Z)
  | MarkPendingDelete (name : string).

Section pass.
Context (env : RetireEnv).

Definition applyIdleRemoveRunner (agentID : Z) : idleRemoveOutcome * option error :=
  match remove_answer env agentID with
  | Some e => decideIdleRemoveRunner (Some e) None false
  | None => decideIdleRemoveRunner None (readback_answer env agentID) (negb (bool_decide (is_Some (readback_answer env agentID))))
  end.

Definition runnerRemovalAlreadyOwned (current : result (option InstanceStatus)) : result bool :=
  status ← current; Ok (match status with None => true | Some s => providerRemovalProtected s end).

(** The instance stored among the worker's runners, and the error; of two joined
    errors the model keeps the later one inside. *)
Definition markIdleRunnerAbsent (name : string) : option Worker_Instance * option error :=
  match mark_answer env name with
  | Marked instance => (Some instance, None)
  | MarkNotFound => (None, None)
  | MarkRefused e current =>
      match runnerRemovalAlreadyOwned current with
      | Err refreshErr => (None, Some (Wrapf "errors.Join" [] refreshErr))
      | Ok true => (None, None)
      | Ok false => (None, Some e)
      end
  end.

(** The calls of a confirmed removal, the instance stored and the error. *)
Record Removal := { removal_calls : list RetireCall; removal_stored : option Worker_Instance; removal_error : option error }.
Definition removeIdleRunnerAfterConfirmation (r : Worker_Instance) : Removal :=
  let only e := {| removal_calls := [RemoveRunner (Runner_AgentID r)]; removal_stored := None; removal_error := e |} in
  match applyIdleRemoveRunner (Runner_AgentID r) with
  | (_, Some e) => only (Some e)
  | (idleRemoveMarkAbsent, None) =>
      let '(stored, e) := markIdleRunnerAbsent (Runner_Name r) in
      {| removal_calls := [RemoveRunner (Runner_AgentID r); MarkPendingDelete (Runner_Name r)]; removal_stored := stored; removal_error := e |}
  | (_, None) => only None
  end.

Definition evidence_of (idleCount : Z) (statistics : Z * Z * Z * Z) (r : Worker_Instance) (a : RunnerReference) (t : RESTRunner) : idleRetirementEvidence :=
  let '(acquired, available, running, busy) := statistics in
  let demand := demand_read env (Runner_AgentID r) in
  {| Ev_AgentID := Runner_AgentID r; Ev_Name := Runner_Name r; Ev_ScaleSetID := Worker_ScaleSetID (worker_set env); LocalStatus := Runner_RunnerStatus r;
     Ev_CreatedAt := Runner_CreatedAt r; MinIdle := MinIdleRunners (worker_set env); IdleCount := idleCount; Ev_Now := retire_now env;
     RESTID := Rest_ID t; RESTName := Rest_Name t; RESTStatus := Rest_Status t; RESTBusy := Rest_Busy t;
     ActionsID := Ref_ID a; ActionsName := Ref_Name a; ActionsScaleSetID := Ref_ScaleSetID a; ActionsEphemeral := Ref_Ephemeral a;
     ActionsEnabled := Ref_Enabled a; ActionsState := Ref_State a; ActionsStatus := actionsStatusString (Ref_Status a);
     AssignedJobs := assigned demand; AcquiredJobs := acquired; AvailableJobs := available; RunningJobs := running; BusyRunners := busy;
     StatisticsPresent := true; MessageDemandKnown := idleFresh demand (retire_now env) |}.

(** The gate and the worker's runners after a pass, its calls and its error. *)
Record PassResult := {
  pass_gate : idleRetirementGate; pass_runners : list Worker_Instance; pass_calls : list RetireCall; pass_error : option error;
}.
(** [w.runners[instance.ID] = instance], of runners with distinct identifiers. *)
Definition store_runner (instance : Worker_Instance) (runners : list Worker_Instance) : list Worker_Instance :=
  instance :: List.filter (λ r, negb (bool_decide (Runner_ID r = Runner_ID instance))) runners.
Definition quiet (g : idleRetirementGate) : PassResult := 
  {| pass_gate := g; pass_runners := worker_runners env; pass_calls := []; pass_error := None |}.

(** The evidence gathered about one runner; [None] when a read failed. *)
Definition gather (idleCount : Z) (statistics : Z * Z * Z * Z) (r : Worker_Instance) : option idleRetirementEvidence :=
  match actions_runner env (Runner_AgentID r), rest_runner env (Runner_AgentID r) with
  | Some a, Some (Some t) => Some (evidence_of idleCount statistics r a t)
  | _, _ => None
  end.

(** The loop ends with the first removal it attempts. *)
Fixpoint candidates_loop (idleCount : Z) (statistics : Z * Z * Z * Z) (aged : list Worker_Instance) (g : idleRetirementGate) : PassResult :=
  match aged with
  | [] => quiet g
  | r :: rest =>
      match gather idleCount statistics r with
      | None => candidates_loop idleCount statistics rest (forget (Runner_AgentID r) g)
      | Some ev =>
          let '(g, decision) := confirm g ev in
          if negb (Eligible decision) || negb (Ready decision) then candidates_loop idleCount statistics rest g
          else if negb (runner_locked env (Runner_Name r)) then candidates_loop idleCount statistics rest g
          else if negb (unchangedIdleZero (demand_again env (Runner_AgentID r)) (demand_read env (Runner_AgentID r)) (later env (Runner_AgentID r)))
               then candidates_loop idleCount statistics rest (forget (Runner_AgentID r) g)
          else let removal := removeIdleRunnerAfterConfirmation r in
               {| pass_gate := forget (Runner_AgentID r) g;
                  pass_runners := match removal_stored removal with Some i => store_runner i (worker_runners env) | None => worker_runners env end;
                  pass_calls := removal_calls removal; pass_error := removal_error removal |}
      end
  end.

Definition live_agents : gset Z := list_to_set (List.filter (λ a, 0 <? a) (Runner_AgentID <$> worker_runners env)).

Definition resetIdleObservations (runners : list Worker_Instance) (g : idleRetirementGate) : idleRetirementGate :=
  foldl (λ g r, forget (Runner_AgentID r) g) g runners.

Definition remote_matches (s : RemoteScaleSet) : option (Z * Z * Z * Z) :=
  if negb (Remote_ID s =? Worker_ScaleSetID (worker_set env)) || negb (bool_decide (Remote_Name s = Worker_ScaleSetName (worker_set env)))
     || negb (default false (Remote_Enabled s)) then None
  else Remote_Statistics s.

Definition retireExcessIdleCapacity (g : idleRetirementGate) : PassResult :=
  let g := prune live_agents g in
  let '(idleCount, aged) := idleRetirementLocalPlan (worker_runners env) (MinIdleRunners (worker_set env)) (retire_now env) in
  let failing e := {| pass_gate := resetIdleObservations aged g; pass_runners := worker_runners env; pass_calls := []; pass_error := Some e |} in
  match aged with
  | [] => quiet g
  | _ =>
      match scale_set_client env with
      | Err e => failing (Wrapf "getting scale set client: %w" [] e)
      | Ok _ =>
          match remote_set env with
          | Err e => failing (Wrapf "read scale set for idle retirement: %w" [] e)
          | Ok remote =>
              match remote_matches remote with
              | None => failing (Errorf "idle retirement scale-set identity, enabled state or statistics missing" [])
              | Some statistics => candidates_loop idleCount statistics aged g
              end
          end
      end
  end.

End pass.
