(* ===== verification/IdleRetireFacts.v ===== *)
(** * What retiring idle runners guarantees

    A runner is removed only when two passes, half a minute apart, both proved it
    idle, and the demand did not change until the call. *)

From S2P Require Import Prelude GoText ProviderRetry CacheNamespace IdleRetire.

Local Open Scope Z_scope.
Local Open Scope go_scope.

(** ** Demand *)

(** The number of runners grows only to what was admitted, is assigned in the
    current session and fits the maximum; it never shrinks. *)
Lemma target_within_demand d s current admitted n e :
  target d s current admitted = (n, e) →
  n = current ∨ current < n ∧ n ≤ admitted ∧ n ≤ assigned d ∧ n ≤ wrap64 (MaxRunners s) ∧ Worker_Enabled s = true ∧ scalingKnown d = true ∧ e = None.
Proof.
  unfold target. destruct (Worker_Enabled s); cbn [negb orb]; [|by intros [= <- _]; left].
  destruct (_ || _); [by intros [= <- _]; left|]. destruct (scalingKnown d); cbn [negb]; [|by intros [= <- _]; left].
  destruct (assigned d <? 0); [by intros [= <- _]; left|]. cbv zeta. destruct (_ <=? current) eqn:Hc; intros [= <- <-]; [by left|right].
  split_and!; try done; lia.
Qed.

(** ** What a pass has proved about a runner *)

Record idle_proven (env : RetireEnv) (r : Worker_Instance) : Prop := {
  proven_listed : r ∈ worker_runners env;
  proven_local : counts_as_idle r = true;
  proven_old : 30 * Minute ≤ Sub (retire_now env) (Runner_CreatedAt r);
  proven_excess : wrap64 (MinIdleRunners (worker_set env)) < Z.of_nat (length (List.filter counts_as_idle (worker_runners env)));
  proven_demand : idleFresh (demand_read env (Runner_AgentID r)) (retire_now env) = true ∧ assigned (demand_read env (Runner_AgentID r)) = 0;
  proven_statistics : ∃ remote, remote_set env = Ok remote ∧ Remote_ID remote = Worker_ScaleSetID (worker_set env) ∧
    Remote_Name remote = Worker_ScaleSetName (worker_set env) ∧ Remote_Enabled remote = Some true ∧ Remote_Statistics remote = Some (0, 0, 0, 0);
  proven_rest : ∃ t, rest_runner env (Runner_AgentID r) = Some (Some t) ∧ Rest_ID t = Runner_AgentID r ∧ Rest_Name t = Runner_Name r ∧
    Rest_Status t = "online" ∧ Rest_Busy t = Some false;
  proven_actions : ∃ a, actions_runner env (Runner_AgentID r) = Some a ∧ Ref_ID a = Runner_AgentID r ∧ Ref_Name a = Runner_Name r ∧
    Ref_ScaleSetID a = Worker_ScaleSetID (worker_set env) ∧ Ref_Ephemeral a = true ∧ Ref_Enabled a = true ∧ Ref_State a = "Provisioned" ∧
    Ref_Status a = Some "online";
}.

(** The conditions that hold of evidence that is found eligible. *)
Lemma eligible_evidence ev :
  Eligible (evaluateIdleRetirement ev) = true →
  MessageDemandKnown ev = true ∧ AssignedJobs ev = 0 ∧ AcquiredJobs ev = 0 ∧ AvailableJobs ev = 0 ∧ RunningJobs ev = 0 ∧ BusyRunners ev = 0 ∧
  wrap64 (MinIdle ev) < IdleCount ev ∧ idleRetirementMinAge ≤ Sub (Ev_Now ev) (Ev_CreatedAt ev) ∧
  RESTID ev = Ev_AgentID ev ∧ RESTName ev = Ev_Name ev ∧ RESTStatus ev = "online" ∧ RESTBusy ev = Some false ∧
  ActionsID ev = Ev_AgentID ev ∧ ActionsName ev = Ev_Name ev ∧ ActionsScaleSetID ev = Ev_ScaleSetID ev ∧ ActionsEphemeral ev = true ∧
  ActionsEnabled ev = true ∧ ActionsState ev = "Provisioned" ∧ ActionsStatus ev = "online".
Proof.
  unfold evaluateIdleRetirement. repeat (match goal with |- context [if ?b then _ else _] => destruct b eqn:?; [done|] end).
  destruct (RESTBusy ev) as [[]|]; try done. intros _. unfold actionsStatusOnline in *.
  repeat match goal with
  | H : _ || _ = false |- _ => apply orb_false_iff in H as [? ?]
  | H : negb _ = false |- _ => apply negb_false_iff in H
  | H : bool_decide _ = true |- _ => apply bool_decide_eq_true in H
  | H : (_ =? _) = true |- _ => apply Z.eqb_eq in H
  end.
  split_and!; try done; lia.
Qed.

Section pass.
Context (env : RetireEnv).

(** Candidates as the local plan and the remote scale set give them. *)
Definition planned_candidate (idleCount : Z) (statistics : Z * Z * Z * Z) (r : Worker_Instance) : Prop :=
  r ∈ worker_runners env ∧ counts_as_idle r = true ∧ idleCount = Z.of_nat (length (List.filter counts_as_idle (worker_runners env))) ∧
  ∃ remote, remote_set env = Ok remote ∧ remote_matches env remote = Some statistics.

Lemma gathered_proven idleCount statistics r ev :
  planned_candidate idleCount statistics r → gather env idleCount statistics r = Some ev → Eligible (evaluateIdleRetirement ev) = true →
  idle_proven env r ∧ Ev_AgentID ev = Runner_AgentID r ∧ Ev_Name ev = Runner_Name r ∧ Ev_ScaleSetID ev = Worker_ScaleSetID (worker_set env) ∧
  Ev_Now ev = retire_now env.
Proof.
  intros (Hin & Hidle & Hcount & remote & Hremote & Hmatch) Hg Hel. unfold gather in Hg.
  destruct (actions_runner env _) as [a|] eqn:Ha; [|done]. destruct (rest_runner env _) as [[t|]|] eqn:Ht; [|done..].
  injection Hg as <-. apply eligible_evidence in Hel. unfold evidence_of in *. destruct statistics as [[[acq avail] run] bus]. simpl in Hel.
  destruct Hel as (Hknown & Hassigned & -> & -> & -> & -> & Hexcess & Hold & Hrid & Hrname & Hrstatus & Hrbusy & Haid & Haname & Hasid & Haeph & Haen & Hast & Hastat).
  split; [|done]. split; try done.
  - by rewrite <- Hcount.
  - exists remote. unfold remote_matches in Hmatch. destruct (_ || _) eqn:Hor; [done|]. apply orb_false_iff in Hor as [Hor Hen].
    apply orb_false_iff in Hor as [Hid Hname]. apply negb_false_iff in Hid, Hname, Hen. apply Z.eqb_eq in Hid. apply bool_decide_eq_true in Hname.
    split_and!; try done. by destruct (Remote_Enabled remote) as [[]|].
  - by exists t.
  - exists a. split_and!; try done. unfold actionsStatusString in Hastat. destruct (Ref_Status a) as [x|]; [|done]. simpl in Hastat. by rewrite Hastat.
Qed.

(** An observation is of some pass, which proved the runner idle. *)
Definition observed_in (envs : list RetireEnv) (a : Z) (o : idleObservation) : Prop :=
  ∃ env0 r0, env0 ∈ envs ∧ idle_proven env0 r0 ∧ Runner_AgentID r0 = a ∧ Runner_Name r0 = Seen_Name o ∧
    Worker_ScaleSetID (worker_set env0) = Seen_ScaleSetID o ∧ retire_now env0 = FirstSeen o.
Definition gate_justified (envs : list RetireEnv) (g : idleRetirementGate) : Prop := map_Forall (observed_in envs) g.

(** A removal that two passes justify. *)
Definition removal_justified (envs : list RetireEnv) (calls : list RetireCall) : Prop :=
  calls = [] ∨
  ∃ r, idle_proven env r ∧ (calls = [RemoveRunner (Runner_AgentID r)] ∨ calls = [RemoveRunner (Runner_AgentID r); MarkPendingDelete (Runner_Name r)]) ∧
    unchangedIdleZero (demand_again env (Runner_AgentID r)) (demand_read env (Runner_AgentID r)) (later env (Runner_AgentID r)) = true ∧
    ∃ env0 r0, env0 ∈ envs ∧ idle_proven env0 r0 ∧ Runner_AgentID r0 = Runner_AgentID r ∧ Runner_Name r0 = Runner_Name r ∧
      Worker_ScaleSetID (worker_set env0) = Worker_ScaleSetID (worker_set env) ∧ idleRetirementConfirmAfter ≤ Sub (retire_now env) (retire_now env0).

Lemma confirm_justified envs g ev g' d r :
  env ∈ envs → gate_justified envs g → confirm g ev = (g', d) →
  (Eligible (evaluateIdleRetirement ev) = true → idle_proven env r ∧ Ev_AgentID ev = Runner_AgentID r ∧ Ev_Name ev = Runner_Name r ∧
     Ev_ScaleSetID ev = Worker_ScaleSetID (worker_set env) ∧ Ev_Now ev = retire_now env) →
  gate_justified envs g' ∧
  (Ready d = true → idle_proven env r ∧ ∃ env0 r0, env0 ∈ envs ∧ idle_proven env0 r0 ∧ Runner_AgentID r0 = Runner_AgentID r ∧
     Runner_Name r0 = Runner_Name r ∧ Worker_ScaleSetID (worker_set env0) = Worker_ScaleSetID (worker_set env) ∧
     idleRetirementConfirmAfter ≤ Sub (retire_now env) (retire_now env0)).
Proof.
  intros Henv Hg Hconf Hel. unfold confirm in Hconf. cbv zeta in Hconf. destruct (Eligible (evaluateIdleRetirement ev)) eqn:He; cbn [negb] in Hconf; cycle 1.
  { injection Hconf as <- <-. split; [by apply map_Forall_delete|].
    intros Hr. exfalso. revert Hr He. unfold evaluateIdleRetirement. repeat case_match; done. }
  destruct (Hel eq_refl) as (Hproven & Ha & Hn & Hs & Ht).
  assert (observed_in envs (Ev_AgentID ev) {| Seen_Name := Ev_Name ev; Seen_ScaleSetID := Ev_ScaleSetID ev; FirstSeen := Ev_Now ev |}) as Hnew.
  { exists env, r. by split_and!. }
  destruct (g !! Ev_AgentID ev) as [prev|] eqn:Hprev; [|injection Hconf as <- <-; by split; [apply map_Forall_insert_2|]].
  destruct (_ || _) eqn:Hsame; [injection Hconf as <- <-; by split; [apply map_Forall_insert_2|]|]. apply orb_false_iff in Hsame as [Hsn Hss].
  apply negb_false_iff in Hsn, Hss. apply bool_decide_eq_true in Hsn. apply Z.eqb_eq in Hss.
  destruct (_ <? _) eqn:Hwait; injection Hconf as <- <-; (split; [done|]); [done|]. intros _. split; [done|].
  destruct (Hg _ _ Hprev) as (env0 & r0 & Hin0 & Hp0 & Ha0 & Hn0 & Hs0 & Ht0). exists env0, r0.
  split_and!; [done..|congruence|congruence|congruence|]. rewrite Ht0, <- Ht. lia.
Qed.

Lemma loop_justified envs idleCount statistics aged g :
  env ∈ envs → Forall (planned_candidate idleCount statistics) aged → gate_justified envs g →
  let res := candidates_loop env idleCount statistics aged g in gate_justified envs (pass_gate res) ∧ removal_justified envs (pass_calls res).
Proof.
  intros Henv Haged. revert g. induction Haged as [|r rest Hr Hrest IH]; intros g Hg; simpl; [by split; [|left]|].
  destruct (gather env idleCount statistics r) as [ev|] eqn:Hev; [|by apply IH, map_Forall_delete].
  destruct (confirm g ev) as [g' d] eqn:Hconf.
  destruct (confirm_justified envs g ev g' d r Henv Hg Hconf) as [Hg' Hready]; [by intros; eapply gathered_proven|].
  destruct (Ready d) eqn:Hrd; [|rewrite orb_true_r; by apply IH]. destruct (Eligible d); cbn [negb orb]; [|by apply IH].
  destruct (runner_locked env (Runner_Name r)); cbn [negb]; [|by apply IH].
  destruct (unchangedIdleZero _ _ _) eqn:Hun; cbn [negb]; [|by apply IH, map_Forall_delete].
  destruct (Hready eq_refl) as [Hp Hbefore]. unfold removeIdleRunnerAfterConfirmation.
  destruct (applyIdleRemoveRunner env (Runner_AgentID r)) as [o [e|]]; destruct o; [..|destruct (markIdleRunnerAbsent env (Runner_Name r))| |]; simpl; (split; [by apply map_Forall_delete|right; exists r]);
    split_and!; first [done|by left|by right].
Qed.

Lemma reset_justified envs runners g : gate_justified envs g → gate_justified envs (resetIdleObservations runners g).
Proof.
  unfold resetIdleObservations. revert g. induction runners as [|r runners IH]; intros g Hg; simpl; [done|]. by apply IH, map_Forall_delete.
Qed.

Lemma pass_justified envs g :
  env ∈ envs → gate_justified envs g →
  gate_justified envs (pass_gate (retireExcessIdleCapacity env g)) ∧ removal_justified envs (pass_calls (retireExcessIdleCapacity env g)).
Proof.
  intros Henv Hg. unfold retireExcessIdleCapacity. cbv zeta.
  assert (gate_justified envs (prune (live_agents env) g)) as Hp.
  { unfold prune. intros a o [Ha _]%map_lookup_filter_Some. by apply Hg. }
  set (g1 := prune _ g) in *. unfold idleRetirementLocalPlan. cbv zeta. destruct (_ <=? wrap64 _) eqn:Hcount; [by split; [|left]|].
  set (aged := List.filter _ (List.filter counts_as_idle _)).
  assert (aged ⊆ List.filter counts_as_idle (worker_runners env)) as Hsub.
  { intros r Hr%list_elem_of_In. apply filter_In in Hr as [Hr _]. by apply list_elem_of_In. }
  destruct aged as [|first aged'] eqn:Haged; [by split; [|left]|]. rewrite <- Haged in *.
  destruct (scale_set_client env) as [u|e]; [|by split; [apply reset_justified|left]].
  destruct (remote_set env) as [remote|e] eqn:Hremote; [|by split; [apply reset_justified|left]].
  destruct (remote_matches env remote) as [statistics|] eqn:Hmatch; [|by split; [apply reset_justified|left]].
  apply loop_justified; [done| |done]. apply Forall_forall. intros r Hr. specialize (Hsub r Hr). apply list_elem_of_In, filter_In in Hsub as [Hin Hidle].
  split_and!; [by apply list_elem_of_In|done|done|by exists remote].
Qed.

End pass.

(** ** Sequences of passes *)

(** The gate after the passes with these environments, oldest first. *)
Definition passes (envs : list RetireEnv) : idleRetirementGate := foldl (λ g env, pass_gate (retireExcessIdleCapacity env g)) ∅ envs.

Lemma gate_justified_mono envs envs' g : envs ⊆ envs' → gate_justified envs g → gate_justified envs' g.
Proof. intros Hsub Hg a o Ho. destruct (Hg a o Ho) as (env0 & r0 & Hin & Hrest). exists env0, r0. split; [by apply Hsub|done]. Qed.

Lemma passes_justified envs : gate_justified envs (passes envs).
Proof.
  induction envs as [|env envs IH] using rev_ind; [apply map_Forall_empty|]. unfold passes. rewrite foldl_app. simpl. fold (passes envs).
  apply pass_justified; [apply elem_of_app; right; apply list_elem_of_here|]. eapply gate_justified_mono; [|done]. set_solver.
Qed.

(** C31: A pass removes at most one runner, and only one that is idle on all accounts:
    old, in excess of the minimum, online and not busy for GitHub's two views of
    it under the same identity, with no job assigned, acquired, available or
    running in its scale set; an earlier pass, at least 30 seconds before, proved
    the same of it; and the demand was still the same zero at the call. *)
Theorem retirement_confirmed_twice envs env a :
  let calls := pass_calls (retireExcessIdleCapacity env (passes envs)) in
  RemoveRunner a ∈ calls →
  ∃ r, Runner_AgentID r = a ∧ idle_proven env r ∧
    (calls = [RemoveRunner a] ∨ calls = [RemoveRunner a; MarkPendingDelete (Runner_Name r)]) ∧
    unchangedIdleZero (demand_again env a) (demand_read env a) (later env a) = true ∧
    ∃ env0 r0, env0 ∈ envs ∧ idle_proven env0 r0 ∧ Runner_AgentID r0 = a ∧ Runner_Name r0 = Runner_Name r ∧
      Worker_ScaleSetID (worker_set env0) = Worker_ScaleSetID (worker_set env) ∧ 30 * Second ≤ Sub (retire_now env) (retire_now env0).
Proof.
  cbv zeta. intros Hin. destruct (pass_justified env (envs ++ [env]) (passes envs)) as [_ Hrem].
  { apply elem_of_app. right. apply list_elem_of_here. }
  { eapply gate_justified_mono; [|apply passes_justified]. set_solver. }
  destruct Hrem as [Hnil|(r & Hp & Hcalls & Hun & env0 & r0 & Hin0 & Hp0 & Ha0 & Hn0 & Hs0 & Ht0)]; [by rewrite Hnil in Hin; apply not_elem_of_nil in Hin|].
  assert (Runner_AgentID r = a) as Ha.
  { destruct Hcalls as [Hc|Hc]; rewrite Hc in Hin; rewrite ?elem_of_cons in Hin; destruct_or? Hin; try done; try (by injection Hin); by apply not_elem_of_nil in Hin. }
  rewrite Ha in *. exists r. split_and!; try done. exists env0, r0. split_and!; try done. apply elem_of_app in Hin0 as [?|Hin0]; [done|].
  apply list_elem_of_singleton in Hin0 as ->. exfalso. revert Ht0. unfold Sub, idleRetirementConfirmAfter. rewrite Z.sub_diag. vm_compute. by intros [].
Qed.

(** ** An idle runner that is retired

    One runner beyond the minimum, idle for an hour: the first pass notes it, a pass
    ten seconds later waits, and one half a minute later removes it. *)

Definition idle_runner : Worker_Instance := {|
  Runner_ID := "i-1"; Runner_Name := "runner-1"; Runner_Status := OtherInstanceStatus "running"; Runner_RunnerStatus := RunnerIdle; Runner_AgentID := 31;
  Runner_CreatedAt := 600 * Hour |}.
Definition marked_runner : Worker_Instance := {|
  Runner_ID := "i-1"; Runner_Name := "runner-1"; Runner_Status := InstancePendingDelete; Runner_RunnerStatus := RunnerIdle; Runner_AgentID := 31;
  Runner_CreatedAt := 600 * Hour |}.

Definition zero_demand (at_time : Time) : liveMessageDemand := {|
  sessionID := "s-1"; assigned := 0; observed := true; messageID := 12; observedAt := at_time; demandGeneration := 3 |}.

Definition idle_env (now : Time) (busy : option bool) : RetireEnv := {|
  retire_now := now; worker_runners := [idle_runner];
  worker_set := {| Worker_ScaleSetID := 7; Worker_ScaleSetName := "linux"; Worker_Enabled := true; MaxRunners := 4; MinIdleRunners := 0 |};
  scale_set_client := Ok tt;
  remote_set := Ok {| Remote_ID := 7; Remote_Name := "linux"; Remote_Enabled := Some true; Remote_Statistics := Some (0, 0, 0, 0) |};
  actions_runner := λ _, Some {| Ref_ID := 31; Ref_Name := "runner-1"; Ref_ScaleSetID := 7; Ref_Ephemeral := true; Ref_Enabled := true;
                                 Ref_State := "Provisioned"; Ref_Status := Some "online" |};
  rest_runner := λ _, Some (Some {| Rest_ID := 31; Rest_Name := "runner-1"; Rest_Status := "online"; Rest_Busy := busy |});
  demand_read := λ _, zero_demand (601 * Hour); demand_again := λ _, zero_demand (601 * Hour); later := λ _, now + Second;
  runner_locked := λ _, true; remove_answer := λ _, None;
  readback_answer := λ _, Some {| is_not_found := true; has_conflict := false; text := "not found" |};
  mark_answer := λ _, Marked marked_runner |}.

Definition idle_start : Time := 601 * Hour.
Definition earlier_passes : list RetireEnv := [idle_env idle_start (Some false); idle_env (idle_start + 10 * Second) (Some false)].
Definition last_pass : RetireEnv := idle_env (idle_start + 30 * Second) (Some false).

Example retired_once_confirmed :
  pass_calls (retireExcessIdleCapacity (idle_env (idle_start + 10 * Second) (Some false)) (passes [idle_env idle_start (Some false)])) = [] ∧
  pass_calls (retireExcessIdleCapacity last_pass (passes earlier_passes)) = [RemoveRunner 31; MarkPendingDelete "runner-1"] ∧
  pass_runners (retireExcessIdleCapacity last_pass (passes earlier_passes)) = [marked_runner].
Proof. vm_compute. split_and!; reflexivity. Qed.

(** A pass that finds the runner busy, or is not told, starts the wait again. *)
Example busy_restarts_the_wait busy :
  busy ≠ Some false →
  pass_calls (retireExcessIdleCapacity last_pass (passes [idle_env idle_start (Some false); idle_env (idle_start + 10 * Second) busy])) = [].
Proof. destruct busy as [[]|]; [|done|]; intros _; vm_compute; reflexivity. Qed.

Lemma retirement_confirmed_twice_witness :
  let calls := pass_calls (retireExcessIdleCapacity last_pass (passes earlier_passes)) in
  RemoveRunner 31 ∈ calls ∧
  ∃ r, Runner_AgentID r = 31 ∧ idle_proven last_pass r ∧
    (calls = [RemoveRunner 31] ∨ calls = [RemoveRunner 31; MarkPendingDelete (Runner_Name r)]) ∧
    unchangedIdleZero (demand_again last_pass 31) (demand_read last_pass 31) (later last_pass 31) = true ∧
    ∃ env0 r0, env0 ∈ earlier_passes ∧ idle_proven env0 r0 ∧ Runner_AgentID r0 = 31 ∧ Runner_Name r0 = Runner_Name r ∧
      Worker_ScaleSetID (worker_set env0) = Worker_ScaleSetID (worker_set last_pass) ∧ 30 * Second ≤ Sub (retire_now last_pass) (retire_now env0).
Proof.
  assert (RemoveRunner 31 ∈ pass_calls (retireExcessIdleCapacity last_pass (passes earlier_passes))) as Hin.
  { destruct retired_once_confirmed as (_ & Hcalls & _). rewrite Hcalls. apply list_elem_of_here. }
  split; [exact Hin|]. exact (retirement_confirmed_twice earlier_passes last_pass 31 Hin).
Defined.
