(* ===== verification/QueueReconcile.v ===== *)
(** * Reconciliation of journal intents with GitHub
    ([src/third_party/garm/overlay/workers/scaleset/queue_reconciliation.go],
    [src/third_party/garm/overlay/runner/pool/queue_reconciliation.go],
    [scale_set_identity.go], and the functions of the pool manager they call, from
    [src/third_party/garm/patches])

    Every few minutes the pool manager looks at a few queued intents that no runner
    took, proves against GitHub which workflow job each of them is, and rebinds or
    releases the intent. What GitHub and the database answer is the environment;
    the queue journal is the coordinator's own ([QueueOps]). *)

From S2P Require Import Prelude GoText ProviderRetry QueueIntent QueueScheduler QueueOps.

Local Open Scope Z_scope.
Local Open Scope go_scope.

(** ** Candidates *)

(** The fields of a job that reconciliation reads; the status of a candidate is queued. *)
Record NDDevQueueReconciliationCandidate := { Candidate_Job : Job; Candidate_Labels : list string; Candidate_ScaleSetID : Z }.

Definition candidate_wait : Duration := 2 * Minute.

(** One turn of the loop over the intents. *)
Definition candidate_of (j : queueIntentJournal) (entity : ForgeEntity) (now : Time) (i : queueIntent) : option NDDevQueueReconciliationCandidate :=
  if negb (bool_decide (State i = queueStateQueued)) && negb (bool_decide (State i = queueStateAssigned)) then None
  else if negb (bool_decide (RunnerName i = "")) || negb (RunnerRequestID i =? 0) || negb (bool_decide (Owner i = Entity_Owner entity))
          || negb (validRepository (Repository i)) then None
  else if After (default zero_time (TerminalJobs j !! JobID i)) now then None
  else match split_byte slash (Repository i) with
       | [owner; name] =>
           let matches := match EntityType entity with
                          | ForgeEntityTypeRepository => bool_decide (name = Entity_Name entity)
                          | ForgeEntityTypeOrganization => true
                          | OtherEntityType _ => false
                          end in
           let first := queueWaitSince i in
           if negb (bool_decide (owner = Entity_Owner entity)) || negb matches || IsZero first || (Sub now first <? candidate_wait) then None
           else Some {| Candidate_ScaleSetID := ScaleSetID i; Candidate_Labels := [ScaleSetName i];
                        Candidate_Job := {| ScaleSetJobID := JobID i; RunID := WorkflowRunID i; RepositoryOwner := owner; Job_RepositoryName := name;
                                            Job_Action := EventName i; CreatedAt := first |} |}
       | _ => None
       end.

Definition candidate_less (a b : NDDevQueueReconciliationCandidate) : bool :=
  if negb (CreatedAt (Candidate_Job a) =? CreatedAt (Candidate_Job b))
  then Before (CreatedAt (Candidate_Job a)) (CreatedAt (Candidate_Job b))
  else string_ltb (ScaleSetJobID (Candidate_Job a)) (ScaleSetJobID (Candidate_Job b)).

Definition queueReconciliationCandidates (j : queueIntentJournal) (entity : ForgeEntity) (now : Time) : list NDDevQueueReconciliationCandidate :=
  sort_slice candidate_less (omap (candidate_of j entity now) ((map_to_list (Intents j)).*2)).

(** [None]: no journal is configured; the context has not been cancelled. *)
Definition NDDevQueueReconciliationCandidates (journal : option QueueFile) (entity : ForgeEntity) (now : Time) : result (list NDDevQueueReconciliationCandidate) :=
  match journal with
  | None | Some NoQueueFile => Ok []
  | Some file => j ← current_journal file; Ok (queueReconciliationCandidates j entity now)
  end.

(** ** What GitHub answers *)

(** The getters give the zero value for an absent field; where absence matters the
    field is an option. *)
Record WorkflowRun := {
  Run_ID : Z; CheckSuiteID : Z; Run_HeadSHA : string; Run_Attempt : Z; Run_CreatedAt : option Time;
  Run_Repository : option (string * string);             (* the owner's login and the name *)
}.
Record CheckRun := {
  Check_ID : Z; ExternalID : string; Check_URL : string; Check_HeadSHA : string; Check_SuiteID : option Z; Check_AppSlug : option string;
}.
Record WorkflowJob := {
  GhJob_ID : Z; GhJob_RunID : Z; CheckRunURL : string; GhJob_Attempt : Z; GhJob_HeadSHA : string; GhJob_Labels : list string;
  GhJob_Status : string; GhJob_Conclusion : string;
}.

(** A failed read has the status of the response, when there is one, and the time it
    is noted. *)
Inductive Answer (A : Type) :=
  | ReadFailed (status : option Z) (at_time : Time)
  | ReadOk (a : A).
Arguments ReadFailed {A} _ _.
Arguments ReadOk {A} _.

(** A page of a listing: its items, of which some may be nil, the total it states,
    and the page after it, 0 after the last, when there is a response. *)
Record Page (A : Type) := { page_items : list (option A); page_total : option Z; page_next : option Z }.
Arguments page_items {A} _.
Arguments page_total {A} _.
Arguments page_next {A} _.

(** The parts of a parsed URL that are read, and the functions of the standard
    library that rest on its URL grammar and Unicode tables. *)
Record URL := { Scheme : string; has_User : bool; Opaque_part : string; Fragment : string; Hostname : string; Path : string }.
Class GoTables := {
  url_Parse : string → option URL;
  lower : string → string;                               (* strings.ToLower *)
  EqualFold : string → string → bool;
  runes : string → list Z;                               (* the code points of a text *)
  IsLetter : Z → bool;
  IsDigit : Z → bool;
}.

Definition scaleSetListMaxPages : nat := 10.
Definition githubActionsAppSlug : string := "github-actions".

Section tables.
Context `{!GoTables}.

(** ** Identities *)

Record checkRunURLIdentity := { host : string; owner : string; repo : string; id : Z }.

Definition validCheckRunPathName (name : string) : bool :=
  if bool_decide (name = "") || bool_decide (name = ".") || bool_decide (name = "..") then false
  else forallb (λ r, IsLetter r || IsDigit r || (r =? 45) || (r =? 95) || (r =? 46)) (runes name).

(** [strconv.ParseInt(s, 10, 64)]. *)
Definition ParseInt (s : string) : option Z :=
  let bounded n := if (- 2 ^ 63 <=? n) && (n <? 2 ^ 63) then Some n else None in
  let signed rest (f : Z → Z) := if bool_decide (rest = "") then None else n ← parse_digits rest 0; bounded (f n) in
  match s with
  | String c rest => if Ascii.eqb c "-" then signed rest Z.opp else if Ascii.eqb c "+" then signed rest (λ n, n) else signed s (λ n, n)
  | EmptyString => None
  end.

(** [strings.Trim(s, "/")]. *)
Fixpoint trim_left_slash (s : string) : string :=
  match s with String c rest => if Ascii.eqb c slash then trim_left_slash rest else s | EmptyString => s end.
Definition Trim_slashes (s : string) : string := rev_string (trim_left_slash (rev_string (trim_left_slash s))).

Definition parseCheckRunURL (raw : string) : option checkRunURLIdentity :=
  parsed ← url_Parse raw;
  if negb (bool_decide (Scheme parsed = "https")) || has_User parsed || negb (bool_decide (Opaque_part parsed = ""))
     || negb (bool_decide (Fragment parsed = "")) then None
  else if bool_decide (lower (Hostname parsed) = "") then None
  else
    let parts := split_byte slash (Trim_slashes (Path parsed)) in
    match list_find (λ part, part = "repos") parts with
    | None => None
    | Some (at_index, _) =>
        match drop (S at_index) parts with
        | [o; r; kind; number] =>
            if negb (bool_decide (kind = "check-runs")) || negb (validCheckRunPathName o) || negb (validCheckRunPathName r) then None
            else n ← ParseInt number; if n <=? 0 then None else Some {| host := lower (Hostname parsed); owner := o; repo := r; id := n |}
        | _ => None
        end
    end.

Definition workflowJobBindsCheckRun (job : WorkflowJob) (check : CheckRun) : bool :=
  if Check_ID check =? 0 then false
  else match parseCheckRunURL (CheckRunURL job), parseCheckRunURL (Check_URL check) with
       | Some jobURL, Some listed =>
           (id jobURL =? Check_ID check) && (id listed =? Check_ID check) && bool_decide (host jobURL = host listed)
           && EqualFold (owner jobURL) (owner listed) && EqualFold (repo jobURL) (repo listed)
       | _, _ => false
       end.

Definition isGitHubActionsCheckRun (check : CheckRun) : bool :=
  match Check_AppSlug check with
  | Some slug => negb (bool_decide (slug = "")) && EqualFold slug githubActionsAppSlug
  | None => false
  end.

Definition validTerminalConclusion (conclusion : string) : bool :=
  bool_decide (conclusion ∈ ["success"; "failure"; "cancelled"; "skipped"; "timed_out"; "startup_failure"]).

(** The loop with the value found so far. *)
Fixpoint exactHeadSHA (sha : string) (values : list string) : option string :=
  match values with
  | [] => if bool_decide (sha = "") then None else Some sha
  | value :: rest =>
      if bool_decide (value = "") then None
      else if bool_decide (sha = "") then exactHeadSHA value rest
      else if negb (EqualFold sha value) then None
      else exactHeadSHA sha rest
  end.

Definition label_matches (labels : list string) (s : ScaleSet) : bool := Enabled s && bool_decide (ScaleSet_Name s ∈ labels).

Definition exactScaleSetForJob (scaleSets : list ScaleSet) (labels : list string) : result ScaleSet :=
  if bool_decide (labels = []) then Err (Errorf "queued job has no scale-set labels" [])
  else match List.filter (label_matches labels) scaleSets with
       | [s] => Ok s
       | _ => Err (Errorf "queued job matches %d enabled scale sets" [])
       end.

(** ** Complete listings *)

Record githubListCursor := { seenPages : gset Z; seenIDs : gset Z; collected : Z; expectedTotal : option Z }.
Definition newGitHubListCursor : githubListCursor := {| seenPages := ∅; seenIDs := ∅; collected := 0; expectedTotal := None |}.

(** The loop over the identifiers of a page. *)
Fixpoint note_ids (ids : list Z) (seen : gset Z) : option (gset Z) :=
  match ids with
  | [] => Some seen
  | i :: rest => if (i =? 0) || bool_decide (i ∈ seen) then None else note_ids rest ({[i]} ∪ seen)
  end.

(** [None]: the listing cannot be trusted; otherwise the cursor and whether it is done. *)
Definition accept (c : githubListCursor) (requestedPage : Z) (next : option Z) (ids : list Z) (total : option Z) : option (githubListCursor * bool) :=
  next ← next; total ← total;
  if total <? 0 then None
  else if negb (default total (expectedTotal c) =? total) then None
  else if bool_decide (requestedPage ∈ seenPages c) then None
  else
    let pages := {[requestedPage]} ∪ seenPages c in
    seen ← note_ids ids (seenIDs c);
    let c' := {| seenPages := pages; seenIDs := seen; collected := collected c + Z.of_nat (length ids); expectedTotal := Some total |} in
    if total <? collected c' then None
    else if negb (next =? 0) then
      if (next =? requestedPage) || (next <? 0) || bool_decide (next ∈ pages) then None else Some (c', false)
    else if negb (collected c' =? total) then None
    else Some (c', true).

(** ** Reads

    A read may stop the reconciliation of its job; the only state it changes is the
    time until which reconciliation is deferred. *)
Definition Read (A : Type) : Type := Time → Time * option A.
Definition given {A} (a : A) : Read A := λ blocked, (blocked, Some a).
Definition stopped {A} : Read A := λ blocked, (blocked, None).
Definition and_then {A B} (e : Read A) (f : A → Read B) : Read B :=
  λ blocked, let '(blocked, a) := e blocked in match a with Some a => f a blocked | None => (blocked, None) end.

Declare Scope read_scope.
Delimit Scope read_scope with read.
Notation "'let*' x ':=' e 'in' f" := (and_then e (λ x, f)) (at level 10, x binder, e at level 100, f at level 200) : read_scope.
Notation "'stop_if' b ;; f" := (if b then stopped else f) (at level 10, b at level 99, f at level 200) : read_scope.
Local Open Scope read_scope.

Definition authoritativeReconcileAccessBackoff : Duration := 15 * Minute.
Definition authoritativeReconcileBackoff (status : Z) : Duration := if (status =? 403) || (status =? 429) then authoritativeReconcileAccessBackoff else 0.

Definition deferAuthoritativeReconcile (now : Time) (status : Z) (blocked : Time) : Time :=
  let delay := authoritativeReconcileBackoff status in
  if delay =? 0 then blocked else if After (now + delay) blocked then now + delay else blocked.
Definition authoritativeReconcileDeferred (now blocked : Time) : bool := Before now blocked.

Definition noteAuthoritativeScaleSetRead (status : option Z) (now blocked : Time) : Time :=
  match status with Some s => deferAuthoritativeReconcile now s blocked | None => blocked end.

Definition asked {A} (a : Answer A) : Read A := λ blocked,
  match a with
  | ReadOk a => (blocked, Some a)
  | ReadFailed status at_time => (noteAuthoritativeScaleSetRead status at_time blocked, None)
  end.
(** A pointer that must not be nil. *)
Definition present {A} (a : option A) : Read A := match a with Some a => given a | None => stopped end.

(** *** A whole listing

    The two listings have one loop: the items are walked for the one that [binds],
    then the cursor takes the page. *)
Section listing.
Context {A : Type} (item_id : A → Z) (binds : A → bool) (pages : Z → Answer (option (Page A))).

(** The loop over a page; [None]: a nil item, or a second match. *)
Fixpoint match_items (items : list (option A)) (matched : option A) (ids : list Z) : option (option A * list Z) :=
  match items with
  | [] => Some (matched, ids)
  | None :: _ => None
  | Some a :: rest =>
      if negb (binds a) then match_items rest matched (ids ++ [item_id a])
      else match matched with
           | Some m => if negb (item_id m =? item_id a) then None else match_items rest (Some a) (ids ++ [item_id a])
           | None => match_items rest (Some a) (ids ++ [item_id a])
           end
  end.

Fixpoint list_pages (turns : nat) (c : githubListCursor) (requestedPage : Z) (matched : option A) : Read (option A) :=
  match turns with
  | O => stopped
  | S turns =>
      let* answer := asked (pages requestedPage) in
      let* results := present answer in
      let* found := present (match_items (page_items results) matched []) in
      let* step := present (accept c requestedPage (page_next results) found.2 (page_total results)) in
      if (step.2 : bool) then given found.1
      else list_pages turns step.1 (default 0 (page_next results)) found.1
  end.

Definition list_exact : Read (option A) := list_pages scaleSetListMaxPages newGitHubListCursor 0 None.
End listing.

(** ** The environment of a pass *)

Record ReconcileEnv := {
  forge_is_github : bool;
  get_run : string → string → Z → Answer (option WorkflowRun);
  (* the first argument tells the reads of a discovery from those of the verification *)
  list_check_runs : bool → string → string → Z → Z → Answer (option (Page CheckRun));
  list_attempt_jobs : string → string → Z → Z → Z → Answer (option (Page WorkflowJob));
  get_job : string → string → Z → Answer (option WorkflowJob);
  (* [None]: the client lists no runs *)
  list_runs : option (string → string → Time → Time → Answer (option (Page WorkflowRun)));
  entity_scale_sets : string → result (list ScaleSet);
  entity_scale_sets_again : string → result (list ScaleSet);
  queue_config : result queueAdmissionConfig;
  ensure_env : string → QueueEnv;
  remove_env : string → QueueEnv;
  row_deleted : string → bool;                           (* deleted, or not there *)
  candidates_time : Time;
  pass_time : Time;
  turn_time : string → Time;
  turn_cancelled : string → bool;
}.

(** The state the pool manager and the coordinator share. *)
Record ManagerState := { queue : option QueueFile; blockedUntil : Time; checkedJournalIntents : gmap string Time }.
Definition set_blocked (t : Time) (m : ManagerState) : ManagerState :=
  {| queue := queue m; blockedUntil := t; checkedJournalIntents := checkedJournalIntents m |}.
Definition set_queue (f : QueueFile) (m : ManagerState) : ManagerState :=
  {| queue := Some f; blockedUntil := blockedUntil m; checkedJournalIntents := checkedJournalIntents m |}.
Definition set_checked (c : gmap string Time) (m : ManagerState) : ManagerState :=
  {| queue := queue m; blockedUntil := blockedUntil m; checkedJournalIntents := c |}.

(** What a reconciliation changes, in order. *)
Inductive ReconcileCall :=
  | EnsureQueueIntent (jobID : string)
  | RemoveQueueIntent (jobID : string)
  | DeleteScaleSetJob (jobID : string).

Section manager.
Context (env : ReconcileEnv) (entity : ForgeEntity).

Definition listExactScaleSetCheckRun (discovering : bool) (job : Job) (run : WorkflowRun) : Read (option CheckRun) :=
  list_exact Check_ID (λ c, bool_decide (ExternalID c = ScaleSetJobID job))
    (list_check_runs env discovering (RepositoryOwner job) (Job_RepositoryName job) (CheckSuiteID run)).

Definition listExactAttemptJobForCheckRun (job : Job) (run : WorkflowRun) (check : CheckRun) : Read WorkflowJob :=
  let* matched := list_exact GhJob_ID (λ j, workflowJobBindsCheckRun j check)
    (list_attempt_jobs env (RepositoryOwner job) (Job_RepositoryName job) (RunID job) (Run_Attempt run)) in
  present matched.

Definition same_repository (job : Job) (o name : string) : bool :=
  EqualFold o (RepositoryOwner job) && EqualFold name (Job_RepositoryName job).

(** The reads and guards of [reconcileExactScaleSetJob] up to its switch: the workflow
    job the queued job is proven to be. *)
Definition exact_job (c : NDDevQueueReconciliationCandidate) (expectedScaleSetID : Z) : Read WorkflowJob :=
  let job := Candidate_Job c in
  stop_if bool_decide (ScaleSetJobID job = "") || (RunID job =? 0) || bool_decide (RepositoryOwner job = "") || bool_decide (Job_RepositoryName job = "") ;;
  stop_if negb (forge_is_github env) ;;
  stop_if match EntityType entity with
          | ForgeEntityTypeRepository => negb (EqualFold (Entity_Owner entity) (RepositoryOwner job) && EqualFold (Entity_Name entity) (Job_RepositoryName job))
          | _ => false
          end ;;
  let* answer := asked (get_run env (RepositoryOwner job) (Job_RepositoryName job) (RunID job)) in
  let* run := present answer in
  stop_if negb (Run_ID run =? RunID job) || (CheckSuiteID run =? 0) || bool_decide (Run_HeadSHA run = "") || (Run_Attempt run <=? 0) ;;
  let* repository := present (Run_Repository run) in
  stop_if bool_decide (repository.1 = "") || bool_decide (repository.2 = "") ;;
  stop_if negb (same_repository job repository.1 repository.2) ;;
  let* listed := listExactScaleSetCheckRun false job run in
  let* check := present listed in
  stop_if negb (isGitHubActionsCheckRun check) ;;
  stop_if bool_decide (Check_HeadSHA check = "") || (Check_ID check =? 0) ;;
  stop_if negb (bool_decide (Check_SuiteID check = Some (CheckSuiteID run))) ;;
  let* listedJob := listExactAttemptJobForCheckRun job run check in
  let* answer := asked (get_job env (RepositoryOwner job) (Job_RepositoryName job) (GhJob_ID listedJob)) in
  let* ghJob := present answer in
  stop_if negb (GhJob_ID ghJob =? GhJob_ID listedJob) || (GhJob_ID ghJob =? 0) || negb (GhJob_RunID ghJob =? RunID job) ;;
  stop_if negb (workflowJobBindsCheckRun ghJob check) ;;
  stop_if (GhJob_Attempt ghJob <=? 0) || negb (GhJob_Attempt ghJob =? Run_Attempt run) ;;
  stop_if negb (bool_decide (is_Some (exactHeadSHA "" [Run_HeadSHA run; Check_HeadSHA check; GhJob_HeadSHA ghJob]))) ;;
  stop_if bool_decide (GhJob_Labels ghJob = []) ;;
  match (scaleSets ← entity_scale_sets env (ScaleSetJobID job); exactScaleSetForJob scaleSets (GhJob_Labels ghJob)) with
  | Err _ => stopped
  | Ok s => stop_if negb (expectedScaleSetID =? 0) && negb (ScaleSet_ID s =? expectedScaleSetID) ;; given ghJob
  end.

Definition ensureAuthoritativeQueueIntent (c : NDDevQueueReconciliationCandidate) (m : ManagerState) : ManagerState * list ReconcileCall * bool :=
  let job := Candidate_Job c in
  match (scaleSets ← entity_scale_sets_again env (ScaleSetJobID job); exactScaleSetForJob scaleSets (Candidate_Labels c)) with
  | Err _ => (m, [], false)
  | Ok s =>
      let '(file, r) := EnsureAuthoritative (queue_config env) (ensure_env env (ScaleSetJobID job)) s entity job (default NoQueueFile (queue m)) in
      (set_queue file m, [EnsureQueueIntent (ScaleSetJobID job)], match r with Ok _ => true | Err _ => false end)
  end.

Definition deleteStaleScaleSetJob (job : Job) (releaseIntent : bool) (m : ManagerState) : ManagerState * list ReconcileCall * bool :=
  let jobID := ScaleSetJobID job in
  let row := [DeleteScaleSetJob jobID] in
  if releaseIntent then
    let '(file, r) := NDDevRemoveQueueIntent (queue_config env) (remove_env env jobID) jobID (default NoQueueFile (queue m)) in
    match r with
    | Err _ => (set_queue file m, [RemoveQueueIntent jobID], false)
    | Ok _ => (set_queue file m, RemoveQueueIntent jobID :: row, row_deleted env jobID)
    end
  else (m, row, row_deleted env jobID).

Definition reconcileExactScaleSetJob (c : NDDevQueueReconciliationCandidate) (expectedScaleSetID : Z) (m : ManagerState)
    : ManagerState * list ReconcileCall * bool :=
  let '(blocked, found) := exact_job c expectedScaleSetID (blockedUntil m) in
  let m := set_blocked blocked m in
  match found with
  | None => (m, [], false)
  | Some ghJob =>
      if bool_decide (GhJob_Status ghJob = "queued") then let '(m, calls, _) := ensureAuthoritativeQueueIntent c m in (m, calls, false)
      else if bool_decide (GhJob_Status ghJob = "in_progress") then
        let '(m, calls, ok) := ensureAuthoritativeQueueIntent c m in
        if negb ok then (m, calls, false)
        else let '(m, more, b) := deleteStaleScaleSetJob (Candidate_Job c) false m in (m, calls ++ more, b)
      else if bool_decide (GhJob_Status ghJob = "completed") then
        if negb (validTerminalConclusion (GhJob_Conclusion ghJob)) then (m, [], false) else deleteStaleScaleSetJob (Candidate_Job c) true m
      else (m, [], false)
  end.

(** ** Legacy intents without a run *)

Definition queueJournalReconcileInterval : Duration := 5 * Minute.
Definition queueJournalReconcileBatch : nat := 2.
Definition queueLegacyRunLimit : Z := 10.

(** The checks of the window of runs, with the identifiers seen so far. *)
Fixpoint check_runs (job : Job) (from until : Time) (runs : list (option WorkflowRun)) (seen : gset Z) : option (list WorkflowRun) :=
  match runs with
  | [] => Some []
  | None :: _ => None
  | Some run :: rest =>
      if (Run_ID run <=? 0) || bool_decide (Run_ID run ∈ seen) || (CheckSuiteID run <=? 0) then None
      else match Run_CreatedAt run, Run_Repository run with
           | Some created, Some (o, name) =>
               if Before created from || After created until || negb (same_repository job o name) then None
               else checked ← check_runs job from until rest ({[Run_ID run]} ∪ seen); Some (run :: checked)
           | _, _ => None
           end
  end.

(** The run whose suite has the job's check run; a second one stops. *)
Fixpoint match_runs (job : Job) (runs : list WorkflowRun) (matched : Z) : Read Z :=
  match runs with
  | [] => given matched
  | run :: rest =>
      let* listed := listExactScaleSetCheckRun true job run in
      match listed with
      | None => match_runs job rest matched
      | Some check => stop_if negb (isGitHubActionsCheckRun check) || negb (matched =? 0) ;; match_runs job rest (Run_ID run)
      end
  end.

Definition discoverLegacyQueueRun (job : Job) : Read Z :=
  let* lister := present (list_runs env) in
  stop_if IsZero (CreatedAt job) || bool_decide (ScaleSetJobID job = "") ;;
  let from := CreatedAt job - 30 * Minute in
  let until := CreatedAt job + Minute in
  let* answer := asked (lister (RepositoryOwner job) (Job_RepositoryName job) from until) in
  let* runs := present answer in
  let* total := present (page_total runs) in
  stop_if (total <? 0) || (queueLegacyRunLimit <? total) || negb (Z.of_nat (length (page_items runs)) =? total)
          || negb (bool_decide (page_next runs = Some 0)) ;;
  let* checked := present (check_runs job from until (page_items runs) ∅) in
  let* matched := match_runs job checked 0 in
  stop_if (matched =? 0) ;; given matched.

(** ** The pass *)

Definition set_run (runID : Z) (c : NDDevQueueReconciliationCandidate) : NDDevQueueReconciliationCandidate :=
  let job := Candidate_Job c in
  {| Candidate_Job := {| ScaleSetJobID := ScaleSetJobID job; RunID := runID; RepositoryOwner := RepositoryOwner job;
                         Job_RepositoryName := Job_RepositoryName job; Job_Action := Job_Action job; CreatedAt := CreatedAt job |};
     Candidate_Labels := Candidate_Labels c; Candidate_ScaleSetID := Candidate_ScaleSetID c |}.

(** One candidate whose turn it is. *)
Definition reconcile_candidate (c : NDDevQueueReconciliationCandidate) (m : ManagerState) : ManagerState * list ReconcileCall :=
  if RunID (Candidate_Job c) =? 0 then
    let '(blocked, found) := discoverLegacyQueueRun (Candidate_Job c) (blockedUntil m) in
    let m := set_blocked blocked m in
    match found with
    | None => (m, [])
    | Some runID => let '(m, calls, _) := reconcileExactScaleSetJob (set_run runID c) (Candidate_ScaleSetID c) m in (m, calls)
    end
  else let '(m, calls, _) := reconcileExactScaleSetJob c (Candidate_ScaleSetID c) m in (m, calls).

Definition recently_checked (jobID : string) (m : ManagerState) : bool :=
  match checkedJournalIntents m !! jobID with
  | Some last => negb (IsZero last) && (Sub (pass_time env) last <? queueJournalReconcileInterval)
  | None => false
  end.

(** The loop with the number of candidates checked so far; it returns the jobs checked
    and the calls made. *)
Fixpoint reconcile_loop (candidates : list NDDevQueueReconciliationCandidate) (checked : nat) (m : ManagerState)
    : ManagerState * list string * list ReconcileCall :=
  match candidates with
  | [] => (m, [], [])
  | c :: rest =>
      let jobID := ScaleSetJobID (Candidate_Job c) in
      if (queueJournalReconcileBatch <=? checked)%nat || authoritativeReconcileDeferred (turn_time env jobID) (blockedUntil m) || turn_cancelled env jobID
      then (m, [], [])
      else if recently_checked jobID m then reconcile_loop rest checked m
      else
        let m := set_checked (<[jobID := pass_time env]> (checkedJournalIntents m)) m in
        let '(m, calls) := reconcile_candidate c m in
        let '(m, jobs, more) := reconcile_loop rest (S checked) m in
        (m, jobID :: jobs, calls ++ more)
  end.

Definition forget_checked (now : Time) (checked : gmap string Time) : gmap string Time :=
  filter (λ kt, ¬ 2 * queueJournalReconcileInterval < Sub now kt.2) checked.

Definition reconcileJournalQueueIntents (m : ManagerState) : ManagerState * list string * list ReconcileCall :=
  match NDDevQueueReconciliationCandidates (queue m) entity (candidates_time env) with
  | Err _ => (m, [], [])
  | Ok candidates => reconcile_loop candidates 0 (set_checked (forget_checked (pass_time env) (checkedJournalIntents m)) m)
  end.

End manager.
End tables.
