(* ===== verification/QueueReconcileFacts.v ===== *)
(** * What reconciling journal intents guarantees

    Listings are read whole or not at all, and an intent is released only for a
    workflow job that is proven to be its own and completed. *)

From S2P Require Import Prelude GoText ProviderRetry QueueIntent QueueScheduler QueueOps QueueReconcile.

Local Open Scope Z_scope.
Local Open Scope go_scope.

(** ** Reads *)

Lemma and_then_Some {A B} (e : Read A) (f : A → Read B) blocked blocked' b :
  and_then e f blocked = (blocked', Some b) → ∃ a blocked1, e blocked = (blocked1, Some a) ∧ f a blocked1 = (blocked', Some b).
Proof. unfold and_then. destruct (e blocked) as [blocked1 [a|]]; [|done]. intros H. by exists a, blocked1. Qed.

Lemma present_Some {A} (o : option A) blocked blocked' a : present o blocked = (blocked', Some a) → o = Some a ∧ blocked' = blocked.
Proof. destruct o; [|done]. by intros [= <- <-]. Qed.

Lemma asked_Some {A} (answer : Answer A) blocked blocked' a : asked answer blocked = (blocked', Some a) → answer = ReadOk a ∧ blocked' = blocked.
Proof. destruct answer; [done|]. by intros [= <- <-]. Qed.

Lemma stop_Some {A} (b : bool) (f : Read A) blocked blocked' a :
  (if b then stopped else f) blocked = (blocked', Some a) → b = false ∧ f blocked = (blocked', Some a).
Proof. by destruct b. Qed.

(** Take a successful read apart. *)
Ltac read_steps H :=
  repeat match type of H with
  | and_then (present _) _ _ = (_, Some _) => apply and_then_Some in H as (? & ? & [? ->]%present_Some & H)
  | and_then (asked _) _ _ = (_, Some _) => apply and_then_Some in H as (? & ? & [? ->]%asked_Some & H)
  | and_then _ _ _ = (_, Some _) => apply and_then_Some in H as (? & ? & ? & H)
  | (if _ then stopped else _) _ = (_, Some _) => apply stop_Some in H as [? H]
  end.

(** ** Complete listings *)

Section listing.
Context {A : Type} (item_id : A → Z) (binds : A → bool) (pages : Z → Answer (option (Page A))).

(** The items [xs] on the chain of pages from [p] to the last, each stating [total]. *)
Inductive listing (total : Z) : Z → list A → Prop :=
  | listing_last p r xs :
      pages p = ReadOk (Some r) → page_items r = Some <$> xs → page_total r = Some total → page_next r = Some 0 → listing total p xs
  | listing_more p r xs n rest :
      pages p = ReadOk (Some r) → page_items r = Some <$> xs → page_total r = Some total → page_next r = Some n → n ≠ 0 →
      listing total n rest → listing total p (xs ++ rest).

(** The whole listing: as many items as every page states, all distinct. *)
Definition complete_listing (xs : list A) : Prop :=
  listing (Z.of_nat (length xs)) 0 xs ∧ NoDup (item_id <$> xs) ∧ 0 ∉ (item_id <$> xs).

Lemma note_ids_Some ids seen seen' :
  note_ids ids seen = Some seen' → seen' = list_to_set ids ∪ seen ∧ NoDup ids ∧ (0 ∉ ids) ∧ (∀ i, i ∈ ids → i ∉ seen).
Proof.
  revert seen. induction ids as [|i ids IH]; intros seen; simpl; [intros [= <-]; split_and!; [set_solver|constructor|set_solver..]|].
  destruct (i =? 0) eqn:H0; [done|]. case_bool_decide as Hi; [done|]. intros (-> & Hnd & Hz & Hfresh)%IH.
  split_and!; [set_solver| |set_solver by lia|set_solver]. constructor; [|done]. intros Hin. specialize (Hfresh i Hin). set_solver.
Qed.

Lemma accept_Some c p next ids total c' done :
  accept c p next ids total = Some (c', done) →
  ∃ n t, next = Some n ∧ total = Some t ∧ (expectedTotal c = None ∨ expectedTotal c = Some t) ∧ expectedTotal c' = Some t ∧
    seenIDs c' = list_to_set ids ∪ seenIDs c ∧ collected c' = collected c + Z.of_nat (length ids) ∧
    NoDup ids ∧ (0 ∉ ids) ∧ (∀ i, i ∈ ids → i ∉ seenIDs c) ∧ (if done then n = 0 ∧ collected c' = t else n ≠ 0).
Proof.
  unfold accept. intros H. apply bind_Some in H as (n & -> & H). apply bind_Some in H as (t & -> & H).
  destruct (t <? 0); [done|]. destruct (default t (expectedTotal c) =? t) eqn:Ht; cbn [negb] in H; [|done].
  case_bool_decide; [done|]. cbv zeta in H. apply bind_Some in H as (seen & Hseen & H). apply note_ids_Some in Hseen as (-> & Hnd & Hz & Hfresh).
  exists n, t. destruct (_ <? _); [done|].
  assert (expectedTotal c = None ∨ expectedTotal c = Some t) as Hex. { destruct (expectedTotal c); [right; f_equal; simpl in Ht; lia|by left]. }
  destruct (n =? 0) eqn:Hn; cbn [negb] in H; cycle 1.
  - match type of H with (if ?b then _ else _) = _ => destruct b; [done|] end. injection H as <- <-. split_and!; try done. lia.
  - match type of H with (if ?b then _ else _) = _ => destruct b eqn:Hc; [done|] end. apply negb_false_iff in Hc. injection H as <- <-. split_and!; try done; lia.
Qed.

(** What walking a page finds: the last match, all matches having one identifier. *)
Lemma match_items_Some items matched ids m' ids' :
  match_items item_id binds items matched ids = Some (m', ids') →
  ∃ xs, items = Some <$> xs ∧ ids' = ids ++ (item_id <$> xs) ∧
    let found := option_list matched ++ List.filter binds xs in
    last found = m' ∧ ∀ a b, a ∈ found → b ∈ found → item_id a = item_id b.
Proof.
  revert matched ids. induction items as [|[a|] items IH]; intros matched ids H; simpl in H; [|..|done].
  - injection H as <- <-. exists []. split_and!; [done|by rewrite app_nil_r|]. simpl. rewrite app_nil_r.
    split; [by destruct matched|]. destruct matched; set_solver.
  - destruct (binds a) eqn:Hb; cbn [negb] in H.
    + assert (match_items item_id binds items (Some a) (ids ++ [item_id a]) = Some (m', ids') ∧
              (∀ m, matched = Some m → item_id m = item_id a)) as [H' Hm].
      { destruct matched as [m|]; [|done]. destruct (item_id m =? item_id a) eqn:He; [|done]. split; [done|]. intros ? [= <-]. lia. }
      apply IH in H' as (xs & -> & -> & Hlast & Hsame). exists (a :: xs). split_and!; [done|by rewrite <- app_assoc|].
      simpl in *. rewrite Hb. split.
      * destruct matched; [|done]. simpl. by destruct (List.filter binds xs).
      * assert (∀ x, x ∈ option_list matched ++ a :: List.filter binds xs → item_id x = item_id a) as Hall.
        { intros x [Hx|Hx]%elem_of_app; [|apply Hsame; [done|apply list_elem_of_here]]. destruct matched as [m|]; [|set_solver].
          apply list_elem_of_singleton in Hx as ->. by apply Hm. }
        intros x y Hx Hy. by rewrite (Hall x Hx), (Hall y Hy).
    + apply IH in H as (xs & -> & -> & Hfound). exists (a :: xs). split_and!; [done|by rewrite <- app_assoc|]. simpl. by rewrite Hb.
Qed.

(** Distinct items with one identifier are at most one. *)
Lemma one_match (found : list A) m :
  NoDup (item_id <$> found) → (∀ a b, a ∈ found → b ∈ found → item_id a = item_id b) → last found = m → found = option_list m.
Proof.
  intros Hnd Hsame <-. destruct found as [|a [|b found]]; [done..|]. exfalso. simpl in Hnd. apply NoDup_cons in Hnd as [Hnin _].
  apply Hnin. rewrite (Hsame a b); [|set_solver..]. apply list_elem_of_here.
Qed.

Lemma filter_ids_NoDup xs : NoDup (item_id <$> xs) → NoDup (item_id <$> List.filter binds xs).
Proof.
  induction xs as [|a xs IH]; [done|]. simpl. intros [Hnin Hnd]%NoDup_cons. destruct (binds a); [|by apply IH].
  simpl. apply NoDup_cons. split; [|by apply IH]. intros (b & Hab & Hb)%list_elem_of_fmap. apply Hnin. rewrite Hab.
  apply list_elem_of_fmap_2. apply list_elem_of_In, filter_In in Hb as [Hb _]. by apply list_elem_of_In.
Qed.

(** What the cursor and the match know after the items [acc]. *)
Definition walked (c : githubListCursor) (matched : option A) (acc : list A) : Prop :=
  seenIDs c = list_to_set (item_id <$> acc) ∧ collected c = Z.of_nat (length acc) ∧ NoDup (item_id <$> acc) ∧ (0 ∉ (item_id <$> acc)) ∧
  List.filter binds acc = option_list matched.

Lemma list_pages_complete turns c p matched acc blocked blocked' m :
  walked c matched acc → list_pages item_id binds pages turns c p matched blocked = (blocked', Some m) →
  ∃ total xs, listing total p xs ∧ (expectedTotal c = None ∨ expectedTotal c = Some total) ∧ Z.of_nat (length (acc ++ xs)) = total ∧
    NoDup (item_id <$> (acc ++ xs)) ∧ (0 ∉ (item_id <$> (acc ++ xs))) ∧ List.filter binds (acc ++ xs) = option_list m.
Proof.
  revert c p matched acc blocked. induction turns as [|turns IH]; intros c p matched acc blocked (Hseen & Hcol & Hnd & Hz & Hm) H; [done|].
  cbn [list_pages] in H. apply and_then_Some in H as (answer & b1 & [Hans ->]%asked_Some & H).
  apply and_then_Some in H as (r & b2 & [-> ->]%present_Some & H). apply and_then_Some in H as ([m1 ids] & b3 & [Hmatch ->]%present_Some & H).
  apply and_then_Some in H as ([c' fin] & b4 & [Hacc ->]%present_Some & H). cbn [fst snd] in *.
  apply match_items_Some in Hmatch as (xs & Hitems & -> & Hlast & Hsame). rewrite app_nil_l in Hacc.
  apply accept_Some in Hacc as (n & t & Hnext & Htotal & Hex & Hex' & Hseen' & Hcol' & Hndx & Hzx & Hfresh & Hfin).
  rewrite length_fmap in Hcol'.
  assert (NoDup (item_id <$> (acc ++ xs))) as Hnd'.
  { rewrite fmap_app. apply NoDup_app. split_and!; [done| |done]. intros i Hi Hix. apply (Hfresh i Hix). rewrite Hseen. by apply elem_of_list_to_set. }
  assert (walked c' m1 (acc ++ xs)) as Hwalked.
  { split_and!; [rewrite Hseen', Hseen, fmap_app, list_to_set_app_L; set_solver|rewrite Hcol', Hcol, length_app; lia|done|
      rewrite fmap_app; set_solver|].
    rewrite <- Hm, <- List.filter_app in Hlast, Hsame. apply one_match; [by apply filter_ids_NoDup|done|done]. }
  destruct fin.
  - destruct Hfin as [-> Hct]. injection H as <- <-. destruct Hwalked as (_ & Hc1 & Hnd1 & Hz1 & Hm1). exists t, xs.
    split_and!; [by eapply listing_last|done|lia|done..].
  - rewrite Hnext in H. simpl in H. destruct (IH _ _ _ _ _ Hwalked H) as (total & ys & Hl & Htot & Hlen & Hnd2 & Hz2 & Hm2).
    assert (total = t) as -> by (destruct Htot; congruence).
    exists t, (xs ++ ys). rewrite app_assoc. split_and!; [by eapply listing_more|done..].
Qed.

(** A listing that is accepted is whole, and its match is the only one. *)
Lemma list_exact_complete blocked blocked' m :
  list_exact item_id binds pages blocked = (blocked', Some m) → ∃ xs, complete_listing xs ∧ List.filter binds xs = option_list m.
Proof.
  intros H. eapply (list_pages_complete _ _ _ _ []) in H as (total & xs & Hl & _ & Hlen & Hnd & Hz & Hm).
  - rewrite app_nil_l in *. exists xs. unfold complete_listing. by rewrite Hlen.
  - split_and!; [done|done|constructor|set_solver|done].
Qed.
End listing.

(** ** The workflow job of an intent *)

Section manager.
Context `{!GoTables} (env : ReconcileEnv) (entity : ForgeEntity).

(** [gh] is what GitHub holds now for the job: its run, the only check run with the
    job's GUID in the run's whole check suite, and the only job of the run's attempt
    that points to this check run, all on one commit; and its labels name exactly
    one enabled scale set, the expected one. *)
Record proven_job (c : NDDevQueueReconciliationCandidate) (expected : Z) (gh : WorkflowJob) : Prop := {
  proven_identity : ∃ run check listed checks jobs,
    let job := Candidate_Job c in
    get_run env (RepositoryOwner job) (Job_RepositoryName job) (RunID job) = ReadOk (Some run) ∧ Run_ID run = RunID job ∧
    complete_listing Check_ID (list_check_runs env false (RepositoryOwner job) (Job_RepositoryName job) (CheckSuiteID run)) checks ∧
    List.filter (λ k, bool_decide (ExternalID k = ScaleSetJobID job)) checks = [check] ∧
    isGitHubActionsCheckRun check = true ∧ Check_SuiteID check = Some (CheckSuiteID run) ∧
    complete_listing GhJob_ID (list_attempt_jobs env (RepositoryOwner job) (Job_RepositoryName job) (RunID job) (Run_Attempt run)) jobs ∧
    List.filter (λ j, workflowJobBindsCheckRun j check) jobs = [listed] ∧
    get_job env (RepositoryOwner job) (Job_RepositoryName job) (GhJob_ID listed) = ReadOk (Some gh) ∧
    GhJob_ID gh = GhJob_ID listed ∧ GhJob_RunID gh = RunID job ∧ workflowJobBindsCheckRun gh check = true ∧ GhJob_Attempt gh = Run_Attempt run ∧
    EqualFold (Run_HeadSHA run) (Check_HeadSHA check) = true ∧ EqualFold (Run_HeadSHA run) (GhJob_HeadSHA gh) = true;
  proven_scale_set : ∃ scaleSets s,
    entity_scale_sets env (ScaleSetJobID (Candidate_Job c)) = Ok scaleSets ∧ List.filter (label_matches (GhJob_Labels gh)) scaleSets = [s] ∧
    (expected = 0 ∨ ScaleSet_ID s = expected);
}.

Lemma exactHeadSHA_three a b c : is_Some (exactHeadSHA "" [a; b; c]) → EqualFold a b = true ∧ EqualFold a c = true.
Proof.
  simpl. intros [x Hx]. destruct (bool_decide (a = "")); [done|]. destruct (bool_decide (b = "")); [done|].
  destruct (EqualFold a b); [|done]. simpl in Hx. destruct (bool_decide (c = "")); [done|]. by destruct (EqualFold a c).
Qed.

Lemma exactScaleSet_Ok scaleSets labels s : exactScaleSetForJob scaleSets labels = Ok s → List.filter (label_matches labels) scaleSets = [s].
Proof. unfold exactScaleSetForJob. case_bool_decide; [done|]. destruct (List.filter _ _) as [|s' []]; [done| |done]. by intros [= ->]. Qed.

Lemma filter_one {A} (p : A → bool) xs o a : List.filter p xs = option_list o → o = Some a → List.filter p xs = [a].
Proof. by intros -> ->. Qed.

Lemma exact_job_proven c expected blocked blocked' gh : exact_job env entity c expected blocked = (blocked', Some gh) → proven_job c expected gh.
Proof.
  unfold exact_job. cbv zeta. intros Hrun. read_steps Hrun.
  match type of Hrun with (match ?e with Ok _ => _ | Err _ => _ end) _ = _ => destruct e as [s|] eqn:Hsets; [|done] end.
  apply stop_Some in Hrun as [Hexp Hrun]. injection Hrun as <- <-. unfold listExactScaleSetCheckRun, listExactAttemptJobForCheckRun in *.
  repeat match goal with H : and_then _ _ _ = (_, Some _) |- _ => apply and_then_Some in H as (? & ? & ? & [? ->]%present_Some) end.
  repeat match goal with H : list_exact _ _ _ _ = _ |- _ => apply list_exact_complete in H as (? & ? & ?) end.
  repeat match goal with
  | H : _ || _ = false |- _ => apply orb_false_iff in H as [? ?]
  | H : negb _ = false |- _ => apply negb_false_iff in H
  | H : bool_decide _ = true |- _ => apply bool_decide_eq_true in H
  | H : (_ =? _) = true |- _ => apply Z.eqb_eq in H
  end.
  apply bind_Ok in Hsets as (scaleSets & Hlist & Hs%exactScaleSet_Ok).
  match goal with H : is_Some (exactHeadSHA _ _) |- _ => apply exactHeadSHA_three in H as [? ?] end. simplify_eq.
  split; [|exists scaleSets, s; split_and!; [done..|]; apply andb_false_iff in Hexp; lia].
  eexists _, _, _, _, _. split_and!; first [eassumption|by eapply filter_one].
Qed.

(** ** What a reconciliation calls *)

Lemma ensure_calls c m m' calls ok : ensureAuthoritativeQueueIntent env entity c m = (m', calls, ok) →
  calls = [] ∧ ok = false ∨ calls = [EnsureQueueIntent (ScaleSetJobID (Candidate_Job c))].
Proof.
  unfold ensureAuthoritativeQueueIntent. destruct (entity_scale_sets_again _ _ ≫= _) as [s|e]; [|intros [= <- <- <-]; by left].
  destruct (EnsureAuthoritative _ _ _ _ _ _) as [file [b|e]]; intros [= <- <- <-]; by right.
Qed.

(** Nothing but the intent and the row of the job is touched; the row is deleted
    only for a proven job that runs, after its intent was ensured, or completed,
    after its intent was removed; and an intent is removed only for the latter. *)
Definition calls_justified (c : NDDevQueueReconciliationCandidate) (expected : Z) (calls : list ReconcileCall) : Prop :=
  let jobID := ScaleSetJobID (Candidate_Job c) in
  calls = [] ∨
  ∃ gh, proven_job c expected gh ∧
    ((calls = [EnsureQueueIntent jobID] ∧ GhJob_Status gh ∈ ["queued"; "in_progress"]) ∨
     (calls = [EnsureQueueIntent jobID; DeleteScaleSetJob jobID] ∧ GhJob_Status gh = "in_progress") ∨
     ((calls = [RemoveQueueIntent jobID] ∨ calls = [RemoveQueueIntent jobID; DeleteScaleSetJob jobID]) ∧
      GhJob_Status gh = "completed" ∧ validTerminalConclusion (GhJob_Conclusion gh) = true)).

Lemma reconcile_justified c expected m m' calls b : reconcileExactScaleSetJob env entity c expected m = (m', calls, b) → calls_justified c expected calls.
Proof.
  unfold reconcileExactScaleSetJob. destruct (exact_job env entity c expected (blockedUntil m)) as [blocked [gh|]] eqn:Hex; cycle 1.
  { intros [= <- <- <-]. by left. }
  apply exact_job_proven in Hex. cbv zeta. case_bool_decide as Hq.
  { destruct (ensureAuthoritativeQueueIntent _ _ _ _) as [[m2 ensured] ok] eqn:Hens. intros [= <- <- <-].
    apply ensure_calls in Hens as [[-> _]| ->]; [by left|right]. exists gh. split; [done|left]. set_solver. }
  case_bool_decide as Hp.
  { destruct (ensureAuthoritativeQueueIntent _ _ _ _) as [[m2 ensured] ok] eqn:Hens. apply ensure_calls in Hens as [[-> ->]| ->].
    - intros [= <- <- <-]. by left.
    - destruct ok; cbn [negb]; intros [= <- <- <-]; right; exists gh; (split; [done|]); [right; by left|left; set_solver]. }
  case_bool_decide as Hc; [|intros [= <- <- <-]; by left]. destruct (validTerminalConclusion _) eqn:Hv; cbn [negb]; [|intros [= <- <- <-]; by left].
  unfold deleteStaleScaleSetJob. destruct (NDDevRemoveQueueIntent _ _ _ _) as [file [x|e]]; intros [= <- <- <-]; right; exists gh; (split; [done|]);
    right; right; auto.
Qed.

(** The candidate is verified as it stands, or with the run that was discovered. *)
Lemma candidate_justified c m m' calls :
  reconcile_candidate env entity c m = (m', calls) →
  calls_justified c (Candidate_ScaleSetID c) calls ∨
  RunID (Candidate_Job c) = 0 ∧ ∃ runID, calls_justified (set_run runID c) (Candidate_ScaleSetID c) calls.
Proof.
  unfold reconcile_candidate. destruct (RunID (Candidate_Job c) =? 0) eqn:Hr.
  - destruct (discoverLegacyQueueRun _ _ _) as [blocked [runID|]]; [|intros [= <- <-]; left; by left]. cbv zeta.
    destruct (reconcileExactScaleSetJob _ _ _ _ _) as [[m1 calls1] b] eqn:Hrec. intros [= <- <-]. right. split; [lia|]. exists runID.
    by eapply reconcile_justified.
  - destruct (reconcileExactScaleSetJob _ _ _ _ _) as [[m1 calls1] b] eqn:Hrec. intros [= <- <-]. left. by eapply reconcile_justified.
Qed.

(** Reconciling a candidate leaves the record of checks alone. *)
Lemma candidate_checked c m : checkedJournalIntents (reconcile_candidate env entity c m).1 = checkedJournalIntents m.
Proof.
  assert (∀ c x m, checkedJournalIntents (reconcileExactScaleSetJob env entity c x m).1.1 = checkedJournalIntents m) as Hrec.
  { clear. intros c x m. unfold reconcileExactScaleSetJob. destruct (exact_job env entity c x (blockedUntil m)) as [blocked [gh|]]; [|done].
    cbv zeta. assert (∀ m, checkedJournalIntents (ensureAuthoritativeQueueIntent env entity c m).1.1 = checkedJournalIntents m) as He.
    { clear. intros m. unfold ensureAuthoritativeQueueIntent. destruct (_ ≫= _); [|done]. by destruct (EnsureAuthoritative _ _ _ _ _ _). }
    assert (∀ r m, checkedJournalIntents (deleteStaleScaleSetJob env (Candidate_Job c) r m).1.1 = checkedJournalIntents m) as Hd.
    { clear. intros [] m; [|done]. unfold deleteStaleScaleSetJob. by destruct (NDDevRemoveQueueIntent _ _ _ _) as [? []]. }
    specialize (He (set_blocked blocked m)). destruct (ensureAuthoritativeQueueIntent _ _ _ _) as [[m2 calls] ok]. cbn [fst snd] in He.
    case_bool_decide; [done|]. case_bool_decide.
    - destruct ok; cbn [negb]; [|done]. specialize (Hd false m2). destruct (deleteStaleScaleSetJob _ _ _ _) as [[]]. cbn [fst] in *. by rewrite Hd, He.
    - case_bool_decide; [|done]. destruct (negb _); [done|]. by rewrite Hd. }
  unfold reconcile_candidate. destruct (_ =? 0).
  - destruct (discoverLegacyQueueRun _ _ _) as [blocked [runID|]]; [|done]. cbv zeta.
    specialize (Hrec (set_run runID c) (Candidate_ScaleSetID c) (set_blocked blocked m)). by destruct (reconcileExactScaleSetJob _ _ _ _ _) as [[]].
  - specialize (Hrec c (Candidate_ScaleSetID c) m). by destruct (reconcileExactScaleSetJob _ _ _ _ _) as [[]].
Qed.

(** ** The loop *)

Definition call_job (call : ReconcileCall) : string :=
  match call with EnsureQueueIntent j | RemoveQueueIntent j | DeleteScaleSetJob j => j end.

Lemma justified_job c expected calls call : calls_justified c expected calls → call ∈ calls → call_job call = ScaleSetJobID (Candidate_Job c).
Proof. intros [->|(gh & _ & [[-> _]|[[-> _]|[[-> | ->] _]]])] Hin; set_solver. Qed.

(** Every call belongs to a candidate that was checked in this pass. *)
Lemma loop_calls candidates checked m m' jobs calls :
  reconcile_loop env entity candidates checked m = (m', jobs, calls) →
  (∀ call, call ∈ calls → call_job call ∈ jobs ∧ ∃ c part, c ∈ candidates ∧ call ∈ part ∧ ScaleSetJobID (Candidate_Job c) = call_job call ∧
     (calls_justified c (Candidate_ScaleSetID c) part ∨
      RunID (Candidate_Job c) = 0 ∧ ∃ runID, calls_justified (set_run runID c) (Candidate_ScaleSetID c) part)).
Proof.
  revert checked m m' jobs calls. induction candidates as [|c rest IH]; intros checked m m' jobs calls; simpl; [intros [= <- <- <-]; set_solver|].
  destruct (_ || turn_cancelled _ _); [intros [= <- <- <-]; set_solver|].
  destruct (recently_checked _ _ _).
  { intros Hl call Hin. destruct (IH _ _ _ _ _ Hl call Hin) as (Hj & c' & part & Hc' & Hrest). split; [done|]. exists c', part. split; [by right|done]. }
  destruct (reconcile_candidate env entity c _) as [m1 calls1] eqn:Hc. destruct (reconcile_loop env entity rest _ m1) as [[m2 jobs2] more] eqn:Hl.
  intros [= <- <- <-] call [Hin|Hin]%elem_of_app.
  - apply candidate_justified in Hc. assert (call_job call = ScaleSetJobID (Candidate_Job c)) as Hjob.
    { destruct Hc as [Hc|(_ & runID & Hc)]; by eapply justified_job in Hc. }
    split; [rewrite Hjob; apply list_elem_of_here|]. exists c, calls1. split_and!; [apply list_elem_of_here|done..].
  - destruct (IH _ _ _ _ _ Hl call Hin) as (Hj & c' & part & Hc' & Hrest). split; [by right|]. exists c', part. split; [by right|done].
Qed.
End manager.
