(* ===== verification/QueueReconcileClaims.v ===== *)
(** * Releases are proven, and reads are rare

    The theorems about whole passes: which intents a pass may release, and how
    often an intent is checked. *)

From S2P Require Import QueueAdmitClaims Prelude GoText ProviderRetry CacheNamespace QueueIntent QueueScheduler QueueOps QueueReconcile QueueReconcileFacts.

Local Open Scope Z_scope.
Local Open Scope go_scope.

(** ** Candidates *)

(** An intent that waits for a runner that GitHub never reported. *)
Record waits_alone (entity : ForgeEntity) (now : Time) (i : queueIntent) : Prop := {
  waits_state : State i = queueStateQueued ∨ State i = queueStateAssigned;
  waits_no_runner : RunnerName i = "" ∧ RunnerRequestID i = 0;
  waits_owner : Owner i = Entity_Owner entity;
  waits_long : 2 * Minute ≤ Sub now (queueWaitSince i);
}.

Lemma candidate_of_Some j entity now i c :
  candidate_of j entity now i = Some c →
  waits_alone entity now i ∧ ScaleSetJobID (Candidate_Job c) = JobID i ∧ Candidate_ScaleSetID c = ScaleSetID i ∧ RunID (Candidate_Job c) = WorkflowRunID i ∧
  (∀ expiry, TerminalJobs j !! JobID i = Some expiry → expiry ≤ now) ∧
  Repository i = RepositoryOwner (Candidate_Job c) +:+ "/" +:+ Job_RepositoryName (Candidate_Job c) ∧ RepositoryOwner (Candidate_Job c) = Entity_Owner entity ∧
  (EntityType entity = ForgeEntityTypeRepository → Job_RepositoryName (Candidate_Job c) = Entity_Name entity).
Proof.
  unfold candidate_of. destruct (negb _ && negb _) eqn:Hstate; [done|]. destruct (_ || negb (validRepository _)) eqn:Hid; [done|].
  destruct (After _ _) eqn:Hterm; [done|]. destruct (split_byte slash (Repository i)) as [|o [|n [|]]] eqn:Hsplit; try done. cbv zeta.
  destruct (_ || (_ <? candidate_wait)) eqn:Hwait; [done|]. intros [= <-]. cbn [Candidate_Job Candidate_ScaleSetID ScaleSetJobID RunID RepositoryOwner Job_RepositoryName].
  apply orb_false_iff in Hwait as [Hwait Hlong]. apply orb_false_iff in Hwait as [Hwait _]. apply orb_false_iff in Hwait as [Hown Hmatch].
  apply negb_false_iff in Hown, Hmatch. apply bool_decide_eq_true in Hown. unfold candidate_wait in Hlong.
  apply orb_false_iff in Hid as [Hid _]. apply orb_false_iff in Hid as [Hid Howner]. apply orb_false_iff in Hid as [Hname Hreq].
  apply negb_false_iff in Hname, Hreq, Howner. apply bool_decide_eq_true in Hname, Howner.
  split_and!; try done.
  - split; [|split; [done|lia]|done|lia]. apply andb_false_iff in Hstate as [H|H]; apply negb_false_iff, bool_decide_eq_true in H; auto.
  - intros expiry He. rewrite He in Hterm. unfold After in Hterm. simpl in Hterm. lia.
  - rewrite <- (split_byte_Join slash (Repository i)), Hsplit. done.
  - intros Ht. rewrite Ht in Hmatch. by apply bool_decide_eq_true in Hmatch.
Qed.

Lemma candidates_selected journal entity now cs c :
  NDDevQueueReconciliationCandidates journal entity now = Ok cs → c ∈ cs →
  ∃ file j key i, journal = Some file ∧ current_journal file = Ok j ∧ Intents j !! key = Some i ∧ candidate_of j entity now i = Some c.
Proof.
  unfold NDDevQueueReconciliationCandidates. destruct journal as [[|size perm content]|]; [intros [= <-]; set_solver| |intros [= <-]; set_solver].
  intros (j & Hj & [= <-]%Ok_inj)%bind_Ok Hc. unfold queueReconciliationCandidates in Hc. rewrite elem_of_sort_slice in Hc.
  apply list_elem_of_omap in Hc as (i & Hi & Hc). apply list_elem_of_fmap in Hi as ([key i'] & -> & Hi).
  exists (QueueContent size perm content), j, key, i'. split_and!; [done|done|by apply elem_of_map_to_list|done].
Qed.

(** ** Spacing *)

(** Differences of a few minutes do not saturate. *)
Lemma Sub_small t u d : t - u ≤ d → d = 10 * Minute → Sub t u ≤ d.
Proof. unfold Sub, min_int64, max_int64, Minute. lia. Qed.
Lemma Sub_large t u : 5 * Minute ≤ Sub t u → 5 * Minute ≤ t - u.
Proof. unfold Sub, min_int64, max_int64, Minute. lia. Qed.

Section loop.
Context `{!GoTables} (env : ReconcileEnv) (entity : ForgeEntity).

Lemma recently_checked_ext job m m' :
  checkedJournalIntents m !! job = checkedJournalIntents m' !! job → recently_checked env job m = recently_checked env job m'.
Proof. unfold recently_checked. by intros ->. Qed.

(** A job just checked is recent. *)
Lemma recently_checked_now job m :
  pass_time env ≠ zero_time → checkedJournalIntents m !! job = Some (pass_time env) → recently_checked env job m = true.
Proof.
  intros Hz Hc. unfold recently_checked. rewrite Hc. unfold IsZero, Sub. rewrite bool_decide_eq_false_2, Z.sub_diag by done. done.
Qed.

Lemma loop_checks candidates n m m' jobs calls :
  pass_time env ≠ zero_time → reconcile_loop env entity candidates n m = (m', jobs, calls) →
  (length jobs ≤ queueJournalReconcileBatch - n)%nat ∧ NoDup jobs ∧ Forall (λ job, recently_checked env job m = false) jobs ∧
  ∀ job, checkedJournalIntents m' !! job = if decide (job ∈ jobs) then Some (pass_time env) else checkedJournalIntents m !! job.
Proof.
  intros Hz. revert n m m' jobs calls. induction candidates as [|c rest IH]; intros n m m' jobs calls; cbn [reconcile_loop].
  { intros [= <- <- <-]. split_and!; [simpl; lia|constructor|constructor|]. intros job. by rewrite decide_False by set_solver. }
  destruct (_ || turn_cancelled _ _) eqn:Hstop.
  { intros [= <- <- <-]. split_and!; [simpl; lia|constructor|constructor|]. intros job. by rewrite decide_False by set_solver. }
  apply orb_false_iff in Hstop as [[Hn _]%orb_false_iff _]. apply Nat.leb_gt in Hn.
  destruct (recently_checked _ _ _) eqn:Hrec; [apply IH|]. set (jobID := ScaleSetJobID (Candidate_Job c)) in *.
  set (m0 := set_checked (<[jobID := pass_time env]> (checkedJournalIntents m)) m). pose proof (candidate_checked env entity c m0) as Hkeep.
  destruct (reconcile_candidate env entity c m0) as [m1 calls1]. destruct (reconcile_loop env entity rest (S n) m1) as [[m2 jobs2] more] eqn:Hl.
  cbn [fst] in Hkeep. intros [= <- <- <-]. apply IH in Hl as (Hlen & Hnd & Hnew & Hmap).
  assert (∀ job, checkedJournalIntents m1 !! job = if decide (job = jobID) then Some (pass_time env) else checkedJournalIntents m !! job) as H1.
  { intros job. rewrite Hkeep. simpl. destruct (decide (job = jobID)) as [->|]; [apply lookup_insert_eq|by apply lookup_insert_ne]. }
  assert (jobID ∉ jobs2) as Hnin.
  { intros Hin. rewrite Forall_forall in Hnew. specialize (Hnew _ Hin). rewrite recently_checked_now in Hnew; [done..|]. by rewrite H1, decide_True. }
  split_and!; [simpl; lia|by constructor| |].
  - constructor; [done|]. rewrite Forall_forall in Hnew |- *. intros job Hjob. rewrite <- (Hnew job Hjob). apply recently_checked_ext.
    rewrite H1, decide_False; [done|]. by intros ->.
  - intros job. rewrite Hmap, H1. destruct (decide (job = jobID)) as [->|Hne]; [by rewrite decide_False, decide_True by set_solver|].
    destruct (decide (job ∈ jobs2)); [by rewrite decide_True by set_solver|by rewrite decide_False by set_solver].
Qed.
End loop.

(** ** Sequences of passes *)

Section passes.
Context `{!GoTables} (entity : ForgeEntity).

(** Passes one after the other, each with its environment and the journal it finds;
    the checks they made, with their times. *)
Fixpoint reconcile_passes (passes : list (ReconcileEnv * option QueueFile)) (m : ManagerState) : list (list (string * Time)) :=
  match passes with
  | [] => []
  | (env, journal) :: rest =>
      let '(m, jobs, _) := reconcileJournalQueueIntents env entity
        {| queue := journal; blockedUntil := blockedUntil m; checkedJournalIntents := checkedJournalIntents m |} in
      ((λ job, (job, pass_time env)) <$> jobs) :: reconcile_passes rest m
  end.

Lemma forget_keeps now (checked : gmap string Time) job t :
  checked !! job = Some t → now - t ≤ 10 * Minute → forget_checked now checked !! job = Some t.
Proof.
  intros Ht Hrecent. unfold forget_checked. apply map_lookup_filter_Some_2; [done|]. cbn [snd]. intros Hold. apply Sub_small in Hrecent; [|done].
  apply Zlt_not_le in Hold. apply Hold. exact Hrecent.
Qed.

Lemma unchecked_old env m job t :
  recently_checked env job m = false → checkedJournalIntents m !! job = Some t → t ≠ zero_time → 5 * Minute ≤ pass_time env - t.
Proof.
  unfold recently_checked. intros Hrec Ht Hnz. rewrite Ht in Hrec. apply andb_false_iff in Hrec as [Hrec|Hrec].
  - apply negb_false_iff, bool_decide_eq_true in Hrec. done.
  - apply Z.ltb_ge in Hrec. by apply Sub_large in Hrec.
Qed.

Lemma pass_checks env m m' jobs calls :
  pass_time env ≠ zero_time → reconcileJournalQueueIntents env entity m = (m', jobs, calls) →
  (length jobs ≤ 2)%nat ∧ NoDup jobs ∧
  (∀ job t, job ∈ jobs → checkedJournalIntents m !! job = Some t → t ≠ zero_time → 5 * Minute ≤ pass_time env - t) ∧
  (∀ job t, checkedJournalIntents m !! job = Some t → pass_time env - t ≤ 10 * Minute →
     checkedJournalIntents m' !! job = Some t ∨ checkedJournalIntents m' !! job = Some (pass_time env)) ∧
  (∀ job, job ∈ jobs → checkedJournalIntents m' !! job = Some (pass_time env)).
Proof.
  intros Hz. unfold reconcileJournalQueueIntents. destruct (NDDevQueueReconciliationCandidates _ _ _) as [cs|e]; cycle 1.
  { intros [= <- <- <-]. split_and!; [apply Nat.le_0_l|constructor|set_solver|by auto|set_solver]. }
  intros Hl. apply loop_checks in Hl as (Hlen & Hnd & Hnew & Hmap); [|done]. cbn [checkedJournalIntents set_checked] in Hmap.
  split_and!; [done|done| | |].
  - intros job t Hj Ht Hnz. rewrite Forall_forall in Hnew. specialize (Hnew job Hj).
    destruct (decide (pass_time env - t ≤ 10 * Minute)) as [Hle|Hgt]; [|unfold Minute in *; lia].
    eapply unchecked_old; [exact Hnew| |done]. by apply forget_keeps.
  - intros job t Ht Hle. rewrite Hmap. case_decide; [by right|left]. by apply forget_keeps.
  - intros job Hj. rewrite Hmap. by rewrite decide_True.
Qed.

(** What the record of checks tells about the checks made so far. *)
Definition recorded (last : Time) (m : ManagerState) (past : list (string * Time)) : Prop :=
  ∀ job t, (job, t) ∈ past → 0 < t ≤ last ∧
    (10 * Minute < last - t ∨ ∃ t', checkedJournalIntents m !! job = Some t' ∧ t ≤ t' ≤ last).

Lemma pass_recorded env last m m' jobs calls past :
  last ≤ pass_time env → 0 < pass_time env → recorded last m past → reconcileJournalQueueIntents env entity m = (m', jobs, calls) →
  recorded (pass_time env) m' (past ++ ((λ job, (job, pass_time env)) <$> jobs)) ∧
  ∀ job t, (job, t) ∈ past → job ∈ jobs → 5 * Minute ≤ pass_time env - t.
Proof.
  intros Hlast Hpos Hrec Hrun. apply pass_checks in Hrun as (_ & _ & Hspace & Hkeep & Hnew); [|unfold zero_time; lia]. split.
  - intros job t [Hin|Hin]%elem_of_app; cycle 1.
    { apply list_elem_of_fmap in Hin as (job' & [= -> ->] & Hin). split; [lia|]. right. exists (pass_time env). split; [by apply Hnew|lia]. }
    destruct (Hrec job t Hin) as [Ht Hold]. split; [lia|]. destruct Hold as [Hold|(t' & Ht' & Hle)]; [left; lia|].
    destruct (decide (pass_time env - t' ≤ 10 * Minute)) as [Hr|]; [|left; lia]. right.
    destruct (Hkeep job t' Ht' Hr) as [Hm|Hm]; [exists t'; split; [done|lia]|exists (pass_time env); split; [done|lia]].
  - intros job t Hin Hj. destruct (Hrec job t Hin) as [Ht [Hold|(t' & Ht' & Hle)]]; [unfold Minute in *; lia|].
    specialize (Hspace job t' Hj Ht'). unfold zero_time in Hspace. specialize (Hspace ltac:(lia)). lia.
Qed.

(** The passes are in order of time. *)
Definition in_order (last : Time) (passes : list (ReconcileEnv * option QueueFile)) : Prop :=
  StronglySorted Z.le (last :: (pass_time ∘ fst <$> passes)) ∧ 0 < last.

Lemma passes_spaced passes last m past :
  in_order last passes → recorded last m past →
  Forall (λ checks, (length checks ≤ 2)%nat ∧ NoDup checks.*1) (reconcile_passes passes m) ∧
  ∀ job t t', (job, t) ∈ past → (job, t') ∈ concat (reconcile_passes passes m) → 5 * Minute ≤ t' - t.
Proof.
  revert last m past. induction passes as [|[env journal] rest IH]; intros last m past [Hord Hpos] Hrec; cbn [reconcile_passes]; [split; [constructor|set_solver]|].
  set (m0 := {| queue := journal; blockedUntil := blockedUntil m; checkedJournalIntents := checkedJournalIntents m |}).
  simpl in Hord. inversion Hord as [|? ? Hord' Hall]; subst. inversion Hall as [|? ? Hle Hall']; subst.
  destruct (reconcileJournalQueueIntents env entity m0) as [[m' jobs] calls] eqn:Hrun.
  assert (recorded last m0 past) as Hrec0 by exact Hrec.
  destruct (pass_checks env m0 m' jobs calls) as (Hlen & Hnd & _); [unfold zero_time; lia|done|].
  destruct (pass_recorded env last m0 m' jobs calls past) as [Hrec' Hspace]; [done|lia|done|done|].
  destruct (IH (pass_time env) m' (past ++ ((λ job, (job, pass_time env)) <$> jobs))) as [Hrest Hlater]; [by split; [|lia]|done|].
  split.
  - constructor; [|done]. rewrite length_fmap. split; [done|]. rewrite <- list_fmap_compose. unfold compose. simpl. by rewrite list_fmap_id.
  - intros job t t' Hin [Hin'|Hin']%elem_of_app.
    + apply list_elem_of_fmap in Hin' as (job' & [= -> ->] & Hj). by apply (Hspace job').
    + apply (Hlater job t t'); [by apply elem_of_app; left|done].
Qed.

Lemma passes_pairs passes last m past before checks after job t t' :
  in_order last passes → recorded last m past → reconcile_passes passes m = before ++ checks :: after →
  (job, t) ∈ checks → (job, t') ∈ concat after → 5 * Minute ≤ t' - t.
Proof.
  revert last m past before. induction passes as [|[env journal] rest IH]; intros last m past before [Hord Hpos] Hrec Heq Hin Hin'; cbn [reconcile_passes] in Heq.
  { by destruct before. }
  set (m0 := {| queue := journal; blockedUntil := blockedUntil m; checkedJournalIntents := checkedJournalIntents m |}) in *.
  simpl in Hord. inversion Hord as [|? ? Hord' Hall]; subst. inversion Hall as [|? ? Hle Hall']; subst.
  destruct (reconcileJournalQueueIntents env entity m0) as [[m' jobs] calls] eqn:Hrun.
  destruct (pass_recorded env last m0 m' jobs calls past) as [Hrec' _]; [done|lia|done|done|].
  assert (in_order (pass_time env) rest) as Hord2 by (split; [done|lia]). destruct before as [|b before]; injection Heq as <- Heq.
  - destruct (passes_spaced rest _ m' _ Hord2 Hrec') as [_ Hlater]. apply (Hlater job t t'); [apply elem_of_app; by right|by rewrite Heq].
  - by apply (IH (pass_time env) m' _ before Hord2 Hrec' Heq Hin Hin').
Qed.

(** However often the pass runs, on whatever journals, it checks at most two intents
    at a time, none of them twice, and an intent again only five minutes after the
    last check: reconciliation reads are bounded by time, not by the backlog. *)
Theorem journal_checks_spaced passes first m :
  in_order first passes → checkedJournalIntents m = ∅ →
  Forall (λ checks, (length checks ≤ 2)%nat ∧ NoDup checks.*1) (reconcile_passes passes m) ∧
  ∀ before checks after job t t', reconcile_passes passes m = before ++ checks :: after → (job, t) ∈ checks → (job, t') ∈ concat after →
    5 * Minute ≤ t' - t.
Proof.
  intros Hord Hempty. assert (recorded first m []) as Hrec by (intros job t Hin; set_solver). split.
  - by destruct (passes_spaced passes first m [] Hord Hrec).
  - intros before checks after job t t'. by apply (passes_pairs _ first m []).
Qed.

(** C32: An intent is released by a pass only when the journal holds it waiting without a
    runner for two minutes, for the pass's own account, and GitHub, read completely,
    holds exactly one check run with its GUID in the suite of its run and exactly one
    job of the run's attempt bound to that check run, on the same commit, whose labels
    name exactly the scale set of the intent, and this job completed with a
    conclusion. The run is the one the intent recorded, or, where it recorded none,
    one that was discovered. *)
Theorem intent_released_only_when_completed env m jobID :
  let '(_, _, calls) := reconcileJournalQueueIntents env entity m in
  RemoveQueueIntent jobID ∈ calls →
  ∃ file j key i c gh,
    queue m = Some file ∧ current_journal file = Ok j ∧ Intents j !! key = Some i ∧ JobID i = jobID ∧ waits_alone entity (candidates_time env) i ∧
    ScaleSetJobID (Candidate_Job c) = jobID ∧ Repository i = RepositoryOwner (Candidate_Job c) +:+ "/" +:+ Job_RepositoryName (Candidate_Job c) ∧
    (RunID (Candidate_Job c) = WorkflowRunID i ∨ WorkflowRunID i = 0) ∧
    proven_job env c (ScaleSetID i) gh ∧ GhJob_Status gh = "completed" ∧ validTerminalConclusion (GhJob_Conclusion gh) = true.
Proof.
  destruct (reconcileJournalQueueIntents env entity m) as [[m' jobs] calls] eqn:Hrun. unfold reconcileJournalQueueIntents in Hrun.
  destruct (NDDevQueueReconciliationCandidates _ _ _) as [cs|e] eqn:Hcs; [|injection Hrun as <- <- <-; set_solver]. intros Hin.
  destruct (loop_calls env entity _ _ _ _ _ _ Hrun _ Hin) as (_ & c & part & Hc & Hpart & Hjob & Hjust). simpl in Hjob.
  destruct (candidates_selected _ _ _ _ _ Hcs Hc) as (file & j & key & i & Hfile & Hj & Hi & Hcand).
  apply candidate_of_Some in Hcand as (Hwaits & Hid & Hset & Hrunid & _ & Hrepo & _). rewrite Hset in Hjust.
  assert (∀ c', calls_justified env c' (ScaleSetID i) part → ∃ gh, proven_job env c' (ScaleSetID i) gh ∧ GhJob_Status gh = "completed" ∧
            validTerminalConclusion (GhJob_Conclusion gh) = true) as Hdone.
  { intros c' [->|(gh & Hp & [[-> _]|[[-> _]|[_ Hgh]]])]; [set_solver..|]. by exists gh. }
  destruct Hjust as [Hjust|(Hzero & runID & Hjust)]; destruct (Hdone _ Hjust) as (gh & Hp & Hs & Hv).
  - exists file, j, key, i, c, gh. split_and!; try done; [congruence|by left].
  - exists file, j, key, i, (set_run runID c), gh. split_and!; try done; [congruence|right; congruence].
Qed.
End passes.

(** ** A queued intent whose job has finished

    A journal with one intent that no runner took, and GitHub's view of its job, on
    which the theorems about reconciliation are applied. *)

(** URLs of a scheme, a host and a path, and the letters and digits of ASCII. *)
Fixpoint cut_slash (s : string) : string * string :=
  match s with
  | EmptyString => ("", "")
  | String c rest => if Ascii.eqb c slash then ("", s) else let '(a, b) := cut_slash rest in (String c a, b)
  end.
Fixpoint codes (s : string) : list Z := match s with EmptyString => [] | String c rest => Z.of_N (Ascii.N_of_ascii c) :: codes rest end.

#[local] Instance ascii_tables : GoTables := {|
  url_Parse s := if String.prefix "https://" s
                 then let '(h, p) := cut_slash (drop_bytes 8 s) in
                      Some {| Scheme := "https"; has_User := false; Opaque_part := ""; Fragment := ""; Hostname := h; Path := p |}
                 else None;
  lower := ToLower; EqualFold a b := bool_decide (ToLower a = ToLower b); runes := codes;
  IsLetter r := ((65 <=? r) && (r <=? 90)) || ((97 <=? r) && (r <=? 122)); IsDigit r := (48 <=? r) && (r <=? 57) |}.

Definition lost_intent : queueIntent := {|
  Key := queueIntentKey 7 "guid-1"; ScaleSetID := 7; JobID := "guid-1"; RunnerRequestID := 0; WorkflowRunID := 500; JobDisplayName := "";
  GitHubRunnerID := 0; ScaleSetName := "linux"; RunnerName := ""; Owner := "acme"; Repository := "acme/api"; WorkflowRef := "ref"; EventName := "push";
  QueueTime := 600 * Hour; FirstQueuedAt := 600 * Hour; State := queueStateAssigned; Priority := 1; StateEnteredAt := 600 * Hour; UpdatedAt := 600 * Hour;
  ExpiresAt := 603 * Hour |}.
Definition lost_journal : QueueFile := QueueContent 900 384 (Ok {|
  Document_SchemaVersion := 6; Document_Generation := 1; Document_UpdatedAt := 600 * Hour;
  Document_Intents := Some {[ queueIntentKey 7 "guid-1" := lost_intent ]};
  Document_Repositories := Some ∅; Document_TerminalJobs := Some ∅ |}).

Definition acme : ForgeEntity := {| EntityType := ForgeEntityTypeOrganization; Entity_Owner := "acme"; Entity_Name := "" |}.
Definition link : string := "https://api.github.com/repos/acme/api/check-runs/41".
Definition one_page {A} (a : A) : Answer (option (Page A)) :=
  ReadOk (Some {| page_items := [Some a]; page_total := Some 1; page_next := Some 0 |}).

Definition run500 : WorkflowRun := {| Run_ID := 500; CheckSuiteID := 900; Run_HeadSHA := "abc1"; Run_Attempt := 1; Run_CreatedAt := Some (600 * Hour);
  Run_Repository := Some ("Acme", "api") |}.
Definition check41 : CheckRun := {| Check_ID := 41; ExternalID := "guid-1"; Check_URL := link; Check_HeadSHA := "ABC1"; Check_SuiteID := Some 900;
  Check_AppSlug := Some "github-actions" |}.
Definition job77 (status conclusion : string) : WorkflowJob := {| GhJob_ID := 77; GhJob_RunID := 500; CheckRunURL := link; GhJob_Attempt := 1;
  GhJob_HeadSHA := "abc1"; GhJob_Labels := ["linux"]; GhJob_Status := status; GhJob_Conclusion := conclusion |}.
Definition linux_set : ScaleSet := {| ScaleSet_ID := 7; ScaleSet_Name := "linux"; MaxRunners := 2; Enabled := true |}.
Definition calm_queue (now : Time) : QueueEnv := {| queue_encoded_size := λ _, 900; queue_lock := Ok tt; queue_now := now; queue_write := WriteDone |}.

Definition github (now : Time) (status conclusion : string) : ReconcileEnv := {|
  forge_is_github := true; get_run := λ _ _ _, ReadOk (Some run500);
  list_check_runs := λ _ _ _ _ _, one_page check41; list_attempt_jobs := λ _ _ _ _ _, one_page (job77 status conclusion);
  get_job := λ _ _ _, ReadOk (Some (job77 status conclusion)); list_runs := None;
  entity_scale_sets := λ _, Ok [linux_set]; entity_scale_sets_again := λ _, Ok [linux_set]; queue_config := Ok fleet_config;
  ensure_env := λ _, calm_queue now; remove_env := λ _, calm_queue now; row_deleted := λ _, true;
  candidates_time := now; pass_time := now; turn_time := λ _, now; turn_cancelled := λ _, false |}.

Definition fresh_manager : ManagerState := {| queue := Some lost_journal; blockedUntil := zero_time; checkedJournalIntents := ∅ |}.
Definition soon : Time := 600 * Hour + 3 * Minute.

(** The whole pass: the intent is gone from the journal, and its job is recorded as finished. *)
Example finished_intent_released :
  let '(m, jobs, calls) := reconcileJournalQueueIntents (github soon "completed" "success") acme fresh_manager in
  jobs = ["guid-1"] ∧ calls = [RemoveQueueIntent "guid-1"; DeleteScaleSetJob "guid-1"] ∧
  (match (j ← current_journal (default NoQueueFile (queue m)); Ok (bool_decide (Intents j = ∅), bool_decide (is_Some (TerminalJobs j !! "guid-1")))) with
   | Ok (gone, terminal) => gone && terminal | Err _ => false end) = true.
Proof. vm_compute. split_and!; reflexivity. Qed.

(** A job that still runs keeps its intent. *)
Example running_intent_kept :
  let '(m, jobs, calls) := reconcileJournalQueueIntents (github soon "in_progress" "") acme fresh_manager in
  calls = [EnsureQueueIntent "guid-1"; DeleteScaleSetJob "guid-1"] ∧
  (match (j ← current_journal (default NoQueueFile (queue m)); Ok (bool_decide (is_Some (Intents j !! queueIntentKey 7 "guid-1")))) with
   | Ok kept => kept | Err _ => false end) = true.
Proof. vm_compute. split_and!; reflexivity. Qed.

Lemma intent_released_only_when_completed_witness :
  let '(_, _, calls) := reconcileJournalQueueIntents (github soon "completed" "success") acme fresh_manager in
  RemoveQueueIntent "guid-1" ∈ calls ∧
  ∃ file j key i c gh,
    queue fresh_manager = Some file ∧ current_journal file = Ok j ∧ Intents j !! key = Some i ∧ JobID i = "guid-1" ∧ waits_alone acme soon i ∧
    ScaleSetJobID (Candidate_Job c) = "guid-1" ∧ Repository i = RepositoryOwner (Candidate_Job c) +:+ "/" +:+ Job_RepositoryName (Candidate_Job c) ∧
    (RunID (Candidate_Job c) = WorkflowRunID i ∨ WorkflowRunID i = 0) ∧
    proven_job (github soon "completed" "success") c (ScaleSetID i) gh ∧ GhJob_Status gh = "completed" ∧
    validTerminalConclusion (GhJob_Conclusion gh) = true.
Proof.
  pose proof (intent_released_only_when_completed acme (github soon "completed" "success") fresh_manager "guid-1") as Hthm.
  pose proof finished_intent_released as Hrun.
  destruct (reconcileJournalQueueIntents (github soon "completed" "success") acme fresh_manager) as [[m jobs] calls].
  destruct Hrun as (_ & Hcalls & _). assert (RemoveQueueIntent "guid-1" ∈ calls) as Hin by (rewrite Hcalls; apply list_elem_of_here).
  split; [exact Hin|exact (Hthm Hin)].
Defined.

(** Three passes, a minute and then six minutes apart, over a job that stays queued. *)
Definition three_passes : list (ReconcileEnv * option QueueFile) :=
  [(github soon "queued" "", Some lost_journal); (github (soon + Minute) "queued" "", Some lost_journal);
   (github (soon + 6 * Minute) "queued" "", Some lost_journal)].

Lemma journal_checks_spaced_witness :
  reconcile_passes acme three_passes fresh_manager = [[("guid-1", soon)]; []; [("guid-1", soon + 6 * Minute)]] ∧
  Forall (λ checks, (length checks ≤ 2)%nat ∧ NoDup checks.*1) (reconcile_passes acme three_passes fresh_manager) ∧
  ∀ before checks after job t t', reconcile_passes acme three_passes fresh_manager = before ++ checks :: after → (job, t) ∈ checks →
    (job, t') ∈ concat after → 5 * Minute ≤ t' - t.
Proof.
  split; [vm_compute; reflexivity|].
  apply (journal_checks_spaced acme three_passes soon fresh_manager).
  - split; [|vm_compute; reflexivity]. repeat constructor; vm_compute; discriminate.
  - reflexivity.
Defined.
