(* ===== verification/CacheBroker.v ===== *)
(** * The cache broker
    ([src/internal/cachebroker]: config.go, journal.go, handler.go, reclaim.go)

    A worker is given a one-job claim; the hook that starts its job exchanges the
    claim, once the repository is known, for the repository's cache credentials.
    The journal of claims is a state file; a request is answered by a function of
    the files, the clock and the queue. *)

From S2P Require Import Prelude GoText StateFile QueueIntent QueueScheduler QueueOps QueueReader FleetConfig CacheNamespace ProviderJournal.

Local Open Scope Z_scope.
Local Open Scope go_scope.

(** ** The journal of claims (journal.go) *)

Definition BrokerJournalSchemaVersion : Z := 1.
Definition maximumJournalBytes : Z := 4 * 1024 * 1024.
Definition ClaimTokenBytes : nat := 32.
Definition ClaimTTL : Duration := 15 * Minute.
Definition CorrelationTTL : Duration := 24 * Hour.

(** [^[a-z][a-z0-9-]{5,63}$] and [^[0-9a-f]{64}$]. *)
Definition instancePattern (s : string) : bool :=
  match s with
  | EmptyString => false
  | String c rest => is_lower c && all_bytes name_byte rest && (5 <=? String.length rest)%nat && (String.length rest <=? 63)%nat
  end.
Definition hashPattern (s : string) : bool := (String.length s =? 64)%nat && all_bytes (λ c, is_digit c || in_range "a" "f" c) s.

Record CacheClaim := {
  Claim_InstanceName : string;
  Claim_PoolName : string;
  Claim_Role : string;
  TokenSHA256 : string;
  Claim_CreatedAt : Time;
  Claim_ExpiresAt : Time;
  ClaimedRepository : string;
  ClaimedAt : Time;
}.
#[export] Instance CacheClaim_eq_dec : EqDecision CacheClaim.
Proof. solve_decision. Defined.

(** A decoded journal; decoding may leave the map of claims nil. *)
Record ClaimDocument := { Doc_SchemaVersion : Z; Doc_Generation : Z; Doc_UpdatedAt : Time; Doc_Claims : option (gmap string CacheClaim) }.
Record ClaimJournal := { CJ_Generation : Z; CJ_UpdatedAt : Time; CJ_Claims : gmap string CacheClaim }.
#[export] Instance ClaimJournal_eq_dec : EqDecision ClaimJournal.
Proof. solve_decision. Defined.

Definition empty_claims : ClaimJournal := {| CJ_Generation := 0; CJ_UpdatedAt := zero_time; CJ_Claims := ∅ |}.
Definition with_claims (m : gmap string CacheClaim) (j : ClaimJournal) : ClaimJournal :=
  {| CJ_Generation := CJ_Generation j; CJ_UpdatedAt := CJ_UpdatedAt j; CJ_Claims := m |}.

(** *** Roles and repositories (config.go) *)

Definition roleContract (role : string) : option (TrustClass * string) :=
  if bool_decide (role = "trusted-writer") then Some (Trusted, "read-write")
  else if bool_decide (role = "untrusted-writer") then Some (Untrusted, "read-write")
  else if bool_decide (role = "release-reader") then Some (Promoted, "read-only")
  else None.

Definition validClaimRole (role : string) : bool := bool_decide (role = "correlation-only") || bool_decide (is_Some (roleContract role)).

Definition space : ascii := ascii_of_nat 32.
Definition splitRepository (value : string) : result (string * string) :=
  match split_byte slash value with
  | [owner; name] =>
      fail_if (bool_decide (owner = "") || bool_decide (name = "") || contains_any [backslash; space] value)
        (Errorf "repository %q must be owner/name" [value]);;
      Ok (owner, name)
  | _ => Err (Errorf "repository %q must be owner/name" [value])
  end.

(** *** Validation *)

Definition is_ok {A} (r : result A) : bool := match r with Ok _ => true | Err _ => false end.

Definition validate_claim_entry (claims : gmap string CacheClaim) (key : string) : result unit :=
  match claims !! key with
  | None => Ok tt
  | Some c =>
      fail_if (negb (bool_decide (key = Claim_InstanceName c)) || negb (instancePattern key) || bool_decide (Claim_PoolName c = "")
               || negb (hashPattern (TokenSHA256 c))) (Errorf "cache claim %q has invalid identity" [key]);;
      fail_if (negb (validClaimRole (Claim_Role c)) || IsZero (Claim_CreatedAt c) || negb (After (Claim_ExpiresAt c) (Claim_CreatedAt c))
               || (ClaimTTL <? Sub (Claim_ExpiresAt c) (Claim_CreatedAt c))) (Errorf "cache claim %q has invalid contract" [key]);;
      fail_if (negb (Bool.eqb (bool_decide (ClaimedRepository c = "")) (IsZero (ClaimedAt c))))
        (Errorf "cache claim %q has incomplete claimed state" [key]);;
      if negb (bool_decide (ClaimedRepository c = "")) then
        fail_if (negb (is_ok (splitRepository (ClaimedRepository c))) || Before (ClaimedAt c) (Claim_CreatedAt c)
                 || After (ClaimedAt c) (Claim_ExpiresAt c)) (Errorf "cache claim %q has invalid claimed state" [key])
      else Ok tt
  end.

Definition Claims_Validate (d : ClaimDocument) : result ClaimJournal :=
  match Doc_Claims d with
  | None => Err (Errorf "cache claim journal schema is invalid" [])
  | Some claims =>
      fail_if (negb (Doc_SchemaVersion d =? BrokerJournalSchemaVersion)) (Errorf "cache claim journal schema is invalid" []);;
      forM (sorted_keys claims) (validate_claim_entry claims);;
      Ok {| CJ_Generation := Doc_Generation d; CJ_UpdatedAt := Doc_UpdatedAt d; CJ_Claims := claims |}
  end.
Definition claim_document (j : ClaimJournal) : ClaimDocument :=
  {| Doc_SchemaVersion := BrokerJournalSchemaVersion; Doc_Generation := CJ_Generation j; Doc_UpdatedAt := CJ_UpdatedAt j; Doc_Claims := Some (CJ_Claims j) |}.

(** *** The store

    The content of a file is what opening, reading and decoding it gives; a
    document over the limit is refused when it is read. [encodedSize] is the
    length of a journal's JSON, [HashToken] the hexadecimal SHA-256 of a text. *)
Definition ClaimFile : Type := StateFile ClaimDocument.

Class Hashing := { HashToken : string → string; claimSize : ClaimJournal → Z }.

Definition readUnlocked (file : ClaimFile) : result ClaimJournal :=
  match file with
  | Absent => Ok empty_claims
  | Present content => d ← content; Claims_Validate d
  end.

Definition stored_claims `{!Hashing} (j : ClaimJournal) : ClaimFile :=
  Present (if maximumJournalBytes <? claimSize j then Err (Errorf "cache claim journal is too large" []) else Ok (claim_document j)).

Definition claimRetained (c : CacheClaim) (now : Time) : bool :=
  if bool_decide (ClaimedRepository c = "") then After (Claim_ExpiresAt c) now else After (ClaimedAt c + CorrelationTTL) now.

Definition retained_claims (now : Time) (j : ClaimJournal) : ClaimJournal := with_claims (filter (λ kc, claimRetained kc.2 now = true) (CJ_Claims j)) j.

Definition uint64_next (n : Z) : Z := (n + 1) `mod` (max_uint64 + 1).

Section store.
Context `{!Hashing}.

(** The mutation also returns a value. *)
Definition update_claims {A} (acc : Access) (now : Time) (mutate : ClaimJournal → result (ClaimJournal * A)) (file : ClaimFile) : ClaimFile * result A :=
  match (access_lock acc;; j ← readUnlocked file; let before := retained_claims now j in
         ja ← mutate before; Claims_Validate (claim_document ja.1);; Ok (before, ja)) with
  | Err e => (file, Err e)
  | Ok (before, (j, a)) =>
      if bool_decide (j = before) then (file, Ok a)
      else
        let j' := {| CJ_Generation := uint64_next (CJ_Generation j); CJ_UpdatedAt := now; CJ_Claims := CJ_Claims j |} in
        let '(file', w) := publish (access_write acc) file (stored_claims j') in (file', w;; Ok a)
  end.

Definition Claims_Read (acc : Access) (file : ClaimFile) : result ClaimJournal := access_lock acc;; readUnlocked file.

Definition fresh_claim (instance pool role token : string) (now : Time) : CacheClaim := {|
  Claim_InstanceName := instance; Claim_PoolName := pool; Claim_Role := role; TokenSHA256 := HashToken token; Claim_CreatedAt := now;
  Claim_ExpiresAt := now + ClaimTTL; ClaimedRepository := ""; ClaimedAt := zero_time |}.

Definition add_claim (instance pool role token : string) (now : Time) (j : ClaimJournal) : result (ClaimJournal * unit) :=
  match CJ_Claims j !! instance with
  | Some existing => fail_if (negb (bool_decide (ClaimedRepository existing = ""))) (Errorf "cache claim for %q is already bound" [instance])
  | None => Ok tt
  end;;
  Ok (with_claims (<[instance := fresh_claim instance pool role token now]> (CJ_Claims j)) j, tt).

Definition Store_Add (acc : Access) (now : Time) (instance pool role token : string) (file : ClaimFile) : ClaimFile * result unit :=
  match (fail_if (negb (String.length token =? ClaimTokenBytes)%nat) (Errorf "cache claim token must contain %d bytes" []);;
         fail_if (negb (instancePattern instance) || bool_decide (pool = "")) (Errorf "cache claim ownership is invalid" []);;
         fail_if (negb (validClaimRole role)) (Errorf "cache claim role %q is invalid" [role])) with
  | Err e => (file, Err e)
  | Ok _ => update_claims acc now (add_claim instance pool role token now) file
  end.

Definition bind_claim (repository : string) (now : Time) (c : CacheClaim) : CacheClaim := {|
  Claim_InstanceName := Claim_InstanceName c; Claim_PoolName := Claim_PoolName c; Claim_Role := Claim_Role c; TokenSHA256 := TokenSHA256 c;
  Claim_CreatedAt := Claim_CreatedAt c; Claim_ExpiresAt := Claim_ExpiresAt c; ClaimedRepository := repository; ClaimedAt := now |}.

(** A stored hash is sixty-four lower-case hexadecimal digits, so comparing the
    decoded bytes is comparing the texts. The deletion of an expired claim is
    undone by the error that follows it. *)
Definition consume_claim (instance token repository : string) (now : Time) (j : ClaimJournal) : result (ClaimJournal * CacheClaim) :=
  match CJ_Claims j !! instance with
  | None => Err (Errorf "cache claim is absent" [])
  | Some c =>
      fail_if (negb (After (Claim_ExpiresAt c) now)) (Errorf "cache claim expired" []);;
      fail_if (negb (bool_decide (TokenSHA256 c = HashToken token))) (Errorf "cache claim token does not match" []);;
      fail_if (negb (bool_decide (ClaimedRepository c = "")) && negb (bool_decide (ClaimedRepository c = repository)))
        (Errorf "cache claim is already bound to another repository" []);;
      if bool_decide (ClaimedRepository c = "")
      then let c' := bind_claim repository now c in Ok (with_claims (<[instance := c']> (CJ_Claims j)) j, c')
      else Ok (j, c)
  end.

Definition Store_Consume (acc : Access) (now : Time) (instance token repository : string) (file : ClaimFile) : ClaimFile * result CacheClaim :=
  if negb (String.length token =? ClaimTokenBytes)%nat then (file, Err (Errorf "cache claim token is invalid" []))
  else update_claims acc now (consume_claim instance token repository now) file.

Definition Store_Verify (acc : Access) (now : Time) (instance token : string) (file : ClaimFile) : result CacheClaim :=
  fail_if (negb (String.length token =? ClaimTokenBytes)%nat) (Errorf "cache claim token is invalid" []);;
  j ← Claims_Read acc file;
  match CJ_Claims j !! instance with
  | None => Err (Errorf "cache claim is absent" [])
  | Some c =>
      fail_if (negb (After (Claim_ExpiresAt c) now)) (Errorf "cache claim expired" []);;
      fail_if (negb (bool_decide (TokenSHA256 c = HashToken token))) (Errorf "cache claim token does not match" []);;
      Ok c
  end.

Definition Store_ClaimedRepository (acc : Access) (now : Time) (instance : string) (file : ClaimFile) : result string :=
  j ← Claims_Read acc file;
  match CJ_Claims j !! instance with
  | None => Err (Errorf "bound cache claim is absent" [])
  | Some c =>
      fail_if (bool_decide (ClaimedRepository c = "")) (Errorf "bound cache claim is absent" []);;
      fail_if (negb (After (ClaimedAt c + CorrelationTTL) now)) (Errorf "bound cache claim correlation expired" []);;
      Ok (ClaimedRepository c)
  end.

Definition Store_Remove (acc : Access) (now : Time) (instance : string) (file : ClaimFile) : ClaimFile * result unit :=
  update_claims acc now (λ j, Ok (with_claims (delete instance (CJ_Claims j)) j, tt)) file.

End store.

(** ** Configuration (config.go) *)

Record CacheIdentity := {
  Identity_Role : string; Identity_Mode : string; Identity_Prefix : string; AccessKeyFile : string; SecretKeyFile : string;
  BuildcacheUsernameFile : string; BuildcachePasswordFile : string;
}.
Record CacheRepository := { Repo_Name : string; Repo_Bucket : string; Repo_Roles : list CacheIdentity }.
Record BrokerConfig := {
  Broker_SchemaVersion : Z; ListenAddress : string; Broker_Endpoint : string; Broker_Region : string; Broker_Bucket : string; CAFile : string;
  JournalFile : string; JournalLock : string; QueueJournalFile : string; QueueJournalLock : string; ProviderJournalFile : string;
  BuildcacheRegistry : string; Broker_Repositories : list CacheRepository;
}.

(** The functions of the standard library on addresses and URLs that are used. *)
Record WebURL := { Web_Scheme : string; Web_Host : string; Web_HasUser : bool; Web_Path : string; Web_RawQuery : string; Web_Fragment : string }.
Record IPKind := { IsUnspecified : bool; IsMulticast : bool }.
Class WebText := {
  web_Parse : string → option WebURL;
  web_ParseRequestURI : string → option WebURL;
  SplitHostPort : string → option (string * string);
  ParseIP : string → option IPKind;
}.

(** [filepath.IsAbs(v) && filepath.Clean(v) == v && v != "/"]. *)
Definition clean_path (v : string) : bool :=
  match split_byte slash v with
  | EmptyString :: (_ :: _) as segments =>
      forallb (λ s, negb (bool_decide (s = "")) && negb (bool_decide (s = ".")) && negb (bool_decide (s = ".."))) (tail segments)
  | _ => false
  end.
(** [filepath.Dir] of a clean path. *)
Definition dir_of (v : string) : list string := removelast (split_byte slash v).

(** [strings.HasSuffix]. *)
Definition HasSuffix (s suffix : string) : bool := String.prefix (rev_string suffix) (rev_string s).

Definition brokerBucketPattern : string → bool := bucketPattern.

Section config.
Context `{!WebText}.

(** [rustfscache.ValidateEndpoint]. *)
Definition ValidateEndpoint (value : string) : result unit :=
  let refusal := Errorf "endpoint must be an HTTPS origin using a literal unicast IP and approved port 9002 or 9003" [] in
  match web_ParseRequestURI value with
  | None => Err refusal
  | Some u =>
      match SplitHostPort (Web_Host u) with
      | None => Err refusal
      | Some (host, port) =>
          match ParseIP host with
          | None => Err refusal
          | Some a =>
              fail_if (negb (bool_decide (Web_Scheme u = "https")) || (negb (bool_decide (port = "9002")) && negb (bool_decide (port = "9003")))
                       || IsUnspecified a || IsMulticast a || negb (bool_decide (Web_Path u = "")) || negb (bool_decide (Web_RawQuery u = ""))
                       || negb (bool_decide (Web_Fragment u = "")) || Web_HasUser u) refusal
          end
      end
  end.

Definition listen_ok (address : string) : bool :=
  match SplitHostPort address with
  | Some (host, port) => match ParseIP host with Some a => negb (bool_decide (port = "")) && negb (IsUnspecified a) | None => false end
  | None => false
  end.

Definition registry_ok (registry : string) : bool :=
  match web_Parse registry with
  | Some u => (bool_decide (Web_Scheme u = "https") || bool_decide (Web_Scheme u = "http")) && negb (bool_decide (Web_Host u = ""))
      && negb (Web_HasUser u) && bool_decide (Web_Path u = "") && bool_decide (Web_RawQuery u = "") && bool_decide (Web_Fragment u = "")
  | None => false
  end.

Definition check_path (label value : string) : result unit :=
  fail_if (negb (clean_path value)) (Errorf "%s must be an absolute clean non-root path" [label]).

(** The prefix that the role must have; without one the empty text. *)
Definition wanted_prefix (repository : string) (class : TrustClass) : string :=
  match PrefixRootFor repository class with Ok p => p | Err _ => "" end.

Definition check_identity (c : BrokerConfig) (repository : string) (seen : gset string) (i : CacheIdentity) : result (gset string) :=
  fail_if (bool_decide (Identity_Role i ∈ seen)) (Errorf "repository %q role %q is duplicated" [repository; Identity_Role i]);;
  match roleContract (Identity_Role i) with
  | None => Err (Errorf "repository %q role %q has invalid mode" [repository; Identity_Role i])
  | Some (class, mode) =>
      fail_if (negb (bool_decide (Identity_Mode i = mode))) (Errorf "repository %q role %q has invalid mode" [repository; Identity_Role i]);;
      fail_if (negb (bool_decide (Identity_Prefix i = wanted_prefix repository class)))
        (Errorf "repository %q role %q prefix must be %q" [repository; Identity_Role i; wanted_prefix repository class]);;
      forM [AccessKeyFile i; SecretKeyFile i] (λ v,
        fail_if (negb (clean_path v)) (Errorf "repository %q role %q credential path is invalid" [repository; Identity_Role i]));;
      fail_if (negb (Bool.eqb (bool_decide (BuildcacheUsernameFile i = "")) (bool_decide (BuildcachePasswordFile i = ""))))
        (Errorf "repository %q role %q buildcache credential files must be configured together" [repository; Identity_Role i]);;
      (if negb (bool_decide (BuildcacheUsernameFile i = "")) then
         fail_if (bool_decide (BuildcacheRegistry c = "")) (Errorf "repository %q role %q carries buildcache credentials without buildcache_registry" [repository; Identity_Role i]);;
         forM [BuildcacheUsernameFile i; BuildcachePasswordFile i] (λ v,
           fail_if (negb (clean_path v)) (Errorf "repository %q role %q buildcache credential path is invalid" [repository; Identity_Role i]))
       else Ok tt);;
      Ok ({[Identity_Role i]} ∪ seen)
  end.

(** No name repeats one it is greater than, so the duplicate check never fires. *)
Definition check_repository (c : BrokerConfig) (previous : string) (r : CacheRepository) : result string :=
  splitRepository (Repo_Name r);;
  fail_if (negb (string_ltb previous (Repo_Name r))) (Errorf "repositories must be sorted and unique" []);;
  fail_if (negb (bool_decide (Repo_Bucket r = "")) && (negb (brokerBucketPattern (Repo_Bucket r)) || negb (HasSuffix (Repo_Bucket r) "-cache")))
    (Errorf "repository %q bucket must end in -cache" [Repo_Name r]);;
  fail_if (negb (length (Repo_Roles r) =? 3)%nat) (Errorf "repository %q must define trusted-writer, untrusted-writer and release-reader" [Repo_Name r]);;
  seen ← foldM (check_identity c (Repo_Name r)) (Repo_Roles r) (∅ : gset string);
  forM ["release-reader"; "trusted-writer"; "untrusted-writer"] (λ role,
    fail_if (negb (bool_decide (role ∈ seen))) (Errorf "repository %q omits role %q" [Repo_Name r; role]));;
  Ok (Repo_Name r).

Definition Broker_Validate (c : BrokerConfig) : result unit :=
  fail_if (negb (Broker_SchemaVersion c =? 1)) (Errorf "schema_version must be %d" []);;
  fail_if (negb (listen_ok (ListenAddress c))) (Errorf "listen_address must use one literal non-wildcard IP and explicit port" []);;
  ValidateEndpoint (Broker_Endpoint c);;
  fail_if (negb (bool_decide (Broker_Region c = "us-east-1")) || negb (bool_decide (Broker_Bucket c = "github-actions-cache")))
    (Errorf "region/bucket must be us-east-1/github-actions-cache" []);;
  forM [("ca_file", CAFile c); ("journal_file", JournalFile c); ("journal_lock_file", JournalLock c)] (λ lv, check_path lv.1 lv.2);;
  fail_if (negb (Bool.eqb (bool_decide (QueueJournalFile c = "")) (bool_decide (QueueJournalLock c = ""))))
    (Errorf "queue_journal_file and queue_journal_lock_file must be configured together" []);;
  (if negb (bool_decide (QueueJournalFile c = "")) then
     forM [("queue_journal_file", QueueJournalFile c); ("queue_journal_lock_file", QueueJournalLock c)] (λ lv, check_path lv.1 lv.2);;
     fail_if (negb (bool_decide (dir_of (QueueJournalFile c) = dir_of (QueueJournalLock c))) || bool_decide (QueueJournalFile c = QueueJournalLock c))
       (Errorf "queue journal and lock must be distinct siblings" [])
   else Ok tt);;
  (if negb (bool_decide (ProviderJournalFile c = "")) then
     fail_if (negb (clean_path (ProviderJournalFile c))) (Errorf "provider_journal_file must be an absolute clean non-root path" []);;
     fail_if (bool_decide (QueueJournalFile c = "")) (Errorf "provider_journal_file reclaims running queue intents and needs the queue journal" []);;
     fail_if (bool_decide (ProviderJournalFile c ∈ [QueueJournalFile c; QueueJournalLock c; JournalFile c; JournalLock c]))
       (Errorf "provider_journal_file must be distinct from every journal this process writes" [])
   else Ok tt);;
  fail_if (negb (bool_decide (BuildcacheRegistry c = "")) && negb (registry_ok (BuildcacheRegistry c)))
    (Errorf "buildcache_registry must be a bare HTTP(S) origin" []);;
  fail_if (bool_decide (Broker_Repositories c = [])) (Errorf "repositories must not be empty" []);;
  foldM (check_repository c) (Broker_Repositories c) "";; Ok tt.

Definition ValidateClaimEndpoint (value : string) : result unit :=
  match web_Parse value with
  | Some u =>
      fail_if (negb (bool_decide (Web_Scheme u = "https")) || Web_HasUser u || negb (bool_decide (Web_RawQuery u = ""))
               || negb (bool_decide (Web_Fragment u = "")) || negb (bool_decide (Web_Path u = "/api/v1/cache/claim")))
        (Errorf "claim endpoint must be an uncredentialed HTTPS /api/v1/cache/claim URL" []);;
      fail_if (match SplitHostPort (Web_Host u) with
               | Some (host, port) => negb (bool_decide (is_Some (ParseIP host))) || bool_decide (port = "")
               | None => true
               end) (Errorf "claim endpoint must use a literal IP and explicit port" [])
  | None => Err (Errorf "claim endpoint must be an uncredentialed HTTPS /api/v1/cache/claim URL" [])
  end.
End config.

(** [sort.Search]: the loop narrows the interval from [i] to [j]. *)
Fixpoint Search (turns : nat) (f : nat → bool) (i j : nat) : nat :=
  match turns with
  | O => i
  | S turns => if (i <? j)%nat then let h := ((i + j) `div` 2)%nat in if negb (f h) then Search turns f (S h) j else Search turns f i h else i
  end.

(** The comparison of the search at an index. *)
Definition at_least (repository : string) (repositories : list CacheRepository) (i : nat) : bool :=
  match repositories !! i with Some r => negb (string_ltb (Repo_Name r) repository) | None => true end.

Definition find_repository (c : BrokerConfig) (repository : string) : option CacheRepository :=
  let n := length (Broker_Repositories c) in
  r ← Broker_Repositories c !! Search n (at_least repository (Broker_Repositories c)) 0 n;
  if bool_decide (Repo_Name r = repository) then Some r else None.

Definition find_role (roles : list CacheIdentity) (role : string) : option CacheIdentity := List.find (λ i, bool_decide (Identity_Role i = role)) roles.

Definition Config_Identity (c : BrokerConfig) (repository role : string) : option CacheIdentity :=
  r ← find_repository c repository; find_role (Repo_Roles r) role.

(** The bucket of the repository and the identity. *)
Definition Config_Delivery (c : BrokerConfig) (repository role : string) : option (string * CacheIdentity) :=
  r ← find_repository c repository;
  i ← find_role (Repo_Roles r) role;
  Some (if bool_decide (Repo_Bucket r = "") then Broker_Bucket c else Repo_Bucket r, i).

(** ** Requests (handler.go) *)

Definition ClaimPath : string := "/api/v1/cache/claim".
Definition HealthPath : string := "/healthz".
Definition maximumCredentialBytes : nat := 512.

Record ClaimRequest := {
  Request_InstanceName : string; Request_RunnerName : string; Request_Repository : string; Request_RepositoryID : Z; Request_WorkflowRunID : Z;
  Request_RunAttempt : Z; Request_JobName : string; Request_WorkflowRef : string; Request_CommitSHA : string; Request_Token : string;
}.

Record BuildcacheDelivery := { Buildcache_Registry : string; Buildcache_Repository : string; Buildcache_Username : string; PasswordB64 : string }.
Record CacheDelivery := {
  Delivery_SchemaVersion : Z; DeliveryID : string; Delivery_Role : string; Delivery_Mode : string; Delivery_Endpoint : string; Delivery_Region : string;
  Delivery_Bucket : string; PrefixRoot : string; AccessKey : string; SecretKeyB64 : string; CAPEMB64 : string; Buildcache : option BuildcacheDelivery;
}.

Definition boundedText (value : string) : bool :=
  negb (bool_decide (value = "")) && (String.length value <=? 1024)%nat && trimmed value
  && negb (contains_any [carriage_return; line_feed; nul_byte] value).

Definition validateJobCorrelation (r : ClaimRequest) : result unit :=
  if negb (negb (Request_RepositoryID r =? 0) || negb (Request_WorkflowRunID r =? 0) || negb (Request_RunAttempt r =? 0)
           || negb (bool_decide (Request_JobName r = "")) || negb (bool_decide (Request_WorkflowRef r = "")) || negb (bool_decide (Request_CommitSHA r = "")))
  then Ok tt
  else
    fail_if ((Request_RepositoryID r <=? 0) || (Request_WorkflowRunID r <=? 0) || (Request_RunAttempt r <=? 0)
             || negb (boundedText (Request_JobName r)) || negb (boundedText (Request_WorkflowRef r)) || negb (String.length (Request_CommitSHA r) =? 40)%nat)
      (Errorf "job correlation is incomplete" []);;
    fail_if (negb (all_bytes (λ c, is_digit c || in_range "a" "f" c) (Request_CommitSHA r))) (Errorf "commit sha is invalid" []).

(** A file as [Lstat] and reading it show it. *)
Record PrivateFile := { file_regular : bool; file_perm : Z; file_content : result string }.

Definition readPrivateRegular (f : result PrivateFile) : result string :=
  info ← f;
  fail_if (negb (file_regular info) || negb (Z.land (file_perm info) 23 =? 0)) (Errorf "credential must be a non-world-readable regular file" []);;
  raw ← file_content info;
  fail_if (bool_decide (raw = "") || (maximumCredentialBytes <? String.length raw)%nat) (Errorf "credential size is invalid" []);;
  Ok raw.

Class Encodings := { RawURL_Decode : string → option string; Std_Encode : string → string }.

(** What the correlator of the queue answers during a request ([QueueReader]). *)
Record CorrelatorEnv := {
  correlator_attempts : Z;
  auth_ctx : nat → result unit; auth_waits : nat → result unit; auth_view : nat → Time * QueueFile;
  bind_waits : nat → result unit; bind_env : nat → QueueEnv; bind_between : nat → QueueFile → QueueFile;
  correlator_ready : result unit;
}.

Record HandlerEnv := {
  health_access : Access;
  verify_access : Access; verify_now : Time;
  meanwhile : ClaimFile → ClaimFile;                     (* what other processes do to the claims between the two accesses *)
  consume_access : Access; consume_now : Time;
  correlator : option CorrelatorEnv;
  credential_file : string → result PrivateFile;
  ca_content : result string;
}.

Record Request := { Method : string; Request_Path : string; Body : result ClaimRequest; TrailingData : bool }.

Inductive Response :=
  | Status (code : Z)
  | Delivers (d : CacheDelivery).

(** The files, and the correlation that is to be retried in the background. *)
Record BrokerState := { broker_claims : ClaimFile; broker_queue : QueueFile }.

Section handler.
Context `{!Hashing} `{!WebText} `{!Encodings} (config : BrokerConfig).

Definition loadBuildcacheDelivery (env : HandlerEnv) (i : CacheIdentity) : result BuildcacheDelivery :=
  rc ← wrap_err "derive buildcache namespace: %w" (ParsePrefixRoot (Identity_Prefix i));
  namespace ← wrap_err "derive buildcache namespace: %w" (BuildcacheRepositoryFor rc.1 rc.2);
  username ← wrap_err "read buildcache username: %w" (readPrivateRegular (credential_file env (BuildcacheUsernameFile i)));
  password ← wrap_err "read buildcache password: %w" (readPrivateRegular (credential_file env (BuildcachePasswordFile i)));
  fail_if (bool_decide (TrimSpace username = "") || bool_decide (TrimSpace password = "")) (Errorf "buildcache credential shape is invalid" []);;
  Ok {| Buildcache_Registry := BuildcacheRegistry config; Buildcache_Repository := namespace; Buildcache_Username := TrimSpace username;
        PasswordB64 := Std_Encode (TrimSpace password) |}.

Definition job_delivery_id (instance pre : string) : string :=
  HashToken ("nddev-job-cache-delivery-v1" +:+ String nul_byte instance +:+ String nul_byte pre).

Definition loadDelivery (env : HandlerEnv) (bucket : string) (i : CacheIdentity) (instance : string) : result CacheDelivery :=
  access ← wrap_err "read cache access key: %w" (readPrivateRegular (credential_file env (AccessKeyFile i)));
  secret ← wrap_err "read cache secret: %w" (readPrivateRegular (credential_file env (SecretKeyFile i)));
  ca ← wrap_err "read cache CA: %w" (ca_content env);
  let accessText := TrimSpace access in
  let secret := TrimSpace secret in
  fail_if (negb (String.length accessText =? 20)%nat || negb (HasPrefix accessText "AKIA") || negb (String.length secret =? 64)%nat)
    (Errorf "cache credential shape is invalid" []);;
  buildcache ← (if negb (bool_decide (BuildcacheUsernameFile i = "")) && negb (bool_decide (BuildcacheRegistry config = ""))
                then b ← loadBuildcacheDelivery env i; Ok (Some b) else Ok None);
  Ok {| Delivery_SchemaVersion := 1; DeliveryID := job_delivery_id instance (Identity_Prefix i); Delivery_Role := Identity_Role i;
        Delivery_Mode := Identity_Mode i; Delivery_Endpoint := Broker_Endpoint config; Delivery_Region := Broker_Region config; Delivery_Bucket := bucket;
        PrefixRoot := Identity_Prefix i; AccessKey := accessText; SecretKeyB64 := Std_Encode secret; CAPEMB64 := Std_Encode ca; Buildcache := buildcache |}.

Definition correlation_of (r : ClaimRequest) (claim : CacheClaim) : RunningCorrelation := {|
  Correlation_RunnerName := Request_RunnerName r; PoolName := Claim_PoolName claim; Correlation_Repository := Request_Repository r;
  Correlation_WorkflowRunID := Request_WorkflowRunID r; Correlation_JobDisplayName := Request_JobName r; Correlation_WorkflowRef := Request_WorkflowRef r |}.

Definition authorize_running (q : CorrelatorEnv) (c : RunningCorrelation) : result unit :=
  AuthorizeRunning (correlator_attempts q) (auth_ctx q) (auth_waits q) c (auth_view q).
Definition bind_running (q : CorrelatorEnv) (c : RunningCorrelation) (file : QueueFile) : QueueFile * result CorrelationResult :=
  BindRunning (correlator_attempts q) (bind_waits q) (bind_env q) (bind_between q) c file.

Definition health (env : HandlerEnv) (r : Request) (s : BrokerState) : Response :=
  if negb (bool_decide (Method r = "GET")) then Status 405
  else match (Broker_Validate config;; Claims_Read (health_access env) (broker_claims s);;
              match correlator env with Some q => correlator_ready q | None => Ok tt end) with
       | Ok _ => Status 200
       | Err _ => Status 503
       end.

(** Binding the queue's intent to the runner; whether it is retried later. *)
Definition correlate (env : HandlerEnv) (r : ClaimRequest) (claim : CacheClaim) (s : BrokerState) : BrokerState * option RunningCorrelation :=
  match correlator env with
  | Some q =>
      if 0 <? Request_WorkflowRunID r then
        let '(queue, result) := bind_running q (correlation_of r claim) (broker_queue s) in
        ({| broker_claims := broker_claims s; broker_queue := queue |},
         match result with Err e => if is_not_ready e then Some (correlation_of r claim) else None | Ok _ => None end)
      else (s, None)
  | None => (s, None)
  end.

(** The rest of a claim request, once the claim is verified and the runner authorized. *)
Definition deliver (env : HandlerEnv) (r : ClaimRequest) (token : string) (claim : CacheClaim) (s : BrokerState) : BrokerState * Response :=
  let consume (answer : CacheClaim → Response) :=
    let '(file, consumed) := Store_Consume (consume_access env) (consume_now env) (Request_InstanceName r) token (Request_Repository r)
                               (meanwhile env (broker_claims s)) in
    ({| broker_claims := file; broker_queue := broker_queue s |}, match consumed with Ok c => answer c | Err _ => Status 409 end) in
  match Config_Delivery config (Request_Repository r) (Claim_Role claim) with
  | None => consume (λ _, Status 204)
  | Some (bucket, identity) =>
      match loadDelivery env bucket identity (Request_InstanceName r) with
      | Err _ => (s, Status 503)
      | Ok d => consume (λ _, Delivers d)
      end
  end.

(** The request's own checks: the claim it presents, with its token. *)
Definition present_claim (env : HandlerEnv) (r : ClaimRequest) (s : BrokerState) : (string * CacheClaim) + Z :=
  if negb (instancePattern (Request_InstanceName r)) || negb (instancePattern (Request_RunnerName r)) then inr 403
  else if negb (is_ok (splitRepository (Request_Repository r))) then inr 400
  else if negb (is_ok (validateJobCorrelation r)) then inr 400
  else match RawURL_Decode (Request_Token r) with
       | None => inr 403
       | Some token =>
           if negb (String.length token =? ClaimTokenBytes)%nat then inr 403
           else match Store_Verify (verify_access env) (verify_now env) (Request_InstanceName r) token (broker_claims s) with
                | Err _ => inr 403
                | Ok claim => inl (token, claim)
                end
       end.

(** A warm instance runs a runner of another name: the queue must authorize it. *)
Definition warm_authorized (env : HandlerEnv) (r : ClaimRequest) (claim : CacheClaim) : bool :=
  bool_decide (Request_InstanceName r = Request_RunnerName r) ||
  ((0 <? Request_WorkflowRunID r) &&
   match correlator env with Some q => is_ok (authorize_running q (correlation_of r claim)) | None => false end).

Definition ServeHTTP (env : HandlerEnv) (request : Request) (s : BrokerState) : BrokerState * Response * option RunningCorrelation :=
  if bool_decide (Request_Path request = HealthPath) then (s, health env request s, None)
  else if negb (bool_decide (Request_Path request = ClaimPath)) then (s, Status 404, None)
  else if negb (bool_decide (Method request = "POST")) then (s, Status 405, None)
  else match Body request with
       | Err _ => (s, Status 400, None)
       | Ok r =>
           if TrailingData request then (s, Status 400, None)
           else match present_claim env r s with
                | inr status => (s, Status status, None)
                | inl (token, claim) =>
                    if negb (warm_authorized env r claim) then (s, Status 403, None)
                    else
                      let '(s, retry_later) := correlate env r claim s in
                      let '(s, response) := deliver env r token claim s in (s, response, retry_later)
                end
       end.

(** The background retries, one attempt per tick until the window ends. *)
Fixpoint retryQueueCorrelation (ticks : list CorrelatorEnv) (c : RunningCorrelation) (queue : QueueFile) : QueueFile * option (result CorrelationResult) :=
  match ticks with
  | [] => (queue, None)
  | q :: rest =>
      let '(queue, r) := BindRunning 1 (bind_waits q) (bind_env q) (bind_between q) c queue in
      match r with
      | Err e => if is_not_ready e then retryQueueCorrelation rest c queue else (queue, Some r)
      | Ok _ => (queue, Some r)
      end
  end.
End handler.

(** ** Reclaiming slots (reclaim.go) *)

Definition DefaultReclaimGrace : Duration := 5 * Minute.
Definition DefaultReclaimInterval : Duration := Minute.
Definition reclaim_grace (grace : Duration) : Duration := if 0 <? grace then grace else DefaultReclaimGrace.
Definition reclaim_interval (interval : Duration) : Duration := if 0 <? interval then interval else DefaultReclaimInterval.

(** The runners that a lease or a claim of the provider covers. *)
Definition covered_runners (j : Journal) : gset string :=
  dom (Leases j) ∪ list_to_set (List.filter (λ n, negb (bool_decide (n = "")))
    (concat ((λ kc, [Claim_JobName kc.2; ProviderJournal.Claim_InstanceName kc.2]) <$> map_to_list (Claims j)))).

Definition Reclaimer_Once (configured : bool) (providerJournal : result Journal) (grace : Duration) (env : QueueEnv) (file : QueueFile)
    : QueueFile * result (list string) :=
  if negb configured then (file, Ok [])
  else match wrap_err "read provider journal: %w" providerJournal with
       | Err e => (file, Err e)
       | Ok j => ReleaseUncoveredRunning env (covered_runners j) (reclaim_grace grace) file
       end.
