(* ===== verification/CacheBrokerFacts.v ===== *)
(** * What the broker's journal and configuration guarantee

    The binary search finds what a lookup would; only valid journals are stored;
    and a claim that was bound stays bound to its repository. *)

From Stdlib Require Import ZifyNat.
From S2P Require Import Prelude GoText StateFile QueueIntent QueueScheduler QueueOps QueueReader FleetConfig CacheNamespace ProviderJournal CacheBroker.

Local Open Scope Z_scope.
Local Open Scope go_scope.

(** ** The search *)

(** On a predicate that is false and then true, the search ends at the first true. *)
Lemma Search_spec f n turns i j :
  (j - i ≤ turns)%nat → (i ≤ j ≤ n)%nat → (∀ k, k < i → f k = false)%nat → (∀ k, j ≤ k → f k = true)%nat →
  (∀ k l, k ≤ l → f k = true → f l = true)%nat →
  let p := Search turns f i j in (p ≤ n)%nat ∧ (∀ k, k < p → f k = false)%nat ∧ (∀ k, p ≤ k → f k = true)%nat.
Proof.
  revert i j. induction turns as [|turns IH]; intros i j Ht Hij Hlow Hhigh Hmono; cbn [Search]; cbv zeta.
  { assert (i = j) as -> by lia. split_and!; [lia|done|done]. }
  destruct (i <? j)%nat eqn:Hlt; cycle 1. { apply Nat.ltb_ge in Hlt. assert (i = j) as -> by lia. split_and!; [lia|done|done]. }
  apply Nat.ltb_lt in Hlt. set (h := ((i + j) `div` 2)%nat). assert (i ≤ h < j)%nat as Hh by (unfold h; lia).
  destruct (f h) eqn:Hf; cbn [negb].
  - apply IH; [lia|lia|done| |done]. intros k Hk. by apply (Hmono h k).
  - apply IH; [lia|lia| |done|done]. intros k Hk. destruct (f k) eqn:Hfk; [|done]. rewrite <- Hf. symmetry. apply (Hmono k h); [lia|done].
Qed.

(** The order on repository names. *)
Lemma string_ltb_le a b : string_ltb a b = true ↔ ¬ String.le b a.
Proof. unfold string_ltb, String.le. destruct (String.leb b a); simpl; naive_solver. Qed.
Lemma string_ltb_trans a b c : string_ltb a b = true → string_ltb b c = true → string_ltb a c = true.
Proof.
  rewrite !string_ltb_le. intros Hab Hbc Hca. destruct (total String.le b c) as [Hle|]; [|done]. apply Hab. by trans c.
Qed.
Lemma string_ltb_irrefl a : string_ltb a a = false.
Proof. apply not_true_is_false. rewrite string_ltb_le. intros H. by apply H. Qed.

Definition sorted_repositories (rs : list CacheRepository) : Prop := StronglySorted (λ a b, string_ltb (Repo_Name a) (Repo_Name b) = true) rs.

Lemma sorted_lookup rs k l a b : sorted_repositories rs → (k < l)%nat → rs !! k = Some a → rs !! l = Some b → string_ltb (Repo_Name a) (Repo_Name b) = true.
Proof.
  intros Hs. revert k l. induction Hs as [|x xs Hs IH Hall]; intros k l Hkl Ha Hb; [by rewrite lookup_nil in Ha|].
  destruct k as [|k], l as [|l]; try lia; simpl in Ha, Hb; [|by apply (IH k l); [lia|..]]. injection Ha as <-.
  rewrite Forall_forall in Hall. apply Hall. by eapply list_elem_of_lookup_2.
Qed.

Lemma find_first {A} (P : A → bool) xs p a :
  (∀ k x, (k < p)%nat → xs !! k = Some x → P x = false) → xs !! p = Some a → P a = true → List.find P xs = Some a.
Proof.
  revert p. induction xs as [|x xs IH]; intros p Hbefore Ha HP; [by rewrite lookup_nil in Ha|]. destruct p as [|p]; simpl in *.
  - injection Ha as ->. by rewrite HP.
  - rewrite (Hbefore 0%nat x); [|lia|done]. apply (IH p); [|done|done]. intros k y Hk Hy. by apply (Hbefore (S k)); [lia|].
Qed.
Lemma find_absent {A} (P : A → bool) xs : (∀ x, x ∈ xs → P x = false) → List.find P xs = None.
Proof. induction xs as [|x xs IH]; intros H; [done|]. simpl. rewrite H by apply list_elem_of_here. apply IH. intros y Hy. apply H. by right. Qed.

(** In a sorted list the search is the lookup by name. *)
Lemma find_repository_lookup c repository :
  sorted_repositories (Broker_Repositories c) →
  find_repository c repository = List.find (λ r, bool_decide (Repo_Name r = repository)) (Broker_Repositories c).
Proof.
  intros Hs. unfold find_repository. set (rs := Broker_Repositories c) in *. set (f := at_least repository rs).
  assert (∀ k, (length rs ≤ k)%nat → f k = true) as Hend. { intros k Hk. unfold f, at_least. by rewrite lookup_ge_None_2. }
  assert (∀ k l, (k ≤ l)%nat → f k = true → f l = true) as Hmono.
  { intros k l Hkl. unfold f, at_least. destruct (decide (k = l)) as [->|]; [done|]. destruct (rs !! l) as [b|] eqn:Hb; [|done].
    destruct (rs !! k) as [a|] eqn:Ha; [|apply lookup_ge_None in Ha; apply lookup_lt_Some in Hb; lia].
    assert (string_ltb (Repo_Name a) (Repo_Name b) = true) as Hab by (apply (sorted_lookup rs k l); [done|lia|done|done]).
    intros Ha'. apply negb_true_iff in Ha'. apply negb_true_iff. apply not_true_is_false. intros Hb'.
    by rewrite (string_ltb_trans _ _ _ Hab Hb') in Ha'. }
  destruct (Search_spec f (length rs) (length rs) 0 (length rs)) as (Hp & Hlow & Hhigh); [lia|lia|lia|done|done|].
  set (p := Search (length rs) f 0 (length rs)) in *. cbv zeta in *.
  assert (∀ k x, (k < p)%nat → rs !! k = Some x → bool_decide (Repo_Name x = repository) = false) as Hbefore.
  { intros k x Hk Hx. specialize (Hlow k Hk). unfold f, at_least in Hlow. rewrite Hx in Hlow. apply negb_false_iff in Hlow.
    apply bool_decide_eq_false_2. intros He. rewrite He, string_ltb_irrefl in Hlow. done. }
  destruct (rs !! p) as [r|] eqn:Hr; simpl; cycle 1.
  { symmetry. apply find_absent. intros x Hx. apply list_elem_of_lookup_1 in Hx as [k Hx]. apply (Hbefore k); [|done].
    apply lookup_ge_None in Hr. apply lookup_lt_Some in Hx. lia. }
  case_bool_decide as He; symmetry; [by apply (find_first _ _ p); [| |apply bool_decide_eq_true_2]|].
  apply find_absent. intros x Hx. apply list_elem_of_lookup_1 in Hx as [k Hx]. destruct (decide (k < p)%nat) as [|Hk]; [by apply (Hbefore k)|].
  apply bool_decide_eq_false_2. intros Hname. destruct (decide (k = p)) as [->|]; [by rewrite Hr in Hx; injection Hx as ->|].
  assert (string_ltb (Repo_Name r) (Repo_Name x) = true) as Hlt by (apply (sorted_lookup rs p k); [done|lia|done|done]).
  specialize (Hhigh p ltac:(lia)). unfold f, at_least in Hhigh. rewrite Hr in Hhigh. apply negb_true_iff in Hhigh. rewrite Hname in Hlt. congruence.
Qed.

(** ** Validated configurations *)

Section config.
Context {Hweb : WebText}.

(** What validation establishes of an identity. *)
Definition identity_ok (repository : string) (i : CacheIdentity) : Prop :=
  ∃ class, roleContract (Identity_Role i) = Some (class, Identity_Mode i) ∧ Identity_Prefix i = wanted_prefix repository class.

Lemma check_identities_Ok c repository roles seen seen' :
  foldM (check_identity c repository) roles seen = Ok seen' →
  Forall (identity_ok repository) roles ∧ seen' = list_to_set (Identity_Role <$> roles) ∪ seen ∧
  NoDup (Identity_Role <$> roles) ∧ Forall (λ i, Identity_Role i ∉ seen) roles.
Proof.
  revert seen. induction roles as [|i roles IH]; intros seen; simpl; [intros [= <-]; split_and!; [constructor|set_solver|constructor|constructor]|].
  intros (seen1 & Hi & Hrest)%bind_Ok. unfold check_identity in Hi. apply bind_Ok in Hi as ([] & Hnew%fail_if_Ok%bool_decide_eq_false & Hi).
  destruct (roleContract (Identity_Role i)) as [[class mode]|] eqn:Hrole; [|done].
  apply bind_Ok in Hi as ([] & Hmode%fail_if_Ok & Hi). apply bind_Ok in Hi as ([] & Hprefix%fail_if_Ok & Hi).
  apply bind_Ok in Hi as ([] & _ & Hi). apply bind_Ok in Hi as ([] & _ & Hi). apply bind_Ok in Hi as ([] & _ & Hi). apply Ok_inj in Hi.
  apply negb_false_iff, bool_decide_eq_true in Hmode, Hprefix. destruct (IH _ Hrest) as (Hall & -> & Hnd & Hfresh). subst seen1. rewrite Forall_forall in Hfresh.
  split_and!.
  - constructor; [|done]. exists class. by rewrite Hmode.
  - set_solver.
  - constructor; [|done]. intros (x & Hx & Hin)%list_elem_of_fmap. specialize (Hfresh x Hin). set_solver.
  - constructor; [done|]. apply Forall_forall. intros x Hx. specialize (Hfresh x Hx). set_solver.
Qed.

Definition repository_ok (r : CacheRepository) : Prop :=
  is_ok (splitRepository (Repo_Name r)) = true ∧ Forall (identity_ok (Repo_Name r)) (Repo_Roles r) ∧ NoDup (Identity_Role <$> Repo_Roles r) ∧
  ∀ role, is_Some (roleContract role) → role ∈ Identity_Role <$> Repo_Roles r.

Lemma check_repository_Ok c previous r next :
  check_repository c previous r = Ok next → next = Repo_Name r ∧ string_ltb previous (Repo_Name r) = true ∧ repository_ok r.
Proof.
  unfold check_repository. intros H. apply bind_Ok in H as (parts & Hsplit & H). apply bind_Ok in H as ([] & Hlt%fail_if_Ok & H).
  apply bind_Ok in H as ([] & _ & H). apply bind_Ok in H as ([] & _ & H). apply bind_Ok in H as (seen & Hroles & H).
  apply bind_Ok in H as ([] & Hall & H). apply Ok_inj in H. apply negb_false_iff in Hlt. apply check_identities_Ok in Hroles as (Hids & -> & Hnd & _).
  split_and!; [done|done|]. split_and!; [by rewrite Hsplit|done|done|]. intros role Hrole.
  assert (role ∈ ["release-reader"; "trusted-writer"; "untrusted-writer"]) as Hin.
  { unfold roleContract in Hrole. repeat case_bool_decide; subst; [set_solver..|by destruct Hrole]. }
  rewrite forM_Ok in Hall. specialize (Hall role Hin). apply fail_if_Ok, negb_false_iff, bool_decide_eq_true in Hall. set_solver.
Qed.

Lemma check_repositories_Ok c rs previous last :
  foldM (check_repository c) rs previous = Ok last →
  Forall (λ r, string_ltb previous (Repo_Name r) = true) rs ∧ sorted_repositories rs ∧ Forall repository_ok rs.
Proof.
  revert previous. induction rs as [|r rs IH]; intros previous; simpl; [intros _; by repeat constructor|].
  intros (next & (-> & Hlt & Hok)%check_repository_Ok & Hrest)%bind_Ok. destruct (IH _ Hrest) as (Hall & Hs & Hoks). split_and!.
  - constructor; [done|]. eapply Forall_impl; [exact Hall|]. intros x Hx. by eapply string_ltb_trans.
  - by constructor.
  - by constructor.
Qed.

Lemma Broker_Validate_Ok c : Broker_Validate c = Ok tt → sorted_repositories (Broker_Repositories c) ∧ Forall repository_ok (Broker_Repositories c).
Proof.
  unfold Broker_Validate. intros H. do 10 apply bind_Ok in H as ([] & _ & H). apply bind_Ok in H as (last & H & _).
  by apply check_repositories_Ok in H as (_ & Hs & Hok).
Qed.

Lemma find_role_Some roles role i : find_role roles role = Some i → i ∈ roles ∧ Identity_Role i = role.
Proof. intros [Hin Hr]%find_some. split; [by apply list_elem_of_In|by apply bool_decide_eq_true in Hr]. Qed.

(** What a configuration says of a repository and a role: the identity listed for
    them, and the repository's bucket or else the common one. *)
Definition configured (c : BrokerConfig) (repository role bucket : string) (i : CacheIdentity) : Prop :=
  ∃ r, r ∈ Broker_Repositories c ∧ Repo_Name r = repository ∧ i ∈ Repo_Roles r ∧ Identity_Role i = role ∧
    (Repo_Bucket r ≠ "" ∧ bucket = Repo_Bucket r ∨ Repo_Bucket r = "" ∧ bucket = Broker_Bucket c).

(** A validated configuration says it once. *)
Lemma sorted_names_inj rs a b : sorted_repositories rs → a ∈ rs → b ∈ rs → Repo_Name a = Repo_Name b → a = b.
Proof.
  intros Hs [k Ha]%list_elem_of_lookup_1 [l Hb]%list_elem_of_lookup_1 He. destruct (Nat.lt_trichotomy k l) as [Hkl|[->|Hkl]]; [|congruence|].
  - pose proof (sorted_lookup _ _ _ _ _ Hs Hkl Ha Hb) as H. by rewrite He, string_ltb_irrefl in H.
  - pose proof (sorted_lookup _ _ _ _ _ Hs Hkl Hb Ha) as H. by rewrite He, string_ltb_irrefl in H.
Qed.
Lemma NoDup_fmap_elem {A B} (f : A → B) xs x y : NoDup (f <$> xs) → x ∈ xs → y ∈ xs → f x = f y → x = y.
Proof.
  intros Hnd [k Hx]%list_elem_of_lookup_1 [l Hy]%list_elem_of_lookup_1 He. enough (k = l) as -> by congruence.
  apply (NoDup_lookup _ k l (f x) Hnd); rewrite list_lookup_fmap; [by rewrite Hx|by rewrite Hy, He].
Qed.
Lemma configured_once c repository role bucket bucket' i i' :
  Broker_Validate c = Ok tt → configured c repository role bucket i → configured c repository role bucket' i' → bucket' = bucket ∧ i' = i.
Proof.
  intros [Hs Hok]%Broker_Validate_Ok (r & Hr & Hn & Hi & Hrole & Hb) (r' & Hr' & Hn' & Hi' & Hrole' & Hb').
  assert (r' = r) as -> by (apply (sorted_names_inj _ _ _ Hs); [done|done|congruence]). rewrite Forall_forall in Hok. destruct (Hok r Hr) as (_ & _ & Hnd & _).
  split; [naive_solver congruence|]. apply (NoDup_fmap_elem _ _ _ _ Hnd); [done|done|congruence].
Qed.

(** The identity that is delivered is the configured one, with the mode and the
    prefix of its role. *)
Lemma Config_Delivery_Some c repository role bucket i :
  Broker_Validate c = Ok tt → Config_Delivery c repository role = Some (bucket, i) → configured c repository role bucket i ∧ identity_ok repository i.
Proof.
  intros [Hs Hok]%Broker_Validate_Ok. unfold Config_Delivery. rewrite find_repository_lookup by done. intros (r & Hr & H)%bind_Some.
  apply bind_Some in H as (i' & [Hin Hrole]%find_role_Some & [= <- <-]). apply find_some in Hr as [Hr%list_elem_of_In Hname%bool_decide_eq_true].
  rewrite Forall_forall in Hok. destruct (Hok r Hr) as (_ & Hids & _). rewrite Forall_forall in Hids. rewrite <- Hname. split; [|by apply Hids].
  exists r. split_and!; [done..|]. case_bool_decide; [right|left]; done.
Qed.
End config.
