(* ===== verification/CacheBrokerClaims.v ===== *)
(** * One claim, one repository

    What the broker's answers guarantee, whatever order claims are added, verified
    and consumed in and however writes end. *)

From S2P Require Import Prelude GoText StateFile QueueIntent QueueScheduler QueueOps QueueReader FleetConfig CacheNamespace ProviderJournal CacheBroker CacheBrokerFacts.

Local Open Scope Z_scope.
Local Open Scope go_scope.

(** ** Valid journals *)

(** What validation says of a claim. *)
Record claim_ok (c : CacheClaim) : Prop := {
  claim_times : Claim_CreatedAt c < Claim_ExpiresAt c ≤ Claim_CreatedAt c + ClaimTTL;
  claim_bound : ClaimedRepository c ≠ "" → Claim_CreatedAt c ≤ ClaimedAt c ≤ Claim_ExpiresAt c;
}.

Lemma read_claim_ok file j i c : readUnlocked file = Ok j → CJ_Claims j !! i = Some c → claim_ok c.
Proof.
  intros Hr Hc. destruct file as [|content]; [by injection Hr as <-|]. apply bind_Ok in Hr as (d & _ & Hd). unfold Claims_Validate in Hd.
  destruct (Doc_Claims d) as [claims|]; [|done]. apply bind_Ok in Hd as ([] & _ & Hd). apply bind_Ok in Hd as ([] & Hall & Hd). apply Ok_inj in Hd as <-.
  cbn [CJ_Claims] in Hc. rewrite forM_Ok in Hall. specialize (Hall i). unfold validate_claim_entry in Hall. rewrite Hc in Hall.
  assert (i ∈ sorted_keys claims) as Hin by (apply elem_of_sorted_keys; by exists c). specialize (Hall Hin).
  apply bind_Ok in Hall as ([] & _ & Hall). apply bind_Ok in Hall as ([] & Hcontract%fail_if_Ok & Hall). apply bind_Ok in Hall as ([] & _ & Hall).
  apply orb_false_iff in Hcontract as [Hcontract Httl]. apply orb_false_iff in Hcontract as [_ Hafter]. apply negb_false_iff in Hafter.
  unfold After in Hafter. apply Z.ltb_lt in Hafter. apply Z.ltb_ge in Httl. split.
  - split; [done|]. revert Httl. unfold Sub, ClaimTTL, Minute, min_int64, max_int64. lia.
  - intros Hbound. rewrite bool_decide_eq_false_2 in Hall by done. cbn [negb] in Hall. apply fail_if_Ok in Hall.
    apply orb_false_iff in Hall as [Hall Hl]. apply orb_false_iff in Hall as [_ Hb]. unfold Before, After in *. lia.
Qed.

Section store.
Context {Hh : Hashing}.

(** How a transaction ends: the file is as it was, or holds the journal of the
    mutation with the next generation; and success means that the mutation ran
    on the retained claims. *)
Lemma update_claims_cases {A} acc now (mutate : ClaimJournal → result (ClaimJournal * A)) file file' r :
  update_claims acc now mutate file = (file', r) →
  (file' = file ∧ ∀ a, r = Ok a → ∃ j, readUnlocked file = Ok j ∧ mutate (retained_claims now j) = Ok (retained_claims now j, a)) ∨
  ∃ j j' a, readUnlocked file = Ok j ∧ mutate (retained_claims now j) = Ok (j', a) ∧ (∀ b, r = Ok b → b = a) ∧
    (file' = file ∧ is_ok r = false ∨
     file' = stored_claims {| CJ_Generation := uint64_next (CJ_Generation j'); CJ_UpdatedAt := now; CJ_Claims := CJ_Claims j' |}).
Proof.
  unfold update_claims. destruct (access_lock acc ≫= _) as [[before [j' a]]|e] eqn:Hrun; [|intros [= <- <-]; left; by split].
  apply bind_Ok in Hrun as ([] & _ & Hrun). apply bind_Ok in Hrun as (j & Hj & Hrun). cbv zeta in Hrun.
  apply bind_Ok in Hrun as ([j1 a1] & Hm & Hrun). apply bind_Ok in Hrun as (? & _ & Hrun). apply Ok_inj in Hrun. injection Hrun as <- -> ->.
  case_bool_decide as Heq.
  - intros [= <- <-]. left. split; [done|]. intros b [= <-]. exists j. by rewrite Hm, Heq.
  - cbv zeta. destruct (publish _ _ _) as [f w] eqn:Hp. intros [= <- <-]. right. exists j, j', a. apply publish_cases in Hp as [Hf Hw].
    split_and!; [done|done| |].
    + intros b. destruct w; simpl; [|done]. by intros [= <-].
    + destruct w as [[]|e]; [right; by apply Hw|]. destruct Hf as [->| ->]; [left; split; done|by right].
Qed.

(** ** Binding *)

(** Whoever can still read the file finds this claim of the instance in it. *)
Definition keeps_claim (i : string) (c : CacheClaim) (file : ClaimFile) : Prop :=
  ∀ j, readUnlocked file = Ok j → CJ_Claims j !! i = Some c.

Lemma keeps_stored i c j : CJ_Claims j !! i = Some c → keeps_claim i c (stored_claims j).
Proof.
  intros Hc k Hk. unfold stored_claims, readUnlocked in Hk. destruct (_ <? _); [done|]. simpl in Hk.
  apply bind_Ok in Hk as ([] & _ & Hk). apply bind_Ok in Hk as ([] & _ & Hk). by apply Ok_inj in Hk as <-.
Qed.

Lemma retained_lookup now j i c : CJ_Claims (retained_claims now j) !! i = Some c ↔ CJ_Claims j !! i = Some c ∧ claimRetained c now = true.
Proof. unfold retained_claims. cbn [CJ_Claims with_claims]. by rewrite map_lookup_filter_Some. Qed.

(** A bound claim is retained for a day. *)
Lemma bound_retained c now : ClaimedRepository c ≠ "" → now < ClaimedAt c + CorrelationTTL → claimRetained c now = true.
Proof. intros Hb Ht. unfold claimRetained. rewrite bool_decide_eq_false_2 by done. unfold After. lia. Qed.

(** The operations on the journal. *)
Inductive ClaimOp :=
  | OpAdd (instance pool role token : string)
  | OpConsume (instance token repository : string)
  | OpRemove (instance : string).
Record ClaimStep := { step_access : Access; step_now : Time; step_op : ClaimOp }.

(** The file afterwards, and the claim that was consumed. *)
Definition claim_step (s : ClaimStep) (file : ClaimFile) : ClaimFile * option CacheClaim :=
  match step_op s with
  | OpAdd i p r t => ((Store_Add (step_access s) (step_now s) i p r t file).1, None)
  | OpConsume i t r =>
      let '(file, consumed) := Store_Consume (step_access s) (step_now s) i t r file in (file, match consumed with Ok c => Some c | Err _ => None end)
  | OpRemove i => ((Store_Remove (step_access s) (step_now s) i file).1, None)
  end.
Definition claim_steps (steps : list ClaimStep) (file : ClaimFile) : ClaimFile := foldl (λ f s, (claim_step s f).1) file steps.

(** A step that leaves the binding of [i] in force: not a removal, and within a day. *)
Definition harmless (i : string) (c : CacheClaim) (s : ClaimStep) : Prop :=
  step_op s ≠ OpRemove i ∧ step_now s < ClaimedAt c + CorrelationTTL.

Lemma update_keeps {A} acc now (mutate : ClaimJournal → result (ClaimJournal * A)) i c file :
  keeps_claim i c file → claimRetained c now = true →
  (∀ j j' a, CJ_Claims j !! i = Some c → mutate j = Ok (j', a) → CJ_Claims j' !! i = Some c) →
  keeps_claim i c (update_claims acc now mutate file).1.
Proof.
  intros Hk Hr Hm. destruct (update_claims acc now mutate file) as [file' r] eqn:Hu. simpl.
  destruct (update_claims_cases _ _ _ _ _ _ Hu) as [[-> _]|(j & j' & a & Hj & Hma & _ & [[-> _]| ->])]; [done|done|].
  apply keeps_stored. cbn [CJ_Claims]. apply (Hm (retained_claims now j) j' a); [|exact Hma]. apply retained_lookup. split; [by apply Hk|done].
Qed.

Lemma step_keeps i c s file : ClaimedRepository c ≠ "" → harmless i c s → keeps_claim i c file → keeps_claim i c (claim_step s file).1.
Proof.
  intros Hb [Hop Ht] Hk. pose proof (bound_retained c (step_now s) Hb Ht) as Hr. unfold claim_step. destruct (step_op s) as [i' p role t|i' t rep|i'].
  - unfold Store_Add. destruct (_ ≫= _) as [[]|]; [|done]. apply update_keeps; [done|done|]. intros j j' a Hc. unfold add_claim.
    destruct (decide (i' = i)) as [->|Hne].
    + rewrite Hc, bool_decide_eq_false_2 by done. done.
    + intros ([] & _ & [= <- _]%Ok_inj)%bind_Ok. cbn [CJ_Claims with_claims]. by rewrite lookup_insert_ne.
  - unfold Store_Consume. destruct (negb _); [done|].
    assert (keeps_claim i c (update_claims (step_access s) (step_now s) (consume_claim i' t rep (step_now s)) file).1) as Hu.
    { apply update_keeps; [done|done|]. intros j j' a Hc. unfold consume_claim. destruct (CJ_Claims j !! i') as [c'|] eqn:Hc'; [|done].
      intros Hm. do 3 apply bind_Ok in Hm as ([] & _ & Hm). case_bool_decide as Hbound; apply Ok_inj in Hm; [|by injection Hm as <- <-].
      cbv zeta in Hm. injection Hm as <- <-. cbn [CJ_Claims with_claims]. rewrite lookup_insert_ne; [done|]. intros ->. congruence. }
    destruct (update_claims _ _ _ _) as [f r]. exact Hu.
  - unfold Store_Remove. apply update_keeps; [done|done|]. intros j j' a Hc [= <- _]. cbn [CJ_Claims with_claims]. rewrite lookup_delete_ne; [done|]. congruence.
Qed.

Lemma steps_keep i c steps file :
  ClaimedRepository c ≠ "" → Forall (harmless i c) steps → keeps_claim i c file → keeps_claim i c (claim_steps steps file).
Proof.
  intros Hb Hall. revert file. induction Hall as [|s steps Hs Hall IH]; intros file Hk; [done|]. simpl. apply IH. by apply step_keeps.
Qed.

(** A successful consumption leaves the claim bound to the repository, and is not
    later than a quarter of an hour after the binding. *)
Lemma consume_binds acc now i t rep file file' c :
  rep ≠ "" → Store_Consume acc now i t rep file = (file', Ok c) →
  keeps_claim i c file' ∧ ClaimedRepository c = rep ∧ TokenSHA256 c = HashToken t ∧ now < ClaimedAt c + ClaimTTL.
Proof.
  intros Hrep. unfold Store_Consume. destruct (negb _); [done|]. intros Hu.
  assert (∀ j j' a, readUnlocked file = Ok j → consume_claim i t rep now (retained_claims now j) = Ok (j', a) →
            CJ_Claims j' !! i = Some a ∧ ClaimedRepository a = rep ∧ TokenSHA256 a = HashToken t ∧ now < ClaimedAt a + ClaimTTL) as Hcons.
  { intros j j' a Hj Hm. unfold consume_claim in Hm. destruct (CJ_Claims (retained_claims now j) !! i) as [c0|] eqn:Hc0; [|done].
    apply bind_Ok in Hm as ([] & Hexp%fail_if_Ok & Hm). apply bind_Ok in Hm as ([] & Htok%fail_if_Ok & Hm). apply bind_Ok in Hm as ([] & Hother%fail_if_Ok & Hm).
    apply negb_false_iff in Hexp, Htok. apply bool_decide_eq_true in Htok. unfold After in Hexp. apply retained_lookup in Hc0 as Hread. destruct Hread as [Hread _].
    pose proof (read_claim_ok _ _ _ _ Hj Hread) as [Htimes Hbound]. case_bool_decide as Hfree; apply Ok_inj in Hm; cbv zeta in Hm; injection Hm as <- <-.
    - cbn [CJ_Claims with_claims bind_claim ClaimedRepository TokenSHA256 ClaimedAt]. split_and!; [apply lookup_insert_eq|done|done|unfold ClaimTTL, Minute; lia].
    - cbn [negb andb] in Hother. apply negb_false_iff, bool_decide_eq_true in Hother. specialize (Hbound Hfree). split_and!; [done|done|done|lia]. }
  destruct (update_claims_cases _ _ _ _ _ _ Hu) as [[-> Hok]|(j & j' & a & Hj & Hm & Ha & Hfile)].
  - destruct (Hok c eq_refl) as (j & Hj & Hm). destruct (Hcons _ _ _ Hj Hm) as (Hc & Hrest). split; [|done].
    intros k Hk. rewrite Hj in Hk. apply Ok_inj in Hk as <-. by apply retained_lookup in Hc as [Hc _].
  - pose proof (Ha c eq_refl) as <-. destruct (Hcons _ _ _ Hj Hm) as (Hc & Hrest). split; [|done]. destruct Hfile as [[_ [=]]| ->]. by apply keeps_stored.
Qed.

(** What a consumption finds is what the file keeps. *)
Lemma consume_kept acc now i t rep file file' c c' :
  keeps_claim i c file → ClaimedRepository c ≠ "" → Store_Consume acc now i t rep file = (file', Ok c') → c' = c ∧ rep = ClaimedRepository c.
Proof.
  intros Hk Hb. unfold Store_Consume. destruct (negb _); [done|]. intros Hu.
  assert (∀ j j' a, readUnlocked file = Ok j → consume_claim i t rep now (retained_claims now j) = Ok (j', a) → a = c ∧ rep = ClaimedRepository c) as Hcons.
  { intros j j' a Hj Hm. unfold consume_claim in Hm. destruct (CJ_Claims (retained_claims now j) !! i) as [c0|] eqn:Hc0; [|done].
    apply retained_lookup in Hc0 as [Hc0 _]. rewrite (Hk j Hj) in Hc0. injection Hc0 as <-. apply bind_Ok in Hm as ([] & _ & Hm). apply bind_Ok in Hm as ([] & _ & Hm).
    apply bind_Ok in Hm as ([] & Hother%fail_if_Ok & Hm). rewrite bool_decide_eq_false_2 in Hother, Hm by done. cbn [negb andb] in Hother.
    apply negb_false_iff, bool_decide_eq_true in Hother. apply Ok_inj in Hm. by injection Hm as _ <-. }
  destruct (update_claims_cases _ _ _ _ _ _ Hu) as [[-> Hok]|(j & j' & a & Hj & Hm & Ha & _)].
  - destruct (Hok c' eq_refl) as (j & Hj & Hm). by apply (Hcons _ _ _ Hj Hm).
  - rewrite (Ha c' eq_refl). by apply (Hcons _ _ _ Hj Hm).
Qed.
End store.

(** ** Requests *)

(** The queue authorizes a runner by an intent of its pool that one of the attempts
    found in the journal. *)
Lemma retry_Ok {W A} (once : nat → W → W * result A) waits cancelled attempts n w w' a :
  retry once waits cancelled attempts n w = (w', Ok a) → ∃ k w0, once k w0 = (w', Ok a).
Proof.
  revert n w. induction attempts as [|attempts IH]; intros n w; simpl; destruct (once n w) as [w1 [x|e]] eqn:Ho.
  - intros [= <- <-]. by exists n, w.
  - done.
  - intros [= <- <-]. by exists n, w.
  - destruct (is_not_ready e); [|done]. destruct (waits n); [apply IH|done].
Qed.

Lemma AuthorizeRunning_Ok attempts ctx waits c view u :
  AuthorizeRunning attempts ctx waits c view = Ok u →
  ∃ n j ki, readJournal (view n).2 = Ok j ∧ ki ∈ map_to_list (Intents j) ∧ authorizes c (view n).1 ki.2 = true.
Proof.
  unfold AuthorizeRunning. intros ([] & _ & H)%bind_Ok. destruct (retry _ _ _ _ _ _) as [w r] eqn:Hr. simpl in H. subst r.
  apply retry_Ok in Hr as (n & w0 & Hr). injection Hr as _ Hr. unfold authorizeOnce in Hr. apply bind_Ok in Hr as ([] & _ & Hr).
  apply bind_Ok in Hr as (j & Hj & Hr). destruct (existsb _ _) eqn:He; [|done]. apply existsb_exists in He as (ki & Hin & Ha).
  exists n, j, ki. split_and!; [done|by apply list_elem_of_In|done].
Qed.

Section requests.
Context {Hh : Hashing} {Hw : WebText} {He : Encodings}.

(** The runner of the request is the instance itself, or a runner that an active
    intent of the claim's pool and of the repository's account speaks for. *)
Definition runner_authorized (env : HandlerEnv) (r : ClaimRequest) (claim : CacheClaim) : Prop :=
  Request_InstanceName r = Request_RunnerName r ∨
  ∃ q n j ki, correlator env = Some q ∧ readJournal (auth_view q n).2 = Ok j ∧ ki ∈ map_to_list (Intents j) ∧
    authorizes (correlation_of r claim) (auth_view q n).1 ki.2 = true.

(** An answer that binds the claim: credentials, or none configured. *)
Definition binding_answer (response : Response) : Prop := response = Status 204 ∨ ∃ d, response = Delivers d.

Lemma correlate_claims env r claim s : broker_claims (correlate env r claim s).1 = broker_claims s.
Proof. unfold correlate. destruct (correlator env) as [q|]; [|done]. destruct (_ <? _); [|done]. by destruct (bind_running _ _ _). Qed.

Lemma served config env request s s' response later :
  ServeHTTP config env request s = (s', response, later) → binding_answer response →
  ∃ r token claim consumed, Body request = Ok r ∧ RawURL_Decode (Request_Token r) = Some token ∧ is_ok (splitRepository (Request_Repository r)) = true ∧
    Store_Verify (verify_access env) (verify_now env) (Request_InstanceName r) token (broker_claims s) = Ok claim ∧ runner_authorized env r claim ∧
    Store_Consume (consume_access env) (consume_now env) (Request_InstanceName r) token (Request_Repository r) (meanwhile env (broker_claims s))
      = (broker_claims s', Ok consumed) ∧
    ∀ d, response = Delivers d → ∃ bucket i, Config_Delivery config (Request_Repository r) (Claim_Role claim) = Some (bucket, i) ∧
      loadDelivery config env bucket i (Request_InstanceName r) = Ok d.
Proof.
  unfold ServeHTTP, binding_answer. intros H Hb. destruct (bool_decide _).
  { injection H as <- <- <-. unfold health in Hb. repeat case_match; destruct Hb as [|[]]; done. }
  do 2 (destruct (negb _); [injection H as <- <- <-; by destruct Hb as [|[]]|]).
  destruct (Body request) as [r|e] eqn:Hbody; [|injection H as <- <- <-; by destruct Hb as [|[]]].
  destruct (TrailingData request); [injection H as <- <- <-; by destruct Hb as [|[]]|].
  destruct (present_claim env r s) as [[token claim]|status] eqn:Hp; unfold present_claim in Hp; cycle 1.
  { injection H as <- <- <-. exfalso. repeat case_match; simplify_eq; destruct Hb as [|[]]; done. }
  destruct (negb (instancePattern _) || _); [done|]. destruct (is_ok (splitRepository _)) eqn:Hrepo; cbn [negb] in Hp; [|done].
  destruct (negb (is_ok _)); [done|]. destruct (RawURL_Decode (Request_Token r)) as [token'|] eqn:Htok; [|done]. destruct (negb _); [done|].
  destruct (Store_Verify _ _ _ _ _) as [claim'|] eqn:Hv; [|done]. injection Hp as -> ->.
  destruct (warm_authorized env r claim) eqn:Hwarm; cbn [negb] in H; [|injection H as <- <- <-; by destruct Hb as [|[]]].
  pose proof (correlate_claims env r claim s) as Hcl. destruct (correlate env r claim s) as [s1 later1]. cbn [fst] in Hcl.
  destruct (deliver config env r token claim s1) as [s2 response2] eqn:Hd. injection H as <- <- <-. unfold deliver in Hd. rewrite Hcl in Hd.
  exists r, token, claim.
  assert (runner_authorized env r claim) as Hauth.
  { unfold warm_authorized in Hwarm. apply orb_true_iff in Hwarm as [Hsame|Hwarm]; [left; by apply bool_decide_eq_true in Hsame|right].
    apply andb_true_iff in Hwarm as [_ Hwarm]. destruct (correlator env) as [q|]; [|done]. destruct (authorize_running q _) as [u|] eqn:Ha; [|done].
    apply AuthorizeRunning_Ok in Ha as (n & j & ki & Ha). by exists q, n, j, ki. }
  destruct (Store_Consume (consume_access env) _ _ _ _ _) as [file consumed] eqn:Hc.
  destruct (Config_Delivery config _ _) as [[bucket i]|] eqn:Hcfg.
  - destruct (loadDelivery config env bucket i _) as [d|e] eqn:Hload; [|injection Hd as <- <-; by destruct Hb as [|[]]].
    injection Hd as <- <-. destruct consumed as [consumed|e]; [|by destruct Hb as [|[]]]. exists consumed. split_and!; try done.
    intros d' [= <-]. by exists bucket, i.
  - injection Hd as <- <-. destruct consumed as [consumed|e]; [|by destruct Hb as [|[]]]. exists consumed. by split_and!.
Qed.

(** Where the credentials of a delivery reach: the root of the repository and class,
    and none for a name with a dot segment, which has no root. *)
Definition delivered_namespace (repository : string) (class : TrustClass) (d : CacheDelivery) : Prop :=
  (PrefixRootFor repository class = Ok (PrefixRoot d) ∨ PrefixRoot d = "" ∧ ∀ root, PrefixRootFor repository class ≠ Ok root) ∧
  ∀ b, Buildcache d = Some b → BuildcacheRepositoryFor repository class = Ok (Buildcache_Repository b).

(** The key in a credential file: the trimmed content of a regular file that the
    group cannot write and others cannot touch. *)
Definition holds_key (env : HandlerEnv) (path key : string) : Prop :=
  ∃ f raw, credential_file env path = Ok f ∧ file_regular f = true ∧ Z.land (file_perm f) 23 = 0 ∧ file_content f = Ok raw ∧ TrimSpace raw = key.

Lemma readPrivateRegular_Ok env path raw : readPrivateRegular (credential_file env path) = Ok raw → holds_key env path (TrimSpace raw).
Proof.
  unfold readPrivateRegular. intros (f & Hf & H)%bind_Ok. apply bind_Ok in H as ([] & Hmode%fail_if_Ok & H). apply bind_Ok in H as (raw' & Hc & H).
  apply bind_Ok in H as ([] & _ & [= <-]%Ok_inj). apply orb_false_iff in Hmode as [Hr%negb_false_iff Hp%negb_false_iff%Z.eqb_eq]. by exists f, raw'.
Qed.

(** The keys of a delivery are those in the files of the identity. *)
Record delivered_keys (env : HandlerEnv) (i : CacheIdentity) (d : CacheDelivery) : Prop := {
  key_access : holds_key env (AccessKeyFile i) (AccessKey d);
  key_secret : ∃ secret, holds_key env (SecretKeyFile i) secret ∧ SecretKeyB64 d = Std_Encode secret;
  key_buildcache : ∀ b, Buildcache d = Some b → holds_key env (BuildcacheUsernameFile i) (Buildcache_Username b) ∧
    ∃ password, holds_key env (BuildcachePasswordFile i) password ∧ PasswordB64 b = Std_Encode password;
}.

Lemma loadBuildcacheDelivery_Ok config env i b :
  loadBuildcacheDelivery config env i = Ok b →
  (∃ rc, ParsePrefixRoot (Identity_Prefix i) = Ok rc ∧ BuildcacheRepositoryFor rc.1 rc.2 = Ok (Buildcache_Repository b)) ∧
  holds_key env (BuildcacheUsernameFile i) (Buildcache_Username b) ∧
  ∃ password, holds_key env (BuildcachePasswordFile i) password ∧ PasswordB64 b = Std_Encode password.
Proof.
  unfold loadBuildcacheDelivery. intros (rc & Hrc%wrap_err_Ok & Hb)%bind_Ok. apply bind_Ok in Hb as (ns & Hns%wrap_err_Ok & Hb).
  apply bind_Ok in Hb as (user & Hu%wrap_err_Ok%readPrivateRegular_Ok & Hb). apply bind_Ok in Hb as (password & Hp%wrap_err_Ok%readPrivateRegular_Ok & Hb).
  apply bind_Ok in Hb as ([] & _ & [= <-]%Ok_inj). split_and!; [by exists rc|done|by eexists].
Qed.

Lemma loadDelivery_Ok config env bucket i instance d repository class :
  Identity_Prefix i = wanted_prefix repository class → loadDelivery config env bucket i instance = Ok d →
  Delivery_Role d = Identity_Role i ∧ Delivery_Mode d = Identity_Mode i ∧ Delivery_Bucket d = bucket ∧ Delivery_Endpoint d = Broker_Endpoint config ∧
  delivered_keys env i d ∧ delivered_namespace repository class d.
Proof.
  intros Hp H. unfold loadDelivery in H. apply bind_Ok in H as (access & Ha%wrap_err_Ok%readPrivateRegular_Ok & H).
  apply bind_Ok in H as (secret & Hs%wrap_err_Ok%readPrivateRegular_Ok & H). apply bind_Ok in H as (ca & _ & H).
  cbv zeta in H. apply bind_Ok in H as ([] & _ & H). apply bind_Ok in H as (b & Hb & H). apply Ok_inj in H as <-.
  assert (∀ x, b = Some x → loadBuildcacheDelivery config env i = Ok x) as Hload.
  { intros x ->. destruct (_ && _); [|done]. by apply bind_Ok in Hb as (y & Hy & [= <-]%Ok_inj). }
  split_and!; [done..| |].
  - split; cbn [AccessKey SecretKeyB64 Buildcache]; [done|by eexists|]. intros x Hx. by apply Hload, loadBuildcacheDelivery_Ok in Hx as [_ Hx].
  - split; cbn [PrefixRoot Buildcache].
    + rewrite Hp. unfold wanted_prefix. destruct (PrefixRootFor repository class) as [p|e]; [by left|right; split; [done|by intros root]].
    + intros x Hx. apply Hload, loadBuildcacheDelivery_Ok in Hx as [(rc & Hrc & Hns) _]. rewrite Hp in Hrc. unfold wanted_prefix in Hrc.
      destruct (PrefixRootFor repository class) as [p|e] eqn:Hroot; [|done]. apply prefix_root_roundtrip in Hroot. rewrite Hroot in Hrc. by apply Ok_inj in Hrc as <-.
Qed.

(** The journal that the broker read holds this claim of the instance, not expired,
    under the hash of the token. *)
Definition presented (env : HandlerEnv) (instance token : string) (claim : CacheClaim) (file : ClaimFile) : Prop :=
  String.length token = ClaimTokenBytes ∧
  ∃ j, readUnlocked file = Ok j ∧ CJ_Claims j !! instance = Some claim ∧ verify_now env < Claim_ExpiresAt claim ∧ TokenSHA256 claim = HashToken token.

Lemma Store_Verify_Ok env instance token file claim :
  Store_Verify (verify_access env) (verify_now env) instance token file = Ok claim → presented env instance token claim file.
Proof.
  unfold Store_Verify. intros ([] & Hlen%fail_if_Ok%negb_false_iff%Nat.eqb_eq & H)%bind_Ok. split; [done|].
  apply bind_Ok in H as (j & Hj & H). apply bind_Ok in Hj as ([] & _ & Hj). exists j. destruct (CJ_Claims j !! instance) as [c|]; [|done].
  apply bind_Ok in H as ([] & Ht%fail_if_Ok%negb_false_iff & H). apply bind_Ok in H as ([] & Hh'%fail_if_Ok%negb_false_iff%bool_decide_eq_true & [= <-]%Ok_inj).
  unfold After in Ht. apply Z.ltb_lt in Ht. by split_and!.
Qed.

(** C33: Credentials are delivered only for a claim: the journal held an unexpired claim of
    the request's instance under the hash of the presented token, the runner is the
    instance or one that an active intent speaks for, and the claim is then bound to
    the request's repository. The delivered access key, secret and build-cache login
    are the contents of the private files of the one identity that the configuration
    lists for this repository and the claim's role, with its bucket, mode and
    namespace; a name with a dot segment has no namespace and an empty one is sent. *)
Theorem delivery_matches_claim config env request s s' d later :
  Broker_Validate config = Ok tt → ServeHTTP config env request s = (s', Delivers d, later) →
  ∃ r token claim consumed class i,
    Body request = Ok r ∧ RawURL_Decode (Request_Token r) = Some token ∧
    presented env (Request_InstanceName r) token claim (broker_claims s) ∧
    runner_authorized env r claim ∧
    keeps_claim (Request_InstanceName r) consumed (broker_claims s') ∧ ClaimedRepository consumed = Request_Repository r ∧
    TokenSHA256 consumed = HashToken token ∧
    configured config (Request_Repository r) (Claim_Role claim) (Delivery_Bucket d) i ∧
    (∀ bucket' i', configured config (Request_Repository r) (Claim_Role claim) bucket' i' → bucket' = Delivery_Bucket d ∧ i' = i) ∧
    delivered_keys env i d ∧ Delivery_Endpoint d = Broker_Endpoint config ∧
    Delivery_Role d = Claim_Role claim ∧ roleContract (Claim_Role claim) = Some (class, Delivery_Mode d) ∧
    delivered_namespace (Request_Repository r) class d.
Proof.
  intros Hvalid Hserve. destruct (served _ _ _ _ _ _ _ Hserve) as (r & token & claim & consumed & Hbody & Htok & Hrepo & Hv%Store_Verify_Ok & Hauth & Hc & Hd); [right; by exists d|].
  destruct (Hd d eq_refl) as (bucket & i & Hcfg & Hload). apply Config_Delivery_Some in Hcfg as (Hconf & (class & Hcontract & Hprefix)); [|done].
  destruct (loadDelivery_Ok _ _ _ _ _ _ _ _ Hprefix Hload) as (Hdr & Hdm & Hbucket & Hend & Hkeys & Hns).
  assert (Request_Repository r ≠ "") as Hne by (intros Hempty; by rewrite Hempty in Hrepo).
  destruct (consume_binds _ _ _ _ _ _ _ _ Hne Hc) as (Hk & Hrep & Hh' & _).
  assert (Identity_Role i = Claim_Role claim) as Hrole by (by destruct Hconf as (? & ? & ? & ? & ? & ?)).
  exists r, token, claim, consumed, class, i. rewrite Hdr, Hdm, Hbucket. rewrite Hrole in *. split_and!; try done.
  intros bucket' i'. by apply configured_once.
Qed.

(** C34: A claim yields the credentials of one repository: once a request was answered for
    an instance, no other request of the instance is answered for another repository
    for 23 hours and 45 minutes, whatever claims are added and consumed in the
    meantime and however the writes end, unless the claim is removed. *)
Theorem claim_one_repository config1 env1 request1 s1 s1' response1 later1 steps config2 env2 request2 steps2 queue2 s2' response2 later2 r1 r2 :
  ServeHTTP config1 env1 request1 s1 = (s1', response1, later1) → binding_answer response1 → Body request1 = Ok r1 →
  ServeHTTP config2 env2 request2 {| broker_claims := claim_steps steps (broker_claims s1'); broker_queue := queue2 |} = (s2', response2, later2) →
  binding_answer response2 → Body request2 = Ok r2 → meanwhile env2 = claim_steps steps2 →
  Forall (λ s, step_op s ≠ OpRemove (Request_InstanceName r1) ∧ step_now s < consume_now env1 + 23 * Hour + 45 * Minute) (steps ++ steps2) →
  Request_InstanceName r2 = Request_InstanceName r1 → Request_Repository r2 = Request_Repository r1.
Proof.
  intros Hs1 Hb1 Hr1 Hs2 Hb2 Hr2 Hmean Hsteps Hi.
  destruct (served _ _ _ _ _ _ _ Hs1 Hb1) as (r & t1 & claim1 & c1 & Hr & _ & Hrepo1 & _ & _ & Hc1 & _). rewrite Hr1 in Hr. apply Ok_inj in Hr as <-.
  destruct (served _ _ _ _ _ _ _ Hs2 Hb2) as (r & t2 & claim2 & c2 & Hr & _ & _ & _ & _ & Hc2 & _). rewrite Hr2 in Hr. apply Ok_inj in Hr as <-.
  assert (Request_Repository r1 ≠ "") as Hne by (intros Hempty; by rewrite Hempty in Hrepo1).
  destruct (consume_binds _ _ _ _ _ _ _ _ Hne Hc1) as (Hk & Hrep & _ & Htime). rewrite Hmean, Hi in Hc2. cbn [broker_claims] in Hc2.
  assert (ClaimedRepository c1 ≠ "") as Hbound by congruence.
  assert (Forall (harmless (Request_InstanceName r1) c1) (steps ++ steps2)) as Hall.
  { eapply Forall_impl; [exact Hsteps|]. intros s [Hop Ht]. split; [done|]. unfold ClaimTTL, CorrelationTTL, Hour, Minute in *. lia. }
  apply Forall_app in Hall as [Hall Hall2]. pose proof (steps_keep _ _ _ _ Hbound Hall Hk) as Hk2. pose proof (steps_keep _ _ _ _ Hbound Hall2 Hk2) as Hk3.
  destruct (consume_kept _ _ _ _ _ _ _ _ _ Hk3 Hbound Hc2) as [_ ->]. done.
Qed.
End requests.

(** ** A broker with two repositories

    A claim is added, exchanged for the credentials of one repository, and refused to
    the other. Two surprises of the code: an intent that names only an account speaks
    for every repository of it, and a repository name with a dot segment passes
    validation with an empty prefix. *)

Definition zeros63 : string := "000000000000000000000000000000000000000000000000000000000000000".
#[local] Instance example_hashing : Hashing := {|
  HashToken s := zeros63 +:+ (if (String.length s =? 32)%nat then "a" else "b"); claimSize _ := 900 |}.
#[local] Instance example_web : WebText := {|
  web_Parse s := None;
  web_ParseRequestURI s :=
    if bool_decide (s = "https://10.0.0.1:9002")
    then Some {| Web_Scheme := "https"; Web_Host := "10.0.0.1:9002"; Web_HasUser := false; Web_Path := ""; Web_RawQuery := ""; Web_Fragment := "" |} else None;
  SplitHostPort s := if String.prefix "10.0.0.1:" s then Some ("10.0.0.1", drop_bytes 9 s) else None;
  ParseIP s := Some {| IsUnspecified := false; IsMulticast := false |} |}.
#[local] Instance example_encodings : Encodings := {| RawURL_Decode s := Some s; Std_Encode s := s |}.

Definition identity_for (repository role mode pre : string) : CacheIdentity := {|
  Identity_Role := role; Identity_Mode := mode; Identity_Prefix := pre; AccessKeyFile := "/run/keys/" +:+ repository +:+ "/" +:+ role +:+ "/access"; SecretKeyFile := "/run/keys/" +:+ repository +:+ "/" +:+ role +:+ "/secret";
  BuildcacheUsernameFile := ""; BuildcachePasswordFile := "" |}.
Definition repository_of (name root : string) : CacheRepository := {|
  Repo_Name := name; Repo_Bucket := "";
  Repo_Roles := [identity_for name "trusted-writer" "read-write" (root +:+ "trusted"); identity_for name "untrusted-writer" "read-write" (root +:+ "untrusted");
                 identity_for name "release-reader" "read-only" (root +:+ "promoted")] |}.
Definition broker_config : BrokerConfig := {|
  Broker_SchemaVersion := 1; ListenAddress := "10.0.0.1:9443"; Broker_Endpoint := "https://10.0.0.1:9002"; Broker_Region := "us-east-1";
  Broker_Bucket := "github-actions-cache"; CAFile := "/etc/ca.pem"; JournalFile := "/var/lib/claims.json"; JournalLock := "/var/lib/claims.lock";
  QueueJournalFile := ""; QueueJournalLock := ""; ProviderJournalFile := ""; BuildcacheRegistry := "";
  Broker_Repositories := [repository_of "acme/api" "acme/api/trust/"; repository_of "acme/web" "acme/web/trust/"] |}.

Lemma broker_config_valid : Broker_Validate broker_config = Ok tt.
Proof. vm_compute. reflexivity. Qed.

Definition token32 : string := "0123456789abcdef0123456789abcdef".
Definition key_file (content : string) : result PrivateFile := Ok {| file_regular := true; file_perm := 384; file_content := Ok content |}.
Definition broker_env (now : Time) : HandlerEnv := {|
  health_access := fault_free; verify_access := fault_free; verify_now := now; meanwhile := claim_steps []; consume_access := fault_free; consume_now := now;
  correlator := None;
  credential_file := λ path, if HasSuffix path "/access" then key_file "AKIA0123456789ABCDEF"
                             else key_file "0123456789abcdef0123456789abcdef0123456789abcdef0123456789abcdef";
  ca_content := Ok "pem" |}.
Definition claim_of (repository : string) : ClaimRequest := {|
  Request_InstanceName := "worker-1"; Request_RunnerName := "worker-1"; Request_Repository := repository; Request_RepositoryID := 0; Request_WorkflowRunID := 0;
  Request_RunAttempt := 0; Request_JobName := ""; Request_WorkflowRef := ""; Request_CommitSHA := ""; Request_Token := token32 |}.
Definition post (repository : string) : Request := {| Method := "POST"; Request_Path := ClaimPath; Body := Ok (claim_of repository); TrailingData := false |}.

Definition claimed_file : ClaimFile := (Store_Add fault_free (600 * Hour) "worker-1" "linux" "trusted-writer" token32 Absent).1.
Definition broker_start : BrokerState := {| broker_claims := claimed_file; broker_queue := NoQueueFile |}.
Definition first_answer : BrokerState * Response * option RunningCorrelation :=
  ServeHTTP broker_config (broker_env (600 * Hour + Minute)) (post "acme/api") broker_start.

Definition response_prefix (r : Response) : option string := match r with Delivers d => Some (PrefixRoot d) | Status _ => None end.

(** Delivered once, refused to another repository, delivered again to the same, and
    refused to everyone after a quarter of an hour. *)
Example claim_lifecycle :
  let answer repository now := ServeHTTP broker_config (broker_env now) (post repository) first_answer.1.1 in
  response_prefix first_answer.1.2 = Some "acme/api/trust/trusted" ∧ (answer "acme/web" (600 * Hour + 2 * Minute)).1.2 = Status 409 ∧
  response_prefix (answer "acme/api" (600 * Hour + 3 * Minute)).1.2 = Some "acme/api/trust/trusted" ∧
  (answer "acme/api" (600 * Hour + 15 * Minute)).1.2 = Status 403.
Proof. vm_compute. split_and!; reflexivity. Qed.

Definition first_delivery : CacheDelivery :=
  match first_answer.1.2 with
  | Delivers d => d
  | Status _ => {| Delivery_SchemaVersion := 0; DeliveryID := ""; Delivery_Role := ""; Delivery_Mode := ""; Delivery_Endpoint := ""; Delivery_Region := "";
                   Delivery_Bucket := ""; PrefixRoot := ""; AccessKey := ""; SecretKeyB64 := ""; CAPEMB64 := ""; Buildcache := None |}
  end.

Lemma delivery_matches_claim_witness :
  PrefixRoot first_delivery = "acme/api/trust/trusted" ∧
  ∃ r token claim consumed class i,
    Body (post "acme/api") = Ok r ∧ RawURL_Decode (Request_Token r) = Some token ∧
    presented (broker_env (600 * Hour + Minute)) (Request_InstanceName r) token claim claimed_file ∧
    runner_authorized (broker_env (600 * Hour + Minute)) r claim ∧
    keeps_claim (Request_InstanceName r) consumed (broker_claims first_answer.1.1) ∧ ClaimedRepository consumed = Request_Repository r ∧
    TokenSHA256 consumed = HashToken token ∧
    configured broker_config (Request_Repository r) (Claim_Role claim) (Delivery_Bucket first_delivery) i ∧
    (∀ bucket' i', configured broker_config (Request_Repository r) (Claim_Role claim) bucket' i' → bucket' = Delivery_Bucket first_delivery ∧ i' = i) ∧
    delivered_keys (broker_env (600 * Hour + Minute)) i first_delivery ∧ Delivery_Endpoint first_delivery = Broker_Endpoint broker_config ∧
    Delivery_Role first_delivery = Claim_Role claim ∧ roleContract (Claim_Role claim) = Some (class, Delivery_Mode first_delivery) ∧
    delivered_namespace (Request_Repository r) class first_delivery.
Proof.
  split; [vm_compute; reflexivity|].
  apply (delivery_matches_claim broker_config (broker_env (600 * Hour + Minute)) (post "acme/api") broker_start first_answer.1.1 first_delivery None).
  - apply broker_config_valid.
  - vm_compute. reflexivity.
Defined.

(** Another claim is added, a consumption is attempted, and the first one asks again. *)
Definition steps_between : list ClaimStep :=
  [{| step_access := fault_free; step_now := 600 * Hour + 2 * Minute; step_op := OpAdd "worker-1" "linux" "untrusted-writer" token32 |};
   {| step_access := fault_free; step_now := 600 * Hour + 2 * Minute; step_op := OpConsume "worker-1" token32 "acme/web" |}].
Definition second_state : BrokerState := {| broker_claims := claim_steps steps_between (broker_claims first_answer.1.1); broker_queue := NoQueueFile |}.
Definition second_answer : BrokerState * Response * option RunningCorrelation :=
  ServeHTTP broker_config (broker_env (600 * Hour + 3 * Minute)) (post "acme/api") second_state.

Lemma claim_one_repository_witness :
  response_prefix second_answer.1.2 = Some "acme/api/trust/trusted" ∧ Request_Repository (claim_of "acme/api") = Request_Repository (claim_of "acme/api").
Proof.
  split; [vm_compute; reflexivity|].
  apply (claim_one_repository broker_config (broker_env (600 * Hour + Minute)) (post "acme/api") broker_start first_answer.1.1 first_answer.1.2 first_answer.2
           steps_between broker_config (broker_env (600 * Hour + 3 * Minute)) (post "acme/api") [] NoQueueFile second_answer.1.1 second_answer.1.2 second_answer.2
           (claim_of "acme/api") (claim_of "acme/api")).
  - vm_compute. reflexivity.
  - right. exists first_delivery. vm_compute. reflexivity.
  - reflexivity.
  - vm_compute. reflexivity.
  - right. eexists. vm_compute. reflexivity.
  - reflexivity.
  - reflexivity.
  - repeat constructor; vm_compute; discriminate.
  - reflexivity.
Defined.

(** An addition that is refused because the directory could not be synced has recorded
    the claim all the same; nobody holds its token, and it expires. *)
Example refused_add_is_recorded :
  let '(file, r) := Store_Add {| access_lock := Ok tt; access_write := PublishedNotSynced (Errorf "sync" []) |} (600 * Hour) "worker-1" "linux"
                      "trusted-writer" token32 Absent in
  is_ok r = false ∧ file = claimed_file.
Proof. vm_compute. split; reflexivity. Qed.

(** An intent that names only the account and no run authorizes a runner of any name
    for every repository of the account and every run. *)
Theorem account_intent_authorizes_any c now i :
  State i = queueStateAssigned → now < ExpiresAt i → ScaleSetName i = PoolName c → OwnerAccount i = account (Correlation_Repository c) →
  Repository i = account (Correlation_Repository c) → WorkflowRunID i = 0 → authorizes c now i = true.
Proof.
  intros Hs Ht Hn Ho Hr Hw. unfold authorizes, same_account, same_run, After. rewrite Hs, Hn, Ho, Hr, Hw.
  rewrite !bool_decide_eq_true_2 by done. apply Z.ltb_lt in Ht as ->. done.
Qed.

(** A repository whose owner is a dot passes validation with an empty prefix, although
    no root exists for it. *)
Definition dotted_config : BrokerConfig := {|
  Broker_SchemaVersion := 1; ListenAddress := "10.0.0.1:9443"; Broker_Endpoint := "https://10.0.0.1:9002"; Broker_Region := "us-east-1";
  Broker_Bucket := "github-actions-cache"; CAFile := "/etc/ca.pem"; JournalFile := "/var/lib/claims.json"; JournalLock := "/var/lib/claims.lock";
  QueueJournalFile := ""; QueueJournalLock := ""; ProviderJournalFile := ""; BuildcacheRegistry := "";
  Broker_Repositories := [{| Repo_Name := "./api"; Repo_Bucket := "";
    Repo_Roles := [identity_for "dotted" "trusted-writer" "read-write" ""; identity_for "dotted" "untrusted-writer" "read-write" "";
                   identity_for "dotted" "release-reader" "read-only" ""] |}] |}.

Theorem dotted_repository_without_prefix : Broker_Validate dotted_config = Ok tt ∧ is_ok (PrefixRootFor "./api" Trusted) = false.
Proof. vm_compute. split; reflexivity. Qed.
