(* ===== verification/CacheDelivery.v ===== *)
(** * Delivering cache claims to workers
    ([src/internal/garmproviderincus/provider/cache_delivery.go])

    A worker receives a one-job claim for its cache credentials, in a file that the
    provider writes into the guest and records with the broker ([CacheBroker]).
    The programs are those of [IncusProvider]: every call joins the history. *)

From S2P Require Import Prelude GoText StateFile QueueIntent Admission ProviderJournal ProviderAdmission FleetConfig CacheNamespace CacheBroker.
From S2P Require Import Tenant ProviderHost NDDevAdmission IncusProvider.

Local Open Scope Z_scope.
Local Open Scope go_scope.

(** ** What the world answers to the calls of a create *)

(** A file read from a guest: its body as far as the limit allows, closing it, and
    what Incus says of it, if anything. *)
Record FileMeta := { Meta_Type : string; Meta_Mode : Z; Meta_UID : Z; Meta_GID : Z }.
Record GuestFile := { guest_body : result string; guest_close : result unit; guest_meta : option FileMeta }.

Record CreateAnswers := {
  repository_of : list Event → BootstrapInstance → result string;
  claims_warm : list Event → BootstrapInstance → result WarmClaimResult;
  admits : list Event → BootstrapInstance → result AdmissionResult;
  claim_contract : list Event → result (string * string);            (* the endpoint and the CA *)
  random_token : list Event → result string;
  verifies : list Event → string → string → result CacheClaim;
  reads_file : list Event → string → string → result GuestFile;
  turns : list Event → nat;                                          (* retries until a deadline *)
  cancelled : list Event → option error;
  probe_due : list Event → bool;
  addresses : list Event → string → list (string * string);          (* scope and address *)
}.

(** ** Roles *)

Definition cacheAssignmentDirectory : string := "/home/runner/.gha-cache".
Definition cacheAssignmentPath : string := cacheAssignmentDirectory +:+ "/provider-assignment.json".
Definition cacheReadyPath : string := cacheAssignmentDirectory +:+ "/provider-assignment.ready".
Definition cacheConsumedPath : string := cacheAssignmentDirectory +:+ "/provider-assignment.consumed".

Definition cacheRoleForPool (pool : Pool) : result (string * bool) :=
  let scope := CacheWriteScope (Pool_Capabilities pool) in
  if bool_decide (Trust pool = "trusted") && bool_decide (scope = "trusted") then Ok ("trusted-writer", true)
  else if bool_decide (Trust pool = "untrusted") && bool_decide (scope = "isolated") then Ok ("untrusted-writer", true)
  else if bool_decide (Trust pool = "release") && bool_decide (scope = "none") then Ok ("release-reader", true)
  else if bool_decide (scope = "none") then Ok ("correlation-only", true)
  else Err (Errorf "pool %q has no fail-closed cache identity mapping for trust=%q write_scope=%q" [Pool_Name pool; Trust pool; scope]).

Record workerCacheClaim := {
  WClaim_SchemaVersion : Z; WClaim_InstanceName : string; WClaim_RunnerName : string; WClaim_Endpoint : string; WClaim_Token : string;
  WClaim_CAPEMB64 : string;
}.
Record workerCacheAssignment := {
  WAssign_SchemaVersion : Z; WAssign_DeliveryID : string; WAssign_Role : string; WAssign_Mode : string; WAssign_Endpoint : string;
  WAssign_Region : string; WAssign_Bucket : string; WAssign_PrefixRoot : string; WAssign_AccessKey : string; WAssign_SecretKeyB64 : string;
  WAssign_CAPEMB64 : string;
}.

(** Texts of the standard library: what [encoding/json] reads and writes, and
    base64. A decoder reports what follows the document. *)
Class ClaimText := {
  schema_version : string → option Z;
  decode_claim : string → result (workerCacheClaim * bool);
  decode_assignment : string → result (workerCacheAssignment * bool);
  encode_claim : workerCacheClaim → string;
  RawURL_Encode : string → string;
  Std_Decode : string → option string;
}.

Record workerCacheRole := { CRole : string; CMode : string; CPrefix : string }.

(** [mustCachePrefix] panics where there is no root. *)
Definition mustCachePrefix (repository : string) (class : TrustClass) : result string :=
  wrap_err "panic: %v" (PrefixRootFor repository class).

Definition workerCacheRoles (repository : string) : result (list workerCacheRole) :=
  trusted ← mustCachePrefix repository Trusted;
  untrusted ← mustCachePrefix repository Untrusted;
  promoted ← mustCachePrefix repository CacheNamespace.Promoted;
  Ok [{| CRole := "trusted-writer"; CMode := "read-write"; CPrefix := trusted |};
      {| CRole := "untrusted-writer"; CMode := "read-write"; CPrefix := untrusted |};
      {| CRole := "release-reader"; CMode := "read-only"; CPrefix := promoted |}].

(** [^AKIA[0-9A-F]{16}$], [^[A-Za-z0-9_-]{64}$] and
    [^[a-z0-9][a-z0-9.-]{1,61}[a-z0-9]-cache$]. *)
Definition cacheAccessKeyPattern (s : string) : bool :=
  HasPrefix s "AKIA" && (String.length s =? 20)%nat && all_bytes (λ c, is_digit c || in_range "A" "F" c) (drop_bytes 4 s).
Definition cacheSecretPattern (s : string) : bool :=
  (String.length s =? 64)%nat && all_bytes (λ c, in_range "A" "Z" c || is_lower c || is_digit c || bool_decide (c = "_"%char) || bool_decide (c = "-"%char)) s.
Definition alphanumeric (c : ascii) : bool := is_lower c || is_digit c.
Definition cacheBucketPattern (s : string) : bool :=
  HasSuffix s "-cache" &&
  let body := rev_string (drop_bytes 6 (rev_string s)) in
  (3 <=? String.length body)%nat && (String.length body <=? 63)%nat &&
  all_bytes (λ c, alphanumeric c || bool_decide (c = "."%char) || bool_decide (c = "-"%char)) body &&
  match body with String c _ => alphanumeric c | EmptyString => false end &&
  match rev_string body with String c _ => alphanumeric c | EmptyString => false end.

(** [rustfscache.Delivery]. *)
Record Delivery := {
  D_Role : string; D_Endpoint : string; D_Region : string; D_Bucket : string; D_Prefix : string; D_Mode : string; D_AccessKey : string;
  D_SecretKey : string; D_CAPEM : string;
}.

(** ** What GARM asks for, and the provider's own configuration *)

(** [commonParams.BootstrapInstance] and the fields of it that are used; the extra
    specs are the JSON text GARM stored for the pool. *)
Record BootstrapParams := {
  base : BootstrapInstance;
  CallbackURL : string;
  MetadataURL : string;
  InstanceToken : string;
  GitHubRunnerGroup : string;
  OSType : string;
  OSArch : string;
  JitConfigEnabled : bool;
  Params_Image : string;
  CACertBundle : string;
  ExtraSpecs : option string;
}.

Record CreateConfig := {
  cacheClaim : bool;                     (* a claim loader is configured *)
  AllowedGitHubAccounts : list string;
  AllowedGitHubRepositories : list string;
  WorkerGatewayURL : string;
}.

Section delivery.
Context (api_not_found : error → bool) (w : Answers) (cw : CreateAnswers) (l : Incus_Provider) (cfg : CreateConfig).
Context `{!Hashing} `{!WebText} `{!Encodings} `{!ClaimText}.

Definition cacheDeliveryID (jobName : string) : string := HashToken ("nddev-worker-cache-delivery-v1" +:+ String nul_byte jobName).

Definition cacheClaimConfigured (b : BootstrapInstance) : result (string * bool) :=
  match find_pool (platform (front l)) (Flavor b) with
  | None => Err (Errorf "pool policy %q does not exist" [Flavor b])
  | Some pool => '(role, enabled) ← cacheRoleForPool pool; Ok (role, enabled && cacheClaim cfg)
  end.

Definition validateCacheDelivery (role : string) (d : Delivery) : result unit :=
  let refusal := Errorf "loaded %s cache delivery does not match the worker trust contract" [role] in
  match ParsePrefixRoot (D_Prefix d) with
  | Err _ => Err refusal
  | Ok (repository, _) =>
      roles ← workerCacheRoles repository;
      match List.find (λ entry, bool_decide (CRole entry = role)) roles with
      | None => Err refusal
      | Some expected =>
          fail_if (negb (bool_decide (D_Role d = role)) || negb (bool_decide (D_Mode d = CMode expected))
                   || negb (bool_decide (D_Prefix d = CPrefix expected)) || negb (is_ok (ValidateEndpoint (D_Endpoint d)))
                   || negb (bool_decide (D_Region d = "us-east-1")) || negb (cacheBucketPattern (D_Bucket d))
                   || negb (cacheAccessKeyPattern (D_AccessKey d)) || negb (cacheSecretPattern (D_SecretKey d))
                   || bool_decide (D_CAPEM d = "")) refusal
      end
  end.

Definition decoded (format : string) (o : option string) : result string :=
  match o with Some v => Ok v | None => Err (Errorf format []) end.

Definition parseWorkerCacheAssignment (raw : string) : result workerCacheAssignment :=
  '(a, trailing) ← decode_assignment raw;
  fail_if trailing (Errorf "cache assignment must contain exactly one JSON document" []);;
  secret ← decoded "decode cache assignment secret" (Std_Decode (WAssign_SecretKeyB64 a));
  ca ← decoded "decode cache assignment CA" (Std_Decode (WAssign_CAPEMB64 a));
  fail_if (negb (WAssign_SchemaVersion a =? 1) || negb (hashPattern (WAssign_DeliveryID a))) (Errorf "cache assignment identity is invalid" []);;
  validateCacheDelivery (WAssign_Role a)
    {| D_Role := WAssign_Role a; D_Endpoint := WAssign_Endpoint a; D_Region := WAssign_Region a; D_Bucket := WAssign_Bucket a;
       D_Prefix := WAssign_PrefixRoot a; D_Mode := WAssign_Mode a; D_AccessKey := WAssign_AccessKey a; D_SecretKey := secret; D_CAPEM := ca |};;
  Ok a.

Definition parseWorkerCacheClaim (raw : string) : result workerCacheClaim :=
  '(c, trailing) ← wrap_err "decode worker cache claim: %w" (decode_claim raw);
  fail_if trailing (Errorf "worker cache claim contains trailing data" []);;
  fail_if (negb (WClaim_SchemaVersion c =? 2) || bool_decide (WClaim_InstanceName c = "") || bool_decide (WClaim_RunnerName c = "")
           || bool_decide (WClaim_Endpoint c = "") || bool_decide (WClaim_Token c = "") || bool_decide (WClaim_CAPEMB64 c = ""))
    (Errorf "worker cache claim is incomplete" []);;
  Ok c.

(** *** The claim *)

(** The roots of both endpoints, one after the other on lines of their own. *)
Definition claim_roots (ca bundle : string) : string :=
  if bool_decide (bundle = "") then ca
  else (if negb (bool_decide (ca = "")) && negb (HasSuffix ca (bytes [10]%nat)) then ca +:+ bytes [10]%nat else ca) +:+ bundle.

Definition worker_claim (instanceName runnerName endpoint token ca : string) : workerCacheClaim := {|
  WClaim_SchemaVersion := 2; WClaim_InstanceName := instanceName; WClaim_RunnerName := runnerName; WClaim_Endpoint := endpoint;
  WClaim_Token := RawURL_Encode token; WClaim_CAPEMB64 := Std_Encode ca |}.

Definition remove_claim (name : string) : Prog unit := attempt (call (RemoveClaim name) (λ h, says w h (RemoveClaim name)));; mret tt.

(** The text of a new claim that is recorded with the broker, or nothing where the
    pool has no cache; encoding a record of texts does not fail. *)
Definition renderCacheClaim (instanceName : string) (b : BootstrapParams) : Prog (option string) :=
  '(role, enabled) ← lift (cacheClaimConfigured (base b));
  if negb enabled then mret None
  else
    '(endpoint, ca) ← wrapping "load cache claim contract: %w" (call LoadClaimContract (λ h, claim_contract cw h));
    lift (ValidateClaimEndpoint endpoint);;
    token ← wrapping "generate cache claim: %w" (call RandomToken (λ h, random_token cw h));
    let added := AddClaim instanceName (Flavor (base b)) role token in
    wrapping "persist cache claim: %w" (call added (λ h, says w h added));;
    mret (Some (encode_claim (worker_claim instanceName (Bootstrap_Name (base b)) endpoint token (claim_roots ca (CACertBundle b))))).

(** The deferred removal: a claim whose delivery fails is withdrawn. *)
Definition withdrawing {A} (committed : bool) (name : string) (m : Prog A) : Prog A :=
  outcome ← attempt m;
  match outcome with
  | Ok a => mret a
  | Err e => (if committed then remove_claim name else mret tt);; lift (Err e)
  end.

(** *** Writing a file until the guest agent accepts it *)

Definition write_file (name path : string) (body : FileBody) (mode : Z) : Prog unit :=
  call (WriteFile name path body mode) (λ h, says w h (WriteFile name path body mode)).

(** A guest that is known not to run will never accept the file. *)
Definition stopped_guest (name : string) : Prog bool :=
  inspected ← attempt (call (GetInstance name) (λ h, finds w h name));
  mret match inspected with
       | Ok f => match Full_Status f with Some status => negb (bool_decide (status = "Running")) | None => false end
       | Err _ => false
       end.

(** [remaining] further turns fit before the deadline; [stop] is what is said of a
    guest that does not run. *)
Fixpoint keep_writing (remaining : nat) (what : string) (stop : error → error) (name : string) (write : Prog unit) : Prog unit :=
  outcome ← attempt write;
  match outcome with
  | Ok _ => mret tt
  | Err e =>
      stopped ← stopped_guest name;
      if (stopped : bool) then lift (Err (stop e))
      else match remaining with
           | O => lift (Err (Wrapf "%s: guest agent did not accept the file within %s: %w" [what] e))
           | S remaining =>
               λ h, match cancelled cw h with
                    | Some c => lift (Err (Wrapf "%s: %w" [what] c)) h
                    | None => keep_writing remaining what stop name write h
                    end
           end
  end.

Definition injecting (what : string) (stop : error → error) (name : string) (write : Prog unit) : Prog unit :=
  λ h, keep_writing (turns cw h) what stop name write h.

Definition cancelled_create (what : string) : error → error := λ _, Errorf "%s: instance stopped during canceled create" [what].

Definition injectColdCacheAssignment (instanceName : string) (b : BootstrapParams) : Prog unit :=
  let what := "inject one-job cache assignment" in
  rendered ← renderCacheClaim instanceName b;
  match rendered with
  | None => mret tt
  | Some raw =>
      withdrawing true instanceName
        (getCLI w;;
         injecting what (cancelled_create what) instanceName (write_file instanceName cacheAssignmentPath (Plain raw) 256);;
         ready ← attempt (write_file instanceName cacheReadyPath (Plain "") 256);
         lift (fail_if (negb (is_ok ready)) (Errorf "publish one-job cache assignment readiness" [])))
  end.

(** *** Whether a delivery is in place *)

Definition MaximumConfigBytes : nat := 64 * 1024.

Definition cacheDeliveryOwnerMatches (meta : option FileMeta) (runnerUID runnerGID : Z) (allowRoot : bool) : bool :=
  match meta with
  | None => false
  | Some m => (allowRoot && (Meta_UID m =? 0) && (Meta_GID m =? 0)) || ((Meta_UID m =? runnerUID) && (Meta_GID m =? runnerGID))
  end.

Definition file_of_mode (meta : option FileMeta) (mode : Z) : bool :=
  match meta with Some m => bool_decide (Meta_Type m = "file") && (Meta_Mode m =? mode) | None => false end.

Definition read_file (name path : string) : Prog GuestFile := call (ReadFile name path) (λ h, reads_file cw h name path).

(** What the hook leaves when it has used the delivery. *)
Definition consumed_ok (image : WorkerImage) (jobName : string) (meta : option FileMeta) (evidence : string) : bool :=
  file_of_mode meta 384 && cacheDeliveryOwnerMatches meta (RunnerUID image) (RunnerGID image) false
  && (String.length evidence <=? 128)%nat && bool_decide (evidence = cacheDeliveryID jobName +:+ bytes [10]%nat).

Definition ready_ok (f : GuestFile) : bool :=
  match guest_body f, guest_close f with
  | Ok body, Ok _ => file_of_mode (guest_meta f) 256 && cacheDeliveryOwnerMatches (guest_meta f) 0 0 false && bool_decide (body = "")
  | _, _ => false
  end.

Definition assignment_body (image : WorkerImage) (f : GuestFile) : result string :=
  let invalid := Errorf "ready cache assignment evidence is invalid" [] in
  match guest_body f, guest_close f with
  | Ok body, Ok _ =>
      fail_if ((MaximumConfigBytes <? String.length body)%nat || negb (file_of_mode (guest_meta f) 256)
               || negb (cacheDeliveryOwnerMatches (guest_meta f) (RunnerUID image) (RunnerGID image) true)) invalid;;
      Ok body
  | _, _ => Err invalid
  end.

(** The claim a ready guest holds: bound to this runner, to the endpoint and root of
    now, and known to the broker for the pool's role. *)
Definition claim_in_place (instanceName : string) (b : BootstrapParams) (role raw : string) : Prog unit :=
  let unbound := Errorf "ready cache claim is not bound to the requested runner" [] in
  match parseWorkerCacheClaim raw with
  | Err _ => lift (Err unbound)
  | Ok claim =>
      lift (fail_if (negb (bool_decide (WClaim_InstanceName claim = instanceName)) || negb (bool_decide (WClaim_RunnerName claim = Bootstrap_Name (base b)))) unbound);;
      match RawURL_Decode (WClaim_Token claim) with
      | None => lift (Err (Errorf "ready cache claim token is invalid" []))
      | Some token =>
          lift (fail_if (negb (String.length token =? ClaimTokenBytes)%nat) (Errorf "ready cache claim token is invalid" []));;
          '(endpoint, ca) ← wrapping "load cache claim contract: %w" (call LoadClaimContract (λ h, claim_contract cw h));
          lift (fail_if (negb (bool_decide (WClaim_Endpoint claim = endpoint)) || negb (bool_decide (WClaim_CAPEMB64 claim = Std_Encode ca)))
                  (Errorf "ready cache claim endpoint or trust root drifted" []));;
          stored ← attempt (call (VerifyClaim instanceName token) (λ h, verifies cw h instanceName token));
          match stored with
          | Ok c => lift (fail_if (negb (bool_decide (Claim_Role c = role))) (Errorf "ready cache claim journal identity is invalid" []))
          | Err _ => lift (Err (Errorf "ready cache claim journal identity is invalid" []))
          end
      end
  end.

Definition assignment_in_place (instanceName : string) (b : BootstrapParams) (role raw : string) : Prog unit :=
  match schema_version raw with
  | None => lift (Err (Errorf "ready cache assignment has no valid schema" []))
  | Some version =>
      if version =? 1 then
        lift (match parseWorkerCacheAssignment raw with
              | Ok a => fail_if (negb (bool_decide (WAssign_DeliveryID a = cacheDeliveryID (Bootstrap_Name (base b)))) || negb (bool_decide (WAssign_Role a = role)))
                          (Errorf "ready cache assignment is not bound to the requested job" [])
              | Err _ => Err (Errorf "ready cache assignment is not bound to the requested job" [])
              end)
      else if version =? 2 then claim_in_place instanceName b role raw
      else lift (Err (Errorf "ready cache assignment schema is unsupported" []))
  end.

Definition coldCacheDeliveryPresent (instanceName : string) (b : BootstrapParams) : Prog bool :=
  '(role, enabled) ← lift (cacheClaimConfigured (base b));
  if negb enabled then mret true
  else
    image ← lift (workerImagePolicy l (Flavor (base b)));
    getCLI w;;
    consumed ← attempt (read_file instanceName cacheConsumedPath);
    match consumed with
    | Ok f =>
        evidence ← wrapping "read cache delivery consumption: %w" (lift (guest_body f));
        lift (fail_if (negb (consumed_ok image (Bootstrap_Name (base b)) (guest_meta f) evidence)) (Errorf "cache delivery consumption evidence is invalid" []));;
        mret true
    | Err e =>
        if negb (isNotFoundError api_not_found e) then lift (Err (Wrapf "inspect cache delivery consumption: %w" [] e))
        else
          ready ← attempt (read_file instanceName cacheReadyPath);
          match ready with
          | Err e => if isNotFoundError api_not_found e then mret false else lift (Err (Wrapf "inspect cache delivery readiness: %w" [] e))
          | Ok f =>
              lift (fail_if (negb (ready_ok f)) (Errorf "cache delivery readiness evidence is invalid" []));;
              assignment ← wrapping "inspect ready cache assignment: %w" (read_file instanceName cacheAssignmentPath);
              raw ← lift (assignment_body image assignment);
              assignment_in_place instanceName b role raw;;
              mret true
          end
    end.

(** [mergeCacheIntoWarmAssignment]: both templates carry the insertion point, and an
    empty claim inserts nothing. *)
Definition mergeCacheIntoWarmAssignment (assignment : FileBody) (cache : string) : FileBody :=
  if bool_decide (cache = "") then assignment
  else match assignment with
       | DirectJITAssignment jit _ => DirectJITAssignment jit (Some cache)
       | MetadataAssignment url token ca _ => MetadataAssignment url token ca (Some cache)
       | Plain data => Plain data
       end.

Definition with_cache (assignment : FileBody) (rendered : option string) : FileBody :=
  match rendered with Some raw => mergeCacheIntoWarmAssignment assignment raw | None => assignment end.

End delivery.
