(* ===== verification/IncusCreate.v ===== *)
(** * Creating an instance for a job
    ([src/internal/garmproviderincus/provider/incus.go], [specs.go], [util.go],
    [image_identity.go])

    GARM asks for a runner: the provider narrows and validates the request, adopts
    what an earlier attempt left, claims a warm instance, or asks admission and
    launches a new one, and hands it the one-job assignment. The calls of a run are
    its history, as in [IncusProvider]. *)

From S2P Require Import Prelude GoText StateFile QueueIntent Admission ProviderJournal ProviderRetry ProviderAdmission HostProbe FleetConfig CacheNamespace CacheBroker.
From S2P Require Import Tenant ProviderHost NDDevAdmission IncusProvider CacheDelivery.

Local Open Scope Z_scope.
Local Open Scope go_scope.

(** ** Extra specs ([specs.go]) *)

Record extraSpecs := {
  ExtraPackages : list string;
  DisableUpdates : bool;
  EnableBootDebug : bool;
  DirectJIT : bool;
  EncodedJITConfig : string;
  PreInstallScripts : list string;
  ExtraContext : list string;
  RunnerInstallTemplate : string;
}.

Definition no_specs : extraSpecs := {|
  ExtraPackages := []; DisableUpdates := false; EnableBootDebug := false; DirectJIT := false; EncodedJITConfig := ""; PreInstallScripts := [];
  ExtraContext := []; RunnerInstallTemplate := "" |}.

(** A runner package, and the scripts that cloud-init runs before the installer. *)
Record Tool := { Tool_Filename : string; Tool_DownloadURL : string }.
Inductive BootScript := CacheSetupScript | RunnerCacheScript | RunnerGroupsScript (docker : bool).

(** The first line of the phase log. *)
Record PhaseEvent := { Phase_SchemaVersion : Z; Phase_Name : string; Phase_UnixNS : Z }.

(** Functions of the standard library and of GARM's provider library on texts. *)
Class CreateText := {
  EqualFold : string → string → bool;
  ipv4_text : string → bool;                                 (* [net.ParseIP(s).To4() != nil] *)
  valid_pem : string → bool;                                 (* [AppendCertsFromPEM] *)
  OSToOSType : string → string;
  retry_exhausted : error → error;                           (* what [retry.Call] makes of the last error *)
  schema_check : string → result unit;
  decode_specs : string → result extraSpecs;
  decode_jit_files : string → option (gmap string string);
  decode_phase : string → option PhaseEvent;
  tool_fetch : BootstrapParams → result Tool;                (* [DefaultToolFetch] on the tools of the request *)
  cloud_config : BootstrapParams → Tool → list (string * BootScript) → result string;
}.

Definition maximumDirectJITJSONBytes : nat := 64 * 1024.
(** [base64.StdEncoding.EncodedLen]. *)
Definition EncodedLen (n : nat) : nat := ((n + 2) / 3 * 4)%nat.

Definition quote_byte : string := bytes [34]%nat.
Definition newline : string := bytes [10]%nat.

(** The pinned wrapper with its two placeholders replaced. *)
Definition renderPinnedGARMV021LinuxWrapper (metadataURL instanceToken : string) : string :=
  Join newline
    ["#!/bin/bash"; ""; "set -ex"; "set -o pipefail"; "";
     "METADATA_URL=" +:+ quote_byte +:+ metadataURL +:+ quote_byte;
     "BEARER_TOKEN=" +:+ quote_byte +:+ instanceToken +:+ quote_byte; "";
     "curl -H " +:+ quote_byte +:+ "Authorization: Bearer $BEARER_TOKEN" +:+ quote_byte +:+
       " --retry 2 --retry-delay 5 --retry-connrefused --fail $METADATA_URL/install-script/ -o /tmp/real-install.sh";
     "chmod +x /tmp/real-install.sh"; ""; "/tmp/real-install.sh"; "rm -f /tmp/real-install.sh"; ""].

Section create.
Context (api_not_found : error → bool) (api_mentions : string → error → bool) (w : Answers) (cw : CreateAnswers) (l : Incus_Provider) (cfg : CreateConfig).
Context `{!Hashing} `{!WebText} `{!Encodings} `{!ClaimText} `{!CreateText}.

Definition jit_file_ok (files : gmap string string) (name : string) : result unit :=
  match files !! name with
  | None => Err (Errorf "direct JIT file map is missing %q" [name])
  | Some value =>
      fail_if (bool_decide (value = "")) (Errorf "direct JIT file map is missing %q" [name]);;
      fail_if (match Std_Decode value with Some decoded => bool_decide (decoded = "") | None => true end)
        (Errorf "direct JIT file %q is not non-empty base64" [name])
  end.

Definition validateDirectJITConfig (encoded : string) : result unit :=
  fail_if (bool_decide (encoded = "")) (Errorf "direct JIT is enabled without an encoded JIT configuration" []);;
  fail_if (EncodedLen maximumDirectJITJSONBytes <? String.length encoded)%nat (Errorf "encoded JIT configuration exceeds %d decoded bytes" []);;
  match Std_Decode encoded with
  | None => Err (Errorf "decoding direct JIT configuration: %w" [])
  | Some raw =>
      fail_if (bool_decide (raw = "") || (maximumDirectJITJSONBytes <? String.length raw)%nat) (Errorf "decoded JIT configuration has invalid size %d" []);;
      match decode_jit_files raw with
      | None => Err (Errorf "decoding direct JIT file map: %w" [])
      | Some files =>
          fail_if (negb (size files =? 3)%nat) (Errorf "direct JIT file map has %d entries, expected %d" []);;
          forM [".runner"; ".credentials"; ".credentials_rsaparams"] (jit_file_ok files)
      end
  end.

Definition parseExtraSpecsFromBootstrapParams (b : BootstrapParams) : result extraSpecs :=
  match ExtraSpecs b with
  | None => Ok no_specs
  | Some raw =>
      wrap_err "failed to validate extra specs: %w" (schema_check raw);;
      wrap_err "unmarshaling extra specs" (decode_specs raw)
  end.

Definition validateNDDevExtraSpecs (b : BootstrapParams) (specs : extraSpecs) : result unit :=
  fail_if (negb (DisableUpdates specs)) (Errorf "disable_updates must be true for immutable workers" []);;
  fail_if (negb (bool_decide (ExtraPackages specs = [])) || EnableBootDebug specs || negb (bool_decide (PreInstallScripts specs = []))
           || negb (bool_decide (ExtraContext specs = [])))
    (Errorf "only disable_updates=true and the pinned GARM runtime wrapper are allowed in extra specs" []);;
  (if DirectJIT specs then validateDirectJITConfig (EncodedJITConfig specs)
   else fail_if (negb (bool_decide (EncodedJITConfig specs = ""))) (Errorf "encoded JIT configuration is present while direct JIT is disabled" []));;
  fail_if (negb (bool_decide (RunnerInstallTemplate specs = ""))
           && negb (bool_decide (RunnerInstallTemplate specs = renderPinnedGARMV021LinuxWrapper (MetadataURL b) (InstanceToken b))))
    (Errorf "runner_install_template does not match the pinned GARM v0.2.1 Linux wrapper" []).

(** The scripts the provider itself puts before the installer, by name. *)
Definition trustedBootstrapExtraSpecs (docker cacheEnabled : bool) : list (string * BootScript) :=
  if cacheEnabled then [("00-nddev-cache-delivery.sh", CacheSetupScript); ("01-nddev-runner-cache.sh", RunnerCacheScript);
                        ("02-nddev-runner-groups.sh", RunnerGroupsScript docker)]
  else [("00-nddev-runner-cache.sh", RunnerCacheScript); ("01-nddev-runner-groups.sh", RunnerGroupsScript docker)].

(** ** Repositories *)

Definition trim_slashes (s : string) : string :=
  let s := trim_left ["/"] (String.length s) s in rev_string (trim_left ["/"] (String.length s) (rev_string s)).

(** An uncredentialed github.com HTTPS URL, without query and fragment. *)
Definition plain_github (u : WebURL) : bool :=
  bool_decide (Web_Scheme u = "https") && EqualFold (Web_Host u) "github.com" && negb (Web_HasUser u)
  && bool_decide (Web_RawQuery u = "") && bool_decide (Web_Fragment u = "").

Definition repository_path (u : WebURL) : string := trim_slashes (TrimSuffix (Web_Path u) ".git").

(** The provider's method, against the accounts and repositories of its deployment. *)
Definition boundary_URL (repositoryURL : string) : bool :=
  match web_ParseRequestURI repositoryURL with
  | None => false
  | Some u =>
      plain_github u &&
      let identity := repository_path u in
      match split_byte slash identity with
      | [account] => negb (bool_decide (account = "")) && existsb (EqualFold account) (AllowedGitHubAccounts cfg)
      | [owner; name] =>
          negb (bool_decide (owner = "")) && negb (bool_decide (name = "")) &&
          (existsb (EqualFold identity) (AllowedGitHubRepositories cfg) || existsb (EqualFold owner) (AllowedGitHubAccounts cfg))
      | _ => false
      end
  end.

Definition fleet_rows : list Tenant := (map_to_list tenants).*2.

Definition canonicalRepositoryIdentity (value : string) : result string :=
  match web_ParseRequestURI value with
  | None => Err (Errorf "parse %q" [value])
  | Some u =>
      fail_if (negb (plain_github u)) (Errorf "repository URL must be an uncredentialed github.com HTTPS URL" []);;
      let incomplete := Err (Errorf "repository URL must contain owner and repository" []) in
      match split_byte slash (repository_path u) with
      | [account] => if negb (bool_decide (account = "")) && isRegisteredRepositoryURL fleet_rows value then Ok account else incomplete
      | [owner; name] => if bool_decide (owner = "") || bool_decide (name = "") then incomplete else Ok (owner +:+ "/" +:+ name)
      | _ => incomplete
      end
  end.

Definition runtimeRepositoryIdentity (value : string) : result string :=
  match canonicalRepositoryIdentity value with
  | Ok identity => Ok identity
  | Err e =>
      if negb (boundary_URL value) then Err e
      else match web_ParseRequestURI value with
           | None => Err e
           | Some u =>
               let account := trim_slashes (Web_Path u) in
               if bool_decide (account = "") || contains_byte slash account then Err e else Ok account
           end
  end.

Definition with_RepoURL (url : string) (b : BootstrapParams) : BootstrapParams := {|
  base := {| Bootstrap_Name := Bootstrap_Name (base b); RepoURL := url; Flavor := Flavor (base b); Bootstrap_PoolID := Bootstrap_PoolID (base b) |};
  CallbackURL := CallbackURL b; MetadataURL := MetadataURL b; InstanceToken := InstanceToken b; GitHubRunnerGroup := GitHubRunnerGroup b;
  OSType := OSType b; OSArch := OSArch b; JitConfigEnabled := JitConfigEnabled b; Params_Image := Params_Image b; CACertBundle := CACertBundle b;
  ExtraSpecs := ExtraSpecs b |}.

Definition outside (url : string) : error := Errorf "repository is outside the configured provider boundary: %q" [url].

(** A request that names only an account is narrowed to the repository its queue
    intent names; where the queue does not say, a reviewed account is kept. *)
Definition narrowBootstrapRepository (b : BootstrapParams) : Prog BootstrapParams :=
  let url := RepoURL (base b) in
  let exact := match canonicalRepositoryIdentity url with Ok identity => contains_byte slash identity | Err _ => false end in
  if exact then lift (fail_if (negb (boundary_URL url)) (outside url);; Ok b)
  else
    resolved ← attempt (call (ResolveRepositoryCall (Bootstrap_Name (base b))) (λ h, repository_of cw h (base b)));
    match resolved with
    | Err e =>
        if boundary_URL url then mret b
        else lift (Err (Wrapf "repository %q cannot be narrowed through queue intent: %s" [url] e))
    | Ok repository =>
        lift (fail_if (negb (boundary_URL (github +:+ repository)))
                (Errorf "queue intent resolved repository outside the configured provider boundary: %q" [repository]);;
              Ok (with_RepoURL (github +:+ repository) b))
    end.

(** ** Validating a request *)

Definition poolTenant (flavor : string) : result (option Tenant) :=
  match find_pool (platform (front l)) flavor with
  | None => Err (Errorf "pool policy %q does not exist" [flavor])
  | Some pool =>
      if bool_decide (Pool_Tenant pool = "") then Ok None
      else t ← wrap_err "pool %q names an unknown tenant: %s" (ByID (TenantID pool)); Ok (Some t)
  end.

(** [^[A-Za-z0-9._~-]+$]. *)
Definition instanceTokenPattern (s : string) : bool :=
  negb (bool_decide (s = "")) &&
  all_bytes (λ c, is_upper c || is_lower c || is_digit c || bool_decide (c ∈ ["."; "_"; "~"; "-"]%char)) s.

Definition expectedRunnerGroup : string := "Default".
Definition expectedCallbackURL : string := WorkerGatewayURL cfg +:+ "/api/v1/callbacks".
Definition expectedMetadataURL : string := WorkerGatewayURL cfg +:+ "/api/v1/metadata".

Definition validateBootstrapParams (b : BootstrapParams) : result unit :=
  let p := base b in
  fail_if (bool_decide (Bootstrap_Name p = "")) (Errorf "missing name" []);;
  fail_if (bool_decide (Bootstrap_PoolID p = "")) (Errorf "missing pool ID" []);;
  fail_if (bool_decide (Flavor p = "")) (Errorf "missing flavor" []);;
  fail_if (negb (boundary_URL (RepoURL p))) (outside (RepoURL p));;
  fail_if (negb (bool_decide (CallbackURL b = expectedCallbackURL))) (Errorf "callback URL is outside the configured worker gateway boundary" []);;
  fail_if (negb (bool_decide (MetadataURL b = expectedMetadataURL))) (Errorf "metadata URL is outside the configured worker gateway boundary" []);;
  fail_if (negb (instanceTokenPattern (InstanceToken b))) (Errorf "missing or malformed instance token" []);;
  fail_if (negb (bool_decide (GitHubRunnerGroup b = expectedRunnerGroup))) (Errorf "runner group is outside the configured repository boundary" []);;
  fail_if (negb (bool_decide (OSType b = "linux"))) (Errorf "only Linux workers are supported" []);;
  fail_if (negb (bool_decide (OSArch b = "amd64"))) (Errorf "only amd64 workers are supported" []);;
  fail_if (negb (JitConfigEnabled b)) (Errorf "JIT configuration is mandatory for one-job workers" []);;
  tenant ← poolTenant (Flavor p);
  fail_if (match tenant with Some t => negb (repositoryWithinTenant t (RepoURL p)) | None => false end)
    (Errorf "repository %q is outside the boundary of tenant %q declared by pool %q" [RepoURL p; Flavor p]);;
  image ← workerImagePolicy l (Flavor p);
  fail_if (negb (bool_decide (Params_Image b = Image_Alias image)))
    (Errorf "image alias %q is not the configured alias %q for pool %q" [Params_Image b; Image_Alias image; Flavor p]).

(** The keys a job's instance carries. *)
Definition job_keys (pool : Pool) (image : WorkerImage) (b : BootstrapParams) (repository : string) : list (string * string) :=
  [(controllerIDKeyName, front_controllerID (front l)); (poolIDKey, Bootstrap_PoolID (base b)); (imageAliasKey, Image_Alias image);
   (flavorKey, Flavor (base b)); (lifecycleKey, lifecycleEphemeralOneJob); (trustKey, Trust pool); (scaleSetKey, Pool_ScaleSetName pool);
   (repositoryKey, repository); (networkPolicyKey, NetworkPolicy (Pool_Capabilities pool));
   (cacheWriteScopeKey, CacheWriteScope (Pool_Capabilities pool)); (garmJobNameKey, Bootstrap_Name (base b)); (osTypeKeyName, "linux");
   (osArchKeyNAme, "amd64")].

Definition validateExistingInstance (f : InstanceFull) (b : BootstrapParams) : result unit :=
  validateManagedSecurity l f;;
  fail_if (negb (AllowsProviderIdentity (PreviousProviderIdentities (front l)) (identity_of (Full_Instance f)) (build (front l))))
    (Errorf "existing instance %q has unsupported provider identity %q@%q, current is %q@%q" [name_of f]);;
  match find_pool (platform (front l)) (Flavor (base b)) with
  | None => Err (Errorf "pool policy %q does not exist" [Flavor (base b)])
  | Some pool =>
      image ← workerImagePolicy l (Flavor (base b));
      repository ← wrap_err "invalid repository identity: %s" (runtimeRepositoryIdentity (RepoURL (base b)));
      fail_if (negb (AllowsExistingFingerprint image (key_of f imageFingerprintKey)))
        (Errorf "existing instance %q has %s=%q, expected current or declared previous fingerprint" [name_of f; imageFingerprintKey]);;
      forM (job_keys pool image b repository) (check_key "existing instance %q has %s=%q, expected %q" f);;
      fail_if (negb (exact_profile f (Flavor (base b)))) (Errorf "existing instance %q does not have the exact architecture/profile policy" [name_of f])
  end.

Definition validateWarmInstance (f : InstanceFull) (b : BootstrapParams) : result unit :=
  wrap_err "%s" (validateWarmReadyMetadata l f (Flavor (base b))).

Definition jobMetadata (b : BootstrapParams) : result (gmap string string) :=
  match find_pool (platform (front l)) (Flavor (base b)) with
  | None => Err (Errorf "pool policy %q does not exist" [Flavor (base b)])
  | Some pool =>
      image ← workerImagePolicy l (Flavor (base b));
      repository ← wrap_err "invalid repository identity: %s" (runtimeRepositoryIdentity (RepoURL (base b)));
      Ok (list_to_map [
        (osTypeKeyName, OSType b); (osArchKeyNAme, OSArch b); (controllerIDKeyName, front_controllerID (front l));
        (poolIDKey, Bootstrap_PoolID (base b)); (imageAliasKey, Image_Alias image); (imageFingerprintKey, Fingerprint image);
        (providerVersionKey, Identity_Version (build (front l))); (providerCommitKey, Identity_Commit (build (front l)));
        (flavorKey, Flavor (base b)); (lifecycleKey, lifecycleEphemeralOneJob); (trustKey, Trust pool);
        (scaleSetKey, Pool_ScaleSetName pool); (repositoryKey, repository); (garmJobNameKey, Bootstrap_Name (base b));
        (networkPolicyKey, NetworkPolicy (Pool_Capabilities pool)); (cacheWriteScopeKey, CacheWriteScope (Pool_Capabilities pool))])
  end.

(** ** The arguments of a new instance *)

(** [^actions-runner-linux-x64-(\d+\.\d+\.\d+)\.tar\.gz$]: the version of an official
    package. *)
Definition number_text (s : string) : bool := negb (bool_decide (s = "")) && all_bytes is_digit s.
Definition runnerToolVersion (filename : string) : option string :=
  match CutPrefix filename "actions-runner-linux-x64-" with
  | Some rest =>
      if HasSuffix rest ".tar.gz" then
        let version := TrimSuffix rest ".tar.gz" in
        match split_byte "." version with
        | [_; _; _] as parts => if forallb number_text parts then Some version else None
        | _ => None
        end
      else None
  | None => None
  end.

Definition validateRunnerTool (tool : Tool) : result unit :=
  fail_if (negb (HasPrefix (RunnerVersion (Config_ControlPlane (platform (front l)))) "v")) (Errorf "platform runner version must have a v prefix" []);;
  match runnerToolVersion (Tool_Filename tool) with
  | None => Err (Errorf "filename %q is not an official linux-x64 runner release asset" [Tool_Filename tool])
  | Some version =>
      let expectedURL := "https://github.com/actions/runner/releases/download/v" +:+ version +:+ "/" +:+ Tool_Filename tool in
      fail_if (negb (bool_decide (Tool_DownloadURL tool = expectedURL)))
        (Errorf "download URL %q does not match the official release URL for %q" [Tool_DownloadURL tool; Tool_Filename tool])
  end.

Definition resolveArchitecture (osArch : string) : result string :=
  if bool_decide (osArch = "") || bool_decide (osArch = "amd64") then Ok "x86_64"
  else if bool_decide (osArch = "arm64") then Ok "aarch64"
  else if bool_decide (osArch = "arm") then Ok "armv7l"
  else Err (Errorf "architecture %s is not supported" [osArch]).

Definition userDataKey : string := "user.user-data".

(** The isolation keys are written last. A validated request is never for Windows,
    whose cloud-config would get a prefix. *)
Definition create_config (pool : Pool) (image : WorkerImage) (userData : string) (metadata : gmap string string) : gmap string string :=
  isolation_config l pool image ∪ <[userDataKey := userData]> metadata.

Definition getCreateInstanceArgs (b : BootstrapParams) : Prog InstancesPost :=
  lift (validateBootstrapParams b);;
  match find_pool (platform (front l)) (Flavor (base b)) with
  | None => lift (Err (Errorf "pool policy %q does not exist" [Flavor (base b)]))
  | Some pool =>
      image ← lift (workerImagePolicy l (Flavor (base b)));
      profiles ← wrapping "fetching profiles" (getProfiles w l (Flavor (base b)));
      arch ← wrapping "fetching archictecture" (lift (resolveArchitecture (OSArch b)));
      resolved ← wrapping "getting local image" (call (ResolveImage (Params_Image b)) (λ h, resolves w h (Params_Image b)));
      lift (validateResolvedWorkerImage resolved image);;
      tool ← wrapping "getting tools" (lift (tool_fetch b));
      wrapping "runner tool metadata: %s" (lift (validateRunnerTool tool));;
      '(_, cacheEnabled) ← lift (cacheRoleForPool pool);
      userData ← wrapping "generating cloud-config"
        (lift (cloud_config b tool (trustedBootstrapExtraSpecs (Docker (Pool_Capabilities pool)) (cacheEnabled && cacheClaim cfg))));
      metadata ← lift (jobMetadata b);
      mret {| Post_Name := Bootstrap_Name (base b); Post_Architecture := arch; Post_Type := image_type (Image_InstanceType image);
              Post_Profiles := profiles;
              Post_Config := create_config pool image userData metadata; Post_Fingerprint := from_option Image_Fingerprint "" resolved |}
  end.

(** A worker that gets its assignment as a file needs no cloud-config. *)
Definition without_user_data (post : InstancesPost) : InstancesPost := {|
  Post_Name := Post_Name post; Post_Architecture := Post_Architecture post; Post_Type := Post_Type post; Post_Profiles := Post_Profiles post; Post_Config := delete userDataKey (Post_Config post);
  Post_Fingerprint := Post_Fingerprint post |}.

(** ** What GARM is told of an instance *)

Record ProviderInstance := {
  PI_OSArch : string; PI_ProviderID : string; PI_Name : string; PI_OSType : string; PI_OSName : string; PI_OSVersion : string;
  PI_Addresses : list string; PI_Status : string;
}.

Definition incusStatusToProviderStatus (status : string) : string :=
  if bool_decide (status = "Running") then "running" else if bool_decide (status = "Stopped") then "stopped" else "unknown".

Definition incusToConfigArch (arch : string) : string :=
  if bool_decide (arch = "x86_64") then "amd64" else if bool_decide (arch = "aarch64") then "arm64"
  else if bool_decide (arch = "armv7l") then "arm" else "".

(** [networks] are the scopes and addresses of the runtime state, if there is one. *)
Definition incusInstanceToAPIInstance (f : InstanceFull) (networks : list (string * string)) : ProviderInstance :=
  let os := key_of f "image.os" in
  let osType := OSToOSType os in {|
  PI_OSArch := incusToConfigArch (Full_Architecture f); PI_ProviderID := name_of f; PI_Name := name_of f;
  PI_OSType := if bool_decide (osType = "") then key_of f osTypeKeyName else osType; PI_OSName := ToLower os;
  PI_OSVersion := key_of f "image.release";
  PI_Addresses := match Full_Status f with
                  | Some _ => (List.filter (λ sa, bool_decide (sa.1 = "global")) networks).*2
                  | None => []
                  end;
  PI_Status := match Full_Status f with Some status => incusStatusToProviderStatus status | None => "unknown" end |}.

Definition resolve (identifier : string) : Prog string := call (ResolveIdentity identifier) (λ h, names_ w h (ResolveIdentity identifier)).

Definition with_identity (name id : string) (p : ProviderInstance) : ProviderInstance := {|
  PI_OSArch := PI_OSArch p; PI_ProviderID := id; PI_Name := name; PI_OSType := PI_OSType p; PI_OSName := PI_OSName p; PI_OSVersion := PI_OSVersion p;
  PI_Addresses := PI_Addresses p; PI_Status := PI_Status p |}.

(** The logical name of a claimed worker, when the journal resolves it to this instance. *)
Definition projectGARMInstanceIdentity (f : InstanceFull) (p : ProviderInstance) : Prog ProviderInstance :=
  let jobName := key_of f garmJobNameKey in
  if bool_decide (jobName = "") then mret p
  else
    resolved ← wrapping "resolving GARM instance identity" (resolve jobName);
    lift (fail_if (negb (bool_decide (resolved = name_of f)))
            (Errorf "GARM instance identity %q resolves to %q instead of provider instance %q" [jobName; resolved; name_of f]));;
    mret (with_identity jobName (name_of f) p).

Definition describe (identifier : string) : Prog ProviderInstance :=
  name ← wrapping "resolving instance identity" (resolve identifier);
  f ← getManagedInstance api_not_found w l name;
  (λ h, projectGARMInstanceIdentity f (incusInstanceToAPIInstance f (addresses cw h name)) h) : Prog ProviderInstance.

(** [waitInstanceHasIP]: twenty attempts of [GetInstance] ([describe]). *)
Definition errIPNotFound : error := Errorf "ip not found" [].
Definition is_errIPNotFound (e : error) : bool := match e with Errorf f _ => bool_decide (f = "ip not found") | Wrapf _ _ _ => false end.

Definition has_ip (p : ProviderInstance) : result ProviderInstance := fail_if (negb (existsb ipv4_text (PI_Addresses p))) errIPNotFound;; Ok p.

Fixpoint ask_ip (attempts : nat) (instanceName : string) : Prog ProviderInstance :=
  outcome ← attempt (wrapping "fetching instance" (describe instanceName));
  match (p ← outcome; has_ip p) with
  | Ok p => mret p
  | Err e =>
      match attempts with
      | O =>
          let e := retry_exhausted e in
          lift (Err (if is_errIPNotFound e then Wrapf "instance %q did not receive an IPv4 address" [instanceName] ErrTimeout else e))
      | S attempts => ask_ip attempts instanceName
      end
  end.

Definition waitInstanceHasIP (instanceName : string) : Prog ProviderInstance := ask_ip 19 instanceName.

(** ** Handing a worker its job *)

Definition warmAssignmentDirectory : string := "/run/gha-warm/assignments".
Definition warmAssignmentPath (jobName : string) : string :=
  warmAssignmentDirectory +:+ "/" +:+ HashToken ("nddev-warm-assignment-v1" +:+ String nul_byte jobName) +:+ ".sh".

(** The templates are [FileBody]'s constructors. *)
Definition renderWarmAssignment (metadataURL instanceToken caBundle encodedJIT : string) : FileBody :=
  if bool_decide (encodedJIT = "") then MetadataAssignment metadataURL instanceToken caBundle None else DirectJITAssignment encodedJIT None.

Definition imageIdentityDirectory : string := "/run/nddev".
Definition imageIdentityPath : string := "/run/nddev/image-fingerprint".

(** The directory may exist already: its creation may fail. *)
Definition writeImageIdentity (name fingerprint : string) : Prog unit :=
  attempt (write_file w name imageIdentityDirectory (Plain "") 493);;
  write_file w name imageIdentityPath (Plain (fingerprint +:+ newline)) 420.

Definition injectImageIdentity (name fingerprint : string) : Prog unit :=
  lift (fail_if (negb (hashPattern fingerprint)) (Errorf "inject image identity: fingerprint %q is not a 64-hex digest" [fingerprint]));;
  injecting w cw "inject image identity" (Wrapf "inject image identity: instance stopped: %w" []) name (writeImageIdentity name fingerprint).

Definition publishJobImageIdentity (name flavor : string) : Prog unit :=
  image ← lift (workerImagePolicy l flavor);
  injectImageIdentity name (Fingerprint image).

Definition directJITPhasePath : string := "/home/runner/actions-runner/_diag/nddev-direct-jit-phase.log".
Definition directJITPhaseMaxBytes : nat := 4096.

Definition phase_started (image : WorkerImage) (f : GuestFile) : result unit :=
  let invalid := Errorf "direct JIT phase evidence has invalid content or metadata" [] in
  match guest_body f, guest_close f with
  | Ok raw, Ok _ =>
      fail_if ((directJITPhaseMaxBytes <? String.length raw)%nat || negb (file_of_mode (guest_meta f) 384)
               || negb (cacheDeliveryOwnerMatches (guest_meta f) (RunnerUID image) (RunnerGID image) false)) invalid;;
      fail_if (match decode_phase (match Cut newline raw with Some (line, _) => line | None => raw end) with
               | Some e => negb (Phase_SchemaVersion e =? 1) || negb (bool_decide (Phase_Name e = "assignment-script-started")) || (Phase_UnixNS e <=? 0)
               | None => true
               end) (Errorf "direct JIT phase evidence is invalid" [])
  | _, _ => Err invalid
  end.

(** A guest known not to run ends the wait; the probe is due once a second. *)
Definition probe_state (name : string) : Prog unit := λ h,
  (if probe_due cw h then
     stopped ← stopped_guest w name;
     if (stopped : bool) then lift (Err (Errorf "instance %q is %s before the assignment started" [name])) else mret tt
   else mret tt) h.

Fixpoint await_start (remaining : nat) (image : WorkerImage) (name : string) : Prog unit :=
  probe_state name;;
  read ← attempt (read_file cw name directJITPhasePath);
  match read with
  | Ok f => lift (phase_started image f)
  | Err _ =>
      match remaining with
      | O => lift (Err (Errorf "waiting for direct JIT assignment start: %w" []))
      | S remaining => await_start remaining image name
      end
  end.

Definition waitDirectJITAssignmentStarted (name flavor : string) : Prog unit :=
  match workerImages (front l) !! flavor with
  | None => lift (Err (Errorf "worker image mapping %q is missing" [flavor]))
  | Some image => λ h, await_start (turns cw h) image name h
  end.

Definition mark_created (name : string) : Prog unit :=
  wrapping "recording created instance" (call (MarkCreatedLease name) (λ h, says w h (MarkCreatedLease name))).

(** The keys of a warm instance once it is bound to a job. *)
Definition bound_config (f : InstanceFull) (metadata : gmap string string) : gmap string string :=
  metadata ∪ delete warmReadyKey (delete userDataKey (Full_Config f)).

Definition bind_warm (f : InstanceFull) (b : BootstrapParams) : Prog unit :=
  let lifecycle := key_of f lifecycleKey in
  if bool_decide (lifecycle = lifecycleWarmUnregistered) then
    lift (validateWarmInstance f b);;
    metadata ← lift (jobMetadata b);
    let config := bound_config f metadata in
    wrapping "binding warm instance metadata" (call (BindCall (name_of f) config) (λ h, says w h (BindCall (name_of f) config)));;
    wrapping "waiting for warm metadata binding" (call (WaitBind (name_of f)) (λ h, says w h (WaitBind (name_of f))))
  else if bool_decide (lifecycle = lifecycleEphemeralOneJob) then lift (validateExistingInstance f b)
  else lift (Err (Errorf "claimed warm instance %q has lifecycle %q" [name_of f; lifecycle])).

(** The assignment with its cache claim; a claim that was not handed over with the
    assignment and recorded is withdrawn. *)
Definition inject_warm (name : string) (b : BootstrapParams) (encodedJIT : string) : Prog unit :=
  rendered ← renderCacheClaim w cw l cfg name b;
  withdrawing w (bool_decide (is_Some rendered)) name
    (let assignment := with_cache (renderWarmAssignment expectedMetadataURL (InstanceToken b) (CACertBundle b) encodedJIT) rendered in
     wrapping "injecting one-job warm assignment" (write_file w name (warmAssignmentPath (Bootstrap_Name (base b))) assignment 448);;
     let marked := MarkInjectedLease (Bootstrap_Name (base b)) name in
     wrapping "recording warm assignment injection" (call marked (λ h, says w h marked))).

Definition injected (s : ClaimState) : bool := match s with ClaimInjected => true | _ => false end.

Definition activateWarmInstance (b : BootstrapParams) (claim : WarmClaimResult) (encodedJIT : string) : Prog ProviderInstance :=
  lift (fail_if (negb (bool_decide (CACertBundle b = "")) && negb (valid_pem (CACertBundle b))) (Errorf "worker CA bundle is not valid PEM" []));;
  wrapping "fetching client" (getCLI w);;
  let name := WCRes_InstanceName claim in
  f ← wrapping "fetching claimed warm instance" (call (GetInstance name) (λ h, finds w h name));
  bind_warm f b;;
  (if injected (WCRes_State claim) then mret tt else inject_warm (name_of f) b encodedJIT);;
  publishJobImageIdentity (name_of f) (Flavor (base b));;
  (if bool_decide (encodedJIT = "") then mret tt else waitDirectJITAssignmentStarted (name_of f) (Flavor (base b)));;
  p ← wrapping "fetching activated warm instance" (waitInstanceHasIP (name_of f));
  projectGARMInstanceIdentity f p.

Definition injectAssignment (name path : string) (content : FileBody) : Prog unit :=
  let what := "inject one-job assignment" in
  injecting w cw what (cancelled_create what) name (write_file w name path content 448).

Definition startColdDirectJIT (instanceName : string) (b : BootstrapParams) (encodedJIT : string) : Prog ProviderInstance :=
  wrapping "fetching client" (getCLI w);;
  p ← wrapping "waiting for cold worker network" (waitInstanceHasIP instanceName);
  rendered ← renderCacheClaim w cw l cfg instanceName b;
  withdrawing w (bool_decide (is_Some rendered)) instanceName
    (injectAssignment instanceName (warmAssignmentPath (Bootstrap_Name (base b))) (with_cache (DirectJITAssignment encodedJIT None) rendered);;
     publishJobImageIdentity instanceName (Flavor (base b)));;
  mark_created instanceName;;
  waitDirectJITAssignmentStarted instanceName (Flavor (base b));;
  mret p.

(** The retry of a start: the assignment runs, or it was never delivered. *)
Definition adoptColdDirectJIT (b : BootstrapParams) (encodedJIT : string) : Prog ProviderInstance :=
  let name := Bootstrap_Name (base b) in
  wrapping "fetching client" (getCLI w);;
  read ← attempt (read_file cw name directJITPhasePath);
  match read with
  | Ok _ => publishJobImageIdentity name (Flavor (base b));; wrapping "fetching existing instance" (waitInstanceHasIP name)
  | Err e =>
      if isNotFoundError api_not_found e then startColdDirectJIT name b encodedJIT
      else lift (Err (Wrapf "inspecting direct JIT phase evidence" [] e))
  end.

(** ** The request *)

Definition ask_admission (b : BootstrapParams) (format : string) : Prog AdmissionResult :=
  wrapping format (call (AdmitCall (Bootstrap_Name (base b))) (λ h, admits cw h (base b))).

Definition adoptExisting (b : BootstrapParams) (specs : extraSpecs) (f : InstanceFull) : Prog ProviderInstance :=
  let name := Bootstrap_Name (base b) in
  lift (validateExistingInstance f b);;
  wrapping "reconciling existing instance" (reconcile w);;
  (if bool_decide (Full_Status f = Some "Stopped") then wrapping "restarting existing instance" (Start api_not_found w l name) else mret tt);;
  if negb (bool_decide (EncodedJITConfig specs = "")) then adoptColdDirectJIT b (EncodedJITConfig specs)
  else
    present ← coldCacheDeliveryPresent api_not_found w cw l cfg name b;
    (if (present : bool) then mret tt else injectColdCacheAssignment w cw l cfg name b);;
    wrapping "fetching client" (getCLI w);;
    publishJobImageIdentity name (Flavor (base b));;
    wrapping "fetching existing instance" (waitInstanceHasIP name).

(** Capacity for a cold worker: the answer of admission, the deletion of the warm
    workers it names, and its confirmation afterwards. *)
Definition acquireCapacity (b : BootstrapParams) : Prog unit :=
  answer ← ask_admission b "evaluating provider admission";
  let victims := PreemptedWarmWorkers answer in
  lift (fail_if (negb (Decision_Admitted (Result_Decision answer)) && bool_decide (victims = []))
          (Errorf "provider admission rejected pool %q: %s" [Flavor (base b)]));;
  deletePreemptedWarmWorkers api_not_found w l victims;;
  if bool_decide (victims = []) then mret tt
  else
    confirmed ← ask_admission b "confirming capacity after warm preemption";
    if negb (Decision_Admitted (Result_Decision confirmed)) || negb (bool_decide (PreemptedWarmWorkers confirmed = [])) then
      wrapping "post-preemption admission rejected pool %q with reason %q and reservation cleanup failed" (release w (Bootstrap_Name (base b)));;
      lift (Err (Errorf "post-preemption admission rejected pool %q: %s" [Flavor (base b)]))
    else mret tt.

(** A start that fails is undone; the result of that is reported with the failure. *)
Definition or_delete {A} (name format : string) (m : Prog A) : Prog A :=
  outcome ← attempt m;
  match outcome with
  | Ok a => mret a
  | Err e => attempt (DeleteInstance api_not_found w l name);; lift (Err (Wrapf format [] e))
  end.

Definition createCold (b : BootstrapParams) (specs : extraSpecs) : Prog ProviderInstance :=
  args ← wrapping "fetching create args" (getCreateInstanceArgs b);
  let directJIT := negb (bool_decide (EncodedJITConfig specs = "")) in
  let args := if directJIT then without_user_data args else args in
  let name := Post_Name args in
  acquireCapacity b;;
  launchColdInstance api_not_found api_mentions w l args (base b);;
  if directJIT then or_delete name "direct JIT start failed; cleanup result: %v" (startColdDirectJIT name b (EncodedJITConfig specs))
  else
    or_delete name "cache delivery failed; cleanup result: %v" (injectColdCacheAssignment w cw l cfg name b);;
    mark_created name;;
    wrapping "fetching client" (getCLI w);;
    publishJobImageIdentity name (Flavor (base b));;
    wrapping "fetching instance" (waitInstanceHasIP name).

Definition CreateInstance (asked : BootstrapParams) : Prog ProviderInstance :=
  b ← narrowBootstrapRepository asked;
  lift (validateBootstrapParams b);;
  specs ← wrapping "parsing extra specs" (lift (parseExtraSpecsFromBootstrapParams b));
  wrapping "invalid extra specs: %s" (lift (validateNDDevExtraSpecs b specs));;
  existing ← attempt (getManagedInstance api_not_found w l (Bootstrap_Name (base b)));
  match existing with
  | Ok f => adoptExisting b specs f
  | Err e =>
      if negb (isNotFoundError api_not_found e) then lift (Err (Wrapf "checking for an existing instance" [] e))
      else
        claim ← wrapping "claiming warm instance" (call (ClaimWarmCall (Bootstrap_Name (base b))) (λ h, claims_warm cw h (base b)));
        if WCRes_Found claim then activateWarmInstance b claim (EncodedJITConfig specs)
        else createCold b specs
  end.

End create.
