(* ===== verification/IncusCreateFacts.v ===== *)
(** * Every step of a create is justified by what came before it

    The guarded runs of [IncusProviderFacts] with a guard that names the reason of
    every event that changes something. *)

From S2P Require Import Prelude GoText StateFile QueueIntent Admission ProviderJournal ProviderRetry ProviderAdmission HostProbe FleetConfig CacheNamespace CacheBroker.
From S2P Require Import Tenant ProviderHost NDDevAdmission IncusProvider IncusProviderFacts CacheDelivery IncusCreate.

Local Open Scope Z_scope.
Local Open Scope go_scope.

(** ** What justifies a step *)

Section justified.
Context (api_not_found : error → bool) (api_mentions : string → error → bool) (w : Answers) (cw : CreateAnswers) (l : Incus_Provider) (cfg : CreateConfig).
Context {Hhash : Hashing} {Hweb : WebText} {Henc : Encodings} {Hct : ClaimText} {Hcr : CreateText}.
Context (b : BootstrapParams).

Abbreviation job := (Bootstrap_Name (base b)).
Abbreviation owned f := (key_of f controllerIDKeyName = front_controllerID (front l)).
Abbreviation validateExisting f := (validateExistingInstance l cfg f b = Ok tt).

(** Admission granted the job a place that needs no victim, and was not asked since. *)
Definition granted (h : list Event) : Prop :=
  ∃ recent h1 answer, h = recent ++ AdmitCall job :: h1 ∧ (AdmitCall job ∉ recent) ∧ admits cw h1 (base b) = Ok answer ∧
    Decision_Admitted (Result_Decision answer) = true ∧ PreemptedWarmWorkers answer = [].

(** The warm instance that was claimed for the job, as it was read. *)
Definition claimed_as (f : InstanceFull) : Prop :=
  ∃ h1 claim h2, claims_warm cw h1 (base b) = Ok claim ∧ WCRes_Found claim = true ∧ finds w h2 (WCRes_InstanceName claim) = Ok f.

(** The instances that may be handed the job. *)
Inductive worker (h : list Event) (name : string) : Prop :=
  | worker_launched post : name = job → CreateCall post ∈ h → Post_Name post = job → worker h name
  | worker_adopted h1 f : name = job → finds w h1 job = Ok f → owned f → validateExisting f → worker h name
  | worker_claimed f : name = name_of f → claimed_as f → validateExisting f → worker h name
  | worker_bound f config : name = name_of f → claimed_as f → validateWarmInstance l f b = Ok tt → BindCall name config ∈ h → worker h name.

(** The warm workers that admission or placement gave up for the job. *)
Definition victim (identifier : string) : Prop :=
  (∃ h1 answer, admits cw h1 (base b) = Ok answer ∧ identifier ∈ PreemptedWarmWorkers answer) ∨
  (∃ h1 names, preempts w h1 job = Ok names ∧ identifier ∈ names).

(** What the job's name or a victim resolves to. *)
Definition resolves_to (name : string) : Prop :=
  ∃ identifier h1, (identifier = job ∨ victim identifier) ∧ names_ w h1 (ResolveIdentity identifier) = Ok name.

(** The instances whose deletion may be recorded: read as the controller's own. *)
Definition target (name : string) : Prop := resolves_to name ∧ ∃ h1 f, finds w h1 name = Ok f ∧ owned f.

(** The instances that may be stopped and deleted: those whose lease the journal has
    confirmed as deleting. *)
Definition removable (h : list Event) (name : string) : Prop :=
  target name ∧ ∃ earlier, (MarkDeletingLease name :: earlier) `suffix_of` h ∧ says w earlier (MarkDeletingLease name) = Ok tt.

(** The configuration carries the identity of the job. *)
Definition identified (config : gmap string string) : Prop := ∃ metadata, jobMetadata l cfg b = Ok metadata ∧ metadata ⊆ config.

Definition justified (h : list Event) (e : Event) : Prop :=
  match e with
  | CreateCall post =>
      Post_Name post = job ∧ identified (Post_Config post) ∧ granted h ∧
      ∃ image, workerImagePolicy l (Flavor (base b)) = Ok image ∧ Post_Fingerprint post = Fingerprint image
  | BindCall name config =>
      identified config ∧ config !! warmReadyKey = None ∧ config !! userDataKey = None ∧
      ∃ f, name = name_of f ∧ claimed_as f ∧ validateWarmInstance l f b = Ok tt
  | WriteFile name _ _ _ | AddClaim name _ _ _ | MarkCreatedLease name => worker h name
  | MarkInjectedLease owner name =>
      owner = job ∧ ∃ body earlier, let written := WriteFile name (warmAssignmentPath job) body 448 in
        (written :: earlier) `suffix_of` h ∧ says w earlier written = Ok tt
  | SetState name action => action = "start" ∧ worker h name ∨ action = "stop" ∧ removable h name
  | DeleteCall name => removable h name
  | MarkDeletingLease name => target name
  | ReleaseLease name => name = job ∧ AdmitCall job ∈ h ∨ resolves_to name
  | RemoveClaim name => ∃ role token, AddClaim name (Flavor (base b)) role token ∈ h
  | PromoteCall _ _ => False
  | _ => True
  end.

Lemma worker_more h h' name : worker h name → h ⊆ h' → worker h' name.
Proof. intros [] Hsub; [eapply worker_launched|eapply worker_adopted|eapply worker_claimed|eapply worker_bound]; eauto. Qed.

(** Events that need no reason. *)
Definition free (e : Event) : Prop :=
  match e with
  | CreateCall _ | BindCall _ _ | WriteFile _ _ _ _ | AddClaim _ _ _ _ | MarkCreatedLease _ | MarkInjectedLease _ _ | SetState _ _ | DeleteCall _
  | MarkDeletingLease _ | ReleaseLease _ | RemoveClaim _ | PromoteCall _ _ | AdmitCall _ => False
  | _ => True
  end.

Lemma free_justified h e : free e → justified h e.
Proof. by destruct e. Qed.

(** ** Programs that keep a grant

    [does m h]: the steps of [m] after [h] are justified, and admission is not asked. *)

Definition extends (h h' : list Event) : Prop := ∃ new, h' = new ++ h ∧ AdmitCall job ∉ new.
Definition does {A} (m : Prog A) (h : list Event) : Prop := wp justified m (λ h' _, extends h h') h.

Lemma extends_refl h : extends h h.
Proof. exists []. split; [done|]. apply not_elem_of_nil. Qed.

Lemma extends_trans h1 h2 h3 : extends h1 h2 → extends h2 h3 → extends h1 h3.
Proof. intros (n1 & -> & H1) (n2 & -> & H2). exists (n2 ++ n1). rewrite app_assoc. split; [done|]. rewrite elem_of_app. tauto. Qed.

Lemma extends_sub h h' : extends h h' → h ⊆ h'.
Proof. intros (new & -> & _) e He. apply elem_of_app. by right. Qed.

Lemma worker_extends h h' name : worker h name → extends h h' → worker h' name.
Proof. intros Hw He%extends_sub. by eapply worker_more. Qed.

Lemma granted_extends h h' : granted h → extends h h' → granted h'.
Proof.
  intros (recent & h1 & answer & -> & Hr & Ha) (new & -> & Hn). exists (new ++ recent), h1, answer. rewrite app_assoc. split; [done|].
  split; [|done]. rewrite elem_of_app. tauto.
Qed.

Lemma does_ret {A} (a : A) h : does (mret a) h.
Proof. apply wp_ret, extends_refl. Qed.

Lemma does_lift {A} (r : result A) h : does (lift r) h.
Proof. apply wp_lift, extends_refl. Qed.

Lemma does_call {A} e (answer : list Event → result A) h : justified h e → e ≠ AdmitCall job → does (call e answer) h.
Proof. intros Hj He. apply wp_call; [done|]. exists [e]. split; [done|]. by intros ?%list_elem_of_singleton. Qed.

Lemma does_bind {A B} (m : Prog A) (f : A → Prog B) h :
  does m h → (∀ a h', m h = (h', Ok a) → extends h h' → does (f a) h') → does (m ≫= f) h.
Proof.
  intros (new & r & Hm & Hg & He) Hf. apply wp_bind. exists new, r. split_and!; [done|done|]. destruct r as [a|e]; [|done].
  eapply wp_conseq; [by apply Hf|]. intros h' r' He'. by eapply extends_trans.
Qed.

Lemma does_wrapping {A} format (m : Prog A) h : does m h → does (wrapping format m) h.
Proof. intros H. by apply wp_wrapping. Qed.

Lemma does_attempt {A} (m : Prog A) h : does m h → does (attempt m) h.
Proof. intros H. by apply wp_attempt. Qed.

Lemma does_free {A} (m : Prog A) h : emits free m → does m h.
Proof.
  intros Hm. apply (wp_emits free); [done|intros; by apply free_justified|]. intros new r _ Hall. exists new. split; [done|].
  intros He. by apply (proj1 (Forall_forall _ _) Hall) in He.
Qed.

(** The history after a step, and what an earlier one allows after it. *)
Lemma does_after {A} (m : Prog A) h h' r : does m h → m h = (h', r) → extends h h'.
Proof. intros (new & r' & Hm & _ & He) Hr. rewrite Hr in Hm. by injection Hm as -> ->. Qed.

Ltac free := unfold read_file, getCLI, release, reconcile, resolve; emit; done.
Ltac does_step :=
  first [ apply does_ret | apply does_lift | apply does_bind | apply does_wrapping | apply does_attempt ].

(** ** Programs that only ask *)

Lemma getManagedInstance_free name : emits free (getManagedInstance api_not_found w l name).
Proof. unfold getManagedInstance. free. Qed.

Lemma stopped_guest_free name : emits free (stopped_guest w name).
Proof. unfold stopped_guest. free. Qed.

Lemma describe_free identifier : emits free (describe api_not_found w cw l identifier).
Proof.
  unfold describe. apply emits_bind; [free|]. intros name. apply emits_bind; [apply getManagedInstance_free|]. intros f.
  intros h. assert (∀ p, emits free (projectGARMInstanceIdentity w f p)) as H by (intros p; unfold projectGARMInstanceIdentity; free). apply H.
Qed.

Lemma waitInstanceHasIP_free name : emits free (waitInstanceHasIP api_not_found w cw l name).
Proof.
  unfold waitInstanceHasIP. generalize 19%nat. intros n. induction n as [|n IH]; cbn [ask_ip];
    (apply emits_bind; [apply emits_attempt, emits_wrapping, describe_free|]; intros outcome; destruct (outcome ≫= _); [apply emits_ret|]);
    [apply emits_lift|done].
Qed.

Lemma getCreateInstanceArgs_free : emits free (getCreateInstanceArgs w l cfg b).
Proof. unfold getCreateInstanceArgs, getProfiles. free. Qed.

Lemma waitStarted_free name flavor : emits free (waitDirectJITAssignmentStarted w cw l name flavor).
Proof.
  unfold waitDirectJITAssignmentStarted. destruct (workerImages (front l) !! flavor) as [image|]; [|apply emits_lift].
  enough (∀ n, emits free (await_start w cw n image name)) as H by (intros h; apply H).
  assert (emits free (probe_state w cw name)) as Hprobe.
  { intros h. unfold probe_state. destruct (probe_due cw h); [|by apply emits_ret]. enough (emits free (stopped ← stopped_guest w name;
      if (stopped : bool) then lift (Err (Errorf "instance %q is %s before the assignment started" [name])) else mret tt)) as H by apply H.
    apply emits_bind; [apply stopped_guest_free|]. intros []; [apply emits_lift|apply emits_ret]. }
  intros n. induction n as [|n IH]; cbn [await_start]; (apply emits_bind; [done|]; intros _; apply emits_bind; [free|]; intros [f|e]; [apply emits_lift|]);
    [apply emits_lift|done].
Qed.

Lemma coldCacheDeliveryPresent_free name : emits free (coldCacheDeliveryPresent api_not_found w cw l cfg name b).
Proof. unfold coldCacheDeliveryPresent, assignment_in_place, claim_in_place. free. Qed.

Lemma narrow_free asked : emits free (narrowBootstrapRepository cw cfg asked).
Proof. unfold narrowBootstrapRepository. free. Qed.

(** ** Programs that change something *)

Lemma removable_extends h h' name : removable h name → extends h h' → removable h' name.
Proof. intros [Ht (earlier & Hs & Hok)] (new & -> & _). split; [done|]. exists earlier. split; [by apply suffix_app_r|done]. Qed.

Lemma released_does name h : resolves_to name → does (release w name) h.
Proof. intros Hr. apply does_call; [by right|done]. Qed.

Lemma setState_does name action h : justified h (SetState name action) → does (setState api_not_found w l name action) h.
Proof.
  intros Hj. unfold setState. apply does_bind; [apply does_free; free|]. intros [] h1 _ He1.
  apply does_bind; [apply does_wrapping, does_free, getManagedInstance_free|]. intros f h2 _ He2.
  apply does_bind; [apply does_free; free|]. intros [] h3 _ He3.
  apply does_bind; [|intros; apply does_free; free]. apply does_wrapping, does_call; [|done].
  pose proof (extends_trans _ _ _ He1 (extends_trans _ _ _ He2 He3)) as He.
  destruct Hj as [[-> Hw]|[-> Hr]]; [left|right]; (split; [done|]); [by eapply worker_extends|by eapply removable_extends].
Qed.

Lemma delete_stopped_does name h : removable h name → does (delete_stopped api_not_found w name) h.
Proof.
  intros Hr. unfold delete_stopped. apply does_bind; [apply does_attempt, does_call; [exact Hr|done]|].
  pose proof (proj1 (proj1 Hr)) as Hres. assert (∀ format next outcome h', does next h' → does (gone_or api_not_found w format name outcome next) h') as Hgone.
  { intros format next outcome h' Hn. unfold gone_or. destruct outcome as [u|e]; [done|].
    destruct (isNotFoundError api_not_found e); [by apply released_does|apply does_lift]. }
  intros called h1 _ _. apply Hgone. apply does_bind; [apply does_free; free|]. intros waited h2 _ _. apply Hgone, does_free. free.
Qed.

Lemma DeleteInstance_does identifier h : identifier = job ∨ victim identifier → does (DeleteInstance api_not_found w l identifier) h.
Proof.
  intros Hid. unfold DeleteInstance. apply does_bind; [apply does_free; free|]. intros name h1 Hname _.
  apply wrapping_Ok in Hname. unfold call in Hname. injection Hname as <- Hname. assert (resolves_to name) as Hres by (by exists identifier, h).
  apply does_bind; [apply does_free; free|]. intros [] h2 _ _.
  apply does_bind; [apply does_attempt, does_free, getManagedInstance_free|]. intros managed h3 Hman%attempt_Ok _.
  destruct managed as [f|e]; [|destruct (isNotFoundError api_not_found e); [by apply released_does|apply does_lift]].
  apply getManagedInstance_owned in Hman as [Hown [h4 Hf]].
  apply does_bind; [apply does_free; free|]. intros cap h5 _ _.
  assert (target name) as Ht by (split; [done|by exists h4, f]).
  apply does_bind; [apply does_wrapping, does_call; [exact Ht|done]|]. intros [] h6 Hmark _. apply wrapping_Ok in Hmark. unfold call in Hmark. injection Hmark as <- Hmark.
  assert (removable (MarkDeletingLease name :: h5) name) as Hr by (split; [done|by exists h5]).
  apply does_bind; [apply does_attempt, setState_does; by right|]. intros stopped h7 _ He.
  destruct stopped as [u|e]; [by apply delete_stopped_does; eapply removable_extends|].
  destruct (isNotFoundError api_not_found e); [by apply released_does|].
  destruct (cause_is errInstanceIsStopped e); [by apply delete_stopped_does; eapply removable_extends|apply does_lift].
Qed.

Lemma write_file_does name path body mode h : worker h name → does (write_file w name path body mode) h.
Proof. intros Hw. by apply does_call. Qed.

Lemma injecting_does what stop name write h : (∀ h', extends h h' → does write h') → does (injecting w cw what stop name write) h.
Proof.
  unfold injecting. change (does (λ h, keep_writing w cw (turns cw h) what stop name write h) h) with
    (does (keep_writing w cw (turns cw h) what stop name write) h).
  generalize (turns cw h). intros n. revert h. induction n as [|n IH]; intros h Hw; cbn [keep_writing].
  all: apply does_bind; [apply does_attempt, Hw, extends_refl|]; intros [u|e] h1 _ He1; [apply does_ret|].
  all: apply does_bind; [apply does_free, stopped_guest_free|]; intros stopped h2 _ He2; destruct stopped; [apply does_lift|].
  - apply does_lift.
  - unfold does, wp. destruct (cancelled cw h2); [apply does_lift|].
    apply IH. intros h' He'. apply Hw. by eapply extends_trans; [|eapply extends_trans].
Qed.

Lemma publish_does name flavor h : worker h name → does (publishJobImageIdentity w cw l name flavor) h.
Proof.
  intros Hw. unfold publishJobImageIdentity, injectImageIdentity. apply does_bind; [apply does_lift|]. intros image h1 [-> _]%lift_Ok _.
  apply does_bind; [apply does_lift|]. intros [] h2 [-> _]%lift_Ok _. apply injecting_does. intros h' He. pose proof (worker_extends _ _ _ Hw He) as Hw'.
  unfold writeImageIdentity. apply does_bind; [by apply does_attempt, write_file_does|]. intros u h3 _ He3.
  apply write_file_does. by eapply worker_extends.
Qed.

Lemma renderCacheClaim_does name h : worker h name → does (renderCacheClaim w cw l cfg name b) h.
Proof.
  intros Hw. unfold renderCacheClaim. apply does_bind; [apply does_lift|]. intros [role enabled] h1 [-> _]%lift_Ok _.
  destruct enabled; [|apply does_ret]. apply does_bind; [apply does_free; free|]. intros [endpoint ca] h2 _ He2.
  apply does_bind; [apply does_lift|]. intros [] h3 [-> _]%lift_Ok _.
  apply does_bind; [apply does_free; free|]. intros token h4 _ He4.
  apply does_bind; [|intros; apply does_ret]. apply does_wrapping, does_call; [|done]. by eapply worker_extends; [|eapply extends_trans].
Qed.

(** A rendered claim was recorded. *)
Lemma renderCacheClaim_added name h h' rendered : renderCacheClaim w cw l cfg name b h = (h', Ok rendered) → is_Some rendered →
  ∃ role token, AddClaim name (Flavor (base b)) role token ∈ h'.
Proof.
  unfold renderCacheClaim. intros H [raw ->]. apply Prog_bind_Ok in H as (h1 & [role enabled] & _ & H).
  destruct enabled; cbn [negb] in H; [|by apply mret_Ok in H as [_ H]].
  apply Prog_bind_Ok in H as (h2 & [endpoint ca] & _ & H). apply Prog_bind_Ok in H as (h3 & [] & _ & H).
  apply Prog_bind_Ok in H as (h4 & token & _ & H). cbv zeta in H. apply Prog_bind_Ok in H as (h5 & [] & Ha%wrapping_Ok & [-> _]%mret_Ok).
  unfold call in Ha. injection Ha as <- _. exists role, token. apply list_elem_of_here.
Qed.

Lemma withdrawing_does {A} (committed : bool) name (m : Prog A) h :
  (committed = true → ∃ role token, AddClaim name (Flavor (base b)) role token ∈ h) → does m h → does (withdrawing w committed name m) h.
Proof.
  intros Hadd Hm. unfold withdrawing. apply does_bind; [by apply does_attempt|]. intros [a|e] h1 _ He; [apply does_ret|].
  apply does_bind; [|intros; apply does_lift]. destruct committed; [|apply does_ret]. unfold remove_claim.
  apply does_bind; [|intros; apply does_ret]. apply does_attempt, does_call; [|done].
  destruct (Hadd eq_refl) as (role & token & Hin). exists role, token. by eapply extends_sub.
Qed.

Lemma injectCold_does name h : worker h name → does (injectColdCacheAssignment w cw l cfg name b) h.
Proof.
  intros Hw. unfold injectColdCacheAssignment. cbv zeta. apply does_bind; [by apply renderCacheClaim_does|]. intros [raw|] h1 Hadd He1; [|apply does_ret].
  pose proof (worker_extends _ _ _ Hw He1) as Hw1. apply withdrawing_does; [intros _; by eapply renderCacheClaim_added|].
  apply does_bind; [apply does_free; free|]. intros [] h2 _ He2.
  apply does_bind. { apply injecting_does. intros h' He'. apply write_file_does. by eapply worker_extends; [|eapply extends_trans]. }
  intros [] h3 _ He3. apply does_bind; [|intros; apply does_lift]. apply does_attempt, write_file_does.
  by eapply worker_extends; [|eapply extends_trans].
Qed.

(** *** Handing over the job *)

Lemma startCold_does name jit h : worker h name → does (startColdDirectJIT api_not_found w cw l cfg name b jit) h.
Proof.
  intros Hw. unfold startColdDirectJIT. apply does_bind; [apply does_free; free|]. intros [] h1 _ He1.
  apply does_bind; [apply does_wrapping, does_free, waitInstanceHasIP_free|]. intros p h2 _ He2.
  assert (worker h2 name) as Hw2 by (by eapply worker_extends; [|eapply extends_trans]).
  apply does_bind; [by apply renderCacheClaim_does|]. intros rendered h3 Hadd He3. pose proof (worker_extends _ _ _ Hw2 He3) as Hw3.
  apply does_bind.
  { apply withdrawing_does; [intros ?%bool_decide_eq_true; by eapply renderCacheClaim_added|]. apply does_bind; [|intros [] h4 _ He4; apply publish_does; by eapply worker_extends].
    unfold injectAssignment. cbv zeta. apply injecting_does. intros h' He'. apply write_file_does. by eapply worker_extends. }
  intros [] h4 _ He4. apply does_bind; [apply does_wrapping, does_call; [by eapply worker_extends|done]|].
  intros [] h5 _ _. apply does_bind; [apply does_free, waitStarted_free|intros; apply does_ret].
Qed.

Lemma adoptCold_does jit h : worker h job → does (adoptColdDirectJIT api_not_found w cw l cfg b jit) h.
Proof.
  intros Hw. unfold adoptColdDirectJIT. cbv zeta. apply does_bind; [apply does_free; free|]. intros [] h1 _ He1.
  apply does_bind; [apply does_free; free|]. intros read h2 _ He2. assert (worker h2 job) as Hw2 by (by eapply worker_extends; [|eapply extends_trans]).
  destruct read as [f|e].
  - apply does_bind; [by apply publish_does|]. intros. apply does_wrapping, does_free, waitInstanceHasIP_free.
  - destruct (isNotFoundError api_not_found e); [by apply startCold_does|apply does_lift].
Qed.

Lemma adoptExisting_does specs f h h0 : finds w h0 job = Ok f → owned f → does (adoptExisting api_not_found w cw l cfg b specs f) h.
Proof.
  intros Hf Hown. unfold adoptExisting. cbv zeta. apply does_bind; [apply does_lift|]. intros [] h1 [-> Hv]%lift_Ok _.
  assert (∀ h, worker h job) as Hw by (intros; by eapply worker_adopted).
  apply does_bind; [apply does_free; free|]. intros [] h2 _ _.
  apply does_bind. { destruct (bool_decide _); [|apply does_ret]. apply does_wrapping, setState_does. by left. }
  intros [] h3 _ _. destruct (negb (bool_decide (EncodedJITConfig specs = ""))); [by apply adoptCold_does|].
  apply does_bind; [apply does_free, coldCacheDeliveryPresent_free|]. intros present h4 _ _.
  apply does_bind; [destruct present; [apply does_ret|by apply injectCold_does]|]. intros [] h5 _ _.
  apply does_bind; [apply does_free; free|]. intros [] h6 _ _. apply does_bind; [by apply publish_does|]. intros.
  apply does_wrapping, does_free, waitInstanceHasIP_free.
Qed.

(** *** The identity of the job *)

Definition metadata_of (pool : Pool) (image : WorkerImage) (repository : string) : list (string * string) := [
  (osTypeKeyName, OSType b); (osArchKeyNAme, OSArch b); (controllerIDKeyName, front_controllerID (front l));
  (poolIDKey, Bootstrap_PoolID (base b)); (imageAliasKey, Image_Alias image); (imageFingerprintKey, Fingerprint image);
  (providerVersionKey, Identity_Version (build (front l))); (providerCommitKey, Identity_Commit (build (front l)));
  (flavorKey, Flavor (base b)); (lifecycleKey, lifecycleEphemeralOneJob); (trustKey, Trust pool);
  (scaleSetKey, Pool_ScaleSetName pool); (repositoryKey, repository); (garmJobNameKey, job);
  (networkPolicyKey, NetworkPolicy (Pool_Capabilities pool)); (cacheWriteScopeKey, CacheWriteScope (Pool_Capabilities pool))].

Lemma jobMetadata_Ok metadata : jobMetadata l cfg b = Ok metadata → ∃ pool image repository,
  find_pool (platform (front l)) (Flavor (base b)) = Some pool ∧ workerImagePolicy l (Flavor (base b)) = Ok image ∧
  runtimeRepositoryIdentity cfg (RepoURL (base b)) = Ok repository ∧ metadata = list_to_map (metadata_of pool image repository).
Proof.
  unfold jobMetadata. destruct (find_pool _ _) as [pool|] eqn:Hp; [|done]. intros (image & Hi & H)%bind_Ok.
  apply bind_Ok in H as (repository & Hr%wrap_err_Ok & H). apply Ok_inj in H. by exists pool, image, repository.
Qed.

(** The keys of the job are apart from the other keys that are written. *)
Lemma metadata_keys_job metadata key v : jobMetadata l cfg b = Ok metadata → metadata !! key = Some v →
  key ≠ userDataKey ∧ key ≠ warmReadyKey ∧ ∀ pool image, isolation_config l pool image !! key = None.
Proof.
  intros (pool & image & repository & _ & _ & _ & ->)%jobMetadata_Ok Hk. apply elem_of_list_to_map_2 in Hk.
  unfold metadata_of in Hk. rewrite !elem_of_cons in Hk.
  destruct_or! Hk; try (by apply elem_of_nil in Hk); injection Hk as -> _; split_and!; try done; intros p i; unfold isolation_config; by destruct (bool_decide _).
Qed.

Lemma create_config_identified pool image userData metadata :
  jobMetadata l cfg b = Ok metadata → metadata ⊆ create_config l pool image userData metadata ∧ metadata ⊆ delete userDataKey (create_config l pool image userData metadata).
Proof.
  intros Hm. assert (∀ key v, metadata !! key = Some v → create_config l pool image userData metadata !! key = Some v) as H.
  { intros key v Hk. destruct (metadata_keys_job _ _ _ Hm Hk) as (Hu & _ & Hi). unfold create_config. rewrite lookup_union_r by done.
    by rewrite lookup_insert_ne by done. }
  split; apply map_subseteq_spec; [done|]. intros key v Hk. rewrite lookup_delete_ne; [by apply H|].
  intros <-. by destruct (metadata_keys_job _ _ _ Hm Hk).
Qed.

Lemma getCreateInstanceArgs_Ok h h' post : getCreateInstanceArgs w l cfg b h = (h', Ok post) →
  Post_Name post = job ∧ ∃ pool image userData metadata, find_pool (platform (front l)) (Flavor (base b)) = Some pool ∧
    workerImagePolicy l (Flavor (base b)) = Ok image ∧ jobMetadata l cfg b = Ok metadata ∧
    Post_Config post = create_config l pool image userData metadata ∧ Post_Fingerprint post = Fingerprint image ∧
    Post_Type post = image_type (Image_InstanceType image) ∧
    Post_Profiles post = (if IncludeDefaultProfile l then ["default"] else []) ++ [Flavor (base b)] ∧
    resolveArchitecture (OSArch b) = Ok (Post_Architecture post).
Proof.
  unfold getCreateInstanceArgs, getProfiles. destruct (find_pool _ _) as [pool|] eqn:Hp.
  2:{ intros H. inv_prog. discriminate. }
  intros H. inv_prog. match goal with H : cacheRoleForPool _ = Ok ?x |- _ => destruct x as [role enabled] end. inv_prog. subst. cbn.
  match goal with H : validateResolvedWorkerImage ?r _ = _ |- _ => unfold validateResolvedWorkerImage in H; destruct r as [i|]; [|done];
    apply bind_Ok in H as (? & Hfp%fail_if_Ok & _) end. bool_hyps.
  split; [done|]. eexists pool, _, _, _. by split_and!.
Qed.

(** *** Capacity and launch *)

Lemma deletePreempted_does names h : (∀ n, n ∈ names → victim n) → does (deletePreemptedWarmWorkers api_not_found w l names) h.
Proof.
  unfold deletePreemptedWarmWorkers. revert h. induction names as [|n names IH]; intros h Hn; cbn [each]; [apply does_ret|].
  apply does_bind; [apply does_wrapping, DeleteInstance_does; right; apply Hn, list_elem_of_here|].
  intros u h1 _ _. destruct u. apply IH. intros. by apply Hn, list_elem_of_further.
Qed.

Lemma granted_now h answer : admits cw h (base b) = Ok answer → Decision_Admitted (Result_Decision answer) = true →
  PreemptedWarmWorkers answer = [] → granted (AdmitCall job :: h).
Proof. intros. exists [], h, answer. split_and!; try done. apply not_elem_of_nil. Qed.

Lemma acquireCapacity_grants h : wp justified (acquireCapacity api_not_found w cw l b) (λ h' r, r = Ok tt → granted h') h.
Proof.
  unfold acquireCapacity, ask_admission. apply wp_bind, wp_wrapping, wp_call; [done|].
  destruct (admits cw h (base b)) as [answer|e] eqn:Ha; [|done]. cbn [wrap_err]. cbv zeta. apply wp_bind, wp_lift.
  destruct (fail_if _ _) as [[]|e] eqn:Hf; [|done]. apply fail_if_Ok in Hf.
  apply wp_bind. eapply wp_conseq; [apply deletePreempted_does; intros n Hn; left; eauto|].
  intros h1 [[]|e] He; [|done]. destruct (bool_decide (PreemptedWarmWorkers answer = [])) eqn:Hv.
  - apply bool_decide_eq_true in Hv. rewrite andb_true_r in Hf. apply negb_false_iff in Hf.
    apply wp_ret. intros _. eapply granted_extends; [by eapply granted_now|done].
  - apply wp_bind, wp_wrapping, wp_call; [done|]. destruct (admits cw h1 (base b)) as [confirmed|e] eqn:Hc; [|done]. cbn [wrap_err].
    destruct (_ || _) eqn:Hok.
    + apply wp_bind, wp_wrapping, wp_call; [left; split; [done|apply list_elem_of_here]|]. destruct (says w _ (ReleaseLease job)) as [[]|e]; [|done]. cbn. by apply wp_lift.
    + apply orb_false_iff in Hok as [Hok1%negb_false_iff Hok2%negb_false_iff]. apply bool_decide_eq_true in Hok2. apply wp_ret. intros _.
      by eapply granted_now.
Qed.

Lemma launchInstance_does post h : justified h (CreateCall post) → does (launchInstance w l post) h.
Proof.
  intros Hj. unfold launchInstance. apply does_bind; [apply does_free; free|]. intros [] h1 _ He1.
  apply does_bind; [apply does_free; free|]. intros [] h2 _ He2. pose proof (extends_trans _ _ _ He1 He2) as He.
  destruct Hj as (Hname & Hid & Hg & Himg).
  apply does_bind. { apply does_attempt, does_call; [|done]. split_and!; try done. by eapply granted_extends. }
  intros created h3 Hc%attempt_Ok _. unfold call in Hc. injection Hc as <- _.
  apply does_bind; [apply does_free; free|]. intros unlocked h4 _ He4.
  apply does_bind; [apply does_free; free|]. intros [] h5 _ He5. apply does_bind; [apply does_free; free|]. intros [] h6 _ He6.
  apply does_bind; [|intros; apply does_free; free]. apply does_wrapping, does_call; [|done]. left. split; [done|].
  apply (worker_launched _ _ post); [done| |done]. do 3 (eapply extends_sub; [eassumption|]). apply list_elem_of_here.
Qed.

Lemma granted_asked h : granted h → AdmitCall job ∈ h.
Proof. intros (recent & h1 & answer & -> & _). apply elem_of_app. right. apply list_elem_of_here. Qed.

Lemma refuse_does flavor format h : granted h → does (refuse_placement w job flavor format) h.
Proof.
  intros Hg. unfold refuse_placement. apply does_bind; [|intros; apply does_lift]. apply does_wrapping, does_call; [|done].
  left. split; [done|by apply granted_asked].
Qed.

Lemma launchCold_does post h : justified h (CreateCall post) → does (launchColdInstance api_not_found api_mentions w l post (base b)) h.
Proof.
  intros Hj. assert (∀ h', extends h h' → justified h' (CreateCall post)) as Hj'.
  { intros h' He. destruct Hj as (? & ? & ? & ?). split_and!; try done. by eapply granted_extends. }
  unfold launchColdInstance. apply does_bind; [by apply does_attempt, launchInstance_does|]. intros [[]|e] h1 _ He1; [apply does_ret|].
  destruct (negb (isPlacementRefusal api_mentions e)); [apply does_lift|].
  apply does_bind; [apply does_free; free|]. intros preempted h2 Hp He2. apply wrapping_Ok in Hp. unfold call in Hp. injection Hp as <- Hp.
  assert (granted h) as Hg by apply Hj. pose proof (extends_trans _ _ _ He1 He2) as He.
  destruct (bool_decide (preempted = [])); [apply refuse_does; by eapply granted_extends|].
  apply does_bind; [apply deletePreempted_does; intros n Hn; right; eauto|]. intros [] h3 _ He3.
  apply does_bind. { apply does_attempt, launchInstance_does, Hj'. eauto using extends_trans. }
  intros [[]|e'] h4 _ He4; [apply does_ret|]. destruct (isPlacementRefusal api_mentions e'); [|apply does_lift].
  apply refuse_does. eapply granted_extends; [done|]. eauto using extends_trans.
Qed.

(** A launch that returns has made its call. *)
Lemma launchInstance_created post h h' : launchInstance w l post h = (h', Ok tt) → CreateCall post ∈ h'.
Proof.
  unfold launchInstance. intros H. apply Prog_bind_Ok in H as (h1 & [] & _ & H). apply Prog_bind_Ok in H as (h2 & [] & _ & H).
  apply Prog_bind_Ok in H as (h3 & created & Hc%attempt_Ok & H). unfold call in Hc. injection Hc as <- Hc.
  match type of H with ?m _ = _ => assert (emits (λ _, True) m) as He by (emit; done) end.
  destruct (He (CreateCall post :: h2)) as (new & Hnew & _). rewrite H in Hnew. simpl in Hnew. subst h'.
  apply elem_of_app. right. apply list_elem_of_here.
Qed.

Lemma launchCold_created post h h' : launchColdInstance api_not_found api_mentions w l post (base b) h = (h', Ok tt) → CreateCall post ∈ h'.
Proof.
  unfold launchColdInstance. intros H. apply Prog_bind_Ok in H as (h1 & [[]|e] & Hl%attempt_Ok & H).
  { apply mret_Ok in H as [-> _]. by eapply launchInstance_created. }
  destruct (negb (isPlacementRefusal api_mentions e)); [by apply lift_Ok in H as [_ H]|].
  apply Prog_bind_Ok in H as (h2 & preempted & _ & H). destruct (bool_decide (preempted = [])).
  { unfold refuse_placement in H. inv_prog. discriminate. }
  apply Prog_bind_Ok in H as (h3 & [] & _ & H). apply Prog_bind_Ok in H as (h4 & [[]|e'] & Hl'%attempt_Ok & H).
  { apply mret_Ok in H as [-> _]. by eapply launchInstance_created. }
  destruct (isPlacementRefusal api_mentions e'); unfold refuse_placement in H; inv_prog; discriminate.
Qed.

Lemma or_delete_does {A} format (m : Prog A) h : does m h → does (or_delete api_not_found w l job format m) h.
Proof.
  intros Hm. unfold or_delete. apply does_bind; [by apply does_attempt|]. intros [a|e] h1 _ _; [apply does_ret|].
  apply does_bind; [apply does_attempt, DeleteInstance_does; by left|intros; apply does_lift].
Qed.

(** *** The three ways *)

Lemma activate_does claim jit h h0 :
  claims_warm cw h0 (base b) = Ok claim → WCRes_Found claim = true → does (activateWarmInstance api_not_found w cw l cfg b claim jit) h.
Proof.
  intros Hclaim Hfound. unfold activateWarmInstance. apply does_bind; [apply does_lift|]. intros [] h1 [-> _]%lift_Ok _.
  apply does_bind; [apply does_free; free|]. intros [] h2 _ _. cbv zeta.
  apply does_bind; [apply does_free; free|]. intros f h3 Hf _. apply wrapping_Ok in Hf. unfold call in Hf. injection Hf as <- Hf.
  assert (claimed_as f) as Hcl by (by exists h0, claim, h2).
  apply (does_bind (bind_warm w l cfg f b)).
  { unfold bind_warm. cbv zeta. destruct (bool_decide (key_of f lifecycleKey = _)); [|apply does_free; free].
    apply does_bind; [apply does_lift|]. intros [] h4 [-> Hv]%lift_Ok _. apply does_bind; [apply does_lift|]. intros metadata h5 [-> Hm]%lift_Ok _.
    apply does_bind; [|intros; apply does_free; free]. apply does_wrapping, does_call; [|done]. cbn. split_and!.
    - exists metadata. split; [done|]. unfold bound_config. apply map_union_subseteq_l.
    - unfold bound_config. apply lookup_union_None. split; [|apply lookup_delete_eq].
      apply eq_None_not_Some. intros [v Hk]. by destruct (metadata_keys_job _ _ _ Hm Hk) as (_ & ? & _).
    - unfold bound_config. apply lookup_union_None. rewrite lookup_delete_ne by done. split; [|apply lookup_delete_eq].
      apply eq_None_not_Some. intros [v Hk]. by destruct (metadata_keys_job _ _ _ Hm Hk) as (? & _ & _).
    - by exists f. }
  intros [] h4 Hbind _. assert (worker h4 (name_of f)) as Hw.
  { unfold bind_warm in Hbind. cbv zeta in Hbind. destruct (bool_decide (key_of f lifecycleKey = _)).
    - apply Prog_bind_Ok in Hbind as (h5 & [] & [-> Hv]%lift_Ok & H). apply Prog_bind_Ok in H as (h6 & metadata & [-> Hm]%lift_Ok & H).
      apply Prog_bind_Ok in H as (h7 & [] & Hb%wrapping_Ok & H%wrapping_Ok). unfold call in *. injection Hb as <- _. injection H as <- _.
      eapply (worker_bound _ _ f); try done. apply list_elem_of_further, list_elem_of_here.
    - destruct (bool_decide _); apply lift_Ok in Hbind as [-> Hv]; [|done]. by eapply worker_claimed. }
  apply does_bind.
  { destruct (injected (WCRes_State claim)); [apply does_ret|]. unfold inject_warm.
    apply does_bind; [by apply renderCacheClaim_does|]. intros rendered h5 Hadd He5.
    apply withdrawing_does; [intros ?%bool_decide_eq_true; by eapply renderCacheClaim_added|]. cbv zeta.
    apply does_bind; [apply does_wrapping, write_file_does; by eapply worker_extends|].
    intros [] h6 Hwr _. apply wrapping_Ok in Hwr. unfold write_file, call in Hwr. injection Hwr as <- Hwr.
    apply does_wrapping, does_call; [|done]. split; [done|]. eexists _, h5. cbv zeta. split; [reflexivity|exact Hwr]. }
  intros [] h5 _ He5. pose proof (worker_extends _ _ _ Hw He5) as Hw5.
  apply does_bind; [by apply publish_does|]. intros [] h6 _ _.
  apply does_bind; [destruct (bool_decide _); [apply does_ret|apply does_free, waitStarted_free]|]. intros [] h7 _ _.
  apply does_bind; [apply does_wrapping, does_free, waitInstanceHasIP_free|]. intros p h8 _ _.
  apply does_free. unfold projectGARMInstanceIdentity. free.
Qed.

(** A cold create asks admission, so its grant is not the one it started with. *)
Lemma createCold_justified specs h : wp justified (createCold api_not_found api_mentions w cw l cfg b specs) (λ _ _, True) h.
Proof.
  unfold createCold. apply wp_bind, wp_wrapping. apply (wp_emits free); [apply getCreateInstanceArgs_free|intros; by apply free_justified|].
  intros new [post|e] Hargs _; [|done]. cbn [wrap_err]. cbv zeta. apply getCreateInstanceArgs_Ok in Hargs as (Hname & pool & image & userData & metadata & Hp & Hi & Hm & Hc & Hfp & _).
  destruct (create_config_identified pool image userData metadata Hm) as [Hid Hid'].
  set (args := if negb (bool_decide (EncodedJITConfig specs = "")) then without_user_data post else post).
  assert (Post_Name args = job ∧ identified (Post_Config args) ∧ Post_Fingerprint args = Fingerprint image) as (Hn & Hident & Hfpr).
  { unfold args. destruct (negb _); cbn; split_and!; try done; exists metadata; split; try done; by rewrite Hc. }
  clearbody args. apply wp_bind. eapply wp_conseq; [apply acquireCapacity_grants|]. intros h1 [[]|e] Hg; [|done]. specialize (Hg eq_refl).
  assert (justified h1 (CreateCall args)) as Hj by (split_and!; try done; by exists image).
  apply wp_bind. pose proof (launchCold_does args h1 Hj) as (new2 & r & Hl & Hgd & He). exists new2, r. split_and!; [done|done|].
  destruct r as [[]|e]; [|done]. pose proof (launchCold_created _ _ _ Hl) as Hin. set (h2 := new2 ++ h1) in *. clearbody h2.
  assert (∀ h', extends h2 h' → worker h' (Post_Name args)) as Hw.
  { intros h' He'. rewrite Hn. apply (worker_launched _ _ args); [done| |done]. by eapply extends_sub. }
  apply (wp_conseq _ _ (λ h' _, extends h2 h')); [|done]. change (does (if negb (bool_decide (EncodedJITConfig specs = ""))
    then or_delete api_not_found w l (Post_Name args) "direct JIT start failed; cleanup result: %v"
           (startColdDirectJIT api_not_found w cw l cfg (Post_Name args) b (EncodedJITConfig specs))
    else or_delete api_not_found w l (Post_Name args) "cache delivery failed; cleanup result: %v"
           (injectColdCacheAssignment w cw l cfg (Post_Name args) b);;
         mark_created w (Post_Name args);; wrapping "fetching client" (getCLI w);;
         publishJobImageIdentity w cw l (Post_Name args) (Flavor (base b));;
         wrapping "fetching instance" (waitInstanceHasIP api_not_found w cw l (Post_Name args))) h2).
  rewrite Hn in *. destruct (negb _); [apply or_delete_does, startCold_does, Hw, extends_refl|].
  apply does_bind; [apply or_delete_does, injectCold_does, Hw, extends_refl|]. intros [] h3 _ He3.
  apply does_bind; [apply does_wrapping, does_call; [by apply Hw|done]|]. intros [] h4 _ He4.
  apply does_bind; [apply does_free; free|]. intros [] h5 _ He5.
  apply does_bind; [apply publish_does, Hw; by eapply extends_trans; [|eapply extends_trans]|]. intros.
  apply does_wrapping, does_free, waitInstanceHasIP_free.
Qed.

End justified.
