(* ===== verification/IncusCreateClaims.v ===== *)
(** * What a create guarantees

    The reasons of every step of [CreateInstance], the identity of a job's instance
    when it is read back, the withdrawal of cache claims, and two retries that can
    not succeed. *)

From S2P Require Import Prelude GoText StateFile QueueIntent Admission ProviderJournal ProviderRetry ProviderAdmission HostProbe FleetConfig FleetConfigFacts.
From S2P Require Import CacheNamespace CacheBroker Tenant ProviderHost NDDevAdmission NDDevAdmissionFacts IncusProvider IncusProviderFacts IncusProviderClaims.
From S2P Require Import WarmRoundtrip CacheDelivery IncusCreate IncusCreateFacts.

Local Open Scope Z_scope.
Local Open Scope go_scope.

Section claims.
Context (api_not_found : error → bool) (api_mentions : string → error → bool) (w : Answers) (cw : CreateAnswers) (l : Incus_Provider) (cfg : CreateConfig).
Context {Hhash : Hashing} {Hweb : WebText} {Henc : Encodings} {Hct : ClaimText} {Hcr : CreateText}.

(** The request as the queue narrows it. *)
Definition narrowed (asked b : BootstrapParams) : Prop :=
  b = asked ∨ ∃ h repository, repository_of cw h (base asked) = Ok repository ∧ b = with_RepoURL (github +:+ repository) asked.

Definition accepted (asked b : BootstrapParams) : Prop :=
  narrowed asked b ∧ validateBootstrapParams l cfg b = Ok tt ∧
  ∃ specs, parseExtraSpecsFromBootstrapParams b = Ok specs ∧ validateNDDevExtraSpecs b specs = Ok tt.

Lemma narrow_Ok asked h h' b : narrowBootstrapRepository cw cfg asked h = (h', Ok b) → narrowed asked b.
Proof.
  unfold narrowBootstrapRepository. cbv zeta. destruct (match canonicalRepositoryIdentity _ with Ok i => contains_byte slash i | Err _ => false end).
  { intros [_ H]%lift_Ok. apply bind_Ok in H as ([] & _ & H). apply Ok_inj in H. by left. }
  intros (h1 & resolved & Hr%attempt_Ok & H)%Prog_bind_Ok. unfold call in Hr. injection Hr as <- Hr. destruct resolved as [repository|e].
  - apply lift_Ok in H as [_ H]. apply bind_Ok in H as ([] & _ & H). apply Ok_inj in H. right. by exists h, repository.
  - destruct (boundary_URL cfg _); [apply mret_Ok in H as [_ <-]; by left|by apply lift_Ok in H as [_ H]].
Qed.

Definition reasoned (asked : BootstrapParams) (h : list Event) (e : Event) : Prop :=
  free e ∨ ∃ b, accepted asked b ∧ justified w cw l cfg b h e.

Lemma CreateInstance_reasoned asked h : wp (reasoned asked) (CreateInstance api_not_found api_mentions w cw l cfg asked) (λ _ _, True) h.
Proof.
  unfold CreateInstance. apply wp_bind. apply (wp_emits free); [apply narrow_free|intros; by left|]. intros new [b|e] Hb _; [|done].
  apply narrow_Ok in Hb. apply wp_bind, wp_lift. destruct (validateBootstrapParams l cfg b) as [[]|e] eqn:Hv; [|done].
  apply wp_bind, wp_wrapping, wp_lift. destruct (parseExtraSpecsFromBootstrapParams b) as [specs|e] eqn:Hs; [|done]. cbn [wrap_err].
  apply wp_bind, wp_wrapping, wp_lift. destruct (validateNDDevExtraSpecs b specs) as [[]|e] eqn:Hn; [|done]. cbn [wrap_err].
  assert (accepted asked b) as Hacc by (split_and!; [done|done|by exists specs]). clear Hb Hv Hs Hn.
  apply wp_bind, wp_attempt. apply (wp_emits free); [apply getManagedInstance_free|intros; by left|]. intros new2 existing Hex _.
  destruct existing as [f|e].
  - apply getManagedInstance_owned in Hex as [Hown [h1 Hf]].
    eapply wp_conseq; [|intros; exact I]. eapply wp_guard; [|by eapply adoptExisting_does]. intros h' e _ Hj. right. by exists b.
  - destruct (negb (isNotFoundError api_not_found e)); [by apply wp_lift|].
    apply wp_bind, wp_wrapping, wp_call; [by left|]. destruct (claims_warm cw _ (base b)) as [claim|e'] eqn:Hc; [|done]. cbn [wrap_err].
    destruct (WCRes_Found claim) eqn:Hfound.
    + eapply wp_conseq; [|intros; exact I]. eapply wp_guard; [|by eapply activate_does]. intros h' e' _ Hj. right. by exists b.
    + eapply wp_conseq; [|intros; exact I]. eapply wp_guard; [|apply createCold_justified]. intros h' e' _ Hj. right. by exists b.
Qed.

(** C35: Every step of a create has its reason in what came before it, whatever Incus, the
    journal, the queue and the broker answer. After a request that passes every check:
    an instance is created only under the job's name, with the job's identity and the
    pinned image, and after admission granted it a place that needs no victim; a warm
    instance is bound only when the journal's claim names it and it was read as ready
    capacity of the pool; files, cache claims and the record of a creation are only
    for an instance that this run created, or read as bound to this very job; an
    injection is recorded only after the assignment was written; and only the job's
    own instance or a victim that admission or placement named is deleted, after it was
    read as the controller's and recorded as deleting. *)
Theorem create_steps_justified asked after e before r :
  CreateInstance api_not_found api_mentions w cw l cfg asked [] = (after ++ e :: before, r) →
  free e ∨ ∃ b, accepted asked b ∧ justified w cw l cfg b before e.
Proof.
  intros Hrun. destruct (CreateInstance_reasoned asked []) as (new & r' & Hm & Hg & _). rewrite Hrun, app_nil_r in Hm. injection Hm as Hnew _.
  pose proof (guarded_at _ _ _ _ _ _ Hg (eq_sym Hnew)) as H. by rewrite app_nil_r in H.
Qed.

(** ** The identity of a job's instance *)

Section recognized.
Context (b : BootstrapParams) (pool : Pool) (image : WorkerImage) (repository : string) (f : InstanceFull).
Context (Hos : OSType b = "linux" ∧ OSArch b = "amd64").
Context (Hpool : find_pool (platform (front l)) (Flavor (base b)) = Some pool) (Himage : workerImagePolicy l (Flavor (base b)) = Ok image).
Context (Hrepo : runtimeRepositoryIdentity cfg (RepoURL (base b)) = Ok repository).
Context (Hkeys : ∀ key v, (key, v) ∈ metadata_of l b pool image repository → key_of f key = v).
Context (Hiso : ∀ key v, (key, v) ∈ isolation image → key_of f key = v).
Context (Htype : Instance_Type (Full_Instance f) = (managedSecurityContract image).1) (Hprofile : exact_profile f (Flavor (base b)) = true).

Lemma check_keys_of format checks : (∀ key v, (key, v) ∈ checks → key_of f key = v) → forM checks (check_key format f) = Ok tt.
Proof. intros H. apply forM_Ok. intros [key v] Hin. unfold check_key. simpl. rewrite (H _ _ Hin). by rewrite bool_decide_eq_true_2. Qed.

Ltac member := first [apply list_elem_of_here | apply list_elem_of_further; member].
Ltac each_of H := rewrite !elem_of_cons, elem_of_nil in H; destruct_or! H; try done; injection H as -> ->; member.
Ltac known := apply Hkeys; unfold metadata_of; member.

Lemma contract_checks key v : (key, v) ∈ (managedSecurityContract image).2 → key_of f key = v.
Proof.
  destruct (workerImagePolicy_Ok _ _ _ Himage) as [_ Ht]. pose proof (isolation_drop _ Ht) as Hd. intros Hin.
  assert ((managedSecurityContract image).2 = (imageAliasKey, Image_Alias image) :: drop 1 (managedSecurityContract image).2) as Hs.
  { unfold managedSecurityContract. by destruct (bool_decide _). }
  rewrite Hs, Hd, elem_of_cons in Hin. destruct Hin as [[= -> ->]|Hin]; [|by apply Hiso]. known.
Qed.

Lemma current_keys : key_of f flavorKey = Flavor (base b) ∧ key_of f lifecycleKey = lifecycleEphemeralOneJob ∧ key_of f imageFingerprintKey = Fingerprint image ∧
  identity_of (Full_Instance f) = build (front l).
Proof.
  split_and!; [known..|]. unfold identity_of. change (config_of (Full_Instance f)) with (key_of f).
  assert (key_of f providerVersionKey = Identity_Version (build (front l))) as -> by known.
  assert (key_of f providerCommitKey = Identity_Commit (build (front l))) as -> by known. by destruct (build (front l)).
Qed.

Lemma job_adopted : validateExistingInstance l cfg f b = Ok tt.
Proof.
  destruct current_keys as (Hfl & Hlc & Hfp & Hid). assert (AllowsExistingFingerprint image (Fingerprint image) = true) as Hcur.
  { unfold AllowsExistingFingerprint. by rewrite bool_decide_eq_true_2. }
  unfold validateExistingInstance.
  assert (validateManagedSecurity l f = Ok tt) as ->.
  { unfold validateManagedSecurity. rewrite Hfl, Himage. cbn [wrap_err mbind result_bind]. pose proof contract_checks as Hc.
    destruct (managedSecurityContract image) as [wanted checks]. cbn [fst snd] in *. rewrite Htype, bool_decide_eq_true_2 by done. cbn [negb fail_if mbind result_bind].
    rewrite Hlc, Hfp. unfold fingerprint_allowed. rewrite bool_decide_eq_true_2, Hcur by done. cbn [negb fail_if mbind result_bind].
    apply check_keys_of. intros key v. rewrite elem_of_app, list_elem_of_singleton. intros [?|[= -> ->]]; [by apply Hc|done]. }
  cbn [mbind result_bind]. rewrite Hid. unfold AllowsProviderIdentity. rewrite bool_decide_eq_true_2 by done. cbn [orb negb fail_if mbind result_bind].
  rewrite Hpool, Himage. cbn [mbind result_bind]. rewrite Hrepo. cbn [wrap_err mbind result_bind]. rewrite Hfp, Hcur. cbn [negb fail_if mbind result_bind].
  rewrite check_keys_of; cbn [mbind result_bind]; [by rewrite Hprofile|]. destruct Hos as [Ho Ha].
  intros key v Hin. apply Hkeys. unfold job_keys in Hin. unfold metadata_of. rewrite Ho, Ha. each_of Hin.
Qed.

Lemma job_counted : FleetConfig.Validate (platform (front l)) = None →
  observe_managed (front l) (Full_Instance f) (Flavor (base b)) =
    Ok (pool_allocation (name_of f) (front_controllerID (front l)) (Bootstrap_PoolID (base b)) pool (Flavor (base b)) (Fingerprint image)
          StateCreated (Bootstrap_Name (base b)) (Location (Full_Instance f))).
Proof.
  intros Hv. destruct (validated_scopes _ _ Hv (proj1 (find_pool_Some _ _ _ Hpool))) as [Hnet Hscope].
  destruct current_keys as (Hfl & Hlc & Hfp & Hid). destruct (workerImagePolicy_Ok _ _ _ Himage) as [Himg Ht]. destruct Hos as [Ho Ha].
  unfold observe_managed. rewrite Hpool, Himg. change (config_of (Full_Instance f)) with (key_of f). pose proof (isolation_drop _ Ht) as Hd.
  destruct (managedSecurityContract image) as [wanted checks]. cbn [fst snd] in *. rewrite Htype, bool_decide_eq_true_2 by done. cbn [negb fail_if mbind result_bind].
  rewrite Hlc, Hfp, Hid. unfold fingerprint_allowed, AllowsExistingFingerprint, AllowsProviderIdentity.
  rewrite !(bool_decide_eq_true_2 (_ = _)) by done. cbn [orb andb negb fail_if mbind result_bind known_lifecycle].
  assert (∀ checks, (∀ key v, (key, v) ∈ checks → key_of f key = v) → forM checks (check_config (Full_Instance f)) = Ok tt) as Hck.
  { intros cs H. apply forM_Ok. intros [key v] Hin. unfold check_config. cbn [fst snd]. specialize (H _ _ Hin). unfold key_of in H. rewrite H.
    by rewrite bool_decide_eq_true_2. }
  rewrite Hck; cbn [mbind result_bind].
  2:{ intros key v Hin. apply Hkeys. unfold metadata_of. each_of Hin. }
  rewrite Hck; cbn [mbind result_bind].
  2:{ intros key v. rewrite Hd, elem_of_app. intros [Hin|Hin]; [|by apply Hiso]. apply Hkeys. unfold metadata_of. rewrite Ho, Ha. each_of Hin. }
  assert (forM [(networkPolicyKey, ["github-cache-only"; "public-internet"; "release-allowlist"]); (cacheWriteScopeKey, ["none"; "isolated"; "trusted"])]
            (check_capability (Full_Instance f)) = Ok tt) as ->.
  { apply forM_Ok. intros [key allowed]. rewrite !elem_of_cons, elem_of_nil. unfold check_capability. cbn [fst snd]. change (config_of (Full_Instance f)) with (key_of f).
    assert (key_of f networkPolicyKey = NetworkPolicy (Pool_Capabilities pool)) as Hn by known.
    assert (key_of f cacheWriteScopeKey = CacheWriteScope (Pool_Capabilities pool)) as Hs by known.
    intros Hk. destruct_or! Hk; try done; injection Hk as -> ->; [rewrite Hn|rewrite Hs]; by rewrite bool_decide_eq_true_2. }
  assert (warm_checks (Full_Instance f) (Flavor (base b)) lifecycleEphemeralOneJob = Ok StateCreated) as -> by done.
  cbn [mbind result_bind].
  assert (key_of f controllerIDKeyName = front_controllerID (front l)) as -> by known.
  assert (key_of f poolIDKey = Bootstrap_PoolID (base b)) as -> by known. assert (key_of f garmJobNameKey = Bootstrap_Name (base b)) as -> by known.
  by rewrite (bool_decide_eq_true_2 (wanted = wanted)).
Qed.

End recognized.

(** Reading the result of [validateBootstrapParams]. *)
Lemma validated_request b : validateBootstrapParams l cfg b = Ok tt → OSType b = "linux" ∧ OSArch b = "amd64" ∧ boundary_URL cfg (RepoURL (base b)) = true ∧
  ∃ image, workerImagePolicy l (Flavor (base b)) = Ok image ∧ Params_Image b = Image_Alias image.
Proof.
  unfold validateBootstrapParams. cbv zeta. intros H.
  repeat (apply bind_Ok in H as (? & ?%fail_if_Ok & H)). apply bind_Ok in H as (tenant & _ & H). apply bind_Ok in H as (? & _ & H).
  apply bind_Ok in H as (image & Himage & H%fail_if_Ok). bool_hyps. by split_and!; [..|exists image].
Qed.

(** What Incus shows of a worker that was bound: its new keys over its profiles. *)
Definition rebound (f : InstanceFull) (config profile : gmap string string) : InstanceFull := {|
  Full_Instance := {| Instance_Name := name_of f; Instance_Type := Instance_Type (Full_Instance f); Instance_Status := Instance_Status (Full_Instance f);
    Profiles := Profiles (Full_Instance f); ExpandedConfig := config ∪ profile; Location := Location (Full_Instance f) |};
  Full_Architecture := Full_Architecture f; Full_Config := config; Full_Status := Full_Status f |}.

Lemma bound_keys f profile b metadata key :
  ExpandedConfig (Full_Instance f) = Full_Config f ∪ profile → jobMetadata l cfg b = Ok metadata →
  (∀ v, metadata !! key = Some v → key_of (rebound f (bound_config f metadata) profile) key = v) ∧
  (metadata !! key = None → key ≠ userDataKey → key ≠ warmReadyKey → key_of (rebound f (bound_config f metadata) profile) key = key_of f key).
Proof.
  intros Hexp Hm. unfold key_of, config_of, rebound, bound_config. cbn [Full_Instance ExpandedConfig]. rewrite Hexp. split.
  - intros v Hk. by rewrite (lookup_union_Some_l _ _ _ v) by (by apply lookup_union_Some_l).
  - intros Hk Hu Hw. rewrite !lookup_union. rewrite Hk, !lookup_delete_ne by done. by destruct (Full_Config f !! key).
Qed.

Lemma metadata_lookup b pool image repository key v : (key, v) ∈ metadata_of l b pool image repository →
  (list_to_map (metadata_of l b pool image repository) : gmap string string) !! key = Some v.
Proof. clear api_not_found api_mentions w cw cfg. intros Hin. apply elem_of_list_to_map_1; [|done]. unfold metadata_of. simpl. repeat (constructor; [set_solver|]). constructor. Qed.

(** An instance that passes for one of this request and is counted as its worker. *)
Definition recognized (b : BootstrapParams) (f : InstanceFull) : Prop :=
  validateExistingInstance l cfg f b = Ok tt ∧
  ∃ pool image, find_pool (platform (front l)) (Flavor (base b)) = Some pool ∧ workerImages (front l) !! Flavor (base b) = Some image ∧
    observe_managed (front l) (Full_Instance f) (Flavor (base b)) =
      Ok (pool_allocation (name_of f) (front_controllerID (front l)) (Bootstrap_PoolID (base b)) pool (Flavor (base b)) (Fingerprint image)
            StateCreated (Bootstrap_Name (base b)) (Location (Full_Instance f))).

Section roundtrip.
Context (b : BootstrapParams) (Hv : FleetConfig.Validate (platform (front l)) = None) (Hreq : validateBootstrapParams l cfg b = Ok tt).

Lemma recognized_keys f pool image repository :
  find_pool (platform (front l)) (Flavor (base b)) = Some pool → workerImagePolicy l (Flavor (base b)) = Ok image →
  runtimeRepositoryIdentity cfg (RepoURL (base b)) = Ok repository → (∀ key v, (key, v) ∈ metadata_of l b pool image repository → key_of f key = v) →
  (∀ key v, (key, v) ∈ isolation image → key_of f key = v) → Instance_Type (Full_Instance f) = (managedSecurityContract image).1 →
  exact_profile f (Flavor (base b)) = true → recognized b f.
Proof.
  intros Hp Hi Hr Hk Hiso Ht Hprof. destruct (validated_request _ Hreq) as (Hos & Harch & _). split; [by eapply job_adopted|].
  exists pool, image. split; [done|]. split; [by apply (workerImagePolicy_Ok l _ image)|]. by eapply job_counted.
Qed.

(** The keys of a cold worker but its cloud-config. *)
Lemma cold_keys (direct : bool) post pool image userData metadata key :
  Post_Config post = create_config l pool image userData metadata → key ≠ userDataKey →
  Post_Config (if direct then without_user_data post else post) !! key = (isolation_config l pool image ∪ metadata) !! key.
Proof.
  intros Hc Hne. assert (create_config l pool image userData metadata !! key = (isolation_config l pool image ∪ metadata) !! key) as He.
  { unfold create_config. rewrite !lookup_union. by rewrite lookup_insert_ne by done. }
  destruct direct; cbn; rewrite Hc; [by rewrite lookup_delete_ne|done].
Qed.

Lemma cold_recognized h h' post image profile location (direct : bool) :
  validateWorkerImageMappings (platform (front l)) (workerImages (front l)) = Ok tt → IncludeDefaultProfile l = false →
  getCreateInstanceArgs w l cfg b h = (h', Ok post) → workerImages (front l) !! Flavor (base b) = Some image → profile_fits l image profile →
  recognized b (shown post (Post_Config (if direct then without_user_data post else post)) profile location).
Proof.
  intros Hmap Hdef Hargs Himg Hprof.
  apply getCreateInstanceArgs_Ok in Hargs as (_ & pool & image' & userData & metadata & Hp & Hi & Hm & Hc & _ & Hty & Hpr & Harch).
  destruct (workerImagePolicy_Ok _ _ _ Hi) as [Himg' Ht]. assert (image' = image) as -> by congruence. rewrite Hdef in Hpr.
  destruct (jobMetadata_Ok _ _ _ _ Hm) as (pool' & image'' & repository & Hp' & Hi' & Hr & ->). assert (pool' = pool ∧ image'' = image) as [-> ->] by (split; congruence).
  pose proof (λ key, cold_keys direct _ _ _ _ _ key Hc) as Hconfig. apply (recognized_keys _ pool image repository); try done.
  - intros key v Hin. apply own_key. destruct (metadata_keys_job _ _ _ _ _ _ Hm (metadata_lookup _ _ _ _ _ _ Hin)) as (Hu & _ & Hiso).
    rewrite Hconfig, lookup_union_r by done. by apply metadata_lookup.
  - intros key v. apply (isolation_shown l pool image); try done; [by eapply mapped_variant| | |].
    + intros k u Hk. rewrite Hconfig; [by apply lookup_union_Some_l|]. intros ->. unfold isolation_config in Hk. by destruct (bool_decide _).
    + rewrite Hconfig by done. unfold isolation_config. by destruct (bool_decide _).
    + intros Hvm. rewrite Hconfig by done. unfold isolation_config. by rewrite Hvm.
  - cbn. rewrite Hty. unfold managedSecurityContract. by destruct Ht as [-> | ->].
  - assert (Post_Architecture post = "x86_64") as Ha by (destruct (validated_request _ Hreq) as (_ & Hos & _); rewrite Hos in Harch; by injection Harch as <-).
    unfold exact_profile. cbn. by rewrite Hpr, Ha, !bool_decide_eq_true_2.
Qed.

Lemma isolation_apart pool image repository key v :
  workerImagePolicy l (Flavor (base b)) = Ok image → (key, v) ∈ isolation image →
  (list_to_map (metadata_of l b pool image repository) : gmap string string) !! key = None ∧ key ≠ userDataKey ∧ key ≠ warmReadyKey.
Proof.
  intros Hi Hin. destruct (workerImagePolicy_Ok _ _ _ Hi) as [_ [Ht|Ht]]; revert Hin; [rewrite (isolation_container _ Ht)|rewrite (isolation_vm _ Ht)];
    rewrite !elem_of_cons, elem_of_nil; intros Hin; destruct_or! Hin; try done; injection Hin as -> _; by split_and!.
Qed.

Lemma bound_recognized f metadata profile :
  validateWarmInstance l f b = Ok tt → jobMetadata l cfg b = Ok metadata → ExpandedConfig (Full_Instance f) = Full_Config f ∪ profile →
  recognized b (rebound f (bound_config f metadata) profile).
Proof.
  intros Hwarm Hm Hexp. unfold validateWarmInstance in Hwarm. apply wrap_err_Ok in Hwarm.
  destruct (jobMetadata_Ok _ _ _ _ Hm) as (pool & image & repository & Hp & Hi & Hr & Heq).
  unfold validateWarmReadyMetadata in Hwarm. rewrite Hp, Hi in Hwarm. cbn [mbind result_bind] in Hwarm.
  apply bind_Ok in Hwarm as ([] & _ & H). apply bind_Ok in H as ([] & Hchecks & H). apply bind_Ok in H as ([] & Htype%fail_if_Ok & Hprof%fail_if_Ok).
  rewrite forM_Ok in Hchecks. bool_hyps. apply (recognized_keys _ pool image repository); try done.
  - intros key v Hin%metadata_lookup. subst metadata. by apply (bound_keys f profile b _ key Hexp Hm).
  - intros key v Hin. destruct (isolation_apart pool image repository key v Hi Hin) as (Hn & Hu & Hw). rewrite <-Heq in Hn.
    rewrite (proj2 (bound_keys f profile b _ key Hexp Hm)) by done.
    specialize (Hchecks (key, v)). unfold check_key in Hchecks. cbn [fst snd] in Hchecks.
    assert ((key, v) ∈ warm_keys l pool (Flavor (base b)) ++ isolation image) as Hin' by (apply elem_of_app; by right).
    apply Hchecks, fail_if_Ok in Hin'. by bool_hyps.
Qed.
End roundtrip.

(** C36: What a create leaves is recognized when it is retried. A cold worker that was
    created from the arguments of a validated request, with or without its
    cloud-config, and a ready warm worker that was bound to the job both pass the
    check on an existing instance of this very request, and the inventory counts
    them as a created worker of the pool that serves the job. *)
Theorem job_identity_roundtrip b :
  FleetConfig.Validate (platform (front l)) = None → validateWorkerImageMappings (platform (front l)) (workerImages (front l)) = Ok tt →
  IncludeDefaultProfile l = false → validateBootstrapParams l cfg b = Ok tt →
  (∀ h h' post image profile location (direct : bool),
     getCreateInstanceArgs w l cfg b h = (h', Ok post) → workerImages (front l) !! Flavor (base b) = Some image → profile_fits l image profile →
     recognized b (shown post (Post_Config (if direct then without_user_data post else post)) profile location)) ∧
  (∀ f metadata profile, validateWarmInstance l f b = Ok tt → jobMetadata l cfg b = Ok metadata →
     ExpandedConfig (Full_Instance f) = Full_Config f ∪ profile → recognized b (rebound f (bound_config f metadata) profile)).
Proof. intros. split; intros; [by eapply cold_recognized|by apply bound_recognized]. Qed.

(** ** Deliveries of claims *)

(** A write that succeeds at last is the newest step, and was answered. *)
Lemma keep_writing_last n what stop name e h h' :
  keep_writing w cw n what stop name (call e (λ h, says w h e)) h = (h', Ok tt) → ∃ rest, h' = e :: rest ∧ h `suffix_of` rest ∧ says w rest e = Ok tt.
Proof.
  revert h. induction n as [|n IH]; intros h H; cbn [keep_writing] in H.
  all: apply Prog_bind_Ok in H as (h1 & outcome & Hc%attempt_Ok & H); unfold call in Hc; injection Hc as <- Hc; destruct outcome as [[]|er];
    [apply mret_Ok in H as [-> _]; by exists h|].
  all: apply Prog_bind_Ok in H as (h2 & stopped & Hs & H); destruct stopped; [by apply lift_Ok in H as [_ ?]|].
  - by apply lift_Ok in H as [_ ?].
  - destruct (cancelled cw h2); [by apply lift_Ok in H as [_ ?]|]. apply IH in H as (rest & -> & Hsub & Hok). exists rest. split_and!; [done| |done].
    destruct (stopped_guest_free w name (e :: h)) as (new & Hnew & _). rewrite Hs in Hnew. simpl in Hnew. subst h2.
    transitivity (new ++ e :: h); [|done]. apply suffix_app_r. by apply suffix_cons_r.
Qed.

(** The broker confirmed a new claim of the instance, with the endpoint and the roots
    that the claim names: a step after [h] and before [h']. *)
Record recorded (name : string) (b : BootstrapParams) (h h' : list Event) (text : string) : Prop := {
  record_claim : ∃ role token endpoint ca contract random rest,
    cacheClaimConfigured l cfg (base b) = Ok (role, true) ∧
    asked h random LoadClaimContract contract ∧ claim_contract cw contract = Ok (endpoint, ca) ∧
    asked h rest RandomToken random ∧ random_token cw random = Ok token ∧
    asked h h' (AddClaim name (Flavor (base b)) role token) rest ∧ says w rest (AddClaim name (Flavor (base b)) role token) = Ok tt ∧
    text = encode_claim (worker_claim name (Bootstrap_Name (base b)) endpoint token (claim_roots ca (CACertBundle b)));
}.

(** No claim was recorded for certain: the broker was not asked, or its journal
    answered with an error, and the guest was not written to. *)
Definition unrecorded (name : string) (b : BootstrapParams) (h h' : list Event) : Prop :=
  ∃ new, h' = new ++ h ∧ Forall harmless new ∧
    ((∀ n f role token, AddClaim n f role token ∉ new) ∨
     ∃ role token rest e, h' = AddClaim name (Flavor (base b)) role token :: rest ∧ says w rest (AddClaim name (Flavor (base b)) role token) = Err e).

Ltac not_added := intros ???? Hin; repeat (apply elem_of_cons in Hin as [Hin|Hin]; [discriminate Hin|]); by apply elem_of_nil in Hin.

Lemma renderCacheClaim_cases name b h :
  runs (renderCacheClaim w cw l cfg name b) h (λ new rendered,
    match rendered with
    | Ok None => new = []
    | Ok (Some text) => recorded name b h (new ++ h) text
    | Err _ => unrecorded name b h (new ++ h)
    end).
Proof.
  assert (∀ new, Forall harmless new → (∀ n f role token, AddClaim n f role token ∉ new) → unrecorded name b h (new ++ h)) as Hun.
  { intros new Hn Ha. exists new. split_and!; [done|done|by left]. }
  unfold renderCacheClaim. step. destruct (cacheClaimConfigured l cfg (base b)) as [[role enabled]|e] eqn:Hconf; [|apply (Hun []); [constructor|not_added]].
  destruct enabled; cbn [negb]; [|by step]. step. destruct (claim_contract cw h) as [[endpoint ca]|e] eqn:Hcontract; cbn [wrap_err]; cycle 1.
  { apply (Hun [LoadClaimContract]); [by repeat constructor|]. not_added. }
  step. destruct (ValidateClaimEndpoint endpoint) as [[]|e]; cycle 1. { apply (Hun [LoadClaimContract]); [by repeat constructor|]. not_added. }
  step. destruct (random_token cw _) as [token|e] eqn:Htoken; cbn [wrap_err]; cycle 1. { apply (Hun [RandomToken; LoadClaimContract]); [by repeat constructor|]. not_added. }
  step. destruct (says w _ (AddClaim _ _ _ _)) as [[]|e] eqn:Hadd; cbn [wrap_err].
  - step. split. exists role, token, endpoint, ca, h, (LoadClaimContract :: h), (RandomToken :: LoadClaimContract :: h).
    split_and!; try done; split; try done; by repeat apply suffix_cons_r.
  - exists [AddClaim name (Flavor (base b)) role token; RandomToken; LoadClaimContract].
    split_and!; [done|by repeat constructor|right]. by exists role, token, (RandomToken :: LoadClaimContract :: h), e.
Qed.


(** *** A delivery with a CA bundle is not recognized *)

(** What the texts of the standard library do: JSON (here of claims in the schema
    that is written) and base64 read back what they
    wrote, and different bytes have different base64. *)
Class ClaimTextLaws : Prop := {
  decode_encode c : WClaim_SchemaVersion c = 2 → decode_claim (encode_claim c) = Ok (c, false);
  schema_encode c : WClaim_SchemaVersion c = 2 → schema_version (encode_claim c) = Some 2;
  raw_roundtrip token : RawURL_Decode (RawURL_Encode token) = Some token;
  std_inj : Inj (=) (=) Std_Encode;
}.

Definition root_file (body : string) : GuestFile := {|
  guest_body := Ok body; guest_close := Ok tt; guest_meta := Some {| Meta_Type := "file"; Meta_Mode := 256; Meta_UID := 0; Meta_GID := 0 |} |}.

(** A guest that holds what [injectColdCacheAssignment] wrote, not yet used, while the
    contract of the broker is what it was then. *)
Record delivered (name : string) (b : BootstrapParams) (endpoint ca token : string) : Prop := {
  unused h : ∃ e, reads_file cw h name cacheConsumedPath = Err e ∧ isNotFoundError api_not_found e = true;
  marked_ready h : reads_file cw h name cacheReadyPath = Ok (root_file "");
  assignment_written h : reads_file cw h name cacheAssignmentPath =
    Ok (root_file (encode_claim (worker_claim name (Bootstrap_Name (base b)) endpoint token (claim_roots ca (CACertBundle b)))));
  contract_kept h : claim_contract cw h = Ok (endpoint, ca);
}.

Lemma claim_roots_longer ca bundle : bundle ≠ "" → claim_roots ca bundle ≠ ca.
Proof.
  intros Hb Heq. unfold claim_roots in Heq. rewrite bool_decide_eq_false_2 in Heq by done. apply (f_equal String.length) in Heq.
  assert (0 < String.length bundle)%nat by (destruct bundle; [done|simpl; lia]).
  destruct (_ && _); rewrite ?length_app_string in Heq; lia.
Qed.

(** The check of the delivery: the claim was written with the broker's root and the
    bundle, and is compared with the broker's root alone. *)
Lemma bundled_delivery_drifted {Hlaws : ClaimTextLaws} name b role image endpoint ca token h :
  delivered name b endpoint ca token → CACertBundle b ≠ "" →
  cacheClaimConfigured l cfg (base b) = Ok (role, true) → workerImagePolicy l (Flavor (base b)) = Ok image → says w h GetCLI = Ok tt →
  let claim := worker_claim name (Bootstrap_Name (base b)) endpoint token (claim_roots ca (CACertBundle b)) in
  parseWorkerCacheClaim (encode_claim claim) = Ok claim → String.length token = ClaimTokenBytes →
  (String.length (encode_claim claim) ≤ MaximumConfigBytes)%nat →
  (coldCacheDeliveryPresent api_not_found w cw l cfg name b h).2 = Err (Errorf "ready cache claim endpoint or trust root drifted" []).
Proof.
  intros Hd Hbundle Hconf Himage Hcli claim Hparse Htoken Hsize. destruct Hd as [Hunused Hready Hwritten Hcontract].
  unfold coldCacheDeliveryPresent, read_file, getCLI, attempt, wrapping, lift, call, mret, Prog_ret, mbind, Prog_bind. rewrite Hconf. cbn [negb]. rewrite Himage, Hcli.
  destruct (Hunused (GetCLI :: h)) as (e & -> & He). rewrite He. cbn [negb]. rewrite Hready.
  assert (ready_ok (root_file "") = true) as -> by reflexivity. cbn [negb fail_if]. rewrite Hwritten. fold claim. cbn [wrap_err].
  assert (assignment_body image (root_file (encode_claim claim)) = Ok (encode_claim claim)) as ->.
  { unfold assignment_body, root_file. cbn [guest_body guest_close guest_meta]. rewrite (proj2 (Nat.ltb_ge _ _) Hsize). reflexivity. }
  unfold assignment_in_place. rewrite schema_encode by done. cbn [Z.eqb Pos.eqb].
  unfold claim_in_place. rewrite Hparse. unfold mbind, Prog_bind, lift.
  cbn [claim worker_claim WClaim_InstanceName WClaim_RunnerName WClaim_Token WClaim_Endpoint WClaim_CAPEMB64].
  rewrite !bool_decide_eq_true_2 by done. cbn [negb orb fail_if]. rewrite raw_roundtrip, Htoken, Nat.eqb_refl. cbn [negb fail_if].
  unfold wrapping, call. rewrite Hcontract. cbn [wrap_err]. rewrite bool_decide_eq_true_2 by done.
  rewrite bool_decide_eq_false_2; [reflexivity|]. pose proof std_inj as Hinj. intros Heq%(inj Std_Encode). by eapply claim_roots_longer.
Qed.

(** A request that GARM repeats after its delivery: it is accepted as before, its
    worker runs under its name and is the controller's own, and Incus, the journal and
    the guest answer; the claim that was delivered is well formed. *)
Record repeated (asked b : BootstrapParams) (specs : extraSpecs) (f : InstanceFull) (endpoint ca token : string) : Prop := {
  repeat_narrowed h : (narrowBootstrapRepository cw cfg asked h).2 = Ok b;
  repeat_valid : validateBootstrapParams l cfg b = Ok tt;
  repeat_specs : parseExtraSpecsFromBootstrapParams b = Ok specs ∧ validateNDDevExtraSpecs b specs = Ok tt;
  repeat_found h : finds w h (Bootstrap_Name (base b)) = Ok f;
  repeat_owned : key_of f controllerIDKeyName = front_controllerID (front l);
  repeat_existing : validateExistingInstance l cfg f b = Ok tt;
  repeat_running : Full_Status f = Some "Running";
  repeat_client h : says w h GetCLI = Ok tt;
  repeat_journal h : says w h ReconcileJournal = Ok tt;
  repeat_cache : ∃ role, cacheClaimConfigured l cfg (base b) = Ok (role, true);
  repeat_delivered : delivered (Bootstrap_Name (base b)) b endpoint ca token;
  repeat_token : String.length token = ClaimTokenBytes;
  repeat_claim : let claim := worker_claim (Bootstrap_Name (base b)) (Bootstrap_Name (base b)) endpoint token (claim_roots ca (CACertBundle b)) in
    parseWorkerCacheClaim (encode_claim claim) = Ok claim ∧ (String.length (encode_claim claim) ≤ MaximumConfigBytes)%nat;
}.


End claims.
