(* ===== verification/IncusCreateExample.v ===== *)
(** * A job that gets a worker

    The example fleet creates a cold worker for a job, delivers its cache claim, and is
    asked again: concrete runs on which the theorems are applied. *)

From S2P Require Import Prelude GoText StateFile Domain QueueIntent Admission ProviderJournal ProviderRetry ProviderAdmission HostProbe FleetConfig FleetConfigFacts.
From S2P Require Import CacheNamespace CacheBroker Tenant ProviderHost NDDevAdmission NDDevAdmissionFacts IncusProvider IncusProviderFacts IncusProviderClaims.
From S2P Require Import WarmRoundtrip CacheDelivery IncusCreate IncusCreateFacts IncusCreateClaims.

Local Open Scope Z_scope.
Local Open Scope go_scope.

(** ** Texts *)

(** A text whose end is marked: every byte is announced. *)
Fixpoint put (s rest : string) : string := match s with EmptyString => String "." rest | String c s => String "+" (String c (put s rest)) end.
Fixpoint get (s : string) : option (string * string) :=
  match s with
  | String mark rest =>
      if bool_decide (mark = "."%char) then Some (EmptyString, rest)
      else match rest with String c rest => '(v, rest) ← get rest; Some (String c v, rest) | EmptyString => None end
  | EmptyString => None
  end.

Lemma get_put s rest : get (put s rest) = Some (s, rest).
Proof. induction s as [|c s IH]; [done|]. simpl. by rewrite IH. Qed.

Definition put_claim (c : workerCacheClaim) : string :=
  put (WClaim_InstanceName c) (put (WClaim_RunnerName c) (put (WClaim_Endpoint c) (put (WClaim_Token c) (put (WClaim_CAPEMB64 c) EmptyString)))).
Definition get_claim (s : string) : option workerCacheClaim :=
  '(instance, s) ← get s; '(runner, s) ← get s; '(endpoint, s) ← get s; '(token, s) ← get s; '(ca, _) ← get s;
  Some {| WClaim_SchemaVersion := 2; WClaim_InstanceName := instance; WClaim_RunnerName := runner; WClaim_Endpoint := endpoint; WClaim_Token := token;
          WClaim_CAPEMB64 := ca |}.

#[local] Instance example_sha : Hashing := {| HashToken := Sha256.hex_sum; claimSize _ := 900 |}.
#[local] Instance example_urls : WebText := {|
  web_Parse s := if bool_decide (s = "https://10.0.0.1:9443/api/v1/cache/claim")
    then Some {| Web_Scheme := "https"; Web_Host := "10.0.0.1:9443"; Web_HasUser := false; Web_Path := "/api/v1/cache/claim"; Web_RawQuery := ""; Web_Fragment := "" |}
    else None;
  web_ParseRequestURI s := if HasPrefix s github
    then Some {| Web_Scheme := "https"; Web_Host := "github.com"; Web_HasUser := false; Web_Path := drop_bytes 18 s; Web_RawQuery := ""; Web_Fragment := "" |} else None;
  SplitHostPort s := if String.prefix "10.0.0.1:" s then Some ("10.0.0.1", drop_bytes 9 s) else None;
  ParseIP s := Some {| IsUnspecified := false; IsMulticast := false |} |}.
#[local] Instance example_base64 : Encodings := {| RawURL_Decode s := Some s; Std_Encode s := s |}.
#[local] Instance example_json : ClaimText := {|
  schema_version s := (λ _, 2) <$> get_claim s;
  decode_claim s := match get_claim s with Some c => Ok (c, false) | None => Err (Errorf "invalid character" []) end;
  decode_assignment s := Err (Errorf "invalid character" []); encode_claim := put_claim; RawURL_Encode s := s; Std_Decode s := Some s |}.

Definition specs1 (jit : string) : extraSpecs := {|
  ExtraPackages := []; DisableUpdates := true; EnableBootDebug := false; DirectJIT := negb (bool_decide (jit = "")); EncodedJITConfig := jit;
  PreInstallScripts := []; ExtraContext := []; RunnerInstallTemplate := "" |}.

#[local] Instance example_texts : CreateText := {|
  EqualFold a b := bool_decide (ToLower a = ToLower b); ipv4_text s := bool_decide (s = "10.113.0.7"); valid_pem _ := true; OSToOSType _ := "linux";
  retry_exhausted e := e; schema_check _ := Ok tt; decode_specs s := Ok (specs1 s);
  decode_jit_files s := Some (list_to_map [(".runner", "r"); (".credentials", "c"); (".credentials_rsaparams", "k")]);
  decode_phase s := Some {| Phase_SchemaVersion := 1; Phase_Name := "assignment-script-started"; Phase_UnixNS := 7 |};
  tool_fetch _ := Ok {| Tool_Filename := "actions-runner-linux-x64-2.321.0.tar.gz";
    Tool_DownloadURL := "https://github.com/actions/runner/releases/download/v2.321.0/actions-runner-linux-x64-2.321.0.tar.gz" |};
  cloud_config _ _ _ := Ok "#cloud-config" |}.

#[local] Instance example_laws : ClaimTextLaws.
Proof.
  assert (∀ c, WClaim_SchemaVersion c = 2 → get_claim (put_claim c) = Some c) as H.
  { intros [v i r e t ca] Hv. simpl in Hv. subst v. unfold get_claim, put_claim. simpl. by rewrite !get_put; repeat (simpl; rewrite get_put). }
  split.
  - intros c Hv. simpl. by rewrite H.
  - intros c Hv. simpl. by rewrite H.
  - done.
  - by intros a b.
Qed.

(** ** The fleet and the request *)

Definition fingerprint1 : string := "00000000000000000000000000000000000000000000000000000000000000f2".
Definition image1 : WorkerImage := {|
  Image_Alias := "gha-standard"; Fingerprint := fingerprint1; PreviousFingerprint := ""; Variant := "standard";
  Image_InstanceType := IncusImageContainer; RunnerUID := 1001; RunnerGID := 1001 |}.
Definition front1 : nddevAdmission := {|
  platform := config0; front_controllerID := "ctl"; workerImages := {[ "standard" := image1 ]}; PreviousProviderIdentities := [];
  build := release0; pressurePolicy := pressure0;
  controller := {| ControllerID := "ctl"; Policy := reservePolicy config0; LeaseTTL := 5 * Minute |}; diagnosticsMaxBytes := 1000 |}.
Definition provider1 : Incus_Provider := {| front := front1; SecureBoot := true; IncludeDefaultProfile := false; placementLocked := true |}.
Definition create_config1 : CreateConfig := {|
  cacheClaim := true; AllowedGitHubAccounts := ["Acme"]; AllowedGitHubRepositories := []; WorkerGatewayURL := "https://10.0.0.1:9443" |}.

Definition request1 (jit bundle : string) : BootstrapParams := {|
  base := {| Bootstrap_Name := "garm-runner-9"; RepoURL := "https://github.com/acme/api"; Flavor := "standard"; Bootstrap_PoolID := "12" |};
  CallbackURL := "https://10.0.0.1:9443/api/v1/callbacks"; MetadataURL := "https://10.0.0.1:9443/api/v1/metadata"; InstanceToken := "token"; GitHubRunnerGroup := "Default";
  OSType := "linux"; OSArch := "amd64"; JitConfigEnabled := true; Params_Image := "gha-standard"; CACertBundle := bundle; ExtraSpecs := Some jit |}.

(** ** A world that remembers what it was told *)

Definition created_post (h : list Event) (name : string) : option InstancesPost :=
  head (omap (λ e, match e with CreateCall post => if bool_decide (Post_Name post = name) then Some post else None | _ => None end) h).

Definition written (h : list Event) (name path : string) : option FileBody :=
  head (omap (λ e, match e with WriteFile n p body _ => if bool_decide (n = name ∧ p = path) then Some body else None | _ => None end) h).

Definition admitted1 : Decision := {|
  Decision_Admitted := true; DecisionReason := ReasonAdmitted; Admission.Pool := "standard"; RequiredCPUReserve := 2;
  RequiredMemoryReserve := 1024; RemainingCPUUnits := 1; RemainingCPUAllowanceUnits := 1; RemainingMemoryMiB := 1; RemainingAvailableMiB := 1 |}.

Definition world1 : Answers := {|
  says := λ _ _, Ok tt;
  names_ := λ _ e, match e with ResolveIdentity identifier => Ok identifier | _ => Ok "ffff" end;
  finds := λ h name, match created_post h name with Some post => Ok (shown post (Post_Config post) ∅ "runner-2") | None => Err ErrNotFound end;
  lists := λ _, Ok []; yields := λ _, Ok false; decides := λ _ _, Ok admitted1; profile_names := λ _, Ok ["default"; "standard"];
  resolves := λ _ _, Ok (Some {| Image_Fingerprint := fingerprint1; Image_Variant := "standard" |});
  evidence := λ _ _, Err ErrNotFound; polls := λ _, 3%nat; preempts := λ _ _, Ok [] |}.

Definition token1 : string := "0123456789abcdef0123456789abcdef".
Definition endpoint1 : string := "https://10.0.0.1:9443/api/v1/cache/claim".

Definition runner_file (body : string) : GuestFile := {|
  guest_body := Ok body; guest_close := Ok tt; guest_meta := Some {| Meta_Type := "file"; Meta_Mode := 384; Meta_UID := 1001; Meta_GID := 1001 |} |}.

(** The guest keeps what was written; [consumed] is what the hook left, if it ran. *)
Definition answers1 (consumed : option string) : CreateAnswers := {|
  repository_of := λ _ _, Err ErrNotFound; claims_warm := λ _ _, Ok no_claim;
  admits := λ _ _, Ok {| Result_Decision := admitted1; PreemptedWarmWorkers := [] |};
  claim_contract := λ _, Ok (endpoint1, "cache root"); random_token := λ _, Ok token1;
  verifies := λ _ name token, Ok (fresh_claim name "standard" "trusted-writer" token 0);
  reads_file := λ h name path,
    if bool_decide (path = cacheConsumedPath) then match consumed with Some body => Ok (runner_file body) | None => Err ErrNotFound end
    else if bool_decide (path = directJITPhasePath) then
      match written h name (warmAssignmentPath "garm-runner-9") with Some _ => Ok (runner_file "{}") | None => Err ErrNotFound end
    else match written h name path with Some (Plain body) => Ok (root_file body) | _ => Err ErrNotFound end;
  turns := λ _, 3%nat; cancelled := λ _, None; probe_due := λ _, true; addresses := λ _ _, [("link", "fe80::1"); ("global", "10.113.0.7")] |}.

Abbreviation none := (λ _ : error, false).
Abbreviation mute := (λ (_ : string) (_ : error), false).
Definition run1 (consumed : option string) (jit bundle : string) (h : list Event) : list Event * result ProviderInstance :=
  CreateInstance none mute world1 (answers1 consumed) provider1 create_config1 (request1 jit bundle) h.

(** A cold worker with a direct assignment, and one with a cloud-config. *)
Example cold_direct : (λ p, (PI_Name p, PI_ProviderID p, PI_Addresses p)) <$> (match (run1 None "jit" "" []).2 with Ok p => Some p | Err _ => None end)
  = Some ("garm-runner-9", "garm-runner-9", ["10.113.0.7"]).
Proof. vm_compute. reflexivity. Qed.

Example cold_cloud_config : (λ p, (PI_Name p, PI_Status p)) <$> (match (run1 None "" "" []).2 with Ok p => Some p | Err _ => None end)
  = Some ("garm-runner-9", "running").
Proof. vm_compute. reflexivity. Qed.

(** ** Asked again *)

(** A create that GARM repeats finds its worker, and its claim in place. *)
Example repeated_plain : is_ok (run1 None "" "" (run1 None "" "" []).1).2 = true.
Proof. vm_compute. reflexivity. Qed.

(** With a CA bundle it is refused: the claim was written with both roots. *)
Example repeated_with_bundle :
  is_ok (run1 None "" "bundle" []).2 = true ∧
  (run1 None "" "bundle" (run1 None "" "bundle" []).1).2 = Err (Errorf "ready cache claim endpoint or trust root drifted" []).
Proof. vm_compute. split; reflexivity. Qed.

(** The hook writes the identity of the broker's delivery; the provider expects its
    own, which nothing writes any more, so a worker that has used its claim is
    refused too. *)
Example repeated_after_use :
  let used := job_delivery_id "garm-runner-9" "acme/api/trust/trusted" +:+ newline in
  (run1 (Some used) "" "" (run1 None "" "" []).1).2 = Err (Errorf "cache delivery consumption evidence is invalid" []).
Proof. vm_compute. reflexivity. Qed.

(** A platform may declare a trusted pool with isolated writes: it is valid, and no
    worker of the pool can be created. *)
Definition isolated_pool : Pool := pool0 "standard" "trusted" 3 4096 1 (caps "repository" "public-internet" "isolated" []).
Definition isolated_platform : FleetConfig.Config := {|
  Config_SchemaVersion := 2; Config_Platform := Config_Platform config0; Config_ControlPlane := Config_ControlPlane config0;
  Config_Incus := incus0; Config_Guardrails := Config_Guardrails config0; Config_HostReserve := Config_HostReserve config0;
  Pressure := pressure0; Config_Cache := Config_Cache config0; Backends := Backends config0; Pools := [isolated_pool; untrusted_pool; release_pool] |}.

Example valid_pool_without_cache_role :
  FleetConfig.Validate isolated_platform = None ∧ find_pool isolated_platform "standard" = Some isolated_pool ∧ is_ok (cacheRoleForPool isolated_pool) = false.
Proof. vm_compute. done. Qed.

(** ** The theorems on these runs *)

Definition cold_run : list Event := (run1 None "jit" "" []).1.
Definition launch1 : InstancesPost := default (Build_InstancesPost "" "" "" [] ∅ "") (created_post cold_run "garm-runner-9").

Fixpoint launch_at (h : list Event) : nat := match h with CreateCall _ :: _ => 0 | _ :: h => S (launch_at h) | [] => 0 end.

Lemma cold_run_launches :
  cold_run = take (launch_at cold_run) cold_run ++ CreateCall launch1 :: drop (S (launch_at cold_run)) cold_run.
Proof. vm_compute. reflexivity. Qed.

Lemma create_steps_justified_witness :
  free (CreateCall launch1) ∨
  ∃ b, accepted (answers1 None) provider1 create_config1 (request1 "jit" "") b ∧
    justified world1 (answers1 None) provider1 create_config1 b (drop (S (launch_at cold_run)) cold_run) (CreateCall launch1).
Proof.
  apply (create_steps_justified none mute world1 (answers1 None) provider1 create_config1 (request1 "jit" "")
           (take (launch_at cold_run) cold_run) (CreateCall launch1) (drop (S (launch_at cold_run)) cold_run) (run1 None "jit" "" []).2).
  rewrite <-cold_run_launches. unfold cold_run. apply surjective_pairing.
Defined.

Definition args1 : InstancesPost := match (getCreateInstanceArgs world1 provider1 create_config1 (request1 "jit" "") []).2 with
  | Ok post => post | Err _ => Build_InstancesPost "" "" "" [] ∅ "" end.

Lemma job_identity_roundtrip_witness :
  validateExistingInstance provider1 create_config1 (shown args1 (Post_Config (without_user_data args1)) ∅ "runner-2") (request1 "jit" "") = Ok tt.
Proof.
  destruct (job_identity_roundtrip world1 provider1 create_config1 (request1 "jit" "")) as [Hcold _];
    [apply config0_valid|vm_compute; reflexivity|reflexivity|vm_compute; reflexivity|].
  destruct (Hcold [] (getCreateInstanceArgs world1 provider1 create_config1 (request1 "jit" "") []).1 args1 image1 ∅ "runner-2" true) as [Hexisting _];
    [vm_compute; reflexivity|reflexivity|reflexivity|]. exact Hexisting.
Defined.

Definition delivery1 : list Event * result unit := injectColdCacheAssignment world1 (answers1 None) provider1 create_config1 "garm-runner-9" (request1 "" "") [].


(** A guest that refuses the mark: the claim is withdrawn last. *)
Definition refusing1 : Answers := {|
  says := λ _ e, match e with WriteFile _ path _ _ => if bool_decide (path = cacheReadyPath) then Err ErrNotFound else Ok tt | _ => Ok tt end;
  names_ := names_ world1; finds := finds world1; lists := lists world1; yields := yields world1; decides := decides world1;
  profile_names := profile_names world1; resolves := resolves world1; evidence := evidence world1; polls := polls world1; preempts := preempts world1 |}.
Example refused_mark_withdraws :
  let '(h, r) := injectColdCacheAssignment refusing1 (answers1 None) provider1 create_config1 "garm-runner-9" (request1 "" "") [] in
  is_ok r = false ∧ head h = Some (RemoveClaim "garm-runner-9").
Proof. vm_compute. split; reflexivity. Qed.

(** The guest that holds the delivery of a request with a bundle. *)
Definition claim1 : workerCacheClaim := worker_claim "garm-runner-9" "garm-runner-9" endpoint1 token1 (claim_roots "cache root" "bundle").
Definition holding1 : CreateAnswers := {|
  repository_of := repository_of (answers1 None); claims_warm := claims_warm (answers1 None); admits := admits (answers1 None);
  claim_contract := claim_contract (answers1 None); random_token := random_token (answers1 None); verifies := verifies (answers1 None);
  reads_file := λ _ _ path, if bool_decide (path = cacheConsumedPath) then Err ErrNotFound else if bool_decide (path = cacheReadyPath) then Ok (root_file "")
                            else Ok (root_file (encode_claim claim1));
  turns := λ _, 3%nat; cancelled := λ _, None; probe_due := λ _, true; addresses := λ _ _, [] |}.

(** The worker that the first create left, as Incus goes on showing it. *)
Definition bundled_post : InstancesPost :=
  match (getCreateInstanceArgs world1 provider1 create_config1 (request1 "" "bundle") []).2 with Ok post => post | Err _ => Build_InstancesPost "" "" "" [] ∅ "" end.
Definition worker1 : InstanceFull := shown bundled_post (Post_Config bundled_post) ∅ "runner-2".
Definition holding_world1 : Answers := {|
  says := says world1; names_ := names_ world1; finds := λ _ _, Ok worker1; lists := lists world1; yields := yields world1; decides := decides world1;
  profile_names := profile_names world1; resolves := resolves world1; evidence := evidence world1; polls := polls world1; preempts := preempts world1 |}.

Lemma bundled_repeated :
  repeated none holding_world1 holding1 provider1 create_config1 (request1 "" "bundle") (request1 "" "bundle") (specs1 "") worker1 endpoint1 "cache root" token1.
Proof.
  split.
  - intros h. reflexivity.
  - vm_compute. reflexivity.
  - split; [reflexivity|vm_compute; reflexivity].
  - reflexivity.
  - vm_compute. reflexivity.
  - vm_compute. reflexivity.
  - reflexivity.
  - reflexivity.
  - reflexivity.
  - exists "trusted-writer". reflexivity.
  - split; intros h; [exists ErrNotFound; split; reflexivity|reflexivity..].
  - reflexivity.
  - split; [vm_compute; reflexivity|]. apply Nat.leb_le. vm_compute. reflexivity.
Qed.

