(* ===== verification/StageTransaction.v ===== *)
(** * Stage transactions
    ([src/internal/stagetransaction/transaction.go])

    A transaction runs the commands of a plan one after the other and leaves receipts
    of what happened: one line before a command starts and one after it ended, in
    a file that is synced each time. Every system call joins the history of the run,
    with its outcome, and its answer is an arbitrary function of the history; a
    command is the behaviour of a child process. [Run] is shown to follow a small
    machine of announcing, running and finishing stages. *)

From S2P Require Import Prelude GoText Domain QueueIntent FleetConfig CacheNamespace CacheBroker.

Local Open Scope Z_scope.
Local Open Scope go_scope.

(** ** Data *)

Record Expectation := { Expect_ExitStatus : Z; Expect_Signal : string; Expect_Stdout : string; Expect_Stderr : string; Expect_Absent : list string }.

Record Stage := {
  Stage_ID : string; Stage_Command : string; Stage_Args : list string; Stage_Dir : string; Stage_Env : list string; Stage_Expect : option Expectation;
}.

Record Plan := {
  EvidenceRoot : string;
  OutputLimit : Z;
  Stages : list Stage;
  Cleanup : bool;                        (* a cleanup function is given *)
  StageTimeout : Duration;
  GracePeriod : Duration;
}.

(** [syscall.WaitStatus]: how a process ended, as the kernel encodes it. *)
Definition WaitStatus : Type := Z.
Definition signal_bits (status : WaitStatus) : Z := Z.land status 127.
Definition Signaled (status : WaitStatus) : bool := negb (signal_bits status =? 127) && negb (signal_bits status =? 0).
Definition ExitStatus (status : WaitStatus) : Z := if signal_bits status =? 0 then Z.land (Z.shiftr status 8) 255 else -1.

(** An error: one of the standard library, the end of a process
    ([exec.ExitError]), the result of [errors.Join], or one wrapped by [%w]. *)
Inductive Failure :=
  | Plain (e : error)
  | ExitError (status : WaitStatus)
  | Joined (parts : list Failure)
  | AtStage (format id : string) (inner : Failure).

Definition Join (parts : list (option Failure)) : option Failure :=
  match omap id parts with [] => None | fs => Some (Joined fs) end.

Definition refused (format : string) : option Failure := Some (Plain (Errorf format [])).

(** A receipt; an empty text or a missing number is what [omitempty] leaves out, and
    an error is written as its text. *)
Record Receipt := {
  R_SchemaVersion : Z; R_Sequence : Z; R_StageID : string; R_Event : string; R_ArgvSHA256 : string; R_StartedUnixNS : Z; R_FinishedUnixNS : Z;
  R_ExitStatus : option Z; R_Signal : string; R_StdoutSHA256 : string; R_StderrSHA256 : string; R_Error : option Failure; R_RawError : option Failure;
  R_VerifierOK : option bool; R_VerifierError : option Failure;
}.

(** ** The world *)

(** A child process: whether it started, what it wrote on standard output ([false])
    and standard error ([true]), how it ended, what the watch of its context
    reports, whether its output stayed open beyond the grace period, and whose
    copying error is received first. *)
Record Child := {
  child_start : option error; child_output : list (bool * string); child_status : WaitStatus; child_watch : option error; child_delayed : bool;
  child_stderr_first : bool;
}.

Inductive Call :=
  | LstatRoot | ReadDirRoot
  | OpenReceipts | WriteReceipt (r : Receipt) | SyncReceipt (r : Receipt) | CloseReceipts
  | OpenCapture (path : string) | WriteCapture (path data : string) | SyncCapture (path : string) | CloseCapture (path : string)
  | KillGroup (id : string) | LstatPath (path : string) | RunCleanup.
Inductive Event := Did (c : Call) (ok : bool) | Executed (s : Stage) (c : Child).

Inductive PathAnswer := Present | Missing | Unknown (e : error).
Inductive KillAnswer := Killed | NoProcess | KillFailed (e : error).
Record RootInfo := { Root_IsDir : bool; Root_Symlink : bool; Root_Perm : Z }.

Record Env := {
  says : list Event → Call → option error;
  root_info : list Event → result RootInfo;
  root_entries : list Event → result nat;
  child_of : list Event → Stage → Child;
  kill_says : list Event → string → KillAnswer;
  path_says : list Event → string → PathAnswer;
  clock : list Event → Z;
}.

(** Steps over the history, newest event first. *)
Definition Action (A : Type) : Type := list Event → list Event * A.
#[export] Instance Action_ret : MRet Action := λ A a h, (h, a).
#[export] Instance Action_bind : MBind Action := λ A B f m h, let '(h', a) := m h in f a h'.

(** The JSON text of what is run, and the names of signals. *)
Class ArgvText := { encode_argv : string → string → list string → list string → string; signal_name : Z → string }.

Section transaction.
Context (env : Env) `{!ArgvText}.

Definition call (c : Call) : Action (option error) := λ h,
  match says env h c with None => (Did c true :: h, None) | Some e => (Did c false :: h, Some e) end.
Definition now : Action Z := λ h, (h, clock env h).
Definition execute (s : Stage) : Action Child := λ h, let c := child_of env h s in (Executed s c :: h, c).

(** ** Receipts *)

Definition argvDigest (s : Stage) : string :=
  Sha256.hex_sum (encode_argv (Stage_Command s) (Stage_Dir s) (Stage_Args s) (sort_strings (Stage_Env s))).

(** The file is closed however the write ends; a receipt can always be encoded. *)
Definition appendReceipt (r : Receipt) : Action (option Failure) :=
  opened ← call OpenReceipts;
  match opened with
  | Some e => mret (Some (Plain e))
  | None =>
      written ← call (WriteReceipt r);
      result ← match written with Some e => mret (Some e) | None => call (SyncReceipt r) end;
      closed ← call CloseReceipts;
      mret (Join [Plain <$> result; Plain <$> closed])
  end.

(** ** Captures *)

Record boundedHashWriter := { written : Z; hash : string; capture_err : option error }.
Definition new_writer : boundedHashWriter := {| written := 0; hash := ""; capture_err := None |}.
Definition failed_writer (w : boundedHashWriter) (e : error) : boundedHashWriter := {| written := written w; hash := hash w; capture_err := Some e |}.

Definition Write (path : string) (limit : Z) (w : boundedHashWriter) (value : string) : Action boundedHashWriter :=
  match capture_err w with
  | Some _ => mret w
  | None =>
      let size := Z.of_nat (String.length value) in
      if limit <? written w ⊕ size then mret (failed_writer w (Errorf "stage capture overflow" []))
      else
        failed ← call (WriteCapture path value);
        mret match failed with
             | Some e => failed_writer w e
             | None => {| written := written w ⊕ size; hash := hash w +:+ value; capture_err := None |}
             end
  end.

(** The copiers of a command's two streams. *)
Fixpoint copy_output (stdout stderr : string) (limit : Z) (chunks : list (bool * string)) (out err : boundedHashWriter) : Action (boundedHashWriter * boundedHashWriter) :=
  match chunks with
  | [] => mret (out, err)
  | (false, value) :: chunks => out ← Write stdout limit out value; copy_output stdout stderr limit chunks out err
  | (true, value) :: chunks => err ← Write stderr limit err value; copy_output stdout stderr limit chunks out err
  end.

(** [exec.Cmd.Wait]: the end of the process, then the watch, then the copiers. *)
Definition copier_error (c : Child) (out err : boundedHashWriter) : option error :=
  if child_delayed c then Some (Errorf "exec: WaitDelay expired before I/O complete" [])
  else let pick a b := match a with Some e => Some e | None => b end in
       if child_stderr_first c then pick (capture_err err) (capture_err out) else pick (capture_err out) (capture_err err).
Definition wait_error (c : Child) (out err : boundedHashWriter) : option Failure :=
  if negb (ExitStatus (child_status c) =? 0) then Some (ExitError (child_status c))
  else Plain <$> match child_watch c with Some e => Some e | None => copier_error c out err end.

(** [command.Run] with its captures; output is copied from a process that started. *)
Definition run_command (stdout stderr : string) (limit : Z) (s : Stage) : Action (bool * option Failure * boundedHashWriter * boundedHashWriter) :=
  c ← execute s;
  match child_start c with
  | Some e => mret (false, Some (Plain e), new_writer, new_writer)
  | None =>
      '(out, err) ← copy_output stdout stderr limit (child_output c) new_writer new_writer;
      mret (true, wait_error c out err, out, err)
  end.

Definition signalGroup (running : bool) (id : string) : Action (option Failure) := λ h,
  if negb running then (h, None)
  else match kill_says env h id with
       | Killed => (Did (KillGroup id) true :: h, None)
       | NoProcess => (Did (KillGroup id) false :: h, None)
       | KillFailed e => (Did (KillGroup id) false :: h, Some (Plain (Wrapf "signal stage process group with %v: %w" [] e)))
       end.

(** [errors.As] for an [exec.ExitError]. *)
Fixpoint as_exit (f : Failure) : option WaitStatus :=
  match f with
  | Plain _ => None
  | ExitError status => Some status
  | Joined parts => (fix go (fs : list Failure) := match fs with [] => None | f :: fs => match as_exit f with Some s => Some s | None => go fs end end) parts
  | AtStage _ _ inner => as_exit inner
  end.
Definition processStatus (err : option Failure) : Z * string :=
  match err with
  | None => (0, "")
  | Some f =>
      match as_exit f with
      | Some status => if Signaled status then (128 ⊕ signal_bits status, signal_name (signal_bits status)) else (ExitStatus status, "")
      | None => (-1, "")
      end
  end.

(** ** Verification *)

Definition is_abs (path : string) : bool := HasPrefix path "/".

Fixpoint verify_absent (paths : list string) : Action (option Failure) :=
  match paths with
  | [] => mret None
  | path :: paths =>
      if negb (is_abs path) then mret (refused "absence assertion path is not absolute")
      else λ h, match path_says env h path with
                | Present => (Did (LstatPath path) true :: h, Some (Plain (Errorf "forbidden side effect exists at %q" [path])))
                | Missing => verify_absent paths (Did (LstatPath path) false :: h)
                | Unknown e => (Did (LstatPath path) false :: h, Some (Plain e))
                end
  end.

Definition verify (expectation : option Expectation) (exitStatus : Z) (signal stdout stderr : string) : Action (bool * option Failure) :=
  match expectation with
  | None => mret ((exitStatus =? 0) && bool_decide (signal = ""), None)
  | Some e =>
      if negb (exitStatus =? Expect_ExitStatus e) || negb (bool_decide (signal = Expect_Signal e)) then
        mret (false, refused "raw outcome exit=%d signal=%q, want exit=%d signal=%q")
      else if negb (bool_decide (stdout = Expect_Stdout e)) || negb (bool_decide (stderr = Expect_Stderr e)) then
        mret (false, refused "raw streams differ from exact expected bytes")
      else
        failed ← verify_absent (Expect_Absent e);
        mret (match failed with None => true | Some _ => false end, failed)
  end.

(** ** The plan *)

Definition stageIDPattern (id : string) : bool :=
  match id with String c _ => is_lower c | EmptyString => false end && all_bytes name_byte id && (String.length id <=? 64)%nat.
(** [filepath.IsAbs(root) && filepath.Clean(root) == root]. *)
Definition clean_root (root : string) : bool := bool_decide (root = "/") || clean_path root.

Definition opt_error {A} (r : result A) : option Failure := match r with Ok _ => None | Err e => Some (Plain e) end.

Fixpoint stages_ok (seen : list string) (stages : list Stage) : bool :=
  match stages with
  | [] => true
  | s :: stages =>
      stageIDPattern (Stage_ID s) && negb (bool_decide (Stage_ID s ∈ seen)) && is_abs (Stage_Command s) && is_abs (Stage_Dir s)
      && stages_ok (Stage_ID s :: seen) stages
  end.

Definition validatePlan (plan : Plan) : Action (option Failure) := λ h,
  if negb (clean_root (EvidenceRoot plan)) || (OutputLimit plan <=? 0) || bool_decide (Stages plan = []) then (h, refused "stage transaction plan is incomplete")
  else if StageTimeout plan <=? 0 then (h, refused "stage transaction plan states no stage timeout")
  else if GracePeriod plan <=? 0 then (h, refused "stage transaction plan states no grace period for a cancelled stage")
  else
    let info := root_info env h in
    let h := Did LstatRoot (is_Ok info) :: h in
    if negb match info with Ok i => Root_IsDir i && negb (Root_Symlink i) && (Root_Perm i =? 448) | Err _ => false end then
      (h, Join [refused "stage evidence root is not private directory"; opt_error info])
    else
      let entries := root_entries env h in
      let h := Did ReadDirRoot (is_Ok entries) :: h in
      if negb match entries with Ok n => (n =? 0)%nat | Err _ => false end then (h, Join [refused "stage evidence root is not empty"; opt_error entries])
      else if negb (stages_ok [] (Stages plan)) then (h, refused "stage identity command or directory is invalid")
      else (h, None).

(** ** A stage *)

(** [fmt.Sprintf("%03d-%s.stdout", sequence, id)] below the evidence root. *)
Definition capture_path (root : string) (sequence : Z) (id suffix : string) : string :=
  (if bool_decide (root = "/") then root else root +:+ "/") +:+ (if sequence <? 1000 then digits 3 sequence else pretty sequence) +:+ "-" +:+ id +:+ suffix.

Definition started_receipt (sequence : Z) (s : Stage) (at_ : Z) : Receipt := {|
  R_SchemaVersion := 1; R_Sequence := sequence; R_StageID := Stage_ID s; R_Event := "started"; R_ArgvSHA256 := argvDigest s; R_StartedUnixNS := at_;
  R_FinishedUnixNS := 0; R_ExitStatus := None; R_Signal := ""; R_StdoutSHA256 := ""; R_StderrSHA256 := ""; R_Error := None; R_RawError := None;
  R_VerifierOK := None; R_VerifierError := None |}.

Definition open_captures (s : Stage) (stdout stderr : string) : Action (option Failure) :=
  failed ← call (OpenCapture stdout);
  match failed with
  | Some e => mret (Some (AtStage "stage %s stdout: %w" (Stage_ID s) (Plain e)))
  | None =>
      failed ← call (OpenCapture stderr);
      match failed with
      | Some e => closed ← call (CloseCapture stdout); mret (Join [Some (AtStage "stage %s stderr: %w" (Stage_ID s) (Plain e)); Plain <$> closed])
      | None => mret None
      end
  end.

Definition close_captures (stdout stderr : string) : Action (option Failure) :=
  a ← call (SyncCapture stdout); b ← call (SyncCapture stderr); c ← call (CloseCapture stdout); d ← call (CloseCapture stderr);
  mret (Join [Plain <$> a; Plain <$> b; Plain <$> c; Plain <$> d]).

(** From the command to its second receipt; the error of the stage, and of writing
    the receipt. *)
Definition finish_stage (plan : Plan) (sequence started : Z) (s : Stage) (stdout stderr : string) : Action (option Failure * option Failure) :=
  '(running, runErr, out, err) ← run_command stdout stderr (OutputLimit plan) s;
  killErr ← signalGroup running (Stage_ID s);
  let runErr := match killErr with Some _ => Join [runErr; killErr] | None => runErr end in
  closeErr ← close_captures stdout stderr;
  let '(exitStatus, signal) := processStatus runErr in
  finished ← now;
  let rawErr := Join [runErr; Plain <$> capture_err out; Plain <$> capture_err err; closeErr] in
  '(verifierOK, verifierErr) ← verify (Stage_Expect s) exitStatus signal (hash out) (hash err);
  let stageErr := match Stage_Expect s with None => rawErr | Some _ => verifierErr end in
  appended ← appendReceipt {|
    R_SchemaVersion := 1; R_Sequence := sequence; R_StageID := Stage_ID s; R_Event := "finished"; R_ArgvSHA256 := argvDigest s; R_StartedUnixNS := started;
    R_FinishedUnixNS := finished; R_ExitStatus := Some exitStatus; R_Signal := signal; R_StdoutSHA256 := Sha256.hex_sum (hash out);
    R_StderrSHA256 := Sha256.hex_sum (hash err); R_Error := stageErr; R_RawError := rawErr; R_VerifierOK := Some verifierOK; R_VerifierError := verifierErr |};
  mret (stageErr, appended).

Definition run_stage (plan : Plan) (sequence : Z) (s : Stage) : Action (option Failure) :=
  started ← now;
  failed ← appendReceipt (started_receipt sequence s started);
  match failed with
  | Some f => mret (Some f)
  | None =>
      let stdout := capture_path (EvidenceRoot plan) sequence (Stage_ID s) ".stdout" in
      let stderr := capture_path (EvidenceRoot plan) sequence (Stage_ID s) ".stderr" in
      failed ← open_captures s stdout stderr;
      match failed with
      | Some f => mret (Some f)
      | None =>
          '(stageErr, appended) ← finish_stage plan sequence started s stdout stderr;
          mret match appended, stageErr with
               | Some _, _ => Join [stageErr; appended]
               | None, Some f => Some (AtStage "stage %s: %w" (Stage_ID s) f)
               | None, None => None
               end
      end
  end.

Fixpoint run_stages (plan : Plan) (sequence : Z) (stages : list Stage) : Action (option Failure) :=
  match stages with
  | [] => mret None
  | s :: stages =>
      let sequence := sequence ⊕ 1 in
      failed ← run_stage plan sequence s;
      match failed with Some f => mret (Some f) | None => run_stages plan sequence stages end
  end.

Definition Run (plan : Plan) : Action (option Failure) :=
  invalid ← validatePlan plan;
  match invalid with
  | Some f => mret (Some f)
  | None =>
      result ← run_stages plan 0 (Stages plan);
      if Cleanup plan then cleaned ← call RunCleanup; mret (Join [result; Plain <$> cleaned])
      else mret result
  end.

End transaction.
