(* ===== verification/StageTransactionFacts.v ===== *)
(** * What the receipts of a transaction say

    The machine that a run of [StageTransaction] follows, and what a receipt tells of
    the command it names. *)

From S2P Require Import Prelude GoText Domain QueueIntent FleetConfig CacheNamespace CacheBroker StageTransaction.

Local Open Scope Z_scope.
Local Open Scope go_scope.

(** ** The machine *)

(** The text of a child's stream, and what a capture of it may hold: its beginning,
    within the limit as long as sizes are far from overflowing. *)
Definition stream (stderr : bool) (c : Child) : list string := (filter (λ chunk, chunk.1 = stderr) (child_output c)).*2.
Definition text (chunks : list string) : string := foldr String.append "" chunks.
Definition small_chunks (c : Child) : Prop := Forall (λ chunk : bool * string, Z.of_nat (String.length chunk.2) ≤ 32768) (child_output c).

Record begins (limit : Z) (c : Child) (chunks : list string) (out : string) (whole : Prop) : Prop := {
  begins_prefix : ∃ rest, text chunks = out +:+ rest;
  begins_whole : whole → out = text chunks;
  begins_limit : 0 ≤ limit ≤ 2 ^ 50 → small_chunks c → Z.of_nat (String.length out) ≤ limit;
}.

(** What a finished receipt [r] says of the child [c] of stage [s], whose captures hold
    [out] and [err]. *)
Definition honest (limit : Z) (s : Stage) (c : Child) (out err : string) (r : Receipt) : Prop :=
  R_StdoutSHA256 r = Sha256.hex_sum out ∧ R_StderrSHA256 r = Sha256.hex_sum err ∧
  begins limit c (stream false c) out (Stage_Expect s = None ∧ R_Error r = None) ∧
  begins limit c (stream true c) err (Stage_Expect s = None ∧ R_Error r = None) ∧
  (R_ExitStatus r = Some 0 → child_start c = None ∧ ExitStatus (child_status c) = 0 ∧ child_watch c = None) ∧
  (R_Error r = None →
   match Stage_Expect s with
   | None => R_ExitStatus r = Some 0 ∧ R_Signal r = ""
   | Some e => R_ExitStatus r = Some (Expect_ExitStatus e) ∧ R_Signal r = Expect_Signal e ∧ out = Expect_Stdout e ∧ err = Expect_Stderr e
   end).

Section machine.
Context {Hargv : ArgvText} (plan : Plan).

(** A receipt of the stage at index [i]. *)
Definition names (i : nat) (s : Stage) (event : string) (r : Receipt) : Prop :=
  R_SchemaVersion r = 1 ∧ R_Sequence r = wrap64 (Z.of_nat i + 1) ∧ R_StageID r = Stage_ID s ∧ R_Event r = event ∧ R_ArgvSHA256 r = argvDigest s.

(** A plan whose stages may run. *)
Definition runnable : Prop :=
  clean_root (EvidenceRoot plan) = true ∧ 0 < OutputLimit plan ∧ 0 < StageTimeout plan ∧ 0 < GracePeriod plan ∧
  NoDup (Stage_ID <$> Stages plan) ∧
  Forall (λ s, stageIDPattern (Stage_ID s) = true ∧ is_abs (Stage_Command s) = true ∧ is_abs (Stage_Dir s) = true) (Stages plan).

Inductive Phase :=
  | Ready (i : nat)                       (* the stages below [i] passed *)
  | Announced (i : nat)                   (* the first receipt of stage [i] is on disk *)
  | Ran (i : nat) (c : Child) (out err : string)   (* what was written into the two captures *)
  | Halted (i : nat)                      (* stage [i] failed, and the receipt says so *)
  | Closed (p : Phase).

Definition open_phase (p : Phase) : Prop := match p with Closed _ => False | _ => True end.

Definition silent (e : Event) : Prop :=
  match e with
  | Executed _ _ | Did (SyncReceipt _) true | Did (WriteCapture _ _) true | Did RunCleanup _ => False
  | Did _ _ => True
  end.

(** The captures of a stage. *)
Definition stdout_path (i : nat) (s : Stage) : string := capture_path (EvidenceRoot plan) (wrap64 (Z.of_nat i + 1)) (Stage_ID s) ".stdout".
Definition stderr_path (i : nat) (s : Stage) : string := capture_path (EvidenceRoot plan) (wrap64 (Z.of_nat i + 1)) (Stage_ID s) ".stderr".

Inductive step : Phase → Event → Phase → Prop :=
  | step_silent p e : silent e → step p e p
  | step_announce i s r : runnable → Stages plan !! i = Some s → names i s "started" r → step (Ready i) (Did (SyncReceipt r) true) (Announced i)
  | step_execute i s c : Stages plan !! i = Some s → step (Announced i) (Executed s c) (Ran i c "" "")
  | step_stdout i s c out err value : Stages plan !! i = Some s →
      step (Ran i c out err) (Did (WriteCapture (stdout_path i s) value) true) (Ran i c (out +:+ value) err)
  | step_stderr i s c out err value : Stages plan !! i = Some s →
      step (Ran i c out err) (Did (WriteCapture (stderr_path i s) value) true) (Ran i c out (err +:+ value))
  | step_pass i s c out err r : Stages plan !! i = Some s → names i s "finished" r → honest (OutputLimit plan) s c out err r → R_Error r = None →
      step (Ran i c out err) (Did (SyncReceipt r) true) (Ready (S i))
  | step_fail i s c out err r : Stages plan !! i = Some s → names i s "finished" r → honest (OutputLimit plan) s c out err r → R_Error r ≠ None →
      step (Ran i c out err) (Did (SyncReceipt r) true) (Halted i)
  | step_close p ok : Cleanup plan = true → open_phase p → step p (Did RunCleanup ok) (Closed p).

(** Histories, newest event first. *)
Inductive trace : Phase → list Event → Phase → Prop :=
  | trace_nil p : trace p [] p
  | trace_cons p p1 p2 h e : trace p h p1 → step p1 e p2 → trace p (e :: h) p2.

Lemma trace_app p p1 p2 h1 h2 : trace p h1 p1 → trace p1 h2 p2 → trace p (h2 ++ h1) p2.
Proof. intros H1. induction 1; simpl; [done|]. econstructor; eauto. Qed.

(** ** Following the machine *)

Definition follows {A} (p : Phase) (m : Action A) (Φ : A → Phase → Prop) : Prop :=
  ∀ h, ∃ new a p', m h = (new ++ h, a) ∧ trace p new p' ∧ Φ a p'.

Lemma follows_ret {A} p (a : A) Φ : Φ a p → follows p (mret a) Φ.
Proof. intros H h. exists [], a, p. split_and!; [done|constructor|done]. Qed.

Lemma follows_bind {A B} p (m : Action A) (f : A → Action B) Φ : follows p m (λ a p', follows p' (f a) Φ) → follows p (m ≫= f) Φ.
Proof.
  intros H h. destruct (H h) as (new & a & p1 & Hm & Ht & Hf). destruct (Hf (new ++ h)) as (new' & b & p2 & Hm' & Ht' & HΦ).
  exists (new' ++ new), b, p2. split_and!; [|by eapply trace_app|done]. unfold mbind, Action_bind. by rewrite Hm, Hm', app_assoc.
Qed.

Lemma follows_conseq {A} p (m : Action A) (Φ Ψ : A → Phase → Prop) : follows p m Φ → (∀ a p', Φ a p' → Ψ a p') → follows p m Ψ.
Proof. intros H HΦ h. destruct (H h) as (new & a & p' & ? & ? & ?). exists new, a, p'. auto. Qed.

(** An action that emits only events the machine ignores. *)
Definition quiet {A} (m : Action A) (Φ : A → Prop) : Prop := ∀ h, ∃ new a, m h = (new ++ h, a) ∧ Forall silent new ∧ Φ a.

Lemma silent_trace p h : Forall silent h → trace p h p.
Proof. induction 1; [constructor|]. econstructor; [done|]. by constructor. Qed.

Lemma quiet_follows {A} p (m : Action A) Φ : quiet m Φ → follows p m (λ a p', p' = p ∧ Φ a).
Proof. intros H h. destruct (H h) as (new & a & Hm & Hs & HΦ). exists new, a, p. split_and!; [done|by apply silent_trace|done|done]. Qed.

Lemma quiet_ret {A} (a : A) (Φ : A → Prop) : Φ a → quiet (mret a) Φ.
Proof. intros H h. by exists [], a. Qed.

Lemma quiet_bind {A B} (m : Action A) (f : A → Action B) Φ : quiet m (λ a, quiet (f a) Φ) → quiet (m ≫= f) Φ.
Proof.
  intros H h. destruct (H h) as (new & a & Hm & Hs & Hf). destruct (Hf (new ++ h)) as (new' & b & Hm' & Hs' & HΦ).
  exists (new' ++ new), b. split_and!; [|by apply Forall_app|done]. unfold mbind, Action_bind. by rewrite Hm, Hm', app_assoc.
Qed.

Lemma quiet_seq {A B} (m : Action A) (f : A → Action B) Φ Ψ : quiet m Φ → (∀ a, Φ a → quiet (f a) Ψ) → quiet (m ≫= f) Ψ.
Proof. intros H Hf. apply quiet_bind. intros h. destruct (H h) as (new & a & ? & ? & ?). exists new, a. auto. Qed.

(** Using what an action is known to do in front of another one. *)
Lemma follows_seq {A B} p (m : Action A) (f : A → Action B) Φ Ψ :
  follows p m Φ → (∀ a p', Φ a p' → follows p' (f a) Ψ) → follows p (m ≫= f) Ψ.
Proof. intros H Hf. apply follows_bind. by eapply follows_conseq. Qed.

Lemma follows_quiet {A B} p (m : Action A) (f : A → Action B) Φ Ψ :
  quiet m Φ → (∀ a, Φ a → follows p (f a) Ψ) → follows p (m ≫= f) Ψ.
Proof. intros H Hf. eapply follows_seq; [by apply quiet_follows|]. intros a p' [-> Ha]. auto. Qed.

(** ** The calls *)

Context (env : Env).

Lemma quiet_call c : silent (Did c true) → silent (Did c false) → quiet (call env c) (λ _, True).
Proof. intros Ht Hf h. unfold call. destruct (says env h c) as [e|]; [exists [Did c false], (Some e)|exists [Did c true], None]; by repeat constructor. Qed.

Lemma quiet_now : quiet (now env) (λ _, True).
Proof. intros h. by exists [], (clock env h). Qed.

(** What a writer holds after some chunks of its stream. *)
Record holds (limit : Z) (chunks : list string) (w : boundedHashWriter) : Prop := {
  holds_prefix : ∃ rest, text chunks = hash w +:+ rest;
  holds_whole : capture_err w = None → hash w = text chunks;
  holds_limit : 0 ≤ limit ≤ 2 ^ 50 → Forall (λ chunk, Z.of_nat (String.length chunk) ≤ 32768) chunks →
    written w = Z.of_nat (String.length (hash w)) ∧ written w ≤ limit;
}.

Lemma text_snoc chunks value : text (chunks ++ [value]) = text chunks +:+ value.
Proof.
  induction chunks as [|x chunks IH]; [by rewrite <-(string_app_empty value) at 2|].
  trans (x +:+ text (chunks ++ [value])); [done|]. by rewrite IH, <-string_app_assoc.
Qed.

Lemma holds_new limit : holds limit [] new_writer.
Proof. split; simpl; [by exists ""|done|lia]. Qed.

(** A writer that takes no more. *)
Lemma holds_stuck limit chunks w w' value :
  holds limit chunks w → hash w' = hash w → written w' = written w → capture_err w' ≠ None → holds limit (chunks ++ [value]) w'.
Proof.
  intros [[rest Hp] Hw Hl] Hh Hn He. split.
  - exists (rest +:+ value). by rewrite text_snoc, Hp, Hh, string_app_assoc.
  - done.
  - intros Hlim [Hc _]%Forall_app. rewrite Hh, Hn. auto.
Qed.

(** A write into a capture moves the machine by what was written. *)
Lemma Write_follows path limit w chunks value p p' :
  holds limit chunks w → step p (Did (WriteCapture path value) true) p' →
  follows p (Write env path limit w value) (λ w' q, holds limit (chunks ++ [value]) w' ∧ (hash w' = hash w ∧ q = p ∨ hash w' = hash w +:+ value ∧ q = p')).
Proof.
  intros H Hstep. unfold Write. destruct (capture_err w) as [f|] eqn:He; [apply follows_ret; split; [eapply holds_stuck; eauto; by rewrite He|by left]|].
  destruct (limit <? written w ⊕ Z.of_nat (String.length value)) eqn:Hlt; [apply follows_ret; split; [by eapply holds_stuck|by left]|].
  eapply (follows_seq _ _ _ (λ failed q, match failed with Some _ => q = p | None => q = p' end)).
  { intros h. unfold call. destruct (says env h (WriteCapture path value)) as [e|].
    - exists [Did (WriteCapture path value) false], (Some e), p. split_and!; [done| |done]. apply silent_trace. by repeat constructor.
    - exists [Did (WriteCapture path value) true], None, p'. split_and!; [done| |done]. by econstructor; [constructor|]. }
  intros [f|] q ->; apply follows_ret; (split; [|by auto]); [by eapply holds_stuck|].
  destruct H as [_ Hw Hl]. split; simpl.
  - exists "". by rewrite text_snoc, (Hw He), string_app_empty.
  - intros _. by rewrite text_snoc, (Hw He).
  - intros Hlim [Hc1 Hc2]%Forall_app. destruct (Hl Hlim Hc1) as [Hn Hle]. rewrite Forall_singleton in Hc2. rewrite length_app_string.
    assert (written w ⊕ Z.of_nat (String.length value) = written w + Z.of_nat (String.length value)) as Hsum.
    { unfold int_add. apply wrap64_small. assert (2 ^ 50 = 1125899906842624) by done. unfold in_int64, min_int64, max_int64. lia. }
    rewrite Hsum in *. lia.
Qed.

Lemma copy_follows i s c limit chunks doneO doneE out err :
  Stages plan !! i = Some s → holds limit doneO out → holds limit doneE err →
  follows (Ran i c (hash out) (hash err)) (copy_output env (stdout_path i s) (stderr_path i s) limit chunks out err) (λ ws q,
    q = Ran i c (hash ws.1) (hash ws.2) ∧
    holds limit (doneO ++ (filter (λ chunk, chunk.1 = false) chunks).*2) ws.1 ∧ holds limit (doneE ++ (filter (λ chunk, chunk.1 = true) chunks).*2) ws.2).
Proof.
  intros Hs. revert doneO doneE out err. induction chunks as [|[[|] value] chunks IH]; intros doneO doneE out err Ho He; cbn [copy_output].
  - apply follows_ret. simpl. by rewrite !app_nil_r.
  - eapply follows_seq; [eapply Write_follows; [done|by apply (step_stderr i s)]|]. intros w q [Hw Hq].
    assert (q = Ran i c (hash out) (hash w)) as -> by (by destruct Hq as [[-> ->]|[-> ->]]).
    rewrite filter_cons_False, filter_cons_True by done. cbn [fmap list_fmap snd]. rewrite (cons_middle value), (app_assoc doneE). by apply IH.
  - eapply follows_seq; [eapply Write_follows; [done|by apply (step_stdout i s)]|]. intros w q [Hw Hq].
    assert (q = Ran i c (hash w) (hash err)) as -> by (by destruct Hq as [[-> ->]|[-> ->]]).
    rewrite filter_cons_True, filter_cons_False by done. cbn [fmap list_fmap snd]. rewrite (cons_middle value), (app_assoc doneO). by apply IH.
Qed.

Lemma holds_begins limit c stderr w (whole : Prop) :
  holds limit (stream stderr c) w → (whole → capture_err w = None) → begins limit c (stream stderr c) (hash w) whole.
Proof.
  intros [Hp Hw Hl] Hwhole. split; [done|eauto|]. intros Hlim Hsmall. destruct (Hl Hlim) as [Hn Hle]; [|lia].
  unfold stream. apply Forall_forall. intros v ([b v'] & -> & [_ Hin]%list_elem_of_filter)%list_elem_of_fmap.
  unfold small_chunks in Hsmall. rewrite Forall_forall in Hsmall. by apply (Hsmall _ Hin).
Qed.

(** ** Verification and the end of a process *)

Lemma verify_absent_quiet paths : quiet (verify_absent env paths) (λ _, True).
Proof.
  induction paths as [|path paths IH]; cbn [verify_absent]; [by apply quiet_ret|]. destruct (negb (is_abs path)); [by apply quiet_ret|].
  intros h. destruct (path_says env h path).
  - eexists [_], _. by repeat constructor.
  - destruct (IH (Did (LstatPath path) false :: h)) as (new & r & Hr & Hs & _). exists (new ++ [Did (LstatPath path) false]), r.
    split_and!; [by rewrite Hr, <-app_assoc|apply Forall_app; by repeat constructor|done].
  - eexists [_], _. by repeat constructor.
Qed.

Lemma verify_quiet expectation code signal out err :
  quiet (verify env expectation code signal out err) (λ v, v.2 = None →
    match expectation with None => True | Some e => code = Expect_ExitStatus e ∧ signal = Expect_Signal e ∧ out = Expect_Stdout e ∧ err = Expect_Stderr e end).
Proof.
  unfold verify. destruct expectation as [e|]; [|by apply quiet_ret].
  destruct (negb (code =? Expect_ExitStatus e) || _) eqn:H1; [by apply quiet_ret|].
  destruct (negb (bool_decide (out = _)) || _) eqn:H2; [by apply quiet_ret|].
  apply orb_false_iff in H1 as [Hc%negb_false_iff Hs%negb_false_iff], H2 as [Ho%negb_false_iff He%negb_false_iff].
  apply Z.eqb_eq in Hc. apply bool_decide_eq_true in Hs, Ho, He.
  eapply quiet_seq; [apply verify_absent_quiet|]. intros r _. by apply quiet_ret.
Qed.

Lemma Join_None parts : Join parts = None → Forall (λ p, p = None) parts.
Proof.
  unfold Join. intros H. induction parts as [|[f|] parts IH]; [constructor|done|]. constructor; [done|]. apply IH. done.
Qed.

Lemma signal_small status : Signaled status = true → 128 ⊕ signal_bits status ≠ 0 ∧ 128 ⊕ signal_bits status ≠ -1.
Proof.
  intros _. assert (0 ≤ signal_bits status < 128) as Hb.
  { unfold signal_bits. change 127 with (Z.ones 7). rewrite Z.land_ones by done. apply Z.mod_pos_bound. done. }
  unfold int_add. rewrite wrap64_small by (unfold in_int64, min_int64, max_int64; lia). lia.
Qed.

(** Only a process that ended well has status zero. *)
Lemma wait_zero c out err killErr signal :
  processStatus (match killErr with Some e => Join [wait_error c out err; Some (Plain e)] | None => wait_error c out err end) = (0, signal) →
  ExitStatus (child_status c) = 0 ∧ child_watch c = None.
Proof.
  unfold wait_error. destruct (ExitStatus (child_status c) =? 0) eqn:Hz; cbn [negb].
  - apply Z.eqb_eq in Hz. intros H. split; [done|]. by destruct (child_watch c), killErr, (copier_error c out err).
  - assert (∀ f, as_exit f = Some (child_status c) → processStatus (Some f) ≠ (0, signal)) as Hne.
    { intros f Hf. unfold processStatus. rewrite Hf. destruct (Signaled (child_status c)) eqn:Hs.
      - intros [= H _]. by apply signal_small in Hs as [? _].
      - intros [= H _]. by rewrite H in Hz. }
    destruct killErr; intros H; by apply Hne in H.
Qed.

(** ** Stages *)

(** A receipt that is written moves the machine, one that is not leaves it. *)
Lemma append_follows p p' r :
  step p (Did (SyncReceipt r) true) p' → follows p (appendReceipt env r) (λ failed q, q = p' ∨ (failed ≠ None ∧ q = p)).
Proof.
  intros Hstep. unfold appendReceipt. eapply follows_quiet; [by apply (quiet_call OpenReceipts)|]. intros [e|] _; [apply follows_ret; by right|].
  eapply follows_quiet; [by apply (quiet_call (WriteReceipt r))|]. intros [e|] _.
  - eapply follows_seq; [by apply (follows_ret _ _ (λ a q, a = Some e ∧ q = p))|]. intros a q [-> ->].
    eapply follows_quiet; [by apply (quiet_call CloseReceipts)|]. intros [e'|] _; apply follows_ret; by right.
  - eapply (follows_seq _ _ _ (λ a q, (a = None ∧ q = p') ∨ (a ≠ None ∧ q = p))).
    { intros h. unfold call. destruct (says env h (SyncReceipt r)) as [e|].
      - exists [Did (SyncReceipt r) false], (Some e), p. split_and!; [done| |by right]. econstructor; [constructor|]. by constructor.
      - exists [Did (SyncReceipt r) true], None, p'. split_and!; [done| |by left]. by econstructor; [constructor|]. }
    intros a q Ha. eapply follows_quiet; [by apply (quiet_call CloseReceipts)|]. intros c _. apply follows_ret.
    destruct Ha as [[-> ->]|[Hne ->]]; [by left|]. right. split; [|done]. by destruct a, c.
Qed.

Lemma open_quiet s stdout stderr : quiet (open_captures env s stdout stderr) (λ _, True).
Proof.
  unfold open_captures. eapply quiet_seq; [by apply (quiet_call (OpenCapture stdout))|]. intros [e|] _; [by apply quiet_ret|].
  eapply quiet_seq; [by apply (quiet_call (OpenCapture stderr))|]. intros [e|] _; [|by apply quiet_ret].
  eapply quiet_seq; [by apply (quiet_call (CloseCapture stdout))|]. intros c _. by apply quiet_ret.
Qed.

Lemma close_quiet stdout stderr : quiet (close_captures env stdout stderr) (λ _, True).
Proof. unfold close_captures. repeat (eapply quiet_seq; [by apply quiet_call|]; intros ? _). by apply quiet_ret. Qed.

Lemma signal_quiet running id : quiet (signalGroup env running id) (λ killErr, ∃ e, killErr = Plain <$> e).
Proof.
  intros h. unfold signalGroup. destruct running; simpl; [|exists [], None; split_and!; [done|constructor|by exists None]].
  destruct (kill_says env h id); [eexists [_], _..]; (split_and!; [done|by repeat constructor|]); [by exists None..|by eexists (Some _)].
Qed.

(** What is known of a command that was run for stage [i]. *)
Record ran (i : nat) (q : Phase) (runErr : option Failure) (out err : boundedHashWriter) (c : Child) : Prop := {
  ran_phase : q = Ran i c (hash out) (hash err);
  ran_out : begins (OutputLimit plan) c (stream false c) (hash out) (runErr = None ∧ capture_err out = None);
  ran_err : begins (OutputLimit plan) c (stream true c) (hash err) (runErr = None ∧ capture_err err = None);
  ran_zero : ∀ killErr signal, processStatus (match killErr with Some e => Join [runErr; Some (Plain e)] | None => runErr end) = (0, signal) →
    child_start c = None ∧ ExitStatus (child_status c) = 0 ∧ child_watch c = None;
}.

Lemma begins_nothing limit c chunks (whole : Prop) : ¬ whole → begins limit c chunks "" whole.
Proof. intros Hw. split; [by exists (text chunks)|done|simpl; lia]. Qed.

Lemma run_command_follows i s :
  Stages plan !! i = Some s →
  follows (Announced i) (run_command env (stdout_path i s) (stderr_path i s) (OutputLimit plan) s) (λ '(_, runErr, out, err) q, ∃ c, ran i q runErr out err c).
Proof.
  intros Hs. unfold run_command. eapply (follows_seq _ _ _ (λ c q, q = Ran i c "" "")).
  { intros h. eexists [_], _, _. split_and!; [done| |done]. econstructor; [constructor|]. by eapply step_execute. }
  intros c q ->. destruct (child_start c) as [e|] eqn:Hstart.
  - apply follows_ret. exists c. split; [done|apply begins_nothing; by intros [? _]..|]. by intros [k|] signal.
  - eapply follows_seq; [by apply (copy_follows i s c _ _ [] [] new_writer new_writer Hs); apply holds_new|]. intros [out err] q (-> & Ho & He).
    apply follows_ret. exists c.
    split; [done| | |].
    + eapply holds_begins; [done|]. by intros [_ ?].
    + eapply holds_begins; [done|]. by intros [_ ?].
    + intros killErr signal H. split; [done|]. by eapply wait_zero.
Qed.

Lemma killed_same runErr (k : option error) :
  match Plain <$> k with Some _ => Join [runErr; Plain <$> k] | None => runErr end =
  match k with Some e => Join [runErr; Some (Plain e)] | None => runErr end.
Proof. by destruct k. Qed.

Lemma finish_follows i s started :
  Stages plan !! i = Some s →
  follows (Announced i) (finish_stage env plan (wrap64 (Z.of_nat i + 1)) started s (stdout_path i s) (stderr_path i s))
    (λ '(stageErr, appended) q, open_phase q ∧ (stageErr = None → appended = None → q = Ready (S i))).
Proof.
  intros Hs. unfold finish_stage. eapply follows_seq; [by apply run_command_follows|]. intros [[[running runErr] out] err] q (c & [-> Ho He Hz]).
  eapply follows_quiet; [apply signal_quiet|]. intros ? [k ->]. cbv zeta. rewrite killed_same.
  set (runErr' := match k with Some e => Join [runErr; Some (Plain e)] | None => runErr end) in *.
  eapply follows_quiet; [apply close_quiet|]. intros closeErr _. destruct (processStatus runErr') as [code signal] eqn:Hstatus.
  eapply follows_quiet; [apply quiet_now|]. intros finished _.
  eapply follows_quiet; [apply verify_quiet|]. intros [ok verifierErr] Hv. cbv beta iota.
  set (rawErr := Join [runErr'; Plain <$> capture_err out; Plain <$> capture_err err; closeErr]).
  set (stageErr := match Stage_Expect s with None => rawErr | Some _ => verifierErr end).
  assert (rawErr = None → runErr' = None ∧ runErr = None ∧ capture_err out = None ∧ capture_err err = None) as Hraw.
  { intros Hn%Join_None. rewrite !Forall_cons in Hn. destruct Hn as (Hr & Ha%fmap_None & Hb%fmap_None & _). split_and!; [done| |done|done].
    unfold runErr' in Hr. destruct k; [|done]. apply Join_None in Hr. by apply Forall_cons in Hr as [? _]. }
  assert (Stage_Expect s = None ∧ stageErr = None → rawErr = None) as Hplain by (unfold stageErr; intros [-> ?]; done).
  match goal with |- context [appendReceipt env ?r0] => set (r := r0) end.
  assert (honest (OutputLimit plan) s c (hash out) (hash err) r) as Hhonest.
  { split_and!; [done|done| | | |].
    - destruct Ho as [H1 H2 H3]. split; [done| |done]. intros H. apply H2. by apply Hplain, Hraw in H as (_ & ? & ? & _).
    - destruct He as [H1 H2 H3]. split; [done| |done]. intros H. apply H2. by apply Hplain, Hraw in H as (_ & ? & _ & ?).
    - intros [= ->]. by eapply Hz.
    - cbn [R_Error R_ExitStatus R_Signal r]. intros H. unfold stageErr in *. destruct (Stage_Expect s) as [e|].
      + destruct (Hv H) as (-> & -> & -> & ->). done.
      + apply Hraw in H as [H _]. rewrite H in Hstatus. by injection Hstatus as <- <-. }
  assert (names i s "finished" r) as Hnames by done.
  destruct stageErr as [f|] eqn:Herr.
  - eapply follows_seq; [eapply append_follows; by eapply (step_fail _ _ _ _ _ r)|]. intros a q Hq. apply follows_ret.
    split; [by destruct Hq as [->|[_ ->]]|done].
  - eapply follows_seq; [eapply append_follows; by eapply (step_pass _ _ _ _ _ r)|]. intros a q Hq. apply follows_ret.
    split; [by destruct Hq as [->|[_ ->]]|]. intros _ ->. by destruct Hq as [?|[? _]].
Qed.

Lemma run_stage_follows i s :
  runnable → Stages plan !! i = Some s →
  follows (Ready i) (run_stage env plan (wrap64 (Z.of_nat i + 1)) s) (λ failed q, open_phase q ∧ (failed = None → q = Ready (S i))).
Proof.
  intros Hrun Hs. unfold run_stage. eapply follows_quiet; [apply quiet_now|]. intros started _.
  eapply follows_seq; [eapply append_follows; by eapply step_announce|]. intros [f|] q Hq.
  { apply follows_ret. split; [|done]. by destruct Hq as [->|[_ ->]]. }
  destruct Hq as [->|[? _]]; [|done]. eapply follows_quiet; [apply open_quiet|]. intros [f|] _; [by apply follows_ret|].
  eapply follows_seq; [by apply finish_follows|]. intros [[f|] [g|]] q [Hq Hdone]; apply follows_ret; (split; [done|]); [done..|]. intros _. by apply Hdone.
Qed.

Lemma run_stages_follows passed stages :
  runnable → Stages plan = passed ++ stages →
  follows (Ready (length passed)) (run_stages env plan (wrap64 (Z.of_nat (length passed))) stages)
    (λ failed q, open_phase q ∧ (failed = None → q = Ready (length (Stages plan)))).
Proof.
  intros Hrun. revert passed. induction stages as [|s stages IH]; intros passed Hd; cbn [run_stages].
  { apply follows_ret. by rewrite Hd, app_nil_r. }
  cbv zeta. assert (wrap64 (Z.of_nat (length passed)) ⊕ 1 = wrap64 (Z.of_nat (length passed) + 1)) as -> by (unfold int_add; apply wrap64_add_l).
  eapply follows_seq; [apply run_stage_follows; [done|]; by rewrite Hd, list_lookup_middle|]. intros [f|] q [Hq Hnext]; [by apply follows_ret|].
  rewrite (Hnext eq_refl). specialize (IH (passed ++ [s])). rewrite length_app in IH. cbn [length] in IH. rewrite Nat.add_1_r in IH.
  replace (Z.of_nat (length passed) + 1) with (Z.of_nat (S (length passed))) by lia. apply IH. by rewrite Hd, <-app_assoc.
Qed.

Lemma stages_ok_runnable seen stages :
  stages_ok seen stages = true →
  NoDup (Stage_ID <$> stages) ∧ (∀ s, s ∈ stages → Stage_ID s ∉ seen) ∧
  Forall (λ s, stageIDPattern (Stage_ID s) = true ∧ is_abs (Stage_Command s) = true ∧ is_abs (Stage_Dir s) = true) stages.
Proof.
  revert seen. induction stages as [|s stages IH]; intros seen; simpl; [intros _; split_and!; [constructor|by intros s ?%elem_of_nil|constructor]|].
  rewrite !andb_true_iff, negb_true_iff, bool_decide_eq_false. intros ((((Hp & Hn) & Hc) & Hd) & (H1 & H2 & H3)%IH). split_and!.
  - constructor; [|done]. intros (s' & Heq & Hin)%list_elem_of_fmap. apply (H2 _ Hin). rewrite <-Heq. by apply list_elem_of_here.
  - intros s' [->|Hin]%elem_of_cons; [done|]. intros Hs. apply (H2 _ Hin). by apply list_elem_of_further.
  - by constructor.
Qed.

(** A plan that passes has been checked to be runnable. *)
Lemma validate_quiet : quiet (validatePlan env plan) (λ invalid, invalid = None → runnable).
Proof.
  intros h. unfold validatePlan. destruct (negb (clean_root _) || _ || _) eqn:H1; [by exists [], (refused "stage transaction plan is incomplete")|].
  destruct (StageTimeout plan <=? 0) eqn:H2; [by eexists [], _|]. destruct (GracePeriod plan <=? 0) eqn:H3; [by eexists [], _|]. cbv zeta.
  destruct (negb (match root_info env h with Ok _ => _ | Err _ => _ end)); [eexists [_], _; split_and!; [done|by repeat constructor|by destruct (root_info env h)]|].
  destruct (negb (match root_entries env _ with Ok _ => _ | Err _ => _ end));
    [eexists [_; _], _; split_and!; [done|by repeat constructor|by destruct (root_entries env _)]|].
  destruct (stages_ok [] (Stages plan)) eqn:H4; cbn [negb]; eexists [_; _], _; (split_and!; [done|by repeat constructor|]); [|done]. intros _.
  apply orb_false_iff in H1 as [[Hr Hl]%orb_false_iff _]. apply negb_false_iff in Hr. apply stages_ok_runnable in H4 as (Hn & _ & Hf).
  split_and!; [done|lia..|done|done].
Qed.

Lemma rest_follows :
  runnable →
  follows (Ready 0) (result ← run_stages env plan 0 (Stages plan); if Cleanup plan then cleaned ← call env RunCleanup; mret (Join [result; Plain <$> cleaned]) else mret result)
    (λ failed p, (failed = None → p = Ready (length (Stages plan)) ∨ p = Closed (Ready (length (Stages plan)))) ∧ (Cleanup plan = true → ∃ q, p = Closed q)).
Proof.
  intros Hrun. eapply follows_seq; [by apply (run_stages_follows [])|]. intros failed p [Hopen Hdone]. destruct (Cleanup plan) eqn:Hc.
  - eapply (follows_seq _ _ _ (λ _ q, q = Closed p)).
    { intros h. unfold call. destruct (says env h RunCleanup); [eexists [Did RunCleanup false]|eexists [Did RunCleanup true]];
        (eexists _, _; split_and!; [done|econstructor; [constructor|by apply step_close]|done]). }
    intros cleaned q ->. apply follows_ret. split; [|by exists p]. intros Hj%Join_None. apply Forall_cons in Hj as [Hf _]. right. f_equal. auto.
  - apply follows_ret. split; [|done]. intros Hf. left. auto.
Qed.

(** *** The commands of a history *)

Definition executed (h : list Event) : list Stage := omap (λ e, match e with Executed s _ => Some s | Did _ _ => None end) h.
Fixpoint progress (p : Phase) : nat :=
  match p with Ready i | Announced i => i | Ran i _ _ _ | Halted i => S i | Closed p => progress p end.

Lemma silent_executed e h : silent e → executed (e :: h) = executed h.
Proof. by destruct e. Qed.

Lemma executed_in_order h p : trace (Ready 0) h p → reverse (executed h) = take (progress p) (Stages plan).
Proof.
  intros Ht. remember (Ready 0) as start eqn:Hstart. induction Ht as [|p0 p1 p2 h e Ht IH Hstep]; subst; [done|]. specialize (IH eq_refl).
  destruct Hstep; cbn [progress] in *; [by rewrite silent_executed| |change (executed (Executed s c :: h)) with (s :: executed h)|..];
    [exact IH| |exact IH..].
  rewrite reverse_cons, IH. by erewrite take_S_r.
Qed.

(** C39: A run follows the machine, whatever the system answers and however the
    commands behave. The commands that ran are the first stages of the plan, in its
    order. A command runs only as the next stage of a checked plan, after
    its first receipt was synced; the second receipt carries the digests of what was
    written into the stage's two captures, which begins the output and is all of it for
    a stage that passed without an expectation; status zero is only of a process that started and ended well
    and was not interrupted; after a stage that failed nothing else runs; and success is
    reported only when every stage was receipted as passed. The cleanup of a plan that
    passed the check runs once, last; a plan that is refused runs nothing. *)
Theorem run_follows_receipts :
  ∃ p, trace (Ready 0) (Run env plan []).1 p ∧ reverse (executed (Run env plan []).1) = take (progress p) (Stages plan) ∧
    ((Run env plan []).2 = None → p = Ready (length (Stages plan)) ∨ p = Closed (Ready (length (Stages plan)))) ∧
    ((validatePlan env plan []).2 = None → Cleanup plan = true → ∃ q, p = Closed q) ∧
    ((validatePlan env plan []).2 ≠ None → p = Ready 0).
Proof.
  assert (∀ P : Phase → Prop, (∃ p, trace (Ready 0) (Run env plan []).1 p ∧ P p) →
    ∃ p, trace (Ready 0) (Run env plan []).1 p ∧ reverse (executed (Run env plan []).1) = take (progress p) (Stages plan) ∧ P p) as Horder.
  { intros P (p & Ht & HP). exists p. split_and!; [done|by apply executed_in_order|done]. }
  apply Horder. clear Horder.
  unfold Run, mbind, Action_bind. destruct (validate_quiet []) as (new & invalid & Hv & Hs & Hrun). rewrite Hv. destruct invalid as [f|].
  { exists (Ready 0). split_and!; [|done..]. simpl. rewrite app_nil_r. by apply silent_trace. }
  destruct (rest_follows (Hrun eq_refl) (new ++ [])) as (new' & failed & p & Hm & Ht & Hdone & Hclosed). unfold mbind, Action_bind in Hm. rewrite Hm.
  exists p. split_and!; [|done|by intros _|done]. simpl. rewrite app_nil_r. eapply trace_app; [by apply silent_trace|done].
Qed.

End machine.

(** ** Concrete runs *)

#[local] Instance plain_argv : ArgvText := {|
  encode_argv command dir args environment := GoText.Join " " (command :: dir :: args ++ environment); signal_name number := "signal" |}.

Definition stage1 (id : string) (expect : option Expectation) : Stage := {|
  Stage_ID := id; Stage_Command := "/bin/" +:+ id; Stage_Args := []; Stage_Dir := "/tmp"; Stage_Env := []; Stage_Expect := expect |}.
Definition plan1 (limit : Z) (stages : list Stage) : Plan := {|
  EvidenceRoot := "/evidence"; OutputLimit := limit; Stages := stages; Cleanup := true; StageTimeout := Minute; GracePeriod := Second |}.

(** A system on which every call succeeds; a child writes its chunks and exits. *)
Definition env1 (children : string → list (bool * string) * WaitStatus) : Env := {|
  says _ _ := None; root_info _ := Ok {| Root_IsDir := true; Root_Symlink := false; Root_Perm := 448 |}; root_entries _ := Ok 0%nat;
  child_of _ s := let '(chunks, status) := children (Stage_ID s) in
    {| child_start := None; child_output := chunks; child_status := status; child_watch := None; child_delayed := false; child_stderr_first := false |};
  kill_says _ _ := NoProcess; path_says _ _ := Missing; clock h := Z.of_nat (length h) |}.

(** Two stages pass; a stage that fails is the last to run, and the cleanup follows. *)
Example two_stages_pass : (Run (env1 (λ _, ([(false, "ok")], 0))) (plan1 64 [stage1 "build" None; stage1 "test" None]) []).2 = None.
Proof. vm_compute. reflexivity. Qed.

Example failure_stops :
  let '(h, failed) := Run (env1 (λ id, ([], if bool_decide (id = "build") then 256 else 0))) (plan1 64 [stage1 "build" None; stage1 "test" None]) [] in
  (Stage_ID <$> executed h, head h, failed) =
    (["build"], Some (Did RunCleanup true), Some (Joined [AtStage "stage %s: %w" "build" (Joined [ExitError 256])])).
Proof. vm_compute. reflexivity. Qed.

(** A stage that expects four bytes and status 3 passes although its command wrote
    more than the limit: the capture ends at the limit, and only what was captured
    is compared. *)
Definition four_bytes : Expectation := {| Expect_ExitStatus := 3; Expect_Signal := ""; Expect_Stdout := "1234"; Expect_Stderr := ""; Expect_Absent := [] |}.
Example truncated_output_verified :
  (Run (env1 (λ _, ([(false, "1234"); (false, "56")], 768))) (plan1 5 [stage1 "check" (Some four_bytes)]) []).2 = None.
Proof. vm_compute. reflexivity. Qed.
