(* ===== verification/ProviderConfig.v ===== *)
(** * The configuration of the provider
    ([src/internal/garmproviderincus/config/config.go])

    The decoded configuration and its validation, over what the file system answers.
    Go walks the map of worker images in any order, so the order is an argument; the
    verdict is shown not to depend on it. *)

From S2P Require Import Prelude GoText QueueIntent ProviderRetry NetIP FleetConfig CacheNamespace CacheBroker Tenant HostProbe NDDevAdmission.

Local Open Scope Z_scope.
Local Open Scope go_scope.

Definition ExpectedIncusURL : string := "https://127.0.0.1:8443".
Definition ExpectedProjectName : string := "gha-fleet".

Definition hex_text (length : nat) (s : string) : bool := (String.length s =? length)%nat && all_bytes (λ c, is_digit c || in_range "a" "f" c) s.
Definition fingerprintPattern : string → bool := hex_text 64.
Definition commitPattern : string → bool := hex_text 40.

Record IncusImageRemote := { Remote_Address : string; Remote_Public : bool; Remote_Protocol : string; Remote_InsecureSkipVerify : bool }.

Record ProviderConfig := {
  UnixSocket : string; ProjectName : string; IncludeDefaultProfile : bool; URL : string; ClusterURLs : list string;
  ClientCertificate : string; ClientKey : string; TLSServerCert : string; TLSCA : string;
  ImageRemotes : gmap string IncusImageRemote; SecureBoot : bool; WorkerImages : gmap string WorkerImage;
  PlatformConfigFile : string; JournalFile : string; JournalLockFile : string; QueueIntentFile : string; CacheClaimFile : string; CacheClaimLockFile : string;
  AdmissionLeaseSeconds : Z; PreviousProviderIdentities : list ProviderIdentity; CurrentProviderIdentity : ProviderIdentity;
  AllowedGitHubAccounts : list string; AllowedGitHubRepositories : list string; WorkerGatewayURL : string;
  DiagnosticsDirectory : string; DiagnosticsRetentionHours : Z; DiagnosticsMaxBundleBytes : Z; DiagnosticsMaxTotalBytes : Z;
}.

(** ** Paths and files *)

Definition is_abs_path (path : string) : bool := HasPrefix path "/".

(** [filepath.Clean] of an absolute path, as its segments: empty ones and [.] are
    dropped, [..] removes what is before it. *)
Definition clean_segment (acc : list string) (segment : string) : list string :=
  if bool_decide (segment = "") || bool_decide (segment = ".") then acc
  else if bool_decide (segment = "..") then removelast acc
  else acc ++ [segment].
Definition Clean (path : string) : list string := foldl clean_segment [] (split_byte slash path).
Definition path_text (segments : list string) : string := "/" +:+ Join "/" segments.
(** [filepath.Dir] of an absolute path: its text up to the last slash, cleaned. *)
Definition Dir (path : string) : string := path_text (foldl clean_segment [] (removelast (split_byte slash path))).

Record FileMode := { Mode_Symlink : bool; Mode_Regular : bool; Mode_Dir : bool; Mode_Perm : Z }.
Inductive Lstat := Found (mode : FileMode) | NotExist | LstatFailed (e : error).
Record FileSystem := { lstat : string → Lstat; EvalSymlinks : string → result string }.

Section validate.
Context (fs : FileSystem) `{!WebText}.

(** What [Lstat] reports, an absent file being an error. *)
Definition mode_of (path : string) : result FileMode :=
  match lstat fs path with Found mode => Ok mode | NotExist => Err (Errorf "file does not exist" [path]) | LstatFailed e => Err e end.

Definition real_parent (path : string) : result unit :=
  resolved ← wrap_err "resolve parent directory: %w" (EvalSymlinks fs (Dir path));
  fail_if (negb (bool_decide (Clean resolved = Clean (Dir path)))) (Errorf "parent directory must not traverse symlinks" []).

Definition validateRegularFile (path : string) (private : bool) : result unit :=
  fail_if (negb (is_abs_path path)) (Errorf "path must be absolute" []);;
  real_parent path;;
  mode ← mode_of path;
  fail_if (Mode_Symlink mode || negb (Mode_Regular mode)) (Errorf "path must reference a regular file, not a symlink" []);;
  fail_if (private && negb (Z.land (Mode_Perm mode) 23 =? 0))
    (Errorf "private key permissions may grant group read, but not group write/execute or other access" []).

Definition bounded_path (path : string) : result unit :=
  fail_if (negb (is_abs_path path) || bool_decide (Clean path = [])) (Errorf "path must be absolute and bounded" []).

Definition validateStatePath (path : string) : result unit :=
  bounded_path path;;
  real_parent path;;
  parent ← mode_of (Dir path);
  fail_if (negb (Mode_Dir parent) || Mode_Symlink parent) (Errorf "parent must be a real directory" []);;
  match lstat fs path with
  | NotExist => Ok tt
  | LstatFailed e => Err e
  | Found mode =>
      fail_if (negb (Mode_Regular mode) || Mode_Symlink mode || negb (Z.land (Mode_Perm mode) 63 =? 0)) (Errorf "existing state must be a private regular file" [])
  end.

Definition validateStateDirectory (path : string) : result unit :=
  bounded_path path;;
  resolved ← EvalSymlinks fs path;
  fail_if (negb (bool_decide (Clean resolved = Clean path))) (Errorf "directory must not traverse symlinks" []);;
  mode ← mode_of path;
  fail_if (Mode_Symlink mode || negb (Mode_Dir mode)) (Errorf "path must reference a directory, not a symlink" []);;
  fail_if (negb (Z.land (Mode_Perm mode) 63 =? 0)) (Errorf "directory must not grant group or other access" []).

(** ** Addresses *)

(** [netip.Addr.IsPrivate]: RFC 1918 and [fc00::/7]. *)
Definition IsPrivate (a : Addr) : bool := match Unmap a with IPv4 v => IsPrivate4 v | IPv6 v _ => v / 2 ^ 121 =? 126 end.

Definition validateIncusEndpoint (host : string) : result unit :=
  if bool_decide (host = "127.0.0.1:8443") then Ok tt
  else match ParseAddrPort host with
       | None => Err (Errorf "must be host:port" [])
       | Some (address, port) =>
           fail_if (negb (port =? 8443)) (Errorf "must use port 8443" []);;
           fail_if (negb (IsPrivate address)) (Errorf "must be %s or a private-unicast cluster member" [ExpectedIncusURL])
       end.

Definition validate_endpoint (endpoint : string) : result unit :=
  match web_ParseRequestURI endpoint with
  | None => Err (Errorf "invalid Incus URL" [])
  | Some u =>
      fail_if (negb (bool_decide (Web_Scheme u = "https")) || Web_HasUser u || (negb (bool_decide (Web_Path u = "")) && negb (bool_decide (Web_Path u = "/")))
               || negb (bool_decide (Web_RawQuery u = "")) || negb (bool_decide (Web_Fragment u = "")))
        (Errorf "url must be a bare https endpoint with no path, query, fragment or credentials" []);;
      wrap_err "invalid Incus endpoint %q: %w" (validateIncusEndpoint (Web_Host u))
  end.

(** A loop that refuses an element it has seen. *)
Fixpoint distinct {A K} `{EqDecision K} (key : A → K) (duplicate : A → error) (check : A → result unit) (seen : list K) (xs : list A) : result unit :=
  match xs with
  | [] => Ok tt
  | x :: xs =>
      fail_if (bool_decide (key x ∈ seen)) (duplicate x);;
      check x;;
      distinct key duplicate check (key x :: seen) xs
  end.

Definition endpoints (c : ProviderConfig) : list string := if bool_decide (URL c = "") then ClusterURLs c else [URL c].

Definition validate_endpoints (c : ProviderConfig) : result unit :=
  fail_if (negb (bool_decide (URL c = "")) && negb (bool_decide (ClusterURLs c = []))) (Errorf "url and cluster_urls are mutually exclusive" []);;
  fail_if (bool_decide (URL c = "") && bool_decide (ClusterURLs c = [])) (Errorf "url or cluster_urls must be specified" []);;
  fail_if (bool_decide (URL c = "") && ((length (ClusterURLs c) <? 2)%nat || (4 <? length (ClusterURLs c))%nat))
    (Errorf "cluster_urls must contain between two and four endpoints" []);;
  distinct id (λ endpoint, Errorf "cluster_urls contains duplicate endpoint %q" [endpoint]) validate_endpoint [] (endpoints c).

Definition validate_gateway (c : ProviderConfig) : result unit :=
  let refusal := Errorf "worker_gateway_url must use a literal unicast IP and port 9443" [] in
  match web_ParseRequestURI (WorkerGatewayURL c) with
  | None => Err (Errorf "worker_gateway_url must be a bare HTTPS origin" [])
  | Some u =>
      fail_if (negb (bool_decide (Web_Scheme u = "https")) || Web_HasUser u || negb (bool_decide (Web_Path u = "")) || negb (bool_decide (Web_RawQuery u = ""))
               || negb (bool_decide (Web_Fragment u = ""))) (Errorf "worker_gateway_url must be a bare HTTPS origin" []);;
      match SplitHostPort (Web_Host u) with
      | None => Err refusal
      | Some (host, port) =>
          match ParseIP host with
          | None => Err refusal
          | Some kind => fail_if (IsUnspecified kind || IsMulticast kind || negb (bool_decide (port = "9443"))) refusal
          end
      end
  end.

(** ** Identities *)

Definition check_github_identity (label : string) (repository : bool) (value : string) : result unit :=
  fail_if (bool_decide (value = "") || negb (trimmed value) || negb (bool_decide (contains_any ["/"%char; "\"%char] value = repository)))
    (Errorf "%s contains invalid identity %q" [label; value]);;
  if repository then
    match split_byte slash value with
    | [owner; name] => fail_if (bool_decide (owner = "") || bool_decide (name = "")) (Errorf "%s contains invalid repository %q" [label; value])
    | _ => Err (Errorf "%s contains invalid repository %q" [label; value])
    end
  else Ok tt.

(** Each value is checked before it is looked up. *)
Fixpoint validateGitHubIdentities (label : string) (repository : bool) (seen : list string) (values : list string) : result unit :=
  match values with
  | [] => Ok tt
  | value :: values =>
      check_github_identity label repository value;;
      fail_if (bool_decide (ToLower value ∈ seen)) (Errorf "%s contains duplicate identity %q" [label; value]);;
      validateGitHubIdentities label repository (ToLower value :: seen) values
  end.

Definition validate_identity (i : ProviderIdentity) : result unit :=
  fail_if (bool_decide (Identity_Version i = "") || negb (trimmed (Identity_Version i)) || (64 <? String.length (Identity_Version i))%nat
           || negb (commitPattern (Identity_Commit i))) (Errorf "previous_provider_identities contains an invalid exact identity" []).

(** ** Worker images *)

Definition check_image (flavor : string) (image : WorkerImage) : result unit :=
  let previous := PreviousFingerprint image in
  fail_if (bool_decide (flavor = "") || negb (trimmed flavor)) (Errorf "worker_images key must be an exact non-empty flavor" []);;
  fail_if (bool_decide (Image_Alias image = "") || negb (trimmed (Image_Alias image)) || contains_byte ":" (Image_Alias image))
    (Errorf "worker_images.%s.alias must name one local Incus alias" [flavor]);;
  fail_if (negb (fingerprintPattern (Fingerprint image))) (Errorf "worker_images.%s.fingerprint must be a lowercase SHA-256 digest" [flavor]);;
  fail_if (negb (bool_decide (previous = "")) && negb (fingerprintPattern previous))
    (Errorf "worker_images.%s.previous_fingerprint must be a lowercase SHA-256 digest" [flavor]);;
  fail_if (negb (bool_decide (previous = "")) && bool_decide (previous = Fingerprint image))
    (Errorf "worker_images.%s.previous_fingerprint must differ from current fingerprint" [flavor]);;
  fail_if (negb (bool_decide (Variant image = "standard")) && negb (bool_decide (Variant image = "integration")))
    (Errorf "worker_images.%s.variant must be standard or integration" [flavor]);;
  fail_if (negb (bool_decide (Image_InstanceType image = IncusImageVirtualMachine)) && negb (bool_decide (Image_InstanceType image = IncusImageContainer)))
    (Errorf "worker_images.%s.instance_type must be virtual-machine or container" [flavor]);;
  fail_if ((RunnerUID image <? 1) || (65535 <? RunnerUID image)) (Errorf "worker_images.%s.runner_uid must be in 1..65535" [flavor]);;
  fail_if ((RunnerGID image <? 1) || (65535 <? RunnerGID image)) (Errorf "worker_images.%s.runner_gid must be in 1..65535" [flavor]).

(** One turn of the walk: the aliases pinned so far, and whether a machine was seen. *)
Definition take_image (s : gmap string string * bool) (entry : string * WorkerImage) : result (gmap string string * bool) :=
  let '(flavor, image) := entry in
  check_image flavor image;;
  fail_if (match s.1 !! Image_Alias image with Some fingerprint => negb (bool_decide (fingerprint = Fingerprint image)) | None => false end)
    (Errorf "worker image alias %q is pinned to conflicting fingerprints" [Image_Alias image]);;
  Ok (<[Image_Alias image := Fingerprint image]> s.1, s.2 || bool_decide (Image_InstanceType image = IncusImageVirtualMachine)).

Definition validate_images (c : ProviderConfig) (order : list (string * WorkerImage)) : result unit :=
  fail_if (bool_decide (order = [])) (Errorf "worker_images must pin at least one pool image" []);;
  '(_, hasVirtualMachine) ← foldM take_image order (∅, false);
  fail_if (negb (bool_decide (hasVirtualMachine = SecureBoot c))) (Errorf "secure_boot must be true exactly when a virtual-machine worker image is configured" []).

(** ** The whole *)

Definition validate_certificates (c : ProviderConfig) : result unit :=
  fail_if (bool_decide (ClientCertificate c = "") || bool_decide (ClientKey c = "")) (Errorf "client_certificate and client_key are mandatory" []);;
  wrap_err "invalid client certificate %s: %w" (validateRegularFile (ClientCertificate c) false);;
  wrap_err "invalid client key %s: %w" (validateRegularFile (ClientKey c) true);;
  fail_if (bool_decide (TLSServerCert c = "")) (Errorf "tls_server_certificate is mandatory" []);;
  wrap_err "invalid tls_server_certificate %s: %w" (validateRegularFile (TLSServerCert c) false);;
  if bool_decide (TLSCA c = "") then Ok tt else wrap_err "invalid tls_ca %s: %w" (validateRegularFile (TLSCA c) false).

Definition state_paths (c : ProviderConfig) : list string := [JournalFile c; JournalLockFile c; QueueIntentFile c; CacheClaimFile c; CacheClaimLockFile c].

Definition validate_state (c : ProviderConfig) : result unit :=
  wrap_err "invalid platform_config_file %s: %w" (validateRegularFile (PlatformConfigFile c) false);;
  wrap_err "invalid journal_file %s: %w" (validateStatePath (JournalFile c));;
  wrap_err "invalid journal_lock_file %s: %w" (validateStatePath (JournalLockFile c));;
  fail_if (bool_decide (Clean (JournalFile c) = Clean (JournalLockFile c))) (Errorf "journal_file and journal_lock_file must differ" []);;
  wrap_err "invalid queue_intent_file %s: %w" (validateStatePath (QueueIntentFile c));;
  fail_if (bool_decide (Clean (QueueIntentFile c) = Clean (JournalFile c)) || bool_decide (Clean (QueueIntentFile c) = Clean (JournalLockFile c)))
    (Errorf "queue_intent_file must differ from provider journal paths" []);;
  wrap_err "invalid cache_claim_file %s: %w" (validateStatePath (CacheClaimFile c));;
  wrap_err "invalid cache_claim_lock_file %s: %w" (validateStatePath (CacheClaimLockFile c));;
  distinct Clean (λ _, Errorf "provider journal, queue intent and cache claim paths must be distinct" []) (λ _, Ok tt) [] (state_paths c).

Definition validate_pilot (c : ProviderConfig) : result unit :=
  fail_if (1 <? length (PreviousProviderIdentities c))%nat (Errorf "previous_provider_identities may contain only N-1" []);;
  forM (PreviousProviderIdentities c) validate_identity;;
  fail_if (negb (AdmissionLeaseSeconds c =? 300)) (Errorf "admission_lease_seconds must be exactly 300 during the pilot" []);;
  wrap_err "invalid diagnostics_directory %s: %w" (validateStateDirectory (DiagnosticsDirectory c));;
  fail_if (negb (DiagnosticsRetentionHours c =? 168)) (Errorf "diagnostics_retention_hours must be exactly 168 during the pilot" []);;
  fail_if (negb (DiagnosticsMaxBundleBytes c =? 16 * 1024 * 1024)) (Errorf "diagnostics_max_bundle_bytes must be exactly 16777216 during the pilot" []);;
  fail_if (negb (DiagnosticsMaxTotalBytes c =? 1024 * 1024 * 1024)) (Errorf "diagnostics_max_total_bytes must be exactly 1073741824 during the pilot" []).

Definition validate_boundary (c : ProviderConfig) : result unit :=
  fail_if (bool_decide (AllowedGitHubAccounts c = []) && bool_decide (AllowedGitHubRepositories c = []))
    (Errorf "allowed_github_accounts or allowed_github_repositories must declare the provider boundary" []);;
  fail_if (negb (HasPrefix (Identity_Version (CurrentProviderIdentity c)) "v0.1.5-nddev.") || negb (commitPattern (Identity_Commit (CurrentProviderIdentity c))))
    (Errorf "current_provider_identity must contain the exact release version and commit" []);;
  validateGitHubIdentities "allowed_github_accounts" false [] (AllowedGitHubAccounts c);;
  validateGitHubIdentities "allowed_github_repositories" true [] (AllowedGitHubRepositories c).

Definition Provider_Validate (c : ProviderConfig) (order : list (string * WorkerImage)) : result unit :=
  validate_boundary c;;
  validate_gateway c;;
  fail_if (negb (bool_decide (UnixSocket c = ""))) (Errorf "unix_socket_path is forbidden; use the pinned loopback TLS endpoint" []);;
  validate_endpoints c;;
  validate_certificates c;;
  fail_if (negb (bool_decide (ImageRemotes c = ∅))) (Errorf "image_remotes are forbidden; only the pinned local image is allowed" []);;
  fail_if (negb (bool_decide (ProjectName c = ExpectedProjectName))) (Errorf "project_name must be %s" [ExpectedProjectName]);;
  fail_if (IncludeDefaultProfile c) (Errorf "include_default_profile must be false" []);;
  validate_images c order;;
  validate_state c;;
  validate_pilot c.

Definition Remote_Validate (r : IncusImageRemote) : result unit :=
  fail_if (negb (bool_decide (Remote_Protocol r = "simplestreams"))) (Errorf "invalid remote protocol %s. Supported protocols: %s" [Remote_Protocol r; "simplestreams"]);;
  fail_if (bool_decide (Remote_Address r = "")) (Errorf "missing address" []);;
  match web_ParseRequestURI (Remote_Address r) with
  | None => Err (Errorf "validating address" [])
  | Some u => fail_if (negb (bool_decide (Web_Scheme u = "http")) && negb (bool_decide (Web_Scheme u = "https"))) (Errorf "address must be http or https" [])
  end.

(** [NewConfig]: the decoded file and the keys that no field takes. *)
Definition NewConfig (decoded : result (ProviderConfig * list string)) (order : list (string * WorkerImage)) : result ProviderConfig :=
  '(c, undecoded) ← wrap_err "error decoding config: %w" decoded;
  fail_if (negb (bool_decide (undecoded = []))) (Errorf "error decoding config: unknown keys: %v" undecoded);;
  wrap_err "error validating config: %w" (Provider_Validate c order);;
  Ok c.

End validate.

(** ** Facts *)

Definition is_machine (entry : string * WorkerImage) : bool := bool_decide (Image_InstanceType entry.2 = IncusImageVirtualMachine).
Definition sound (entry : string * WorkerImage) : Prop := check_image entry.1 entry.2 = Ok tt.
Definition consistent (order : list (string * WorkerImage)) : Prop :=
  ∀ e1 e2, e1 ∈ order → e2 ∈ order → Image_Alias e1.2 = Image_Alias e2.2 → Fingerprint e1.2 = Fingerprint e2.2.

Lemma take_image_Ok s entry s' :
  take_image s entry = Ok s' ↔
  sound entry ∧ (∀ f, s.1 !! Image_Alias entry.2 = Some f → f = Fingerprint entry.2) ∧
  s' = (<[Image_Alias entry.2 := Fingerprint entry.2]> s.1, s.2 || is_machine entry).
Proof.
  destruct entry as [flavor image]. unfold take_image, sound, is_machine. cbn [fst snd]. destruct (check_image flavor image) as [[]|e]; [|by split; intros H; [|destruct H]].
  cbn [mbind result_bind]. destruct (s.1 !! Image_Alias image) as [f|] eqn:Hl; cbn [fail_if mbind result_bind].
  - destruct (bool_decide (f = Fingerprint image)) eqn:Hf; cbn [negb fail_if mbind result_bind].
    + apply bool_decide_eq_true in Hf as ->. split; [intros [= <-]; split_and!; [done| |done]; by intros ? [= <-]|]. by intros (_ & _ & ->).
    + apply bool_decide_eq_false in Hf. split; [done|]. intros (_ & H & _). by destruct (Hf (H _ eq_refl)).
  - split; [intros [= <-]; split_and!; [done|done|done]|]. by intros (_ & _ & ->).
Qed.

(** What the walk accepts, whatever was pinned before. *)
Lemma take_images_Ok order s s' :
  foldM take_image order s = Ok s' →
  Forall sound order ∧ s.1 ⊆ s'.1 ∧ (∀ e, e ∈ order → s'.1 !! Image_Alias e.2 = Some (Fingerprint e.2)) ∧ s'.2 = s.2 || existsb is_machine order.
Proof.
  revert s. induction order as [|e order IH]; intros s; cbn [foldM].
  - intros [= <-]. split_and!; [constructor|done|by intros e ?%elem_of_nil|by rewrite orb_false_r].
  - intros (s1 & (Hs & Hf & ->)%take_image_Ok & H)%bind_Ok. apply IH in H as (Hall & Hsub & Hin & Hvm). cbn [fst snd] in *. split_and!.
    + by constructor.
    + etrans; [|exact Hsub]. destruct (s.1 !! Image_Alias e.2) as [f|] eqn:Hl; [|by apply insert_subseteq]. rewrite (Hf _ eq_refl) in Hl. by rewrite insert_id.
    + intros e' [->|?]%elem_of_cons; [|auto]. eapply lookup_weaken; [|done]. by rewrite lookup_insert_eq.
    + rewrite Hvm. cbn [existsb]. by rewrite orb_assoc.
Qed.

Lemma take_images_total order s :
  Forall sound order → consistent order → (∀ e f, e ∈ order → s.1 !! Image_Alias e.2 = Some f → f = Fingerprint e.2) → ∃ s', foldM take_image order s = Ok s'.
Proof.
  intros Hall. revert s. induction Hall as [|e order He Hall IH]; intros s Hc Hs; cbn [foldM]; [by exists s|].
  assert (take_image s e = Ok (<[Image_Alias e.2 := Fingerprint e.2]> s.1, s.2 || is_machine e)) as ->.
  { apply take_image_Ok. split_and!; [done| |done]. intros f. apply Hs, list_elem_of_here. }
  cbn [mbind result_bind]. apply IH.
  - intros e1 e2 H1 H2. apply Hc; by apply list_elem_of_further.
  - intros e' f Hin. cbn [fst]. destruct (decide (Image_Alias e'.2 = Image_Alias e.2)) as [Heq|Hne].
    + rewrite Heq, lookup_insert_eq. intros [= <-]. apply Hc; [apply list_elem_of_here|by apply list_elem_of_further|done].
    + rewrite lookup_insert_ne by done. apply Hs. by apply list_elem_of_further.
Qed.

Lemma validate_images_iff c order :
  validate_images c order = Ok tt ↔ order ≠ [] ∧ Forall sound order ∧ consistent order ∧ existsb is_machine order = SecureBoot c.
Proof.
  unfold validate_images. split.
  - intros ([] & Hne%fail_if_Ok & H)%bind_Ok. apply bool_decide_eq_false in Hne. apply bind_Ok in H as ([aliases vm] & Hf & H%fail_if_Ok).
    apply negb_false_iff, bool_decide_eq_true in H. apply take_images_Ok in Hf as (Hall & _ & Hin & Hvm). cbn [fst snd orb] in *. split_and!; [done|done| |by rewrite <-Hvm].
    intros e1 e2 H1%Hin H2%Hin Heq. congruence.
  - intros (Hne & Hall & Hc & Hvm). rewrite bool_decide_eq_false_2 by done. cbn [fail_if mbind result_bind].
    destruct (take_images_total order (∅, false) Hall Hc) as [[aliases vm] Hf]; [intros e f _; cbn [fst]; by rewrite lookup_empty|]. rewrite Hf. cbn [mbind result_bind].
    apply take_images_Ok in Hf as (_ & _ & _ & Hv). cbn [fst snd orb] in Hv. subst vm. by rewrite bool_decide_eq_true_2.
Qed.

Lemma existsb_perm {A} (f : A → bool) xs ys : xs ≡ₚ ys → existsb f xs = existsb f ys.
Proof. induction 1; simpl; [done|congruence| |congruence]. rewrite !orb_assoc. by rewrite (orb_comm (f _)). Qed.

Lemma validate_images_perm c order order' : order' ≡ₚ order → validate_images c order = Ok tt → validate_images c order' = Ok tt.
Proof.
  intros Hp. rewrite !validate_images_iff. intros (Hne & Hall & Hc & Hvm). split_and!.
  - intros ->. by apply Permutation_nil_l in Hp.
  - by rewrite Hp.
  - intros e1 e2. rewrite !Hp. apply Hc.
  - by rewrite (existsb_perm _ _ _ Hp).
Qed.

Lemma distinct_Ok {A K} `{EqDecision K} (key : A → K) duplicate check seen xs :
  distinct key duplicate check seen xs = Ok tt → NoDup (key <$> xs) ∧ (∀ x, x ∈ xs → (key x ∉ seen) ∧ check x = Ok tt).
Proof.
  revert seen. induction xs as [|x xs IH]; intros seen; cbn [distinct]; [intros _; split; [constructor|by intros x ?%elem_of_nil]|].
  intros ([] & Hn%fail_if_Ok & ([] & Hx & [Hd Hs]%IH)%bind_Ok)%bind_Ok. apply bool_decide_eq_false in Hn. split.
  - cbn. constructor; [|done]. intros (y & Heq & Hy)%list_elem_of_fmap. destruct (Hs _ Hy) as [Hk _]. apply Hk. rewrite <-Heq. apply list_elem_of_here.
  - intros y [->|Hy]%elem_of_cons; [done|]. destruct (Hs _ Hy) as [Hk Hc]. split; [|done]. intros Hin. apply Hk. by apply list_elem_of_further.
Qed.

Section claims.
Context (fs : FileSystem) {Hweb : WebText}.

(** An endpoint the provider may connect to. *)
Definition inside (endpoint : string) : Prop := ∃ u,
  web_ParseRequestURI endpoint = Some u ∧ Web_Scheme u = "https" ∧ Web_HasUser u = false ∧
  (Web_Host u = "127.0.0.1:8443" ∨ ∃ a, ParseAddrPort (Web_Host u) = Some (a, 8443) ∧ IsPrivate a = true).

Lemma endpoint_inside endpoint : validate_endpoint endpoint = Ok tt → inside endpoint.
Proof.
  unfold validate_endpoint, inside. destruct (web_ParseRequestURI endpoint) as [u|]; [|done]. intros ([] & Hu%fail_if_Ok & He%wrap_err_Ok)%bind_Ok.
  apply orb_false_iff in Hu as [[[[Hs Hus]%orb_false_iff _]%orb_false_iff _]%orb_false_iff _]. apply negb_false_iff, bool_decide_eq_true in Hs.
  exists u. split_and!; [done..|]. unfold validateIncusEndpoint in He. destruct (bool_decide (Web_Host u = _)) eqn:Hh; [left; by apply bool_decide_eq_true in Hh|].
  right. destruct (ParseAddrPort (Web_Host u)) as [[a port]|]; [|done]. apply bind_Ok in He as ([] & Hp%fail_if_Ok & Ha%fail_if_Ok).
  apply negb_false_iff in Hp, Ha. apply Z.eqb_eq in Hp as ->. by exists a.
Qed.

Lemma endpoints_inside c :
  validate_endpoints c = Ok tt → (1 ≤ length (endpoints c) ≤ 4)%nat ∧ NoDup (endpoints c) ∧ ∀ e, e ∈ endpoints c → inside e.
Proof.
  unfold validate_endpoints. intros ([] & _ & ([] & H1%fail_if_Ok & ([] & H2%fail_if_Ok & Hd)%bind_Ok)%bind_Ok)%bind_Ok. apply distinct_Ok in Hd as [Hn Hall].
  rewrite list_fmap_id in Hn. split_and!; [| |done|intros e [_ He]%Hall; by apply endpoint_inside].
  all: unfold endpoints in *; destruct (bool_decide (URL c = "")); simpl in *; [|lia].
  all: apply orb_false_iff in H2 as [Ha%Nat.ltb_ge Hb%Nat.ltb_ge]; lia.
Qed.

Lemma sound_image flavor image :
  sound (flavor, image) → hashPattern (Fingerprint image) = true ∧ Image_InstanceType image ∈ [IncusImageVirtualMachine; IncusImageContainer] ∧
    1 ≤ RunnerUID image ≤ 65535 ∧ 1 ≤ RunnerGID image ≤ 65535.
Proof.
  unfold sound, check_image. cbn [fst snd]. cbv zeta. intros H.
  repeat match goal with H : (_ ≫= _) = Ok tt |- _ => apply bind_Ok in H as ([] & ?%fail_if_Ok & H) end. apply fail_if_Ok in H.
  repeat match goal with H : _ || _ = false |- _ => apply orb_false_iff in H as [? ?] end. split_and!; [by apply negb_false_iff| |lia..].
  match goal with H : negb (bool_decide (Image_InstanceType image = IncusImageVirtualMachine)) && _ = false |- _ => apply andb_false_iff in H as [H|H] end;
    (match goal with H : negb (bool_decide (Image_InstanceType image = _)) = false |- _ => apply negb_false_iff, bool_decide_eq_true in H as -> end); set_solver.
Qed.

Lemma state_distinct c : validate_state fs c = Ok tt → NoDup (Clean <$> state_paths c).
Proof.
  unfold validate_state. intros H. do 8 apply bind_Ok in H as ([] & _ & H). by apply distinct_Ok in H as [? _].
Qed.

Lemma identities_bounded c actual :
  validate_pilot fs c = Ok tt → AllowsProviderIdentity (PreviousProviderIdentities c) actual (CurrentProviderIdentity c) = true →
  actual = CurrentProviderIdentity c ∨ PreviousProviderIdentities c = [actual].
Proof.
  unfold validate_pilot, AllowsProviderIdentity. intros ([] & Hl%fail_if_Ok & _)%bind_Ok. apply Nat.ltb_ge in Hl.
  intros [H%bool_decide_eq_true|(i & Hin & H%bool_decide_eq_true)%existsb_exists]%orb_true_iff; [by left|]. right. subst i.
  destruct (PreviousProviderIdentities c) as [|i [|j rest]]; simpl in *; [done| |lia]. by destruct Hin as [->|[]].
Qed.

(** C40: What a validated provider configuration guarantees. The verdict is the same for
    every order in which the map of images is walked. The provider connects to one to four
    distinct endpoints, each the loopback one or a private address on port 8443; every
    pool image is pinned to a digest, one alias to one digest, with a known type and an
    unprivileged user; the five state files are five files; and at most two provider
    identities are accepted. *)
Theorem validated_provider c order :
  Provider_Validate fs c order = Ok tt → order ≡ₚ map_to_list (WorkerImages c) →
  (∀ order', order' ≡ₚ order → Provider_Validate fs c order' = Ok tt) ∧
  ((1 ≤ length (endpoints c) ≤ 4)%nat ∧ NoDup (endpoints c) ∧ ∀ e, e ∈ endpoints c → inside e) ∧
  (∀ flavor image, WorkerImages c !! flavor = Some image →
    (hashPattern (Fingerprint image) = true ∧ Image_InstanceType image ∈ [IncusImageVirtualMachine; IncusImageContainer] ∧
     1 ≤ RunnerUID image ≤ 65535 ∧ 1 ≤ RunnerGID image ≤ 65535) ∧
    ∀ flavor' image', WorkerImages c !! flavor' = Some image' → Image_Alias image = Image_Alias image' → Fingerprint image = Fingerprint image') ∧
  NoDup (Clean <$> state_paths c) ∧
  (∀ actual, AllowsProviderIdentity (PreviousProviderIdentities c) actual (CurrentProviderIdentity c) = true →
    actual = CurrentProviderIdentity c ∨ PreviousProviderIdentities c = [actual]).
Proof.
  intros Hv Hp. pose proof Hv as Hall. unfold Provider_Validate in Hall.
  apply bind_Ok in Hall as ([] & Hb & ([] & Hg & ([] & Hu & ([] & Hends & ([] & Hcert & ([] & Hr & ([] & Hn & ([] & Hd & ([] & Himg & ([] & Hst & Hpi)
    %bind_Ok)%bind_Ok)%bind_Ok)%bind_Ok)%bind_Ok)%bind_Ok)%bind_Ok)%bind_Ok)%bind_Ok).
  split_and!; [|by apply endpoints_inside..| |by apply state_distinct|intros actual; by apply identities_bounded].
  - intros order' Hperm. unfold Provider_Validate. rewrite Hb, Hg, Hu, Hends, Hcert, Hr, Hn, Hd, (validate_images_perm _ _ _ Hperm Himg), Hst. done.
  - apply validate_images_iff in Himg as (_ & Hsound & Hc & _). assert (∀ flavor image, WorkerImages c !! flavor = Some image → (flavor, image) ∈ order) as Hin.
    { intros flavor image Hl. rewrite Hp. by apply elem_of_map_to_list. }
    intros flavor image Hl%Hin. rewrite Forall_forall in Hsound. split; [by apply (sound_image flavor), Hsound|].
    intros flavor' image' Hl'%Hin Heq. exact (Hc _ _ Hl Hl' Heq).
Qed.

End claims.

(** ** A concrete deployment *)

Definition digest1 : string := "0123456789abcdef0123456789abcdef0123456789abcdef0123456789abcdef".
Definition commit1 : string := "0123456789abcdef0123456789abcdef01234567".

#[local] Instance origins : WebText := {|
  web_Parse _ := None;
  web_ParseRequestURI s :=
    if HasPrefix s "https://" then
      Some {| Web_Scheme := "https"; Web_Host := drop_bytes 8 s; Web_HasUser := false; Web_Path := ""; Web_RawQuery := ""; Web_Fragment := "" |}
    else None;
  SplitHostPort s := match split_byte ":" s with [host; port] => Some (host, port) | _ => None end;
  ParseIP s := (λ _, {| IsUnspecified := false; IsMulticast := false |}) <$> ParseAddr s |}.

(** Directories are real and private, files are regular and private. *)
Definition tidy : FileSystem := {|
  lstat path := Found {| Mode_Symlink := false; Mode_Regular := bool_decide (Clean path ≠ ["var"; "lib"]) && bool_decide (Clean path ≠ ["diagnostics"]);
    Mode_Dir := bool_decide (Clean path = ["var"; "lib"]) || bool_decide (Clean path = ["diagnostics"]); Mode_Perm := 384 |};
  EvalSymlinks path := Ok path |}.

Definition pinned_image (alias : string) : WorkerImage := {|
  Image_Alias := alias; Fingerprint := digest1; PreviousFingerprint := ""; Variant := "standard"; Image_InstanceType := IncusImageContainer;
  RunnerUID := 1001; RunnerGID := 1001 |}.

Definition deployment : ProviderConfig := {|
  UnixSocket := ""; ProjectName := "gha-fleet"; IncludeDefaultProfile := false; URL := ""; ClusterURLs := ["https://10.0.0.1:8443"; "https://10.0.0.2:8443"];
  ClientCertificate := "/etc/client.crt"; ClientKey := "/etc/client.key"; TLSServerCert := "/etc/server.crt"; TLSCA := "";
  ImageRemotes := ∅; SecureBoot := false; WorkerImages := {[ "small" := pinned_image "worker"; "large" := pinned_image "worker" ]};
  PlatformConfigFile := "/etc/platform.yaml"; JournalFile := "/var/lib/journal.json"; JournalLockFile := "/var/lib/journal.lock";
  QueueIntentFile := "/var/lib/intents.json"; CacheClaimFile := "/var/lib/claims.json"; CacheClaimLockFile := "/var/lib/claims.lock";
  AdmissionLeaseSeconds := 300; PreviousProviderIdentities := [{| Identity_Version := "v0.1.5-nddev.1"; Identity_Commit := commit1 |}];
  CurrentProviderIdentity := {| Identity_Version := "v0.1.5-nddev.2"; Identity_Commit := commit1 |};
  AllowedGitHubAccounts := ["nddev"]; AllowedGitHubRepositories := ["guild/project"]; WorkerGatewayURL := "https://10.0.0.1:9443";
  DiagnosticsDirectory := "/diagnostics"; DiagnosticsRetentionHours := 168; DiagnosticsMaxBundleBytes := 16777216; DiagnosticsMaxTotalBytes := 1073741824 |}.

Example deployment_valid : Provider_Validate tidy deployment (map_to_list (WorkerImages deployment)) = Ok tt.
Proof. vm_compute. reflexivity. Qed.

(** A public address, a second digest for an alias, and a lock that is its journal
    under another name are refused. *)
Example public_endpoint_refused : validateIncusEndpoint "198.51.100.1:8443" = Err (Errorf "must be %s or a private-unicast cluster member" [ExpectedIncusURL]).
Proof. vm_compute. reflexivity. Qed.
Example same_path : Clean "/var/lib/./journal.json" = Clean "/var//run/../lib/journal.json".
Proof. vm_compute. reflexivity. Qed.

Lemma validated_provider_witness :
  NoDup (Clean <$> state_paths deployment) ∧ (1 ≤ length (endpoints deployment) ≤ 4)%nat ∧
  Provider_Validate tidy deployment (reverse (map_to_list (WorkerImages deployment))) = Ok tt.
Proof.
  destruct (validated_provider tidy deployment (map_to_list (WorkerImages deployment))) as (Horder & (Hlen & _) & _ & Hn & _).
  - vm_compute. reflexivity.
  - reflexivity.
  - split; [exact Hn|]. split; [exact Hlen|]. apply Horder. apply reverse_Permutation.
Defined.
